(* ===== verification/_CoqProject ===== *)
-Q . S2P
Prelude.v
Bytes.v
Mem.v
Spinlock.v
Proc.v
ProcInv.v
ProcSys.v
ProcProps.v
Sleeplock.v
Disk.v
Dll.v
BlockLayer.v
Bio.v
Super.v
Log.v
LogOps.v
Tx.v
Ring.v
Pipe.v
Kalloc.v
Fs.v
FsBlocks.v
FsInode.v
FsMap.v
FsFile.v
FsDir.v
FsPath.v
FsEnds.v
Mkfs.v
MkfsProps.v
File.v
Ulib.v
Umalloc.v
Progs.v
Sh.v
ShParse.v
Vm.v
VmProps.v
Console.v
Syscall.v
SyscallProps.v
Machine.v
Irq.v
Mp.v
Ide.v
Exec.v
Boot.v
ExecProps.v
Sysfile.v
FdProps.v
