(* ===== verification/Prelude.v ===== *)
(** * A verification of the xv6 kernel and its user programs

    xv6 is a teaching operating system for the x86, written in C; this copy has a
    status argument for [exit] and [wait] and a system call [hello].  The
    development translates the C code, function by function and with the names of
    the source, into executable definitions, and proves what makes each part
    correct.

    ** How C is modelled

    Integers are [Z], with the wrap-around of their type written out ([u8], [u16],
    [u32], [i16], [i32]).  Structures are records, arrays are lists, pointers into
    an array are indices, and memory that the code addresses byte by byte is a map
    from addresses to bytes ([Mem.mem]).  Kernel code is a function of type
    [M S A] from the state of its component to an outcome: it returns ([Ok]),
    panics, goes to sleep on a channel, or has not ended within the turns that the
    definition allows ([Diverge]).  [wp m Q s] says that [m] returns with [Q];
    the theorems that code returns are stated with it or as equations.  A run is
    that of one process between two sleeps; where processes and CPUs interleave,
    a step relation or a list of steps puts such runs together.  User programs
    are trees of system calls ([Ulib.prog]), run against any kernel.

    ** The files

    - Prelude: integers, outcomes, loops and [wp]; Bytes: bytes of blocks and
      words; Mem: memory and string.c, with [memset] and [memmove] of ulib.c;
      Ring: ring buffers.
    - Spinlock: spinlock.c.  CPUs take and release locks one instruction
      sequence at a time.
    - Proc, ProcInv, ProcSys, ProcProps: proc.c.  [ProcInv] has the invariant of
      the process table, [ProcSys] the system of CPUs from the end of [userinit].
      [allocproc], [fork] and [exit] are made of the stretches between which other
      CPUs can run, and [pstep] interleaves these; the stretches that hold
      [ptable.lock], and each call into another component, are one step.  [wait]
      has the variable that its argument points to as an argument.
    - Sleeplock: sleeplock.c.
    - Disk: memide.c and the disk; Dll: doubly linked lists; BlockLayer: what the
      buffer cache promises; Bio: bio.c, and the proof that it keeps the promise.
    - Super, Log, LogOps: log.c on the block layer.  Log has the transactions and
      crashes, LogOps the concurrent operations that share a transaction.
    - Tx: the blocks as a file system operation sees them inside a transaction.
    - Fs: fs.c.  FsBlocks (the bitmap), FsInode (inodes and their cache), FsMap
      and FsFile (contents), FsDir (directories), FsPath (paths) have its
      theorems.
    - Mkfs: mkfs.c, the host program that makes the first image; MkfsProps: what
      the image is.
    - Kalloc: kalloc.c, with the free list in the pages themselves.
    - Pipe: pipe.c, and the processes at the two ends of a pipe.
    - File: file.c and [pipealloc]; FsEnds: the runs of the file system end;
      Sysfile: sysfile.c; FdProps: the invariant of the descriptors.
    - Vm, VmProps: page tables, vm.c.  [null] is the word that a read through a
      null pointer gives, as a function of the memory.
    - Console: console.c, kbd.c, uart.c, [cprintf], [procdump], [hello].
    - Syscall, SyscallProps: syscall.c, sysproc.c and trap.c.  [trap] has the
      calls of sysfile.c and the handler of the disk as arguments;
      [trap_call_resume] is the rest of it after a system call that slept.
    - Machine: a machine with ports and device registers, and the code that
      programs it: picirq.c, ioapic.c, timer.c, lapic.c, [uartinit] and
      [consoleinit].  Irq: what the devices do then; Mp: mp.c, the tables of the
      BIOS; Ide: ide.c, the disk driver; Boot: bootmain.c, the boot loader.
    - Exec, ExecProps: exec.c, [sys_exec], [loaduvm], segments and the switch of
      address spaces.
    - Ulib: ulib.c and printf.c; Umalloc: umalloc.c; Progs: cat, echo, grep, init,
      kill, ln, ls, mkdir, rm and wc; Sh, ShParse: sh.c.

    The file system calls the log, the log calls the block layer, and the buffer
    cache refines the block layer; the calls of sysfile.c go through file.c to the
    file system and to the pipes; system calls reach them through the argument
    checks of syscall.c.  [Devsw] is the interface of the file system to the
    devices, [Disk] that of the buffer cache to a disk.  Hardware is a parameter:
    [Machine] has its instructions, and [AtaDisk], [IoApic] and [Rtc] state what
    the data sheets of a disk controller, an interrupt controller and a clock
    promise; each has an instance that shows that the promise can be kept.

    ** What is proved

    - Disk: a client of the buffer cache cannot tell bio.c from the block layer;
      a commit is atomic under crashes at any disk write, recovery included; the
      reservations of [begin_op] suffice, and commits exclude operations.  The
      IDE driver serves its queue in order, as a [Disk] would.
    - Concurrency: nesting of [pushcli]; mutual exclusion of spin locks; the
      invariant of the process table under all interleavings; no lost wakeup
      between [exit] and [wait]; who sleeps on a pipe and why.
    - Files: allocation of blocks, encoding and caching of inodes, reading what
      was written, directories as maps, path names as lists of elements.  The
      image that mkfs makes has the form that these theorems require.
    - Descriptors: the reference counts, the types and the pages of pipes are
      right after every call of sysfile.c (all but [sys_exec], which is in Exec),
      and a pipe carries bytes from [sys_write] to [sys_read].
    - Memory: [memmove] and the string functions on overlapping and bounded
      memory, the page allocator, [mappages] and [copyout]; the stack that [exec]
      gives to a program; [malloc] and [free] of user programs.
    - Input and output: the console implements a line terminal; interrupts are
      routed to the processors that the drivers ask for.
    - Start: the boot loader puts the segments of the kernel into memory; what
      [mpinit] makes of the tables of the BIOS.
    - System calls: exactly the arguments inside of the process pass; a killed
      process does not return to user space, also from a call that slept; how long
      [sleep] lasts.
    - Programs: [wc], the matcher of [grep], the parser of
      the shell, which ends and inverts printing.

    Some theorems state what the code does where it should do something else:
    [ProcProps.wait_ignores_status], [ProcProps.kill_zero],
    [LogOps.mkfs_log_too_small], [Pipe.killed_writer_loses_wakeup],
    [Progs.Grep.grep_loses_line], [Progs.Grep.grep_loses_text],
    [VmProps.copyout_safe] (its second part),
    [SyscallProps.negative_sleep], [Umalloc.malloc_wraps], [Mp.mpinit_cases],
    [Ide.read_error_ignored], [Mem.umemmove_overlap].

    ** Bounds and fuel

    Loops over arrays run for the length of the array.  Loops with no such bound
    have fuel: [readi] and [writei] the number of bytes, the loops over a
    directory its size, [namex] the length of the path, [filewrite] the number
    of bytes; each turn uses up at least one, and FsEnds and FdProps prove that
    [Diverge] is not reached.  [malloc] and [free] take their fuel as an argument,
    and twice the number of free blocks is enough.  The lists of buffers are followed for [NBUF]
    links, and Bio proves that they end before; the parser of the shell has fuel
    for the length of the line, and ShParse proves it enough.  Loops that wait for
    a device ([idewait], [waitdisk], [lapic_delivs], [cmos_stable]) have the number
    of polls as an argument, and the theorems take as many as the device needs.
    [mpinit] and the loops of bootmain.c have the number of turns; the theorems
    say how many are enough, and where no number is.  [iappend] of mkfs has the
    number of bytes.  The constants
    (NPROC, NBUF, LOGSIZE, ...) are those of param.h.  The nesting depth [ncli] and
    the reference counts of buffers, inodes and files are integers without a width:
    the code would need 2^31 references at once to wrap them around.

    ** Not modelled

    - Assembly (bootasm.S, entry.S, entryother.S, trap entry, [swtch], usys.S):
      there are no registers in the model.  main.c, which calls the initialisers of
      the components one after the other: each component has a state of its own.
    - The contents of registers: a process that was switched out resumes at the
      point in the code where it gave up the CPU.
    - The test programs (usertests.c, forktest.c, stressfs.c, test.c, lab1.c,
      zombie.c): tests, not the system.
    - The operating system under mkfs: reads of the files and writes of the image
      are assumed to succeed.
    - The scheduler is not assumed to be fair; the liveness theorems say that a
      process is runnable, not that it runs. *)
From stdpp Require Import base numbers list gmap strings.
From Stdlib Require Import ZArith Lia.

Open Scope Z_scope.

(** * Machine integers *)

(** [uint], [ushort], [uchar] (types.h) and the two's-complement [int]. *)
Definition u8 (z : Z) : Z := z mod 2 ^ 8.
Definition u16 (z : Z) : Z := z mod 2 ^ 16.
Definition u32 (z : Z) : Z := z mod 2 ^ 32.
Definition i32 (z : Z) : Z := (z + 2 ^ 31) mod 2 ^ 32 - 2 ^ 31.
Definition i16 (z : Z) : Z := (z + 2 ^ 15) mod 2 ^ 16 - 2 ^ 15.

Definition is_u8 (z : Z) : Prop := 0 <= z < 256.
Definition is_u32 (z : Z) : Prop := 0 <= z < 2 ^ 32.

(** * Outcomes of kernel code *)

(** The channels on which kernel code sleeps ([sleep(chan, lk)]). *)
Inductive chan : Type :=
| CProc (slot : nat)
| CLog
| CBuf (dev blockno : Z)
| CInode (slot : nat)
| CPipeRead
| CPipeWrite
| CTicks
| CInput.

#[export] Instance chan_eq_dec : EqDecision chan.
Proof. solve_decision. Defined.

(** A run of kernel code on behalf of one process either returns, panics, or
    puts the process to sleep on a channel; a sleeping run carries the state it
    leaves behind.  [Diverge] is a pointer-chasing loop that has not ended
    within the number of steps the model allows it. *)
Inductive res (S A : Type) : Type :=
| Ok (a : A) (s : S)
| Panic (msg : string)
| Sleep (c : chan) (s : S)
| Diverge.
Arguments Ok {S A} _ _.
Arguments Panic {S A} _.
Arguments Sleep {S A} _ _.
Arguments Diverge {S A}.

Definition M (S A : Type) : Type := S -> res S A.

Definition ret {S A} (a : A) : M S A := fun s => Ok a s.

Definition bind {S A B} (m : M S A) (k : A -> M S B) : M S B :=
  fun s =>
    match m s with
    | Ok a s' => k a s'
    | Panic e => Panic e
    | Sleep c s' => Sleep c s'
    | Diverge => Diverge
    end.

Definition panic {S A} (msg : string) : M S A := fun _ => Panic msg.
Definition msleep {S A} (c : chan) : M S A := fun s => Sleep c s.
Definition mget {S} : M S S := fun s => Ok s s.
Definition gets {S A} (f : S -> A) : M S A := fun s => Ok (f s) s.
Definition modify {S} (f : S -> S) : M S unit := fun s => Ok tt (f s).
Definition diverge {S A} : M S A := fun _ => Diverge.
Definition when {S} (b : bool) (m : M S unit) : M S unit :=
  if b then m else ret tt.

(** Run code of a component on the part of a larger state that it owns. *)
Definition zoom {S T A} (get : S -> T) (set : T -> S -> S) (m : M T A) : M S A :=
  fun s =>
    match m (get s) with
    | Ok a t => Ok a (set t s)
    | Panic e => Panic e
    | Sleep c t => Sleep c (set t s)
    | Diverge => Diverge
    end.

(** * Spin locks, seen from the one process that runs

    A spin lock is a flag of the component it protects.  Taking a lock that the
    running code already holds is the panic of [acquire]; releasing one that it
    does not hold is the panic of [release]. *)
Definition acquire {S} (lk : S -> bool) (set : bool -> S -> S) : M S unit :=
  fun s => if lk s then Panic "acquire" else Ok tt (set true s).

Definition release {S} (lk : S -> bool) (set : bool -> S -> S) : M S unit :=
  fun s => if lk s then Ok tt (set false s) else Panic "release".

(** [wakeup(chan)] makes the sleepers on [chan] runnable (Proc.v models that on
    the process table).  The state of the components below the process table
    does not contain the sleepers, so the call leaves it as it is. *)
Definition wakeup {S} (c : chan) : M S unit := ret tt.

(** [for(i = i0; i < i0+n; i++) body(i)]. *)
Fixpoint mfor {S} (n : nat) (i : Z) (body : Z -> M S unit) : M S unit :=
  match n with
  | O => ret tt
  | S n' => bind (body i) (fun _ => mfor n' (i + 1) body)
  end.

(** The same loop with a body that may leave it early: [Some] is a [return] or
    a [break] out of the loop, [None] is falling off its end. *)
Fixpoint mfind {S A} (n : nat) (i : Z) (body : Z -> M S (option A)) : M S (option A) :=
  match n with
  | O => ret None
  | S n' =>
      bind (body i) (fun r =>
        match r with
        | Some a => ret (Some a)
        | None => mfind n' (i + 1) body
        end)
  end.

Declare Scope kernel_scope.
Delimit Scope kernel_scope with kernel.
Notation "x <- m ;; k" := (bind m (fun x => k))
  (at level 100, m at next level, k at level 200, right associativity) : kernel_scope.
Notation "m ;; k" := (bind m (fun _ => k))
  (at level 100, k at level 200, right associativity) : kernel_scope.
Open Scope kernel_scope.

Lemma bind_ok {S A B} (m : M S A) (k : A -> M S B) s a s' :
  m s = Ok a s' -> bind m k s = k a s'.
Proof. unfold bind. by intros ->. Qed.

Lemma bind_panic {S A B} (m : M S A) (k : A -> M S B) s e :
  m s = Panic e -> bind m k s = Panic e.
Proof. unfold bind. by intros ->. Qed.

Lemma bind_inv {S A B} (m : M S A) (k : A -> M S B) s b s' :
  bind m k s = Ok b s' -> exists a s1, m s = Ok a s1 /\ k a s1 = Ok b s'.
Proof. unfold bind. destruct (m s); naive_solver. Qed.

Lemma bind_assoc {S A B C} (m : M S A) (k : A -> M S B) (h : B -> M S C) s :
  bind (bind m k) h s = bind m (fun a => bind (k a) h) s.
Proof. unfold bind. by destruct (m s). Qed.

(** Loop rule: an invariant indexed by the loop counter. *)
Lemma mfor_inv {S} (P : Z -> S -> Prop) (n : nat) (i : Z) (body : Z -> M S unit) s :
  P i s ->
  (forall j t, i <= j < i + Z.of_nat n -> P j t ->
     exists t', body j t = Ok tt t' /\ P (j + 1) t') ->
  exists s', mfor n i body s = Ok tt s' /\ P (i + Z.of_nat n) s'.
Proof.
  revert i s. induction n as [|n IH]; intros i s HP Hstep; simpl.
  - exists s. split; [done|]. by rewrite Z.add_0_r.
  - destruct (Hstep i s) as (s1 & Hb & HP1); [lia|done|].
    rewrite (bind_ok _ _ _ _ _ Hb).
    destruct (IH (i + 1) s1) as (s2 & Hm & HP2); [done| |].
    + intros j t Hj. apply Hstep. lia.
    + exists s2. split; [done|].
      by replace (i + Z.of_nat (Datatypes.S n)) with (i + 1 + Z.of_nat n) by lia.
Qed.

Lemma mfor_app {S} (n m : nat) (i : Z) (body : Z -> M S unit) s :
  mfor (n + m) i body s = bind (mfor n i body) (fun _ => mfor m (i + Z.of_nat n) body) s.
Proof.
  revert i s. induction n as [|n IH]; intros i s; simpl.
  - unfold bind, ret. by rewrite Z.add_0_r.
  - rewrite bind_assoc. unfold bind at 1 2.
    destruct (body i s) as [[] s1| | |]; [|done|done|done].
    rewrite IH. by replace (i + 1 + Z.of_nat n) with (i + Z.pos (Pos.of_succ_nat n)) by lia.
Qed.

(** A search loop whose body has no effect before the index it stops at. *)
Lemma mfind_none {S A} (n : nat) (i : Z) (body : Z -> M S (option A)) s :
  (forall j, i <= j < i + Z.of_nat n -> body j s = Ok None s) ->
  mfind n i body s = Ok None s.
Proof.
  revert i. induction n as [|n IH]; intros i Hb; simpl; [done|].
  rewrite (bind_ok _ _ _ _ _ (Hb i ltac:(lia))). apply IH. intros j Hj. apply Hb. lia.
Qed.

Lemma mfind_some {S A} (n : nat) (i k : Z) (body : Z -> M S (option A)) s r :
  i <= k < i + Z.of_nat n ->
  (forall j, i <= j < k -> body j s = Ok None s) ->
  body k s = r -> (forall s', r <> Ok None s') ->
  mfind n i body s = r.
Proof.
  revert i. induction n as [|n IH]; intros i Hk Hb Hr Hne; simpl; [lia|].
  destruct (decide (i = k)) as [->|Hik].
  - unfold bind. rewrite Hr. destruct r as [[a|] s'| | |]; [done| |done..]. by destruct (Hne s').
  - rewrite (bind_ok _ _ _ _ _ (Hb i ltac:(lia))). apply IH; [lia| |done|done].
    intros j Hj. apply Hb. lia.
Qed.

(** The loop rule for a loop that has returned. *)
Lemma mfor_ind {S} (P : Z -> S -> Prop) (n : nat) (i : Z) (body : Z -> M S unit) s s' :
  P i s ->
  (forall j t t', i <= j < i + Z.of_nat n -> P j t -> body j t = Ok tt t' -> P (j + 1) t') ->
  mfor n i body s = Ok tt s' -> P (i + Z.of_nat n) s'.
Proof.
  revert i s. induction n as [|n IH]; intros i s HP Hstep; simpl.
  - intros [= <-]. by rewrite Z.add_0_r.
  - intros ([] & s1 & Hb & Hm)%bind_inv.
    replace (i + Z.of_nat (Datatypes.S n)) with (i + 1 + Z.of_nat n) by lia.
    apply (IH (i + 1) s1); [apply (Hstep i s s1); [lia|done..]| |done].
    intros j t t' Hj. apply Hstep. lia.
Qed.

(** * Postconditions

    [wp m Q s]: from the state [s], [m] returns, and its result and the state it
    leaves satisfy [Q]. *)
Definition wp {S A} (m : M S A) (Q : A -> S -> Prop) (s : S) : Prop :=
  exists a s', m s = Ok a s' /\ Q a s'.

Section wp.
Context {S : Type}.
Implicit Types s : S.

Lemma wp_ret {A} (a : A) (Q : A -> S -> Prop) s : Q a s -> wp (ret a) Q s.
Proof. intros H. by exists a, s. Qed.

Lemma wp_bind {A B} (m : M S A) (k : A -> M S B) (Q : B -> S -> Prop) s :
  wp m (fun a s' => wp (k a) Q s') s -> wp (bind m k) Q s.
Proof. intros (a & s' & E & H). unfold wp. by rewrite (bind_ok _ _ _ _ _ E). Qed.

Lemma wp_mono {A} (m : M S A) (Q R : A -> S -> Prop) s :
  wp m Q s -> (forall a s', Q a s' -> R a s') -> wp m R s.
Proof. intros (a & s' & E & H) HQ. exists a, s'. auto. Qed.

Lemma wp_gets {A} (f : S -> A) (Q : A -> S -> Prop) s : Q (f s) s -> wp (gets f) Q s.
Proof. intros H. by exists (f s), s. Qed.

Lemma wp_modify (f : S -> S) (Q : unit -> S -> Prop) s : Q tt (f s) -> wp (modify f) Q s.
Proof. intros H. by exists tt, (f s). Qed.

Lemma wp_when (b : bool) (m : M S unit) (Q : unit -> S -> Prop) s :
  (b = true -> wp m Q s) -> (b = false -> Q tt s) -> wp (when b m) Q s.
Proof. intros H1 H2. destruct b; [auto|]. apply wp_ret. auto. Qed.

Lemma wp_zoom {T A} (get : S -> T) (set : T -> S -> S) (m : M T A) (Q : A -> S -> Prop) s :
  wp m (fun a t => Q a (set t s)) (get s) -> wp (zoom get set m) Q s.
Proof. intros (a & t & E & H). exists a, (set t s). unfold zoom. by rewrite E. Qed.

(** A loop with an invariant indexed by its counter. *)
Lemma wp_mfor (P : Z -> S -> Prop) (n : nat) (i : Z) (body : Z -> M S unit) (Q : unit -> S -> Prop) s :
  P i s ->
  (forall j t, i <= j < i + Z.of_nat n -> P j t -> wp (body j) (fun _ t' => P (j + 1) t') t) ->
  (forall t, P (i + Z.of_nat n) t -> Q tt t) ->
  wp (mfor n i body) Q s.
Proof.
  intros HP Hb HQ. destruct (mfor_inv P n i body s HP) as (s' & E & Hs').
  - intros j t Hj Ht. destruct (Hb j t Hj Ht) as ([] & t' & E & Ht'). eauto.
  - exists tt, s'. auto.
Qed.

(** A loop that may be left early. *)
Lemma wp_mfind {A} (P : Z -> S -> Prop) (R : A -> S -> Prop) (n : nat) (i : Z)
    (body : Z -> M S (option A)) (Q : option A -> S -> Prop) s :
  P i s ->
  (forall j t, i <= j < i + Z.of_nat n -> P j t ->
     wp (body j) (fun r t' => match r with None => P (j + 1) t' | Some a => R a t' end) t) ->
  (forall t, P (i + Z.of_nat n) t -> Q None t) -> (forall a t, R a t -> Q (Some a) t) ->
  wp (mfind n i body) Q s.
Proof.
  revert i s. induction n as [|n IH]; intros i s HP Hb HN HS; simpl.
  - apply wp_ret, HN. by rewrite Z.add_0_r.
  - apply wp_bind. eapply wp_mono; [apply Hb; [lia|done]|]. intros [a|] t Ht; [by apply wp_ret, HS|].
    apply IH; [done| | |done].
    + intros j t' Hj. apply Hb. lia.
    + intros t' Ht'. apply HN. by replace (i + Z.of_nat (Datatypes.S n)) with (i + 1 + Z.of_nat n) by lia.
Qed.
End wp.

(** One step of a symbolic run. *)
Ltac wp_step :=
  lazymatch goal with
  | |- wp (bind _ _) _ _ => apply wp_bind
  | |- wp (ret _) _ _ => apply wp_ret
  | |- wp (gets _) _ _ => apply wp_gets
  | |- wp (modify _) _ _ => apply wp_modify
  end.
