(* ===== verification/Bytes.v ===== *)
(** Byte arrays: slices and overlays of C buffers, and the little-endian layout
    of the integers that the kernel reads from and writes to them. *)
From stdpp Require Import base numbers list.
From Stdlib Require Import ZArith Lia.
From S2P Require Import Prelude.

Lemma filter_all {A} (P : A -> Prop) `{!forall x, Decision (P x)} (l : list A) :
  (forall x, x ∈ l -> P x) -> filter P l = l.
Proof.
  induction l as [|x l IH]; intros Hall; [done|].
  rewrite filter_cons_True by (apply Hall; left). rewrite IH; [done|].
  intros y Hy. apply Hall. by right.
Qed.

Section lists.
Context {A : Type}.
Implicit Types l d : list A.

(** [memmove(dst, l + off, n)] as the value read. *)
Definition slice (l : list A) (off n : Z) : list A :=
  take (Z.to_nat n) (drop (Z.to_nat off) l).

(** [memmove(l + off, d, length d)] as the value of [l] afterwards. *)
Definition splice (l : list A) (off : Z) (d : list A) : list A :=
  take (Z.to_nat off) l ++ d ++ drop (Z.to_nat off + length d) l.

Lemma length_slice l off n :
  0 <= off -> 0 <= n -> off + n <= Z.of_nat (length l) ->
  Z.of_nat (length (slice l off n)) = n.
Proof. intros. unfold slice. rewrite length_take, length_drop. lia. Qed.

Lemma length_splice l off d :
  0 <= off -> off + Z.of_nat (length d) <= Z.of_nat (length l) ->
  length (splice l off d) = length l.
Proof.
  intros. unfold splice. rewrite !length_app, length_take, length_drop. lia.
Qed.

Lemma lookup_slice l off n (i : nat) :
  Z.of_nat i < n -> slice l off n !! i = l !! (Z.to_nat off + i)%nat.
Proof.
  intros. unfold slice. rewrite lookup_take_lt by lia. by rewrite lookup_drop.
Qed.

Lemma lookup_splice_in l off d (i : nat) :
  0 <= off -> off <= Z.of_nat (length l) ->
  (Z.to_nat off <= i < Z.to_nat off + length d)%nat ->
  splice l off d !! i = d !! (i - Z.to_nat off)%nat.
Proof.
  intros. unfold splice.
  rewrite lookup_app_r by (rewrite length_take; lia).
  rewrite length_take, Nat.min_l by lia. by rewrite lookup_app_l by lia.
Qed.

Lemma lookup_splice_out l off d (i : nat) :
  0 <= off -> off + Z.of_nat (length d) <= Z.of_nat (length l) ->
  (i < Z.to_nat off \/ Z.to_nat off + length d <= i)%nat ->
  splice l off d !! i = l !! i.
Proof.
  intros Ho Hl [Hi|Hi]; unfold splice.
  - rewrite lookup_app_l by (rewrite length_take; lia). by rewrite lookup_take_lt by lia.
  - rewrite lookup_app_r by (rewrite length_take; lia).
    rewrite length_take, Nat.min_l by lia.
    rewrite lookup_app_r by lia. rewrite lookup_drop. f_equal. lia.
Qed.

Lemma slice_splice_eq l off d :
  0 <= off -> off + Z.of_nat (length d) <= Z.of_nat (length l) ->
  slice (splice l off d) off (Z.of_nat (length d)) = d.
Proof.
  intros. unfold slice, splice. rewrite Nat2Z.id.
  rewrite drop_app_length' by (rewrite length_take; lia).
  by rewrite take_app_length.
Qed.

Lemma slice_splice_disj l off d off' n :
  0 <= off -> off + Z.of_nat (length d) <= Z.of_nat (length l) ->
  0 <= off' -> 0 <= n ->
  off' + n <= off \/ off + Z.of_nat (length d) <= off' ->
  slice (splice l off d) off' n = slice l off' n.
Proof.
  intros Ho Hl Ho' Hn Hd. apply list_eq. intros i.
  destruct (decide (Z.of_nat i < n)) as [Hi|Hi].
  - rewrite !lookup_slice by done. apply lookup_splice_out; lia.
  - unfold slice. rewrite !lookup_take_ge by lia. done.
Qed.

Lemma slice_all l : slice l 0 (Z.of_nat (length l)) = l.
Proof. unfold slice. rewrite Nat2Z.id. by rewrite take_ge by done. Qed.

Lemma slice_app_adj l off n m :
  0 <= off -> 0 <= n -> 0 <= m ->
  slice l off n ++ slice l (off + n) m = slice l off (n + m).
Proof.
  intros. unfold slice.
  replace (Z.to_nat (off + n)) with (Z.to_nat off + Z.to_nat n)%nat by lia.
  replace (Z.to_nat (n + m)) with (Z.to_nat n + Z.to_nat m)%nat by lia.
  rewrite <- drop_drop. generalize (drop (Z.to_nat off) l) as k. intros k.
  apply list_eq. intros i.
  destruct (decide (i < Z.to_nat n)%nat) as [Hi|Hi].
  - destruct (decide (i < length k)%nat).
    + rewrite lookup_app_l by (rewrite length_take; lia).
      by rewrite !lookup_take_lt by lia.
    + rewrite (lookup_ge_None_2 (take (Z.to_nat n + Z.to_nat m) k)) by (rewrite length_take; lia).
      apply lookup_ge_None_2. rewrite length_app, !length_take, length_drop. lia.
  - destruct (decide (length k <= Z.to_nat n)%nat).
    + rewrite !lookup_ge_None_2; [done| |].
      * rewrite length_take. lia.
      * rewrite length_app, !length_take, length_drop. lia.
    + rewrite lookup_app_r by (rewrite length_take; lia). rewrite length_take, Nat.min_l by lia.
      destruct (decide (i < Z.to_nat n + Z.to_nat m)%nat).
      * rewrite !lookup_take_lt by lia. rewrite lookup_drop. f_equal. lia.
      * rewrite !lookup_take_ge by lia. done.
Qed.
End lists.

(** * Little-endian integers *)

Fixpoint enc (n : nat) (v : Z) : list Z :=
  match n with
  | O => []
  | S n' => (v mod 256) :: enc n' (v / 256)
  end.

Fixpoint dec (l : list Z) : Z :=
  match l with
  | [] => 0
  | b :: l' => b + 256 * dec l'
  end.

Lemma length_enc n v : length (enc n v) = n.
Proof. revert v. induction n; intros; simpl; auto. Qed.

Lemma enc_u8 n v : Forall is_u8 (enc n v).
Proof.
  revert v. induction n; intros; simpl; constructor; auto.
  unfold is_u8. pose proof (Z.mod_pos_bound v 256). lia.
Qed.

Lemma dec_enc n v : dec (enc n v) = v mod 256 ^ Z.of_nat n.
Proof.
  revert v. induction n as [|n IH]; intros v; simpl dec.
  - rewrite Z.mod_1_r. done.
  - rewrite IH. rewrite Nat2Z.inj_succ, Z.pow_succ_r by lia.
    rewrite Z.rem_mul_r by lia. done.
Qed.

Lemma dec_enc_id n v : 0 <= v < 256 ^ Z.of_nat n -> dec (enc n v) = v.
Proof. intros. rewrite dec_enc. by apply Z.mod_small. Qed.

Lemma dec_bound l : Forall is_u8 l -> 0 <= dec l < 256 ^ Z.of_nat (length l).
Proof.
  induction 1 as [|b l Hb Hl IH]; simpl dec; simpl length; [lia|].
  rewrite Nat2Z.inj_succ, Z.pow_succ_r by lia. unfold is_u8 in Hb. nia.
Qed.

Lemma enc_dec l : Forall is_u8 l -> enc (length l) (dec l) = l.
Proof.
  induction 1 as [|b l Hb Hl IH]; [done|]. simpl. unfold is_u8 in Hb.
  rewrite (Z.mul_comm 256), Z_mod_plus, Z.mod_small by lia.
  rewrite Z.div_add, Z.div_small, Z.add_0_l by lia. by rewrite IH.
Qed.

(** A [uint] (or [ushort]) at byte offset [off]: load and store. *)
Definition get32 (l : list Z) (off : Z) : Z := dec (slice l off 4).
Definition put32 (l : list Z) (off v : Z) : list Z := splice l off (enc 4 v).
Definition get16 (l : list Z) (off : Z) : Z := dec (slice l off 2).
Definition put16 (l : list Z) (off v : Z) : list Z := splice l off (enc 2 v).

Lemma length_put32 l off v :
  0 <= off -> off + 4 <= Z.of_nat (length l) -> length (put32 l off v) = length l.
Proof. intros. unfold put32. apply length_splice; rewrite ?length_enc; lia. Qed.

Lemma length_put16 l off v :
  0 <= off -> off + 2 <= Z.of_nat (length l) -> length (put16 l off v) = length l.
Proof. intros. unfold put16. apply length_splice; rewrite ?length_enc; lia. Qed.

Lemma get32_put32_eq l off v :
  0 <= off -> off + 4 <= Z.of_nat (length l) -> get32 (put32 l off v) off = u32 v.
Proof.
  intros. unfold get32, put32.
  pose proof (slice_splice_eq l off (enc 4 v)) as E. rewrite length_enc in E.
  change (Z.of_nat 4) with 4 in E. rewrite E by lia. by rewrite dec_enc.
Qed.

Lemma get32_put32_ne l off off' v :
  0 <= off -> off + 4 <= Z.of_nat (length l) -> 0 <= off' ->
  off' + 4 <= off \/ off + 4 <= off' ->
  get32 (put32 l off v) off' = get32 l off'.
Proof.
  intros. unfold get32, put32. f_equal.
  apply slice_splice_disj; rewrite ?length_enc; lia.
Qed.

Lemma get16_put16_eq l off v :
  0 <= off -> off + 2 <= Z.of_nat (length l) -> get16 (put16 l off v) off = u16 v.
Proof.
  intros. unfold get16, put16.
  pose proof (slice_splice_eq l off (enc 2 v)) as E. rewrite length_enc in E.
  change (Z.of_nat 2) with 2 in E. rewrite E by lia. by rewrite dec_enc.
Qed.

Lemma u32_id v : is_u32 v -> u32 v = v.
Proof. unfold u32, is_u32. intros. by apply Z.mod_small. Qed.

Lemma slice_u8 l off n : Forall is_u8 l -> Forall is_u8 (slice l off n).
Proof. intros. unfold slice. by apply Forall_take, Forall_drop. Qed.

Lemma splice_u8 l off d : Forall is_u8 l -> Forall is_u8 d -> Forall is_u8 (splice l off d).
Proof.
  intros. unfold splice. apply Forall_app; split; [by apply Forall_take|].
  apply Forall_app; split; [done|by apply Forall_drop].
Qed.

Lemma put32_u8 l off v : Forall is_u8 l -> Forall is_u8 (put32 l off v).
Proof. intros. apply splice_u8; [done|apply enc_u8]. Qed.

Lemma put16_u8 l off v : Forall is_u8 l -> Forall is_u8 (put16 l off v).
Proof. intros. apply splice_u8; [done|apply enc_u8]. Qed.

Lemma get32_range l off : Forall is_u8 l -> is_u32 (get32 l off).
Proof.
  intros H. unfold get32, is_u32.
  pose proof (dec_bound _ (slice_u8 l off 4 H)) as B.
  assert (length (slice l off 4) <= 4)%nat.
  { unfold slice. rewrite length_take. lia. }
  assert (256 ^ Z.of_nat (length (slice l off 4)) <= 256 ^ 4).
  { apply Z.pow_le_mono_r; lia. }
  lia.
Qed.

Create HintDb bytes.
#[export] Hint Resolve enc_u8 slice_u8 splice_u8 put32_u8 put16_u8 : bytes.

(** * Bits *)

(** Or-ing flags into the low bits of a word that has none. *)
Lemma lor_add k x f : 0 <= k -> x mod 2 ^ k = 0 -> 0 <= f < 2 ^ k -> Z.lor x f = x + f.
Proof.
  intros Hk Hx Hf. assert (Z.land x f = 0) as H0.
  { apply Z.bits_inj'. intros n Hn. rewrite Z.land_spec, Z.bits_0.
    destruct (Z.lt_ge_cases n k) as [Hlt|Hge].
    - assert (x = (x / 2 ^ k) * 2 ^ k) as -> by (pose proof (Z.div_mod x (2 ^ k) ltac:(lia)); lia).
      rewrite Z.mul_pow2_bits_low by done. done.
    - destruct (decide (f = 0)) as [->|Hne]; [by rewrite Z.bits_0, andb_false_r|].
      assert (Z.log2 f < n) as Hlog.
      { apply Z.log2_lt_pow2; [lia|]. apply Z.lt_le_trans with (2 ^ k); [lia|]. apply Z.pow_le_mono_r; lia. }
      rewrite (Z.bits_above_log2 f) by (done || lia).
      apply andb_false_r. }
  pose proof (Z.add_lor_land x f). lia.
Qed.
