(* ===== verification/Mem.v ===== *)
(** Byte-addressed memory, and the routines of string.c.

    Routines that only read (memcmp, strncmp, strlen) take their pointers as
    views [Z -> Z], the byte at each offset, so that the same definition serves
    for memory, for buffers and for disk blocks; the copying string routines
    give the list of the bytes that they store from the destination on. *)
From stdpp Require Import base numbers list gmap.
From Stdlib Require Import ZArith Lia.
From S2P Require Import Prelude Bytes.

(** * Memory *)

Abbreviation mem := (gmap Z Z).

Definition ld (m : mem) (a : Z) : Z := u8 (default 0 (m !! a)).
Definition st (m : mem) (a v : Z) : mem := <[a := v]> m.

(** A 32-bit word, low byte first. *)
Definition ld32 (m : mem) (a : Z) : Z :=
  ld m a + 2 ^ 8 * ld m (a + 1) + 2 ^ 16 * ld m (a + 2) + 2 ^ 24 * ld m (a + 3).
Definition st32 (m : mem) (a v : Z) : mem :=
  st (st (st (st m a v) (a + 1) (Z.shiftr v 8)) (a + 2) (Z.shiftr v 16)) (a + 3) (Z.shiftr v 24).

(** The bytes of [l] stored from [a] on. *)
Fixpoint store (m : mem) (a : Z) (l : list Z) : mem :=
  match l with
  | [] => m
  | c :: l' => store (st m a c) (a + 1) l'
  end.

(** [n] bytes from [a] on. *)
Definition load (m : mem) (a n : Z) : list Z := (fun k => ld m (a + k)) <$> seqZ 0 n.

(** * string.c *)

Fixpoint stosb (m : mem) (addr data : Z) (cnt : nat) : mem :=
  match cnt with
  | O => m
  | S k => stosb (st m addr data) (u32 (addr + 1)) data k
  end.

Fixpoint stosl (m : mem) (addr data : Z) (cnt : nat) : mem :=
  match cnt with
  | O => m
  | S k => stosl (st32 m addr data) (u32 (addr + 4)) data k
  end.

Definition memset (m : mem) (dst c n : Z) : mem :=
  if (dst mod 4 =? 0) && (n mod 4 =? 0) then
    let c := Z.land c 255 in
    stosl m dst (Z.lor (Z.lor (Z.lor (u32 (Z.shiftl c 24)) (Z.shiftl c 16)) (Z.shiftl c 8)) c)
      (Z.to_nat (n / 4))
  else stosb m dst c (Z.to_nat n).

Fixpoint memcmp (s1 s2 : Z -> Z) (i : Z) (n : nat) : Z :=
  match n with
  | O => 0
  | S k => if negb (s1 i =? s2 i) then s1 i - s2 i else memcmp s1 s2 (i + 1) k
  end.

(** The two loops of [memmove]: from the ends down, and from the starts up. *)
Fixpoint copy_down (m : mem) (d s : Z) (n : nat) : mem :=
  match n with
  | O => m
  | S k => copy_down (st m (u32 (d - 1)) (ld m (u32 (s - 1)))) (u32 (d - 1)) (u32 (s - 1)) k
  end.

Fixpoint copy_up (m : mem) (d s : Z) (n : nat) : mem :=
  match n with
  | O => m
  | S k => copy_up (st m d (ld m s)) (u32 (d + 1)) (u32 (s + 1)) k
  end.

Definition memmove (m : mem) (dst src n : Z) : mem :=
  if (src <? dst) && (dst <? u32 (src + n)) then
    copy_down m (u32 (dst + n)) (u32 (src + n)) (Z.to_nat n)
  else copy_up m dst src (Z.to_nat n).

Definition memcpy (m : mem) (dst src n : Z) : mem := memmove m dst src n.

(** [memset] and [memmove] of the user library (ulib.c), which copies upwards in any
    case. *)
Definition umemset (m : mem) (dst c n : Z) : mem := stosb m dst c (Z.to_nat n).
Definition umemmove (m : mem) (vdst vsrc n : Z) : mem := copy_up m vdst vsrc (Z.to_nat n).

Fixpoint strncmp (p q : Z -> Z) (i : Z) (n : nat) : Z :=
  match n with
  | O => 0
  | S k =>
      if negb (p i =? 0) && (p i =? q i) then strncmp p q (i + 1) k
      else p i - q i
  end.

(** The bytes that [strncpy(s, t, n)] stores from [s] on: [n] of them. *)
Fixpoint strncpy (t : Z -> Z) (i : Z) (n : nat) : list Z :=
  match n with
  | O => []
  | S k => if t i =? 0 then 0 :: replicate k 0 else t i :: strncpy t (i + 1) k
  end.

(** The bytes that [safestrcpy(s, t, n)] stores, after its test of [n]: the loop
    counts [n] down before it copies. *)
Fixpoint safestrcpy_loop (t : Z -> Z) (i : Z) (n : nat) : list Z :=
  match n with
  | O => [0]
  | S k => if t i =? 0 then [0; 0] else t i :: safestrcpy_loop t (i + 1) k
  end.

Definition safestrcpy (t : Z -> Z) (n : Z) : list Z :=
  if n <=? 0 then [] else safestrcpy_loop t 0 (Z.to_nat (n - 1)).

(** [strlen], within a number of turns. *)
Fixpoint strlen_from (s : Z -> Z) (n : Z) (fuel : nat) : option Z :=
  match fuel with
  | O => None
  | S k => if s n =? 0 then Some n else strlen_from s (n + 1) k
  end.
Definition strlen (s : Z -> Z) (fuel : nat) : option Z := strlen_from s 0 fuel.

(** * Facts about memory *)

Lemma ld_st m a b v : ld (st m a v) b = if decide (b = a) then u8 v else ld m b.
Proof.
  unfold ld, st. destruct (decide (b = a)) as [->|Hne]; [by rewrite lookup_insert_eq|].
  by rewrite lookup_insert_ne by done.
Qed.

Lemma ld_u8 m a : is_u8 (ld m a).
Proof. unfold ld, is_u8, u8. pose proof (Z.mod_pos_bound (default 0 (m !! a)) (2 ^ 8)). lia. Qed.

Lemma u8_ld m a : u8 (ld m a) = ld m a.
Proof. unfold u8. pose proof (ld_u8 m a) as H. unfold is_u8 in H. apply Z.mod_small. lia. Qed.

Lemma u32_small z : 0 <= z < 2 ^ 32 -> u32 z = z.
Proof. unfold u32. intros. by apply Z.mod_small. Qed.

Lemma u8_small z : 0 <= z < 256 -> u8 z = z.
Proof. unfold u8. intros. by apply Z.mod_small. Qed.

Lemma ld32_range m a : is_u32 (ld32 m a).
Proof.
  unfold ld32, is_u32. pose proof (ld_u8 m a). pose proof (ld_u8 m (a + 1)).
  pose proof (ld_u8 m (a + 2)). pose proof (ld_u8 m (a + 3)). unfold is_u8 in *. lia.
Qed.

Lemma ld_st32_ne m a v b : ~ a <= b < a + 4 -> ld (st32 m a v) b = ld m b.
Proof. intros H. unfold st32. rewrite !ld_st, !decide_False by lia. done. Qed.

Lemma ld32_st32_ne m a v b : b + 4 <= a \/ a + 4 <= b -> ld32 (st32 m a v) b = ld32 m b.
Proof. intros H. unfold ld32. rewrite !ld_st32_ne by lia. done. Qed.

Lemma ld32_st32_eq m a v : ld32 (st32 m a v) a = u32 v.
Proof.
  unfold ld32, st32. rewrite !ld_st.
  repeat (case_decide; try (exfalso; lia)).
  unfold u8, u32. rewrite !Z.shiftr_div_pow2 by lia.
  pose proof (Z.div_mod v (2 ^ 8) ltac:(lia)) as E0.
  pose proof (Z.div_mod (v / 2 ^ 8) (2 ^ 8) ltac:(lia)) as E1.
  pose proof (Z.div_mod (v / 2 ^ 16) (2 ^ 8) ltac:(lia)) as E2.
  pose proof (Z.div_mod (v / 2 ^ 24) (2 ^ 8) ltac:(lia)) as E3.
  assert (v / 2 ^ 8 / 2 ^ 8 = v / 2 ^ 16) as F1 by (rewrite Z.div_div by lia; done).
  assert (v / 2 ^ 16 / 2 ^ 8 = v / 2 ^ 24) as F2 by (rewrite Z.div_div by lia; done).
  pose proof (Z.mod_pos_bound v (2 ^ 8) ltac:(lia)). pose proof (Z.mod_pos_bound (v / 2 ^ 8) (2 ^ 8) ltac:(lia)).
  pose proof (Z.mod_pos_bound (v / 2 ^ 16) (2 ^ 8) ltac:(lia)). pose proof (Z.mod_pos_bound (v / 2 ^ 24) (2 ^ 8) ltac:(lia)).
  apply (Zmod_unique _ _ (v / 2 ^ 24 / 2 ^ 8)); lia.
Qed.

Lemma ld_store m a l b :
  ld (store m a l) b =
  if decide (a <= b < a + Z.of_nat (length l)) then u8 (nth (Z.to_nat (b - a)) l 0) else ld m b.
Proof.
  revert m a. induction l as [|c l IH]; intros m a; simpl.
  - by rewrite decide_False by lia.
  - rewrite IH, ld_st. destruct (decide (b = a)) as [->|Hne].
    + rewrite decide_False by lia. rewrite decide_True by lia.
      by replace (Z.to_nat (a - a)) with 0%nat by lia.
    + destruct (decide (a + 1 <= b < a + 1 + Z.of_nat (length l))) as [Hin|Hout].
      * rewrite decide_True by lia. by replace (Z.to_nat (b - a)) with (S (Z.to_nat (b - (a + 1)))) by lia.
      * by rewrite decide_False by lia.
Qed.

Lemma length_load m a n : length (load m a n) = Z.to_nat n.
Proof. unfold load. by rewrite length_fmap, length_seqZ. Qed.

Lemma load_lookup m a n k : (k < Z.to_nat n)%nat -> load m a n !! k = Some (ld m (a + Z.of_nat k)).
Proof.
  intros Hk. unfold load. rewrite list_lookup_fmap, lookup_seqZ_lt by lia. done.
Qed.

(** * The routines do what their names say *)

Lemma ld_stosb n m a v b :
  0 <= a -> a + Z.of_nat n <= 2 ^ 32 ->
  ld (stosb m a v n) b = if decide (a <= b < a + Z.of_nat n) then u8 v else ld m b.
Proof.
  revert m a. induction n as [|n IH]; intros m a Ha Hn; simpl stosb.
  - by rewrite decide_False by lia.
  - destruct n as [|n].
    + simpl. rewrite ld_st. by repeat (case_decide; try lia).
    + rewrite u32_small, IH, ld_st by lia. by repeat (case_decide; try lia).
Qed.

(** The four bytes of the word that [memset] builds. *)
Lemma memset_word c :
  0 <= c < 256 ->
  let w := Z.lor (Z.lor (Z.lor (u32 (Z.shiftl c 24)) (Z.shiftl c 16)) (Z.shiftl c 8)) c in
  u8 w = c /\ u8 (Z.shiftr w 8) = c /\ u8 (Z.shiftr w 16) = c /\ u8 (Z.shiftr w 24) = c.
Proof.
  intros Hc.
  set (chk := fun c => let w := Z.lor (Z.lor (Z.lor (u32 (Z.shiftl c 24)) (Z.shiftl c 16)) (Z.shiftl c 8)) c in
     (u8 w =? c) && (u8 (Z.shiftr w 8) =? c) && (u8 (Z.shiftr w 16) =? c) && (u8 (Z.shiftr w 24) =? c)).
  assert (forallb chk (seqZ 0 256) = true) as Hall by (vm_compute; reflexivity).
  rewrite forallb_forall in Hall. specialize (Hall c).
  unfold chk in Hall. rewrite !andb_true_iff, !Z.eqb_eq in Hall. simpl. apply and_assoc, and_assoc in Hall; [tauto|].
  apply list_elem_of_In, elem_of_seqZ. lia.
Qed.

Lemma ld_stosl n m a w c b :
  0 <= a -> a + 4 * Z.of_nat n <= 2 ^ 32 ->
  u8 w = c -> u8 (Z.shiftr w 8) = c -> u8 (Z.shiftr w 16) = c -> u8 (Z.shiftr w 24) = c ->
  ld (stosl m a w n) b = if decide (a <= b < a + 4 * Z.of_nat n) then c else ld m b.
Proof.
  intros Ha Hn H0 H1 H2 H3. revert m a Ha Hn. induction n as [|n IH]; intros m a Ha Hn; simpl stosl.
  - by rewrite decide_False by lia.
  - assert (ld (st32 m a w) b = if decide (a <= b < a + 4) then c else ld m b) as Hw.
    { unfold st32. rewrite !ld_st, H0, H1, H2, H3. by repeat (case_decide; try lia). }
    destruct n as [|n].
    + simpl. rewrite Hw. by repeat (case_decide; try lia).
    + rewrite u32_small, IH, Hw by lia. by repeat (case_decide; try lia).
Qed.

Lemma ld_memset m dst c n b :
  0 <= dst -> 0 <= n -> dst + n <= 2 ^ 32 ->
  ld (memset m dst c n) b = if decide (dst <= b < dst + n) then u8 c else ld m b.
Proof.
  intros Hd Hn Hs. unfold memset.
  destruct ((dst mod 4 =? 0) && (n mod 4 =? 0)) eqn:E.
  - apply andb_true_iff in E as [_ E]. apply Z.eqb_eq in E.
    assert (Z.land c 255 = u8 c) as -> by apply (Z.land_ones c 8 ltac:(lia)).
    destruct (memset_word (u8 c)) as (H0 & H1 & H2 & H3); [apply Z.mod_pos_bound; lia|].
    pose proof (Z.div_mod n 4 ltac:(lia)).
    rewrite (ld_stosl _ _ _ _ (u8 c)) by (assumption || lia). by repeat (case_decide; try lia).
  - rewrite ld_stosb by lia. by repeat (case_decide; try lia).
Qed.

Lemma ld_copy_up n m d s b :
  0 <= d -> 0 <= s -> d + Z.of_nat n <= 2 ^ 32 -> s + Z.of_nat n <= 2 ^ 32 ->
  d <= s \/ s + Z.of_nat n <= d ->
  ld (copy_up m d s n) b = if decide (d <= b < d + Z.of_nat n) then ld m (s + (b - d)) else ld m b.
Proof.
  revert m d s. induction n as [|n IH]; intros m d s Hd Hs Hdn Hsn Hor; simpl copy_up.
  - by rewrite decide_False by lia.
  - destruct n as [|n].
    + simpl. rewrite ld_st, u8_ld. repeat (case_decide; try lia); try done; f_equal; lia.
    + rewrite !u32_small by lia. rewrite IH by lia. rewrite !ld_st, u8_ld.
      repeat (case_decide; try lia); try done; f_equal; lia.
Qed.

Lemma ld_copy_down n m d s b :
  0 <= d -> 0 <= s -> d + Z.of_nat n <= 2 ^ 32 -> s + Z.of_nat n <= 2 ^ 32 -> s <= d ->
  ld (copy_down m (u32 (d + Z.of_nat n)) (u32 (s + Z.of_nat n)) n) b =
  if decide (d <= b < d + Z.of_nat n) then ld m (s + (b - d)) else ld m b.
Proof.
  revert m b. induction n as [|n IH]; intros m b Hd Hs Hdn Hsn Hor; simpl copy_down.
  - by rewrite decide_False by lia.
  - assert (forall x, 0 <= x -> x + Z.of_nat (S n) <= 2 ^ 32 ->
      u32 (u32 (x + Z.of_nat (S n)) - 1) = u32 (x + Z.of_nat n)) as Hu.
    { intros x Hx Hxn. unfold u32. rewrite Zminus_mod_idemp_l. f_equal. lia. }
    rewrite !Hu, IH by lia. rewrite !(u32_small (_ + Z.of_nat n)) by lia.
    rewrite !ld_st, u8_ld.
    repeat (case_decide; try lia); try done; f_equal; lia.
Qed.

Lemma ld_memmove m dst src n b :
  0 <= dst -> 0 <= src -> 0 <= n -> dst + n <= 2 ^ 32 -> src + n < 2 ^ 32 ->
  ld (memmove m dst src n) b = if decide (dst <= b < dst + n) then ld m (src + (b - dst)) else ld m b.
Proof.
  intros Hd Hs Hn Hdn Hsn. unfold memmove. rewrite (u32_small (src + n)) by lia.
  destruct ((src <? dst) && (dst <? src + n)) eqn:E.
  - apply andb_true_iff in E as [E1%Z.ltb_lt E2%Z.ltb_lt].
    rewrite <- (u32_small (src + n)) by lia. rewrite <- (Z2Nat.id n) at 1 2 by lia.
    rewrite ld_copy_down by lia. by rewrite Z2Nat.id by lia.
  - rewrite ld_copy_up, Z2Nat.id by lia || (apply andb_false_iff in E; rewrite !Z.ltb_ge in E; lia).
    done.
Qed.

(** The user library: [memmove] is right unless the destination starts inside of
    the source, where the bytes of the source are overwritten before they are read. *)
Lemma ld_umemset m dst c n b : 0 <= dst -> 0 <= n -> dst + n <= 2 ^ 32 ->
  ld (umemset m dst c n) b = if decide (dst <= b < dst + n) then u8 c else ld m b.
Proof. intros Hd Hn Hs. unfold umemset. by rewrite ld_stosb, Z2Nat.id by lia. Qed.

Lemma ld_umemmove m dst src n b :
  0 <= dst -> 0 <= src -> dst + n <= 2 ^ 32 -> src + n <= 2 ^ 32 -> 0 <= n -> dst <= src \/ src + n <= dst ->
  ld (umemmove m dst src n) b = if decide (dst <= b < dst + n) then ld m (src + (b - dst)) else ld m b.
Proof. intros. unfold umemmove. by rewrite ld_copy_up, Z2Nat.id by lia. Qed.

Lemma umemmove_overlap :
  load (umemmove (store ∅ 10 [1; 2; 3; 4]) 12 10 4) 12 4 = [1; 2; 1; 2] /\
  load (memmove (store ∅ 10 [1; 2; 3; 4]) 12 10 4) 12 4 = [1; 2; 3; 4].
Proof. by vm_compute. Qed.

(** ** C strings of bounded length *)

(** The characters of [p] before its first NUL, at most [n] of them. *)
Fixpoint cname (p : Z -> Z) (i : Z) (n : nat) : list Z :=
  match n with
  | O => []
  | S k => if p i =? 0 then [] else p i :: cname p (i + 1) k
  end.

(** A list of bytes as a view; a NUL follows it. *)
Definition cview (l : list Z) (i : Z) : Z := nth (Z.to_nat i) l 0.

Lemma cname_ext p q n i j : (forall k, 0 <= k < Z.of_nat n -> p (i + k) = q (j + k)) -> cname p i n = cname q j n.
Proof.
  revert i j. induction n as [|n IH]; intros i j H; simpl; [done|].
  pose proof (H 0 ltac:(lia)) as H0. rewrite !Z.add_0_r in H0. rewrite H0.
  rewrite (IH (i + 1) (j + 1)); [done|]. intros k Hk.
  replace (i + 1 + k) with (i + (1 + k)) by lia. replace (j + 1 + k) with (j + (1 + k)) by lia. apply H. lia.
Qed.

Lemma strncmp_eq p q n i : strncmp p q i n = 0 <-> cname p i n = cname q i n.
Proof.
  revert i. induction n as [|n IH]; intros i; simpl; [done|].
  destruct (Z.eqb_spec (p i) 0) as [Hp|Hp]; simpl.
  - rewrite Hp. destruct (Z.eqb_spec (q i) 0) as [->|Hq]; [done|]. split; [lia|done].
  - destruct (Z.eqb_spec (p i) (q i)) as [E|E].
    + rewrite <- E. rewrite (proj2 (Z.eqb_neq (p i) 0)) by done. rewrite IH. split; [congruence|]. by intros [=].
    + destruct (Z.eqb_spec (q i) 0) as [Hq|Hq]; (split; [lia|]); [done|intros [= ? _]; lia].
Qed.

Lemma length_strncpy t n i : length (strncpy t i n) = n.
Proof.
  revert i. induction n as [|n IH]; intros i; simpl; [done|].
  destruct (t i =? 0); simpl; [by rewrite length_replicate|by rewrite IH].
Qed.

Lemma cname_view_cons c l n i :
  0 <= i -> cname (cview (c :: l)) (i + 1) n = cname (cview l) i n.
Proof.
  intros Hi. apply cname_ext. intros k Hk. unfold cview.
  by replace (Z.to_nat (i + 1 + k)) with (S (Z.to_nat (i + k))) by lia.
Qed.

Lemma cname_strncpy t n i : cname (cview (strncpy t i n)) 0 n = cname t i n.
Proof.
  revert i. induction n as [|n IH]; intros i; simpl; [done|].
  destruct (Z.eqb_spec (t i) 0) as [E|E]; [done|].
  change (cview (t i :: strncpy t (i + 1) n) 0) with (t i). rewrite (proj2 (Z.eqb_neq _ _) E).
  by rewrite (cname_view_cons _ _ _ 0), IH by lia.
Qed.

Lemma safestrcpy_loop_ok t k i :
  cname (cview (safestrcpy_loop t i k)) 0 (length (safestrcpy_loop t i k)) = cname t i k /\
  (1 <= length (safestrcpy_loop t i k) <= S k)%nat /\ last (safestrcpy_loop t i k) = Some 0.
Proof.
  revert i. induction k as [|k IH]; intros i; simpl; [split; [done|split; [lia|done]]|].
  destruct (Z.eqb_spec (t i) 0) as [E|E]; [split; [done|split; [simpl; lia|done]]|].
  destruct (IH (i + 1)) as (H1 & H2 & H3). simpl length. split; [|split; [lia|]].
  - simpl cname. change (cview (t i :: safestrcpy_loop t (i + 1) k) 0) with (t i).
    rewrite (proj2 (Z.eqb_neq _ _) E). by rewrite (cname_view_cons _ _ _ 0), H1 by lia.
  - destruct (safestrcpy_loop t (i + 1) k); [simpl in H2; lia|done].
Qed.

Lemma strlen_ok s n fuel i :
  s (i + Z.of_nat n) = 0 -> (forall k, 0 <= k < Z.of_nat n -> s (i + k) <> 0) -> (n < fuel)%nat ->
  strlen_from s i fuel = Some (i + Z.of_nat n).
Proof.
  revert i fuel. induction n as [|n IH]; intros i fuel H0 Hk Hf; (destruct fuel as [|fuel]; [lia|]); simpl.
  - rewrite Z.add_0_r in *. by rewrite H0.
  - pose proof (Hk 0 ltac:(lia)) as Hi. rewrite Z.add_0_r in Hi. rewrite (proj2 (Z.eqb_neq _ _) Hi).
    rewrite IH; [f_equal; lia| | |lia].
    + by replace (i + 1 + Z.of_nat n) with (i + Z.of_nat (S n)) by lia.
    + intros k Hkn. replace (i + 1 + k) with (i + (k + 1)) by lia. apply Hk. lia.
Qed.

Lemma memcmp_eq s1 s2 n i :
  memcmp s1 s2 i n = 0 <-> forall k, 0 <= k < Z.of_nat n -> s1 (i + k) = s2 (i + k).
Proof.
  revert i. induction n as [|n IH]; intros i; simpl; [split; [lia|done]|].
  destruct (Z.eqb_spec (s1 i) (s2 i)) as [E|E]; simpl.
  - rewrite IH. split; intros H k Hk.
    + destruct (decide (k = 0)) as [->|]; [by rewrite Z.add_0_r|].
      replace (i + k) with (i + 1 + (k - 1)) by lia. apply H. lia.
    + replace (i + 1 + k) with (i + (1 + k)) by lia. apply H. lia.
  - split; [lia|]. intros H. specialize (H 0 ltac:(lia)). rewrite !Z.add_0_r in H. lia.
Qed.

(** * Properties *)

(** C15. [memmove] copies as if through a temporary buffer, however the two
    ranges overlap, and changes nothing outside of the destination. *)
Theorem memmove_overlapping m dst src n b :
  0 <= dst -> 0 <= src -> 0 <= n -> dst + n <= 2 ^ 32 -> src + n < 2 ^ 32 ->
  ld (memmove m dst src n) b = if decide (dst <= b < dst + n) then ld m (src + (b - dst)) else ld m b.
Proof. apply ld_memmove. Qed.

Lemma memmove_overlapping_witness :
  ld (memmove (store ∅ 10 [1; 2; 3; 4]) 12 10 4) 13 = 2.
Proof.
  rewrite (memmove_overlapping (store ∅ 10 [1; 2; 3; 4]) 12 10 4 13) by lia. vm_compute. reflexivity.
Defined.

(** Names of bounded length survive the copying routines: [strncpy] fills
    exactly [n] bytes, and [strncmp] finds the copy equal to a string exactly
    when the first [n] characters of the two strings are the same; [safestrcpy]
    stores at most [n] bytes, the last of them a NUL, and keeps the first [n]-1
    characters. *)
Theorem bounded_strings t u n :
  length (strncpy t 0 (Z.to_nat n)) = Z.to_nat n /\
  (strncmp (cview (strncpy t 0 (Z.to_nat n))) u 0 (Z.to_nat n) = 0 <->
     cname t 0 (Z.to_nat n) = cname u 0 (Z.to_nat n)) /\
  (0 < n ->
     Z.of_nat (length (safestrcpy t n)) <= n /\ last (safestrcpy t n) = Some 0 /\
     cname (cview (safestrcpy t n)) 0 (length (safestrcpy t n)) = cname t 0 (Z.to_nat (n - 1))).
Proof.
  split; [apply length_strncpy|]. split; [by rewrite strncmp_eq, cname_strncpy|].
  intros Hn. unfold safestrcpy. rewrite (proj2 (Z.leb_gt n 0)) by lia.
  destruct (safestrcpy_loop_ok t (Z.to_nat (n - 1)) 0) as (H1 & H2 & H3). split; [lia|done].
Qed.
