(* ===== verification/Spinlock.v ===== *)
(** Spin locks and interrupt masking (spinlock.c): the operations on one CPU,
    mutual exclusion between CPUs, and the nesting of [pushcli]/[popcli]. *)
From stdpp Require Import base numbers list strings.
From Stdlib Require Import ZArith Lia.
From S2P Require Import Prelude.

(** The part of [struct cpu] (proc.h) that locking and scheduling use: [c_if] is
    the interrupt flag [FL_IF] of the CPU's eflags, and [c_proc] the slot of the
    process table that [proc] points to. *)
Record cpu := Cpu {
  c_ncli : Z;
  c_intena : bool;
  c_if : bool;
  c_proc : option nat
}.

(** [struct spinlock]: [locked], and [cpu] as the index of the CPU that holds
    the lock. *)
Record spinlock := Spinlock { locked : bool; lk_cpu : option nat }.

Definition initlock : spinlock := Spinlock false None.

(** [pushcli] and [popcli], on the CPU that runs them. *)
Definition pushcli : M cpu unit :=
  eflags <- gets c_if ;;
  modify (fun c => Cpu (c_ncli c) (c_intena c) false (c_proc c)) ;;
  n <- gets c_ncli ;;
  when (n =? 0) (modify (fun c => Cpu (c_ncli c) eflags (c_if c) (c_proc c))) ;;
  modify (fun c => Cpu (c_ncli c + 1) (c_intena c) (c_if c) (c_proc c)).

Definition popcli : M cpu unit :=
  eflags <- gets c_if ;;
  if eflags then panic "popcli - interruptible" else
  modify (fun c => Cpu (c_ncli c - 1) (c_intena c) (c_if c) (c_proc c)) ;;
  n <- gets c_ncli ;;
  if n <? 0 then panic "popcli" else
  i <- gets c_intena ;;
  when ((n =? 0) && i) (modify (fun c => Cpu (c_ncli c) (c_intena c) true (c_proc c))).

(** [holding(lk)] on CPU [me]. *)
Definition holding (lk : spinlock) (me : nat) : bool :=
  locked lk && bool_decide (lk_cpu lk = Some me).

(** [xchg(&lk->locked, 1)]. *)
Definition xchg (lk : spinlock) : bool * spinlock := (locked lk, Spinlock true (lk_cpu lk)).

Definition on_cpu {A} (m : M cpu A) : M (spinlock * cpu) A :=
  zoom snd (fun c s => (s.1, c)) m.

(** [acquire(lk)] on CPU [me], run without a step of another CPU in between: it
    spins for ever on a lock that another CPU holds. *)
Definition acquire (me : nat) : M (spinlock * cpu) unit :=
  on_cpu pushcli ;;
  lk <- gets fst ;;
  if holding lk me then panic "acquire" else
  if (xchg lk).1 then diverge else
  modify (fun s => ((xchg lk).2, s.2)) ;;
  modify (fun s => (Spinlock (locked s.1) (Some me), s.2)).

Definition release (me : nat) : M (spinlock * cpu) unit :=
  lk <- gets fst ;;
  if negb (holding lk me) then panic "release" else
  modify (fun s => (Spinlock (locked s.1) None, s.2)) ;;
  modify (fun s => (Spinlock false (lk_cpu s.1), s.2)) ;;
  on_cpu popcli.

(** * Nested sections without interrupts *)

(** A CPU outside of all sections, or inside, where interrupts are off. *)
Definition cpu_ok (c : cpu) : Prop := 0 <= c_ncli c /\ (0 < c_ncli c -> c_if c = false).

Definition pushed (c : cpu) : cpu :=
  Cpu (c_ncli c + 1) (if c_ncli c =? 0 then c_if c else c_intena c) false (c_proc c).

Lemma pushcli_ok c : pushcli c = Ok tt (pushed c).
Proof. destruct c as [n i f p]. unfold pushcli, bind, pushed. simpl. by destruct (n =? 0). Qed.

Definition popped (c : cpu) : cpu :=
  Cpu (c_ncli c - 1) (c_intena c) ((c_ncli c - 1 =? 0) && c_intena c) (c_proc c).

Lemma popcli_ok c : cpu_ok c -> 0 < c_ncli c -> popcli c = Ok tt (popped c).
Proof.
  intros [_ Hi] Hn. specialize (Hi Hn). destruct c as [n i f p]. simpl in *. subst f.
  unfold popcli, bind, popped. simpl. destruct (Z.ltb_spec (n - 1) 0); [lia|].
  by destruct ((n - 1 =? 0) && i) eqn:E; simpl; rewrite E.
Qed.

Lemma pushed_ok c : cpu_ok c -> cpu_ok (pushed c).
Proof. intros [H _]. split; simpl; [lia|done]. Qed.

Lemma popped_ok c : cpu_ok c -> 0 < c_ncli c -> cpu_ok (popped c).
Proof.
  intros [H _] Hn. split; simpl; [lia|]. intros. by destruct (Z.eqb_spec (c_ncli c - 1) 0); [lia|].
Qed.

(** A pair undoes itself, except that [intena] keeps what it last recorded. *)
Lemma popped_pushed c :
  cpu_ok c ->
  popped (pushed c) = Cpu (c_ncli c) (if c_ncli c =? 0 then c_if c else c_intena c) (c_if c) (c_proc c).
Proof.
  intros [Hn Hi]. destruct c as [n i f p]. unfold popped, pushed. simpl in *.
  replace (n + 1 - 1) with n by lia. destruct (Z.eqb_spec n 0); [done|]. by rewrite Hi by lia.
Qed.

(** A well-bracketed run of [pushcli] and [popcli]. *)
Inductive bracketed : list bool -> Prop :=
| br_nil : bracketed []
| br_wrap l : bracketed l -> bracketed (true :: l ++ [false])
| br_app l1 l2 : bracketed l1 -> bracketed l2 -> bracketed (l1 ++ l2).

Fixpoint run_cli (l : list bool) : M cpu unit :=
  match l with
  | [] => ret tt
  | b :: l' => (if b then pushcli else popcli) ;; run_cli l'
  end.

Lemma run_cli_app l1 l2 c : run_cli (l1 ++ l2) c = bind (run_cli l1) (fun _ => run_cli l2) c.
Proof.
  revert c. induction l1 as [|b l1 IH]; intros c; simpl; [done|].
  rewrite bind_assoc. unfold bind at 1 2. destruct b.
  - rewrite pushcli_ok. apply IH.
  - destruct (popcli c) as [[] c'| | |]; [apply IH|done..].
Qed.

(** C6. Sections without interrupts nest: any well-bracketed sequence of
    [pushcli] and [popcli], started on any CPU state the kernel can be in, runs
    without a panic and gives back the nesting depth, the interrupt flag, the
    process and, inside an enclosing section, the saved [intena]. *)
Theorem cli_nesting l c :
  bracketed l -> cpu_ok c ->
  exists c', run_cli l c = Ok tt c' /\
    c_ncli c' = c_ncli c /\ c_if c' = c_if c /\ c_proc c' = c_proc c /\
    (0 < c_ncli c -> c' = c).
Proof.
  intros Hl. revert c. induction Hl as [|l Hl IH|l1 l2 H1 IH1 H2 IH2]; intros c Hc.
  - by exists c.
  - simpl. rewrite (bind_ok _ _ _ _ _ (pushcli_ok c)), run_cli_app.
    destruct (IH (pushed c) (pushed_ok c Hc)) as (c1 & E & _ & _ & _ & Heq).
    assert (0 < c_ncli (pushed c)) as Hpos by (simpl; destruct Hc; lia).
    rewrite (bind_ok _ _ _ _ _ E), (Heq Hpos). simpl.
    rewrite (bind_ok _ _ _ _ _ (popcli_ok _ (pushed_ok c Hc) Hpos)), popped_pushed by done.
    eexists. split; [reflexivity|]. simpl. split_and!; try done.
    intros Hn. destruct c as [n i f p]; simpl in *. by destruct (Z.eqb_spec n 0); [lia|].
  - destruct (IH1 c Hc) as (c1 & E1 & Hn1 & Hi1 & Hp1 & Heq1).
    assert (cpu_ok c1) as Hc1 by (unfold cpu_ok in *; by rewrite Hn1, Hi1).
    destruct (IH2 c1 Hc1) as (c2 & E2 & Hn2 & Hi2 & Hp2 & Heq2).
    exists c2. rewrite run_cli_app, (bind_ok _ _ _ _ _ E1), E2.
    split_and!; [done|congruence..|]. intros Hn. rewrite Heq2, Heq1 by (rewrite ?Hn1; done). done.
Qed.

Lemma cli_nesting_witness :
  exists c', run_cli [true; true; false; false; true; false] (Cpu 0 false true None) = Ok tt c' /\
    c_ncli c' = 0 /\ c_if c' = true /\ c_proc c' = None /\ (0 < 0 -> c' = Cpu 0 false true None).
Proof.
  apply (cli_nesting [true; true; false; false; true; false] (Cpu 0 false true None)).
  - apply (br_app [true; true; false; false] [true; false]); [apply (br_wrap [true; false])|];
      apply (br_wrap []); constructor.
  - split; simpl; lia.
Defined.

(** * Several CPUs and one lock *)

(** How far a CPU is in [acquire], the critical section and [release]. *)
Inductive phase : Type :=
| Idle        (* not using the lock *)
| Spin        (* in the xchg loop *)
| Got         (* xchg has returned 0, lk->cpu not yet set *)
| Inside      (* acquire has returned *)
| Cleared     (* release has cleared lk->cpu *)
| Dropped     (* release has cleared lk->locked, popcli still to come *)
| Panicked.

Record machine := Machine { lk : spinlock; cs : list (cpu * phase) }.

(** One access to the lock, by one CPU. *)
Inductive mstep : machine -> machine -> Prop :=
| ms_other l ms i c c' :
    ms !! i = Some (c, Idle) -> cpu_ok c' ->
    mstep (Machine l ms) (Machine l (<[i := (c', Idle)]> ms))
| ms_start l ms i c c' :
    ms !! i = Some (c, Idle) -> pushcli c = Ok tt c' ->
    mstep (Machine l ms) (Machine l (<[i := (c', if holding l i then Panicked else Spin)]> ms))
| ms_xchg l ms i c :
    ms !! i = Some (c, Spin) ->
    mstep (Machine l ms) (Machine (xchg l).2 (<[i := (c, if (xchg l).1 then Spin else Got)]> ms))
| ms_record l ms i c :
    ms !! i = Some (c, Got) ->
    mstep (Machine l ms) (Machine (Spinlock (locked l) (Some i)) (<[i := (c, Inside)]> ms))
| ms_release l ms i c :
    ms !! i = Some (c, Inside) ->
    mstep (Machine l ms)
      (if holding l i then Machine (Spinlock (locked l) None) (<[i := (c, Cleared)]> ms)
       else Machine l (<[i := (c, Panicked)]> ms))
| ms_drop l ms i c :
    ms !! i = Some (c, Cleared) ->
    mstep (Machine l ms) (Machine (Spinlock false (lk_cpu l)) (<[i := (c, Dropped)]> ms))
| ms_pop l ms i c :
    ms !! i = Some (c, Dropped) ->
    mstep (Machine l ms)
      (Machine l (<[i := match popcli c with Ok _ c' => (c', Idle) | _ => (c, Panicked) end]> ms)).

Inductive mreach : machine -> Prop :=
| mr_init ms : Forall (fun m => cpu_ok m.1 /\ m.2 = Idle) ms -> mreach (Machine initlock ms)
| mr_step m m' : mreach m -> mstep m m' -> mreach m'.

Definition owner (p : phase) : bool :=
  match p with Got | Inside | Cleared => true | _ => false end.

Definition inside (p : phase) : bool := match p with Inside => true | _ => false end.

Lemma inside_eq p : inside p = true <-> p = Inside.
Proof. by destruct p. Qed.

Record minv (m : machine) : Prop := MInv {
  mi_cpu : forall i c p, cs m !! i = Some (c, p) ->
    cpu_ok c /\ p <> Panicked /\ (p <> Idle -> 0 < c_ncli c);
  mi_locked : locked (lk m) = true <-> exists i c p, cs m !! i = Some (c, p) /\ owner p = true;
  mi_one : forall i j ci cj pi pj, cs m !! i = Some (ci, pi) -> cs m !! j = Some (cj, pj) ->
    owner pi = true -> owner pj = true -> i = j;
  mi_who : forall i, lk_cpu (lk m) = Some i <-> exists c, cs m !! i = Some (c, Inside)
}.

(** CPU [i] changes; the lock and the owners change with it. *)
Lemma minv_update l ms i c p l' c' p' :
  minv (Machine l ms) -> ms !! i = Some (c, p) ->
  (cpu_ok c' /\ p' <> Panicked /\ (p' <> Idle -> 0 < c_ncli c')) ->
  (owner p' = true -> owner p = true \/ locked l = false) ->
  locked l' = (if owner p' then true else if owner p then false else locked l) ->
  lk_cpu l' = (if inside p' then Some i else if inside p then None else lk_cpu l) ->
  (inside p' = true -> owner p = true) ->
  minv (Machine l' (<[i := (c', p')]> ms)).
Proof.
  intros [Hc Hl Ho Hw] Hi Hc' Hown Hlk Hcpu Hin. simpl in *.
  assert (i < length ms)%nat as Hlt by (by eapply lookup_lt_Some).
  assert (forall j cj pj, <[i := (c', p')]> ms !! j = Some (cj, pj) <->
    (j = i /\ cj = c' /\ pj = p') \/ (j <> i /\ ms !! j = Some (cj, pj))) as Hup.
  { intros j cj pj. rewrite list_lookup_insert. case_decide; naive_solver. }
  split; simpl.
  - intros j cj pj. rewrite Hup. intros [(-> & -> & ->)|[_ Hj]]; eauto.
  - rewrite Hlk. setoid_rewrite Hup. destruct (owner p') eqn:E'.
    { split; [|done]. intros _. exists i, c', p'. naive_solver. }
    destruct (owner p) eqn:E.
    { split; [done|]. intros (j & cj & pj & [(-> & -> & ->)|[Hne Hj]] & Hoj); [congruence|].
      destruct Hne. eapply Ho; eauto. }
    rewrite Hl. split; intros (j & cj & pj & Hj & Hoj); exists j, cj, pj; split; try done.
    + right. split; [|done]. intros ->. rewrite Hi in Hj. injection Hj as -> ->. congruence.
    + destruct Hj as [(-> & -> & ->)|[_ Hj]]; [congruence|done].
  - intros j k cj ck pj pk. rewrite !Hup.
    assert (forall n cn pn, owner p' = true -> ms !! n = Some (cn, pn) -> owner pn = true -> n = i) as Hu.
    { intros n cn pn E Hn Hon. destruct (Hown E) as [Ep|Ef]; [by eapply Ho|].
      assert (locked l = true) by (apply Hl; eauto). congruence. }
    intros [(-> & -> & ->)|[Hj1 Hj]] [(-> & -> & ->)|[Hk1 Hk]] Eo1 Eo2; eauto.
  - intros j. rewrite Hcpu. setoid_rewrite Hup.
    assert (forall n c0, ms !! n = Some (c0, Inside) -> owner p = true -> n = i) as Hone.
    { intros n c0 E Eo. eapply Ho; eauto. }
    destruct (inside p') eqn:E'.
    { apply inside_eq in E' as ->. split; [intros [= <-]; exists c'; auto|].
      intros (c0 & [(-> & _)|[Hne E]]); [done|]. destruct Hne. eauto. }
    assert (p' <> Inside) as Hp' by (intros ->; done).
    destruct (inside p) eqn:E.
    { apply inside_eq in E as ->. split; [done|]. intros (c0 & [(_ & _ & Eq)|[Hne E]]); [congruence|].
      destruct Hne. by eapply Hone. }
    rewrite Hw. split; intros [c0 E0]; exists c0.
    + right. split; [|done]. intros ->. rewrite Hi in E0. injection E0 as -> ->. done.
    + destruct E0 as [(_ & _ & Eq)|[_ E0]]; [congruence|done].
Qed.

Lemma minv_step m m' : minv m -> mstep m m' -> minv m'.
Proof.
  intros HI Hst. pose proof HI as [Hc Hl _ Hw].
  destruct Hst as [l ms i c c' Hi Hok|l ms i c c' Hi E|l ms i c Hi|l ms i c Hi|l ms i c Hi|l ms i c Hi|l ms i c Hi];
    simpl in *; destruct (Hc _ _ _ Hi) as (Hck & _ & Hpos).
  - by eapply minv_update.
  - rewrite pushcli_ok in E. injection E as <-.
    assert (holding l i = false) as ->.
    { unfold holding. apply andb_false_iff. right. apply bool_decide_eq_false. rewrite Hw.
      intros [c0 E]. by rewrite Hi in E. }
    eapply minv_update; try done. split; [by apply pushed_ok|].
    split; [done|]. intros _. destruct Hck. simpl. lia.
  - unfold xchg. simpl. destruct (locked l) eqn:El; eapply minv_update; simpl; try done; auto.
  - assert (locked l = true) as El by (apply Hl; eauto 6).
    eapply minv_update; simpl; try done; auto.
  - assert (locked l = true) as El by (apply Hl; eauto 6).
    assert (holding l i = true) as ->.
    { unfold holding. rewrite El. simpl. apply bool_decide_eq_true. apply Hw. eauto. }
    eapply minv_update; simpl; try done; auto.
  - eapply minv_update; simpl; try done; auto.
  - specialize (Hpos ltac:(done)). rewrite popcli_ok by done.
    eapply minv_update; simpl; try done. split; [by apply popped_ok|done].
Qed.

Lemma mreach_inv m : mreach m -> minv m.
Proof.
  induction 1 as [ms Hms|m m' _ IH Hst]; [|by eapply minv_step].
  rewrite Forall_lookup in Hms. split; simpl.
  - intros i c p Hi. destruct (Hms _ _ Hi) as [? E]. simpl in *. by subst p.
  - split; [done|]. intros (i & c & p & Hi & Ho). destruct (Hms _ _ Hi) as [_ E]. simpl in E. by subst p.
  - intros i j ci cj pi pj Hi _ Ho. destruct (Hms _ _ Hi) as [_ E]. simpl in E. by subst pi.
  - intros i. split; [done|]. intros [c Hi]. by destruct (Hms _ _ Hi) as [_ E].
Qed.

(** C7. A spin lock excludes: in every state that any number of CPUs reach by
    any interleaving of the accesses of [acquire] and [release], at most one CPU
    is between the [xchg] that took the lock and the store that frees it, that
    CPU has interrupts off, [holding] tells the truth to a CPU inside its
    critical section and to one outside, and neither [acquire] nor [release]
    has panicked. *)
Theorem mutual_exclusion m i j ci cj pi pj :
  mreach m -> cs m !! i = Some (ci, pi) -> cs m !! j = Some (cj, pj) ->
  (owner pi = true -> owner pj = true -> i = j) /\
  (owner pi = true -> c_if ci = false) /\
  (pi = Inside -> holding (lk m) i = true) /\ (pi = Idle -> holding (lk m) i = false) /\
  pi <> Panicked.
Proof.
  intros Hr Hi Hj. destruct (mreach_inv m Hr) as [Hc Hl Ho Hw].
  destruct (Hc _ _ _ Hi) as ([_ Hif] & Hpan & Hpos). split_and!; [eauto| | | |done].
  - intros E. apply Hif, Hpos. by intros ->.
  - intros ->. unfold holding. rewrite (proj2 Hl) by eauto 6. apply bool_decide_eq_true, Hw. eauto.
  - intros ->. unfold holding. apply andb_false_iff. right. apply bool_decide_eq_false. rewrite Hw.
    intros [c0 E]. by rewrite Hi in E.
Qed.

(** Two CPUs, one inside the critical section and one spinning. *)
Definition idle_cpu : cpu := Cpu 0 false true None.
Definition busy_cpu : cpu := Cpu 1 true false None.
Definition demo_machine : machine :=
  Machine (Spinlock true (Some 0%nat)) [(busy_cpu, Inside); (busy_cpu, Spin)].

Lemma demo_reach : mreach demo_machine.
Proof.
  assert (mreach (Machine initlock [(idle_cpu, Idle); (idle_cpu, Idle)])) as H0.
  { apply mr_init. repeat constructor; simpl; lia. }
  pose proof (mr_step _ _ H0 (ms_start initlock [(idle_cpu, Idle); (idle_cpu, Idle)] 0 idle_cpu busy_cpu eq_refl eq_refl)) as H1.
  pose proof (mr_step _ _ H1 (ms_xchg initlock [(busy_cpu, Spin); (idle_cpu, Idle)] 0 busy_cpu eq_refl)) as H2.
  pose proof (mr_step _ _ H2 (ms_record (Spinlock true None) [(busy_cpu, Got); (idle_cpu, Idle)] 0 busy_cpu eq_refl)) as H3.
  pose proof (mr_step _ _ H3 (ms_start (Spinlock true (Some 0%nat)) [(busy_cpu, Inside); (idle_cpu, Idle)] 1
    idle_cpu busy_cpu eq_refl eq_refl)) as H4.
  exact H4.
Qed.

Lemma mutual_exclusion_witness :
  c_if busy_cpu = false /\ holding (lk demo_machine) 0 = true.
Proof.
  destruct (mutual_exclusion demo_machine 0 1 busy_cpu busy_cpu Inside Spin) as (_ & Hi & Hh & _).
  - apply demo_reach.
  - reflexivity.
  - reflexivity.
  - split; [apply Hi; reflexivity|apply Hh; reflexivity].
Defined.
