(* ===== verification/Proc.v ===== *)
(** Processes (proc.c, proc.h): the process table, process creation, exit and
    wait, sleep and wakeup, kill, and the scheduler. *)
From stdpp Require Import base numbers list gmap sets strings.
From Stdlib Require Import ZArith Lia.
From S2P Require Import Prelude Spinlock.

Definition NPROC : nat := 64.
Definition NOFILE : nat := 16.
Definition PGSIZE : Z := 4096.

Inductive procstate : Type :=
| UNUSED | EMBRYO | SLEEPING | RUNNABLE | RUNNING | ZOMBIE.

#[export] Instance procstate_eq_dec : EqDecision procstate.
Proof. solve_decision. Defined.

(** [struct trapframe] (x86.h), without its padding. *)
Record trapframe := Trapframe {
  tf_edi : Z; tf_esi : Z; tf_ebp : Z; tf_oesp : Z;
  tf_ebx : Z; tf_edx : Z; tf_ecx : Z; tf_eax : Z;
  tf_gs : Z; tf_fs : Z; tf_es : Z; tf_ds : Z;
  tf_trapno : Z; tf_err : Z; tf_eip : Z; tf_cs : Z;
  tf_eflags : Z; tf_esp : Z; tf_ss : Z
}.

Definition set_eax (v : Z) (t : trapframe) : trapframe :=
  Trapframe (tf_edi t) (tf_esi t) (tf_ebp t) (tf_oesp t) (tf_ebx t) (tf_edx t) (tf_ecx t) v
    (tf_gs t) (tf_fs t) (tf_es t) (tf_ds t) (tf_trapno t) (tf_err t) (tf_eip t) (tf_cs t)
    (tf_eflags t) (tf_esp t) (tf_ss t).

(** Where a process that is not running will continue in the kernel when the
    scheduler switches to its context: the eip that [allocproc] stores in it, or
    the call of [sched] that saved it.  [sched] keeps [intena] on the process's
    kernel stack; [sleep] keeps its [lk] there (the index of the lock). *)
Inductive context : Type :=
| CtxNone
| CtxForkret
| CtxYield (intena : bool)
| CtxSleep (lk : nat) (intena : bool)
| CtxExit.

(** [struct proc].  [p_parent] is the slot of the parent, [p_tf] the content of
    the trap frame on the kernel stack ([None]: not yet written), [p_ofile] and
    [p_cwd] hold indices of the file and inode tables, and [p_chan] the channel
    ([None] for a null pointer). *)
Record proc := Proc {
  p_sz : Z;
  p_pgdir : Z;
  p_kstack : Z;
  p_state : procstate;
  p_pid : Z;
  p_parent : option nat;
  p_tf : option trapframe;
  p_context : context;
  p_chan : option chan;
  p_killed : bool;
  p_ofile : list (option nat);
  p_cwd : option nat;
  p_name : string;
  p_exitstat : Z
}.

(** A slot of the table at boot: all zeros. *)
Definition proc0 : proc :=
  Proc 0 0 0 UNUSED 0 None None CtxNone None false (replicate NOFILE None) None "" 0.

Definition set_sz (v : Z) (p : proc) : proc :=
  Proc v (p_pgdir p) (p_kstack p) (p_state p) (p_pid p) (p_parent p) (p_tf p) (p_context p)
    (p_chan p) (p_killed p) (p_ofile p) (p_cwd p) (p_name p) (p_exitstat p).
Definition set_pgdir (v : Z) (p : proc) : proc :=
  Proc (p_sz p) v (p_kstack p) (p_state p) (p_pid p) (p_parent p) (p_tf p) (p_context p)
    (p_chan p) (p_killed p) (p_ofile p) (p_cwd p) (p_name p) (p_exitstat p).
Definition set_kstack (v : Z) (p : proc) : proc :=
  Proc (p_sz p) (p_pgdir p) v (p_state p) (p_pid p) (p_parent p) (p_tf p) (p_context p)
    (p_chan p) (p_killed p) (p_ofile p) (p_cwd p) (p_name p) (p_exitstat p).
Definition set_state (v : procstate) (p : proc) : proc :=
  Proc (p_sz p) (p_pgdir p) (p_kstack p) v (p_pid p) (p_parent p) (p_tf p) (p_context p)
    (p_chan p) (p_killed p) (p_ofile p) (p_cwd p) (p_name p) (p_exitstat p).
Definition set_pid (v : Z) (p : proc) : proc :=
  Proc (p_sz p) (p_pgdir p) (p_kstack p) (p_state p) v (p_parent p) (p_tf p) (p_context p)
    (p_chan p) (p_killed p) (p_ofile p) (p_cwd p) (p_name p) (p_exitstat p).
Definition set_parent (v : option nat) (p : proc) : proc :=
  Proc (p_sz p) (p_pgdir p) (p_kstack p) (p_state p) (p_pid p) v (p_tf p) (p_context p)
    (p_chan p) (p_killed p) (p_ofile p) (p_cwd p) (p_name p) (p_exitstat p).
Definition set_tf (v : option trapframe) (p : proc) : proc :=
  Proc (p_sz p) (p_pgdir p) (p_kstack p) (p_state p) (p_pid p) (p_parent p) v (p_context p)
    (p_chan p) (p_killed p) (p_ofile p) (p_cwd p) (p_name p) (p_exitstat p).
Definition set_context (v : context) (p : proc) : proc :=
  Proc (p_sz p) (p_pgdir p) (p_kstack p) (p_state p) (p_pid p) (p_parent p) (p_tf p) v
    (p_chan p) (p_killed p) (p_ofile p) (p_cwd p) (p_name p) (p_exitstat p).
Definition set_chan (v : option chan) (p : proc) : proc :=
  Proc (p_sz p) (p_pgdir p) (p_kstack p) (p_state p) (p_pid p) (p_parent p) (p_tf p) (p_context p)
    v (p_killed p) (p_ofile p) (p_cwd p) (p_name p) (p_exitstat p).
Definition set_killed (v : bool) (p : proc) : proc :=
  Proc (p_sz p) (p_pgdir p) (p_kstack p) (p_state p) (p_pid p) (p_parent p) (p_tf p) (p_context p)
    (p_chan p) v (p_ofile p) (p_cwd p) (p_name p) (p_exitstat p).
Definition set_ofile (fd : nat) (v : option nat) (p : proc) : proc :=
  Proc (p_sz p) (p_pgdir p) (p_kstack p) (p_state p) (p_pid p) (p_parent p) (p_tf p) (p_context p)
    (p_chan p) (p_killed p) (<[fd := v]> (p_ofile p)) (p_cwd p) (p_name p) (p_exitstat p).
Definition set_cwd (v : option nat) (p : proc) : proc :=
  Proc (p_sz p) (p_pgdir p) (p_kstack p) (p_state p) (p_pid p) (p_parent p) (p_tf p) (p_context p)
    (p_chan p) (p_killed p) (p_ofile p) v (p_name p) (p_exitstat p).
Definition set_name (v : string) (p : proc) : proc :=
  Proc (p_sz p) (p_pgdir p) (p_kstack p) (p_state p) (p_pid p) (p_parent p) (p_tf p) (p_context p)
    (p_chan p) (p_killed p) (p_ofile p) (p_cwd p) v (p_exitstat p).
Definition set_exitstat (v : Z) (p : proc) : proc :=
  Proc (p_sz p) (p_pgdir p) (p_kstack p) (p_state p) (p_pid p) (p_parent p) (p_tf p) (p_context p)
    (p_chan p) (p_killed p) (p_ofile p) (p_cwd p) (p_name p) v.

(** What proc.c uses of the memory allocator, virtual memory, the file table and
    the file system, on their joint state [W].  Addresses of pages and page
    directories are [Z], with 0 for the null pointer. *)
Class Kernel (W : Type) := {
  k_kalloc : M W Z;
  k_kfree : Z -> M W unit;
  k_setupkvm : M W Z;
  k_inituvm : Z -> list Z -> M W unit;
  k_copyuvm : Z -> Z -> M W Z;
  k_freevm : Z -> M W unit;
  k_allocuvm : Z -> Z -> Z -> M W Z;
  k_deallocuvm : Z -> Z -> Z -> M W Z;
  k_switchuvm : Z -> M W unit;
  k_filedup : nat -> M W nat;
  k_fileclose : nat -> M W unit;
  k_idup : nat -> M W nat;
  k_iput : nat -> M W unit;
  k_begin_op : M W unit;
  k_end_op : M W unit;
  k_iinit : M W unit;
  k_initlog : M W unit;
  k_namei : string -> M W (option nat)
}.

(** [ptable], the globals of proc.c and the CPUs.  [locks] holds the spin locks
    of the kernel, [ptable.lock] at index 0.  [first] is the static variable of
    [forkret].  [sched_pos] is, for each CPU that
    is inside the loop of [scheduler] holding [ptable.lock], its loop variable. *)
Record pstate (W : Type) := PState {
  locks : list spinlock;
  ptable : list proc;
  nextpid : Z;
  initproc : option nat;
  first : bool;
  cpus : list cpu;
  sched_pos : list (option nat);
  world : W
}.
Arguments PState {W} _ _ _ _ _ _ _ _.
Arguments locks {W} _.
Arguments ptable {W} _.
Arguments nextpid {W} _.
Arguments initproc {W} _.
Arguments first {W} _.
Arguments cpus {W} _.
Arguments sched_pos {W} _.
Arguments world {W} _.

Definition PTABLE_LOCK : nat := 0.

Section ops.
Context {W : Type} `{Kernel W}.
Notation S := (pstate W).

Definition set_locks (l : list spinlock) (s : S) : S :=
  PState l (ptable s) (nextpid s) (initproc s) (first s) (cpus s) (sched_pos s) (world s).
Definition set_ptable (t : list proc) (s : S) : S :=
  PState (locks s) t (nextpid s) (initproc s) (first s) (cpus s) (sched_pos s) (world s).
Definition set_nextpid (n : Z) (s : S) : S :=
  PState (locks s) (ptable s) n (initproc s) (first s) (cpus s) (sched_pos s) (world s).
Definition set_initproc (i : option nat) (s : S) : S :=
  PState (locks s) (ptable s) (nextpid s) i (first s) (cpus s) (sched_pos s) (world s).
Definition set_first (b : bool) (s : S) : S :=
  PState (locks s) (ptable s) (nextpid s) (initproc s) b (cpus s) (sched_pos s) (world s).
Definition set_cpus (c : list cpu) (s : S) : S :=
  PState (locks s) (ptable s) (nextpid s) (initproc s) (first s) c (sched_pos s) (world s).
Definition set_sched_pos (l : list (option nat)) (s : S) : S :=
  PState (locks s) (ptable s) (nextpid s) (initproc s) (first s) (cpus s) l (world s).
Definition set_world (w : W) (s : S) : S :=
  PState (locks s) (ptable s) (nextpid s) (initproc s) (first s) (cpus s) (sched_pos s) w.

(** Call into the rest of the kernel. *)
Definition kernel {A} (m : M W A) : M S A := zoom world set_world m.

Definition proc_at (i : nat) (s : S) : proc := default proc0 (ptable s !! i).
Definition pfield {A} (i : nat) (f : proc -> A) : M S A := gets (fun s => f (proc_at i s)).
Definition upd (i : nat) (f : proc -> proc) : M S unit :=
  modify (fun s => set_ptable (alter f i (ptable s)) s).

(** A spin-lock operation of CPU [c] on lock [i]. *)
Definition on_spin {A} (c i : nat) (m : M (spinlock * cpu) A) : M S A := fun s =>
  match locks s !! i, cpus s !! c with
  | Some lk, Some cp =>
      match m (lk, cp) with
      | Ok a t => Ok a (set_cpus (<[c := t.2]> (cpus s)) (set_locks (<[i := t.1]> (locks s)) s))
      | Panic e => Panic e
      | Sleep ch _ => Sleep ch s
      | Diverge => Diverge
      end
  | _, _ => Panic "no such lock or cpu"
  end.

Definition acquire_lk (c i : nat) : M S unit := on_spin c i (Spinlock.acquire c).
Definition release_lk (c i : nat) : M S unit := on_spin c i (Spinlock.release c).

(** The per-CPU variable [proc]; following it when it is null has no meaning. *)
Definition cpu_proc (c : nat) (s : S) : option nat := cpus s !! c ≫= c_proc.
Definition myproc (c : nat) : M S nat := fun s =>
  match cpu_proc c s with Some i => Ok i s | None => Panic "proc is null" end.
Definition set_cpu_proc (c : nat) (p : option nat) : M S unit :=
  modify (fun s => set_cpus
    (alter (fun k => Cpu (c_ncli k) (c_intena k) (c_if k) p) c (cpus s)) s).
Definition set_intena (c : nat) (b : bool) : M S unit :=
  modify (fun s => set_cpus
    (alter (fun k => Cpu (c_ncli k) b (c_if k) (c_proc k)) c (cpus s)) s).

Definition pinit : M S unit := modify (fun s => set_locks (<[PTABLE_LOCK := initlock]> (locks s)) s).

(** [allocproc], as the stretches that other CPUs can come between: the critical
    section that takes a free slot, and the rest, which runs without the lock. *)
Definition allocproc_find (c : nat) : M S (option nat) :=
  acquire_lk c PTABLE_LOCK ;;
  r <- mfind NPROC 0 (fun i =>
    st <- pfield (Z.to_nat i) p_state ;;
    ret (if decide (st = UNUSED) then Some (Z.to_nat i) else None)) ;;
  match r with
  | None => release_lk c PTABLE_LOCK ;; ret None
  | Some p =>
      upd p (set_state EMBRYO) ;;
      n <- gets nextpid ;;
      upd p (set_pid n) ;;
      modify (set_nextpid (i32 (n + 1))) ;;
      release_lk c PTABLE_LOCK ;;
      ret (Some p)
  end.

Definition allocproc_stack (p : nat) : M S (option nat) :=
  k <- kernel k_kalloc ;;
  upd p (set_kstack k) ;;
  if k =? 0 then upd p (set_state UNUSED) ;; ret None else
  upd p (set_tf None) ;;
  upd p (set_context CtxForkret) ;;
  ret (Some p).

Definition allocproc (c : nat) : M S (option nat) :=
  r <- allocproc_find c ;;
  match r with
  | None => ret None
  | Some p => allocproc_stack p
  end.

(** [safestrcpy(d, s, 16)] on names. *)
Definition safestrcpy16 (s : string) : string := String.substring 0 15 s.

(** The frame that [userinit] builds: user segments, interrupts on, the stack at
    the top of the only page, and eip 0. *)
Definition SEG_UCODE : Z := 4.
Definition SEG_UDATA : Z := 5.
Definition DPL_USER : Z := 3.
Definition FL_IF : Z := 512.
Definition user_ds : Z := Z.lor (Z.shiftl SEG_UDATA 3) DPL_USER.
Definition init_tf : trapframe :=
  Trapframe 0 0 0 0 0 0 0 0 0 0 user_ds user_ds 0 0 0
    (Z.lor (Z.shiftl SEG_UCODE 3) DPL_USER) FL_IF PGSIZE user_ds.

(** [userinit], with [code] the linked-in initcode.  [allocproc] cannot fail on
    an empty table with free memory; its null result is not tested. *)
Definition userinit (c : nat) (code : list Z) : M S unit :=
  r <- allocproc c ;;
  match r with
  | None => panic "userinit: null process"
  | Some p =>
      modify (set_initproc (Some p)) ;;
      pg <- kernel k_setupkvm ;;
      upd p (set_pgdir pg) ;;
      if pg =? 0 then panic "userinit: out of memory?" else
      kernel (k_inituvm pg code) ;;
      upd p (set_sz PGSIZE) ;;
      upd p (set_tf (Some init_tf)) ;;
      upd p (set_name (safestrcpy16 "initcode")) ;;
      d <- kernel (k_namei "/") ;;
      upd p (set_cwd d) ;;
      acquire_lk c PTABLE_LOCK ;;
      upd p (set_state RUNNABLE) ;;
      release_lk c PTABLE_LOCK
  end.

Definition growproc (c : nat) (n : Z) : M S Z :=
  me <- myproc c ;;
  p <- pfield me id ;;
  sz <- (if 0 <? n then kernel (k_allocuvm (p_pgdir p) (p_sz p) (u32 (p_sz p + n)))
         else if n <? 0 then kernel (k_deallocuvm (p_pgdir p) (p_sz p) (u32 (p_sz p + n)))
         else ret (p_sz p)) ;;
  if negb (n =? 0) && (sz =? 0) then ret (-1) else
  upd me (set_sz sz) ;;
  kernel (k_switchuvm (p_pgdir p)) ;;
  ret 0.

(** [fork] after [allocproc], for the caller [me] and the new slot [np], again in
    stretches: the copy of the memory with the fields up to the trap frame (the
    result tells whether there was memory), one turn of the loop over the files,
    the directory and the name, and the critical section at the end. *)
Definition fork_vm (me np : nat) : M S bool :=
  p <- pfield me id ;;
  pg <- kernel (k_copyuvm (p_pgdir p) (p_sz p)) ;;
  upd np (set_pgdir pg) ;;
  if pg =? 0 then
    k <- pfield np p_kstack ;;
    kernel (k_kfree k) ;;
    upd np (set_kstack 0) ;;
    upd np (set_state UNUSED) ;;
    ret false
  else
    upd np (set_sz (p_sz p)) ;;
    upd np (set_parent (Some me)) ;;
    upd np (set_tf (set_eax 0 <$> p_tf p)) ;;
    ret true.

Definition fork_fd (me np : nat) (i : Z) : M S unit :=
  f <- pfield me (fun p => p_ofile p !! Z.to_nat i) ;;
  match f with
  | Some (Some f) => f' <- kernel (k_filedup f) ;; upd np (set_ofile (Z.to_nat i) (Some f'))
  | _ => ret tt
  end.

Definition fork_cwd (me np : nat) : M S unit :=
  p <- pfield me id ;;
  match p_cwd p with
  | Some d => d' <- kernel (k_idup d) ;; upd np (set_cwd (Some d'))
  | None => panic "idup: null inode"
  end ;;
  upd np (set_name (safestrcpy16 (p_name p))).

Definition fork_run (c np : nat) : M S Z :=
  pid <- pfield np p_pid ;;
  acquire_lk c PTABLE_LOCK ;;
  upd np (set_state RUNNABLE) ;;
  release_lk c PTABLE_LOCK ;;
  ret pid.

Definition fork (c : nat) : M S Z :=
  r <- allocproc c ;;
  match r with
  | None => ret (-1)
  | Some np =>
      me <- myproc c ;;
      ok <- fork_vm me np ;;
      if negb ok then ret (-1) else
      mfor NOFILE 0 (fork_fd me np) ;;
      fork_cwd me np ;;
      fork_run c np
  end.

(** [wakeup1] and [wakeup]. *)
Definition wakeup1 (ch : option chan) : M S unit :=
  mfor NPROC 0 (fun i =>
    p <- pfield (Z.to_nat i) id ;;
    when (bool_decide (p_state p = SLEEPING) && bool_decide (p_chan p = ch))
      (upd (Z.to_nat i) (set_state RUNNABLE))).

Definition wakeup (c : nat) (ch : chan) : M S unit :=
  acquire_lk c PTABLE_LOCK ;;
  wakeup1 (Some ch) ;;
  release_lk c PTABLE_LOCK.

(** [sched], up to its switch to the scheduler of the CPU: [ctx] is where the
    process will continue.  The scheduler then clears [proc] and goes on with
    the slot after that of the process. *)
Definition sched (c : nat) (ctx : bool -> context) : M S unit :=
  me <- myproc c ;;
  lk <- gets (fun s => default initlock (locks s !! PTABLE_LOCK)) ;;
  if negb (holding lk c) then panic "sched ptable.lock" else
  k <- gets (fun s => default (Cpu 0 false false None) (cpus s !! c)) ;;
  if negb (c_ncli k =? 1) then panic "sched locks" else
  st <- pfield me p_state ;;
  if decide (st = RUNNING) then panic "sched running" else
  if c_if k then panic "sched interruptible" else
  upd me (set_context (ctx (c_intena k))) ;;
  set_cpu_proc c None ;;
  modify (fun s => set_sched_pos (<[c := Some (me + 1)%nat]> (sched_pos s)) s).

Definition yield (c : nat) : M S unit :=
  acquire_lk c PTABLE_LOCK ;;
  me <- myproc c ;;
  upd me (set_state RUNNABLE) ;;
  sched c CtxYield.

(** [sleep(chan, lk)], up to its switch to the scheduler. *)
Definition sleep {A} (c : nat) (ch : chan) (lk : option nat) : M S A :=
  p <- gets (cpu_proc c) ;;
  match p, lk with
  | None, _ => panic "sleep"
  | _, None => panic "sleep without lk"
  | Some me, Some lk =>
      when (negb (lk =? PTABLE_LOCK)%nat)
        (acquire_lk c PTABLE_LOCK ;; release_lk c lk) ;;
      upd me (set_chan (Some ch)) ;;
      upd me (set_state SLEEPING) ;;
      sched c (CtxSleep lk) ;;
      msleep ch
  end.

(** [exit], for the process [me], in stretches: one turn of the loop that closes
    the files, the release of the directory, and the critical section, up to the
    switch to the scheduler, from which it does not return. *)
Definition exit_fd (me : nat) (fd : Z) : M S unit :=
  f <- pfield me (fun p => p_ofile p !! Z.to_nat fd) ;;
  match f with
  | Some (Some f) => kernel (k_fileclose f) ;; upd me (set_ofile (Z.to_nat fd) None)
  | _ => ret tt
  end.

Definition exit_cwd (me : nat) : M S unit :=
  kernel k_begin_op ;;
  d <- pfield me p_cwd ;;
  match d with
  | Some d => kernel (k_iput d)
  | None => panic "iput: null inode"
  end ;;
  kernel k_end_op ;;
  upd me (set_cwd None).

Definition exit_die (c me : nat) (status : Z) : M S unit :=
  acquire_lk c PTABLE_LOCK ;;
  par <- pfield me p_parent ;;
  wakeup1 (CProc <$> par) ;;
  ip <- gets initproc ;;
  mfor NPROC 0 (fun i =>
    p <- pfield (Z.to_nat i) id ;;
    when (bool_decide (p_parent p = Some me))
      (upd (Z.to_nat i) (set_parent ip) ;;
       when (bool_decide (p_state p = ZOMBIE)) (wakeup1 (CProc <$> ip)))) ;;
  upd me (set_exitstat status) ;;
  upd me (set_state ZOMBIE) ;;
  sched c (fun _ => CtxExit).

Definition exit (c : nat) (status : Z) : M S unit :=
  me <- myproc c ;;
  ip <- gets initproc ;;
  if bool_decide (Some me = ip) then panic "init exiting" else
  mfor NOFILE 0 (exit_fd me) ;;
  exit_cwd me ;;
  exit_die c me status.

(** An [int *] argument: null, the caller's variable, or the [exitstat] of a
    slot. *)
Inductive intptr : Type := Null | Caller | Exitstat (i : nat).

(** The slot is given back: the part of [wait] for a child found dead. *)
Definition reap (p : nat) : M S Z :=
  ch <- pfield p id ;;
  kernel (k_kfree (p_kstack ch)) ;;
  upd p (set_kstack 0) ;;
  kernel (k_freevm (p_pgdir ch)) ;;
  upd p (set_pid 0) ;;
  upd p (set_parent None) ;;
  upd p (set_name "") ;;
  upd p (set_killed false) ;;
  upd p (set_state UNUSED) ;;
  ret (p_pid ch).

(** The body of the [for(;;)] of [wait], with [ptable.lock] held: the loop over
    the table returns at the first dead child; [havekids] is collected before.
    [status] is the parameter and [v] the content of the caller's variable, to
    which [Caller] points.  The result carries both as they are at the return:
    the code assigns to [status] and stores nothing through it. *)
Definition wait_loop (c : nat) (status : intptr) (v : Z) : M S (Z * (intptr * Z)) :=
  me <- myproc c ;;
  r <- mfind NPROC 0 (fun i =>
    let p := Z.to_nat i in
    ch <- pfield p id ;;
    if bool_decide (p_parent ch = Some me) && bool_decide (p_state ch = ZOMBIE) then
      pid <- reap p ;;
      let status := match status with Null => Null | _ => Exitstat p end in
      release_lk c PTABLE_LOCK ;;
      ret (Some (pid, (status, v)))
    else ret None) ;;
  match r with
  | Some r => ret r
  | None =>
      havekids <- gets (fun s => existsb (fun p => bool_decide (p_parent p = Some me)) (ptable s)) ;;
      killed <- pfield me p_killed ;;
      if negb havekids || killed then
        release_lk c PTABLE_LOCK ;;
        ret (-1, (status, v))
      else sleep c (CProc me) (Some PTABLE_LOCK)
  end.

Definition wait (c : nat) (status : intptr) (v : Z) : M S (Z * (intptr * Z)) :=
  acquire_lk c PTABLE_LOCK ;;
  wait_loop c status v.

Definition kill (c : nat) (pid : Z) : M S Z :=
  acquire_lk c PTABLE_LOCK ;;
  r <- mfind NPROC 0 (fun i =>
    let p := Z.to_nat i in
    q <- pfield p id ;;
    if p_pid q =? pid then
      upd p (set_killed true) ;;
      when (bool_decide (p_state q = SLEEPING)) (upd p (set_state RUNNABLE)) ;;
      release_lk c PTABLE_LOCK ;;
      ret (Some 0)
    else ret None) ;;
  match r with
  | Some r => ret r
  | None => release_lk c PTABLE_LOCK ;; ret (-1)
  end.

Definition forkret (c : nat) : M S unit :=
  release_lk c PTABLE_LOCK ;;
  f <- gets first ;;
  when f (modify (set_first false) ;; kernel k_iinit ;; kernel k_initlog).

(** The tails of [yield] and [sleep], after [sched] returns. *)
Definition yield_tail (c : nat) (intena : bool) : M S unit :=
  set_intena c intena ;;
  release_lk c PTABLE_LOCK.

Definition sleep_tail (c : nat) (lk : nat) (intena : bool) : M S unit :=
  set_intena c intena ;;
  me <- myproc c ;;
  upd me (set_chan None) ;;
  when (negb (lk =? PTABLE_LOCK)%nat)
    (release_lk c PTABLE_LOCK ;; acquire_lk c lk).

(** [scheduler] on CPU [c]: the start of its outer loop; one turn of its inner
    loop, which passes over slot [i] or switches to the context of the process
    there (and returns that context); and the end of the inner loop. *)
Definition scheduler_enter (c : nat) : M S unit :=
  modify (fun s => set_cpus
    (alter (fun k => Cpu (c_ncli k) (c_intena k) true (c_proc k)) c (cpus s)) s) ;;
  acquire_lk c PTABLE_LOCK ;;
  modify (fun s => set_sched_pos (<[c := Some 0%nat]> (sched_pos s)) s).

Definition scheduler_turn (c i : nat) : M S context :=
  p <- pfield i id ;;
  if decide (p_state p = RUNNABLE) then
    set_cpu_proc c (Some i) ;;
    kernel (k_switchuvm (p_pgdir p)) ;;
    upd i (set_state RUNNING) ;;
    modify (fun s => set_sched_pos (<[c := None]> (sched_pos s)) s) ;;
    ret (p_context p)
  else
    modify (fun s => set_sched_pos (<[c := Some (i + 1)%nat]> (sched_pos s)) s) ;;
    ret CtxNone.

Definition scheduler_leave (c : nat) : M S unit :=
  modify (fun s => set_sched_pos (<[c := None]> (sched_pos s)) s) ;;
  release_lk c PTABLE_LOCK.
End ops.
