(* ===== verification/ProcInv.v ===== *)
(** The process table stays well formed: what every operation of proc.c does to
    the table, the invariant, and its preservation along every interleaving of
    the operations of the processes and of the schedulers. *)
From stdpp Require Import base numbers list gmap sets strings.
From Stdlib Require Import ZArith Lia.
From S2P Require Import Prelude Spinlock Proc.

(** * The invariant of the table *)

Definition busy (st : procstate) : Prop := st = SLEEPING \/ st = RUNNABLE \/ st = RUNNING.

(** A process that has been set up and has not exited. *)
Definition alive (p : proc) : Prop := busy (p_state p).

Lemma alive_not p : alive p -> p_state p <> UNUSED /\ p_state p <> EMBRYO /\ p_state p <> ZOMBIE.
Proof. unfold alive, busy. intros [E|[E|E]]; rewrite E; done. Qed.

(** Slot [i] sleeps in [wait], on its own address. *)
Definition in_wait (i : nat) (p : proc) : Prop :=
  p_state p = SLEEPING /\ p_chan p = Some (CProc i).

Definition no_files (p : proc) : Prop :=
  Forall (fun f => f = None) (p_ofile p) /\ p_cwd p = None.

(** A live process that slot [p] has as its parent. *)
Definition has_parent (t : list proc) (p : proc) : Prop :=
  exists q pq, p_parent p = Some q /\ t !! q = Some pq /\ alive pq.

(** A slot that [fork] is filling has no parent and no file yet, or has its
    parent. *)
Record tinv (t : list proc) (np : Z) (ip : option nat) : Prop := TInv {
  ti_len : length t = NPROC;
  ti_init : exists i p, ip = Some i /\ t !! i = Some p /\ alive p /\ p_parent p = None;
  ti_parent : forall i p, t !! i = Some p -> Some i <> ip -> p_state p <> UNUSED ->
    p_state p <> EMBRYO -> has_parent t p;
  ti_unused : forall i p, t !! i = Some p -> p_state p = UNUSED -> p_parent p = None /\ no_files p;
  ti_embryo : forall i p, t !! i = Some p -> p_state p = EMBRYO ->
    (p_parent p = None /\ no_files p) \/ has_parent t p;
  ti_sleep : forall i p, t !! i = Some p -> p_state p = SLEEPING -> is_Some (p_chan p);
  ti_pid : forall i p, t !! i = Some p -> p_state p <> UNUSED -> 0 < p_pid p < np;
  ti_uniq : forall i j p q, t !! i = Some p -> t !! j = Some q -> p_state p <> UNUSED ->
    p_state q <> UNUSED -> p_pid p = p_pid q -> i = j;
  ti_zombie : forall i p, t !! i = Some p -> p_state p = ZOMBIE -> no_files p;
  ti_wait : forall i q p pq, t !! i = Some p -> t !! q = Some pq -> p_state p = ZOMBIE ->
    p_parent p = Some q -> ~ in_wait q pq;
  ti_ofile : forall i p, t !! i = Some p -> length (p_ofile p) = NOFILE;
  ti_self : forall i p, t !! i = Some p -> p_parent p <> Some i
}.

(** Moves of live processes between sleeping, runnable and running; the other
    fields that the invariant speaks of stay. *)
Definition benign1 (i : nat) (p p' : proc) (ok : Prop) : Prop :=
  p_parent p' = p_parent p /\
  ((p_ofile p' = p_ofile p /\ p_cwd p' = p_cwd p) \/
   (alive p /\ length (p_ofile p') = length (p_ofile p))) /\
  (p_state p' = p_state p \/ busy (p_state p) /\ busy (p_state p')) /\
  (p_state p' <> UNUSED -> p_pid p' = p_pid p) /\
  (p_state p' = SLEEPING -> is_Some (p_chan p')) /\
  (in_wait i p' -> in_wait i p \/ ok).

(** [i] has no dead child. *)
Definition no_dead_child (t : list proc) (i : nat) : Prop :=
  forall j p, t !! j = Some p -> p_parent p = Some i -> p_state p <> ZOMBIE.

Lemma tinv_benign t t' np ip :
  tinv t np ip -> length t' = length t ->
  (forall i p', t' !! i = Some p' -> exists p, t !! i = Some p /\ benign1 i p p' (no_dead_child t i)) ->
  tinv t' np ip.
Proof.
  intros [Hlen Hin Hpa Hun Hem Hsl Hpi Hu Hzo Hwa Hof Hse] Hl Hb.
  assert (forall i p, t !! i = Some p -> exists p', t' !! i = Some p' /\
    benign1 i p p' (no_dead_child t i)) as Hf.
  { intros i p Hi. destruct (lookup_lt_is_Some_2 t' i) as [p' Hp'].
    { rewrite Hl. by eapply lookup_lt_Some. }
    exists p'. split; [done|]. destruct (Hb _ _ Hp') as (p0 & E & ?). by simplify_eq. }
  assert (forall i p p' ok, benign1 i p p' ok -> alive p -> alive p') as Hal.
  { intros i p p' ok (_ & _ & Hst & _) Ha. unfold alive in *. destruct Hst as [-> |[_ Hst]]; done. }
  assert (forall st, busy st -> st <> UNUSED /\ st <> ZOMBIE /\ st <> EMBRYO) as Hbz.
  { unfold busy. intros st. naive_solver. }
  assert (forall i p p' ok, benign1 i p p' ok -> ~ busy (p_state p') -> p_state p = p_state p') as Hst.
  { intros i p p' ok (_ & _ & Hs & _) Hn. destruct Hs as [Hs|[_ Hs]]; [done|tauto]. }
  assert (forall i p p' ok, benign1 i p p' ok -> p_state p' <> UNUSED -> p_state p <> UNUSED) as Hus.
  { intros i p p' ok (_ & _ & Hs & _) Hn. destruct Hs as [Hs|[Hs _]]; [congruence|apply Hbz in Hs; tauto]. }
  assert (forall i p p' ok, benign1 i p p' ok -> has_parent t p -> has_parent t' p') as Hhp.
  { intros i p p' ok (Ep & _) (q & pq & Hq & Hpq & Haq). destruct (Hf _ _ Hpq) as (pq' & Hq' & Hbq).
    exists q, pq'. split_and!; [congruence|done|by eapply Hal]. }
  assert (forall i p p' ok, benign1 i p p' ok -> ~ alive p -> no_files p -> no_files p') as Hnf.
  { intros i p p' ok (_ & Hf' & _) Hna. unfold no_files. destruct Hf' as [[-> ->]|[Ha _]]; done. }
  split.
  - congruence.
  - destruct Hin as (i & p & -> & Hi & Ha & Hp). destruct (Hf _ _ Hi) as (p' & Hi' & Hben).
    exists i, p'. split_and!; [done..|eapply Hal; eauto|]. destruct Hben as (-> & _). done.
  - intros i p' Hi' Hne Hun' Hem'. destruct (Hb _ _ Hi') as (p & Hi & Hben).
    eapply Hhp; [done|]. apply (Hpa i p Hi Hne); [by eapply Hus|].
    destruct Hben as (_ & _ & [<-|[Hs _]] & _); [done|apply Hbz in Hs; tauto].
  - intros i p' Hi' Hst'. destruct (Hb _ _ Hi') as (p & Hi & Hben).
    assert (p_state p = UNUSED) as Eu.
    { rewrite (Hst _ _ _ _ Hben), Hst'; [done|]. rewrite Hst'. unfold busy; naive_solver. }
    destruct (Hun i p Hi Eu) as [Ep Hfp]. split; [destruct Hben as (-> & _); done|].
    eapply Hnf; [done| |done]. intros [? _]%alive_not. congruence.
  - intros i p' Hi' Hst'. destruct (Hb _ _ Hi') as (p & Hi & Hben).
    assert (p_state p = EMBRYO) as Eu.
    { rewrite (Hst _ _ _ _ Hben), Hst'; [done|]. rewrite Hst'. unfold busy; naive_solver. }
    destruct (Hem i p Hi Eu) as [[Ep Hfp]|Hh]; [left|right; by eapply Hhp].
    split; [destruct Hben as (-> & _); done|]. eapply Hnf; [done| |done]. intros (_ & ? & _)%alive_not. congruence.
  - intros i p' Hi'. destruct (Hb _ _ Hi') as (p & Hi & (_ & _ & _ & _ & Hs & _)). done.
  - intros i p' Hi' Hst'. destruct (Hb _ _ Hi') as (p & Hi & Hben).
    pose proof (Hus _ _ _ _ Hben Hst'). destruct Hben as (_ & _ & _ & Hp & _).
    rewrite Hp by done. by apply (Hpi i p Hi).
  - intros i j p' q' Hi' Hj' Hsi Hsj E.
    destruct (Hb _ _ Hi') as (p & Hi & Hbp), (Hb _ _ Hj') as (q & Hj & Hbq).
    pose proof (Hus _ _ _ _ Hbp Hsi). pose proof (Hus _ _ _ _ Hbq Hsj).
    destruct Hbp as (_ & _ & _ & Hp & _), Hbq as (_ & _ & _ & Hp' & _).
    rewrite Hp, Hp' in E by done. by eapply Hu.
  - intros i p' Hi' Hst'. destruct (Hb _ _ Hi') as (p & Hi & Hben).
    assert (p_state p = ZOMBIE) as Eu.
    { rewrite (Hst _ _ _ _ Hben), Hst'; [done|]. rewrite Hst'. unfold busy; naive_solver. }
    eapply Hnf; [done| |by eapply Hzo]. intros (_ & _ & ?)%alive_not. congruence.
  - intros i q p' pq' Hi' Hq' Hz Hpar Hw.
    destruct (Hb _ _ Hi') as (p & Hi & Hben).
    destruct (Hb _ _ Hq') as (pq & Hq & (_ & _ & _ & _ & _ & Hwq)).
    assert (p_state p = ZOMBIE) as Hz'.
    { rewrite (Hst _ _ _ _ Hben), Hz; [done|]. rewrite Hz. unfold busy; naive_solver. }
    destruct Hben as (Ep & _). rewrite Ep in Hpar.
    destruct (Hwq Hw) as [Hw'|Hn]; [by eapply (Hwa i q)|by apply (Hn i p)].
  - intros i p' Hi'. destruct (Hb _ _ Hi') as (p & Hi & (_ & [[-> _]|[_ ->]] & _)); eauto.
  - intros i p' Hi'. destruct (Hb _ _ Hi') as (p & Hi & (-> & _)). eauto.
Qed.

Lemma lookup_upd (t : list proc) i p p' j q :
  t !! i = Some p ->
  <[i := p']> t !! j = Some q <-> (j = i /\ q = p') \/ (j <> i /\ t !! j = Some q).
Proof.
  intros Hi. apply lookup_lt_Some in Hi. rewrite list_lookup_insert. case_decide; naive_solver.
Qed.

Lemma tinv_benign1 t np ip i p p' :
  tinv t np ip -> t !! i = Some p -> benign1 i p p' (no_dead_child t i) ->
  tinv (<[i := p']> t) np ip.
Proof.
  intros HI Hi Hb. eapply tinv_benign; [done|apply length_insert|].
  intros j q. rewrite lookup_upd by done. intros [[-> ->]|[_ Hj]]; [by exists p|].
  exists q. split; [done|]. split_and!; auto. by eapply ti_sleep.
Qed.

(** The effect of [wakeup1]. *)
Definition wake (ch : option chan) (p : proc) : proc :=
  if bool_decide (p_state p = SLEEPING) && bool_decide (p_chan p = ch)
  then set_state RUNNABLE p else p.

Lemma wake_fields ch p :
  p_parent (wake ch p) = p_parent p /\ p_ofile (wake ch p) = p_ofile p /\
  p_cwd (wake ch p) = p_cwd p /\ p_pid (wake ch p) = p_pid p /\ p_chan (wake ch p) = p_chan p /\
  (p_state (wake ch p) = p_state p \/ p_state p = SLEEPING /\ p_state (wake ch p) = RUNNABLE).
Proof.
  unfold wake. destruct (bool_decide (p_state p = SLEEPING)) eqn:E; simpl; [|by split_and!; auto].
  apply bool_decide_eq_true in E.
  destruct (bool_decide (p_chan p = ch)); simpl; split_and!; auto.
Qed.

Lemma wake_awake ch i p : ~ (in_wait i (wake ch p) /\ ch = Some (CProc i)).
Proof.
  intros [[E1 E2] ->]. unfold wake in *.
  destruct (bool_decide (p_state p = SLEEPING)) eqn:E; simpl in *;
    [|apply bool_decide_eq_false in E; done].
  destruct (bool_decide (p_chan p = Some (CProc i))) eqn:E'; simpl in *; [done|].
  by apply bool_decide_eq_false in E'.
Qed.

Lemma tinv_wake t np ip ch : tinv t np ip -> tinv (wake ch <$> t) np ip.
Proof.
  intros HI. eapply tinv_benign; [done|by rewrite length_fmap|].
  intros i p'. rewrite list_lookup_fmap, fmap_Some. intros (p & Hi & ->). exists p. split; [done|].
  destruct (wake_fields ch p) as (E1 & E2 & E3 & E4 & E5 & Hs). split_and!; auto.
  - destruct Hs as [? |[-> ->]]; [by left|right]. unfold busy. auto.
  - rewrite E5. intros E. eapply ti_sleep; [done..|]. destruct Hs as [<-|[_ Hs]]; congruence.
  - intros [Hw1 Hw2]. left. rewrite E5 in Hw2. split; [|done]. destruct Hs as [<-|[_ Hs]]; congruence.
Qed.

(** A slot that is free or being filled changes: it is taken, filled, given up, or
    becomes a process. *)
Lemma tinv_fresh t np np' ip i p p' :
  tinv t np ip -> np <= np' -> t !! i = Some p -> p_state p = UNUSED \/ p_state p = EMBRYO ->
  match p_state p' with
  | UNUSED => p_parent p' = None /\ no_files p'
  | EMBRYO => (p_parent p' = None /\ no_files p') \/ has_parent t p'
  | RUNNABLE => has_parent t p'
  | _ => False
  end ->
  (p_state p' <> UNUSED -> 0 < p_pid p' < np' /\
     forall j q, j <> i -> t !! j = Some q -> p_state q <> UNUSED -> p_pid q <> p_pid p') ->
  length (p_ofile p') = NOFILE -> tinv (<[i := p']> t) np' ip.
Proof.
  intros [Hlen Hin Hpa Hun Hem Hsl Hpi Hu Hzo Hwa Hof Hse] Hnp Hi Hs Hs' Hpid Hlo.
  assert (forall q pq, t !! q = Some pq -> alive pq -> q <> i) as Hai.
  { intros q pq Hq (Ha & Ha' & _)%alive_not ->. simplify_eq. by destruct Hs. }
  assert (forall x, has_parent t x -> has_parent (<[i := p']> t) x) as Hhp.
  { intros x (q & pq & Hq & Hpq & Ha). exists q, pq. rewrite (lookup_upd _ _ _ _ _ _ Hi).
    split_and!; auto. right. eauto. }
  assert (forall q, p_parent p' = Some q -> has_parent t p') as Hpp.
  { intros q Eq. destruct (p_state p'); try done; [by destruct Hs'; congruence|].
    destruct Hs' as [[? _]|?]; [congruence|done]. }
  split; try setoid_rewrite (lookup_upd _ _ _ _ _ _ Hi).
  - by rewrite length_insert.
  - destruct Hin as (j & q & -> & Hj & Ha & Hp). exists j, q. split_and!; auto. right. eauto.
  - intros j q [[-> ->]|[Hj Hq]] Hnip Hnu Hne; apply Hhp; [|by eapply Hpa]. by destruct (p_state p').
  - intros j q [[-> ->]|[Hj Hq]] E; [by rewrite E in Hs'|eauto].
  - intros j q [[-> ->]|[Hj Hq]] E; [rewrite E in Hs'; destruct Hs'; auto|].
    destruct (Hem j q Hq E); auto.
  - intros j q [[-> ->]|[Hj Hq]] E; [by rewrite E in Hs'|eauto].
  - intros j q [[-> ->]|[Hj Hq]] E; [by apply Hpid|]. pose proof (Hpi j q Hq E). lia.
  - intros j k q r [[-> ->]|[Hj Hq]] [[-> ->]|[Hk Hr]] E1 E2 E; [done| | |eauto].
    + by destruct (proj2 (Hpid E1) k r Hk Hr E2).
    + by destruct (proj2 (Hpid E2) j q Hj Hq E1).
  - intros j q [[-> ->]|[Hj Hq]] E; [by rewrite E in Hs'|eauto].
  - intros j k q r [[-> ->]|[Hj Hq]] [[-> ->]|[Hk Hr]] Hz Hpar; [by rewrite Hz in Hs'..| |eauto].
    intros [E _]. by rewrite E in Hs'.
  - intros j q [[-> ->]|[Hj Hq]]; eauto.
  - intros j q [[-> ->]|[Hj Hq]]; [|eauto]. intros E.
    destruct (Hpp i E) as (q & pq & Hq & Hpq & Ha). apply (Hai q pq Hpq Ha). congruence.
Qed.

(** A dead child's slot is given back. *)
Lemma tinv_reap t np ip i p p' :
  tinv t np ip -> t !! i = Some p -> p_state p = ZOMBIE ->
  p_state p' = UNUSED -> p_parent p' = None -> p_ofile p' = p_ofile p -> p_cwd p' = p_cwd p ->
  tinv (<[i := p']> t) np ip.
Proof.
  intros [Hlen Hin Hpa Hun Hem Hsl Hpi Hu Hzo Hwa Hof Hse] Hi Hs Hs' Hp' E2 E3.
  assert (forall q pq, t !! q = Some pq -> alive pq -> q <> i) as Hai.
  { intros q pq Hq (_ & _ & Ha)%alive_not ->. congruence. }
  assert (forall x, has_parent t x -> has_parent (<[i := p']> t) x) as Hhp.
  { intros x (q & pq & Hq & Hpq & Ha). exists q, pq. rewrite (lookup_upd _ _ _ _ _ _ Hi).
    split_and!; auto. right. eauto. }
  split; try setoid_rewrite (lookup_upd _ _ _ _ _ _ Hi).
  - by rewrite length_insert.
  - destruct Hin as (j & q & -> & Hj & Ha & Hp). exists j, q. split_and!; auto. right. eauto.
  - intros j q [[-> ->]|[Hj Hq]] Hnip Hnu Hne; [congruence|]. apply Hhp. by eapply Hpa.
  - intros j q [[-> ->]|[Hj Hq]] E; [|eauto]. split; [done|]. unfold no_files. rewrite E2, E3. exact (Hzo i p Hi Hs).
  - intros j q [[-> ->]|[Hj Hq]] E; [congruence|]. destruct (Hem j q Hq E); auto.
  - intros j q [[-> ->]|[Hj Hq]] E; [congruence|eauto].
  - intros j q [[-> ->]|[Hj Hq]] E; [congruence|eauto].
  - intros j k q r [[-> ->]|[Hj Hq]] [[-> ->]|[Hk Hr]] F1 F2 E; [done|congruence|congruence|eauto].
  - intros j q [[-> ->]|[Hj Hq]] E; [congruence|eauto].
  - intros j k q r [[-> ->]|[Hj Hq]] [[-> ->]|[Hk Hr]] Hz Hpar; [congruence|congruence| |eauto].
    intros [E _]. congruence.
  - intros j q [[-> ->]|[Hj Hq]]; [rewrite E2|]; eauto.
  - intros j q [[-> ->]|[Hj Hq]]; [congruence|eauto].
Qed.

(** The children of [me] go to [ip]. *)
Definition adopt (me : nat) (ip : option nat) (p : proc) : proc :=
  if bool_decide (p_parent p = Some me) then set_parent ip p else p.

Lemma adopt_fields me ip p :
  p_parent (adopt me ip p) = (if bool_decide (p_parent p = Some me) then ip else p_parent p) /\
  p_ofile (adopt me ip p) = p_ofile p /\ p_cwd (adopt me ip p) = p_cwd p /\
  p_pid (adopt me ip p) = p_pid p /\ p_chan (adopt me ip p) = p_chan p /\
  p_state (adopt me ip p) = p_state p.
Proof. unfold adopt. by destruct (bool_decide (p_parent p = Some me)). Qed.

Definition has_dead_child (t : list proc) (me : nat) : bool :=
  existsb (fun p => bool_decide (p_parent p = Some me) && bool_decide (p_state p = ZOMBIE)) t.

Lemma has_dead_child_true t me j p :
  t !! j = Some p -> p_parent p = Some me -> p_state p = ZOMBIE -> has_dead_child t me = true.
Proof.
  intros Hj Hp Hs. apply existsb_exists. exists p. split.
  - apply list_elem_of_In. by eapply list_elem_of_lookup_2.
  - by rewrite !bool_decide_eq_true_2.
Qed.

(** The table after the loop of [exit] that hands the children to init. *)
Definition adopted (me : nat) (ip : option nat) (t : list proc) : list proc :=
  let t' := adopt me ip <$> t in
  if has_dead_child t me then wake (CProc <$> ip) <$> t' else t'.

Lemma adopted_at me ip t i p' :
  adopted me ip t !! i = Some p' -> exists p, t !! i = Some p /\
    p_parent p' = (if bool_decide (p_parent p = Some me) then ip else p_parent p) /\
    p_ofile p' = p_ofile p /\ p_cwd p' = p_cwd p /\ p_pid p' = p_pid p /\ p_chan p' = p_chan p /\
    (p_state p' = p_state p \/ p_state p = SLEEPING /\ p_state p' = RUNNABLE) /\
    (has_dead_child t me = true -> ip = Some i -> ~ in_wait i p').
Proof.
  unfold adopted. destruct (has_dead_child t me) eqn:Hd.
  - rewrite <- list_fmap_compose, list_lookup_fmap, fmap_Some. intros (p & Hi & ->).
    exists p. split; [done|]. unfold compose.
    destruct (wake_fields (CProc <$> ip) (adopt me ip p)) as (-> & -> & -> & -> & -> & Hs).
    destruct (adopt_fields me ip p) as (-> & -> & -> & -> & -> & Es). rewrite Es in Hs.
    split_and!; auto. intros _ -> Hw. by apply (wake_awake (Some (CProc i)) i (adopt me (Some i) p)).
  - rewrite list_lookup_fmap, fmap_Some. intros (p & Hi & ->). exists p. split; [done|].
    destruct (adopt_fields me ip p) as (-> & -> & -> & -> & -> & ->).
    split_and!; auto. done.
Qed.

Lemma adopted_length me ip t : length (adopted me ip t) = length t.
Proof. unfold adopted. destruct (has_dead_child t me); by rewrite !length_fmap. Qed.

Lemma adopted_alive t me ip z i p : t !! i = Some p -> i <> me -> alive p ->
  exists p', <[me := z]> (adopted me ip t) !! i = Some p' /\ alive p' /\
    p_parent p' = (if bool_decide (p_parent p = Some me) then ip else p_parent p).
Proof.
  intros Hi Hne Ha. destruct (lookup_lt_is_Some_2 (adopted me ip t) i) as [p' Hp'].
  { rewrite adopted_length. by eapply lookup_lt_Some. }
  exists p'. rewrite list_lookup_insert_ne by done. split; [done|].
  destruct (adopted_at _ _ _ _ _ Hp') as (p0 & E & Hpar & _ & _ & _ & _ & Hs & _). simplify_eq.
  split; [|done]. unfold alive. destruct Hs as [-> |[_ ->]]; [done|]. unfold busy. auto.
Qed.

(** The children of [me] have [j] for their parent now. *)
Lemma adopted_has_parent t me j pj z x y :
  t !! j = Some pj -> alive pj -> j <> me -> has_parent t x ->
  p_parent y = (if bool_decide (p_parent x = Some me) then Some j else p_parent x) ->
  has_parent (<[me := z]> (adopted me (Some j) t)) y.
Proof.
  intros Hj Haj Hjm (q & pq & Hq & Hpq & Haq) Ey. unfold has_parent. rewrite Ey, Hq.
  destruct (decide (q = me)) as [->|Hqm].
  - rewrite bool_decide_eq_true_2 by done.
    destruct (adopted_alive t me (Some j) z j pj Hj Hjm Haj) as (p'' & ? & ? & _). eauto.
  - rewrite bool_decide_eq_false_2 by congruence.
    destruct (adopted_alive t me (Some j) z q pq Hpq Hqm Haq) as (p' & ? & ? & _). eauto.
Qed.

(** No parent of a zombie is asleep in [wait] after the wakeup of [j]. *)
Lemma adopted_no_wait t me j i q p' pq' :
  (forall i q p pq, t !! i = Some p -> t !! q = Some pq -> p_state p = ZOMBIE -> p_parent p = Some q -> ~ in_wait q pq) ->
  adopted me (Some j) t !! i = Some p' -> adopted me (Some j) t !! q = Some pq' ->
  p_state p' = ZOMBIE -> p_parent p' = Some q -> ~ in_wait q pq'.
Proof.
  intros Hwa Hi' Hq' Hzs Hpar Hw.
  destruct (adopted_at _ _ _ _ _ Hq') as (pq & Hq & _ & _ & _ & _ & Ech & Hsq & Hwk).
  assert (in_wait q pq) as Hwq.
  { destruct Hw as [Hw1 Hw2]. split; [destruct Hsq as [<-|[_ ?]]; congruence|congruence]. }
  destruct (adopted_at _ _ _ _ _ Hi') as (p & Hi & Hpp & _ & _ & _ & _ & Hs & _).
  assert (p_state p = ZOMBIE) as Hz' by (destruct Hs as [<-|[_ ?]]; congruence).
  rewrite Hpp in Hpar. destruct (bool_decide (p_parent p = Some me)) eqn:Eb; [|by eapply (Hwa i q)].
  apply bool_decide_eq_true in Eb. injection Hpar as <-.
  apply Hwk; [by eapply has_dead_child_true|done|done].
Qed.

Lemma tinv_exit t np ip me pm z :
  tinv t np ip -> t !! me = Some pm -> alive pm -> Some me <> ip ->
  (forall q pq, p_parent pm = Some q -> t !! q = Some pq -> ~ in_wait q pq) ->
  p_state z = ZOMBIE -> p_parent z = p_parent pm -> p_pid z = p_pid pm -> no_files z ->
  length (p_ofile z) = NOFILE ->
  tinv (<[me := z]> (adopted me ip t)) np ip.
Proof.
  intros [Hlen Hin Hpa Hun Hem Hsl Hpi Hu Hzo Hwa Hof Hse] Hme Ham Hnip Hpw Hz Hzp Hzi Hzf Hzl.
  assert (exists y, adopted me ip t !! me = Some y) as [y Hy].
  { apply lookup_lt_is_Some_2. rewrite adopted_length. by eapply lookup_lt_Some. }
  pose proof (alive_not _ Ham) as (Ham1 & Ham2 & _).
  destruct Hin as (j & pj & -> & Hj & Haj & Hpj).
  assert (j <> me) as Hjm by congruence.
  pose proof (fun x y' => adopted_has_parent t me j pj z x y' Hj Haj Hjm) as Hhp.
  split; try setoid_rewrite (lookup_upd _ _ _ _ _ _ Hy).
  - by rewrite length_insert, adopted_length.
  - destruct (adopted_alive t me (Some j) z j pj Hj Hjm Haj) as (p' & Hp' & Ha' & E).
    rewrite (lookup_upd _ _ _ _ _ _ Hy) in Hp'. exists j, p'. split_and!; try done.
    rewrite E, Hpj. by rewrite bool_decide_eq_false_2.
  - intros i p' Hi' Hne Hun' Hem'.
    assert (exists p, t !! i = Some p /\ p_state p <> UNUSED /\ p_state p <> EMBRYO /\
      p_parent p' = (if bool_decide (p_parent p = Some me) then Some j else p_parent p)) as (p & Hi & Hs & Hs2 & Hpar).
    { destruct Hi' as [[-> ->]|[Hne' Hi']].
      - exists pm. split_and!; try done.
        rewrite bool_decide_eq_false_2; [done|]. by eapply Hse.
      - destruct (adopted_at _ _ _ _ _ Hi') as (p & Hi & Hpar & _ & _ & _ & _ & Hs & _).
        exists p. split_and!; try done; destruct Hs as [<-|[-> _]]; done. }
    eapply Hhp; [by eapply Hpa|done].
  - intros i p' [[-> ->]|[Hne' Hi']] E; [congruence|].
    destruct (adopted_at _ _ _ _ _ Hi') as (p & Hi & -> & Eo & Ec & _ & _ & Hs & _).
    assert (p_state p = UNUSED) as Eu by (destruct Hs as [<-|[_ Hs]]; congruence).
    destruct (Hun i p Hi Eu) as [Ep Hf]. rewrite Ep, bool_decide_eq_false_2 by done.
    unfold no_files in *. by rewrite Eo, Ec.
  - intros i p' [[-> ->]|[Hne' Hi']] E; [congruence|].
    destruct (adopted_at _ _ _ _ _ Hi') as (p & Hi & Ep & Eo & Ec & _ & _ & Hs & _).
    assert (p_state p = EMBRYO) as Eu by (destruct Hs as [<-|[_ Hs]]; congruence).
    destruct (Hem i p Hi Eu) as [[Ep0 Hf]|Hh]; [left|right; by eapply Hhp].
    rewrite Ep, Ep0, bool_decide_eq_false_2 by done. unfold no_files in *. by rewrite Eo, Ec.
  - intros i p' [[-> ->]|[Hne' Hi']] E; [congruence|].
    destruct (adopted_at _ _ _ _ _ Hi') as (p & Hi & _ & _ & _ & _ & -> & Hs & _).
    eapply Hsl; [done|]. destruct Hs as [<-|[_ Hs]]; congruence.
  - intros i p' [[-> ->]|[Hne' Hi']] E; [rewrite Hzi; by apply (Hpi me pm Hme)|].
    destruct (adopted_at _ _ _ _ _ Hi') as (p & Hi & _ & _ & _ & -> & _ & Hs & _).
    apply (Hpi i p Hi). destruct Hs as [<-|[-> _]]; done.
  - assert (forall i p', (i = me /\ p' = z) \/ (i <> me /\ adopted me (Some j) t !! i = Some p') ->
      p_state p' <> UNUSED -> exists p, t !! i = Some p /\ p_state p <> UNUSED /\ p_pid p = p_pid p') as Hb.
    { intros i p' [[-> ->]|[Hne' Hi']] E; [exists pm; auto|].
      destruct (adopted_at _ _ _ _ _ Hi') as (p & Hi & _ & _ & _ & -> & _ & Hs & _).
      exists p. split_and!; try done. destruct Hs as [<-|[-> _]]; done. }
    intros i k p' q' Hi' Hk' E1 E2 E.
    destruct (Hb _ _ Hi' E1) as (p & ? & ? & F1), (Hb _ _ Hk' E2) as (q & ? & ? & F2).
    eapply Hu; eauto. congruence.
  - intros i p' [[-> ->]|[Hne' Hi']] E; [done|].
    destruct (adopted_at _ _ _ _ _ Hi') as (p & Hi & _ & Eo & Ec & _ & _ & Hs & _).
    unfold no_files. rewrite Eo, Ec. apply (Hzo i p Hi). destruct Hs as [<-|[_ Hs]]; congruence.
  - intros i q p' pq' Hi' Hq' Hzs Hpar Hw.
    destruct Hq' as [[-> ->]|[Hqm Hq']]; [destruct Hw; congruence|].
    destruct Hi' as [[-> ->]|[Him Hi']]; [|by apply (adopted_no_wait t me j i q p' pq' Hwa)].
    destruct (adopted_at _ _ _ _ _ Hq') as (pq & Hq & _ & _ & _ & _ & Ech & Hsq & _).
    eapply Hpw; [by rewrite <- Hzp|done|]. destruct Hw as [Hw1 Hw2].
    split; [destruct Hsq as [<-|[_ ?]]; congruence|congruence].
  - intros i p' [[-> ->]|[Hne' Hi']]; [done|].
    destruct (adopted_at _ _ _ _ _ Hi') as (p & Hi & _ & -> & _). eauto.
  - intros i p' [[-> ->]|[Hne' Hi']]; [rewrite Hzp; eauto|].
    destruct (adopted_at _ _ _ _ _ Hi') as (p & Hi & -> & _).
    destruct (bool_decide (p_parent p = Some me)) eqn:Eb; [|eauto].
    apply bool_decide_eq_true in Eb. intros [= <-]. congruence.
Qed.

(** * What the operations do to the table *)

Section effects.
Context {W : Type} `{Kernel W}.
Implicit Types s : pstate W.

Lemma set_ptable_id s : set_ptable (ptable s) s = s.
Proof. by destruct s. Qed.

Lemma pupd_ok i f s : upd i f s = Ok tt (set_ptable (alter f i (ptable s)) s).
Proof. done. Qed.

Lemma acquire_lk_ok c i s k :
  locks s !! i = Some (Spinlock false None) -> cpus s !! c = Some k ->
  acquire_lk c i s =
  Ok tt (set_cpus (<[c := pushed k]> (cpus s))
           (set_locks (<[i := Spinlock true (Some c)]> (locks s)) s)).
Proof.
  intros Hl Hc. unfold acquire_lk, on_spin. rewrite Hl, Hc.
  unfold acquire, bind, on_cpu, zoom. simpl. rewrite pushcli_ok. done.
Qed.

Lemma release_lk_ok c i s k :
  locks s !! i = Some (Spinlock true (Some c)) -> cpus s !! c = Some k -> cpu_ok k -> 0 < c_ncli k ->
  release_lk c i s =
  Ok tt (set_cpus (<[c := popped k]> (cpus s))
           (set_locks (<[i := Spinlock false None]> (locks s)) s)).
Proof.
  intros Hl Hc Hk Hn. unfold release_lk, on_spin. rewrite Hl, Hc.
  unfold release, bind, holding. simpl. rewrite bool_decide_eq_true_2 by done. simpl.
  unfold on_cpu, zoom. simpl. rewrite popcli_ok by done. done.
Qed.

(** A loop over the table that changes each slot by itself. *)
Lemma mfor_table (g : proc -> proc) (body : Z -> M (pstate W) unit) s :
  length (ptable s) = NPROC ->
  (forall i s, 0 <= i < Z.of_nat NPROC -> length (ptable s) = NPROC ->
     body i s = Ok tt (set_ptable (alter g (Z.to_nat i) (ptable s)) s)) ->
  mfor NPROC 0 body s = Ok tt (set_ptable (g <$> ptable s) s).
Proof.
  intros Hlen Hbody.
  destruct (mfor_inv (fun i s' => exists t', s' = set_ptable t' s /\ length t' = NPROC /\
      forall j, t' !! j = if decide (Z.of_nat j < i) then g <$> ptable s !! j else ptable s !! j)
    NPROC 0 body s) as (s' & E & t' & -> & Hl' & Ht').
  - exists (ptable s). rewrite set_ptable_id. split_and!; try done.
    intros j. by rewrite decide_False by lia.
  - intros j u Hj (t' & -> & Hl' & Ht'). eexists. split; [apply Hbody; [lia|done]|].
    exists (alter g (Z.to_nat j) t'). split; [done|]. split; [by rewrite length_alter|].
    intros i. rewrite list_lookup_alter. destruct (decide (i = Z.to_nat j)) as [E|Hne].
    + subst i. rewrite decide_True, Ht', decide_False, decide_True by lia. done.
    + rewrite decide_False, Ht' by lia.
      destruct (decide (Z.of_nat i < j)); [by rewrite decide_True by lia|by rewrite decide_False by lia].
  - rewrite E. do 2 f_equal. apply list_eq. intros i. rewrite Ht', list_lookup_fmap.
    case_decide; [done|]. assert (NPROC <= i)%nat as Hi by lia.
    by rewrite lookup_ge_None_2 by lia.
Qed.

Lemma wakeup1_ok ch s :
  length (ptable s) = NPROC -> wakeup1 ch s = Ok tt (set_ptable (wake ch <$> ptable s) s).
Proof.
  intros Hlen. apply mfor_table; [done|]. intros i s' Hi Hl.
  destruct (lookup_lt_is_Some_2 (ptable s') (Z.to_nat i)) as [p Hp]; [lia|].
  unfold bind, pfield, gets, proc_at. rewrite Hp. simpl. unfold id.
  assert (alter (wake ch) (Z.to_nat i) (ptable s') = <[Z.to_nat i := wake ch p]> (ptable s')) as ->.
  { apply list_eq. intros j. rewrite list_lookup_alter, list_lookup_insert.
    case_decide as E; [subst; rewrite decide_True by lia; by rewrite Hp|].
    by rewrite decide_False by tauto. }
  unfold wake, when.
  destruct (bool_decide (p_state p = SLEEPING) && bool_decide (p_chan p = ch)).
  - rewrite pupd_ok. do 2 f_equal. apply list_eq. intros j. rewrite list_lookup_alter, list_lookup_insert.
    case_decide as E; [subst; rewrite decide_True by lia; by rewrite Hp|].
    by rewrite decide_False by tauto.
  - rewrite list_insert_id by done. by rewrite set_ptable_id.
Qed.

Lemma kernel_inv {A} (m : M W A) s a s' : kernel m s = Ok a s' -> exists w, s' = set_world w s.
Proof. unfold kernel, zoom. destruct (m (world s)); naive_solver. Qed.

Lemma proc_at_eq i s p : ptable s !! i = Some p -> proc_at i s = p.
Proof. intros E. unfold proc_at. by rewrite E. Qed.

Lemma proc_at_tab i p L T n ip f C Q (w : W) :
  T !! i = Some p -> proc_at i (PState L T n ip f C Q w) = p.
Proof. intros E. by apply proc_at_eq. Qed.

Lemma alter_at {A} (f : A -> A) (t : list A) i p :
  t !! i = Some p -> alter f i t = <[i := f p]> t.
Proof.
  intros Hi. pose proof (lookup_lt_Some _ _ _ Hi). apply list_eq. intros j.
  rewrite list_lookup_alter, list_lookup_insert.
  case_decide as E; [subst; rewrite decide_True by auto; by rewrite Hi|].
  by rewrite decide_False by tauto.
Qed.

Lemma alter_insert_at {A} (f : A -> A) (t : list A) i p :
  (i < length t)%nat -> alter f i (<[i := p]> t) = <[i := f p]> t.
Proof.
  intros Hi. rewrite (alter_at _ _ _ p) by (by apply list_lookup_insert_eq).
  by rewrite list_insert_insert_eq.
Qed.

(** The loop of [exit] that hands the children to init. *)
Lemma adopt_loop me ip s :
  length (ptable s) = NPROC ->
  mfor NPROC 0 (fun i =>
    p <- pfield (Z.to_nat i) id ;;
    when (bool_decide (p_parent p = Some me))
      (upd (Z.to_nat i) (set_parent ip) ;;
       when (bool_decide (p_state p = ZOMBIE)) (wakeup1 (CProc <$> ip)))) s =
  Ok tt (set_ptable (adopted me ip (ptable s)) s).
Proof.
  intros Hlen. set (t := ptable s). set (wk := fun b : bool => if b then wake (CProc <$> ip) else id).
  assert (forall p, wake (CProc <$> ip) (set_parent ip p) = set_parent ip (wake (CProc <$> ip) p)) as Hcom.
  { intros p. unfold wake. simpl. by destruct (_ && _). }
  assert (forall p, wake (CProc <$> ip) (wake (CProc <$> ip) p) = wake (CProc <$> ip) p) as Hidem.
  { intros p. unfold wake at 2 3. destruct (_ && _) eqn:E; [by unfold wake|].
    unfold wake. by rewrite E. }
  destruct (mfor_inv (fun i s' => exists t', s' = set_ptable t' s /\ length t' = NPROC /\
      forall j, t' !! j = wk (has_dead_child (take (Z.to_nat i) t) me) <$>
        ((if decide (Z.of_nat j < i) then adopt me ip else id) <$> t !! j))
    NPROC 0 (fun i =>
      p <- pfield (Z.to_nat i) id ;;
      when (bool_decide (p_parent p = Some me))
        (upd (Z.to_nat i) (set_parent ip) ;;
         when (bool_decide (p_state p = ZOMBIE)) (wakeup1 (CProc <$> ip)))) s)
    as (s' & E & t' & -> & Hl' & Ht').
  - exists t. unfold t. rewrite set_ptable_id. split_and!; try done. intros j. simpl.
    rewrite decide_False by lia. by destruct (ptable s !! j).
  - intros i u Hi (t' & -> & Hl' & Ht').
    destruct (lookup_lt_is_Some_2 t (Z.to_nat i)) as [p Hp]; [unfold t; lia|].
    assert (t' !! Z.to_nat i = Some (wk (has_dead_child (take (Z.to_nat i) t) me) p)) as Hp'.
    { rewrite Ht', Hp. rewrite decide_False by lia. done. }
    set (b := has_dead_child (take (Z.to_nat i) t) me) in *.
    assert (p_parent (wk b p) = p_parent p /\ (p_state (wk b p) = ZOMBIE <-> p_state p = ZOMBIE)) as [Epar Est].
    { unfold wk. destruct b; [|done]. destruct (wake_fields (CProc <$> ip) p) as (-> & _ & _ & _ & _ & Hs).
      split; [done|]. destruct Hs as [-> |[-> ->]]; done. }
    replace (Z.to_nat (i + 1)) with (Datatypes.S (Z.to_nat i)) by lia.
    assert (has_dead_child (take (Datatypes.S (Z.to_nat i)) t) me =
      b || (bool_decide (p_parent p = Some me) && bool_decide (p_state p = ZOMBIE))) as Hb'.
    { unfold has_dead_child. rewrite (take_S_r _ _ p) by done. rewrite existsb_app. simpl.
      by rewrite orb_false_r. }
    rewrite Hb'. unfold bind at 1, pfield at 1, gets.
    rewrite (proc_at_eq (Z.to_nat i) (set_ptable t' s) _ Hp'). unfold id at 1 2. rewrite Epar.
    destruct (bool_decide (p_parent p = Some me)) eqn:Ebp; simpl when.
    + rewrite (bind_ok _ _ _ _ _ (pupd_ok _ _ _)).
      rewrite (bool_decide_ext (p_state (wk b p) = ZOMBIE) (p_state p = ZOMBIE)) by done.
      simpl ptable. rewrite (alter_at _ _ _ _ Hp').
      set (t1 := <[Z.to_nat i := set_parent ip (wk b p)]> t').
      assert (length t1 = NPROC) as Hl1 by (unfold t1; by rewrite length_insert).
      assert (forall j, t1 !! j = wk b <$>
        ((if decide (Z.of_nat j < i + 1) then adopt me ip else id) <$> t !! j)) as Ht1.
      { intros j. unfold t1. destruct (decide (j = Z.to_nat i)) as [->|Hne].
        - rewrite list_lookup_insert_eq by lia. rewrite Hp, decide_True by lia. simpl.
          unfold adopt. rewrite Ebp. f_equal. unfold wk. destruct b; [by rewrite Hcom|done].
        - rewrite list_lookup_insert_ne by done. rewrite Ht'.
          destruct (decide (Z.of_nat j < i)); [by rewrite decide_True by lia|by rewrite decide_False by lia]. }
      destruct (bool_decide (p_state p = ZOMBIE)); simpl when.
      * rewrite wakeup1_ok by done. eexists. split; [done|]. simpl. eexists. split; [done|].
        split; [by rewrite length_fmap|]. intros j. rewrite list_lookup_fmap, Ht1, orb_true_r.
        destruct (t !! j) as [q|]; [|done]. simpl. f_equal. unfold wk. destruct b; [apply Hidem|done].
      * exists (set_ptable t1 s). split; [done|]. exists t1. rewrite orb_false_r. done.
    + exists (set_ptable t' s). split; [done|]. exists t'. rewrite orb_false_r. split_and!; try done.
      intros j. rewrite Ht'. destruct (decide (j = Z.to_nat i)) as [->|Hne].
      * rewrite Hp. rewrite decide_False, decide_True by lia. simpl. unfold adopt. by rewrite Ebp.
      * destruct (decide (Z.of_nat j < i)); [by rewrite decide_True by lia|by rewrite decide_False by lia].
  - rewrite E. do 2 f_equal. apply list_eq. intros j. rewrite Ht'.
    rewrite take_ge by (unfold t; rewrite Hlen; lia). unfold adopted, wk.
    destruct (has_dead_child t me); rewrite ?list_lookup_fmap;
      (destruct (t !! j) as [q|] eqn:Hj; [|done]); apply lookup_lt_Some in Hj; unfold t in Hj;
      rewrite decide_True by lia; done.
Qed.

(** A CPU after a critical section that it entered with interrupts as they are. *)
Definition settle (k : cpu) : cpu := Cpu (c_ncli k) (c_if k) (c_if k) (c_proc k).

Definition free_lock : spinlock := Spinlock false None.

(** CPU [c] is between two critical sections, [ptable.lock] is free. *)
Definition calm (c : nat) (k : cpu) (L : list spinlock) (C : list cpu) : Prop :=
  L !! PTABLE_LOCK = Some free_lock /\ C !! c = Some k /\ c_ncli k = 0.

Lemma calm_acquire c k L T n ip f C Q (w : W) :
  calm c k L C ->
  acquire_lk c PTABLE_LOCK (PState L T n ip f C Q w) =
  Ok tt (PState (<[PTABLE_LOCK := Spinlock true (Some c)]> L) T n ip f
           (<[c := Cpu 1 (c_if k) false (c_proc k)]> C) Q w).
Proof.
  intros (Hl & Hc & Hn). rewrite (acquire_lk_ok c PTABLE_LOCK _ k) by done.
  unfold pushed. rewrite Hn. done.
Qed.

Lemma calm_release c k L T n ip f C Q (w : W) :
  calm c k L C ->
  release_lk c PTABLE_LOCK
    (PState (<[PTABLE_LOCK := Spinlock true (Some c)]> L) T n ip f
       (<[c := Cpu 1 (c_if k) false (c_proc k)]> C) Q w) =
  Ok tt (PState L T n ip f (<[c := settle k]> C) Q w).
Proof.
  intros (Hl & Hc & Hn). pose proof (lookup_lt_Some _ _ _ Hl). pose proof (lookup_lt_Some _ _ _ Hc).
  rewrite (release_lk_ok c PTABLE_LOCK _ (Cpu 1 (c_if k) false (c_proc k))).
  - unfold set_cpus, set_locks, popped, settle. simpl.
    rewrite !list_insert_insert_eq, (list_insert_id L) by done. rewrite Hn. done.
  - simpl. by rewrite list_lookup_insert_eq.
  - simpl. by rewrite list_lookup_insert_eq.
  - split; simpl; [lia|done].
  - simpl. lia.
Qed.

(** The search for a free slot. *)
Lemma find_unused T n ip L f C Q (w : W) :
  length T = NPROC ->
  mfind NPROC 0 (fun i =>
    st <- pfield (Z.to_nat i) p_state ;;
    ret (if decide (st = UNUSED) then Some (Z.to_nat i) else None)) (PState L T n ip f C Q w) =
  Ok (fst <$> list_find (fun p => p_state p = UNUSED) T) (PState L T n ip f C Q w).
Proof.
  intros Hlen. destruct (list_find _ T) as [[i p]|] eqn:Hf; cbn [fmap option_fmap option_map fst].
  - apply list_find_Some in Hf as (Hi & Hs & Hb).
    apply (mfind_some _ _ (Z.of_nat i)).
    + apply lookup_lt_Some in Hi. lia.
    + intros j Hj. unfold bind, pfield, gets, proc_at, ret. simpl.
      destruct (lookup_lt_is_Some_2 T (Z.to_nat j)) as [q Hq].
      { apply lookup_lt_Some in Hi. lia. }
      rewrite Hq. simpl. rewrite decide_False; [done|]. apply (Hb (Z.to_nat j)); [done|lia].
    + unfold bind, pfield, gets, proc_at, ret. simpl. rewrite Nat2Z.id, Hi. simpl.
      rewrite decide_True by done. reflexivity.
    + done.
  - apply list_find_None in Hf. apply mfind_none. intros j Hj.
    unfold bind, pfield, gets, proc_at, ret. simpl.
    destruct (lookup_lt_is_Some_2 T (Z.to_nat j)) as [q Hq]; [lia|].
    rewrite Hq. simpl. rewrite decide_False; [done|].
    by apply (Forall_lookup_1 _ _ _ _ Hf Hq).
Qed.

Ltac det E := erewrite bind_ok in E by reflexivity; cbn beta iota zeta delta [ptable nextpid] in E.
Ltac ker E := let w := fresh "w" in let a := fresh "a" in let s1 := fresh "s" in let E1 := fresh "E1" in
  apply bind_inv in E as (a & s1 & E1 & E); apply kernel_inv in E1 as [w ->]; cbn beta iota zeta in E.

Ltac pcbn E := cbv [set_locks set_ptable set_nextpid set_initproc set_first set_cpus set_sched_pos
                    set_world] in E;
  cbn [ptable nextpid locks initproc first cpus sched_pos world] in E.

Lemma kernel_run {A} (m : M W A) s a s' :
  kernel m s = Ok a s' -> exists w, m (world s) = Ok a w /\ s' = set_world w s.
Proof. unfold kernel, zoom. destruct (m (world s)); naive_solver. Qed.

(** Like [ker], and keeps what the kernel's function did to the world. *)
Ltac kerw E := let w := fresh "w" in let a := fresh "a" in let s1 := fresh "s" in let E1 := fresh "E1" in
  let Ew := fresh "Ew" in
  apply bind_inv in E as (a & s1 & E1 & E); apply kernel_run in E1 as (w & Ew & ->); pcbn E; pcbn Ew;
  cbn beta iota zeta in E.

Definition taken (n : Z) (p : proc) : proc := set_pid n (set_state EMBRYO p).

Lemma allocproc_find_inv c k L T n ip f C Q (w : W) r s' :
  calm c k L C -> length T = NPROC ->
  allocproc_find c (PState L T n ip f C Q w) = Ok r s' ->
  match r with
  | None => s' = PState L T n ip f (<[c := settle k]> C) Q w
  | Some i => exists p, T !! i = Some p /\ p_state p = UNUSED /\
      s' = PState L (<[i := taken n p]> T) (i32 (n + 1)) ip f (<[c := settle k]> C) Q w
  end.
Proof.
  intros Hcalm Hlen E. unfold allocproc_find in E.
  rewrite (bind_ok _ _ _ _ _ (calm_acquire _ _ _ _ _ _ _ _ _ _ Hcalm)) in E.
  rewrite (bind_ok _ _ _ _ _ (find_unused _ _ _ _ _ _ _ _ Hlen)) in E.
  destruct (list_find _ T) as [[i p]|] eqn:Hf; cbn [fmap option_fmap option_map fst] in E.
  - apply list_find_Some in Hf as (Hi & Hs & _). pose proof (lookup_lt_Some _ _ _ Hi) as Hlt.
    cbn iota in E. det E. det E. det E. det E. pcbn E.
    rewrite (bind_ok _ _ _ _ _ (calm_release _ _ _ _ _ _ _ _ _ _ Hcalm)) in E.
    injection E as <- <-. exists p. by rewrite (alter_at _ T i p Hi), !alter_insert_at.
  - cbn iota in E. rewrite (bind_ok _ _ _ _ _ (calm_release _ _ _ _ _ _ _ _ _ _ Hcalm)) in E.
    by injection E as <- <-.
Qed.

Lemma allocproc_stack_inv i q L T n ip f C Q (w : W) r s' :
  T !! i = Some q -> allocproc_stack i (PState L T n ip f C Q w) = Ok r s' ->
  exists ks w', k_kalloc w = Ok ks w' /\
    match r with
    | None => s' = PState L (<[i := set_state UNUSED (set_kstack 0 q)]> T) n ip f C Q w'
    | Some j => j = i /\ ks <> 0 /\
        s' = PState L (<[i := set_context CtxForkret (set_tf None (set_kstack ks q))]> T) n ip f C Q w'
    end.
Proof.
  intros Hi E. pose proof (lookup_lt_Some _ _ _ Hi) as Hlt. unfold allocproc_stack in E.
  kerw E. exists a, w0. split; [done|]. det E. pcbn E. rewrite (alter_at _ T i q Hi) in E.
  destruct (Z.eqb_spec a 0) as [->|Hne].
  - det E. pcbn E. injection E as <- <-. by rewrite alter_insert_at.
  - det E. det E. pcbn E. injection E as <- <-. by rewrite !alter_insert_at.
Qed.

Lemma allocproc_inv c k L T n ip f C Q (w : W) r s' :
  calm c k L C -> length T = NPROC ->
  allocproc c (PState L T n ip f C Q w) = Ok r s' ->
  match r with
  | None => exists T' n' w', s' = PState L T' n' ip f (<[c := settle k]> C) Q w' /\
      ((T' = T /\ n' = n) \/
       exists i p, T !! i = Some p /\ p_state p = UNUSED /\ n' = i32 (n + 1) /\
         T' = <[i := set_state UNUSED (set_kstack 0 (taken n p))]> T)
  | Some i => exists p ks w', T !! i = Some p /\ p_state p = UNUSED /\ ks <> 0 /\ k_kalloc w = Ok ks w' /\
      s' = PState L (<[i := set_context CtxForkret (set_tf None (set_kstack ks (taken n p)))]> T)
             (i32 (n + 1)) ip f (<[c := settle k]> C) Q w'
  end.
Proof.
  intros Hcalm Hlen E. unfold allocproc in E. apply bind_inv in E as (r0 & s0 & E0 & E).
  apply (allocproc_find_inv c k) in E0; [|done..]. destruct r0 as [i|].
  - destruct E0 as (p & Hi & Hs & ->). pose proof (lookup_lt_Some _ _ _ Hi) as Hlt.
    apply (allocproc_stack_inv i (taken n p)) in E; [|by apply list_lookup_insert_eq].
    destruct E as (ks & w' & Ek & E). destruct r as [j|].
    + destruct E as (-> & Hks & ->). exists p, ks, w'. by rewrite list_insert_insert_eq.
    + subst s'. eexists _, _, _. split; [reflexivity|]. right. exists i, p. by rewrite list_insert_insert_eq.
  - injection E as <- <-. subst s0. eexists _, _, _. split; [reflexivity|]. by left.
Qed.

Lemma calm_settle c k L C : calm c k L C -> calm c (settle k) L (<[c := settle k]> C).
Proof.
  intros (Hl & Hc & Hn). split_and!; try done.
  apply list_lookup_insert_eq. by eapply lookup_lt_Some.
Qed.

Lemma myproc_at c k me L T n ip f C Q (w : W) :
  C !! c = Some k -> c_proc k = Some me -> myproc c (PState L T n ip f C Q w) = Ok me (PState L T n ip f C Q w).
Proof. intros Hc Hp. unfold myproc, cpu_proc. simpl. rewrite Hc. simpl. by rewrite Hp. Qed.

(** ** The copies that [fork] makes *)

(** The slot after [fork_vm], with [pg] the copy of the memory of [pm]. *)
Definition copied (me : nat) (pm : proc) (pg : Z) (q : proc) : proc :=
  set_tf (set_eax 0 <$> p_tf pm) (set_parent (Some me) (set_sz (p_sz pm) (set_pgdir pg q))).

Lemma fork_vm_inv me np pm q L T n ip f C Q (w : W) r s' :
  T !! me = Some pm -> T !! np = Some q -> fork_vm me np (PState L T n ip f C Q w) = Ok r s' ->
  exists pg w', k_copyuvm (p_pgdir pm) (p_sz pm) w = Ok pg w' /\
    if r then pg <> 0 /\ s' = PState L (<[np := copied me pm pg q]> T) n ip f C Q w'
    else exists w2, s' = PState L (<[np := set_state UNUSED (set_kstack 0 (set_pgdir 0 q))]> T) n ip f C Q w2.
Proof.
  intros Hme Hnp E. pose proof (lookup_lt_Some _ _ _ Hnp) as Hlt. unfold fork_vm in E. det E.
  rewrite (proc_at_tab me pm) in E by done. unfold id in E. kerw E. exists a, w0. split; [done|].
  det E. pcbn E. rewrite (alter_at _ T np q Hnp) in E. destruct (Z.eqb_spec a 0) as [->|Hne].
  - det E. rewrite (proc_at_tab np (set_pgdir 0 q)) in E by (by apply list_lookup_insert_eq).
    ker E. pcbn E. det E. det E. pcbn E. injection E as <- <-. rewrite !alter_insert_at by done. eauto.
  - det E. det E. det E. pcbn E. injection E as <- <-. rewrite !alter_insert_at by done. eauto.
Qed.

(** Copying one entry of the table of open files, and the whole table. *)
Definition dup_fd (x : option nat) : M W (option nat) :=
  match x with Some f => f' <- k_filedup f ;; ret (Some f') | None => ret None end.

Fixpoint dup_files (l : list (option nat)) : M W (list (option nat)) :=
  match l with
  | [] => ret []
  | x :: l' => b <- dup_fd x ;; r <- dup_files l' ;; ret (b :: r)
  end.

Lemma dup_files_snoc l x (w : W) fl w1 b w2 :
  dup_files l w = Ok fl w1 -> dup_fd x w1 = Ok b w2 -> dup_files (l ++ [x]) w = Ok (fl ++ [b]) w2.
Proof.
  revert w fl. induction l as [|y l IH]; intros w fl; cbn [dup_files app].
  - intros [= <- <-] E. by rewrite (bind_ok _ _ _ _ _ E).
  - intros (c & w3 & E1 & (r & w4 & E2 & [= <- <-])%bind_inv)%bind_inv E.
    rewrite (bind_ok _ _ _ _ _ E1), (bind_ok _ _ _ _ _ (IH _ _ E2 E)). done.
Qed.

Lemma dup_files_length l (w : W) fl w1 : dup_files l w = Ok fl w1 -> length fl = length l.
Proof.
  revert w fl. induction l as [|y l IH]; intros w fl; cbn [dup_files]; [by intros [= <- <-]|].
  intros (c & w3 & E1 & (r & w4 & E2 & [= <- <-])%bind_inv)%bind_inv. cbn. f_equal. eauto.
Qed.

Lemma fork_fd_inv me np pm q i x L T n ip f C Q (w : W) s' :
  T !! me = Some pm -> T !! np = Some q -> p_ofile pm !! i = Some x -> p_ofile q !! i = Some None ->
  fork_fd me np (Z.of_nat i) (PState L T n ip f C Q w) = Ok tt s' ->
  exists b w', dup_fd x w = Ok b w' /\ s' = PState L (<[np := set_ofile i b q]> T) n ip f C Q w'.
Proof.
  intros Hme Hnp Hx Hq E. pose proof (lookup_lt_Some _ _ _ Hnp) as Hlt. unfold fork_fd in E. det E.
  rewrite (proc_at_tab me pm), Nat2Z.id, Hx in E by done. destruct x as [f0|].
  - kerw E. rewrite pupd_ok in E. pcbn E. injection E as <-. exists (Some a), w0.
    split; [cbn; by rewrite (bind_ok _ _ _ _ _ Ew)|]. by rewrite (alter_at _ T np q Hnp).
  - injection E as <-. exists None, w. split; [done|].
    assert (set_ofile i None q = q) as ->; [|by rewrite list_insert_id].
    unfold set_ofile. rewrite list_insert_id by done. by destruct q.
Qed.

Definition set_files (l : list (option nat)) (q : proc) : proc :=
  Proc (p_sz q) (p_pgdir q) (p_kstack q) (p_state q) (p_pid q) (p_parent q) (p_tf q) (p_context q)
    (p_chan q) (p_killed q) l (p_cwd q) (p_name q) (p_exitstat q).

Lemma filedup_loop me np pm q L T n ip f C Q (w : W) s' :
  T !! me = Some pm -> T !! np = Some q -> me <> np ->
  p_ofile q = replicate NOFILE None -> length (p_ofile pm) = NOFILE ->
  mfor NOFILE 0 (fork_fd me np) (PState L T n ip f C Q w) = Ok tt s' ->
  exists fl w', dup_files (p_ofile pm) w = Ok fl w' /\
    s' = PState L (<[np := set_files fl q]> T) n ip f C Q w'.
Proof.
  intros Hme Hnp Hne Hq Hlm Hloop. pose proof (lookup_lt_Some _ _ _ Hnp) as Hlt.
  eapply (mfor_ind (fun i s => exists fl w', dup_files (take (Z.to_nat i) (p_ofile pm)) w = Ok fl w' /\
    s = PState L (<[np := set_files (fl ++ replicate (NOFILE - Z.to_nat i) None) q]> T) n ip f C Q w')) in Hloop.
  - destruct Hloop as (fl & w' & Ed & ->). exists fl, w'. rewrite take_ge in Ed by lia.
    replace (NOFILE - _)%nat with 0%nat by lia. by rewrite app_nil_r.
  - exists [], w. split; [done|]. rewrite Nat.sub_0_r, <- Hq. cbn [app].
    replace (set_files (p_ofile q) q) with q by (by destruct q). by rewrite list_insert_id.
  - intros j t t' Hj (fl & w' & Ed & ->) Hb.
    destruct (lookup_lt_is_Some_2 (p_ofile pm) (Z.to_nat j)) as [x Hx]; [lia|].
    pose proof (dup_files_length _ _ _ _ Ed) as Hfl. rewrite length_take in Hfl.
    replace j with (Z.of_nat (Z.to_nat j)) in Hb at 1 by lia.
    eapply (fork_fd_inv me np pm) in Hb as (b & w2 & Eb & ->);
      [|by rewrite list_lookup_insert_ne|by apply list_lookup_insert_eq|done|].
    + exists (fl ++ [b]), w2. rewrite list_insert_insert_eq. replace (Z.to_nat (j + 1)) with (Datatypes.S (Z.to_nat j)) by lia.
      rewrite (take_S_r _ _ x) by done. split; [by eapply dup_files_snoc|].
      assert (replicate (NOFILE - Z.to_nat j) (None : option nat) =
        None :: replicate (NOFILE - Datatypes.S (Z.to_nat j)) None) as Er.
      { by replace (NOFILE - Z.to_nat j)%nat with (Datatypes.S (NOFILE - Datatypes.S (Z.to_nat j))) by lia. }
      rewrite Er. do 2 f_equal. unfold set_ofile, set_files.
      cbn [p_sz p_pgdir p_kstack p_state p_pid p_parent p_tf p_context p_chan p_killed p_ofile p_cwd p_name p_exitstat].
      rewrite insert_app_r_alt by lia. replace (Z.to_nat j - length fl)%nat with 0%nat by lia.
      by rewrite <- app_assoc.
    + cbn [p_ofile set_files]. rewrite lookup_app_r by lia. apply lookup_replicate_2. lia.
Qed.

Lemma fork_cwd_inv me np pm q L T n ip f C Q (w : W) s' :
  T !! me = Some pm -> T !! np = Some q -> fork_cwd me np (PState L T n ip f C Q w) = Ok tt s' ->
  exists d d' w', p_cwd pm = Some d /\ k_idup d w = Ok d' w' /\
    s' = PState L (<[np := set_name (safestrcpy16 (p_name pm)) (set_cwd (Some d') q)]> T) n ip f C Q w'.
Proof.
  intros Hme Hnp E. pose proof (lookup_lt_Some _ _ _ Hnp) as Hlt. unfold fork_cwd in E. det E.
  rewrite (proc_at_tab me pm) in E by done. unfold id in E.
  destruct (p_cwd pm) as [d|]; [|discriminate E]. rewrite bind_assoc in E. kerw E. det E. pcbn E.
  rewrite pupd_ok in E. pcbn E. injection E as <-. rewrite (alter_at _ T np q Hnp), alter_insert_at by done.
  eauto 8.
Qed.

Lemma fork_run_inv c k np q L T n ip f C Q (w : W) r s' :
  calm c k L C -> T !! np = Some q -> fork_run c np (PState L T n ip f C Q w) = Ok r s' ->
  r = p_pid q /\ s' = PState L (<[np := set_state RUNNABLE q]> T) n ip f (<[c := settle k]> C) Q w.
Proof.
  intros Hcalm Hnp E. unfold fork_run in E. det E. rewrite (proc_at_tab np q) in E by done.
  rewrite (bind_ok _ _ _ _ _ (calm_acquire _ _ _ _ _ _ _ _ _ _ Hcalm)) in E. det E. pcbn E.
  rewrite (bind_ok _ _ _ _ _ (calm_release _ _ _ _ _ _ _ _ _ _ Hcalm)) in E.
  injection E as <- <-. by rewrite (alter_at _ T np q Hnp).
Qed.

(** What a [fork] asks of the rest of the kernel: a stack, a copy of the memory, a
    reference to each open file and one to the directory. *)
Definition fork_world (pm : proc) (d : nat) : M W (Z * Z * list (option nat) * nat) :=
  ks <- k_kalloc ;;
  pg <- k_copyuvm (p_pgdir pm) (p_sz pm) ;;
  fl <- dup_files (p_ofile pm) ;;
  d' <- k_idup d ;;
  ret (ks, pg, fl, d').

(** [p'] is the child that [fork] makes of slot [p] for the process [pm] in slot
    [me], from world [w] to world [w']. *)
Definition forked (me : nat) (pm p p' : proc) (w w' : W) : Prop :=
  p_state p' = RUNNABLE /\ p_parent p' = Some me /\ p_tf p' = set_eax 0 <$> p_tf pm /\
  p_sz p' = p_sz pm /\ p_context p' = CtxForkret /\ p_killed p' = p_killed p /\
  p_name p' = safestrcpy16 (p_name pm) /\ p_pgdir p' <> 0 /\
  exists d d', p_cwd pm = Some d /\ p_cwd p' = Some d' /\
    fork_world pm d w = Ok (p_kstack p', p_pgdir p', p_ofile p', d') w'.

Lemma fork_inv c k me pm L T n ip f C Q (w : W) r s' :
  calm c k L C -> c_proc k = Some me -> T !! me = Some pm -> p_state pm <> UNUSED ->
  length T = NPROC -> length (p_ofile pm) = NOFILE ->
  (forall i p, T !! i = Some p -> p_state p = UNUSED -> p_ofile p = replicate NOFILE None) ->
  fork c (PState L T n ip f C Q w) = Ok r s' ->
  exists T' n' w', s' = PState L T' n' ip f (<[c := settle k]> C) Q w' /\
  ((r = -1 /\ T' = T /\ n' = n) \/
   exists i p p', T !! i = Some p /\ p_state p = UNUSED /\ n' = i32 (n + 1) /\ T' = <[i := p']> T /\
     ((r = -1 /\ p_state p' = UNUSED) \/
      (r = n /\ p_pid p' = n /\ forked me pm p p' w w'))).
Proof.
  intros Hcalm Hcp Hme Hnu Hlen Hof Hofs E. unfold fork in E.
  apply bind_inv in E as (r0 & s0 & E0 & E).
  pose proof (allocproc_inv _ _ _ _ _ _ _ _ _ _ _ _ Hcalm Hlen E0) as Ha.
  destruct r0 as [np|].
  2:{ injection E as <- <-. destruct Ha as (T' & n' & w' & -> & Hor).
      eexists _, _, _. split; [reflexivity|]. destruct Hor as [[-> ->]|(i & p & Hi & Hs & -> & ->)]; [by left|].
      right. eexists i, p, _. split_and!; [done|done|done|reflexivity|]. by left. }
  destruct Ha as (p & ks & w' & Hnp & Hs & Hks & Ek & ->).
  assert (me <> np) as Hne by congruence.
  pose proof (lookup_lt_Some _ _ _ Hnp) as Hlt.
  pose proof (calm_settle _ _ _ _ Hcalm) as Hcalm'. pose proof Hcalm' as (_ & Hc' & _).
  rewrite (bind_ok _ _ _ _ _ (myproc_at _ _ me _ _ _ _ _ _ _ _ Hc' Hcp)) in E.
  set (q := set_context CtxForkret _) in E.
  assert (forall x, <[np := x]> T !! np = Some x) as Hx by (intros x; by apply list_lookup_insert_eq).
  assert (forall x, <[np := x]> T !! me = Some pm) as Hm by (intros x; by rewrite list_lookup_insert_ne).
  apply bind_inv in E as (ok & s1 & E1 & E). eapply (fork_vm_inv me np pm) in E1; [|apply Hm|apply Hx].
  destruct E1 as (pg & w1 & Ec & E1). destruct ok; cbn [negb] in E.
  2:{ destruct E1 as [w2 ->]. injection E as <- <-. rewrite list_insert_insert_eq.
      eexists _, _, _. split; [reflexivity|]. right. eexists np, p, _.
      split_and!; [done|done|done|reflexivity|]. by left. }
  destruct E1 as (Hpg & ->). rewrite list_insert_insert_eq in E.
  apply bind_inv in E as ([] & s2 & E2 & E).
  eapply (filedup_loop me np pm) in E2; [|apply Hm|apply Hx|done|exact (Hofs _ _ Hnp Hs)|done].
  destruct E2 as (fl & w2 & Ed & ->). rewrite list_insert_insert_eq in E.
  apply bind_inv in E as ([] & s3 & E3 & E).
  eapply (fork_cwd_inv me np pm) in E3; [|apply Hm|apply Hx].
  destruct E3 as (d & d' & w3 & Ecwd & Ei & ->). rewrite list_insert_insert_eq in E.
  eapply (fork_run_inv c (settle k)) in E; [|done|apply Hx]. destruct E as (-> & ->).
  rewrite !list_insert_insert_eq. change (settle (settle k)) with (settle k).
  eexists _, _, _. split; [reflexivity|]. right. eexists np, p, _.
  split_and!; [done|done|done|reflexivity|]. right. split; [done|]. split; [done|].
  split_and!; try done. exists d, d'. split_and!; try done. unfold fork_world.
  rewrite (bind_ok _ _ _ _ _ Ek), (bind_ok _ _ _ _ _ Ec), (bind_ok _ _ _ _ _ Ed), (bind_ok _ _ _ _ _ Ei). done.
Qed.

(** [sched], called with [ptable.lock] held by the CPU. *)
Lemma sched_ok c k me p ctx L T n ip f C Q (w : W) :
  calm c k L C -> c_proc k = Some me -> T !! me = Some p -> p_state p <> RUNNING ->
  sched c ctx
    (PState (<[PTABLE_LOCK := Spinlock true (Some c)]> L) T n ip f
       (<[c := Cpu 1 (c_if k) false (c_proc k)]> C) Q w) =
  Ok tt (PState (<[PTABLE_LOCK := Spinlock true (Some c)]> L)
           (<[me := set_context (ctx (c_if k)) p]> T) n ip f
           (<[c := Cpu 1 (c_if k) false None]> C) (<[c := Some (me + 1)%nat]> Q) w).
Proof.
  intros (Hl & Hc & Hn) Hp Hme Hs.
  pose proof (lookup_lt_Some _ _ _ Hl) as Hl0. pose proof (lookup_lt_Some _ _ _ Hc) as Hc0.
  unfold sched.
  rewrite (bind_ok _ _ _ _ _ (myproc_at c (Cpu 1 (c_if k) false (c_proc k)) me _ _ _ _ _ _ _ _
    (list_lookup_insert_eq _ _ _ Hc0) Hp)).
  erewrite bind_ok by reflexivity. cbn [locks]. rewrite list_lookup_insert_eq by done.
  unfold holding. cbn [default id locked lk_cpu]. rewrite bool_decide_eq_true_2 by done. cbn [andb negb].
  erewrite bind_ok by reflexivity. cbn [cpus]. rewrite list_lookup_insert_eq by done.
  cbn [default id c_ncli c_if c_intena Z.eqb Pos.eqb negb]. erewrite bind_ok by reflexivity.
  rewrite (proc_at_eq me (PState _ _ _ _ _ _ _ _) p Hme). rewrite decide_False by done.
  erewrite bind_ok by apply pupd_ok. cbn [ptable]. rewrite (alter_at _ _ _ p Hme).
  erewrite bind_ok by reflexivity. cbv [set_ptable set_cpus set_sched_pos modify].
  cbn [ptable nextpid locks initproc first cpus sched_pos world]. by rewrite alter_insert_at.
Qed.

(** The stretches of [exit]. *)
Lemma exit_fd_inv me p i L T n ip f C Q (w : W) s' :
  T !! me = Some p -> exit_fd me (Z.of_nat i) (PState L T n ip f C Q w) = Ok tt s' ->
  exists w', s' = PState L (<[me := set_ofile i None p]> T) n ip f C Q w'.
Proof.
  intros Hme E. unfold exit_fd in E. det E. rewrite (proc_at_tab me p), Nat2Z.id in E by done.
  assert (p_ofile p !! i = Some None \/ p_ofile p !! i = None -> set_ofile i None p = p) as Hsame.
  { intros Hn. unfold set_ofile. assert (<[i := None]> (p_ofile p) = p_ofile p) as ->; [|by destruct p].
    destruct Hn as [Hn|Hn]; [by apply list_insert_id|]. apply list_insert_ge. by apply lookup_ge_None. }
  destruct (p_ofile p !! i) as [[f0|]|].
  - ker E. rewrite pupd_ok in E. pcbn E. injection E as <-. rewrite (alter_at _ T me p Hme). eauto.
  - injection E as <-. rewrite Hsame, list_insert_id by auto. eauto.
  - injection E as <-. rewrite Hsame, list_insert_id by auto. eauto.
Qed.

Lemma exit_cwd_inv me p L T n ip f C Q (w : W) s' :
  T !! me = Some p -> exit_cwd me (PState L T n ip f C Q w) = Ok tt s' ->
  exists w', s' = PState L (<[me := set_cwd None p]> T) n ip f C Q w'.
Proof.
  intros Hme E. unfold exit_cwd in E. ker E. det E. pcbn E. rewrite (proc_at_tab me p) in E by done.
  destruct (p_cwd p) as [d|]; [|discriminate E]. ker E. ker E. rewrite pupd_ok in E. pcbn E.
  injection E as <-. rewrite (alter_at _ T me p Hme). eauto.
Qed.

Lemma exit_die_inv c k me p v L T n ip f C Q (w : W) s' :
  calm c k L C -> c_proc k = Some me -> T !! me = Some p -> length T = NPROC ->
  exit_die c me v (PState L T n ip f C Q w) = Ok tt s' ->
  exists y, adopted me ip (wake (CProc <$> p_parent p) <$> T) !! me = Some y /\
    s' = PState (<[PTABLE_LOCK := Spinlock true (Some c)]> L)
           (<[me := set_context CtxExit (set_state ZOMBIE (set_exitstat v y))]>
              (adopted me ip (wake (CProc <$> p_parent p) <$> T))) n ip f
           (<[c := Cpu 1 (c_if k) false None]> C) (<[c := Some (me + 1)%nat]> Q) w.
Proof.
  intros Hcalm Hcp Hme Hlen E. pose proof Hcalm as (_ & Hc & _).
  pose proof (lookup_lt_Some _ _ _ Hme) as Hlt. unfold exit_die in E.
  rewrite (bind_ok _ _ _ _ _ (calm_acquire _ _ _ _ _ _ _ _ _ _ Hcalm)) in E. det E.
  rewrite (proc_at_tab me p) in E by done.
  erewrite bind_ok in E by (by apply wakeup1_ok). pcbn E. det E.
  erewrite bind_ok in E by (apply adopt_loop; cbn [ptable]; by rewrite length_fmap).
  det E. det E. pcbn E.
  set (t3 := adopted me ip (wake (CProc <$> p_parent p) <$> T)) in *.
  assert (length t3 = length T) as Hl3.
  { unfold t3, adopted. destruct (has_dead_child _ _); by rewrite !length_fmap. }
  destruct (lookup_lt_is_Some_2 t3 me) as [y Hy]; [by rewrite Hl3|].
  rewrite (alter_at _ _ _ y Hy), alter_insert_at in E by (by rewrite Hl3).
  rewrite (sched_ok c k me (set_state ZOMBIE (set_exitstat v y))) in E;
    [|done|done|by apply list_lookup_insert_eq; rewrite Hl3|done].
  injection E as <-. rewrite list_insert_insert_eq. eauto.
Qed.

(** The slot of a dead child after [wait] has given it back. *)
Definition reaped (p : proc) : proc :=
  set_state UNUSED (set_killed false (set_name "" (set_parent None (set_pid 0 (set_kstack 0 p))))).

(** Freeing memory and loading a page table do not put the caller to sleep. *)
Class NoSleep : Prop := {
  kfree_awake : forall a w c w', k_kfree a w <> Sleep c w';
  freevm_awake : forall a w c w', k_freevm a w <> Sleep c w';
  switchuvm_awake : forall a w c w', k_switchuvm a w <> Sleep c w'
}.

Lemma kernel_awake {A} (m : M W A) s :
  (forall w c w', m w <> Sleep c w') -> forall c s', kernel m s <> Sleep c s'.
Proof.
  intros Hm c s'. unfold kernel, zoom. specialize (Hm (world s)).
  destruct (m (world s)) as [a w|e|c0 w0|]; [done|done| |done]. by destruct (Hm c0 w0).
Qed.

(** What [wait] gives back to the rest of the kernel for a dead child. *)
Definition reap_world (p : proc) : M W unit := k_kfree (p_kstack p) ;; k_freevm (p_pgdir p).

Lemma reap_eq i p L T n ip f C Q (w w' : W) :
  T !! i = Some p -> reap_world p w = Ok tt w' ->
  reap i (PState L T n ip f C Q w) = Ok (p_pid p) (PState L (<[i := reaped p]> T) n ip f C Q w').
Proof.
  intros Hi (a & w1 & E1 & E2)%bind_inv. pose proof (lookup_lt_Some _ _ _ Hi) as Hlt.
  unfold reap, bind, pfield, gets, upd, modify, ret, kernel, zoom. rewrite !(proc_at_tab i p) by done.
  unfold id. cbn [world]. rewrite E1. cbv [set_world set_ptable].
  cbn [ptable nextpid locks initproc first cpus sched_pos world]. rewrite E2.
  cbn [ptable nextpid locks initproc first cpus sched_pos world].
  by rewrite (alter_at _ T i p Hi), !alter_insert_at.
Qed.

Lemma reap_inv i p L T n ip f C Q (w : W) pid s' :
  T !! i = Some p -> reap i (PState L T n ip f C Q w) = Ok pid s' ->
  pid = p_pid p /\ exists w', reap_world p w = Ok tt w' /\ s' = PState L (<[i := reaped p]> T) n ip f C Q w'.
Proof.
  intros Hi E. pose proof (lookup_lt_Some _ _ _ Hi) as Hlt. pose proof E as E0. unfold reap in E. det E.
  rewrite !(proc_at_tab i p) in E by done. unfold id in E.
  kerw E. det E. kerw E. clear E. destruct a, a0.
  assert (reap_world p w = Ok tt w1) as Er by (unfold reap_world; by rewrite (bind_ok _ _ _ _ _ Ew)).
  rewrite (reap_eq i p _ _ _ _ _ _ _ _ _ Hi Er) in E0. injection E0 as <- <-. eauto.
Qed.

Lemma reap_awake `{!NoSleep} i s ch s' : reap i s <> Sleep ch s'.
Proof.
  unfold reap, bind, pfield, gets, upd, modify, ret, id.
  pose proof (kernel_awake (k_kfree (p_kstack (proc_at i s))) s (fun w => kfree_awake _ w)) as H1.
  destruct (kernel (k_kfree (p_kstack (proc_at i s))) s) as [a s1|e|c0 s0|] eqn:E1;
    [|done|by destruct (H1 c0 s0)|done].
  set (s2 := set_ptable _ s1).
  pose proof (kernel_awake (k_freevm (p_pgdir (proc_at i s))) s2 (fun w => freevm_awake _ w)) as H2.
  destruct (kernel (k_freevm (p_pgdir (proc_at i s))) s2) as [b s3|e|c3 s3|] eqn:E2;
    [done|done|by destruct (H2 c3 s3)|done].
Qed.

(** A child of [me] that has exited. *)
Definition dead_child (me : nat) (p : proc) : Prop := p_parent p = Some me /\ p_state p = ZOMBIE.

#[export] Instance dead_child_dec me p : Decision (dead_child me p).
Proof. unfold dead_child. apply _. Defined.

(** What [wait] makes of its argument. *)
Definition moved (st : intptr) (i : nat) : intptr := match st with Null => Null | _ => Exitstat i end.

Section wait.
Context (c : nat) (k : cpu) (me : nat) (pm : proc) (L : list spinlock) (T : list proc) (n : Z)
        (ip : option nat) (f : bool) (C : list cpu) (Q : list (option nat)) (w : W).
Context (Hcalm : calm c k L C) (Hcp : c_proc k = Some me) (Hme : T !! me = Some pm)
        (Hlen : length T = NPROC).

(** The state of [wait] at the top of its loop. *)
Definition at_loop : pstate W :=
  PState (<[PTABLE_LOCK := Spinlock true (Some c)]> L) T n ip f
    (<[c := Cpu 1 (c_if k) false (c_proc k)]> C) Q w.

Lemma myproc_loop : myproc c at_loop = Ok me at_loop.
Proof.
  destruct Hcalm as (_ & Hc & _). apply lookup_lt_Some in Hc.
  apply (myproc_at c (Cpu 1 (c_if k) false (c_proc k))); [by apply list_lookup_insert_eq|done].
Qed.

Definition scan_body (status : intptr) (v : Z) (i : Z) : M (pstate W) (option (Z * (intptr * Z))) :=
  let p := Z.to_nat i in
  ch <- pfield p id ;;
  if bool_decide (p_parent ch = Some me) && bool_decide (p_state ch = ZOMBIE) then
    pid <- reap p ;;
    let status := match status with Null => Null | _ => Exitstat p end in
    release_lk c PTABLE_LOCK ;;
    ret (Some (pid, (status, v)))
  else ret None.

Lemma scan_body_skip status v i p :
  0 <= i -> T !! Z.to_nat i = Some p -> ~ dead_child me p ->
  scan_body status v i at_loop = Ok None at_loop.
Proof.
  intros Hi Hp Hd. unfold scan_body. erewrite bind_ok by reflexivity. cbn beta.
  rewrite (proc_at_eq _ at_loop p Hp). unfold id.
  destruct (bool_decide (p_parent p = Some me)) eqn:E1; [|done].
  destruct (bool_decide (p_state p = ZOMBIE)) eqn:E2; [|done].
  apply bool_decide_eq_true in E1, E2. by destruct Hd.
Qed.

Lemma scan_dead status v i p :
  list_find (dead_child me) T = Some (i, p) ->
  mfind NPROC 0 (scan_body status v) at_loop =
  (pid <- reap i ;; release_lk c PTABLE_LOCK ;; ret (Some (pid, (moved status i, v)))) at_loop.
Proof.
  intros (Hi & [Hp Hs] & Hb)%list_find_Some. pose proof (lookup_lt_Some _ _ _ Hi) as Hlt.
  eapply (mfind_some _ _ (Z.of_nat i)).
  - lia.
  - intros j Hj. destruct (lookup_lt_is_Some_2 T (Z.to_nat j)) as [q Hq]; [lia|].
    eapply scan_body_skip; [lia|done|]. apply (Hb (Z.to_nat j)); [done|lia].
  - unfold scan_body. erewrite bind_ok by reflexivity. cbn beta. rewrite Nat2Z.id.
    rewrite (proc_at_eq _ at_loop p Hi). unfold id.
    rewrite !bool_decide_eq_true_2 by done. reflexivity.
  - intros s' E. apply bind_inv in E as (pid & s1 & _ & E). by apply bind_inv in E as (? & s2 & _ & E).
Qed.

Lemma scan_none status v :
  list_find (dead_child me) T = None -> mfind NPROC 0 (scan_body status v) at_loop = Ok None at_loop.
Proof.
  intros Hf. apply list_find_None in Hf. apply mfind_none. intros j Hj.
  destruct (lookup_lt_is_Some_2 T (Z.to_nat j)) as [q Hq]; [lia|].
  eapply scan_body_skip; [lia|done|]. by apply (Forall_lookup_1 _ _ _ _ Hf Hq).
Qed.

(** The tail of [wait_loop] when there is no dead child. *)
Definition no_dead_tail (status : intptr) (v : Z) : M (pstate W) (Z * (intptr * Z)) :=
  havekids <- gets (fun s => existsb (fun p => bool_decide (p_parent p = Some me)) (ptable s)) ;;
  killed <- pfield me p_killed ;;
  if negb havekids || killed then
    release_lk c PTABLE_LOCK ;;
    ret (-1, (status, v))
  else sleep c (CProc me) (Some PTABLE_LOCK).

Definition have_kids : bool := existsb (fun p => bool_decide (p_parent p = Some me)) T.

Lemma no_dead_tail_eq status v :
  no_dead_tail status v at_loop =
  if negb have_kids || p_killed pm
  then Ok (-1, (status, v)) (PState L T n ip f (<[c := settle k]> C) Q w)
  else Sleep (CProc me)
    (PState (<[PTABLE_LOCK := Spinlock true (Some c)]> L)
       (<[me := set_context (CtxSleep PTABLE_LOCK (c_if k)) (set_state SLEEPING (set_chan (Some (CProc me)) pm))]> T)
       n ip f (<[c := Cpu 1 (c_if k) false None]> C) (<[c := Some (me + 1)%nat]> Q) w).
Proof.
  unfold no_dead_tail. erewrite bind_ok by reflexivity. erewrite bind_ok by reflexivity.
  rewrite (proc_at_eq _ at_loop pm Hme). cbn [ptable at_loop]. fold have_kids.
  destruct (negb have_kids || p_killed pm).
  - erewrite bind_ok by (apply calm_release; exact Hcalm). done.
  - unfold sleep. destruct Hcalm as (Hl & Hc & Hn).
    pose proof (lookup_lt_Some _ _ _ Hc) as Hlc. pose proof (lookup_lt_Some _ _ _ Hme) as Hlm.
    erewrite bind_ok by reflexivity. unfold cpu_proc. cbn [cpus at_loop].
    rewrite list_lookup_insert_eq by done. cbn [mbind option_bind c_proc]. rewrite Hcp.
    erewrite bind_ok by reflexivity. erewrite bind_ok by apply pupd_ok. erewrite bind_ok by apply pupd_ok.
    cbv [set_ptable at_loop]. cbn [ptable nextpid locks initproc first cpus sched_pos world].
    rewrite (alter_at _ T me pm Hme), alter_insert_at by done.
    pose proof (sched_ok c k me (set_state SLEEPING (set_chan (Some (CProc me)) pm))
      (CtxSleep PTABLE_LOCK) L (<[me := set_state SLEEPING (set_chan (Some (CProc me)) pm)]> T)
      n ip f C Q w Hcalm Hcp (list_lookup_insert_eq _ _ _ Hlm)) as E.
    erewrite bind_ok by (apply E; done). by rewrite list_insert_insert_eq.
Qed.

Lemma wait_loop_eq status v :
  wait_loop c status v at_loop =
  match list_find (dead_child me) T with
  | Some (i, p) =>
      (pid <- reap i ;; release_lk c PTABLE_LOCK ;; ret (pid, (moved status i, v))) at_loop
  | None => no_dead_tail status v at_loop
  end.
Proof.
  unfold wait_loop. rewrite (bind_ok _ _ _ _ _ myproc_loop). fold (scan_body status v).
  destruct (list_find (dead_child me) T) as [[i p]|] eqn:Hf.
  - unfold bind at 1. rewrite (scan_dead status v i p Hf). unfold bind.
    destruct (reap i at_loop) as [pid s1| | |]; [|done|done|done].
    by destruct (release_lk c PTABLE_LOCK s1).
  - rewrite (bind_ok _ _ _ _ _ (scan_none status v Hf)). done.
Qed.

(** The outcomes of [wait_loop]. *)
Lemma wait_loop_ok status v r s' :
  wait_loop c status v at_loop = Ok r s' ->
  (exists i p w', list_find (dead_child me) T = Some (i, p) /\ r = (p_pid p, (moved status i, v)) /\
     reap_world p w = Ok tt w' /\
     s' = PState L (<[i := reaped p]> T) n ip f (<[c := settle k]> C) Q w') \/
  (list_find (dead_child me) T = None /\ negb have_kids || p_killed pm = true /\ r = (-1, (status, v)) /\
     s' = PState L T n ip f (<[c := settle k]> C) Q w).
Proof.
  rewrite wait_loop_eq. destruct (list_find (dead_child me) T) as [[i p]|] eqn:Hf.
  - intros (pid & s1 & E1 & E)%bind_inv. left.
    pose proof Hf as (Hi & _ & _)%list_find_Some.
    apply (reap_inv i p) in E1 as (-> & w' & Er & ->); [|done].
    rewrite (bind_ok _ _ _ _ _ (calm_release _ _ _ _ _ _ _ _ _ _ Hcalm)) in E.
    injection E as <- <-. eauto 10.
  - rewrite no_dead_tail_eq. destruct (negb have_kids || p_killed pm) eqn:Hk; [|done].
    intros [= <- <-]. right. auto.
Qed.

Lemma wait_loop_sleep `{!NoSleep} status v ch s' :
  wait_loop c status v at_loop = Sleep ch s' ->
  list_find (dead_child me) T = None /\ ch = CProc me /\ have_kids = true /\ p_killed pm = false /\
  s' = PState (<[PTABLE_LOCK := Spinlock true (Some c)]> L)
       (<[me := set_context (CtxSleep PTABLE_LOCK (c_if k)) (set_state SLEEPING (set_chan (Some (CProc me)) pm))]> T)
       n ip f (<[c := Cpu 1 (c_if k) false None]> C) (<[c := Some (me + 1)%nat]> Q) w.
Proof.
  rewrite wait_loop_eq. destruct (list_find (dead_child me) T) as [[i p]|] eqn:Hf.
  - intros E. exfalso. unfold bind in E.
    destruct (reap i at_loop) as [pid s1|e|c0 s0|] eqn:E1; [|done|by eapply reap_awake|done].
    pose proof Hf as (Hi & _ & _)%list_find_Some.
    apply (reap_inv i p) in E1 as (-> & w' & _ & ->); [|done].
    by rewrite (calm_release _ _ _ _ _ _ _ _ _ _ Hcalm) in E.
  - rewrite no_dead_tail_eq. destruct (negb have_kids || p_killed pm) eqn:Hk; [done|].
    apply orb_false_iff in Hk as [Hk1 Hk2]. apply negb_false_iff in Hk1.
    intros [= <- <-]. auto.
Qed.

Lemma wait_enter status v : wait c status v (PState L T n ip f C Q w) = wait_loop c status v at_loop.
Proof. unfold wait. by rewrite (bind_ok _ _ _ _ _ (calm_acquire _ _ _ _ _ _ _ _ _ _ Hcalm)). Qed.
End wait.

(** [kill] marks the first slot that has the pid. *)
Definition kill_mark (p : proc) : proc :=
  if bool_decide (p_state p = SLEEPING) then set_state RUNNABLE (set_killed true p)
  else set_killed true p.

Lemma kill_eq c k L T n ip f C Q (w : W) pid :
  calm c k L C -> length T = NPROC ->
  kill c pid (PState L T n ip f C Q w) =
  match list_find (fun p => p_pid p = pid) T with
  | Some (i, p) => Ok 0 (PState L (<[i := kill_mark p]> T) n ip f (<[c := settle k]> C) Q w)
  | None => Ok (-1) (PState L T n ip f (<[c := settle k]> C) Q w)
  end.
Proof.
  intros Hcalm Hlen. unfold kill.
  rewrite (bind_ok _ _ _ _ _ (calm_acquire _ _ _ _ _ _ _ _ _ _ Hcalm)).
  set (s1 := PState (<[PTABLE_LOCK := _]> L) _ _ _ _ _ _ _).
  set (body := fun i => let p := Z.to_nat i in _).
  assert (forall j p, 0 <= j -> T !! Z.to_nat j = Some p -> p_pid p <> pid -> body j s1 = Ok None s1) as Hskip.
  { intros j p Hj Hp Hne. unfold body. erewrite bind_ok by reflexivity. cbn beta.
    rewrite (proc_at_eq _ s1 p Hp). unfold id. by destruct (Z.eqb_spec (p_pid p) pid). }
  destruct (list_find _ T) as [[i p]|] eqn:Hf.
  - apply list_find_Some in Hf as (Hi & Hp & Hb). pose proof (lookup_lt_Some _ _ _ Hi) as Hlt.
    unfold bind at 1. erewrite (mfind_some _ _ (Z.of_nat i)); [| | |reflexivity|].
    + unfold body. rewrite Nat2Z.id. erewrite bind_ok by reflexivity. cbn beta.
      rewrite (proc_at_eq _ s1 p Hi). unfold id. rewrite Hp, Z.eqb_refl.
      erewrite bind_ok by apply pupd_ok. cbn [ptable s1]. rewrite (alter_at _ _ _ p Hi).
      erewrite bind_ok.
      2:{ instantiate (1 := set_ptable (<[i := kill_mark p]> T) s1). instantiate (1 := tt).
          unfold kill_mark, when. destruct (bool_decide (p_state p = SLEEPING)); [|done].
          rewrite pupd_ok. cbn [ptable set_ptable]. by rewrite alter_insert_at. }
      unfold bind. cbv [set_ptable s1]. cbn [ptable nextpid locks initproc first cpus sched_pos world].
      by rewrite (calm_release _ _ _ _ _ _ _ _ _ _ Hcalm).
    + lia.
    + intros j Hj. destruct (lookup_lt_is_Some_2 T (Z.to_nat j)) as [q Hq]; [lia|].
      apply (Hskip j q); [lia|done|]. apply (Hb (Z.to_nat j)); [done|lia].
    + intros s' E. unfold body in E. rewrite Nat2Z.id in E. det E.
      rewrite (proc_at_eq _ s1 p Hi) in E. unfold id in E. rewrite Hp, Z.eqb_refl in E.
      apply bind_inv in E as (? & ? & _ & E). apply bind_inv in E as (? & ? & _ & E).
      by apply bind_inv in E as (? & ? & _ & E).
  - apply list_find_None in Hf. rewrite (bind_ok _ _ _ None s1).
    + unfold s1. by rewrite (bind_ok _ _ _ _ _ (calm_release _ _ _ _ _ _ _ _ _ _ Hcalm)).
    + apply mfind_none. intros j Hj. destruct (lookup_lt_is_Some_2 T (Z.to_nat j)) as [q Hq]; [lia|].
      apply (Hskip j q); [lia|done|]. by apply (Forall_lookup_1 _ _ _ _ Hf Hq).
Qed.

Lemma wakeup_eq c k L T n ip f C Q (w : W) ch :
  calm c k L C -> length T = NPROC ->
  wakeup c ch (PState L T n ip f C Q w) =
  Ok tt (PState L (wake (Some ch) <$> T) n ip f (<[c := settle k]> C) Q w).
Proof.
  intros Hcalm Hlen. unfold wakeup.
  rewrite (bind_ok _ _ _ _ _ (calm_acquire _ _ _ _ _ _ _ _ _ _ Hcalm)).
  erewrite bind_ok by (by apply wakeup1_ok).
  cbv [set_ptable]. cbn [ptable nextpid locks initproc first cpus sched_pos world].
  by apply calm_release.
Qed.

Lemma yield_eq c k me p L T n ip f C Q (w : W) :
  calm c k L C -> c_proc k = Some me -> T !! me = Some p ->
  yield c (PState L T n ip f C Q w) =
  Ok tt (PState (<[PTABLE_LOCK := Spinlock true (Some c)]> L)
           (<[me := set_context (CtxYield (c_if k)) (set_state RUNNABLE p)]> T) n ip f
           (<[c := Cpu 1 (c_if k) false None]> C) (<[c := Some (me + 1)%nat]> Q) w).
Proof.
  intros Hcalm Hcp Hme. pose proof Hcalm as (_ & Hc & _). pose proof (lookup_lt_Some _ _ _ Hc) as Hlc.
  pose proof (lookup_lt_Some _ _ _ Hme) as Hlm. unfold yield.
  rewrite (bind_ok _ _ _ _ _ (calm_acquire _ _ _ _ _ _ _ _ _ _ Hcalm)).
  rewrite (bind_ok _ _ _ _ _ (myproc_at c (Cpu 1 (c_if k) false (c_proc k)) me _ _ _ _ _ _ _ _
    (list_lookup_insert_eq _ _ _ Hlc) Hcp)).
  erewrite bind_ok by apply pupd_ok. cbv [set_ptable].
  cbn [ptable nextpid locks initproc first cpus sched_pos world]. rewrite (alter_at _ _ _ p Hme).
  rewrite (sched_ok c k me (set_state RUNNABLE p)); [|done|done|by apply list_lookup_insert_eq|done].
  by rewrite list_insert_insert_eq.
Qed.

(** [sleep] on a lock other than [ptable.lock], taken before. *)
Lemma sleep_eq {A} c k me p lk ch L T n ip f C Q (w : W) :
  calm c k L C -> c_proc k = Some me -> T !! me = Some p -> lk <> PTABLE_LOCK ->
  L !! lk = Some free_lock ->
  (acquire_lk c lk ;; sleep (A:=A) c ch (Some lk)) (PState L T n ip f C Q w) =
  Sleep ch (PState (<[PTABLE_LOCK := Spinlock true (Some c)]> L)
    (<[me := set_context (CtxSleep lk (c_if k)) (set_state SLEEPING (set_chan (Some ch) p))]> T) n ip f
    (<[c := Cpu 1 (c_if k) false None]> C) (<[c := Some (me + 1)%nat]> Q) w).
Proof.
  intros Hcalm Hcp Hme Hlk Hfree. pose proof Hcalm as (Hl0 & Hc & Hn).
  pose proof (lookup_lt_Some _ _ _ Hc) as Hlc. pose proof (lookup_lt_Some _ _ _ Hme) as Hlm.
  pose proof (lookup_lt_Some _ _ _ Hl0) as Hll. pose proof (lookup_lt_Some _ _ _ Hfree) as Hlf.
  rewrite (bind_ok _ _ _ _ _ (acquire_lk_ok c lk (PState L T n ip f C Q w) k Hfree Hc)).
  unfold sleep. erewrite bind_ok by reflexivity.
  unfold cpu_proc at 1. cbv [set_cpus set_locks]. cbn [ptable nextpid locks initproc first cpus sched_pos world].
  rewrite list_lookup_insert_eq by done. cbn [mbind option_bind]. unfold pushed at 1. cbn [c_proc].
  rewrite Hcp. destruct (Nat.eqb_spec lk PTABLE_LOCK) as [|_]; [done|]. cbn [negb when].
  erewrite bind_ok.
  2:{ erewrite bind_ok.
      2:{ apply (acquire_lk_ok c PTABLE_LOCK _ (pushed k)); cbn [locks cpus].
          - by rewrite list_lookup_insert_ne.
          - by rewrite list_lookup_insert_eq. }
      apply (release_lk_ok c lk _ (pushed (pushed k)));
        cbv [set_cpus set_locks]; cbn [locks cpus ptable nextpid initproc first sched_pos world].
      - rewrite list_lookup_insert_ne by done. by rewrite list_lookup_insert_eq.
      - apply list_lookup_insert_eq. by rewrite length_insert.
      - repeat apply pushed_ok. split; [lia|]. rewrite Hn. lia.
      - unfold pushed. simpl. lia. }
  cbv [set_cpus set_locks]. cbn [locks cpus ptable nextpid initproc first sched_pos world].
  rewrite !list_insert_insert_eq.
  assert (popped (pushed (pushed k)) = Cpu 1 (c_if k) false (c_proc k)) as ->.
  { unfold popped, pushed. simpl. rewrite Hn. done. }
  assert (<[lk := Spinlock false None]> (<[PTABLE_LOCK := Spinlock true (Some c)]>
    (<[lk := Spinlock true (Some c)]> L)) = <[PTABLE_LOCK := Spinlock true (Some c)]> L) as ->.
  { apply list_eq. intros j. destruct (decide (j = lk)) as [->|Hj].
    - rewrite list_lookup_insert_eq by (by rewrite !length_insert). by rewrite list_lookup_insert_ne.
    - rewrite list_lookup_insert_ne by done. destruct (decide (j = PTABLE_LOCK)) as [->|Hj'].
      + by rewrite !list_lookup_insert_eq by (by rewrite ?length_insert).
      + by rewrite !list_lookup_insert_ne. }
  erewrite bind_ok by apply pupd_ok. erewrite bind_ok by apply pupd_ok.
  cbv [set_ptable]. cbn [locks cpus ptable nextpid initproc first sched_pos world].
  rewrite (alter_at _ T me p Hme), alter_insert_at by done.
  erewrite bind_ok.
  2:{ apply (sched_ok c k me (set_state SLEEPING (set_chan (Some ch) p)));
        [done|done|by apply list_lookup_insert_eq|done]. }
  by rewrite list_insert_insert_eq.
Qed.
End effects.
