(* ===== verification/ProcSys.v ===== *)
(** The running system: processes on several CPUs and the schedulers between
    them, as a step relation, with its invariant. *)
From stdpp Require Import base numbers list gmap sets strings.
From Stdlib Require Import ZArith Lia.
From S2P Require Import Prelude Spinlock Proc ProcInv.

(** How far a process has come in [fork] or [exit], which give up [ptable.lock] on
    their way: [np] is the slot that [fork] fills, [i] the next file, [v] the
    status. *)
Inductive stage : Type :=
| ForkStack (np : nat)
| ForkVm (np : nat)
| ForkFd (np : nat) (i : nat)
| ForkRun (np : nat)
| ExitFd (v : Z) (i : nat)
| ExitDie (v : Z).

Definition fork_slot (st : stage) : option nat :=
  match st with
  | ForkStack np | ForkVm np | ForkFd np _ | ForkRun np => Some np
  | ExitFd _ _ | ExitDie _ => None
  end.

(** The stages of the processes that are in [fork] or [exit]. *)
Notation stages := (gmap nat stage).

Definition set_stage (me : nat) (o : option stage) (g : stages) : stages := partial_alter (fun _ => o) me g.

Section sys.
Context {W : Type} `{!Kernel W} `{!NoSleep (W:=W)}.
Implicit Types s : pstate W.

(** [wait] from the return of its [sleep]. *)
Definition wait_resume (c : nat) (intena : bool) (st : intptr) (v : Z) : M (pstate W) (Z * (intptr * Z)) :=
  sleep_tail c PTABLE_LOCK intena ;;
  wait_loop c st v.

(** A process continues where its context says, up to its next release of all
    locks (or its next switch to the scheduler): [st] is the argument of the
    [wait] that it sleeps in, if it does, and [v] the variable of that call. *)
Definition resume (c : nat) (st : intptr) (v : Z) (ctx : context) : M (pstate W) unit :=
  match ctx with
  | CtxNone => ret tt
  | CtxForkret => forkret c
  | CtxYield intena => yield_tail c intena
  | CtxSleep lk intena =>
      if (lk =? PTABLE_LOCK)%nat then wait_resume c intena st v ;; ret tt
      else sleep_tail c lk intena ;; release_lk c lk
  | CtxExit => panic "zombie exit"
  end.

(** CPU [c] runs a process and [ptable.lock] is free.  (A process that finds the
    lock taken spins, and makes its step when the lock is free.) *)
Definition running (c : nat) s : Prop :=
  is_Some (cpu_proc c s) /\ locks s !! PTABLE_LOCK = Some free_lock.

Implicit Types g : stages.

(** One step: a process makes a system call (or is interrupted) and runs until
    it holds no lock or has switched to the scheduler; or a scheduler enters its
    loop, looks at one slot, or leaves its loop.  [fork] and [exit] take many
    steps, between which the other CPUs, and interrupts on the same CPU, make
    theirs: a process in [fork] or [exit] can be made to [yield], and can [sleep]
    inside of a function of the file system.  The counter [nextpid] has not run
    through the positive [int]s. *)
Inductive pstep : pstate W -> stages -> pstate W -> stages -> Prop :=
| st_fork c me r s g s' :
    running c s -> cpu_proc c s = Some me -> g !! me = None -> nextpid s < 2 ^ 31 - 1 ->
    allocproc_find c s = Ok r s' -> pstep s g s' (set_stage me (ForkStack <$> r) g)
| st_fork_stack c me np r s g s' :
    cpu_proc c s = Some me -> g !! me = Some (ForkStack np) ->
    allocproc_stack np s = Ok r s' -> pstep s g s' (set_stage me (ForkVm <$> r) g)
| st_fork_vm c me np r s g s' :
    cpu_proc c s = Some me -> g !! me = Some (ForkVm np) ->
    fork_vm me np s = Ok r s' -> pstep s g s' (set_stage me (if r then Some (ForkFd np 0) else None) g)
| st_fork_fd c me np i s g s' :
    cpu_proc c s = Some me -> g !! me = Some (ForkFd np i) -> (i < NOFILE)%nat ->
    fork_fd me np (Z.of_nat i) s = Ok tt s' -> pstep s g s' (set_stage me (Some (ForkFd np (i + 1))) g)
| st_fork_cwd c me np s g s' :
    cpu_proc c s = Some me -> g !! me = Some (ForkFd np NOFILE) ->
    fork_cwd me np s = Ok tt s' -> pstep s g s' (set_stage me (Some (ForkRun np)) g)
| st_fork_run c me np r s g s' :
    running c s -> cpu_proc c s = Some me -> g !! me = Some (ForkRun np) ->
    fork_run c np s = Ok r s' -> pstep s g s' (set_stage me None g)
| st_exit c me v s g :
    cpu_proc c s = Some me -> g !! me = None -> initproc s <> Some me ->
    pstep s g s (set_stage me (Some (ExitFd v 0)) g)
| st_exit_fd c me v i s g s' :
    cpu_proc c s = Some me -> g !! me = Some (ExitFd v i) -> (i < NOFILE)%nat ->
    exit_fd me (Z.of_nat i) s = Ok tt s' -> pstep s g s' (set_stage me (Some (ExitFd v (i + 1))) g)
| st_exit_cwd c me v s g s' :
    cpu_proc c s = Some me -> g !! me = Some (ExitFd v NOFILE) ->
    exit_cwd me s = Ok tt s' -> pstep s g s' (set_stage me (Some (ExitDie v)) g)
| st_exit_die c me v s g s' :
    running c s -> cpu_proc c s = Some me -> g !! me = Some (ExitDie v) ->
    exit_die c me v s = Ok tt s' -> pstep s g s' (set_stage me None g)
| st_wait c me st v r s g s' :
    running c s -> cpu_proc c s = Some me -> g !! me = None -> wait c st v s = Ok r s' -> pstep s g s' g
| st_wait_sleep c me st v ch s g s' :
    running c s -> cpu_proc c s = Some me -> g !! me = None -> wait c st v s = Sleep ch s' -> pstep s g s' g
| st_kill c me pid r s g s' :
    running c s -> cpu_proc c s = Some me -> g !! me = None -> kill c pid s = Ok r s' -> pstep s g s' g
| st_wakeup c ch s g s' : running c s -> wakeup c ch s = Ok tt s' -> pstep s g s' g
| st_yield c s g s' : running c s -> yield c s = Ok tt s' -> pstep s g s' g
| st_sleep c ch lk s g s' :
    running c s -> lk <> PTABLE_LOCK -> (forall i, ch <> CProc i) ->
    (acquire_lk c lk ;; sleep (A:=unit) c ch (Some lk)) s = Sleep ch s' -> pstep s g s' g
| st_enter c s g s' :
    cpu_proc c s = None -> (c < length (cpus s))%nat -> locks s !! PTABLE_LOCK = Some free_lock ->
    scheduler_enter c s = Ok tt s' -> pstep s g s' g
| st_turn c i st v s g s' :
    sched_pos s !! c = Some (Some i) -> (i < NPROC)%nat ->
    (ctx <- scheduler_turn c i ;; resume c st v ctx) s = Ok tt s' -> pstep s g s' g
| st_turn_sleep c i st v b ch s g s' :
    sched_pos s !! c = Some (Some i) -> (i < NPROC)%nat ->
    p_context (proc_at i s) = CtxSleep PTABLE_LOCK b ->
    (ctx <- scheduler_turn c i ;; resume c st v ctx) s = Sleep ch s' -> pstep s g s' g
| st_leave c s g s' :
    sched_pos s !! c = Some (Some NPROC) -> scheduler_leave c s = Ok tt s' -> pstep s g s' g.

(** Contexts of processes that are not running. *)
Definition ctx_ok (L : list spinlock) (ctx : context) : Prop :=
  match ctx with
  | CtxForkret | CtxYield _ => True
  | CtxSleep lk _ => (lk < length L)%nat
  | _ => False
  end.

Definition waiting (p : proc) : Prop := p_state p = RUNNABLE \/ p_state p = SLEEPING.

Record cinv s : Prop := CInv {
  ci_pos : length (sched_pos s) = length (cpus s);
  ci_lock :
    (locks s !! PTABLE_LOCK = Some free_lock /\ forall c x, sched_pos s !! c = Some x -> x = None) \/
    (exists c i, locks s !! PTABLE_LOCK = Some (Spinlock true (Some c)) /\
       sched_pos s !! c = Some (Some i) /\ (i <= NPROC)%nat /\
       forall c' x, c' <> c -> sched_pos s !! c' = Some x -> x = None);
  ci_cpu : forall c k, cpus s !! c = Some k ->
    match sched_pos s !! c with
    | Some (Some _) => c_ncli k = 1 /\ c_if k = false /\ c_proc k = None
    | _ => c_ncli k = 0
    end;
  ci_run : forall c k i, cpus s !! c = Some k -> c_proc k = Some i ->
    exists p, ptable s !! i = Some p /\ p_state p = RUNNING;
  ci_has : forall i p, ptable s !! i = Some p -> p_state p = RUNNING ->
    exists c k, cpus s !! c = Some k /\ c_proc k = Some i;
  ci_one : forall c c' k k' i, cpus s !! c = Some k -> cpus s !! c' = Some k' ->
    c_proc k = Some i -> c_proc k' = Some i -> c = c';
  ci_locks : forall j lk, j <> PTABLE_LOCK -> locks s !! j = Some lk -> lk = free_lock;
  ci_ctx : forall i p, ptable s !! i = Some p -> waiting p -> ctx_ok (locks s) (p_context p)
}.

Definition pinv s : Prop := tinv (ptable s) (nextpid s) (initproc s) /\ cinv s.

(** ** The invariant of the stages *)

(** Entry [b] is what [filedup] makes of entry [a]. *)
Definition dup_of (a b : option nat) : Prop := exists w w' : W, dup_fd a w = Ok b w'.

(** Slot [q] is the child that [fork] is making for the process [p] in slot [me],
    with its first [i] files copied. *)
Record half (me : nat) (p q : proc) (i : nat) : Prop := Half {
  hf_parent : p_parent q = Some me;
  hf_context : p_context q = CtxForkret;
  hf_tf : p_tf q = set_eax 0 <$> p_tf p;
  hf_sz : p_sz q = p_sz p;
  hf_files : exists fl, p_ofile q = fl ++ replicate (NOFILE - i) None /\ Forall2 dup_of (take i (p_ofile p)) fl
}.

(** The slot that the process [p] in slot [me] fills, and its own files, at each
    stage. *)
Definition stage_ok (t : list proc) (ip : option nat) (me : nat) (p : proc) (st : stage) : Prop :=
  match st with
  | ForkStack np => exists q, t !! np = Some q /\ p_state q = EMBRYO /\ p_parent q = None
  | ForkVm np => exists q, t !! np = Some q /\ p_state q = EMBRYO /\ p_parent q = None /\ p_context q = CtxForkret
  | ForkFd np i => exists q, t !! np = Some q /\ p_state q = EMBRYO /\ half me p q i /\ (i <= NOFILE)%nat
  | ForkRun np => exists q, t !! np = Some q /\ p_state q = EMBRYO /\ half me p q NOFILE /\
      p_name q = safestrcpy16 (p_name p) /\
      exists d d' w w', p_cwd p = Some d /\ p_cwd q = Some d' /\ k_idup d w = Ok d' w'
  | ExitFd v i => ip <> Some me /\ (i <= NOFILE)%nat /\ forall fd, (fd < i)%nat -> p_ofile p !! fd = Some None
  | ExitDie v => ip <> Some me /\ no_files p
  end.

(** Every process in [fork] or [exit] is alive, and the slots being filled are
    exactly those of the processes in [fork], each its own. *)
Record sinv (g : stages) (t : list proc) (ip : option nat) : Prop := SInv {
  si_ok : forall me st, g !! me = Some st -> exists p, t !! me = Some p /\ alive p /\ stage_ok t ip me p st;
  si_embryo : forall i p, t !! i = Some p -> p_state p = EMBRYO ->
    exists me st, g !! me = Some st /\ fork_slot st = Some i;
  si_one : forall me me' st st' i, g !! me = Some st -> g !! me' = Some st' ->
    fork_slot st = Some i -> fork_slot st' = Some i -> me = me'
}.

(** What a step of one process leaves alone of the others. *)
Definition kept (p p' : proc) : Prop :=
  p_sz p' = p_sz p /\ p_tf p' = p_tf p /\ p_ofile p' = p_ofile p /\ p_cwd p' = p_cwd p /\ p_name p' = p_name p.

Definition frame1 (p p' : proc) : Prop :=
  (alive p -> alive p' /\ kept p p') /\
  (p_state p = EMBRYO -> p_state p' = EMBRYO /\ kept p p' /\ p_parent p' = p_parent p /\ p_context p' = p_context p) /\
  (p_state p' = EMBRYO -> p_state p = EMBRYO).

Definition frame (t t' : list proc) : Prop :=
  length t' = length t /\ forall i p, t !! i = Some p -> exists p', t' !! i = Some p' /\ frame1 p p'.

(** What a process starts its step from. *)
Lemma running_calm c s :
  pinv s -> running c s ->
  exists k me p, calm c k (locks s) (cpus s) /\ c_proc k = Some me /\ ptable s !! me = Some p /\
    p_state p = RUNNING /\ (me < NPROC)%nat /\ length (p_ofile p) = NOFILE.
Proof.
  intros [HT HC] [[me Hme] Hl]. unfold cpu_proc in Hme.
  destruct (cpus s !! c) as [k|] eqn:Hc; [|done].
  simpl in Hme. destruct (ci_run _ HC c k me Hc Hme) as (p & Hp & Hs).
  exists k, me, p. pose proof (ci_cpu _ HC c k Hc) as Hk.
  pose proof (lookup_lt_Some _ _ _ Hp) as Hlt. rewrite (ti_len _ _ _ HT) in Hlt.
  split_and!; try done; [|by eapply ti_ofile].
  destruct (sched_pos s !! c) as [[x|]|] eqn:Hq; [|done..].
  destruct Hk as (_ & _ & Hk). congruence.
Qed.

(** A critical section of CPU [c] that leaves the same processes running. *)
Lemma cinv_settle L T n ip f C Q (w : W) c k T' n' f' w' :
  cinv (PState L T n ip f C Q w) -> C !! c = Some k ->
  (forall i p', T' !! i = Some p' -> p_state p' = RUNNING -> exists p, T !! i = Some p /\ p_state p = RUNNING) ->
  (forall i p, T !! i = Some p -> p_state p = RUNNING -> exists p', T' !! i = Some p' /\ p_state p' = RUNNING) ->
  (forall i p', T' !! i = Some p' -> waiting p' -> ctx_ok L (p_context p')) ->
  cinv (PState L T' n' ip f' (<[c := settle k]> C) Q w').
Proof.
  intros [Hpos Hlk Hcpu Hrun Hhas Hone Hlks Hctx] Hc Hb Hfw Hcx. simpl in *.
  pose proof (lookup_lt_Some _ _ _ Hc) as Hlt.
  assert (forall c' k', <[c := settle k]> C !! c' = Some k' ->
    exists k0, C !! c' = Some k0 /\ c_proc k' = c_proc k0 /\ c_ncli k' = c_ncli k0 /\ c_if k' = c_if k0) as Hup.
  { intros c' k'. rewrite list_lookup_insert. case_decide; naive_solver. }
  assert (forall c' k0, C !! c' = Some k0 ->
    exists k', <[c := settle k]> C !! c' = Some k' /\ c_proc k' = c_proc k0) as Hdn.
  { intros c' k0 Hk0. rewrite list_lookup_insert. case_decide; naive_solver. }
  split; simpl; try done.
  - by rewrite length_insert.
  - intros c' k' Hc'. destruct (Hup _ _ Hc') as (k0 & Hk0 & -> & -> & ->). by apply Hcpu.
  - intros c' k' i Hc' Hp. destruct (Hup _ _ Hc') as (k0 & Hk0 & E & _). rewrite E in Hp.
    destruct (Hrun _ _ _ Hk0 Hp) as (p & ? & ?). eauto.
  - intros i p' Hi Hs. destruct (Hb _ _ Hi Hs) as (p & Hp & Hsp).
    destruct (Hhas _ _ Hp Hsp) as (c' & k0 & Hk0 & E). destruct (Hdn _ _ Hk0) as (k' & ? & E').
    exists c', k'. split; [done|congruence].
  - intros c1 c2 k1 k2 i H1 H2 E1 E2. destruct (Hup _ _ H1) as (k1' & ? & F1 & _).
    destruct (Hup _ _ H2) as (k2' & ? & F2 & _). apply (Hone c1 c2 k1' k2' i); congruence.
Qed.

(** CPU [c] switches from process [me] to its scheduler. *)
Lemma cinv_switch L T n ip f C Q (w : W) c k me T' n' f' w' b :
  cinv (PState L T n ip f C Q w) -> L !! PTABLE_LOCK = Some free_lock ->
  C !! c = Some k -> c_proc k = Some me -> (me < NPROC)%nat ->
  (forall i p', T' !! i = Some p' -> p_state p' = RUNNING ->
     i <> me /\ exists p, T !! i = Some p /\ p_state p = RUNNING) ->
  (forall i p, T !! i = Some p -> i <> me -> p_state p = RUNNING ->
     exists p', T' !! i = Some p' /\ p_state p' = RUNNING) ->
  (forall i p', T' !! i = Some p' -> waiting p' -> ctx_ok L (p_context p')) ->
  cinv (PState (<[PTABLE_LOCK := Spinlock true (Some c)]> L) T' n' ip f'
          (<[c := Cpu 1 b false None]> C) (<[c := Some (me + 1)%nat]> Q) w').
Proof.
  intros [Hpos Hlk Hcpu Hrun Hhas Hone Hlks Hctx] Hl0 Hc Hme Hmlt Hb Hfw Hcx. simpl in *.
  pose proof (lookup_lt_Some _ _ _ Hc) as Hlt. pose proof (lookup_lt_Some _ _ _ Hl0) as Hl0t.
  assert (forall c' x, Q !! c' = Some x -> x = None) as HQ.
  { destruct Hlk as [[_ ?]|(c' & i & E & _)]; [done|]. rewrite Hl0 in E. discriminate. }
  assert (forall c' k', <[c := Cpu 1 b false None]> C !! c' = Some k' ->
    (c' = c /\ k' = Cpu 1 b false None) \/ (c' <> c /\ C !! c' = Some k')) as Hup.
  { intros c' k'. rewrite list_lookup_insert. case_decide; naive_solver. }
  split; simpl.
  - by rewrite !length_insert.
  - right. exists c, (me + 1)%nat. rewrite !list_lookup_insert_eq by (rewrite ?Hpos; done).
    split_and!; [done|done|lia|]. intros c' x Hne. rewrite list_lookup_insert_ne by done. apply HQ.
  - intros c' k' [[-> ->]|[Hne Hk]]%Hup.
    + rewrite list_lookup_insert_eq by (by rewrite Hpos). done.
    + rewrite list_lookup_insert_ne by done. by apply Hcpu.
  - intros c' k' i [[-> ->]|[Hne Hk]]%Hup Hp; [done|].
    destruct (Hrun _ _ _ Hk Hp) as (p & Hi & Hs). apply (Hfw i p Hi); [|done].
    intros ->. destruct Hne. by eapply Hone.
  - intros i p' Hi Hs. destruct (Hb _ _ Hi Hs) as (Hne & p & Hp & Hsp).
    destruct (Hhas _ _ Hp Hsp) as (c' & k' & Hk' & E). exists c', k'. split; [|done].
    rewrite list_lookup_insert_ne; [done|]. intros <-. congruence.
  - intros c1 c2 k1 k2 i [[-> ->]|[? H1]]%Hup [[-> ->]|[? H2]]%Hup E1 E2; try done. by eapply Hone.
  - intros j lk Hj. rewrite list_lookup_insert_ne by done. by apply Hlks.
  - intros i p' Hi Hw. specialize (Hcx i p' Hi Hw). unfold ctx_ok in *.
    by destruct (p_context p'); rewrite ?length_insert.
Qed.

(** The scheduler of CPU [c] has given the CPU to process [i], which has
    released [ptable.lock]. *)
Lemma cinv_dispatch L T n ip f C Q (w : W) c k j i T' n' f' w' k' :
  cinv (PState L T n ip f C Q w) -> Q !! c = Some (Some j) -> C !! c = Some k ->
  c_proc k' = Some i -> c_ncli k' = 0 ->
  (exists p, T !! i = Some p /\ p_state p = RUNNABLE) ->
  (forall j p', T' !! j = Some p' -> p_state p' = RUNNING ->
     j = i \/ exists p, T !! j = Some p /\ p_state p = RUNNING) ->
  (forall j p, T !! j = Some p -> j = i \/ p_state p = RUNNING ->
     exists p', T' !! j = Some p' /\ p_state p' = RUNNING) ->
  (forall j p', T' !! j = Some p' -> waiting p' -> ctx_ok L (p_context p')) ->
  cinv (PState (<[PTABLE_LOCK := free_lock]> L) T' n' ip f' (<[c := k']> C) (<[c := None]> Q) w').
Proof.
  intros [Hpos Hlk Hcpu Hrun Hhas Hone Hlks Hctx] Hq Hc Hp' Hn' (pi & Hpi & Hsi) Hb Hfw Hcx. simpl in *.
  pose proof (lookup_lt_Some _ _ _ Hc) as Hlt.
  assert (L !! PTABLE_LOCK = Some (Spinlock true (Some c)) /\
    forall c' x, c' <> c -> Q !! c' = Some x -> x = None) as (Hl0 & HQ).
  { destruct Hlk as [[_ HQ]|(c' & i' & E & Hqc & _ & HQ)]; [by specialize (HQ _ _ Hq)|].
    destruct (decide (c' = c)) as [->|Hne]; [eauto|]. by specialize (HQ c _ ltac:(done) Hq). }
  pose proof (lookup_lt_Some _ _ _ Hl0) as Hl0t.
  assert (forall c' k0, <[c := k']> C !! c' = Some k0 ->
    (c' = c /\ k0 = k') \/ (c' <> c /\ C !! c' = Some k0)) as Hup.
  { intros c' k0. rewrite list_lookup_insert. case_decide; naive_solver. }
  assert (forall c' k0, C !! c' = Some k0 -> c_proc k0 <> Some i) as Hni.
  { intros c' k0 Hk0 E. destruct (Hrun _ _ _ Hk0 E) as (p & ? & ?). congruence. }
  split; simpl.
  - by rewrite !length_insert.
  - left. rewrite list_lookup_insert_eq by done. split; [done|]. intros c' x.
    destruct (decide (c' = c)) as [->|Hne].
    + rewrite list_lookup_insert_eq by (by rewrite Hpos). by intros [= <-].
    + rewrite list_lookup_insert_ne by done. by apply HQ.
  - intros c' k0 [[-> ->]|[Hne Hk]]%Hup.
    + by rewrite list_lookup_insert_eq by (by rewrite Hpos).
    + rewrite list_lookup_insert_ne by done. by apply Hcpu.
  - intros c' k0 j0 [[-> ->]|[Hne Hk]]%Hup Hp.
    + rewrite Hp' in Hp. injection Hp as <-. apply (Hfw i pi Hpi). by left.
    + destruct (Hrun _ _ _ Hk Hp) as (p & Hj & Hs). apply (Hfw j0 p Hj). by right.
  - intros j0 p' Hj Hs. destruct (Hb _ _ Hj Hs) as [->|(p & Hp & Hsp)].
    + exists c, k'. split; [by apply list_lookup_insert_eq|done].
    + destruct (Hhas _ _ Hp Hsp) as (c' & k0 & Hk0 & E). exists c', k0. split; [|done].
      rewrite list_lookup_insert_ne; [done|]. intros <-.
      pose proof (Hcpu _ _ Hk0) as Hk. rewrite Hq in Hk. destruct Hk as (_ & _ & Hk). congruence.
  - intros c1 c2 k1 k2 j0 [[-> ->]|[? H1]]%Hup [[-> ->]|[? H2]]%Hup E1 E2; try done.
    + rewrite Hp' in E1. injection E1 as <-. by destruct (Hni _ _ H2).
    + rewrite Hp' in E2. injection E2 as <-. by destruct (Hni _ _ H1).
    + by eapply Hone.
  - intros j0 lk Hj. rewrite list_lookup_insert_ne by done. by apply Hlks.
  - intros j0 p' Hj Hw. specialize (Hcx j0 p' Hj Hw). unfold ctx_ok in *.
    by destruct (p_context p'); rewrite ?length_insert.
Qed.

(** * The stages *)

Lemma alive_dec_not p : alive p -> p_state p <> EMBRYO.
Proof. by intros (_ & ? & _)%alive_not. Qed.

Lemma kept_refl p : kept p p.
Proof. done. Qed.

Lemma frame1_alive p p' : alive p -> alive p' -> kept p p' -> frame1 p p'.
Proof.
  intros Ha Ha' Hk. split; [done|]. pose proof (alive_dec_not _ Ha). pose proof (alive_dec_not _ Ha'). done.
Qed.

Lemma frame1_refl p : frame1 p p.
Proof. split_and!; auto using kept_refl. Qed.

Lemma frame_refl t : frame t t.
Proof. split; [done|]. intros i p Hi. exists p. auto using frame1_refl. Qed.

Lemma frame_insert t i p p' : t !! i = Some p -> frame1 p p' -> frame t (<[i := p']> t).
Proof.
  intros Hi Hf. split; [apply length_insert|]. intros j q Hj. destruct (decide (j = i)) as [->|Hne].
  - exists p'. rewrite (lookup_upd _ _ _ _ _ _ Hi). simplify_eq. auto.
  - exists q. rewrite (lookup_upd _ _ _ _ _ _ Hi). auto using frame1_refl.
Qed.

Lemma half_kept me p p' q q' i :
  half me p q i -> kept p p' -> kept q q' -> p_parent q' = p_parent q -> p_context q' = p_context q ->
  half me p' q' i.
Proof.
  intros [H1 H2 H3 H4 H5] (A1 & A2 & A3 & A4 & A5) (B1 & B2 & B3 & B4 & B5) Ep Ec.
  split; [congruence..|]. by rewrite A3, B3.
Qed.

Lemma stage_slot t ip me p st i :
  stage_ok t ip me p st -> fork_slot st = Some i -> exists q, t !! i = Some q /\ p_state q = EMBRYO.
Proof. destruct st; simpl; [naive_solver..|done|done]. Qed.

Lemma stage_ok_frame t t' ip me p p' st :
  (forall i q, fork_slot st = Some i -> t !! i = Some q -> exists q', t' !! i = Some q' /\ frame1 q q') ->
  stage_ok t ip me p st -> kept p p' -> stage_ok t' ip me p' st.
Proof.
  intros Hs Hok Hk. pose proof Hk as (_ & _ & A3 & A4 & A5).
  assert (forall i q, fork_slot st = Some i -> t !! i = Some q -> p_state q = EMBRYO ->
    exists q', t' !! i = Some q' /\ p_state q' = EMBRYO /\ kept q q' /\ p_parent q' = p_parent q /\
      p_context q' = p_context q) as Hs'.
  { intros i q Hi Hq Hem. destruct (Hs i q Hi Hq) as (q' & Hq' & _ & Hf & _). exists q'. tauto. }
  destruct st as [np|np|np i|np|v i|v]; simpl in *.
  - destruct Hok as (q & Hq & He & Hp). destruct (Hs' np q) as (q' & ? & ? & ? & ? & ?); [done..|].
    exists q'. split_and!; congruence.
  - destruct Hok as (q & Hq & He & Hp & Hc). destruct (Hs' np q) as (q' & ? & ? & ? & ? & ?); [done..|].
    exists q'. split_and!; congruence.
  - destruct Hok as (q & Hq & He & Hh & Hi). destruct (Hs' np q) as (q' & ? & ? & ? & ? & ?); [done..|].
    exists q'. split_and!; try done. by eapply half_kept.
  - destruct Hok as (q & Hq & He & Hh & Hn & d & d' & w & w' & ? & ? & ?).
    destruct (Hs' np q) as (q' & ? & ? & Hkq & ? & ?); [done..|]. pose proof Hkq as (_ & _ & _ & B4 & B5).
    exists q'. split_and!; try done; [by eapply half_kept|congruence|].
    exists d, d', w, w'. split_and!; congruence.
  - by rewrite A3.
  - unfold no_files. by rewrite A3, A4.
Qed.

(** The slots that a step of [me] to stage [o] may change. *)
Definition own (g : stages) (me : nat) (o : option stage) (i : nat) : Prop :=
  i = me \/ g !! me ≫= fork_slot = Some i \/ o ≫= fork_slot = Some i.

#[local] Instance own_dec g me o i : Decision (own g me o i).
Proof. unfold own. apply _. Qed.

Lemma lookup_set_stage me o g m st :
  set_stage me o g !! m = Some st <-> (m = me /\ o = Some st) \/ (m <> me /\ g !! m = Some st).
Proof.
  unfold set_stage. destruct (decide (m = me)) as [->|Hne].
  - rewrite lookup_partial_alter_eq. naive_solver.
  - rewrite lookup_partial_alter_ne by done. naive_solver.
Qed.

Lemma sinv_update g t t' ip me o :
  sinv g t ip -> length t' = length t ->
  (forall p, t !! me = Some p -> p_state p <> EMBRYO) ->
  (forall i q, ~ own g me o i -> t !! i = Some q -> exists q', t' !! i = Some q' /\ frame1 q q') ->
  (forall st, o = Some st -> exists p', t' !! me = Some p' /\ alive p' /\ stage_ok t' ip me p' st) ->
  (forall i q', own g me o i -> t' !! i = Some q' -> p_state q' = EMBRYO -> o ≫= fork_slot = Some i) ->
  (forall i, o ≫= fork_slot = Some i -> g !! me ≫= fork_slot = Some i \/
     exists q, t !! i = Some q /\ p_state q = UNUSED) ->
  sinv (set_stage me o g) t' ip.
Proof.
  intros [Hok Hem Hone] Hlen Hme Hfr Hnew Hown Hslot.
  assert (forall i, g !! me ≫= fork_slot = Some i -> exists q, t !! i = Some q /\ p_state q = EMBRYO) as Hold.
  { intros i Hi. destruct (g !! me) as [st|] eqn:Eg; [|done]. destruct (Hok me st Eg) as (p & _ & _ & Hst).
    by eapply stage_slot. }
  assert (forall m st i, m <> me -> g !! m = Some st -> fork_slot st = Some i -> ~ own g me o i) as Hno.
  { intros m st i Hne Hg Hi. destruct (Hok m st Hg) as (p & _ & _ & Hst).
    destruct (stage_slot _ _ _ _ _ _ Hst Hi) as (q & Hq & He).
    assert (g !! me ≫= fork_slot <> Some i) as Hn.
    { intros E. destruct (g !! me) as [st0|] eqn:Eg; [|done]. destruct Hne. by eapply Hone. }
    intros [->|[E|E]]; [by eapply Hme|done|]. destruct (Hslot i E) as [|(q0 & ? & ?)]; [done|congruence]. }
  assert (forall m p, m <> me -> t !! m = Some p -> alive p -> ~ own g me o m) as Hnm.
  { intros m p Hne Hm (A1 & A2 & _)%alive_not [->|[E|E]]; [done| |].
    - destruct (Hold m E) as (q & ? & ?). congruence.
    - destruct (Hslot m E) as [E'|(q0 & ? & ?)]; [|congruence]. destruct (Hold m E') as (q & ? & ?). congruence. }
  split.
  - intros m st [[-> Eo]|[Hne Hg]]%lookup_set_stage; [by apply Hnew|].
    destruct (Hok m st Hg) as (p & Hm & Ha & Hst).
    destruct (Hfr m p) as (p' & Hm' & Hf & _); [by eapply Hnm|done|]. destruct (Hf Ha) as [Ha' Hk].
    exists p'. split_and!; try done. eapply stage_ok_frame; [|done|done].
    intros i q Hi Hq. apply Hfr; [by eapply Hno|done].
  - intros i q' Hi He. destruct (decide (own g me o i)) as [Ho|Ho].
    + pose proof (Hown i q' Ho Hi He) as E. destruct o as [st|]; [|done].
      exists me, st. split; [|done]. apply lookup_set_stage. auto.
    + destruct (lookup_lt_is_Some_2 t i) as [q Hq]; [rewrite <- Hlen; by eapply lookup_lt_Some|].
      destruct (Hfr i q Ho Hq) as (q0 & Hq0 & _ & _ & Hf). simplify_eq.
      destruct (Hem i q Hq (Hf He)) as (m & st & Hg & Hs). exists m, st. split; [|done].
      apply lookup_set_stage. right. split; [|done]. intros ->. apply Ho. right. left. by rewrite Hg.
  - intros m m' st st' i [[-> ->]|[Hm Hg]]%lookup_set_stage [[-> E']|[Hm' Hg']]%lookup_set_stage Hi Hi'.
    + done.
    + destruct (Hno m' st' i Hm' Hg' Hi'). right. by right.
    + destruct (Hno m st i Hm Hg Hi). right. right. by rewrite E'.
    + by eapply Hone.
Qed.

Lemma sinv_frame g t t' ip : sinv g t ip -> frame t t' -> sinv g t' ip.
Proof.
  intros HS [Hlen Hfr].
  assert (g !! length t = None) as Hg.
  { destruct (g !! length t) as [st|] eqn:E; [|done]. destruct (si_ok _ _ _ HS _ _ E) as (p & Hp & _).
    apply lookup_lt_Some in Hp. lia. }
  assert (set_stage (length t) None g = g) as <-.
  { apply map_eq. intros m. unfold set_stage. destruct (decide (m = length t)) as [->|Hne].
    - by rewrite lookup_partial_alter_eq.
    - by rewrite lookup_partial_alter_ne. }
  eapply sinv_update; [done|done| | |done| |done].
  - intros p Hp. apply lookup_lt_Some in Hp. lia.
  - auto.
  - intros i q' [->|[E|E]] Hq; [|by rewrite Hg in E|done]. apply lookup_lt_Some in Hq. lia.
Qed.

(** The process in slot [me] changes its own slot only, and is in [exit]. *)
Lemma sinv_self g t ip me p p' st :
  sinv g t ip -> t !! me = Some p -> alive p -> alive p' -> fork_slot st = None ->
  g !! me ≫= fork_slot = None -> stage_ok (<[me := p']> t) ip me p' st ->
  sinv (set_stage me (Some st) g) (<[me := p']> t) ip.
Proof.
  intros HS Hme Ha Ha' Hst Hg Hok. eapply sinv_update; [done|apply length_insert| | | | |].
  - intros p0 Hp0. simplify_eq. by apply alive_dec_not.
  - intros i q Ho Hq. exists q. rewrite (lookup_upd _ _ _ _ _ _ Hme).
    split; [right; split; [|done]|apply frame1_refl]. intros ->. apply Ho. by left.
  - intros st0 [= <-]. exists p'. rewrite (lookup_upd _ _ _ _ _ _ Hme). auto.
  - intros i q' [->|[E|E]] Hq He; [|congruence|simpl in E; congruence].
    rewrite (lookup_upd _ _ _ _ _ _ Hme) in Hq. destruct Hq as [[_ ->]|[? _]]; [|done].
    by destruct (alive_dec_not _ Ha').
  - intros i E. simpl in E. congruence.
Qed.

(** The process in slot [me] changes the slot [np] that it fills, to stage [o]. *)
Lemma sinv_fill g t ip me p np q q' o :
  sinv g t ip -> t !! me = Some p -> alive p -> t !! np = Some q ->
  (g !! me ≫= fork_slot = Some np \/ g !! me = None /\ p_state q = UNUSED) ->
  match o with
  | Some st => fork_slot st = Some np /\ p_state q' = EMBRYO /\ stage_ok (<[np := q']> t) ip me p st
  | None => p_state q' <> EMBRYO
  end ->
  sinv (set_stage me o g) (<[np := q']> t) ip.
Proof.
  intros HS Hme Ha Hnp Hg Ho.
  assert (p_state q = EMBRYO \/ p_state q = UNUSED) as Hq.
  { destruct Hg as [Hg|[_ Hg]]; [left|by right]. destruct (g !! me) as [st|] eqn:Eg; [|done].
    destruct (si_ok _ _ _ HS _ _ Eg) as (p0 & _ & _ & Hst).
    destruct (stage_slot _ _ _ _ _ _ Hst Hg) as (q0 & ? & ?). congruence. }
  assert (me <> np) as Hne.
  { intros ->. simplify_eq. destruct (alive_not _ Ha) as (? & ? & _). naive_solver. }
  assert (forall i, o ≫= fork_slot = Some i -> i = np) as Hoi.
  { intros i E. destruct o as [st|]; [|done]. simpl in E. destruct Ho as [E' _]. congruence. }
  assert (forall i, g !! me ≫= fork_slot = Some i -> i = np) as Hgi.
  { intros i E. destruct Hg as [E'|[E' _]]; [congruence|]. by rewrite E' in E. }
  eapply sinv_update; [done|apply length_insert| | | | |].
  - intros p0 Hp0. simplify_eq. by apply alive_dec_not.
  - intros i x Hn Hx. destruct (decide (i = np)) as [->|Hni].
    + exists q'. rewrite (lookup_upd _ _ _ _ _ _ Hnp). split; [by left|]. destruct o as [st|].
      * destruct Hn. right. right. simpl. tauto.
      * destruct Hg as [Hg|[_ Hg]]; [destruct Hn; right; by left|]. simplify_eq.
        split_and!; [by intros [? _]%alive_not|congruence|done].
    + exists x. rewrite (lookup_upd _ _ _ _ _ _ Hnp). auto using frame1_refl.
  - intros st ->. exists p. rewrite (lookup_upd _ _ _ _ _ _ Hnp). split_and!; [by right|done|tauto].
  - intros i x Hn Hx He. rewrite (lookup_upd _ _ _ _ _ _ Hnp) in Hx. destruct Hx as [[-> ->]|[Hni Hx]].
    + destruct o as [st|]; [|done]. simpl. tauto.
    + destruct Hn as [->|[E|E]]; [|by destruct (Hni (Hgi i E))|by destruct (Hni (Hoi i E))].
      simplify_eq. by destruct (alive_dec_not _ Ha).
  - intros i E. rewrite (Hoi i E). destruct Hg as [?|[_ ?]]; [by left|right; eauto].
Qed.

(** * The steps keep the invariant *)

Lemma running_alive p : p_state p = RUNNING -> alive p.
Proof. intros E. unfold alive, busy. auto. Qed.

(** Replacing one slot that is not running, before and after. *)
Lemma cinv_slot L T n ip f C Q (w : W) c k i p p' n' f' w' :
  cinv (PState L T n ip f C Q w) -> C !! c = Some k -> T !! i = Some p ->
  p_state p <> RUNNING -> p_state p' <> RUNNING -> (waiting p' -> ctx_ok L (p_context p')) ->
  cinv (PState L (<[i := p']> T) n' ip f' (<[c := settle k]> C) Q w').
Proof.
  intros HC Hc Hi Hs Hs' Hcx. eapply cinv_settle; [done|done| | |].
  - intros j q. rewrite (lookup_upd _ _ _ _ _ _ Hi). intros [[-> ->]|[_ Hj]] E; [done|eauto].
  - intros j q Hj E. exists q. rewrite (lookup_upd _ _ _ _ _ _ Hi). split; [|done].
    right. split; [congruence|done].
  - intros j q. rewrite (lookup_upd _ _ _ _ _ _ Hi). intros [[-> ->]|[_ Hj]] E; [auto|].
    by apply (ci_ctx _ HC j q).
Qed.

(** The same without the lock. *)
Lemma cinv_store L T n ip f C Q (w : W) i p p' w' :
  cinv (PState L T n ip f C Q w) -> T !! i = Some p ->
  (p_state p' = RUNNING <-> p_state p = RUNNING) -> (waiting p' -> ctx_ok L (p_context p')) ->
  cinv (PState L (<[i := p']> T) n ip f C Q w').
Proof.
  intros [Hpos Hlk Hcpu Hrun Hhas Hone Hlks Hctx] Hi Hs Hcx. simpl in *.
  split; simpl; try done; try setoid_rewrite (lookup_upd _ _ _ _ _ _ Hi).
  - intros c k j Hc Hp. destruct (Hrun c k j Hc Hp) as (q & Hq & Hr).
    destruct (decide (j = i)) as [->|Hne]; [|eauto]. simplify_eq. exists p'. tauto.
  - intros j q [[-> ->]|[Hne Hj]] Hr; [|eauto]. apply (Hhas i p); tauto.
  - intros j q [[-> ->]|[Hne Hj]] Hw; [auto|eauto].
Qed.

(** A slot that [fork] fills changes, and keeps its pid. *)
Lemma tinv_fill t np ip i q q' :
  tinv t np ip -> t !! i = Some q -> p_state q = EMBRYO -> p_pid q' = p_pid q ->
  match p_state q' with
  | UNUSED => p_parent q' = None /\ no_files q'
  | EMBRYO => (p_parent q' = None /\ no_files q') \/ has_parent t q'
  | RUNNABLE => has_parent t q'
  | _ => False
  end ->
  length (p_ofile q') = NOFILE -> tinv (<[i := q']> t) np ip.
Proof.
  intros HT Hi He Hp Hs Hl. assert (p_state q <> UNUSED) as Hu by congruence.
  eapply tinv_fresh; [done|reflexivity|done|by right|done| |done]. intros _. rewrite Hp.
  split; [by apply (ti_pid _ _ _ HT i q)|]. intros j x Hne Hx Hux E. apply Hne.
  by eapply (ti_uniq _ _ _ HT j i x q).
Qed.

Lemma embryo_bare t np ip i q :
  tinv t np ip -> t !! i = Some q -> p_state q = EMBRYO -> p_parent q = None -> no_files q.
Proof.
  intros HT Hi He Hp. destruct (ti_embryo _ _ _ HT i q Hi He) as [[_ ?]|(x & y & ? & _)]; [done|congruence].
Qed.

Lemma bare_files q : no_files q -> length (p_ofile q) = NOFILE -> p_ofile q = replicate NOFILE None.
Proof. intros [Hf _] Hl. symmetry. apply replicate_as_Forall. split; [done|]. by eapply Forall_impl. Qed.

Lemma set_stage_id me o g : g !! me = o -> set_stage me o g = g.
Proof. intros <-. by apply partial_alter_self. Qed.

(** The invariant of the system. *)
Definition winv s g : Prop := pinv s /\ sinv g (ptable s) (initproc s).

Lemma runner c s me :
  cinv s -> cpu_proc c s = Some me -> exists p, ptable s !! me = Some p /\ p_state p = RUNNING.
Proof.
  intros HC E. unfold cpu_proc in E. destruct (cpus s !! c) as [k|] eqn:Hc; [|done]. by apply (ci_run _ HC c k).
Qed.

Lemma step_fork c me r s g s' :
  winv s g -> running c s -> cpu_proc c s = Some me -> g !! me = None -> nextpid s < 2 ^ 31 - 1 ->
  allocproc_find c s = Ok r s' -> winv s' (set_stage me (ForkStack <$> r) g).
Proof.
  intros [HI HS] Hrun Hcm Hg Hn E.
  destruct (running_calm c s HI Hrun) as (k & me' & p & Hcalm & Hcp & Hme & Hs & Hlt & Hof).
  destruct HI as [HT HC]. destruct s as [L T n ip f C Q w]. simpl in *. pose proof Hcalm as (_ & Hc & _).
  assert (me' = me) as -> by (unfold cpu_proc in Hcm; simpl in Hcm; rewrite Hc in Hcm; simpl in Hcm; congruence).
  apply (allocproc_find_inv c k) in E; [|done|apply (ti_len _ _ _ HT)]. destruct r as [i|].
  - destruct E as (q & Hi & Hu & ->). assert (i32 (n + 1) = n + 1) as ->.
    { destruct (ti_pid _ _ _ HT me p Hme); [by rewrite Hs|]. unfold i32. rewrite Z.mod_small; lia. }
    destruct (ti_unused _ _ _ HT i q Hi Hu) as [Hpar Hnf]. split; [split|]; simpl.
    + eapply tinv_fresh; [done|lia|done|by left|by left| |by apply (ti_ofile _ _ _ HT i q)].
      intros _. destruct (ti_pid _ _ _ HT me p Hme); [by rewrite Hs|]. split; [simpl; lia|].
      intros j x _ Hx Hux. pose proof (ti_pid _ _ _ HT j x Hx Hux). simpl. lia.
    + eapply cinv_slot; eauto; [congruence|]. intros [?|?]; done.
    + eapply sinv_fill; eauto using running_alive. split_and!; [done|done|].
      eexists. rewrite list_lookup_insert_eq by (by eapply lookup_lt_Some). done.
  - subst s'. simpl. rewrite set_stage_id by done. split; [split|]; try done.
    eapply cinv_settle; eauto. intros j q Hj. by apply (ci_ctx _ HC j q).
Qed.

(** A step of [fork] outside of the critical sections. *)
Lemma winv_fill L T n ip f C Q (w : W) g c me st np q q' w' o :
  winv (PState L T n ip f C Q w) g -> cpu_proc c (PState L T n ip f C Q w) = Some me ->
  g !! me = Some st -> fork_slot st = Some np -> T !! np = Some q ->
  p_state q = EMBRYO -> p_pid q' = p_pid q -> length (p_ofile q') = NOFILE ->
  match o with
  | Some st' => fork_slot st' = Some np /\ p_state q' = EMBRYO /\
      ((p_parent q' = None /\ no_files q') \/ p_parent q' = Some me) /\
      forall p, T !! me = Some p -> stage_ok (<[np := q']> T) ip me p st'
  | None => p_state q' = UNUSED /\ p_parent q' = None /\ no_files q'
  end ->
  winv (PState L (<[np := q']> T) n ip f C Q w') (set_stage me o g).
Proof.
  intros [[HT HC] HS] Hcm Hg Hst Hnp He Hpid Hl Ho. simpl in *.
  destruct (runner _ _ _ HC Hcm) as (p & Hme & Hr). simpl in Hme.
  assert (p_state q' = EMBRYO \/ p_state q' = UNUSED) as Hq' by (destruct o; tauto).
  split; [split|]; simpl.
  - eapply tinv_fill; eauto. destruct o as [st'|].
    + destruct Ho as (_ & -> & [?|?] & _); [by left|right]. exists me, p. auto using running_alive.
    + by destruct Ho as (-> & ?).
  - eapply cinv_store; eauto; [|intros [?|?]; destruct Hq'; congruence].
    split; intros; [destruct Hq'; congruence|congruence].
  - eapply sinv_fill; eauto using running_alive.
    + left. by rewrite Hg.
    + destruct o as [st'|]; [split_and!; try tauto; by apply Ho|]. destruct Ho as (-> & _). done.
Qed.

(** The slot of a process in [fork]. *)
Lemma winv_slot s g me st :
  winv s g -> g !! me = Some st -> exists p, ptable s !! me = Some p /\ alive p /\ stage_ok (ptable s) (initproc s) me p st.
Proof. intros [_ HS]. apply (si_ok _ _ _ HS). Qed.

Lemma step_fork_stack c me np r s g s' :
  winv s g -> cpu_proc c s = Some me -> g !! me = Some (ForkStack np) ->
  allocproc_stack np s = Ok r s' -> winv s' (set_stage me (ForkVm <$> r) g).
Proof.
  intros HI Hcm Hg E. destruct (winv_slot _ _ _ _ HI Hg) as (p & Hme & Ha & q & Hnp & He & Hpar).
  pose proof HI as [[HT HC] HS]. destruct s as [L T n ip f C Q w]. simpl in *.
  pose proof (embryo_bare _ _ _ _ _ HT Hnp He Hpar) as Hnf. pose proof (ti_ofile _ _ _ HT np q Hnp) as Hl.
  apply (allocproc_stack_inv np q) in E as (ks & w' & _ & E); [|done]. destruct r as [i|].
  - destruct E as (-> & Hks & ->). eapply winv_fill; eauto; try done. split_and!; try done; [by left|].
    intros p0 _. eexists. rewrite list_lookup_insert_eq by (by eapply lookup_lt_Some). done.
  - subst s'. eapply winv_fill; eauto; done.
Qed.

Lemma step_fork_vm c me np r s g s' :
  winv s g -> cpu_proc c s = Some me -> g !! me = Some (ForkVm np) ->
  fork_vm me np s = Ok r s' -> winv s' (set_stage me (if r then Some (ForkFd np 0) else None) g).
Proof.
  intros HI Hcm Hg E. destruct (winv_slot _ _ _ _ HI Hg) as (p & Hme & Ha & q & Hnp & He & Hpar & Hctx).
  pose proof HI as [[HT HC] HS]. destruct s as [L T n ip f C Q w]. simpl in *.
  pose proof (embryo_bare _ _ _ _ _ HT Hnp He Hpar) as Hnf. pose proof (ti_ofile _ _ _ HT np q Hnp) as Hl.
  apply (fork_vm_inv me np p q) in E; [|done..]. destruct E as (pg & w' & _ & E). destruct r.
  - destruct E as (_ & ->). eapply winv_fill; eauto; try done. split_and!; try done; [by right|].
    intros p0 Hp0. simplify_eq. eexists. rewrite list_lookup_insert_eq by (by eapply lookup_lt_Some).
    split_and!; [done|done| |lia]. split; try done. exists []. simpl. split; [|by constructor].
    by apply bare_files.
  - destruct E as [w2 ->]. eapply winv_fill; eauto; done.
Qed.

Lemma step_fork_fd c me np i s g s' :
  winv s g -> cpu_proc c s = Some me -> g !! me = Some (ForkFd np i) -> (i < NOFILE)%nat ->
  fork_fd me np (Z.of_nat i) s = Ok tt s' -> winv s' (set_stage me (Some (ForkFd np (i + 1))) g).
Proof.
  intros HI Hcm Hg Hi E. destruct (winv_slot _ _ _ _ HI Hg) as (p & Hme & Ha & q & Hnp & He & Hh & _).
  pose proof HI as [[HT HC] HS]. destruct s as [L T n ip f C Q w]. simpl in *.
  pose proof (ti_ofile _ _ _ HT np q Hnp) as Hl. pose proof (ti_ofile _ _ _ HT me p Hme) as Hlp.
  destruct Hh as [H1 H2 H3 H4 (fl & Hfl & Hdup)].
  assert (length fl = i) as Hlf.
  { apply Forall2_length in Hdup. rewrite length_take in Hdup. lia. }
  destruct (lookup_lt_is_Some_2 (p_ofile p) i) as [x Hx]; [lia|].
  eapply (fork_fd_inv me np p q) in E; [|done..|].
  2:{ rewrite Hfl, lookup_app_r by lia. apply lookup_replicate_2. lia. }
  destruct E as (b & w' & Eb & ->). eapply winv_fill; eauto; try done.
  { simpl. by rewrite length_insert. }
  split_and!; try done; [by right|]. intros p0 Hp0. simplify_eq.
  eexists. rewrite list_lookup_insert_eq by (by eapply lookup_lt_Some).
  split_and!; [done|done| |lia]. split; try done. exists (fl ++ [b]). simpl. split.
  - rewrite Hfl, insert_app_r_alt, Nat.sub_diag by lia.
    replace (NOFILE - length fl)%nat with (S (NOFILE - (length fl + 1))) by lia. cbn [replicate].
    by rewrite <- app_assoc.
  - rewrite Nat.add_1_r, (take_S_r _ _ x) by done. apply Forall2_app; [done|].
    constructor; [|constructor]. by exists w, w'.
Qed.

Lemma step_fork_cwd c me np s g s' :
  winv s g -> cpu_proc c s = Some me -> g !! me = Some (ForkFd np NOFILE) ->
  fork_cwd me np s = Ok tt s' -> winv s' (set_stage me (Some (ForkRun np)) g).
Proof.
  intros HI Hcm Hg E. destruct (winv_slot _ _ _ _ HI Hg) as (p & Hme & Ha & q & Hnp & He & Hh & _).
  pose proof HI as [[HT HC] HS]. destruct s as [L T n ip f C Q w]. simpl in Hme, Hnp, HT.
  apply (fork_cwd_inv me np p q) in E; [|done..]. destruct E as (d & d' & w' & Hd & Ed & ->). destruct Hh as [H1 H2 H3 H4 H5].
  eapply winv_fill; eauto; try done; [by apply (ti_ofile _ _ _ HT np q)|].
  split_and!; try done; [by right|]. intros p0 Hp0. simplify_eq.
  eexists. rewrite list_lookup_insert_eq by (by eapply lookup_lt_Some).
  split_and!; try done. exists d, d', w, w'. done.
Qed.

Lemma step_fork_run c me np r s g s' :
  winv s g -> running c s -> cpu_proc c s = Some me -> g !! me = Some (ForkRun np) ->
  fork_run c np s = Ok r s' -> winv s' (set_stage me None g).
Proof.
  intros HW Hrun Hcm Hg E. destruct (winv_slot _ _ _ _ HW Hg) as (p & Hme & Ha & q & Hnp & He & Hh & _).
  pose proof HW as [HI HS]. destruct (running_calm c s HI Hrun) as (k & me' & p' & Hcalm & Hcp & Hme' & _).
  destruct HI as [HT HC]. destruct s as [L T n ip f C Q w]. cbn [locks ptable cpus nextpid initproc] in *.
  eapply (fork_run_inv c k) in E; [|done..]. destruct E as (_ & ->). pose proof Hcalm as (_ & Hc & _).
  destruct Hh as [H1 H2 H3 H4 H5]. split; [split|]; simpl.
  - eapply tinv_fill; eauto; try done; [|by apply (ti_ofile _ _ _ HT np q)]. exists me, p. done.
  - eapply cinv_slot; [exact HC|exact Hc|exact Hnp|congruence|done|]. simpl. by rewrite H2.
  - eapply sinv_fill; [exact HS|exact Hme|done|exact Hnp|left; by rewrite Hg|done].
Qed.

Lemma wake_running ch p : p_state (wake ch p) = RUNNING <-> p_state p = RUNNING.
Proof. destruct (wake_fields ch p) as (_ & _ & _ & _ & _ & [-> |[-> ->]]); done. Qed.

Lemma wake_waiting ch p :
  waiting (wake ch p) -> waiting p /\ p_context (wake ch p) = p_context p.
Proof.
  unfold waiting, wake. destruct (bool_decide (p_state p = SLEEPING)) eqn:E; simpl; [|done].
  apply bool_decide_eq_true in E. destruct (bool_decide (p_chan p = ch)); simpl; auto.
Qed.

Lemma adopted_running me ip T i p' :
  adopted me ip T !! i = Some p' ->
  exists p, T !! i = Some p /\ (p_state p' = RUNNING <-> p_state p = RUNNING) /\
    (waiting p' -> waiting p /\ p_context p' = p_context p).
Proof.
  unfold adopted. intros Hi.
  assert (exists p, T !! i = Some p /\ (p' = adopt me ip p \/ p' = wake (CProc <$> ip) (adopt me ip p)))
    as (p & Hp & Hor).
  { destruct (has_dead_child T me).
    - rewrite <- list_fmap_compose, list_lookup_fmap, fmap_Some in Hi. naive_solver.
    - rewrite list_lookup_fmap, fmap_Some in Hi. naive_solver. }
  exists p. split; [done|].
  assert (p_state (adopt me ip p) = p_state p /\ p_context (adopt me ip p) = p_context p) as [Es Ec].
  { unfold adopt. by destruct (bool_decide _). }
  destruct Hor as [-> | ->].
  - unfold waiting. by rewrite Es, Ec.
  - rewrite wake_running, Es. split; [done|]. intros Hw. apply wake_waiting in Hw as [Hw ->].
    unfold waiting in *. by rewrite Es, Ec in *.
Qed.

(** A step of [exit] outside of the critical section. *)
Lemma winv_self L T n ip f C Q (w : W) g c me p p' w' st :
  winv (PState L T n ip f C Q w) g -> cpu_proc c (PState L T n ip f C Q w) = Some me ->
  g !! me ≫= fork_slot = None -> T !! me = Some p -> p_state p' = p_state p -> p_parent p' = p_parent p ->
  p_pid p' = p_pid p -> length (p_ofile p') = NOFILE ->
  fork_slot st = None -> stage_ok (<[me := p']> T) ip me p' st ->
  winv (PState L (<[me := p']> T) n ip f C Q w') (set_stage me (Some st) g).
Proof.
  intros [[HT HC] HS] Hcm Hg Hme Hs Hp Hpid Hl Hst Hok. simpl in *.
  destruct (runner _ _ _ HC Hcm) as (p0 & Hme0 & Hr). simpl in Hme0. simplify_eq.
  split; [split|]; simpl.
  - eapply tinv_benign1; [done|exact Hme|]. split_and!; try done; [|by left|congruence|intros [E _]; congruence].
    right. split; [by apply running_alive|]. rewrite Hl. symmetry. by apply (ti_ofile _ _ _ HT me p).
  - eapply cinv_store; eauto; [by rewrite Hs|]. intros [?|?]; congruence.
  - eapply sinv_self; eauto; apply running_alive; congruence.
Qed.

Lemma step_exit c me v s g :
  winv s g -> cpu_proc c s = Some me -> g !! me = None -> initproc s <> Some me ->
  winv s (set_stage me (Some (ExitFd v 0)) g).
Proof.
  intros HW Hcm Hg Hip. destruct (runner c s me) as (p & Hme & Hr); [by apply HW|done|].
  destruct s as [L T n ip f C Q w]. pose proof HW as [[HT _] _]. cbn [ptable nextpid initproc] in *.
  rewrite <- (list_insert_id T me p) by done. eapply winv_self; eauto; try done.
  - by rewrite Hg.
  - by apply (ti_ofile _ _ _ HT me p).
  - split_and!; [done|lia|]. lia.
Qed.

Lemma step_exit_fd c me v i s g s' :
  winv s g -> cpu_proc c s = Some me -> g !! me = Some (ExitFd v i) -> (i < NOFILE)%nat ->
  exit_fd me (Z.of_nat i) s = Ok tt s' -> winv s' (set_stage me (Some (ExitFd v (i + 1))) g).
Proof.
  intros HW Hcm Hg Hi E. destruct (winv_slot _ _ _ _ HW Hg) as (p & Hme & Ha & Hip & _ & Hfd).
  pose proof HW as [[HT HC] _]. destruct s as [L T n ip f C Q w]. cbn [ptable nextpid initproc] in *.
  pose proof (ti_ofile _ _ _ HT me p Hme) as Hl.
  apply (exit_fd_inv me p) in E; [|done]. destruct E as [w' ->]. eapply winv_self; eauto; try done.
  - by rewrite Hg.
  - simpl. by rewrite length_insert.
  - split_and!; [done|lia|]. intros fd Hlt. simpl. destruct (decide (fd = i)) as [->|Hne].
    + apply list_lookup_insert_eq. lia.
    + rewrite list_lookup_insert_ne by done. apply Hfd. lia.
Qed.

Lemma step_exit_cwd c me v s g s' :
  winv s g -> cpu_proc c s = Some me -> g !! me = Some (ExitFd v NOFILE) ->
  exit_cwd me s = Ok tt s' -> winv s' (set_stage me (Some (ExitDie v)) g).
Proof.
  intros HW Hcm Hg E. destruct (winv_slot _ _ _ _ HW Hg) as (p & Hme & Ha & Hip & _ & Hfd).
  pose proof HW as [[HT HC] _]. destruct s as [L T n ip f C Q w]. cbn [ptable nextpid initproc] in *.
  pose proof (ti_ofile _ _ _ HT me p Hme) as Hl.
  apply (exit_cwd_inv me p) in E; [|done]. destruct E as [w' ->]. eapply winv_self; eauto; try done.
  - by rewrite Hg.
  - split; [done|]. split; [|done]. apply Forall_lookup. intros fd x Hx. simpl in Hx.
    rewrite Hfd in Hx; [congruence|]. apply lookup_lt_Some in Hx. lia.
Qed.

Lemma adopted_kept me ip T i p' :
  adopted me ip T !! i = Some p' -> exists p, T !! i = Some p /\ kept p p' /\ p_context p' = p_context p.
Proof.
  unfold adopted. intros Hi.
  assert (forall ch p, kept p (wake ch p) /\ p_context (wake ch p) = p_context p) as Hw.
  { intros ch p. unfold wake. by destruct (_ && _). }
  assert (forall p, kept p (adopt me ip p) /\ p_context (adopt me ip p) = p_context p) as Ha.
  { intros p. unfold adopt. by destruct (bool_decide _). }
  destruct (has_dead_child T me).
  - rewrite <- list_fmap_compose, list_lookup_fmap, fmap_Some in Hi. destruct Hi as (p & Hp & ->).
    exists p. split; [done|]. unfold compose.
    destruct (Hw (CProc <$> ip) (adopt me ip p)) as [(A1 & A2 & A3 & A4 & A5) ->].
    destruct (Ha p) as [(B1 & B2 & B3 & B4 & B5) ->]. split; [|done]. split_and!; congruence.
  - rewrite list_lookup_fmap, fmap_Some in Hi. destruct Hi as (p & Hp & ->). exists p. auto.
Qed.

Lemma wake_frame1 ch p : frame1 p (wake ch p) /\ p_context (wake ch p) = p_context p.
Proof.
  unfold wake. destruct (bool_decide (p_state p = SLEEPING)) eqn:E; simpl; [|by auto using frame1_refl].
  apply bool_decide_eq_true in E. destruct (bool_decide _); [|by auto using frame1_refl].
  split; [|done]. apply frame1_alive; [unfold alive, busy; auto|unfold alive, busy; auto|done].
Qed.

(** The table that the critical section of [exit] leaves, apart from its own slot. *)
Lemma die_frame1 me ip ch T i p p' :
  T !! i = Some p -> (p_state p = EMBRYO -> p_parent p <> Some me) ->
  adopted me ip (wake ch <$> T) !! i = Some p' -> frame1 p p'.
Proof.
  intros Hi He Hp'. destruct (adopted_at _ _ _ _ _ Hp') as (q & Hq & Hpar & _ & _ & _ & _ & Hst & _).
  destruct (adopted_kept _ _ _ _ _ Hp') as (q' & Hq' & Hk & Hc).
  rewrite list_lookup_fmap, Hi in Hq, Hq'. simpl in Hq, Hq'. injection Hq as <-. injection Hq' as <-.
  destruct (wake_fields ch p) as (Wp & _ & _ & _ & _ & Ws). destruct (wake_frame1 ch p) as [(F1 & F2 & F3) Wc].
  assert (forall a b c, kept a b -> kept b c -> kept a c) as Htr.
  { intros a b c (A1 & A2 & A3 & A4 & A5) (B1 & B2 & B3 & B4 & B5). split_and!; congruence. }
  split_and!.
  - intros Ha. destruct (F1 Ha) as [Ha' Hk']. split; [|by eapply Htr]. unfold alive in *.
    destruct Hst as [-> |[_ ->]]; [done|]. unfold busy. auto.
  - intros Hem. destruct (F2 Hem) as (Hem' & Hk' & Hp & Hx). split_and!.
    + destruct Hst as [-> |[? _]]; congruence.
    + by eapply Htr.
    + rewrite Hpar, bool_decide_eq_false_2; [done|]. rewrite Wp. by apply He.
    + congruence.
  - intros Hem. apply F3. destruct Hst as [<-|[_ ?]]; congruence.
Qed.

Lemma step_exit_die c me v s g s' :
  winv s g -> running c s -> cpu_proc c s = Some me -> g !! me = Some (ExitDie v) ->
  exit_die c me v s = Ok tt s' -> winv s' (set_stage me None g).
Proof.
  intros HW Hrun Hcm Hg E. destruct (winv_slot _ _ _ _ HW Hg) as (p & Hme & Ha & Hip & Hnf).
  pose proof HW as [HI HS]. destruct (running_calm c s HI Hrun) as (k & me' & p' & Hcalm & Hcp & Hme' & Hs & Hlt & Hof).
  destruct HI as [HT HC]. destruct s as [L T n ip f C Q w]. cbn [locks ptable cpus nextpid initproc] in *.
  pose proof Hcalm as (Hl0 & Hc & _). pose proof (ti_len _ _ _ HT) as Hlen.
  assert (me' = me) as -> by (unfold cpu_proc in Hcm; simpl in Hcm; rewrite Hc in Hcm; simpl in Hcm; congruence).
  simplify_eq. eapply (exit_die_inv c k me p) in E; [|done..]. destruct E as (y & Hy & ->).
  set (T2 := wake (CProc <$> p_parent p) <$> T) in *.
  assert (T2 !! me = Some p) as Hme2.
  { unfold T2. rewrite list_lookup_fmap, Hme. simpl. unfold wake. by rewrite Hs. }
  destruct (adopted_at _ _ _ _ _ Hy) as (p2 & E2 & Hpar & Efl & Ecw & Epid & _ & _ & _).
  rewrite Hme2 in E2. injection E2 as <-.
  pose proof (ti_self _ _ _ HT me p Hme) as Hself. rewrite bool_decide_eq_false_2 in Hpar by congruence.
  assert (length (adopted me ip T2) = length T) as Hla.
  { unfold adopted, T2. destruct (has_dead_child _ _); by rewrite ?length_fmap. }
  split; [split|]; cbn [ptable nextpid initproc].
  - apply (tinv_exit T2 n ip me p); try done.
    + by apply tinv_wake.
    + intros q pq Hq Hpq Hw. unfold T2 in Hpq. rewrite list_lookup_fmap, fmap_Some in Hpq.
      destruct Hpq as (pq0 & _ & ->). apply (wake_awake (CProc <$> p_parent p) q pq0).
      split; [done|]. by rewrite Hq.
    + unfold no_files in *. simpl. by rewrite Efl, Ecw.
    + simpl. by rewrite Efl.
  - assert (forall i p', <[me := set_context CtxExit (set_state ZOMBIE (set_exitstat v y))]> (adopted me ip T2) !! i = Some p' ->
      (i = me /\ p_state p' = ZOMBIE) \/ (i <> me /\ exists q, T !! i = Some q /\
        (p_state p' = RUNNING <-> p_state q = RUNNING) /\ (waiting p' -> waiting q /\ p_context p' = p_context q))) as Hup.
    { intros i p'. rewrite (lookup_upd _ _ _ _ _ _ Hy). intros [[-> ->]|[Hne Hi]]; [by left|right].
      split; [done|]. destruct (adopted_running _ _ _ _ _ Hi) as (q2 & Hq2 & R2 & W2).
      unfold T2 in Hq2. rewrite list_lookup_fmap, fmap_Some in Hq2.
      destruct Hq2 as (q & Hq & ->). exists q. split; [done|]. rewrite wake_running in R2. split; [done|].
      intros Hw. apply W2 in Hw as [Hw ->]. by apply wake_waiting. }
    eapply cinv_switch; [exact HC|done|done|done|done| | |].
    + intros i p' Hi Hr. destruct (Hup i p' Hi) as [[-> Hz]|(Hne & q & Hq & R & _)]; [congruence|].
      split; [done|]. exists q. tauto.
    + intros i q Hi Hne Hr.
      destruct (lookup_lt_is_Some_2 (<[me := set_context CtxExit (set_state ZOMBIE (set_exitstat v y))]> (adopted me ip T2)) i) as [p' Hp'].
      { rewrite length_insert, Hla. by apply lookup_lt_Some in Hi. }
      exists p'. split; [done|]. destruct (Hup i p' Hp') as [[-> _]|(_ & q0 & Hq & R & _)]; [done|].
      simplify_eq. tauto.
    + intros i p' Hi Hw. destruct (Hup i p' Hi) as [[-> Hz]|(Hne & q & Hq & _ & R)].
      { destruct Hw; congruence. }
      apply R in Hw as [Hw ->]. by apply (ci_ctx _ HC i q).
  - eapply sinv_update; [exact HS|by rewrite length_insert|..].
    + intros p0 Hp0. simplify_eq. by apply alive_dec_not.
    + intros i q Ho Hq. assert (i <> me) as Hne by (intros ->; apply Ho; by left).
      destruct (lookup_lt_is_Some_2 (adopted me ip T2) i) as [q' Hq']; [rewrite Hla; by eapply lookup_lt_Some|].
      exists q'. rewrite (lookup_upd _ _ _ _ _ _ Hy). split; [by right|]. eapply die_frame1; [done| |done].
      intros He Hpq. destruct (si_embryo _ _ _ HS i q Hq He) as (m & st & Hgm & Hsl).
      destruct (si_ok _ _ _ HS m st Hgm) as (pm & _ & _ & Hok).
      assert (m = me) as ->.
      { destruct st; simpl in Hok, Hsl; try done; destruct Hok as (q0 & Hq0 & _ & Hok); injection Hsl as ->;
          rewrite Hq in Hq0; injection Hq0 as <-;
          first [congruence | destruct Hok as [[] _]; congruence | destruct Hok as [Hok _]; congruence]. }
      rewrite Hg in Hgm. injection Hgm as <-. done.
    + done.
    + intros i q' [->|[E|E]] Hq He; [|by rewrite Hg in E|done].
      rewrite (lookup_upd _ _ _ _ _ _ Hy) in Hq. destruct Hq as [[_ ->]|[? _]]; done.
    + done.
Qed.

(** The other steps leave the stages as they are. *)
Definition keeps s s' : Prop := pinv s' /\ initproc s' = initproc s /\ frame (ptable s) (ptable s').

Lemma keeps_winv s s' g : winv s g -> keeps s s' -> winv s' g.
Proof. intros [_ HS] (HI & Hip & Hf). split; [done|]. rewrite Hip. by eapply sinv_frame. Qed.

Lemma keeps_trans s s1 s2 : keeps s s1 -> keeps s1 s2 -> keeps s s2.
Proof.
  intros (_ & E1 & Hl1 & F1) (HI & E2 & Hl2 & F2). split_and!; [done|congruence|]. split; [congruence|].
  intros i p Hi. destruct (F1 i p Hi) as (p1 & Hi1 & A1 & A2 & A3). destruct (F2 i p1 Hi1) as (p2 & Hi2 & B1 & B2 & B3).
  exists p2. split; [done|].
  assert (forall a b c, kept a b -> kept b c -> kept a c) as Htr.
  { intros a b c (X1 & X2 & X3 & X4 & X5) (Y1 & Y2 & Y3 & Y4 & Y5). split_and!; congruence. }
  split_and!.
  - intros Ha. destruct (A1 Ha) as [Ha1 Hk1]. destruct (B1 Ha1) as [Ha2 Hk2]. eauto.
  - intros He. destruct (A2 He) as (He1 & Hk1 & P1 & C1). destruct (B2 He1) as (He2 & Hk2 & P2 & C2).
    split_and!; [done|by eapply Htr|congruence|congruence].
  - auto.
Qed.

(** A step that only replaces the running process's slot, at a switch. *)
Lemma switch_slot L T n ip f C Q (w : W) c k me p p' w' b :
  pinv (PState L T n ip f C Q w) -> calm c k L C -> c_proc k = Some me -> T !! me = Some p ->
  p_state p = RUNNING -> benign1 me p p' (no_dead_child T me) -> p_state p' <> RUNNING ->
  ctx_ok L (p_context p') -> frame1 p p' ->
  keeps (PState L T n ip f C Q w) (PState (<[PTABLE_LOCK := Spinlock true (Some c)]> L) (<[me := p']> T) n ip f
          (<[c := Cpu 1 b false None]> C) (<[c := Some (me + 1)%nat]> Q) w').
Proof.
  intros [HT HC] (Hl0 & Hc & _) Hcp Hme Hs Hb Hs' Hcx Hf. split; [split|split]; simpl; [|..|done|by eapply frame_insert].
  - by eapply tinv_benign1.
  - pose proof (lookup_lt_Some _ _ _ Hme) as Hlt. pose proof (ti_len _ _ _ HT) as Hlen.
    simpl in Hlen. rewrite Hlen in Hlt.
    eapply cinv_switch; [exact HC|done..| | |].
    + intros i q. rewrite (lookup_upd _ _ _ _ _ _ Hme). intros [[-> ->]|[Hne Hi]] E; [done|eauto].
    + intros i q Hi Hne E. exists q. rewrite (lookup_upd _ _ _ _ _ _ Hme). auto.
    + intros i q. rewrite (lookup_upd _ _ _ _ _ _ Hme). intros [[-> ->]|[Hne Hi]] E; [done|].
      by apply (ci_ctx _ HC i q).
Qed.

Lemma no_dead_find me T :
  list_find (dead_child me) T = None -> no_dead_child T me.
Proof.
  intros Hf%list_find_None j p Hj Hp Hs. by apply (Forall_lookup_1 _ _ _ _ Hf Hj).
Qed.

(** The outcomes of the loop of [wait], from a state that is well formed once
    [ptable.lock] is given back. *)
Lemma step_wait_loop c k me p L T n ip f C Q (w : W) st v :
  pinv (PState L T n ip f C Q w) -> calm c k L C -> c_proc k = Some me -> T !! me = Some p ->
  p_state p = RUNNING ->
  (forall r s', wait_loop c st v (at_loop c k L T n ip f C Q w) = Ok r s' -> keeps (PState L T n ip f C Q w) s') /\
  (forall ch s', wait_loop c st v (at_loop c k L T n ip f C Q w) = Sleep ch s' -> keeps (PState L T n ip f C Q w) s').
Proof.
  intros HI Hcalm Hcp Hme Hs. pose proof HI as [HT HC]. pose proof (ti_len _ _ _ HT) as Hlen. simpl in *.
  pose proof Hcalm as (_ & Hc & _).
  split.
  - intros r s' E. eapply (wait_loop_ok c k me p) in E; try done.
    destruct E as [(i & q & w' & Hf & _ & _ & ->)|(_ & _ & _ & ->)].
    + apply list_find_Some in Hf as (Hi & [Hp Hz] & _). split; [split|split]; simpl; [|..|done|].
      * by eapply tinv_reap.
      * apply (cinv_slot L T n ip f C Q w c k i q); try done; [congruence|]. by intros [?|?].
      * eapply frame_insert; [done|]. split_and!; [intros (_ & _ & ?)%alive_not; congruence|congruence|done].
    + split; [split|split]; [done|..|done|apply frame_refl].
      eapply cinv_settle; eauto. intros j q Hj. by apply (ci_ctx _ HC j q).
  - intros ch s' E. eapply (wait_loop_sleep c k me p) in E; try done.
    destruct E as (Hf & _ & _ & _ & ->). eapply switch_slot; try done.
    + split_and!; try done; [by left| |].
      * right. unfold busy. rewrite Hs. auto.
      * intros _. right. by apply no_dead_find.
    + simpl. destruct Hcalm as (Hl0 & _). by eapply lookup_lt_Some.
    + apply frame1_alive; [by apply running_alive|unfold alive, busy; auto|done].
Qed.

Lemma step_wait c st v s :
  pinv s -> running c s ->
  (forall r s', wait c st v s = Ok r s' -> keeps s s') /\ (forall ch s', wait c st v s = Sleep ch s' -> keeps s s').
Proof.
  intros HI Hrun. destruct (running_calm c s HI Hrun) as (k & me & p & Hcalm & Hcp & Hme & Hs & Hlt & Hof).
  destruct s as [L T n ip f C Q w]. simpl in *.
  rewrite (wait_enter c k) by done. by eapply step_wait_loop.
Qed.

Lemma kill_benign i p ok : (p_state p = SLEEPING -> is_Some (p_chan p)) -> benign1 i p (kill_mark p) ok.
Proof.
  intros Hc. unfold kill_mark, benign1, busy, in_wait.
  destruct (bool_decide (p_state p = SLEEPING)) eqn:E; simpl.
  - apply bool_decide_eq_true in E. rewrite E. split_and!; auto. by intros [? _].
  - split_and!; auto.
Qed.

Lemma kill_frame1 p : frame1 p (kill_mark p).
Proof.
  unfold kill_mark. destruct (bool_decide (p_state p = SLEEPING)) eqn:E; [|by split_and!].
  apply bool_decide_eq_true in E. apply frame1_alive; [unfold alive, busy; auto|unfold alive, busy; auto|done].
Qed.

Lemma step_kill c pid r s s' : pinv s -> running c s -> kill c pid s = Ok r s' -> keeps s s'.
Proof.
  intros HI Hrun E. destruct (running_calm c s HI Hrun) as (k & me & p & Hcalm & Hcp & Hme & Hs & Hlt & Hof).
  destruct HI as [HT HC]. destruct s as [L T n ip f C Q w]. simpl in *.
  pose proof Hcalm as (_ & Hc & _).
  rewrite (kill_eq c k) in E by (done || apply (ti_len _ _ _ HT)).
  destruct (list_find _ T) as [[i q]|] eqn:Hf.
  - injection E as <- <-. apply list_find_Some in Hf as (Hi & _ & _).
    assert (p_state (kill_mark q) = RUNNING <-> p_state q = RUNNING) as Hr.
    { unfold kill_mark. destruct (bool_decide (p_state q = SLEEPING)) eqn:E; [|done].
      apply bool_decide_eq_true in E. simpl. rewrite E. done. }
    split; [split|split]; simpl; [|..|done|by eapply frame_insert, kill_frame1].
    + eapply tinv_benign1; [done..|]. apply kill_benign. by eapply ti_sleep.
    + eapply cinv_settle; [done|done| | |].
      * intros j x. rewrite (lookup_upd _ _ _ _ _ _ Hi). intros [[-> ->]|[_ Hj]] Ex; [|eauto].
        exists q. tauto.
      * intros j x Hj Ex. destruct (decide (j = i)) as [->|Hne].
        -- exists (kill_mark q). rewrite (lookup_upd _ _ _ _ _ _ Hi). simplify_eq. tauto.
        -- exists x. rewrite (lookup_upd _ _ _ _ _ _ Hi). tauto.
      * intros j x. rewrite (lookup_upd _ _ _ _ _ _ Hi). intros [[-> ->]|[_ Hj]] Hw.
        -- assert (waiting q /\ p_context (kill_mark q) = p_context q) as [Hw' ->].
           { unfold kill_mark, waiting in *. destruct (bool_decide (p_state q = SLEEPING)) eqn:E; [|done].
             apply bool_decide_eq_true in E. auto. }
           by apply (ci_ctx _ HC i q).
        -- by apply (ci_ctx _ HC j x).
  - injection E as <- <-. split; [split|split]; [done|..|done|apply frame_refl]. eapply cinv_settle; eauto.
    intros j x Hj. by apply (ci_ctx _ HC j x).
Qed.

Lemma step_wakeup c ch s s' : pinv s -> running c s -> wakeup c ch s = Ok tt s' -> keeps s s'.
Proof.
  intros HI Hrun E. destruct (running_calm c s HI Hrun) as (k & me & p & Hcalm & Hcp & Hme & Hs & Hlt & Hof).
  destruct HI as [HT HC]. destruct s as [L T n ip f C Q w]. simpl in *.
  pose proof Hcalm as (_ & Hc & _).
  rewrite (wakeup_eq c k) in E by (done || apply (ti_len _ _ _ HT)). injection E as <-.
  split; [split|split]; simpl; [by apply tinv_wake|..|done|].
  2:{ split; [by rewrite length_fmap|]. intros i q Hi. exists (wake (Some ch) q).
      rewrite list_lookup_fmap, Hi. split; [done|]. apply wake_frame1. }
  eapply cinv_settle; [done|done| | |].
  - intros i p'. rewrite list_lookup_fmap, fmap_Some. intros (q & Hq & ->). rewrite wake_running. eauto.
  - intros i q Hi E. exists (wake (Some ch) q). rewrite list_lookup_fmap, Hi. by rewrite wake_running.
  - intros i p'. rewrite list_lookup_fmap, fmap_Some. intros (q & Hq & ->) Hw.
    apply wake_waiting in Hw as [Hw ->]. by apply (ci_ctx _ HC i q).
Qed.

Lemma step_yield c s s' : pinv s -> running c s -> yield c s = Ok tt s' -> keeps s s'.
Proof.
  intros HI Hrun E. destruct (running_calm c s HI Hrun) as (k & me & p & Hcalm & Hcp & Hme & Hs & Hlt & Hof).
  destruct s as [L T n ip f C Q w]. simpl in *.
  rewrite (yield_eq c k me p) in E by done. injection E as <-.
  eapply switch_slot; try done.
  - split_and!; try done; [by left| |by intros [? _]]. right. unfold busy. rewrite Hs. auto.
  - apply frame1_alive; [by apply running_alive|unfold alive, busy; auto|done].
Qed.

Lemma step_sleep c ch lk s s' :
  pinv s -> running c s -> lk <> PTABLE_LOCK -> (forall i, ch <> CProc i) ->
  (acquire_lk c lk ;; sleep (A:=unit) c ch (Some lk)) s = Sleep ch s' -> keeps s s'.
Proof.
  intros HI Hrun Hlk Hch E.
  destruct (running_calm c s HI Hrun) as (k & me & p & Hcalm & Hcp & Hme & Hs & Hlt & Hof).
  destruct s as [L T n ip f C Q w]. simpl in *.
  destruct (L !! lk) as [l|] eqn:Hl.
  2:{ exfalso. unfold bind, acquire_lk, on_spin in E. cbn [locks] in E. by rewrite Hl in E. }
  assert (l = free_lock) as -> by (eapply (ci_locks _ (proj2 HI)); eauto).
  rewrite (sleep_eq c k me p) in E by done. injection E as <-.
  eapply switch_slot; try done.
  - split_and!; try done; [by left| |].
    + right. unfold busy. rewrite Hs. auto.
    + intros [_ Ew]. simpl in Ew. injection Ew as Ew. by destruct (Hch me).
  - simpl. by eapply lookup_lt_Some.
  - apply frame1_alive; [by apply running_alive|unfold alive, busy; auto|done].
Qed.

(** ** The scheduler *)

(** The scheduler of CPU [c] is inside its loop. *)
Lemma scheduling c i L T n ip f C Q (w : W) :
  cinv (PState L T n ip f C Q w) -> Q !! c = Some (Some i) ->
  exists b, L !! PTABLE_LOCK = Some (Spinlock true (Some c)) /\ C !! c = Some (Cpu 1 b false None) /\
    (forall c' x, c' <> c -> Q !! c' = Some x -> x = None).
Proof.
  intros [Hpos Hlk Hcpu _ _ _ _ _] Hq. simpl in *.
  destruct Hlk as [[_ HQ]|(c' & i' & E & Hqc & _ & HQ)]; [by specialize (HQ _ _ Hq)|].
  destruct (decide (c' = c)) as [->|Hne]; [|by specialize (HQ c _ ltac:(done) Hq)].
  destruct (lookup_lt_is_Some_2 C c) as [k Hk].
  { rewrite <- Hpos. by eapply lookup_lt_Some. }
  pose proof (Hcpu c k Hk) as Hk'. rewrite Hq in Hk'. destruct Hk' as (H1 & H2 & H3).
  exists (c_intena k). split_and!; try done. rewrite Hk. destruct k; simpl in *. congruence.
Qed.

Lemma release_held c b pr L T n ip f C Q (w : W) :
  L !! PTABLE_LOCK = Some (Spinlock true (Some c)) -> C !! c = Some (Cpu 1 b false pr) ->
  release_lk c PTABLE_LOCK (PState L T n ip f C Q w) =
  Ok tt (PState (<[PTABLE_LOCK := free_lock]> L) T n ip f (<[c := Cpu 0 b b pr]> C) Q w).
Proof.
  intros Hl Hc. rewrite (release_lk_ok c PTABLE_LOCK _ (Cpu 1 b false pr)); [done|done|done| |simpl; lia].
  split; simpl; [lia|done].
Qed.

Lemma pinv_dispatch L T n ip f C Q (w : W) c j i p p' f' w' b :
  pinv (PState L T n ip f C Q w) -> Q !! c = Some (Some j) -> T !! i = Some p ->
  p_state p = RUNNABLE -> p_state p' = RUNNING -> benign1 i p p' (no_dead_child T i) -> kept p p' ->
  keeps (PState L T n ip f C Q w) (PState (<[PTABLE_LOCK := free_lock]> L) (<[i := p']> T) n ip f'
          (<[c := Cpu 0 b b (Some i)]> C) (<[c := None]> Q) w').
Proof.
  intros [HT HC] Hq Hi Hs Hs' Hb Hk. destruct (scheduling _ _ _ _ _ _ _ _ _ _ HC Hq) as (b0 & _ & Hc & _).
  split; [split|split]; simpl; [by eapply tinv_benign1|..|done|].
  2:{ eapply frame_insert; [done|]. apply frame1_alive; [unfold alive, busy; auto|by apply running_alive|done]. }
  eapply cinv_dispatch; [exact HC|exact Hq|exact Hc|done|done|eauto| | |].
  - intros x q. rewrite (lookup_upd _ _ _ _ _ _ Hi). intros [[-> ->]|[_ Hx]] E; eauto.
  - intros x q Hx E. destruct (decide (x = i)) as [->|Hne].
    + exists p'. rewrite (lookup_upd _ _ _ _ _ _ Hi). auto.
    + exists q. rewrite (lookup_upd _ _ _ _ _ _ Hi). destruct E; [done|auto].
  - intros x q. rewrite (lookup_upd _ _ _ _ _ _ Hi). intros [[-> ->]|[_ Hx]] Hw.
    + destruct Hw; congruence.
    + by apply (ci_ctx _ HC x q).
Qed.

(** The state right after the switch to process [i], with [ptable.lock] held. *)
Lemma turn_eq c i p b L T n ip f C Q (w w' : W) :
  T !! i = Some p -> p_state p = RUNNABLE -> C !! c = Some (Cpu 1 b false None) ->
  k_switchuvm (p_pgdir p) w = Ok tt w' ->
  scheduler_turn c i (PState L T n ip f C Q w) =
  Ok (p_context p) (PState L (<[i := set_state RUNNING p]> T) n ip f (<[c := Cpu 1 b false (Some i)]> C)
           (<[c := None]> Q) w').
Proof.
  intros Hi Hs Hc Ew. unfold scheduler_turn, bind, pfield, gets, set_cpu_proc, modify, upd, kernel, zoom, ret.
  rewrite (proc_at_tab i p) by done. unfold id. rewrite decide_True by done.
  cbv [set_ptable set_cpus set_world set_sched_pos].
  cbn [ptable nextpid locks initproc first cpus sched_pos world]. rewrite Ew.
  cbn. by rewrite (alter_at _ _ _ p Hi), (alter_at _ _ _ _ Hc).
Qed.

Lemma turn_run c i p b L T n ip f C Q (w : W) ctx s' :
  T !! i = Some p -> p_state p = RUNNABLE -> C !! c = Some (Cpu 1 b false None) ->
  scheduler_turn c i (PState L T n ip f C Q w) = Ok ctx s' ->
  ctx = p_context p /\ exists w', k_switchuvm (p_pgdir p) w = Ok tt w' /\
    s' = PState L (<[i := set_state RUNNING p]> T) n ip f (<[c := Cpu 1 b false (Some i)]> C)
           (<[c := None]> Q) w'.
Proof.
  intros Hi Hs Hc E. pose proof E as E0. unfold scheduler_turn in E.
  rewrite (bind_ok _ _ _ p (PState L T n ip f C Q w)) in E
    by (unfold pfield, gets; by rewrite (proc_at_tab i p)).
  rewrite decide_True in E by done.
  erewrite bind_ok in E by reflexivity.
  apply bind_inv in E as ([] & s1 & E1 & _). apply kernel_run in E1 as (w1 & Ew & _).
  rewrite (turn_eq c i p b L T n ip f C Q w w1 Hi Hs Hc Ew) in E0. injection E0 as <- <-. eauto.
Qed.

Lemma resume_yield c i p b b' L T n ip f C Q (w : W) s' :
  L !! PTABLE_LOCK = Some (Spinlock true (Some c)) -> C !! c = Some (Cpu 1 b' false (Some i)) ->
  T !! i = Some p -> yield_tail c b (PState L T n ip f C Q w) = Ok tt s' ->
  s' = PState (<[PTABLE_LOCK := free_lock]> L) T n ip f (<[c := Cpu 0 b b (Some i)]> C) Q w.
Proof.
  intros Hl Hc Hi E. pose proof (lookup_lt_Some _ _ _ Hc) as Hlt. unfold yield_tail in E.
  erewrite bind_ok in E by reflexivity. cbv [set_cpus] in E.
  cbn [ptable nextpid locks initproc first cpus sched_pos world] in E.
  rewrite (alter_at _ _ _ _ Hc) in E. cbn [c_ncli c_if c_proc] in E.
  rewrite (release_held c b (Some i)) in E; [|done|by apply list_lookup_insert_eq].
  injection E as <-. by rewrite list_insert_insert_eq.
Qed.

(** The start of the tail of [sleep]. *)
Lemma sleep_tail_eq c i p lk b b' L T n ip f C Q (w : W) :
  C !! c = Some (Cpu 1 b' false (Some i)) -> T !! i = Some p ->
  sleep_tail c lk b (PState L T n ip f C Q w) =
  when (negb (lk =? PTABLE_LOCK)%nat) (release_lk c PTABLE_LOCK ;; acquire_lk c lk)
    (PState L (<[i := set_chan None p]> T) n ip f (<[c := Cpu 1 b false (Some i)]> C) Q w).
Proof.
  intros Hc Hi. pose proof (lookup_lt_Some _ _ _ Hc) as Hlt. unfold sleep_tail.
  erewrite bind_ok by reflexivity. cbv [set_cpus].
  cbn [ptable nextpid locks initproc first cpus sched_pos world].
  rewrite (alter_at _ _ _ _ Hc). cbn [c_ncli c_if c_proc].
  rewrite (bind_ok _ _ _ _ _ (myproc_at c (Cpu 1 b false (Some i)) i _ _ _ _ _ _ _ _
    (list_lookup_insert_eq _ _ _ Hlt) eq_refl)).
  erewrite bind_ok by apply pupd_ok. cbv [set_ptable].
  cbn [ptable nextpid locks initproc first cpus sched_pos world]. by rewrite (alter_at _ _ _ p Hi).
Qed.

(** A process that was asleep in [wait] is back at the head of its loop. *)
Lemma wait_resume_eq c i p b b' st v L T n ip f C Q (w : W) :
  C !! c = Some (Cpu 1 b' false (Some i)) -> T !! i = Some p -> L !! PTABLE_LOCK = Some (Spinlock true (Some c)) ->
  wait_resume c b st v (PState L T n ip f C Q w) =
  wait_loop c st v (at_loop c (Cpu 0 b b (Some i)) (<[PTABLE_LOCK := free_lock]> L)
    (<[i := set_chan None p]> T) n ip f (<[c := Cpu 0 b b (Some i)]> C) Q w).
Proof.
  intros Hc Hi Hl. unfold wait_resume, bind. rewrite (sleep_tail_eq c i p _ _ b') by done.
  simpl when. unfold ret, at_loop. cbn [c_if c_proc].
  rewrite !list_insert_insert_eq. by rewrite (list_insert_id L).
Qed.

Lemma benign_run i p ok :
  p_state p = RUNNABLE -> benign1 i p (set_state RUNNING p) ok /\
  benign1 i p (set_chan None (set_state RUNNING p)) ok.
Proof.
  intros Hs. unfold benign1, busy, in_wait. simpl. rewrite Hs.
  split; split_and!; auto; done || by intros [? _].
Qed.

(** The process that is switched to continues, and the invariant holds when it
    has given [ptable.lock] back or has switched away again. *)
Lemma step_resume c i j p st v b L T n ip f C Q (w w1 : W) :
  pinv (PState L T n ip f C Q w) -> Q !! c = Some (Some j) -> T !! i = Some p ->
  p_state p = RUNNABLE -> C !! c = Some (Cpu 1 b false None) ->
  L !! PTABLE_LOCK = Some (Spinlock true (Some c)) ->
  let s1 := PState L (<[i := set_state RUNNING p]> T) n ip f (<[c := Cpu 1 b false (Some i)]> C)
              (<[c := None]> Q) w1 in
  (forall s', resume c st v (p_context p) s1 = Ok tt s' -> keeps (PState L T n ip f C Q w) s') /\
  (forall ch s', resume c st v (p_context p) s1 = Sleep ch s' ->
     (forall k, p_context p <> CtxSleep PTABLE_LOCK k) \/ keeps (PState L T n ip f C Q w) s').
Proof.
  intros HI Hq Hi Hs Hc Hl s1. pose proof HI as [HT HC].
  pose proof (lookup_lt_Some _ _ _ Hc) as Hlc. pose proof (lookup_lt_Some _ _ _ Hi) as Hli.
  pose proof (lookup_lt_Some _ _ _ Hl) as Hll.
  destruct (benign_run i p (no_dead_child T i) Hs) as [Hb1 Hb2].
  pose proof (ci_ctx _ HC i p Hi (or_introl Hs)) as Hctx. simpl in Hctx.
  assert (<[c := Cpu 1 b false (Some i)]> C !! c = Some (Cpu 1 b false (Some i))) as Hc1
    by (by apply list_lookup_insert_eq).
  assert (<[i := set_state RUNNING p]> T !! i = Some (set_state RUNNING p)) as Hi1
    by (by apply list_lookup_insert_eq).
  destruct (p_context p) as [| |y|lk y|] eqn:Ectx; simpl in Hctx; try done; unfold resume.
  - split; [|intros ch s' _; left; congruence].
    intros s' E. unfold forkret in E. unfold s1 in E.
    rewrite (bind_ok _ _ _ _ _ (release_held c b (Some i) _ _ _ _ _ _ _ _ Hl Hc1)) in E.
    rewrite list_insert_insert_eq in E. erewrite bind_ok in E by reflexivity. cbn [first] in E.
    destruct f; simpl when in E.
    + erewrite bind_ok in E by reflexivity. apply bind_inv in E as ([] & s2 & E2 & E).
      apply kernel_inv in E2 as [w2 ->]. apply kernel_inv in E as [w3 ->].
      cbv [set_world set_first]. cbn [ptable nextpid locks initproc first cpus sched_pos world].
      by eapply pinv_dispatch.
    + injection E as <-. by eapply pinv_dispatch.
  - split; [|intros ch s' _; left; congruence].
    intros s' E. unfold s1 in E. apply (resume_yield c i (set_state RUNNING p) y b) in E; [|done..].
    subst s'. rewrite list_insert_insert_eq. by eapply pinv_dispatch.
  - unfold s1. destruct (Nat.eqb_spec lk PTABLE_LOCK) as [->|Hlk].
    + unfold bind at 1 2. rewrite (wait_resume_eq c i (set_state RUNNING p) y b) by done.
      rewrite !list_insert_insert_eq.
      pose proof (pinv_dispatch L T n ip f C Q w c j i p (set_chan None (set_state RUNNING p)) f w1 y
        HI Hq Hi Hs eq_refl Hb2 (kept_refl p)) as HK. pose proof HK as (HI' & _).
      assert (calm c (Cpu 0 y y (Some i)) (<[PTABLE_LOCK := free_lock]> L) (<[c := Cpu 0 y y (Some i)]> C)) as Hcalm'.
      { split_and!; [by apply list_lookup_insert_eq|by apply list_lookup_insert_eq|done]. }
      destruct (step_wait_loop c _ i (set_chan None (set_state RUNNING p)) _ _ _ _ _ _ _ _ st v HI' Hcalm' eq_refl
        (list_lookup_insert_eq _ _ _ Hli) eq_refl) as [Hok Hsl].
      split.
      * intros s' E. destruct (wait_loop c st v _) as [r s2|e|c2 s2|] eqn:E2; try done. injection E as <-.
        by eapply keeps_trans, Hok.
      * intros ch s' E. right. destruct (wait_loop c st v _) as [r s2|e|c2 s2|] eqn:E2; try done.
        injection E as <- <-. by eapply keeps_trans, Hsl.
    + split; [|intros ch s' _; left; congruence].
      intros s' E. unfold bind at 1 in E. rewrite (sleep_tail_eq c i (set_state RUNNING p) _ _ b) in E by done.
      destruct (Nat.eqb_spec lk PTABLE_LOCK) as [|_]; [done|]. simpl when in E.
      rewrite !list_insert_insert_eq in E.
      destruct (lookup_lt_is_Some_2 L lk Hctx) as [l Hlkl].
      assert (l = free_lock) as -> by (eapply (ci_locks _ HC); eauto).
      unfold bind in E.
      rewrite (release_held c y (Some i)) in E; [|done|by apply list_lookup_insert_eq].
      rewrite list_insert_insert_eq in E.
      rewrite (acquire_lk_ok c lk _ (Cpu 0 y y (Some i))) in E;
        [|cbn [locks]; by rewrite list_lookup_insert_ne|cbn [cpus]; by apply list_lookup_insert_eq].
      cbv [set_cpus set_locks] in E. cbn [ptable nextpid locks initproc first cpus sched_pos world] in E.
      rewrite (release_lk_ok c lk _ (pushed (Cpu 0 y y (Some i)))) in E;
        [|cbn [locks]; apply list_lookup_insert_eq; by rewrite length_insert
         |cbn [cpus]; apply list_lookup_insert_eq; by rewrite length_insert
         |split; simpl; [lia|done]|simpl; lia].
      injection E as <-. cbv [set_cpus set_locks].
      cbn [ptable nextpid locks initproc first cpus sched_pos world].
      rewrite !list_insert_insert_eq.
      rewrite (list_insert_id (<[PTABLE_LOCK := free_lock]> L) lk) by (by rewrite list_lookup_insert_ne).
      change (popped (pushed (Cpu 0 y y (Some i)))) with (Cpu 0 y (true && y) (Some i)).
      simpl andb. by eapply pinv_dispatch.
Qed.

Lemma step_turn c i st v s :
  pinv s -> sched_pos s !! c = Some (Some i) -> (i < NPROC)%nat ->
  (forall s', (ctx <- scheduler_turn c i ;; resume c st v ctx) s = Ok tt s' -> keeps s s') /\
  (forall b ch s', p_context (proc_at i s) = CtxSleep PTABLE_LOCK b ->
     (ctx <- scheduler_turn c i ;; resume c st v ctx) s = Sleep ch s' -> keeps s s').
Proof.
  intros HI Hq Hlt. pose proof HI as [HT HC]. destruct s as [L T n ip f C Q w]. simpl in *.
  destruct (scheduling _ _ _ _ _ _ _ _ _ _ HC Hq) as (b & Hl & Hc & HQ).
  destruct (lookup_lt_is_Some_2 T i) as [p Hi].
  { pose proof (ti_len _ _ _ HT) as E. simpl in E. lia. }
  destruct (decide (p_state p = RUNNABLE)) as [Hs|Hs].
  - split.
    + intros s' E. apply bind_inv in E as (ctx & s1 & E1 & E).
      apply (turn_run c i p b) in E1 as (-> & w1 & _ & ->); [|done..].
      by eapply (step_resume c i i p st v b L T n ip f C Q w w1).
    + intros b0 ch s' Hcx E. unfold bind in E.
      destruct (scheduler_turn c i (PState L T n ip f C Q w)) as [ctx s1|e|c1 s1|] eqn:E1; try done.
      * apply (turn_run c i p b) in E1 as (-> & w1 & _ & ->); [|done..].
        rewrite (proc_at_tab i p) in Hcx by done.
        destruct (step_resume c i i p st v b L T n ip f C Q w w1) as [_ Hsl]; try done.
        destruct (Hsl ch s' E) as [Hne|]; [|done]. by destruct (Hne b0).
      * exfalso. unfold scheduler_turn, bind, pfield, gets, set_cpu_proc, modify in E1.
        rewrite (proc_at_tab i p) in E1 by done. unfold id in E1. rewrite decide_True in E1 by done.
        unfold kernel, zoom in E1. simpl in E1.
        destruct (k_switchuvm (p_pgdir p) w) eqn:Ek; try done. by apply switchuvm_awake in Ek.
  - assert ((ctx <- scheduler_turn c i ;; resume c st v ctx) (PState L T n ip f C Q w) =
      Ok tt (PState L T n ip f C (<[c := Some (i + 1)%nat]> Q) w)) as Heq.
    { unfold scheduler_turn, bind, pfield, gets. rewrite (proc_at_tab i p) by done. unfold id.
      by rewrite decide_False by done. }
    rewrite Heq. split; [|by intros]. intros s' [= <-]. split; [split|split]; [done|..|done|apply frame_refl].
    destruct HC as [Hpos Hlk Hcpu Hrun Hhas Hone Hlks Hctx]. simpl in *.
    assert (c < length Q)%nat as HlQ by (by eapply lookup_lt_Some).
    split; simpl; try done.
    + by rewrite length_insert.
    + right. exists c, (i + 1)%nat. rewrite list_lookup_insert_eq by done. split_and!; [done|done|lia|].
      intros c' x Hne. rewrite list_lookup_insert_ne by done. by apply HQ.
    + intros c' k Hk. specialize (Hcpu c' k Hk). destruct (decide (c' = c)) as [->|Hne].
      * rewrite list_lookup_insert_eq by done. by rewrite Hq in Hcpu.
      * by rewrite list_lookup_insert_ne.
Qed.

Lemma step_enter c s s' :
  pinv s -> cpu_proc c s = None -> (c < length (cpus s))%nat ->
  locks s !! PTABLE_LOCK = Some free_lock -> scheduler_enter c s = Ok tt s' -> keeps s s'.
Proof.
  intros [HT HC] Hcp Hlt Hl E. destruct s as [L T n ip f C Q w]. simpl in *.
  destruct (lookup_lt_is_Some_2 C c Hlt) as [k Hc]. unfold cpu_proc in Hcp. simpl in Hcp.
  rewrite Hc in Hcp. simpl in Hcp.
  destruct HC as [Hpos Hlk Hcpu Hrun Hhas Hone Hlks Hctx]. simpl in *.
  assert (forall c' x, Q !! c' = Some x -> x = None) as HQ.
  { destruct Hlk as [[_ ?]|(c' & i & E' & _)]; [done|]. rewrite Hl in E'. discriminate. }
  assert (c_ncli k = 0) as Hn.
  { pose proof (Hcpu c k Hc) as Hk. destruct (Q !! c) as [[x|]|] eqn:Eq; [|done..].
    by specialize (HQ _ _ Eq). }
  unfold scheduler_enter in E. erewrite bind_ok in E by reflexivity. cbv [set_cpus] in E.
  cbn [ptable nextpid locks initproc first cpus sched_pos world] in E.
  rewrite (alter_at _ _ _ _ Hc) in E. set (k1 := Cpu (c_ncli k) (c_intena k) true (c_proc k)) in E.
  erewrite bind_ok in E by (apply (calm_acquire c k1); split_and!;
    [done|by apply list_lookup_insert_eq|done]).
  injection E as <-. rewrite list_insert_insert_eq. cbv [set_sched_pos].
  cbn [ptable nextpid locks initproc first cpus sched_pos world c_if c_proc k1]. rewrite Hcp.
  pose proof (lookup_lt_Some _ _ _ Hl) as Hll.
  assert (forall c' k', <[c := Cpu 1 true false None]> C !! c' = Some k' ->
    (c' = c /\ k' = Cpu 1 true false None) \/ (c' <> c /\ C !! c' = Some k')) as Hup.
  { intros c' k'. rewrite list_lookup_insert. case_decide; naive_solver. }
  split; [split|split]; simpl; [done|..|done|apply frame_refl]. split; simpl.
  - by rewrite !length_insert.
  - right. exists c, 0%nat. rewrite !list_lookup_insert_eq by (rewrite ?Hpos; done).
    split_and!; [done|done|lia|]. intros c' x Hne. rewrite list_lookup_insert_ne by done. apply HQ.
  - intros c' k' [[-> ->]|[Hne Hk]]%Hup.
    + rewrite list_lookup_insert_eq by (by rewrite Hpos). done.
    + rewrite list_lookup_insert_ne by done. by apply Hcpu.
  - intros c' k' i [[-> ->]|[Hne Hk]]%Hup Hp; [done|eauto].
  - intros i p Hi Hs. destruct (Hhas i p Hi Hs) as (c' & k' & Hk' & E). exists c', k'. split; [|done].
    rewrite list_lookup_insert_ne; [done|]. intros <-. congruence.
  - intros c1 c2 k3 k2 i [[-> ->]|[? H1]]%Hup [[-> ->]|[? H2]]%Hup E1 E2; try done. by eapply Hone.
  - intros j lk Hj. rewrite list_lookup_insert_ne by done. by apply Hlks.
  - intros i p Hi Hw. specialize (Hctx i p Hi Hw). unfold ctx_ok in *.
    by destruct (p_context p); rewrite ?length_insert.
Qed.

Lemma step_leave c s s' :
  pinv s -> sched_pos s !! c = Some (Some NPROC) -> scheduler_leave c s = Ok tt s' -> keeps s s'.
Proof.
  intros [HT HC] Hq E. destruct s as [L T n ip f C Q w]. simpl in *.
  destruct (scheduling _ _ _ _ _ _ _ _ _ _ HC Hq) as (b & Hl & Hc & HQ).
  unfold scheduler_leave in E. erewrite bind_ok in E by reflexivity. cbv [set_sched_pos] in E.
  cbn [ptable nextpid locks initproc first cpus sched_pos world] in E.
  rewrite (release_held c b None) in E by done. injection E as <-.
  destruct HC as [Hpos Hlk Hcpu Hrun Hhas Hone Hlks Hctx]. simpl in *.
  pose proof (lookup_lt_Some _ _ _ Hl) as Hll. pose proof (lookup_lt_Some _ _ _ Hc) as Hlt.
  assert (forall c' k', <[c := Cpu 0 b b None]> C !! c' = Some k' ->
    (c' = c /\ k' = Cpu 0 b b None) \/ (c' <> c /\ C !! c' = Some k')) as Hup.
  { intros c' k'. rewrite list_lookup_insert. case_decide; naive_solver. }
  split; [split|split]; simpl; [done|..|done|apply frame_refl]. split; simpl.
  - by rewrite !length_insert.
  - left. rewrite list_lookup_insert_eq by done. split; [done|]. intros c' x.
    destruct (decide (c' = c)) as [->|Hne].
    + rewrite list_lookup_insert_eq by (by rewrite Hpos). by intros [= <-].
    + rewrite list_lookup_insert_ne by done. by apply HQ.
  - intros c' k' [[-> ->]|[Hne Hk]]%Hup.
    + by rewrite list_lookup_insert_eq by (by rewrite Hpos).
    + rewrite list_lookup_insert_ne by done. by apply Hcpu.
  - intros c' k' i [[-> ->]|[Hne Hk]]%Hup Hp; [done|eauto].
  - intros i p Hi Hs. destruct (Hhas i p Hi Hs) as (c' & k' & Hk' & E). exists c', k'. split; [|done].
    rewrite list_lookup_insert_ne; [done|]. intros <-. by simplify_eq.
  - intros c1 c2 k3 k2 i [[-> ->]|[? H1]]%Hup [[-> ->]|[? H2]]%Hup E1 E2; try done. by eapply Hone.
  - intros j lk Hj. rewrite list_lookup_insert_ne by done. by apply Hlks.
  - intros i p Hi Hw. specialize (Hctx i p Hi Hw). unfold ctx_ok in *.
    by destruct (p_context p); rewrite ?length_insert.
Qed.

(** * Reachable states *)

(** The kernel's zeroed data when [main] calls [userinit] on CPU [c]: free locks,
    an empty table, and CPUs that run no process. *)
Record zeroed (c : nat) s : Prop := Zeroed {
  z_locks : forall j lk, locks s !! j = Some lk -> lk = free_lock;
  z_lock0 : is_Some (locks s !! PTABLE_LOCK);
  z_table : ptable s = replicate NPROC proc0;
  z_pid : nextpid s = 1;
  z_pos : sched_pos s = replicate (length (cpus s)) None;
  z_cpus : forall c k, cpus s !! c = Some k -> c_ncli k = 0 /\ c_proc k = None;
  z_me : is_Some (cpus s !! c)
}.

Lemma zeroed_slot i p : replicate NPROC proc0 !! i = Some p -> p = proc0.
Proof. by intros [-> _]%lookup_replicate. Qed.

Lemma tinv_first i p :
  (i < NPROC)%nat -> p_state p = RUNNABLE -> p_parent p = None -> p_pid p = 1 ->
  length (p_ofile p) = NOFILE ->
  tinv (<[i := p]> (replicate NPROC proc0)) 2 (Some i).
Proof.
  intros Hi Hs Hp Hpid Hof.
  assert (replicate NPROC proc0 !! i = Some proc0) as H0 by (by apply lookup_replicate_2).
  assert (forall j q, <[i := p]> (replicate NPROC proc0) !! j = Some q ->
    (j = i /\ q = p) \/ (j <> i /\ q = proc0)) as Hup.
  { intros j q. rewrite (lookup_upd _ _ _ _ _ _ H0). intros [?|[? Hj]]; [by left|right].
    apply zeroed_slot in Hj. auto. }
  split.
  - by rewrite length_insert, length_replicate.
  - exists i, p. rewrite (lookup_upd _ _ _ _ _ _ H0). split_and!; auto. unfold alive, busy. auto.
  - intros j q [[-> ->]|[Hne ->]]%Hup Hn Hu; simpl in *; congruence.
  - intros j q [[-> ->]|[Hne ->]]%Hup Hu; [congruence|]. split; [done|]. split; [|done].
    by apply Forall_replicate.
  - intros j q [[-> ->]|[Hne ->]]%Hup; simpl; congruence.
  - intros j q [[-> ->]|[Hne ->]]%Hup Hu; simpl in *; congruence.
  - intros j q [[-> ->]|[Hne ->]]%Hup Hu; simpl in *; [lia|congruence].
  - intros j k q r [[-> ->]|[Hj ->]]%Hup [[-> ->]|[Hk ->]]%Hup E1 E2 E; simpl in *; congruence.
  - intros j q [[-> ->]|[Hne ->]]%Hup Hu; simpl in *; congruence.
  - intros j k q r [[-> ->]|[Hj ->]]%Hup _ Hz; simpl in *; congruence.
  - intros j q [[-> ->]|[Hne ->]]%Hup; [done|apply length_replicate].
  - intros j q [[-> ->]|[Hne ->]]%Hup; simpl; congruence.
Qed.

Ltac norm E := cbv [set_world set_ptable set_initproc] in E;
  cbn [ptable nextpid locks initproc first cpus sched_pos world] in E.

Lemma userinit_pinv c code s s' : zeroed c s -> userinit c code s = Ok tt s' ->
  pinv s' /\ forall i p, ptable s' !! i = Some p -> p_state p <> EMBRYO.
Proof.
  intros [Hlks [l0 Hl0] Ht Hn Hq Hcp [k Hc]] E. destruct s as [L T n ip f C Q w].
  cbn [locks ptable nextpid sched_pos cpus] in *. subst n Q.
  assert (length T = NPROC) as HlT by (rewrite Ht; apply length_replicate).
  assert (forall i p, T !! i = Some p -> p = proc0) as Hz by (rewrite Ht; apply zeroed_slot).
  assert (l0 = free_lock) as -> by eauto. destruct (Hcp c k Hc) as [Hk0 Hkp].
  assert (calm c k L C) as Hcalm by done.
  unfold userinit in E. apply bind_inv in E as (r & s1 & E1 & E).
  destruct r as [i|]; [|discriminate E].
  apply (allocproc_inv c k) in E1; [|done|done].
  destruct E1 as (p & ks & w1 & Hi & _ & _ & _ & ->). pose proof (Hz _ _ Hi) as ->.
  pose proof (lookup_lt_Some _ _ _ Hi) as Hlt.
  erewrite bind_ok in E by reflexivity. norm E.
  apply bind_inv in E as (pg & s2 & E2 & E). apply kernel_inv in E2 as [w2 ->]. norm E.
  erewrite bind_ok in E by reflexivity. norm E. destruct (pg =? 0); [discriminate E|].
  apply bind_inv in E as ([] & s3 & E3 & E). apply kernel_inv in E3 as [w3 ->]. norm E.
  erewrite bind_ok in E by reflexivity. norm E. erewrite bind_ok in E by reflexivity. norm E.
  erewrite bind_ok in E by reflexivity. norm E.
  apply bind_inv in E as (d & s4 & E4 & E). apply kernel_inv in E4 as [w4 ->]. norm E.
  erewrite bind_ok in E by reflexivity. norm E.
  rewrite !alter_insert_at in E by done.
  pose proof (calm_settle _ _ _ _ Hcalm) as Hcalm'.
  rewrite (bind_ok _ _ _ _ _ (calm_acquire _ _ _ _ _ _ _ _ _ _ Hcalm')) in E.
  erewrite bind_ok in E by reflexivity. cbv [set_ptable] in E.
  cbn [ptable nextpid locks initproc first cpus sched_pos world] in E.
  rewrite !alter_insert_at in E by done. rewrite calm_release in E by done.
  rewrite list_insert_insert_eq in E. change (settle (settle k)) with (settle k) in E.
  set (p' := set_state RUNNABLE _) in E. injection E as <-.
  assert (<[i := p']> T !! i = Some p') as Hi' by (by apply list_lookup_insert_eq).
  rewrite HlT in Hlt.
  assert (forall j q, <[i := p']> T !! j = Some q -> q = p' \/ q = proc0) as Hq.
  { intros j q. rewrite (lookup_upd _ _ _ _ _ _ Hi). intros [[_ ?]|[_ Hj]]; [by left|].
    right. by eapply Hz. }
  split; cbn [ptable].
  2:{ intros j q Hj. by destruct (Hq j q Hj) as [-> | ->]. }
  split; cbn [ptable nextpid initproc].
  { rewrite Ht. apply tinv_first; try done. }
  assert (forall c' k', <[c := settle k]> C !! c' = Some k' -> c_ncli k' = 0 /\ c_proc k' = None) as Hup.
  { intros c' k'. rewrite list_lookup_insert. case_decide; [|eauto]. intros [= <-]. done. }
  split; cbn [locks ptable nextpid sched_pos cpus].
  - by rewrite length_insert, length_replicate.
  - left. split; [done|]. by intros c' x [-> _]%lookup_replicate.
  - intros c' k' Hk. destruct (Hup _ _ Hk) as [? ?].
    destruct (replicate (length C) (None : option nat) !! c') as [[x|]|] eqn:Eq; [|done..].
    by apply lookup_replicate in Eq as [? _].
  - intros c' k' x Hk. destruct (Hup _ _ Hk). congruence.
  - intros j q Hj. destruct (Hq j q Hj) as [-> | ->]; done.
  - intros c1 c2 k1 k2 x H1. destruct (Hup _ _ H1). congruence.
  - intros j lk _. apply Hlks.
  - intros j q Hj Hw. destruct (Hq j q Hj) as [-> | ->]; [done|]. by destruct Hw.
Qed.

(** The states of the system with the stages of its processes, and the states
    alone.  [main] calls [userinit] before any process runs. *)
Inductive sreach : pstate W -> stages -> Prop :=
| pr_boot c code s s' : zeroed c s -> userinit c code s = Ok tt s' -> sreach s' ∅
| pr_step s g s' g' : sreach s g -> pstep s g s' g' -> sreach s' g'.

Definition preach s : Prop := exists g, sreach s g.

Lemma pstep_winv s g s' g' : winv s g -> pstep s g s' g' -> winv s' g'.
Proof.
  intros HW Hst. pose proof HW as [HI _]. destruct Hst.
  - by eapply step_fork.
  - by eapply step_fork_stack.
  - by eapply step_fork_vm.
  - by eapply step_fork_fd.
  - by eapply step_fork_cwd.
  - by eapply step_fork_run.
  - by eapply step_exit.
  - by eapply step_exit_fd.
  - by eapply step_exit_cwd.
  - by eapply step_exit_die.
  - eapply keeps_winv; [done|]. by eapply (proj1 (step_wait c st v s HI ltac:(done))).
  - eapply keeps_winv; [done|]. by eapply (proj2 (step_wait c st v s HI ltac:(done))).
  - eapply keeps_winv; [done|]. by eapply step_kill.
  - eapply keeps_winv; [done|]. by eapply step_wakeup.
  - eapply keeps_winv; [done|]. by eapply step_yield.
  - eapply keeps_winv; [done|]. by eapply step_sleep.
  - eapply keeps_winv; [done|]. by eapply step_enter.
  - eapply keeps_winv; [done|]. by eapply (proj1 (step_turn c i st v s HI ltac:(done) ltac:(done))).
  - eapply keeps_winv; [done|]. by eapply (proj2 (step_turn c i st v s HI ltac:(done) ltac:(done))).
  - eapply keeps_winv; [done|]. by eapply step_leave.
Qed.

Lemma sreach_winv s g : sreach s g -> winv s g.
Proof.
  induction 1 as [c code s s' Hz E|s g s' g' _ IH Hst]; [|by eapply pstep_winv].
  pose proof (userinit_pinv c code s s' Hz E) as [HI He]. split; [done|]. split; [done| |done].
  intros i p Hi Hs. by destruct (He i p Hi).
Qed.

Lemma preach_pinv s : preach s -> pinv s.
Proof. intros [g Hr]. by apply sreach_winv in Hr as [? _]. Qed.
End sys.
