(* ===== verification/ProcProps.v ===== *)
(** The properties of processes: the table is well formed in every reachable
    state, no exit is missed by [wait], what [fork], [wait], [kill], [sleep] and
    [wakeup] do, and what happens to the exit status. *)
From stdpp Require Import base numbers list gmap sets strings.
From Stdlib Require Import ZArith Lia.
From S2P Require Import Prelude Spinlock Proc ProcInv ProcSys.

Section props.
Context {W : Type} `{!Kernel W} `{!NoSleep (W:=W)}.
Implicit Types s : pstate W.


(** C9. No exit is missed: in every reachable state, the parent of a dead
    process is alive and is not asleep in [wait]. *)
Theorem exit_not_missed s i p :
  preach s -> ptable s !! i = Some p -> p_state p = ZOMBIE ->
  exists q pq, p_parent p = Some q /\ ptable s !! q = Some pq /\ alive pq /\ ~ in_wait q pq.
Proof.
  intros Hr Hi Hz. destruct (preach_pinv s Hr) as [HT _].
  destruct (ti_init _ _ _ HT) as (j & pj & Ej & Hj & (_ & _ & Ha)%alive_not & _).
  destruct (ti_parent _ _ _ HT i p Hi) as (q & pq & Hq & Hpq & Haq); [congruence|by rewrite Hz..|].
  exists q, pq. split_and!; try done. by eapply (ti_wait _ _ _ HT i q).
Qed.


(** Two tables that differ in the exit statuses only. *)
Definition same_but_status (T T' : list proc) : Prop :=
  exists f : nat -> Z, T' = imap (fun i p => set_exitstat (f i) p) T.

Lemma status_lookup (h : nat -> Z) T i p' :
  imap (fun i p => set_exitstat (h i) p) T !! i = Some p' <-> exists p, T !! i = Some p /\ p' = set_exitstat (h i) p.
Proof. rewrite list_lookup_imap, fmap_Some. done. Qed.

Lemma status_insert (h : nat -> Z) T i p :
  imap (fun i p => set_exitstat (h i) p) (<[i := p]> T) =
  <[i := set_exitstat (h i) p]> (imap (fun i p => set_exitstat (h i) p) T).
Proof.
  apply list_eq. intros j. rewrite list_lookup_imap, !list_lookup_insert, length_imap, list_lookup_imap.
  case_decide as E; [by destruct E as [-> _]|done].
Qed.

Lemma status_find me (h : nat -> Z) T :
  list_find (dead_child me) (imap (fun i p => set_exitstat (h i) p) T) =
  (fun x => (x.1, set_exitstat (h x.1) x.2)) <$> list_find (dead_child me) T.
Proof.
  destruct (list_find (dead_child me) T) as [[i p]|] eqn:Hf; cbn [fmap option_fmap option_map fst snd].
  - apply list_find_Some in Hf as (Hi & Hp & Hb). apply list_find_Some. split; [apply status_lookup; eauto|].
    split; [done|]. intros j q (q0 & Hj & ->)%status_lookup Hlt. exact (Hb j q0 Hj Hlt).
  - apply list_find_None in Hf. apply list_find_None, Forall_lookup. intros i q (p & Hi & ->)%status_lookup.
    exact (Forall_lookup_1 _ _ _ _ Hf Hi).
Qed.

Lemma status_kids me (h : nat -> Z) T : have_kids me (imap (fun i p => set_exitstat (h i) p) T) = have_kids me T.
Proof.
  apply eq_true_iff_eq. unfold have_kids. rewrite !existsb_exists.
  split; intros (q & Hq & Hp); apply list_elem_of_In, list_elem_of_lookup in Hq as [j Hj].
  - apply status_lookup in Hj as (p & Hj & ->). exists p. split; [|done]. apply list_elem_of_In. by eapply list_elem_of_lookup_2.
  - exists (set_exitstat (h j) q). split; [|done]. apply list_elem_of_In.
    eapply list_elem_of_lookup_2, status_lookup. eauto.
Qed.

(** A [wait] that returned [r] in state [s1] has left the variable of its caller
    as it was, and [res], the same [wait] for other exit statuses, returns the
    same and leaves the same state, apart from those statuses. *)
Definition unmoved (v : Z) (r : Z * (intptr * Z)) (s1 : pstate W) (res : Prelude.res (pstate W) (Z * (intptr * Z))) : Prop :=
  r.2.2 = v /\ exists T2, res = Ok r (set_ptable T2 s1) /\ same_but_status (ptable s1) T2.

Lemma wait_loop_unmoved c k me pm L T T' n ip f C Q (w : W) st v r s1 :
  calm c k L C -> c_proc k = Some me -> T !! me = Some pm -> length T = NPROC -> same_but_status T T' ->
  wait_loop c st v (at_loop c k L T n ip f C Q w) = Ok r s1 ->
  unmoved v r s1 (wait_loop c st v (at_loop c k L T' n ip f C Q w)).
Proof.
  intros Hcalm Hcp Hme Hlen [h ->] E.
  assert (imap (fun i p => set_exitstat (h i) p) T !! me = Some (set_exitstat (h me) pm)) as Hme'
    by (apply status_lookup; eauto).
  rewrite (wait_loop_eq c k me) by (done || by rewrite length_imap). rewrite status_find.
  eapply (wait_loop_ok c k me pm) in E; try done.
  destruct E as [(i & p & w' & Hf & -> & Er & ->)|(Hf & Hk & -> & ->)]; rewrite Hf;
    cbn [fmap option_fmap option_map fst snd]; split; [done| |done|].
  - apply list_find_Some in Hf as (Hi & _ & _). eexists. cbn [ptable]. split.
    + erewrite bind_ok; [|apply (reap_eq i (set_exitstat (h i) p)); [apply status_lookup; eauto|exact Er]].
      rewrite (bind_ok _ _ _ _ _ (calm_release _ _ _ _ _ _ _ _ _ _ Hcalm)). reflexivity.
    + exists h. by rewrite status_insert.
  - eexists. cbn [ptable]. split; [|exists h; reflexivity].
    rewrite (no_dead_tail_eq c k me _ _ _ _ _ _ _ _ _ Hcalm Hcp Hme'), status_kids.
    change (p_killed (set_exitstat (h me) pm)) with (p_killed pm). by rewrite Hk.
Qed.

(** C11. The exit status of a child never reaches its parent: a [wait] that
    returns has stored nothing into the variable that its argument points to, and
    for any other exit statuses in the table it returns the same pid and leaves
    the same state, apart from those statuses.  This holds for a [wait] that
    returns at once and for one that the scheduler resumes after it has slept. *)
Theorem wait_ignores_status c s T' st v r s1 :
  preach s -> same_but_status (ptable s) T' ->
  (running c s -> wait c st v s = Ok r s1 -> unmoved v r s1 (wait c st v (set_ptable T' s))) /\
  (forall i b, sched_pos s !! c = Some (Some i) -> (i < NPROC)%nat -> p_state (proc_at i s) = RUNNABLE ->
     (scheduler_turn c i ;; wait_resume c b st v) s = Ok r s1 ->
     unmoved v r s1 ((scheduler_turn c i ;; wait_resume c b st v) (set_ptable T' s))).
Proof.
  intros Hr Hsame. pose proof (preach_pinv s Hr) as HI. pose proof HI as [HT HC]. pose proof (ti_len _ _ _ HT) as Hlen.
  split.
  - intros Hrun E. destruct (running_calm c s HI Hrun) as (k & me & pm & Hcalm & Hcp & Hme & _).
    destruct s as [L T n ip f C Q w]. unfold set_ptable at 1.
    cbn [locks ptable cpus nextpid initproc first sched_pos world] in *.
    rewrite (wait_enter c k) in E by done. rewrite (wait_enter c k) by done. by eapply wait_loop_unmoved.
  - intros i b Hq Hlt Hs E. destruct s as [L T n ip f C Q w]. unfold set_ptable at 1.
    cbn [locks ptable cpus nextpid initproc first sched_pos world] in *.
    destruct (scheduling _ _ _ _ _ _ _ _ _ _ HC Hq) as (b' & Hl & Hc & HQ).
    destruct (lookup_lt_is_Some_2 T i) as [p Hi]; [lia|]. rewrite (proc_at_tab i p) in Hs by done.
    pose proof (lookup_lt_Some _ _ _ Hi) as Hli. pose proof (lookup_lt_Some _ _ _ Hc) as Hlc.
    pose proof (lookup_lt_Some _ _ _ Hl) as Hll.
    apply bind_inv in E as (ctx & s2 & E1 & E). eapply (turn_run c i p b') in E1; [|done..].
    destruct E1 as (_ & w1 & Ew & ->).
    destruct Hsame as [h ->].
    assert (imap (fun i p => set_exitstat (h i) p) T !! i = Some (set_exitstat (h i) p)) as Hi' by (apply status_lookup; eauto).
    pose proof (lookup_lt_Some _ _ _ Hi') as Hli'.
    erewrite bind_ok by (eapply (turn_eq c i (set_exitstat (h i) p) b'); done).
    rewrite (wait_resume_eq c i (set_state RUNNING p) b b') in E by (done || by apply list_lookup_insert_eq).
    rewrite (wait_resume_eq c i (set_state RUNNING (set_exitstat (h i) p)) b b') by (done || by apply list_lookup_insert_eq).
    rewrite !list_insert_insert_eq in *.
    eapply (wait_loop_unmoved c _ i); [..|exact E].
    + split_and!; [by apply list_lookup_insert_eq|by apply list_lookup_insert_eq|done].
    + done.
    + by apply list_lookup_insert_eq.
    + by rewrite length_insert.
    + exists h. by rewrite status_insert.
Qed.

(** [filedup] and [idup] return their argument. *)
Class DupSame : Prop := {
  filedup_same : forall f (w : W) f' w', k_filedup f w = Ok f' w' -> f' = f;
  idup_same : forall d (w : W) d' w', k_idup d w = Ok d' w' -> d' = d
}.



(** [wakeup(chan)] makes every process that sleeps on [chan] runnable, and
    leaves every other process as it is. *)
Theorem wakeup_wakes c s ch :
  preach s -> running c s ->
  exists s', wakeup c ch s = Ok tt s' /\
    forall i p, ptable s !! i = Some p -> exists p', ptable s' !! i = Some p' /\
      (p_state p = SLEEPING /\ p_chan p = Some ch -> p_state p' = RUNNABLE) /\
      (~ (p_state p = SLEEPING /\ p_chan p = Some ch) -> p' = p).
Proof.
  intros Hr Hrun. pose proof (preach_pinv s Hr) as HI.
  destruct (running_calm c s HI Hrun) as (k & me & pm & Hcalm & _).
  destruct HI as [HT _]. pose proof (ti_len _ _ _ HT) as Hlen.
  destruct s as [L T n ip f C Q w]. cbn [locks ptable cpus nextpid initproc] in *.
  eexists. split; [by apply (wakeup_eq c k)|]. cbn [ptable]. intros i p Hi.
  exists (wake (Some ch) p). rewrite list_lookup_fmap, Hi. split; [done|]. unfold wake. split.
  - intros [E1 E2]. by rewrite !bool_decide_eq_true_2.
  - intros Hn. destruct (bool_decide (p_state p = SLEEPING)) eqn:E1; [|done].
    destruct (bool_decide (p_chan p = Some ch)) eqn:E2; [|done].
    apply bool_decide_eq_true in E1, E2. by destruct Hn.
Qed.

(** [kill(0)] does not report an error: a slot that has never been used has
    pid 0, and it is such a free slot that [kill] marks as killed. The flag stays:
    [allocproc] does not clear it, so the process that [fork] makes in that slot
    is born killed. *)
Theorem kill_zero c s :
  preach s -> running c s -> (exists i p, ptable s !! i = Some p /\ p_pid p = 0) ->
  exists i p s', kill c 0 s = Ok 0 s' /\ ptable s !! i = Some p /\ p_state p = UNUSED /\
    ptable s' = <[i := set_killed true p]> (ptable s) /\
    forall r s2 q, fork c s' = Ok r s2 -> ptable s2 !! i = Some q -> p_state q <> UNUSED ->
      p_killed q = true.
Proof.
  intros Hr Hrun (i0 & p0 & Hi0 & Hp0). pose proof (preach_pinv s Hr) as HI.
  destruct (running_calm c s HI Hrun) as (k & me & pm & Hcalm & Hcp & Hme & Hs & _ & Hof).
  destruct HI as [HT _]. pose proof (ti_len _ _ _ HT) as Hlen.
  destruct s as [L T n ip f C Q w]. cbn [locks ptable cpus nextpid initproc] in *.
  rewrite (kill_eq c k L T n ip f C Q w 0 Hcalm Hlen).
  destruct (list_find _ T) as [[i p]|] eqn:Hf.
  2:{ apply list_find_None in Hf. by destruct (Forall_lookup_1 _ _ _ _ Hf Hi0). }
  apply list_find_Some in Hf as (Hi & Hp & _).
  assert (p_state p = UNUSED) as Hu.
  { destruct (decide (p_state p = UNUSED)) as [|Hn]; [done|]. pose proof (ti_pid _ _ _ HT i p Hi Hn). lia. }
  assert (kill_mark p = set_killed true p) as Hk by (unfold kill_mark; by rewrite Hu).
  exists i, p. eexists. split; [reflexivity|]. split; [done|]. split; [done|]. cbn [ptable].
  rewrite Hk. split; [done|]. intros r s2 q E Hq Hnq.
  assert (i <> me) as Hne by congruence.
  destruct (fork_inv c (settle k) me pm L (<[i := set_killed true p]> T) n ip f (<[c := settle k]> C) Q w r s2)
    as (T' & n' & w' & -> & Hor); try done.
  { by apply calm_settle. } { by rewrite list_lookup_insert_ne. } { by rewrite Hs. }
  { by rewrite length_insert. }
  { assert (forall j pj, T !! j = Some pj -> p_state pj = UNUSED -> p_ofile pj = replicate NOFILE None) as Hbare.
    { intros j pj Hj Hju. apply bare_files; [by apply (ti_unused _ _ _ HT j pj)|by apply (ti_ofile _ _ _ HT j pj)]. }
    intros j pj [(<- & <- & _)|[_ Hj]]%list_lookup_insert_Some; [|exact (Hbare _ _ Hj)].
    intros _. exact (Hbare i p Hi Hu). }
  cbn [ptable] in Hq. pose proof (lookup_lt_Some _ _ _ Hi) as Hlt.
  destruct Hor as [(_ & -> & _)|(j & pj & pj' & Hj & Hju & _ & -> & Hor)].
  { rewrite list_lookup_insert_eq in Hq by done. by simplify_eq. }
  apply list_lookup_insert_Some in Hq as [(-> & -> & _)|[Hji Hq]].
  - rewrite list_lookup_insert_eq in Hj by done. simplify_eq.
    destruct Hor as [(_ & Hx)|(_ & _ & _ & _ & _ & _ & _ & -> & _)]; done.
  - rewrite list_lookup_insert_eq in Hq by done. by simplify_eq.
Qed.

End props.

(** * A small kernel to run *)

(** Pages are handed out in order and never run out; every other service
    succeeds without effect. *)
#[export] Instance demo_kernel : Kernel Z := {
  k_kalloc := fun w => Ok w (w + 4096);
  k_kfree := fun _ => ret tt;
  k_setupkvm := fun w => Ok w (w + 4096);
  k_inituvm := fun _ _ => ret tt;
  k_copyuvm := fun _ _ w => Ok w (w + 4096);
  k_freevm := fun _ => ret tt;
  k_allocuvm := fun _ _ n => ret n;
  k_deallocuvm := fun _ _ n => ret n;
  k_switchuvm := fun _ => ret tt;
  k_filedup := fun f => ret f;
  k_fileclose := fun _ => ret tt;
  k_idup := fun d => ret d;
  k_iput := fun _ => ret tt;
  k_begin_op := ret tt;
  k_end_op := ret tt;
  k_iinit := ret tt;
  k_initlog := ret tt;
  k_namei := fun _ => ret (Some 0%nat)
}.

#[export] Instance demo_nosleep : NoSleep (W:=Z).
Proof. split; intros; done. Qed.

#[export] Instance demo_dup : DupSame (W:=Z).
Proof. split; intros ???? [= <- _]; done. Qed.

Definition boot_state : pstate Z :=
  PState [free_lock; free_lock] (replicate NPROC proc0) 1 None true
    [Cpu 0 false false None; Cpu 0 false false None] [None; None] 4096.

Definition after {A} (m : M (pstate Z) A) (s : pstate Z) : pstate Z :=
  match m s with Ok _ s' | Sleep _ s' => s' | _ => s end.

(** Boot, and the first turn of the scheduler of CPU 0. *)
Definition demo_boot : pstate Z := after (userinit 0 []) boot_state.
Definition demo_enter : pstate Z := after (scheduler_enter 0) demo_boot.
Definition demo_turn (c i : nat) (s : pstate Z) : pstate Z :=
  after (ctx <- scheduler_turn c i ;; resume c Null 0 ctx) s.
Definition demo_init : pstate Z := demo_turn 0 0 demo_enter.

Lemma demo_zeroed : zeroed 0 boot_state.
Proof.
  split; try done.
  - intros [|[|j]] lk; simpl; intros; by simplify_eq.
  - intros [|[|j]] k; simpl; intros; by simplify_eq.
Qed.

Lemma demo_init_sreach : sreach demo_init ∅.
Proof.
  assert (sreach demo_boot ∅) as H1.
  { eapply (pr_boot 0 [] boot_state); [apply demo_zeroed|]. vm_compute. reflexivity. }
  assert (sreach demo_enter ∅) as H2.
  { eapply pr_step; [exact H1|]. apply (st_enter 0); [vm_compute; reflexivity|vm_compute; lia|
      vm_compute; reflexivity|vm_compute; reflexivity]. }
  eapply pr_step; [exact H2|]. apply (st_turn 0 0 Null 0);
    [vm_compute; reflexivity|unfold NPROC; lia|vm_compute; reflexivity].
Qed.

Lemma demo_init_reach : preach demo_init.
Proof. exists ∅. apply demo_init_sreach. Qed.

Lemma demo_init_running : running 0 demo_init.
Proof. split; vm_compute; [eauto|reflexivity]. Qed.

(** ** Schedules of the small kernel *)

(** [PGo c]: the process of CPU [c], in [fork] or [exit], runs its next stretch. *)
Inductive pact : Type :=
| PFork (c : nat) | PExit (c : nat) (v : Z) | PGo (c : nat) | PWait (c : nat) (st : intptr) | PKill (c : nat) (pid : Z)
| PYield (c : nat) | PEnter (c : nat) | PTurn (c : nat) | PLeave (c : nat).

Definition runningb (c : nat) (s : pstate Z) : bool :=
  match cpu_proc c s, locks s !! PTABLE_LOCK with
  | Some _, Some l => negb (locked l) && bool_decide (lk_cpu l = None)
  | _, _ => false
  end.

Definition okst {A B} (r : res (pstate Z) A) (k : A -> B) : option (pstate Z * B) :=
  match r with Ok a s => Some (s, k a) | _ => None end.

Definition run_stage (c me : nat) (st : stage) (s : pstate Z) (g : stages) : option (pstate Z * stages) :=
  match st with
  | ForkStack np => okst (allocproc_stack np s) (fun r => set_stage me (ForkVm <$> r) g)
  | ForkVm np => okst (fork_vm me np s) (fun r => set_stage me (if r then Some (ForkFd np 0) else None) g)
  | ForkFd np i =>
      if (i <? NOFILE)%nat then okst (fork_fd me np (Z.of_nat i) s) (fun _ => set_stage me (Some (ForkFd np (i + 1))) g)
      else if (i =? NOFILE)%nat then okst (fork_cwd me np s) (fun _ => set_stage me (Some (ForkRun np)) g)
      else None
  | ForkRun np => if runningb c s then okst (fork_run c np s) (fun _ => set_stage me None g) else None
  | ExitFd v i =>
      if (i <? NOFILE)%nat then okst (exit_fd me (Z.of_nat i) s) (fun _ => set_stage me (Some (ExitFd v (i + 1))) g)
      else if (i =? NOFILE)%nat then okst (exit_cwd me s) (fun _ => set_stage me (Some (ExitDie v)) g)
      else None
  | ExitDie v => if runningb c s then okst (exit_die c me v s) (fun _ => set_stage me None g) else None
  end.

(** The process of CPU [c], at the start of a system call. *)
Definition idle_proc (c : nat) (s : pstate Z) (g : stages) : option nat :=
  me ← cpu_proc c s; match g !! me with None => Some me | Some _ => None end.

Definition run_pact (a : pact) (y : pstate Z * stages) : option (pstate Z * stages) :=
  let '(s, g) := y in
  match a with
  | PFork c =>
      me ← idle_proc c s g;
      if runningb c s && (nextpid s <? 2 ^ 31 - 1)
      then okst (allocproc_find c s) (fun r => set_stage me (ForkStack <$> r) g) else None
  | PExit c v =>
      me ← idle_proc c s g;
      if bool_decide (initproc s = Some me) then None else Some (s, set_stage me (Some (ExitFd v 0)) g)
  | PGo c => me ← cpu_proc c s; st ← g !! me; run_stage c me st s g
  | PWait c st =>
      _ ← idle_proc c s g;
      if runningb c s then match wait c st 0 s with Ok _ s' | Sleep _ s' => Some (s', g) | _ => None end
      else None
  | PKill c pid => _ ← idle_proc c s g; if runningb c s then okst (kill c pid s) (fun _ => g) else None
  | PYield c => if runningb c s then okst (yield c s) (fun _ => g) else None
  | PEnter c =>
      match cpu_proc c s, cpus s !! c, locks s !! PTABLE_LOCK with
      | None, Some _, Some (Spinlock false None) => okst (scheduler_enter c s) (fun _ => g)
      | _, _, _ => None
      end
  | PTurn c =>
      match sched_pos s !! c with
      | Some (Some i) =>
          if (i <? NPROC)%nat then okst ((ctx <- scheduler_turn c i ;; resume c Null 0 ctx) s) (fun _ => g) else None
      | _ => None
      end
  | PLeave c =>
      match sched_pos s !! c with
      | Some (Some i) => if (i =? NPROC)%nat then okst (scheduler_leave c s) (fun _ => g) else None
      | _ => None
      end
  end.

Fixpoint run_pacts (l : list pact) (y : pstate Z * stages) : option (pstate Z * stages) :=
  match l with
  | [] => Some y
  | a :: l' => y' ← run_pact a y; run_pacts l' y'
  end.

Lemma runningb_ok c s : runningb c s = true -> running c s.
Proof.
  unfold runningb, running. destruct (cpu_proc c s); [|done].
  destruct (locks s !! PTABLE_LOCK) as [[b o]|]; [|done]. simpl.
  intros [E1 E2]%andb_true_iff. apply negb_true_iff in E1. apply bool_decide_eq_true in E2.
  subst. eauto.
Qed.

Lemma okst_ok {A B} (r : res (pstate Z) A) (k : A -> B) s b :
  okst r k = Some (s, b) -> exists a, r = Ok a s /\ b = k a.
Proof. destruct r; simpl; [|done..]. intros [= <- <-]. eauto. Qed.

Lemma idle_proc_ok c s g me : idle_proc c s g = Some me -> cpu_proc c s = Some me /\ g !! me = None.
Proof. unfold idle_proc. intros (i & Hi & E)%bind_Some. destruct (g !! i) eqn:Eg; [done|]. by injection E as <-. Qed.

Lemma run_stage_step c me st s g s' g' :
  cpu_proc c s = Some me -> g !! me = Some st -> run_stage c me st s g = Some (s', g') -> pstep s g s' g'.
Proof.
  intros Hc Hg E. destruct st as [np|np|np i|np|v i|v]; cbn [run_stage] in E.
  - apply okst_ok in E as (r & E & ->). by eapply st_fork_stack.
  - apply okst_ok in E as (r & E & ->). by eapply st_fork_vm.
  - destruct (Nat.ltb_spec i NOFILE); [|destruct (Nat.eqb_spec i NOFILE) as [->|]; [|done]];
      apply okst_ok in E as ([] & E & ->); [by eapply st_fork_fd|by eapply st_fork_cwd].
  - destruct (runningb c s) eqn:Hr; [|done]. apply okst_ok in E as (r & E & ->).
    eapply st_fork_run; eauto using runningb_ok.
  - destruct (Nat.ltb_spec i NOFILE); [|destruct (Nat.eqb_spec i NOFILE) as [->|]; [|done]];
      apply okst_ok in E as ([] & E & ->); [by eapply st_exit_fd|by eapply st_exit_cwd].
  - destruct (runningb c s) eqn:Hr; [|done]. apply okst_ok in E as ([] & E & ->).
    eapply st_exit_die; eauto using runningb_ok.
Qed.

Lemma run_pact_step a s g s' g' : run_pact a (s, g) = Some (s', g') -> pstep s g s' g'.
Proof.
  destruct a as [c|c v|c|c st|c pid|c|c|c|c]; cbn [run_pact]; intros E.
  - apply bind_Some in E as (me & [Hc Hg]%idle_proc_ok & E). destruct (runningb c s) eqn:Hr; [|done].
    destruct (Z.ltb_spec (nextpid s) (2 ^ 31 - 1)); [|done]. simpl in E. apply okst_ok in E as (r & E & ->).
    eapply st_fork; eauto using runningb_ok.
  - apply bind_Some in E as (me & [Hc Hg]%idle_proc_ok & E).
    destruct (bool_decide (initproc s = Some me)) eqn:Hi; [done|]. apply bool_decide_eq_false in Hi.
    injection E as <- <-. by eapply st_exit.
  - apply bind_Some in E as (me & Hc & E). apply bind_Some in E as (st & Hg & E). by eapply run_stage_step.
  - apply bind_Some in E as (me & [Hc Hg]%idle_proc_ok & E). destruct (runningb c s) eqn:Hr; [|done].
    destruct (wait c st 0 s) as [r s1|e|ch s1|] eqn:Ew; [| done | |done]; injection E as <- <-.
    + eapply st_wait; eauto using runningb_ok.
    + eapply st_wait_sleep; eauto using runningb_ok.
  - apply bind_Some in E as (me & [Hc Hg]%idle_proc_ok & E). destruct (runningb c s) eqn:Hr; [|done].
    apply okst_ok in E as (r & E & ->). eapply st_kill; eauto using runningb_ok.
  - destruct (runningb c s) eqn:Hr; [|done]. apply okst_ok in E as ([] & E & ->).
    eapply st_yield; eauto using runningb_ok.
  - destruct (cpu_proc c s) eqn:Hp; [done|]. destruct (cpus s !! c) eqn:Hc; [|done].
    destruct (locks s !! PTABLE_LOCK) as [[[|] [|]]|] eqn:Hl; try done.
    apply okst_ok in E as ([] & E & ->). eapply st_enter; eauto. by eapply lookup_lt_Some.
  - destruct (sched_pos s !! c) as [[i|]|] eqn:Hq; [|done..].
    destruct (Nat.ltb_spec i NPROC); [|done]. apply okst_ok in E as ([] & E & ->). eapply st_turn; eauto.
  - destruct (sched_pos s !! c) as [[i|]|] eqn:Hq; [|done..].
    destruct (Nat.eqb_spec i NPROC) as [->|]; [|done]. apply okst_ok in E as ([] & E & ->). eapply st_leave; eauto.
Qed.

Lemma run_pacts_reach l y y' : sreach y.1 y.2 -> run_pacts l y = Some y' -> sreach y'.1 y'.2.
Proof.
  revert y. induction l as [|a l IH]; intros [s g] Hs; simpl; [by intros [= <-]|].
  intros ([s1 g1] & E1 & E2)%bind_Some. eapply IH; [|exact E2]. eapply pr_step; [done|].
  by eapply run_pact_step.
Qed.

(** A whole [fork] and a whole [exit] on CPU [c]. *)
Definition fork_acts (c : nat) : list pact := PFork c :: replicate 20 (PGo c).
Definition exit_acts (c : nat) (v : Z) : list pact := PExit c v :: replicate 18 (PGo c).

(** init forks a child and yields; the child exits with status 7; the scheduler
    finishes its round and comes back to init. *)
Definition zombie_acts : list pact := fork_acts 0 ++ [PYield 0; PTurn 0] ++ exit_acts 0 7.
Definition back_acts : list pact := zombie_acts ++ replicate 62 (PTurn 0) ++ [PLeave 0; PEnter 0; PTurn 0].


Definition run_to (l : list pact) : pstate Z * stages := default (demo_init, ∅) (run_pacts l (demo_init, ∅)).
Definition run_from (l : list pact) : pstate Z := (run_to l).1.

Lemma run_to_reach l : is_Some (run_pacts l (demo_init, ∅)) -> sreach (run_to l).1 (run_to l).2.
Proof.
  intros [y E]. unfold run_to. rewrite E. simpl. by apply (run_pacts_reach l (demo_init, ∅) y demo_init_sreach).
Qed.

Lemma run_from_reach l : is_Some (run_pacts l (demo_init, ∅)) -> preach (run_from l).
Proof. intros Hl. exists (run_to l).2. by apply run_to_reach. Qed.

Definition demo_zombie : pstate Z := run_from zombie_acts.
Definition demo_back : pstate Z := run_from back_acts.

Lemma demo_back_reach : preach demo_back.
Proof. apply run_from_reach. vm_compute. eauto. Qed.

Lemma demo_back_running : running 0 demo_back.
Proof. apply runningb_ok. vm_compute. reflexivity. Qed.


Lemma exit_not_missed_witness :
  exists q pq, p_parent (proc_at 1 demo_zombie) = Some q /\ ptable demo_zombie !! q = Some pq /\
    alive pq /\ ~ in_wait q pq.
Proof.
  apply (exit_not_missed demo_zombie 1 (proc_at 1 demo_zombie)).
  - apply run_from_reach. vm_compute. eauto.
  - vm_compute. reflexivity.
  - vm_compute. reflexivity.
Defined.


(** Slot 1 holds exit status 7, and the variable of init holds 5; the same table
    with 99 in slot 1. *)
Lemma wait_ignores_status_witness :
  p_exitstat (proc_at 1 demo_back) = 7 /\
  exists r s1,
    wait 0 Caller 5 demo_back = Ok r s1 /\
    unmoved 5 r s1
      (wait 0 Caller 5 (set_ptable (imap (fun i p => set_exitstat 99 p) (ptable demo_back)) demo_back)).
Proof.
  split; [vm_compute; reflexivity|].
  destruct (wait 0 Caller 5 demo_back) as [r s1| | |] eqn:E1;
    [|vm_compute in E1; discriminate E1..].
  exists r, s1. split; [reflexivity|].
  refine (proj1 (wait_ignores_status 0 demo_back _ Caller 5 r s1 _ _) _ _);
    [apply demo_back_reach|exists (fun _ => 99); reflexivity|apply demo_back_running|exact E1].
Defined.


(** init sleeps in [wait], and its child runs. *)
Definition demo_asleep : pstate Z := run_from (fork_acts 0 ++ [PWait 0 Caller; PTurn 0]).

Lemma wakeup_wakes_witness :
  p_state (proc_at 0 demo_asleep) = SLEEPING /\
  exists s', wakeup 0 (CProc 0) demo_asleep = Ok tt s' /\
    forall i p, ptable demo_asleep !! i = Some p -> exists p', ptable s' !! i = Some p' /\
      (p_state p = SLEEPING /\ p_chan p = Some (CProc 0) -> p_state p' = RUNNABLE) /\
      (~ (p_state p = SLEEPING /\ p_chan p = Some (CProc 0)) -> p' = p).
Proof.
  split; [vm_compute; reflexivity|]. apply (wakeup_wakes 0 demo_asleep (CProc 0)).
  - apply run_from_reach. vm_compute. eauto.
  - apply runningb_ok. vm_compute. reflexivity.
Defined.

Lemma kill_zero_witness :
  exists i p s', kill 0 0 demo_init = Ok 0 s' /\ ptable demo_init !! i = Some p /\ p_state p = UNUSED /\
    ptable s' = <[i := set_killed true p]> (ptable demo_init) /\
    forall r s2 q, fork 0 s' = Ok r s2 -> ptable s2 !! i = Some q -> p_state q <> UNUSED ->
      p_killed q = true.
Proof.
  apply (kill_zero 0 demo_init).
  - apply demo_init_reach.
  - apply demo_init_running.
  - exists 1%nat, (proc_at 1 demo_init). split; vm_compute; reflexivity.
Defined.
