(* ===== verification/Sleeplock.v ===== *)
(** Sleep locks (sleeplock.c), as the process that runs sees them. *)
From stdpp Require Import base strings.
From S2P Require Import Prelude.

(** [struct sleeplock]; [sl_lk] is the spin lock that protects it. *)
Record sleeplock := Sleeplock {
  sl_locked : bool;
  sl_lk : bool;
  sl_name : string;
  sl_pid : Z
}.

Definition set_sl_lk (b : bool) (l : sleeplock) : sleeplock :=
  Sleeplock (sl_locked l) b (sl_name l) (sl_pid l).
Definition set_sl_owner (b : bool) (pid : Z) (l : sleeplock) : sleeplock :=
  Sleeplock b (sl_lk l) (sl_name l) pid.

Definition initsleeplock (name : string) : sleeplock :=
  Sleeplock false false name 0.

(** [acquiresleep] by the process [pid], up to the first [sleep] on the lock's
    channel [c]: [sleep] gives the spin lock back before it sleeps. *)
Definition acquiresleep (c : chan) (pid : Z) : M sleeplock unit :=
  acquire sl_lk set_sl_lk ;;
  l <- gets sl_locked ;;
  if l then release sl_lk set_sl_lk ;; msleep c
  else
    modify (set_sl_owner true pid) ;;
    release sl_lk set_sl_lk.

Definition releasesleep (c : chan) : M sleeplock unit :=
  acquire sl_lk set_sl_lk ;;
  modify (set_sl_owner false 0) ;;
  wakeup c ;;
  release sl_lk set_sl_lk.

Definition holdingsleep : M sleeplock bool :=
  acquire sl_lk set_sl_lk ;;
  r <- gets sl_locked ;;
  release sl_lk set_sl_lk ;;
  ret r.

(** A lock at rest: nobody is inside one of the three functions above. *)
Definition sl_rest (l : sleeplock) : Prop := sl_lk l = false.

Lemma acquiresleep_free c pid l :
  sl_rest l -> sl_locked l = false ->
  acquiresleep c pid l = Ok tt (Sleeplock true false (sl_name l) pid).
Proof. destruct l; unfold sl_rest; simpl; by intros -> ->. Qed.

Lemma acquiresleep_taken c pid l :
  sl_rest l -> sl_locked l = true -> acquiresleep c pid l = Sleep c l.
Proof. destruct l; unfold sl_rest; simpl; by intros -> ->. Qed.

Lemma releasesleep_ok c l :
  sl_rest l -> releasesleep c l = Ok tt (Sleeplock false false (sl_name l) 0).
Proof. destruct l; unfold sl_rest; simpl; by intros ->. Qed.

Lemma holdingsleep_ok l :
  sl_rest l -> holdingsleep l = Ok (sl_locked l) l.
Proof. destruct l; unfold sl_rest; simpl; by intros ->. Qed.
