(* ===== verification/Disk.v ===== *)
(** Disk buffers (buf.h), the promise of a disk driver to the buffer cache, and
    the memory disk of memide.c, which keeps it. *)
From stdpp Require Import base numbers list strings.
From Stdlib Require Import ZArith Lia.
From S2P Require Import Prelude Bytes Sleeplock.

Definition BSIZE : Z := 512.
Definition ROOTDEV : Z := 1.
Definition FSSIZE : Z := 1000.
Definition B_VALID : Z := 2.
Definition B_DIRTY : Z := 4.

(** The content of a disk block: [BSIZE] bytes. *)
Abbreviation block := (list Z).

Definition is_block (b : block) : Prop :=
  length b = Z.to_nat BSIZE /\ Forall is_u8 b.

(** [struct buf]; [prev] and [next] are indices into [bcache.buf], with the
    list head [bcache.head] as the index after the last buffer. *)
Record buf := Buf {
  b_flags : Z;
  b_dev : Z;
  b_blockno : Z;
  b_lock : sleeplock;
  b_refcnt : Z;
  b_prev : nat;
  b_next : nat;
  b_data : block
}.

Definition set_flags (f : Z) (b : buf) : buf :=
  Buf f (b_dev b) (b_blockno b) (b_lock b) (b_refcnt b) (b_prev b) (b_next b) (b_data b).
Definition set_id (d n : Z) (b : buf) : buf :=
  Buf (b_flags b) d n (b_lock b) (b_refcnt b) (b_prev b) (b_next b) (b_data b).
Definition set_lock (l : sleeplock) (b : buf) : buf :=
  Buf (b_flags b) (b_dev b) (b_blockno b) l (b_refcnt b) (b_prev b) (b_next b) (b_data b).
Definition set_refcnt (r : Z) (b : buf) : buf :=
  Buf (b_flags b) (b_dev b) (b_blockno b) (b_lock b) r (b_prev b) (b_next b) (b_data b).
Definition set_prev (p : nat) (b : buf) : buf :=
  Buf (b_flags b) (b_dev b) (b_blockno b) (b_lock b) (b_refcnt b) p (b_next b) (b_data b).
Definition set_next (n : nat) (b : buf) : buf :=
  Buf (b_flags b) (b_dev b) (b_blockno b) (b_lock b) (b_refcnt b) (b_prev b) n (b_data b).
Definition set_data (d : block) (b : buf) : buf :=
  Buf (b_flags b) (b_dev b) (b_blockno b) (b_lock b) (b_refcnt b) (b_prev b) (b_next b) d.

(** Is a flag bit set? *)
Definition has (f bit : Z) : bool := negb (Z.land f bit =? 0).

(** * The promise of a disk driver *)

(** [iderw(b)]: the driver's entry point, on the buffer and the disk. *)
Class DiskOps (D : Type) := iderw : buf -> M D buf.

(** What the buffer cache relies on.  [dblocks] is the content of the disk and
    [dwrites] the history of the block writes that reached it. *)
Class Disk (D : Type) `{DiskOps D} := {
  dblocks : D -> list block;
  dwrites : D -> list (Z * block);
  dwf : D -> Prop;
  iderw_read : forall b d blk,
    dwf d -> sl_rest (b_lock b) -> sl_locked (b_lock b) = true ->
    b_flags b = 0 -> b_dev b = ROOTDEV -> 0 <= b_blockno b ->
    dblocks d !! Z.to_nat (b_blockno b) = Some blk ->
    exists d', iderw b d = Ok (set_flags B_VALID (set_data blk b)) d' /\
      dwf d' /\ dblocks d' = dblocks d /\ dwrites d' = dwrites d;
  iderw_write : forall b d,
    dwf d -> sl_rest (b_lock b) -> sl_locked (b_lock b) = true ->
    b_flags b = B_DIRTY \/ b_flags b = Z.lor B_VALID B_DIRTY ->
    b_dev b = ROOTDEV -> 0 <= b_blockno b < Z.of_nat (length (dblocks d)) ->
    is_block (b_data b) ->
    exists d', iderw b d = Ok (set_flags B_VALID b) d' /\
      dwf d' /\ dblocks d' = <[Z.to_nat (b_blockno b) := b_data b]> (dblocks d) /\
      dwrites d' = dwrites d ++ [(b_blockno b, b_data b)];
  iderw_range : forall b d,
    dwf d -> sl_rest (b_lock b) -> sl_locked (b_lock b) = true ->
    b_flags b = 0 \/ b_flags b = B_DIRTY \/ b_flags b = Z.lor B_VALID B_DIRTY ->
    b_dev b = ROOTDEV ->
    Z.of_nat (length (dblocks d)) <= b_blockno b ->
    exists msg, iderw b d = Panic msg;
  dblocks_wf : forall d, dwf d -> Forall is_block (dblocks d)
}.

(** * The memory disk (memide.c) *)

Module MemIde.

(** [memdisk] is the file-system image as a byte array, [md_writes] a ghost
    history of the blocks copied into it. *)
Record memide := MemDisk {
  memdisk : list Z;
  disksize : Z;
  md_writes : list (Z * block)
}.

Definition ideinit (img : list Z) : memide :=
  MemDisk img (Z.of_nat (length img) / BSIZE) [].

Definition iderw (b : buf) : M memide buf := fun d =>
  match holdingsleep (b_lock b) with
  | Ok held l =>
      let b := set_lock l b in
      if negb held then Panic "iderw: buf not locked" else
      if Z.land (b_flags b) (Z.lor B_VALID B_DIRTY) =? B_VALID
      then Panic "iderw: nothing to do" else
      if negb (b_dev b =? 1) then Panic "iderw: request not for disk 1" else
      if disksize d <=? b_blockno b then Panic "iderw: block out of range" else
      let p := b_blockno b * BSIZE in
      let '(b, d) :=
        if has (b_flags b) B_DIRTY then
          (set_flags (Z.land (b_flags b) (Z.lnot B_DIRTY)) b,
           MemDisk (splice (memdisk d) p (b_data b)) (disksize d)
             (md_writes d ++ [(b_blockno b, b_data b)]))
        else (set_data (slice (memdisk d) p BSIZE) b, d) in
      Ok (set_flags (Z.lor (b_flags b) B_VALID) b) d
  | Panic e => Panic e
  | Sleep c _ => Sleep c d
  | Diverge => Diverge
  end.

(** The interrupt handler of the memory disk. *)
Definition ideintr : M memide unit := ret tt.

(** The image cut into blocks. *)
Definition blocks_of (n : nat) (img : list Z) : list block :=
  (fun i => slice img (Z.of_nat i * BSIZE) BSIZE) <$> seq 0 n.

Definition md_blocks (d : memide) : list block :=
  blocks_of (Z.to_nat (disksize d)) (memdisk d).

Definition md_wf (d : memide) : Prop :=
  0 <= disksize d /\
  disksize d * BSIZE <= Z.of_nat (length (memdisk d)) /\ Forall is_u8 (memdisk d).

End MemIde.

#[export] Instance memide_ops : DiskOps MemIde.memide := MemIde.iderw.

Lemma length_md_blocks d : length (MemIde.md_blocks d) = Z.to_nat (MemIde.disksize d).
Proof. unfold MemIde.md_blocks, MemIde.blocks_of. by rewrite length_fmap, length_seq. Qed.

Lemma md_blocks_lookup d i :
  (i < Z.to_nat (MemIde.disksize d))%nat ->
  MemIde.md_blocks d !! i = Some (slice (MemIde.memdisk d) (Z.of_nat i * BSIZE) BSIZE).
Proof.
  intros Hi. unfold MemIde.md_blocks, MemIde.blocks_of.
  rewrite list_lookup_fmap, lookup_seq_lt by done. done.
Qed.

Lemma set_lock_id b : set_lock (b_lock b) b = b.
Proof. by destruct b. Qed.

Lemma md_iderw_eq b d :
  sl_rest (b_lock b) -> sl_locked (b_lock b) = true ->
  b_flags b = 0 \/ b_flags b = B_DIRTY \/ b_flags b = Z.lor B_VALID B_DIRTY ->
  b_dev b = ROOTDEV ->
  MemIde.iderw b d =
    if MemIde.disksize d <=? b_blockno b then Panic "iderw: block out of range" else
    if b_flags b =? 0 then
      Ok (set_flags B_VALID
            (set_data (slice (MemIde.memdisk d) (b_blockno b * BSIZE) BSIZE) b)) d
    else
      Ok (set_flags B_VALID b)
        (MemIde.MemDisk (splice (MemIde.memdisk d) (b_blockno b * BSIZE) (b_data b))
           (MemIde.disksize d) (MemIde.md_writes d ++ [(b_blockno b, b_data b)])).
Proof.
  intros Hr Hl Hf Hd. unfold MemIde.iderw. rewrite holdingsleep_ok by done.
  rewrite set_lock_id, Hl. destruct b as [f dv n l r p x da]; simpl in *; subst dv.
  destruct Hf as [-> | [-> | ->]]; simpl; by destruct (_ <=? _).
Qed.

Lemma splice_blocks img n (k : Z) blk :
  Z.of_nat n * BSIZE <= Z.of_nat (length img) -> 0 <= k < Z.of_nat n ->
  length blk = Z.to_nat BSIZE ->
  MemIde.blocks_of n (splice img (k * BSIZE) blk) =
  <[Z.to_nat k := blk]> (MemIde.blocks_of n img).
Proof.
  intros Hn Hk Hb. unfold MemIde.blocks_of. apply list_eq. intros i.
  assert (Z.of_nat (length blk) = BSIZE) as Hb' by (rewrite Hb; done).
  unfold BSIZE in *.
  destruct (decide (i < n)%nat) as [Hi|Hi].
  - rewrite list_lookup_fmap, lookup_seq_lt by done. simpl.
    destruct (decide (i = Z.to_nat k)) as [->|Hne].
    + rewrite list_lookup_insert_eq by (rewrite length_fmap, length_seq; lia).
      f_equal. rewrite Z2Nat.id by lia. pose proof (slice_splice_eq img (k * 512) blk) as E.
      rewrite Hb' in E. apply E; lia.
    + rewrite list_lookup_insert_ne by done.
      rewrite list_lookup_fmap, lookup_seq_lt by done. simpl. f_equal.
      apply slice_splice_disj; lia.
  - rewrite !lookup_ge_None_2; [done| |]; rewrite ?length_insert, length_fmap, length_seq; lia.
Qed.

#[export, program] Instance memide_disk : Disk MemIde.memide := {
  dblocks := MemIde.md_blocks;
  dwrites := MemIde.md_writes;
  dwf := MemIde.md_wf
}.
Next Obligation.
  intros b d blk (Hs & Hsz & H8) Hr Hl Hf Hd Hn Hb.
  assert (Z.to_nat (b_blockno b) < Z.to_nat (MemIde.disksize d))%nat as Hlt.
  { rewrite <- length_md_blocks. by eapply lookup_lt_Some. }
  rewrite md_blocks_lookup in Hb by done. injection Hb as <-.
  exists d. unfold iderw, memide_ops. rewrite md_iderw_eq by auto.
  destruct (Z.leb_spec (MemIde.disksize d) (b_blockno b)); [lia|].
  rewrite Hf. rewrite Z2Nat.id by done. simpl. unfold MemIde.md_wf. auto.
Qed.
Next Obligation.
  intros b d (Hs & Hsz & H8) Hr Hl Hf Hd Hn (Hbl & Hb8).
  rewrite length_md_blocks in Hn.
  unfold iderw, memide_ops. rewrite md_iderw_eq by tauto.
  destruct (Z.leb_spec (MemIde.disksize d) (b_blockno b)); [lia|].
  assert ((b_flags b =? 0) = false) as -> by (destruct Hf as [-> | ->]; done).
  eexists; split; [done|]. unfold MemIde.md_wf, MemIde.md_blocks; simpl.
  assert (b_blockno b * BSIZE + Z.of_nat (length (b_data b)) <= Z.of_nat (length (MemIde.memdisk d))).
  { rewrite Hbl. unfold BSIZE in *. lia. }
  unfold BSIZE in *.
  split_and!; [done| |by apply splice_u8| |done].
  - rewrite length_splice by lia. done.
  - apply splice_blocks; unfold BSIZE; lia.
Qed.
Next Obligation.
  intros b d (Hs & Hsz & H8) Hr Hl Hf Hd Hn. rewrite length_md_blocks in Hn.
  eexists. unfold iderw, memide_ops. rewrite md_iderw_eq by tauto.
  destruct (Z.leb_spec (MemIde.disksize d) (b_blockno b)); [done|lia].
Qed.
Next Obligation.
  intros d (Hs & Hsz & H8). apply Forall_lookup. intros i blk Hi.
  assert (i < Z.to_nat (MemIde.disksize d))%nat as Hlt.
  { rewrite <- length_md_blocks. by eapply lookup_lt_Some. }
  rewrite md_blocks_lookup in Hi by done. injection Hi as <-.
  split; [|by apply slice_u8].
  unfold BSIZE in *.
  pose proof (length_slice (MemIde.memdisk d) (Z.of_nat i * 512) 512). lia.
Qed.
