(* ===== verification/Dll.v ===== *)
(** Circular doubly linked lists given by their [next] and [prev] fields, and
    the two pointer idioms of the kernel: unlink a node, and insert a node
    right after the head. *)
From stdpp Require Import base list sets.

Definition fupd (f : nat -> nat) (x v : nat) : nat -> nat :=
  fun y => if decide (y = x) then v else f y.

Lemma fupd_eq f x v : fupd f x v x = v.
Proof. unfold fupd. by rewrite decide_True. Qed.

Lemma fupd_ne f x v y : y <> x -> fupd f x v y = f y.
Proof. intros. unfold fupd. by rewrite decide_False. Qed.

(** [chain nx pv x l]: following [nx] from [x] visits [l] in order, and [pv]
    leads back. *)
Fixpoint chain (nx pv : nat -> nat) (x : nat) (l : list nat) : Prop :=
  match l with
  | [] => True
  | y :: l' => nx x = y /\ pv y = x /\ chain nx pv y l'
  end.

(** The ring through head [h] visiting [l]. *)
Definition ring (nx pv : nat -> nat) (h : nat) (l : list nat) : Prop :=
  NoDup (h :: l) /\ chain nx pv h (l ++ [h]).

Lemma chain_app nx pv x l1 y l2 :
  chain nx pv x (l1 ++ y :: l2) <->
  chain nx pv x (l1 ++ [y]) /\ chain nx pv y l2.
Proof.
  revert x. induction l1 as [|z l1 IH]; intros x; simpl; [tauto|].
  rewrite IH. tauto.
Qed.

(** Only the [next] of the nodes before the last one and the [prev] of the
    nodes after the first one matter. *)
Lemma chain_ext nx pv nx' pv' x l e :
  (forall y, y ∈ x :: l -> nx' y = nx y) ->
  (forall y, y ∈ l ++ [e] -> pv' y = pv y) ->
  chain nx pv x (l ++ [e]) -> chain nx' pv' x (l ++ [e]).
Proof.
  revert x. induction l as [|z l IH]; intros x Hn Hp; simpl.
  - intros (H1 & H2 & _). rewrite Hn, Hp by set_solver. done.
  - intros (H1 & H2 & H). rewrite Hn, Hp by set_solver.
    split_and!; [done..|]. apply IH; [set_solver..|done].
Qed.

Lemma chain_prev_in nx pv x y l1 b r :
  chain nx pv x ((y :: l1) ++ b :: r) -> pv b ∈ y :: l1.
Proof.
  revert x y. induction l1 as [|z l1 IH]; intros x y; simpl.
  - intros (_ & _ & _ & -> & _). set_solver.
  - intros (_ & _ & H). specialize (IH y z H). set_solver.
Qed.

Lemma chain_unlink nx pv x l1 b l2 e :
  NoDup (x :: l1 ++ b :: l2) -> e ∉ l1 ++ b :: l2 ->
  chain nx pv x (l1 ++ b :: l2 ++ [e]) ->
  chain (fupd nx (pv b) (nx b)) (fupd pv (nx b) (pv b)) x (l1 ++ l2 ++ [e]).
Proof.
  revert x. induction l1 as [|y l1 IH]; intros x Hnd He Hc.
  - simpl in *. destruct Hc as (_ & Hpb & Hc). rewrite Hpb.
    destruct l2 as [|n l2]; simpl in *.
    + destruct Hc as (-> & _). by rewrite !fupd_eq.
    + destruct Hc as (-> & _ & Hc). rewrite !fupd_eq. split_and!; [done..|].
      apply NoDup_cons in Hnd as [? Hnd]. apply NoDup_cons in Hnd as [? Hnd].
      apply NoDup_cons in Hnd as [? Hnd].
      eapply chain_ext, Hc; intros z Hz; apply fupd_ne; set_solver.
  - assert (pv b ∈ y :: l1) as Hin by (by eapply chain_prev_in).
    assert (nx b ∈ l2 ++ [e]) as Hnb.
    { apply (chain_app nx pv x (y :: l1) b (l2 ++ [e])) in Hc as [_ Hc].
      destruct l2; simpl in *; destruct Hc as (-> & _); set_solver. }
    simpl in Hc. destruct Hc as (Hxy & Hyx & Hc).
    simpl. rewrite !fupd_ne, Hxy, Hyx.
    + split_and!; [done..|]. apply IH; [|set_solver|done].
      apply NoDup_cons in Hnd. simpl in Hnd. tauto.
    + apply NoDup_cons in Hnd as [_ Hnd]. simpl in Hnd. apply NoDup_cons in Hnd.
      intros ->. set_solver.
    + apply NoDup_cons in Hnd. intros ->. set_solver.
Qed.

(** [b->next->prev = b->prev; b->prev->next = b->next]. *)
Lemma ring_unlink nx pv h l1 b l2 :
  ring nx pv h (l1 ++ b :: l2) ->
  ring (fupd nx (pv b) (nx b)) (fupd pv (nx b) (pv b)) h (l1 ++ l2).
Proof.
  intros [Hnd Hc]. split.
  - apply NoDup_cons in Hnd as [Hh Hnd]. apply NoDup_cons. split; [set_solver|].
    apply NoDup_app in Hnd as (? & ? & Hnd2). apply NoDup_cons in Hnd2.
    apply NoDup_app. set_solver.
  - rewrite <- app_assoc in Hc |- *. simpl in Hc. apply chain_unlink; [done| |done].
    apply NoDup_cons in Hnd. tauto.
Qed.

(** [b->next = head.next; b->prev = &head; head.next->prev = b; head.next = b]. *)
Lemma ring_insert nx pv h l b :
  ring nx pv h l -> b ∉ h :: l ->
  ring (fupd (fupd nx b (nx h)) h b) (fupd (fupd pv b h) (nx h) b) h (b :: l).
Proof.
  intros [Hnd Hc] Hb. split.
  - apply NoDup_cons in Hnd. repeat (apply NoDup_cons; split); set_solver.
  - apply NoDup_cons in Hnd as [Hh Hnd]. simpl.
    assert (nx h ∈ l ++ [h]) as Hin.
    { destruct l; simpl in *; destruct Hc as (-> & _); set_solver. }
    rewrite fupd_eq. split; [done|]. split.
    { rewrite fupd_ne by set_solver. by rewrite fupd_eq. }
    destruct l as [|n l]; simpl in *.
    + destruct Hc as (-> & Hp & _). split_and!; [|by rewrite fupd_eq|done].
      rewrite fupd_ne by set_solver. by rewrite fupd_eq.
    + destruct Hc as (-> & Hp & Hc). rewrite fupd_eq.
      apply NoDup_cons in Hnd as [? Hnd].
      split_and!; [|done|].
      * rewrite fupd_ne by set_solver. by rewrite fupd_eq.
      * eapply chain_ext, Hc.
        -- intros y Hy. rewrite !fupd_ne; [done| |]; set_solver.
        -- intros y Hy. rewrite !fupd_ne; [done| |]; set_solver.
Qed.

(** A ring is a property of the values of its links. *)
Lemma ring_ext nx pv nx' pv' h l :
  (forall y, nx' y = nx y) -> (forall y, pv' y = pv y) ->
  ring nx pv h l -> ring nx' pv' h l.
Proof. intros Hn Hp [Hnd Hc]. split; [done|]. eapply chain_ext, Hc; auto. Qed.

(** Reading a ring from its head, forwards and backwards, visits its nodes. *)
Lemma ring_next nx pv h l1 b l2 :
  ring nx pv h (l1 ++ b :: l2) -> nx b = default h (head l2).
Proof.
  intros [_ Hc]. rewrite <- app_assoc in Hc. simpl in Hc.
  apply chain_app in Hc as [_ Hc]. destruct l2; simpl in *; tauto.
Qed.

Lemma ring_first nx pv h l : ring nx pv h l -> nx h = default h (head l).
Proof. intros [_ Hc]. destruct l; simpl in *; tauto. Qed.

Lemma ring_last nx pv h l : ring nx pv h l -> pv h = default h (last l).
Proof.
  intros [_ Hc]. destruct l as [|x l] using rev_ind; simpl in *; [tauto|].
  rewrite last_snoc. rewrite <- app_assoc in Hc. apply chain_app in Hc as [_ Hc].
  simpl in *. tauto.
Qed.

Lemma ring_prev nx pv h l1 b l2 :
  ring nx pv h (l1 ++ b :: l2) -> pv b = default h (last l1).
Proof.
  intros [_ Hc]. destruct l1 as [|x l1 _] using rev_ind; simpl in *; [tauto|].
  rewrite last_snoc. rewrite <- !app_assoc in Hc. apply chain_app in Hc as [_ Hc].
  simpl in *. tauto.
Qed.
