(* ===== verification/BlockLayer.v ===== *)
(** What the buffer cache promises to the log and the file system: a disk of
    blocks, seen through a cache of at most [NBUF] blocks that are locked by
    the running process or pinned by the log.  Bio.v proves that bio.c keeps
    this promise. *)
From stdpp Require Import base numbers list gmap sets strings.
From Stdlib Require Import ZArith Lia.
From S2P Require Import Prelude Bytes Disk.

Definition NBUF : nat := 30.

(** - [dsk]: the blocks on the disk;
    - [over]: the content of the blocks that are locked or pinned;
    - [held]: the blocks locked by the running process;
    - [dirty]: the blocks pinned by [B_DIRTY];
    - [wr]: the block writes that have reached the disk, oldest first. *)
Record bstate := BState {
  dsk : list block;
  over : gmap Z block;
  held : gset Z;
  dirty : gset Z;
  wr : list (Z * block)
}.

(** The block [n] of the disk, if there is one. *)
Definition dblk (s : bstate) (n : Z) : option block :=
  if n <? 0 then None else dsk s !! Z.to_nat n.

(** The current content of block [n]: the cached one, else the one on disk. *)
Definition cur (s : bstate) (n : Z) : option block :=
  match over s !! n with Some d => Some d | None => dblk s n end.

(** [bread(dev, n)] on the root device: a locked block and its content. *)
Definition bread (n : Z) : M bstate block := fun s =>
  if decide (n ∈ held s) then Sleep (CBuf ROOTDEV n) s else
  match over s !! n with
  | Some d => Ok d (BState (dsk s) (over s) ({[n]} ∪ held s) (dirty s) (wr s))
  | None =>
      if (NBUF <=? size (over s))%nat then Panic "bget: no buffers" else
      match dblk s n with
      | Some d =>
          Ok d (BState (dsk s) (<[n := d]> (over s)) ({[n]} ∪ held s) (dirty s) (wr s))
      | None => Panic "iderw: block out of range"
      end
  end.

(** Assignment to the [data] of a locked block. *)
Definition bset (n : Z) (d : block) : M bstate unit := fun s =>
  Ok tt (BState (dsk s) (<[n := d]> (over s)) (held s) (dirty s) (wr s)).

(** The [data] of a locked block. *)
Definition bdata (n : Z) : M bstate block := fun s =>
  Ok (default [] (over s !! n)) s.

(** [b->flags |= B_DIRTY] in [log_write]. *)
Definition bpin (n : Z) : M bstate unit := fun s =>
  Ok tt (BState (dsk s) (over s) (held s) ({[n]} ∪ dirty s) (wr s)).

Definition bwrite (n : Z) : M bstate unit := fun s =>
  if decide (n ∈ held s) then
    let d := default [] (over s !! n) in
    Ok tt (BState (<[Z.to_nat n := d]> (dsk s)) (over s) (held s) (dirty s ∖ {[n]})
             (wr s ++ [(n, d)]))
  else Panic "bwrite".

Definition brelse (n : Z) : M bstate unit := fun s =>
  if decide (n ∈ held s) then
    Ok tt (BState (dsk s) (if decide (n ∈ dirty s) then over s else delete n (over s))
             (held s ∖ {[n]}) (dirty s) (wr s))
  else Panic "brelse".

(** The states the cache can be in. *)
Record bwf (s : bstate) : Prop := {
  bwf_dsk : Forall is_block (dsk s);
  bwf_over : forall n d, over s !! n = Some d -> is_block d /\ is_Some (dblk s n);
  bwf_dom : dom (over s) = held s ∪ dirty s
}.

(** The state after [n] has been read and locked. *)
Definition bheld (n : Z) (d : block) (s : bstate) : bstate :=
  BState (dsk s) (<[n := d]> (over s)) ({[n]} ∪ held s) (dirty s) (wr s).

Lemma bread_ok n d s :
  n ∉ held s ->
  over s !! n = Some d \/ (over s !! n = None /\ (size (over s) < NBUF)%nat /\ dblk s n = Some d) ->
  bread n s = Ok d (bheld n d s).
Proof.
  intros Hh Ho. unfold bread, bheld. rewrite decide_False by done.
  destruct Ho as [Ho|(Ho & Hs & Hd)]; rewrite Ho.
  - by rewrite insert_id.
  - destruct (Nat.leb_spec NBUF (size (over s))); [lia|]. by rewrite Hd.
Qed.

Lemma bread_inv n d s s' :
  bread n s = Ok d s' ->
  s' = bheld n d s /\ n ∉ held s /\
  (over s !! n = Some d \/ over s !! n = None /\ dblk s n = Some d).
Proof.
  unfold bread, bheld. case_decide; [done|].
  destruct (over s !! n) as [d'|] eqn:Ho.
  - intros [= <- <-]. rewrite insert_id by done. auto.
  - destruct (_ <=? _)%nat; [done|]. destruct (dblk s n) eqn:Hd; [|done].
    intros [= <- <-]. auto.
Qed.

Lemma bwrite_inv n s u s' :
  bwrite n s = Ok u s' ->
  s' = BState (<[Z.to_nat n := default [] (over s !! n)]> (dsk s)) (over s) (held s)
         (dirty s ∖ {[n]}) (wr s ++ [(n, default [] (over s !! n))]) /\ n ∈ held s.
Proof. unfold bwrite. case_decide; [|done]. by intros [= _ <-]. Qed.

Lemma brelse_inv n s u s' :
  brelse n s = Ok u s' ->
  s' = BState (dsk s) (if decide (n ∈ dirty s) then over s else delete n (over s))
         (held s ∖ {[n]}) (dirty s) (wr s) /\ n ∈ held s.
Proof. unfold brelse. case_decide; [|done]. by intros [= _ <-]. Qed.

(** Writing block [n] of the disk, seen from block [m]. *)
Lemma dblk_insert d o h i w o' h' i' w' n m b :
  0 <= n < Z.of_nat (length d) ->
  dblk (BState (<[Z.to_nat n := b]> d) o h i w) m =
  if decide (m = n) then Some b else dblk (BState d o' h' i' w') m.
Proof.
  intros Hn. unfold dblk. simpl. destruct (Z.ltb_spec m 0).
  - by rewrite decide_False by lia.
  - case_decide as E; [subst; rewrite list_lookup_insert_eq by lia; done|].
    by rewrite list_lookup_insert_ne by lia.
Qed.

Lemma bwrite_ok n d s :
  n ∈ held s -> over s !! n = Some d ->
  bwrite n s = Ok tt (BState (<[Z.to_nat n := d]> (dsk s)) (over s) (held s)
                        (dirty s ∖ {[n]}) (wr s ++ [(n, d)])).
Proof. intros Hh Ho. unfold bwrite. by rewrite decide_True, Ho by done. Qed.

Lemma brelse_clean n s :
  n ∈ held s -> n ∉ dirty s ->
  brelse n s = Ok tt (BState (dsk s) (delete n (over s)) (held s ∖ {[n]}) (dirty s) (wr s)).
Proof. intros Hh Hd. unfold brelse. by rewrite decide_True, decide_False by done. Qed.

Lemma brelse_dirty n s :
  n ∈ held s -> n ∈ dirty s ->
  brelse n s = Ok tt (BState (dsk s) (over s) (held s ∖ {[n]}) (dirty s) (wr s)).
Proof. intros Hh Hd. unfold brelse. by rewrite !decide_True by done. Qed.

(** * States between operations *)

(** Block [n] of a disk. *)
Definition dat (d : list block) (n : Z) : option block :=
  if n <? 0 then None else d !! Z.to_nat n.

(** No block is locked; exactly the pinned blocks are cached. *)
Definition quiet (d : list block) (o : gmap Z block) (w : list (Z * block)) : bstate :=
  BState d o ∅ (dom o) w.

(** A sequence of block writes, done to a disk. *)
Definition apply_writes (ws : list (Z * block)) (d : list block) : list block :=
  foldl (fun d w => <[Z.to_nat w.1 := w.2]> d) d ws.

Lemma apply_app ws ws' d : apply_writes (ws ++ ws') d = apply_writes ws' (apply_writes ws d).
Proof. apply foldl_app. Qed.

Lemma length_apply ws d : length (apply_writes ws d) = length d.
Proof.
  revert d. induction ws as [|w ws IH]; intros d; [done|].
  simpl. by rewrite IH, length_insert.
Qed.

Lemma dat_Some d n : is_Some (dat d n) <-> 0 <= n < Z.of_nat (length d).
Proof.
  unfold dat. destruct (Z.ltb_spec n 0).
  - split; [intros [? ?]; done|lia].
  - rewrite lookup_lt_is_Some. lia.
Qed.

Lemma dat_insert_eq d n b : 0 <= n < Z.of_nat (length d) -> dat (<[Z.to_nat n := b]> d) n = Some b.
Proof.
  intros. unfold dat. destruct (Z.ltb_spec n 0); [lia|]. by rewrite list_lookup_insert_eq by lia.
Qed.

Lemma dat_insert_ne d n m b : 0 <= n -> m <> n -> dat (<[Z.to_nat n := b]> d) m = dat d m.
Proof.
  intros. unfold dat. destruct (Z.ltb_spec m 0); [done|]. by rewrite list_lookup_insert_ne by lia.
Qed.

Lemma dat_apply_out ws d m :
  Forall (fun w => 0 <= w.1) ws -> m ∉ ws.*1 -> dat (apply_writes ws d) m = dat d m.
Proof.
  intros Hp. revert d. induction Hp as [|w ws Hw Hp IH]; intros d Hm; [done|].
  simpl in *. rewrite IH by set_solver. apply dat_insert_ne; set_solver.
Qed.

Lemma dat_apply_in ws d i n b :
  Forall (fun w => 0 <= w.1 < Z.of_nat (length d)) ws -> NoDup ws.*1 ->
  ws !! i = Some (n, b) -> dat (apply_writes ws d) n = Some b.
Proof.
  revert d i. induction ws as [|w ws IH]; intros d i Hp Hnd Hi; [done|].
  apply Forall_cons in Hp as [Hw Hp]. simpl in Hnd. apply NoDup_cons in Hnd as [Hn Hnd].
  destruct i as [|i]; simpl in Hi.
  - injection Hi as ->. simpl in *.
    rewrite dat_apply_out; [by apply dat_insert_eq| |done].
    eapply Forall_impl; [exact Hp|]. simpl. lia.
  - simpl. apply (IH _ i); [by rewrite length_insert|done|done].
Qed.

Lemma apply_blocks ws d :
  Forall is_block d -> Forall (fun w => is_block w.2) ws -> Forall is_block (apply_writes ws d).
Proof.
  intros Hd Hw. revert d Hd. induction Hw as [|w ws Hw Hws IH]; intros d Hd; [done|].
  simpl. apply IH. by apply Forall_insert.
Qed.
