(* ===== verification/Bio.v ===== *)
(** The buffer cache (bio.c): a ring of [NBUF] buffers in most-recently-used
    order, and the proof that it implements the block layer of BlockLayer.v. *)
From stdpp Require Import base numbers list gmap strings.
From Stdlib Require Import ZArith Lia.
From S2P Require Import Prelude Bytes Sleeplock Disk Dll BlockLayer.

(** The index that stands for [&bcache.head]. *)
Definition HEAD : nat := NBUF.

(** [bcache]: [bc_buf] holds the [NBUF] buffers and then the list head. *)
Record bcache (D : Type) := Bcache {
  bc_lock : bool;
  bc_buf : list buf;
  bc_disk : D
}.
Arguments Bcache {D} _ _ _.
Arguments bc_lock {D} _.
Arguments bc_buf {D} _.
Arguments bc_disk {D} _.

Definition buf0 : buf :=
  Buf 0 0 0 (initsleeplock "") 0 0 0 (replicate (Z.to_nat BSIZE) 0).

Section bio.
Context {D : Type} `{DiskOps D}.

Definition set_bc_lock (b : bool) (s : bcache D) : bcache D :=
  Bcache b (bc_buf s) (bc_disk s).

Definition buf_at (l : list buf) (i : nat) : buf := default buf0 (l !! i).

(** Assignment to fields of buffer [i]. *)
Definition upd (i : nat) (f : buf -> buf) : M (bcache D) unit :=
  modify (fun s => Bcache (bc_lock s) (alter f i (bc_buf s)) (bc_disk s)).

Definition bfield {A} (i : nat) (f : buf -> A) : M (bcache D) A :=
  gets (fun s => f (buf_at (bc_buf s) i)).

(** Run a sleep-lock operation on the lock of buffer [i]. *)
Definition on_lock {A} (i : nat) (m : M sleeplock A) : M (bcache D) A :=
  zoom (fun s => b_lock (buf_at (bc_buf s) i))
       (fun l s => Bcache (bc_lock s) (alter (set_lock l) i (bc_buf s)) (bc_disk s)) m.

(** Run the disk driver on buffer [i]. *)
Definition do_iderw (i : nat) : M (bcache D) unit := fun s =>
  match iderw (buf_at (bc_buf s) i) (bc_disk s) with
  | Ok b d => Ok tt (Bcache (bc_lock s) (<[i := b]> (bc_buf s)) d)
  | Panic e => Panic e
  | Sleep c d => Sleep c (Bcache (bc_lock s) (bc_buf s) d)
  | Diverge => Diverge
  end.

(** [b->next = head.next; b->prev = &head; head.next->prev = b; head.next = b]. *)
Definition link_front (b : nat) : M (bcache D) unit :=
  n <- bfield HEAD b_next ;;
  upd b (set_next n) ;;
  upd b (set_prev HEAD) ;;
  n <- bfield HEAD b_next ;;
  upd n (set_prev b) ;;
  upd HEAD (set_next b).

Definition binit : M (bcache D) unit :=
  modify (set_bc_lock false) ;;
  upd HEAD (set_prev HEAD) ;;
  upd HEAD (set_next HEAD) ;;
  mfor NBUF 0 (fun i =>
    let b := Z.to_nat i in
    n <- bfield HEAD b_next ;;
    upd b (set_next n) ;;
    upd b (set_prev HEAD) ;;
    upd b (set_lock (initsleeplock "buffer")) ;;
    n <- bfield HEAD b_next ;;
    upd n (set_prev b) ;;
    upd HEAD (set_next b)).

(** The two scans of [bget]; a ring of [NBUF] buffers is left after at most
    [NBUF + 1] tests. *)
Fixpoint scan_cached (fuel : nat) (dv n : Z) (b : nat) : M (bcache D) (option nat) :=
  match fuel with
  | O => diverge
  | S fuel' =>
      if (b =? HEAD)%nat then ret None else
      bf <- bfield b id ;;
      if (b_dev bf =? dv) && (b_blockno bf =? n) then ret (Some b)
      else scan_cached fuel' dv n (b_next bf)
  end.

Fixpoint scan_free (fuel : nat) (b : nat) : M (bcache D) (option nat) :=
  match fuel with
  | O => diverge
  | S fuel' =>
      if (b =? HEAD)%nat then ret None else
      bf <- bfield b id ;;
      if (b_refcnt bf =? 0) && (Z.land (b_flags bf) B_DIRTY =? 0) then ret (Some b)
      else scan_free fuel' (b_prev bf)
  end.

Definition bget (pid dv n : Z) : M (bcache D) nat :=
  acquire bc_lock set_bc_lock ;;
  first <- bfield HEAD b_next ;;
  r <- scan_cached (S NBUF) dv n first ;;
  match r with
  | Some b =>
      c <- bfield b b_refcnt ;;
      upd b (set_refcnt (c + 1)) ;;
      release bc_lock set_bc_lock ;;
      on_lock b (acquiresleep (CBuf dv n) pid) ;;
      ret b
  | None =>
      last <- bfield HEAD b_prev ;;
      r <- scan_free (S NBUF) last ;;
      match r with
      | Some b =>
          upd b (set_id dv n) ;;
          upd b (set_flags 0) ;;
          upd b (set_refcnt 1) ;;
          release bc_lock set_bc_lock ;;
          on_lock b (acquiresleep (CBuf dv n) pid) ;;
          ret b
      | None => panic "bget: no buffers"
      end
  end.

Definition bread (pid dv n : Z) : M (bcache D) nat :=
  b <- bget pid dv n ;;
  f <- bfield b b_flags ;;
  when (negb (has f B_VALID)) (do_iderw b) ;;
  ret b.

Definition bwrite (b : nat) : M (bcache D) unit :=
  h <- on_lock b holdingsleep ;;
  if negb h then panic "bwrite" else
  f <- bfield b b_flags ;;
  upd b (set_flags (Z.lor f B_DIRTY)) ;;
  do_iderw b.

Definition brelse (b : nat) : M (bcache D) unit :=
  h <- on_lock b holdingsleep ;;
  if negb h then panic "brelse" else
  bf <- bfield b id ;;
  on_lock b (releasesleep (CBuf (b_dev bf) (b_blockno bf))) ;;
  acquire bc_lock set_bc_lock ;;
  c <- bfield b b_refcnt ;;
  upd b (set_refcnt (c - 1)) ;;
  when (c - 1 =? 0)
    (bf <- bfield b id ;;
     upd (b_next bf) (set_prev (b_prev bf)) ;;
     bf <- bfield b id ;;
     upd (b_prev bf) (set_next (b_next bf)) ;;
     link_front b) ;;
  release bc_lock set_bc_lock.

(** What a client does to a locked buffer: assign to its [data], and set
    [B_DIRTY] in its flags (log_write). *)
Definition bset (b : nat) (d : block) : M (bcache D) unit := upd b (set_data d).
Definition bpin (b : nat) : M (bcache D) unit :=
  f <- bfield b b_flags ;; upd b (set_flags (Z.lor f B_DIRTY)).

End bio.

(** * The link structure *)

Definition nx (l : list buf) (i : nat) : nat := b_next (buf_at l i).
Definition pv (l : list buf) (i : nat) : nat := b_prev (buf_at l i).

Lemma alter_eq (f : buf -> buf) (i : nat) (l : list buf) (b : buf) :
  l !! i = Some b -> alter f i l = <[i := f b]> l.
Proof.
  intros Hi. apply list_eq. intros j. rewrite list_lookup_alter, list_lookup_insert.
  case_decide as E; [|rewrite decide_False by tauto; done].
  subst j. rewrite decide_True; [by rewrite Hi|].
  split; [done|]. by eapply lookup_lt_Some.
Qed.

Lemma buf_at_insert (l : list buf) (i j : nat) (b : buf) :
  (i < length l)%nat ->
  buf_at (<[i := b]> l) j = if decide (j = i) then b else buf_at l j.
Proof.
  intros Hi. unfold buf_at. case_decide as E.
  - subst. by rewrite list_lookup_insert_eq.
  - by rewrite list_lookup_insert_ne.
Qed.

Lemma buf_at_alter (f : buf -> buf) (l : list buf) (i j : nat) :
  (i < length l)%nat ->
  buf_at (alter f i l) j = if decide (j = i) then f (buf_at l i) else buf_at l j.
Proof.
  intros Hi. destruct (lookup_lt_is_Some_2 l i Hi) as [b Hb].
  rewrite (alter_eq f i l b Hb), buf_at_insert by done.
  case_decide; [|done]. unfold buf_at. by rewrite Hb.
Qed.

Lemma nx_set_next (l : list buf) (i v y : nat) :
  (i < length l)%nat -> nx (alter (set_next v) i l) y = fupd (nx l) i v y.
Proof. intros. unfold nx, fupd. rewrite buf_at_alter by done. by case_decide. Qed.

Lemma nx_set_prev (l : list buf) (i v y : nat) :
  (i < length l)%nat -> nx (alter (set_prev v) i l) y = nx l y.
Proof.
  intros. unfold nx. rewrite buf_at_alter by done. case_decide; by subst.
Qed.

Lemma pv_set_prev (l : list buf) (i v y : nat) :
  (i < length l)%nat -> pv (alter (set_prev v) i l) y = fupd (pv l) i v y.
Proof. intros. unfold pv, fupd. rewrite buf_at_alter by done. by case_decide. Qed.

Lemma pv_set_next (l : list buf) (i v y : nat) :
  (i < length l)%nat -> pv (alter (set_next v) i l) y = pv l y.
Proof.
  intros. unfold pv. rewrite buf_at_alter by done. case_decide; by subst.
Qed.

(** A buffer with its links erased. *)
Definition strip (b : buf) : buf := set_prev 0 (set_next 0 b).

Lemma strip_set_next (l : list buf) (i v : nat) : strip <$> alter (set_next v) i l = strip <$> l.
Proof.
  apply list_eq. intros j. rewrite !list_lookup_fmap, list_lookup_alter.
  case_decide; [subst|done]. by destruct (l !! j).
Qed.

Lemma strip_set_prev (l : list buf) (i v : nat) : strip <$> alter (set_prev v) i l = strip <$> l.
Proof.
  apply list_eq. intros j. rewrite !list_lookup_fmap, list_lookup_alter.
  case_decide; [subst|done]. by destruct (l !! j).
Qed.

(** The ring visits every buffer exactly once. *)
Definition linked (l : list buf) (ord : list nat) : Prop :=
  ring (nx l) (pv l) HEAD ord /\ Permutation ord (seq 0 NBUF).

Lemma linked_lt l ord i : linked l ord -> i ∈ ord -> (i < NBUF)%nat.
Proof.
  intros [_ Hp] Hi. rewrite Hp in Hi. apply elem_of_seq in Hi. lia.
Qed.

Lemma linked_in l ord i : linked l ord -> (i < NBUF)%nat -> i ∈ ord.
Proof. intros [_ Hp] Hi. rewrite Hp. apply elem_of_seq. lia. Qed.

(** * The scans of [bget] *)

Definition matches (l : list buf) (dv n : Z) (i : nat) : bool :=
  (b_dev (buf_at l i) =? dv) && (b_blockno (buf_at l i) =? n).

Definition reusable (l : list buf) (i : nat) : bool :=
  (b_refcnt (buf_at l i) =? 0) && (Z.land (b_flags (buf_at l i)) B_DIRTY =? 0).

Section scans.
Context {D : Type} `{DiskOps D}.
Implicit Types s : bcache D.

Lemma scan_cached_spec s dv n ord l1 l2 fuel :
  linked (bc_buf s) ord -> ord = l1 ++ l2 -> (length l2 < fuel)%nat ->
  scan_cached fuel dv n (default HEAD (head l2)) s =
  Ok (List.find (matches (bc_buf s) dv n) l2) s.
Proof.
  intros Hl. revert l1 fuel. induction l2 as [|b l2 IH]; intros l1 fuel -> Hf;
    destruct fuel as [|fuel]; simpl in *; try lia; [done|].
  assert (b < NBUF)%nat by (eapply linked_lt; [done|set_solver]).
  destruct (Nat.eqb_spec b HEAD) as [->|_]; [unfold HEAD in *; lia|].
  unfold bind, bfield, gets, id, matches.
  destruct ((b_dev (buf_at (bc_buf s) b) =? dv) && (b_blockno (buf_at (bc_buf s) b) =? n)); [done|].
  destruct Hl as [Hr Hp]. pose proof (ring_next _ _ _ _ _ _ Hr) as Hn.
  unfold nx in Hn. rewrite Hn. apply (IH (l1 ++ [b])); [|lia].
  by rewrite <- app_assoc.
Qed.

Lemma scan_free_spec s ord l1 l2 fuel :
  linked (bc_buf s) ord -> ord = l1 ++ l2 -> (length l1 < fuel)%nat ->
  scan_free fuel (default HEAD (last l1)) s =
  Ok (List.find (reusable (bc_buf s)) (reverse l1)) s.
Proof.
  intros Hl. revert l2 fuel. induction l1 as [|b l1 IH] using rev_ind; intros l2 fuel -> Hf;
    destruct fuel as [|fuel]; simpl in *; try lia; [done|].
  rewrite last_snoc, reverse_snoc. simpl. rewrite length_app in Hf. simpl in Hf.
  assert (b < NBUF)%nat by (eapply linked_lt; [done|set_solver]).
  destruct (Nat.eqb_spec b HEAD) as [->|_]; [unfold HEAD in *; lia|].
  unfold bind, bfield, gets, id, reusable.
  destruct ((b_refcnt (buf_at (bc_buf s) b) =? 0) &&
            (Z.land (b_flags (buf_at (bc_buf s) b)) B_DIRTY =? 0)); [done|].
  destruct Hl as [Hr Hp]. rewrite <- app_assoc in Hr. simpl in Hr.
  pose proof (ring_prev _ _ _ _ _ _ Hr) as Hn.
  unfold pv in Hn. rewrite Hn. apply (IH (b :: l2)); [|lia].
  by rewrite <- app_assoc.
Qed.
End scans.

(** * The abstraction relation *)

Definition locked (b : buf) : bool := sl_locked (b_lock b).
Definition pinned (b : buf) : bool := has (b_flags b) B_DIRTY.
Definition used (b : buf) : bool := locked b || pinned b.

(** A buffer is either never used so far, or a valid copy of a disk block that
    differs from the disk only while it is locked or pinned. *)
Record bufok (dk : list block) (b : buf) : Prop := BufOk {
  bo_rest : sl_rest (b_lock b);
  bo_ref : b_refcnt b = if locked b then 1 else 0;
  bo_data : is_block (b_data b);
  bo_kind :
    (b_dev b = 0 /\ b_flags b = 0 /\ locked b = false) \/
    (b_dev b = ROOTDEV /\ 0 <= b_blockno b /\
     is_Some (dk !! Z.to_nat (b_blockno b)) /\
     (b_flags b = B_VALID \/ b_flags b = Z.lor B_VALID B_DIRTY) /\
     (used b = false -> dk !! Z.to_nat (b_blockno b) = Some (b_data b)))
}.

Definition caches (l : list buf) (P : buf -> bool) (n : Z) (b : buf) : Prop :=
  exists i, (i < NBUF)%nat /\ l !! i = Some b /\ b_dev b = ROOTDEV /\
            P b = true /\ b_blockno b = n.

Record core (l : list buf) (a : bstate) : Prop := Core {
  c_len : length l = S NBUF;
  c_buf : forall i b, (i < NBUF)%nat -> l !! i = Some b -> bufok (dsk a) b;
  c_uniq : forall i j bi bj, (i < NBUF)%nat -> (j < NBUF)%nat ->
    l !! i = Some bi -> l !! j = Some bj ->
    b_dev bi = ROOTDEV -> b_dev bj = ROOTDEV -> b_blockno bi = b_blockno bj -> i = j;
  c_over : forall n d, over a !! n = Some d <-> exists b, caches l used n b /\ b_data b = d;
  c_held : forall n, n ∈ held a <-> exists b, caches l locked n b;
  c_dirty : forall n, n ∈ dirty a <-> exists b, caches l pinned n b
}.

(** [Rel c a]: the cache [c] implements the block-layer state [a]. *)
Record Rel {D} `{Disk D} (c : bcache D) (a : bstate) : Prop := MkRel {
  r_core : core (strip <$> bc_buf c) a;
  r_linked : exists ord, linked (bc_buf c) ord;
  r_lock : bc_lock c = false;
  r_dwf : dwf (bc_disk c);
  r_dsk : dsk a = dblocks (bc_disk c);
  r_wr : wr a = dwrites (bc_disk c)
}.

(** Replacing the one buffer that holds block [n], or reusing an unused one for
    block [n], when the abstract state changes at [n] only. *)
Lemma core_replace l a i b b' a' :
  core l a -> (i < NBUF)%nat -> l !! i = Some b -> b_dev b' = ROOTDEV ->
  used b = false \/ (b_dev b = ROOTDEV /\ b_blockno b = b_blockno b') ->
  (forall j bj, (j < NBUF)%nat -> j <> i -> l !! j = Some bj ->
     b_dev bj = ROOTDEV -> b_blockno bj <> b_blockno b') ->
  bufok (dsk a') b' ->
  (forall j bj, (j < NBUF)%nat -> j <> i -> l !! j = Some bj -> bufok (dsk a') bj) ->
  (forall n, n <> b_blockno b' ->
     over a' !! n = over a !! n /\ (n ∈ held a' <-> n ∈ held a) /\
     (n ∈ dirty a' <-> n ∈ dirty a)) ->
  over a' !! b_blockno b' = (if used b' then Some (b_data b') else None) ->
  (b_blockno b' ∈ held a' <-> locked b' = true) ->
  (b_blockno b' ∈ dirty a' <-> pinned b' = true) ->
  core (<[i := b']> l) a'.
Proof.
  intros [Hlen Hb Hu Ho Hh Hd] Hi Hli Hdev Hold Hoth Hok Hoks Hout Hov Hhe Hdi.
  assert (forall j bj, (<[i := b']> l) !! j = Some bj ->
    (j = i /\ bj = b') \/ (j <> i /\ l !! j = Some bj)) as Hlk.
  { intros j bj. destruct (decide (j = i)) as [->|Hne].
    - rewrite list_lookup_insert_eq by lia. intros [= <-]. auto.
    - rewrite list_lookup_insert_ne by done. auto. }
  assert (forall P (n : Z) c, (forall x, P x = true -> used x = true) ->
    n <> b_blockno b' -> caches (<[i := b']> l) P n c <-> caches l P n c) as Hc.
  { intros P n c HP Hn. split.
    - intros (j & Hj & Hlj & ? & ? & ?). destruct (Hlk _ _ Hlj) as [[-> ->]|[? ?]]; [congruence|].
      by exists j.
    - intros (j & Hj & Hlj & ? & HPc & ?).
      exists j. rewrite list_lookup_insert_ne; [done|]. intros <-.
      rewrite Hli in Hlj. injection Hlj as ->. apply HP in HPc.
      destruct Hold as [?|[? ?]]; congruence. }
  assert (forall P c, caches (<[i := b']> l) P (b_blockno b') c <-> c = b' /\ P b' = true) as Hc'.
  { intros P c. split.
    - intros (j & Hj & Hlj & ? & ? & ?).
      destruct (Hlk _ _ Hlj) as [[-> ->]|[? ?]]; [done|]. by destruct (Hoth j c).
    - intros [-> ?]. exists i. rewrite list_lookup_insert_eq by lia. done. }
  split.
  - by rewrite length_insert.
  - intros j bj Hj Hlj. destruct (Hlk _ _ Hlj) as [[-> ->]|[? ?]]; eauto.
  - intros j k bj bk Hj Hk Hlj Hlk' D1 D2 D3.
    destruct (Hlk _ _ Hlj) as [[-> ->]|[? ?]], (Hlk _ _ Hlk') as [[-> ->]|[? ?]];
      [done| | |eauto].
    + by destruct (Hoth k bk).
    + by destruct (Hoth j bj).
  - intros n d. destruct (decide (n = b_blockno b')) as [->|Hn].
    + rewrite Hov. setoid_rewrite Hc'. destruct (used b'); naive_solver.
    + destruct (Hout n Hn) as (-> & _ & _). rewrite Ho. setoid_rewrite Hc; [done|done|done].
  - intros n. destruct (decide (n = b_blockno b')) as [->|Hn].
    + rewrite Hhe. setoid_rewrite Hc'. naive_solver.
    + destruct (Hout n Hn) as (_ & -> & _). rewrite Hh. setoid_rewrite Hc; [done| |done].
      unfold used. intros x ->. done.
  - intros n. destruct (decide (n = b_blockno b')) as [->|Hn].
    + rewrite Hdi. setoid_rewrite Hc'. naive_solver.
    + destruct (Hout n Hn) as (_ & _ & ->). rewrite Hd. setoid_rewrite Hc; [done| |done].
      unfold used. intros x ->. by rewrite orb_true_r.
Qed.

Lemma buf_at_lookup l i : (i < length l)%nat -> l !! i = Some (buf_at l i).
Proof.
  intros Hi. destruct (lookup_lt_is_Some_2 l i Hi) as [b Hb]. unfold buf_at. by rewrite Hb.
Qed.

Lemma used_dev dk b : bufok dk b -> used b = true -> b_dev b = ROOTDEV.
Proof.
  intros [_ _ _ [(_ & Hf & Hl)|(? & _)]] Hu; [|done].
  unfold used, pinned in Hu. by rewrite Hl, Hf in Hu.
Qed.

(** The number of blocks in [over] is the number of buffers in use. *)
Definition used_idx (l : list buf) : list nat :=
  filter (fun i => used (buf_at l i) = true) (seq 0 NBUF).

Lemma elem_of_used_idx l i :
  i ∈ used_idx l <-> (i < NBUF)%nat /\ used (buf_at l i) = true.
Proof. unfold used_idx. rewrite list_elem_of_filter, elem_of_seq. intuition lia. Qed.

Lemma core_size l a : core l a -> size (over a) = length (used_idx l).
Proof.
  intros [Hlen Hb Hu Ho _ _].
  set (kv := fun i => (b_blockno (buf_at l i), b_data (buf_at l i))).
  assert (forall i, i ∈ used_idx l -> l !! i = Some (buf_at l i) /\ b_dev (buf_at l i) = ROOTDEV)
    as Hin.
  { intros i (Hi & Hus)%elem_of_used_idx. assert (l !! i = Some (buf_at l i)) as Hli.
    { apply buf_at_lookup. lia. }
    split; [done|]. eapply used_dev; eauto. }
  assert (NoDup ((kv <$> used_idx l).*1)) as Hnd.
  { rewrite <- list_fmap_compose. apply NoDup_fmap_2_strong.
    - intros i j Hi Hj E. destruct (Hin i Hi), (Hin j Hj).
      apply elem_of_used_idx in Hi as [? _]. apply elem_of_used_idx in Hj as [? _].
      eapply Hu; eauto.
    - apply NoDup_filter, NoDup_seq. }
  assert (over a = list_to_map (kv <$> used_idx l)) as ->.
  { apply map_eq. intros n. apply option_eq. intros d.
    rewrite <- elem_of_list_to_map by done. rewrite Ho, list_elem_of_fmap. split.
    - intros (b & (i & Hi & Hli & _ & Hus & <-) & <-). exists i.
      assert (buf_at l i = b) as E by (unfold buf_at; by rewrite Hli).
      unfold kv. rewrite E. split; [done|]. apply elem_of_used_idx. by rewrite E.
    - intros (i & E & Hi). destruct (Hin i Hi). apply elem_of_used_idx in Hi as [? ?].
      unfold kv in E. injection E as -> ->. exists (buf_at l i). split; [|done]. by exists i. }
  rewrite <- length_map_to_list, map_to_list_to_map by done. by rewrite length_fmap.
Qed.

Lemma core_full l a :
  core l a -> (NBUF <= size (over a))%nat <-> forall i, (i < NBUF)%nat -> used (buf_at l i) = true.
Proof.
  intros Hc. rewrite (core_size l a Hc). unfold used_idx. split.
  - intros Hle i Hi. assert (i ∈ seq 0 NBUF) as Hin by (apply elem_of_seq; lia).
    destruct (used (buf_at l i)) eqn:E; [done|].
    assert (length (filter (fun i => used (buf_at l i) = true) (seq 0 NBUF)) <
            length (seq 0 NBUF))%nat as Hlt.
    { eapply length_filter_lt; [done|]. by rewrite E. }
    rewrite length_seq in Hlt. lia.
  - intros Hall. rewrite filter_all; [by rewrite length_seq|].
    intros i Hi%elem_of_seq. apply Hall. lia.
Qed.

Lemma linked_insert l ord i b' :
  linked l ord -> (i < length l)%nat -> b_prev b' = pv l i -> b_next b' = nx l i ->
  linked (<[i := b']> l) ord.
Proof.
  intros [Hr Hp] Hi Hpv Hnx. split; [|done].
  eapply ring_ext, Hr; intros y; unfold nx, pv in *; rewrite buf_at_insert by done;
    case_decide; subst; done.
Qed.

Lemma find_matches l a dv n ord i :
  core (strip <$> l) a -> linked l ord -> List.find (matches l dv n) ord = Some i ->
  (i < NBUF)%nat /\ b_dev (buf_at l i) = dv /\ b_blockno (buf_at l i) = n.
Proof.
  intros Hc Hl Hf. apply find_some in Hf as [Hin Hm]. apply list_elem_of_In in Hin.
  split; [by eapply linked_lt|]. unfold matches in Hm.
  apply andb_true_iff in Hm as [?%Z.eqb_eq ?%Z.eqb_eq]. done.
Qed.

Lemma core_at l a i :
  core (strip <$> l) a -> (i < NBUF)%nat ->
  (i < length l)%nat /\ l !! i = Some (buf_at l i) /\
  (strip <$> l) !! i = Some (strip (buf_at l i)) /\ bufok (dsk a) (strip (buf_at l i)).
Proof.
  intros Hc Hi. pose proof (c_len _ _ Hc) as Hlen. rewrite length_fmap in Hlen.
  assert (i < length l)%nat as Hil by lia.
  pose proof (buf_at_lookup l i Hil) as E.
  assert ((strip <$> l) !! i = Some (strip (buf_at l i))) as E'.
  { by rewrite list_lookup_fmap, E. }
  split_and!; try done. by eapply c_buf.
Qed.

Lemma strip_full l a :
  core (strip <$> l) a ->
  (NBUF <= size (over a))%nat <-> forall i, (i < NBUF)%nat -> used (buf_at l i) = true.
Proof.
  intros Hc. rewrite (core_full _ _ Hc).
  assert (forall i, (i < NBUF)%nat -> used (buf_at (strip <$> l) i) = used (buf_at l i)) as E.
  { intros i Hi. destruct (core_at _ _ _ Hc Hi) as (_ & _ & Hsi & _).
    unfold buf_at at 1. by rewrite Hsi. }
  split; intros Hall i Hi; specialize (Hall i Hi); rewrite E in * by done; done.
Qed.

Lemma strip_reusable l a i :
  core (strip <$> l) a -> (i < NBUF)%nat -> reusable l i = negb (used (buf_at l i)).
Proof.
  intros Hc Hi. destruct (core_at _ _ _ Hc Hi) as (_ & _ & _ & [_ Hr _ _]).
  unfold reusable, used, pinned, has. simpl in Hr. rewrite Hr.
  change (locked (strip (buf_at l i))) with (locked (buf_at l i)).
  destruct (locked _); simpl; [done|]. by rewrite negb_involutive.
Qed.

(** What [n] being cached in buffer [i], or not at all, means abstractly. *)
Lemma core_cached l a i n :
  core (strip <$> l) a -> (i < NBUF)%nat ->
  b_dev (buf_at l i) = ROOTDEV -> b_blockno (buf_at l i) = n ->
  (n ∈ held a <-> locked (buf_at l i) = true) /\
  (n ∈ dirty a <-> pinned (buf_at l i) = true) /\
  over a !! n = if used (buf_at l i) then Some (b_data (buf_at l i)) else None.
Proof.
  intros Hc Hi Hd Hn. destruct (core_at l a i Hc Hi) as (Hil & Hli & Hsi & Hok).
  assert (forall P b, caches (strip <$> l) P n b <->
    b = strip (buf_at l i) /\ P (strip (buf_at l i)) = true) as Hca.
  { intros P b. split.
    - intros (j & Hj & Hlj & ? & ? & ?).
      assert (j = i) as -> by (eapply (c_uniq _ _ Hc j i); eauto; simpl; congruence).
      rewrite Hsi in Hlj. injection Hlj as <-. done.
    - intros [-> ?]. by exists i. }
  split_and!.
  - rewrite (c_held _ _ Hc). setoid_rewrite Hca. simpl. naive_solver.
  - rewrite (c_dirty _ _ Hc). setoid_rewrite Hca. simpl. naive_solver.
  - apply option_eq. intros d. rewrite (c_over _ _ Hc). setoid_rewrite Hca.
    change (used (strip (buf_at l i))) with (used (buf_at l i)).
    change (b_data (strip (buf_at l i))) with (b_data (buf_at l i)).
    destruct (used (buf_at l i)); naive_solver.
Qed.

Lemma core_uncached l a ord n :
  core (strip <$> l) a -> linked l ord -> List.find (matches l ROOTDEV n) ord = None ->
  n ∉ held a /\ n ∉ dirty a /\ over a !! n = None /\
  (forall j b, (j < NBUF)%nat -> (strip <$> l) !! j = Some b -> b_dev b = ROOTDEV ->
     b_blockno b <> n).
Proof.
  intros Hc Hl Hf.
  assert (forall j b, (j < NBUF)%nat -> (strip <$> l) !! j = Some b -> b_dev b = ROOTDEV ->
     b_blockno b <> n) as Hno.
  { intros j b Hj Hlj Hdv Hbn. destruct (core_at l a j Hc Hj) as (_ & _ & Hsj & _).
    rewrite Hsj in Hlj. injection Hlj as <-. simpl in *.
    assert (j ∈ ord) as Hin by (by eapply linked_in).
    apply list_elem_of_In in Hin. pose proof (find_none _ _ Hf _ Hin) as Hm.
    unfold matches in Hm. by rewrite Hdv, Hbn, !Z.eqb_refl in Hm. }
  split_and!; [| | |done].
  - rewrite (c_held _ _ Hc). intros (b & j & ? & ? & ? & ? & ?). by eapply Hno.
  - rewrite (c_dirty _ _ Hc). intros (b & j & ? & ? & ? & ? & ?). by eapply Hno.
  - apply eq_None_not_Some. intros [d Hd]. apply (c_over _ _ Hc) in Hd.
    destruct Hd as (b & (j & ? & ? & ? & ? & ?) & ?). by eapply Hno.
Qed.

(** * The operations on a cache whose links are given *)

Ltac bsimp := cbv beta iota delta [bc_lock bc_buf bc_disk set_bc_lock].
Ltac bstep := erewrite bind_ok by reflexivity; bsimp.

Section run.
Context {D : Type} `{Disk D}.
Implicit Types s : bcache D.

Lemma upd_ok (k : bool) (l : list buf) (d : D) i f :
  (i < length l)%nat ->
  upd i f (Bcache k l d) = Ok tt (Bcache k (<[i := f (buf_at l i)]> l) d).
Proof.
  intros Hi. unfold upd, modify. simpl. by rewrite (alter_eq _ _ _ _ (buf_at_lookup l i Hi)).
Qed.

Lemma on_lock_ok {A} (k : bool) (l : list buf) (d : D) i (m : M sleeplock A) x lk :
  (i < length l)%nat -> m (b_lock (buf_at l i)) = Ok x lk ->
  on_lock i m (Bcache k l d) = Ok x (Bcache k (<[i := set_lock lk (buf_at l i)]> l) d).
Proof.
  intros Hi Hm. unfold on_lock, zoom. simpl. rewrite Hm.
  by rewrite (alter_eq _ _ _ _ (buf_at_lookup l i Hi)).
Qed.

Lemma buf_at_insert_eq (l : list buf) i b :
  (i < length l)%nat -> buf_at (<[i := b]> l) i = b.
Proof. intros. rewrite buf_at_insert by done. by rewrite decide_True. Qed.

Lemma scan_cached_ring s dv n ord :
  linked (bc_buf s) ord ->
  scan_cached (S NBUF) dv n (b_next (buf_at (bc_buf s) HEAD)) s =
  Ok (List.find (matches (bc_buf s) dv n) ord) s.
Proof.
  intros Hl. pose proof Hl as [Hr Hp]. pose proof (ring_first _ _ _ _ Hr) as E.
  unfold nx in E. rewrite E. eapply (scan_cached_spec s dv n ord [] ord); [done|done|].
  rewrite Hp, length_seq. lia.
Qed.

Lemma scan_free_ring s ord :
  linked (bc_buf s) ord ->
  scan_free (S NBUF) (b_prev (buf_at (bc_buf s) HEAD)) s =
  Ok (List.find (reusable (bc_buf s)) (reverse ord)) s.
Proof.
  intros Hl. pose proof Hl as [Hr Hp]. pose proof (ring_last _ _ _ _ Hr) as E.
  unfold pv in E. rewrite E. eapply (scan_free_spec s ord ord []); [done|by rewrite app_nil_r|].
  rewrite Hp, length_seq. lia.
Qed.

Definition grab (pid : Z) (b : buf) : buf :=
  set_lock (Sleeplock true false (sl_name (b_lock b)) pid) b.

Lemma bget_hit pid dv n (l : list buf) (d : D) ord i :
  linked l ord -> List.find (matches l dv n) ord = Some i -> (i < length l)%nat ->
  sl_rest (b_lock (buf_at l i)) ->
  let b := set_refcnt (b_refcnt (buf_at l i) + 1) (buf_at l i) in
  if locked (buf_at l i)
  then exists s', bget pid dv n (Bcache false l d) = Sleep (CBuf dv n) s'
  else bget pid dv n (Bcache false l d) = Ok i (Bcache false (<[i := grab pid b]> l) d).
Proof.
  intros Hl Hf Hi Hrest b. unfold bget.
  bstep. bstep.
  erewrite bind_ok by (apply (scan_cached_ring (Bcache true l d) dv n ord Hl)); bsimp.
  rewrite Hf. bstep. erewrite bind_ok by (by apply upd_ok).
  bstep. fold b. unfold locked.
  destruct (sl_locked (b_lock (buf_at l i))) eqn:Hk.
  - eexists. unfold bind, on_lock, zoom. bsimp. rewrite buf_at_insert_eq by done.
    rewrite acquiresleep_taken by done. done.
  - erewrite bind_ok.
    2:{ apply on_lock_ok; [by rewrite length_insert|]. rewrite buf_at_insert_eq by done.
        by apply acquiresleep_free. }
    rewrite buf_at_insert_eq by done. by rewrite list_insert_insert_eq.
Qed.

Lemma bget_miss pid dv n (l : list buf) (d : D) ord :
  linked l ord -> List.find (matches l dv n) ord = None ->
  (forall i, i ∈ ord -> (i < length l)%nat) ->
  match List.find (reusable l) (reverse ord) with
  | None => bget pid dv n (Bcache false l d) = Panic "bget: no buffers"
  | Some i =>
      sl_rest (b_lock (buf_at l i)) -> locked (buf_at l i) = false ->
      bget pid dv n (Bcache false l d) =
      Ok i (Bcache false
        (<[i := grab pid (set_refcnt 1 (set_flags 0 (set_id dv n (buf_at l i))))]> l) d)
  end.
Proof.
  intros Hl Hf Hlt. unfold bget.
  bstep. bstep.
  erewrite bind_ok by (apply (scan_cached_ring (Bcache true l d) dv n ord Hl)); bsimp.
  rewrite Hf. bstep. 
  erewrite bind_ok by (apply (scan_free_ring (Bcache true l d) ord Hl)); bsimp.
  destruct (List.find (reusable l) (reverse ord)) as [i|] eqn:Hfr; [|done].
  assert (i < length l)%nat as Hi.
  { apply find_some in Hfr as [Hin%list_elem_of_In _]. apply Hlt.
    by rewrite elem_of_reverse in Hin. }
  intros Hrest Hnl.
  erewrite bind_ok by (by apply upd_ok).
  erewrite bind_ok by (apply upd_ok; by rewrite length_insert).
  rewrite buf_at_insert_eq, list_insert_insert_eq by done.
  erewrite bind_ok by (apply upd_ok; by rewrite length_insert).
  rewrite buf_at_insert_eq, list_insert_insert_eq by done.
  bstep. 
  erewrite bind_ok.
  2:{ apply on_lock_ok; [by rewrite length_insert|]. rewrite buf_at_insert_eq by done.
      by apply acquiresleep_free. }
  rewrite buf_at_insert_eq by done. by rewrite list_insert_insert_eq.
Qed.
(** The six assignments of [link_front], on the links and off them. *)
Lemma link_front_ok (k : bool) (l : list buf) (d : D) b :
  (b < length l)%nat -> (HEAD < length l)%nat -> (nx l HEAD < length l)%nat -> b <> HEAD ->
  exists L, link_front b (Bcache k l d) = Ok tt (Bcache k L d) /\
    strip <$> L = strip <$> l /\
    (forall y, nx L y = fupd (fupd (nx l) b (nx l HEAD)) HEAD b y) /\
    (forall y, pv L y = fupd (fupd (pv l) b HEAD) (nx l HEAD) b y).
Proof.
  intros Hb Hh Hn Hne.
  set (l1 := alter (set_prev HEAD) b (alter (set_next (nx l HEAD)) b l)).
  assert (length l1 = length l) as Hlen by (unfold l1; by rewrite !length_alter).
  assert (nx l1 HEAD = nx l HEAD) as Hnx.
  { unfold l1. rewrite nx_set_prev, nx_set_next by (rewrite ?length_alter; done).
    by rewrite fupd_ne. }
  exists (alter (set_next b) HEAD (alter (set_prev b) (nx l HEAD) l1)). split_and!.
  - unfold link_front. bstep. bstep. bstep. fold (nx l HEAD). fold l1. bstep.
    fold (nx l1 HEAD). rewrite Hnx. bstep. done.
  - unfold l1. by rewrite !strip_set_next, !strip_set_prev, strip_set_next.
  - intros y. rewrite nx_set_next by (rewrite ?length_alter; lia).
    unfold fupd at 1 2. case_decide; [done|].
    rewrite nx_set_prev by lia. unfold l1.
    rewrite nx_set_prev, nx_set_next by (rewrite ?length_alter; done). done.
  - intros y. rewrite pv_set_next, pv_set_prev by (rewrite ?length_alter; lia).
    unfold fupd at 1 2. case_decide; [done|].
    unfold l1. rewrite pv_set_prev by (rewrite ?length_alter; done).
    unfold fupd. case_decide; [done|]. by rewrite pv_set_next.
Qed.

(** The unlinking of a buffer in [brelse]. *)
Definition unlink_list (l : list buf) (b : nat) : list buf :=
  alter (set_next (nx l b)) (pv l b) (alter (set_prev (pv l b)) (nx l b) l).

Lemma unlink_list_spec (l : list buf) b :
  (nx l b < length l)%nat -> (pv l b < length l)%nat -> nx l b <> b ->
  strip <$> unlink_list l b = strip <$> l /\
  (forall y, nx (unlink_list l b) y = fupd (nx l) (pv l b) (nx l b) y) /\
  (forall y, pv (unlink_list l b) y = fupd (pv l) (nx l b) (pv l b) y).
Proof.
  intros Hn Hp Hne. unfold unlink_list. split_and!.
  - by rewrite strip_set_next, strip_set_prev.
  - intros y. rewrite nx_set_next by (rewrite ?length_alter; done).
    unfold fupd. case_decide; [done|]. by rewrite nx_set_prev.
  - intros y. rewrite pv_set_next by (rewrite ?length_alter; done). by apply pv_set_prev.
Qed.
(** Moving buffer [b] to the front of the ring. *)
Lemma move_front (k : bool) (l : list buf) (d : D) ord b :
  linked l ord -> length l = S NBUF -> (b < NBUF)%nat ->
  exists L ord',
    bind (bfield b id) (fun bf =>
      upd (b_next bf) (set_prev (b_prev bf)) ;;
      bf <- bfield b id ;;
      upd (b_prev bf) (set_next (b_next bf)) ;;
      link_front b) (Bcache k l d) = Ok tt (Bcache k L d) /\
    strip <$> L = strip <$> l /\ linked L ord'.
Proof.
  intros Hl Hlen Hb. pose proof Hl as [Hr Hp].
  destruct (list_elem_of_split _ _ (linked_in _ _ _ Hl Hb)) as (o1 & o2 & ->).
  assert (forall y, y ∈ HEAD :: o1 ++ b :: o2 -> (y < length l)%nat) as Hlt.
  { intros y [->|Hy]%elem_of_cons; [unfold HEAD; lia|].
    pose proof (linked_lt _ _ _ Hl Hy). lia. }
  pose proof (ring_next _ _ _ _ _ _ Hr) as Hnx. pose proof (ring_prev _ _ _ _ _ _ Hr) as Hpv.
  assert (nx l b ∈ HEAD :: o2) as Hni by (rewrite Hnx; destruct o2; set_solver).
  assert (pv l b ∈ HEAD :: o1) as Hpi.
  { rewrite Hpv. destruct o1 as [|z o1 _] using rev_ind; [set_solver|].
    rewrite last_snoc. simpl. set_solver. }
  pose proof Hr as [Hnd _].
  assert (b <> HEAD) as HbH by (unfold HEAD; lia).
  assert (nx l b <> b) as Hne.
  { intros E. rewrite E in Hni. apply NoDup_cons in Hnd as [_ Hnd].
    apply NoDup_app in Hnd as (_ & _ & Hnd). apply NoDup_cons in Hnd. set_solver. }
  destruct (unlink_list_spec l b) as (Us & Un & Up); [apply Hlt; set_solver..|done|].
  assert (ring (nx (unlink_list l b)) (pv (unlink_list l b)) HEAD (o1 ++ o2)) as Hr1.
  { eapply ring_ext; [exact Un|exact Up|]. by apply ring_unlink. }
  assert (length (unlink_list l b) = length l) as Hlen1.
  { unfold unlink_list. by rewrite !length_alter. }
  destruct (link_front_ok k (unlink_list l b) d b) as (L & HL & Ls & Ln & Lp).
  { rewrite Hlen1. apply Hlt. set_solver. }
  { rewrite Hlen1. apply Hlt. set_solver. }
  { rewrite Hlen1. apply Hlt. rewrite (ring_first _ _ _ _ Hr1).
    destruct (o1 ++ o2) as [|z o] eqn:E; simpl; [set_solver|].
    assert (z ∈ o1 ++ o2) by (rewrite E; set_solver). set_solver. }
  { done. }
  exists L, (b :: o1 ++ o2). split_and!.
  - bstep. unfold id. bstep. bstep. unfold id.
    rewrite buf_at_alter by (apply Hlt; set_solver). rewrite decide_False by done.
    bstep. exact HL.
  - by rewrite Ls, Us.
  - split.
    + eapply ring_ext; [exact Ln|exact Lp|]. apply ring_insert; [done|].
      apply NoDup_cons in Hnd as [Hh Hnd]. apply NoDup_app in Hnd as (_ & Hx & Hnd).
      apply NoDup_cons in Hnd as [? _]. set_solver.
    + rewrite <- Hp. by rewrite Permutation_middle.
Qed.
End run.

(** * Refinement *)

Section refine.
Context {D : Type} `{Disk D}.
Implicit Types c : bcache D.
Implicit Types a : bstate.

(** Buffer [i] is the locked buffer of block [n]. *)
Definition handle c (i : nat) (n : Z) : Prop :=
  (i < NBUF)%nat /\ b_dev (buf_at (bc_buf c) i) = ROOTDEV /\
  b_blockno (buf_at (bc_buf c) i) = n /\ locked (buf_at (bc_buf c) i) = true.

(** The pointers to the locked buffers of other blocks than [n] stay good. *)
Definition keeps (n : Z) c c' : Prop :=
  forall j m, m <> n -> handle c j m -> handle c' j m.

Lemma keeps_insert k k' (l : list buf) (d d' : D) i b' n :
  (i < length l)%nat -> locked (buf_at l i) = false \/ b_blockno (buf_at l i) = n ->
  keeps n (Bcache k l d) (Bcache k' (<[i := b']> l) d').
Proof.
  intros Hi Hold j m Hm (Hj & Hd & Hb & Hl). unfold handle in *. cbn [bc_buf] in *.
  assert (j <> i) by (intros ->; destruct Hold; congruence).
  by rewrite buf_at_insert, decide_False by done.
Qed.

Lemma keeps_strip n c c' c'' :
  strip <$> bc_buf c'' = strip <$> bc_buf c' -> keeps n c c' -> keeps n c c''.
Proof.
  intros Hs Hk j m Hm Hh. destruct (Hk j m Hm Hh) as (Hj & Hd & Hb & Hl).
  assert (strip <$> bc_buf c'' !! j = strip <$> bc_buf c' !! j) as E.
  { by rewrite <- !list_lookup_fmap, Hs. }
  unfold handle, buf_at in *.
  destruct (bc_buf c'' !! j) as [[]|], (bc_buf c' !! j) as [[]|]; simpl in *; naive_solver.
Qed.

(** The concrete and the abstract run end the same way, and [P] holds of two
    runs that return. *)
Definition same_outcome {A B} (P : A -> bcache D -> B -> bstate -> Prop)
    (rc : res (bcache D) A) (ra : res bstate B) : Prop :=
  match rc, ra with
  | Ok x c, Ok y a => P x c y a
  | Panic _, Panic _ => True
  | Sleep ch _, Sleep ch' _ => ch = ch'
  | _, _ => False
  end.

Lemma flags_cases dk b :
  bufok dk b -> b_dev b = ROOTDEV ->
  (b_flags b = B_VALID /\ pinned b = false) \/
  (b_flags b = Z.lor B_VALID B_DIRTY /\ pinned b = true).
Proof.
  intros [_ _ _ [(E & _)|(_ & _ & _ & Hf & _)]] Hd; [by rewrite E in Hd|].
  unfold pinned. destruct Hf as [-> | ->]; auto.
Qed.

(** Rebuild the relation after buffer [i] has become [b'], linked as before. *)
Lemma Rel_replace c a k i b' a' d' :
  Rel c a -> k = false -> (i < NBUF)%nat ->
  b_prev b' = pv (bc_buf c) i -> b_next b' = nx (bc_buf c) i ->
  dwf d' -> dsk a' = dblocks d' -> wr a' = dwrites d' ->
  core (<[i := strip b']> (strip <$> bc_buf c)) a' ->
  Rel (Bcache k (<[i := b']> (bc_buf c)) d') a'.
Proof.
  intros [Hc [ord Hl] Hk Hw Hd Hr] -> Hi Hp Hn Hw' Hd' Hr' Hc'.
  assert (i < length (bc_buf c))%nat by (by apply (core_at _ _ _ Hc)).
  split; simpl; try done.
  - by rewrite list_fmap_insert.
  - exists ord. by apply linked_insert.
Qed.

(** The buffers other than [i] hold other blocks than [n]. *)
Lemma core_others l a i n :
  core (strip <$> l) a -> (i < NBUF)%nat ->
  b_dev (buf_at l i) = ROOTDEV -> b_blockno (buf_at l i) = n ->
  forall j bj, (j < NBUF)%nat -> j <> i -> (strip <$> l) !! j = Some bj ->
    b_dev bj = ROOTDEV -> b_blockno bj <> n.
Proof.
  intros Hc Hi Hd Hn j bj Hj Hne Hlj Hdj E. apply Hne.
  destruct (core_at l a i Hc Hi) as (_ & _ & Hsi & _).
  eapply (c_uniq _ _ Hc j i bj); eauto. simpl. congruence.
Qed.

Lemma hit_room l a i n :
  core (strip <$> l) a -> (i < NBUF)%nat ->
  b_dev (buf_at l i) = ROOTDEV -> b_blockno (buf_at l i) = n -> used (buf_at l i) = false ->
  (size (over a) < NBUF)%nat /\ dblk a n = Some (b_data (buf_at l i)).
Proof.
  intros Hc Hi Hdv Hbn Hu. destruct (core_at _ _ _ Hc Hi) as (Hil & Hli & Hsi & Hok). split.
  - apply Nat.nle_gt. rewrite (core_full _ _ Hc). intros Hall. specialize (Hall i Hi).
    unfold buf_at in Hall. rewrite Hsi in Hall. simpl in Hall.
    change (used (strip (buf_at l i))) with (used (buf_at l i)) in Hall. congruence.
  - destruct Hok as [_ _ _ [(E & _)|(_ & Hn & _ & _ & Hd)]]; simpl in *; [by rewrite Hdv in E|].
    unfold dblk. rewrite <- Hbn. destruct (Z.ltb_spec (b_blockno (buf_at l i)) 0); [lia|auto].
Qed.

Lemma bufok_grab dk pid b :
  bufok dk (strip b) -> b_dev b = ROOTDEV -> locked b = false ->
  bufok dk (strip (grab pid (set_refcnt (b_refcnt b + 1) b))).
Proof.
  intros [Hre Hrc Hda [(E & _)|Hki]] Hd Hl; simpl in *; [by rewrite Hd in E|].
  change (locked (strip b)) with (locked b) in Hrc. rewrite Hl in Hrc.
  split; simpl; [done|by rewrite Hrc|done|]. right. naive_solver.
Qed.

Lemma bread_hit_refines c a pid n ord i :
  Rel c a -> linked (bc_buf c) ord ->
  List.find (matches (bc_buf c) ROOTDEV n) ord = Some i ->
  same_outcome (fun i c' d a' => Rel c' a' /\ handle c' i n /\
                  b_data (buf_at (bc_buf c') i) = d /\ keeps n c c')
    (bread pid ROOTDEV n c) (BlockLayer.bread n a).
Proof.
  intros HR Hl Hf. pose proof HR as [Hc _ Hk Hw Hd Hr].
  destruct c as [k l d]. simpl in *. subst k.
  destruct (find_matches _ _ _ _ _ _ Hc Hl Hf) as (Hi & Hdv & Hbn).
  destruct (core_at _ _ _ Hc Hi) as (Hil & Hli & Hsi & Hok).
  destruct (core_cached _ _ _ _ Hc Hi Hdv Hbn) as (Hhe & Hdi & Hov).
  pose proof (bget_hit pid ROOTDEV n l d ord i Hl Hf Hil (bo_rest _ _ Hok)) as Hg.
  destruct (locked (buf_at l i)) eqn:Hlk.
  { destruct Hg as [s' Hg]. unfold bread, bind, BlockLayer.bread. rewrite Hg.
    by rewrite decide_True by tauto. }
  rewrite (bread_ok n (b_data (buf_at l i))).
  2: by rewrite Hhe.
  2:{ rewrite Hov. unfold used. rewrite Hlk. simpl.
      destruct (pinned (buf_at l i)) eqn:Hpi; [by left|right]. split; [done|].
      apply (hit_room l a i n Hc Hi Hdv Hbn). unfold used. by rewrite Hlk, Hpi. }
  assert (has (b_flags (buf_at l i)) B_VALID = true) as Hva.
  { destruct (flags_cases _ _ Hok Hdv) as [[Hfl _]|[Hfl _]]; simpl in Hfl; by rewrite Hfl. }
  unfold bread. rewrite (bind_ok _ _ _ _ _ Hg). bstep. rewrite buf_at_insert_eq by done.
  unfold grab. simpl. rewrite Hva. simpl.
  split; [|split; [|split; [by rewrite buf_at_insert_eq by done|]]].
  2:{ unfold handle; simpl; rewrite buf_at_insert_eq by done. auto. }
  2:{ apply keeps_insert; auto. }
  apply (Rel_replace (Bcache false l d) a); try done.
  eapply core_replace; [done|done|done|done|right; done| | | | | | |]; simpl; rewrite ?Hbn.
  - by eapply core_others.
  - by apply bufok_grab.
  - intros j bj Hj _ Hlj. by eapply c_buf.
  - intros m Hm. rewrite lookup_insert_ne by done. set_solver.
  - by rewrite lookup_insert_eq.
  - set_solver.
  - done.
Qed.

Lemma bread_miss_refines c a pid n ord :
  Rel c a -> 0 <= n -> linked (bc_buf c) ord ->
  List.find (matches (bc_buf c) ROOTDEV n) ord = None ->
  same_outcome (fun i c' d a' => Rel c' a' /\ handle c' i n /\
                  b_data (buf_at (bc_buf c') i) = d /\ keeps n c c')
    (bread pid ROOTDEV n c) (BlockLayer.bread n a).
Proof.
  intros HR Hn Hl Hf. pose proof HR as [Hc _ Hk Hw Hd Hr].
  destruct c as [k l d]. simpl in *. subst k.
  destruct (core_uncached _ _ _ _ Hc Hl Hf) as (Hhe & Hdi & Hov & Hno).
  pose proof (c_len _ _ Hc) as Hlen. rewrite length_fmap in Hlen.
  pose proof (bget_miss pid ROOTDEV n l d ord Hl Hf) as Hg.
  assert (forall i, i ∈ ord -> (i < length l)%nat) as Hlt.
  { intros i Hi. pose proof (linked_lt _ _ _ Hl Hi). lia. }
  specialize (Hg Hlt).
  destruct (List.find (reusable l) (reverse ord)) as [i|] eqn:Hfr.
  2:{ unfold bread, bind, BlockLayer.bread. rewrite Hg, decide_False, Hov by done.
      destruct (Nat.leb_spec NBUF (size (over a))) as [|Hlt']; [done|].
      apply Nat.nle_gt in Hlt'. destruct Hlt'. apply (strip_full _ _ Hc). intros j Hj.
      assert (j ∈ reverse ord) as Hin by (rewrite elem_of_reverse; by eapply linked_in).
      apply list_elem_of_In in Hin. pose proof (find_none _ _ Hfr _ Hin) as Hm. simpl in Hm.
      rewrite (strip_reusable _ _ _ Hc Hj) in Hm. by destruct (used (buf_at l j)). }
  apply find_some in Hfr as [Hin%list_elem_of_In Hre]. rewrite elem_of_reverse in Hin.
  pose proof (linked_lt _ _ _ Hl Hin) as Hi.
  rewrite (strip_reusable _ _ _ Hc Hi) in Hre. apply negb_true_iff in Hre.
  destruct (core_at _ _ _ Hc Hi) as (Hil & Hli & Hsi & Hok).
  assert (size (over a) < NBUF)%nat as Hroom.
  { apply Nat.nle_gt. rewrite (strip_full _ _ Hc). intros Hall. by rewrite Hall in Hre. }
  specialize (Hg (bo_rest _ _ Hok)).
  assert (locked (buf_at l i) = false) as Hlk by (by apply orb_false_iff in Hre as [? _]).
  specialize (Hg Hlk).
  set (b := grab pid (set_refcnt 1 (set_flags 0 (set_id ROOTDEV n (buf_at l i))))) in *.
  unfold bread. rewrite (bind_ok _ _ _ _ _ Hg). bstep.
  rewrite buf_at_insert_eq by done. simpl. unfold do_iderw, bind at 1. bsimp.
  rewrite buf_at_insert_eq by done.
  destruct (dblk a n) as [blk|] eqn:Hbk.
  - rewrite (bread_ok n blk) by (try done; by right).
    assert (dblocks d !! Z.to_nat n = Some blk) as Hdb.
    { unfold dblk in Hbk. rewrite <- Hd. by destruct (n <? 0). }
    destruct (iderw_read b d blk) as (d' & Hrw & Hw' & Hd' & Hr'); try done.
    rewrite Hrw. bsimp. rewrite list_insert_insert_eq. simpl.
    split; [|split; [|split; [by rewrite buf_at_insert_eq by done|]]].
    2:{ unfold handle; simpl; rewrite buf_at_insert_eq by done. done. }
    2:{ apply keeps_insert; auto. }
    assert (is_block blk) as Hib.
    { exact (Forall_lookup_1 _ _ _ _ (dblocks_wf d Hw) Hdb). }
    apply (Rel_replace (Bcache false l d) a); simpl; try done; [congruence..|].
    eapply core_replace; [done|done|done|done|left; done| | | | | | |]; simpl.
    + intros j bj Hj _. by apply Hno.
    + split; simpl; [done|done|done|]. right. rewrite Hd. split_and!; eauto.
    + intros j bj Hj _ Hlj. by eapply c_buf.
    + intros m Hm. rewrite lookup_insert_ne by done. set_solver.
    + by rewrite lookup_insert_eq.
    + set_solver.
    + split; [done|]. by unfold pinned.
  - unfold BlockLayer.bread. rewrite decide_False, Hov, Hbk by done.
    destruct (Nat.leb_spec NBUF (size (over a))); [lia|].
    destruct (iderw_range b d) as [msg Hrw]; try done; [by left| |by rewrite Hrw].
    simpl. unfold dblk in Hbk. destruct (Z.ltb_spec n 0); [lia|].
    apply lookup_ge_None in Hbk. rewrite <- Hd. lia.
Qed.

(** [bread], on a hit and on a miss. *)
Lemma bread_refines c a pid n :
  Rel c a -> 0 <= n ->
  same_outcome (fun i c' d a' => Rel c' a' /\ handle c' i n /\
                  b_data (buf_at (bc_buf c') i) = d /\ keeps n c c')
    (bread pid ROOTDEV n c) (BlockLayer.bread n a).
Proof.
  intros HR Hn. destruct (r_linked _ _ HR) as [ord Hl].
  destruct (List.find (matches (bc_buf c) ROOTDEV n) ord) eqn:Hf.
  - by eapply bread_hit_refines.
  - by eapply bread_miss_refines.
Qed.

(** The facts about a locked buffer that the operations on it start from. *)
Lemma handle_facts c a i n :
  Rel c a -> handle c i n ->
  (i < length (bc_buf c))%nat /\ bufok (dsk a) (strip (buf_at (bc_buf c) i)) /\
  n ∈ held a /\ over a !! n = Some (b_data (buf_at (bc_buf c) i)) /\
  (n ∈ dirty a <-> pinned (buf_at (bc_buf c) i) = true) /\ is_Some (dblk a n).
Proof.
  intros [Hc _ _ _ _ _] (Hi & Hdv & Hbn & Hlk).
  destruct (core_at _ _ _ Hc Hi) as (Hil & _ & _ & Hok).
  destruct (core_cached _ _ _ _ Hc Hi Hdv Hbn) as (Hhe & Hdi & Hov).
  unfold used in Hov. rewrite Hlk in Hov, Hhe. split_and!; try done; [tauto|].
  destruct Hok as [_ _ _ [(E & _)|(_ & ? & ? & _)]]; simpl in *; [by rewrite Hdv in E|].
  unfold dblk. rewrite <- Hbn. by destruct (Z.ltb_spec (b_blockno (buf_at (bc_buf c) i)) 0); [lia|].
Qed.

(** An operation on locked buffer [i] that keeps it locked and linked. *)
Lemma handle_update c a i n b' d' a' :
  Rel c a -> handle c i n ->
  b_prev b' = pv (bc_buf c) i -> b_next b' = nx (bc_buf c) i ->
  b_dev b' = ROOTDEV -> b_blockno b' = n -> locked b' = true ->
  dwf d' -> dsk a' = dblocks d' -> wr a' = dwrites d' ->
  bufok (dsk a') (strip b') ->
  (forall j bj, (j < NBUF)%nat -> j <> i -> (strip <$> bc_buf c) !! j = Some bj ->
     b_blockno bj <> n \/ b_dev bj = 0 -> bufok (dsk a') bj) ->
  (forall m, m <> n -> over a' !! m = over a !! m /\ (m ∈ held a' <-> m ∈ held a) /\
     (m ∈ dirty a' <-> m ∈ dirty a)) ->
  over a' !! n = Some (b_data b') -> n ∈ held a' -> (n ∈ dirty a' <-> pinned b' = true) ->
  Rel (Bcache false (<[i := b']> (bc_buf c)) d') a' /\
  handle (Bcache false (<[i := b']> (bc_buf c)) d') i n.
Proof.
  intros HR Hh Hp Hn Hdv Hbn Hlk Hw Hd Hr Hok Hoks Hout Hov Hhe Hdi.
  pose proof (handle_facts _ _ _ _ HR Hh) as (Hil & Hok0 & _).
  pose proof HR as [Hc _ _ _ _ _]. destruct Hh as (Hi & Hdv0 & Hbn0 & Hlk0).
  destruct (core_at _ _ _ Hc Hi) as (_ & _ & Hsi & _).
  split.
  - apply (Rel_replace c a); try done.
    eapply core_replace; [done|done|done|done| | | | | | | |]; simpl; rewrite ?Hbn.
    + right. done.
    + by eapply core_others.
    + done.
    + intros j bj Hj Hne Hlj. apply (Hoks j); [done..|].
      destruct (c_buf _ _ Hc j bj Hj Hlj) as [_ _ _ [(? & _)|(Hdj & _)]]; [by right|left].
      exact (core_others _ _ _ _ Hc Hi Hdv0 Hbn0 j bj Hj Hne Hlj Hdj).
    + done.
    + unfold used. change (locked (strip b')) with (locked b'). by rewrite Hlk.
    + change (locked (strip b')) with (locked b'). tauto.
    + done.
  - unfold handle; simpl. by rewrite buf_at_insert_eq.
Qed.

Lemma bset_refines c a i n d :
  Rel c a -> handle c i n -> is_block d ->
  same_outcome (fun _ c' _ a' => (Rel c' a' /\ handle c' i n) /\ keeps n c c')
    (bset i d c) (BlockLayer.bset n d a).
Proof.
  intros HR Hh Hd. pose proof (handle_facts _ _ _ _ HR Hh) as (Hil & Hok & Hhe & Hov & Hdi & _).
  pose proof HR as [Hc _ Hk Hw Hds Hr]. pose proof Hh as (Hi & Hdv & Hbn & Hlk).
  destruct c as [k l dd]; cbn [bc_lock bc_buf bc_disk] in *; subst k. unfold bset. rewrite upd_ok by done. simpl.
  split; [|apply keeps_insert; auto].
  eapply (handle_update (Bcache false l dd) a); simpl; try done.
  - destruct Hok as [? ? ? [(E & _)|(? & ? & ? & ? & _)]]; simpl in *; [by rewrite Hdv in E|].
    split; simpl; try done. right. split_and!; try done.
    intros E. unfold used in E. change (locked _) with (locked (buf_at l i)) in E.
    by rewrite Hlk in E.
  - intros j bj Hj _ Hlj _. by eapply c_buf.
  - intros m Hm. by rewrite lookup_insert_ne.
  - by rewrite lookup_insert_eq.
Qed.

Lemma bpin_refines c a i n :
  Rel c a -> handle c i n ->
  same_outcome (fun _ c' _ a' => (Rel c' a' /\ handle c' i n) /\ keeps n c c')
    (bpin i c) (BlockLayer.bpin n a).
Proof.
  intros HR Hh. pose proof (handle_facts _ _ _ _ HR Hh) as (Hil & Hok & Hhe & Hov & Hdi & _).
  pose proof HR as [Hc _ Hk Hw Hds Hr]. pose proof Hh as (Hi & Hdv & Hbn & Hlk).
  destruct c as [k l dd]; cbn [bc_lock bc_buf bc_disk] in *; subst k. unfold bpin. bstep. rewrite upd_ok by done. simpl.
  assert (Z.lor (b_flags (buf_at l i)) B_DIRTY = Z.lor B_VALID B_DIRTY) as Hfl.
  { destruct (flags_cases _ _ Hok Hdv) as [[E _]|[E _]]; simpl in E; by rewrite E. }
  rewrite Hfl. split; [|apply keeps_insert; auto].
  eapply (handle_update (Bcache false l dd) a); simpl; try done.
  - destruct Hok as [? ? ? [(E & _)|(? & ? & ? & ? & _)]]; simpl in *; [by rewrite Hdv in E|].
    split; simpl; try done. right. split_and!; try done; [by right|].
    intros E. unfold used in E. by rewrite orb_comm in E.
  - intros j bj Hj _ Hlj _. by eapply c_buf.
  - set_solver.
  - set_solver.
Qed.
Lemma bufok_write dk b n d :
  bufok dk b -> 0 <= n -> b_blockno b <> n \/ b_dev b = 0 -> bufok (<[Z.to_nat n := d]> dk) b.
Proof.
  intros [? ? ? Hki] Hn Hne. split; try done.
  destruct Hki as [?|(Hd & Hb & Hs & ? & Hu)]; [by left|right].
  assert (Z.to_nat (b_blockno b) <> Z.to_nat n) as Hne'.
  { destruct Hne as [Hne|E]; [|by rewrite Hd in E]. intros E. apply Hne. lia. }
  rewrite list_lookup_insert_ne by done. done.
Qed.

Lemma holding_step {A} (l : list buf) (dd : D) i (k : bool -> M (bcache D) A) :
  (i < length l)%nat -> sl_rest (b_lock (buf_at l i)) ->
  bind (on_lock i holdingsleep) k (Bcache false l dd) =
  k (locked (buf_at l i)) (Bcache false l dd).
Proof.
  intros Hi Hr. erewrite bind_ok by (apply on_lock_ok; [done|by apply holdingsleep_ok]).
  by rewrite set_lock_id, list_insert_id by (by apply buf_at_lookup).
Qed.

Lemma bwrite_refines c a i n :
  Rel c a -> handle c i n ->
  same_outcome (fun _ c' _ a' => (Rel c' a' /\ handle c' i n) /\ keeps n c c')
    (bwrite i c) (BlockLayer.bwrite n a).
Proof.
  intros HR Hh.
  pose proof (handle_facts _ _ _ _ HR Hh) as (Hil & Hok & Hhe & Hov & Hdi & [blk Hbk]).
  pose proof HR as [Hc _ Hk Hw Hds Hr]. pose proof Hh as (Hi & Hdv & Hbn & Hlk).
  destruct c as [k l dd]; cbn [bc_lock bc_buf bc_disk] in *; subst k.
  assert (0 <= n /\ (Z.to_nat n < length (dsk a))%nat) as [Hn Hlt].
  { unfold dblk in Hbk. destruct (Z.ltb_spec n 0); [done|].
    split; [done|by eapply lookup_lt_Some]. }
  assert (Z.lor (b_flags (buf_at l i)) B_DIRTY = Z.lor B_VALID B_DIRTY) as Hfl.
  { destruct (flags_cases _ _ Hok Hdv) as [[E _]|[E _]]; simpl in E; by rewrite E. }
  unfold bwrite, BlockLayer.bwrite. rewrite decide_True by done.
  rewrite holding_step by (done || apply (bo_rest _ _ Hok)). rewrite Hlk. cbn [negb].
  bstep. erewrite bind_ok by (by apply upd_ok). rewrite Hfl.
  unfold do_iderw. bsimp. rewrite buf_at_insert_eq by done.
  destruct (iderw_write (set_flags (Z.lor B_VALID B_DIRTY) (buf_at l i)) dd)
    as (d' & -> & Hw' & Hd' & Hr'); try done.
  { apply (bo_rest _ _ Hok). }
  { by right. }
  { simpl. rewrite Hbn, <- Hds. lia. }
  { apply (bo_data _ _ Hok). }
  rewrite list_insert_insert_eq. rewrite Hov. simpl.
  split; [|apply keeps_insert; auto].
  eapply (handle_update (Bcache false l dd) a); simpl; try done.
  - rewrite Hd'. simpl. congruence.
  - rewrite Hr'. simpl. congruence.
  - destruct Hok as [? ? ? _]. split; simpl; try done. right. rewrite Hbn.
    rewrite list_lookup_insert_eq by done. split_and!; eauto.
  - intros j bj Hj _ Hlj Hne. apply bufok_write; [by eapply c_buf|done..].
  - set_solver.
  - unfold pinned. simpl. set_solver.
Qed.

Lemma bufok_release dk b lk :
  bufok dk (strip b) -> b_dev b = ROOTDEV -> sl_rest lk -> sl_locked lk = false ->
  (pinned b = false -> dk !! Z.to_nat (b_blockno b) = Some (b_data b)) ->
  bufok dk (strip (set_refcnt 0 (set_lock lk b))).
Proof.
  intros [? ? ? [(E & _)|(? & ? & ? & ? & _)]] Hd Hr Hl Hp; simpl in *; [by rewrite Hd in E|].
  split; simpl; try done.
  - unfold locked. simpl. by rewrite Hl.
  - right. split_and!; try done. unfold used, locked. simpl. rewrite Hl. exact Hp.
Qed.

Lemma brelse_refines c a i n :
  Rel c a -> handle c i n -> n ∈ dirty a \/ over a !! n = dblk a n ->
  same_outcome (fun _ c' _ a' => Rel c' a' /\ keeps n c c') (brelse i c) (BlockLayer.brelse n a).
Proof.
  intros HR Hh Hclean.
  pose proof (handle_facts _ _ _ _ HR Hh) as (Hil & Hok & Hhe & Hov & Hdi & [blk Hbk]).
  pose proof HR as [Hc [ord Hl] Hk Hw Hds Hr]. pose proof Hh as (Hi & Hdv & Hbn & Hlk).
  destruct c as [k l dd]; cbn [bc_lock bc_buf bc_disk] in *; subst k.
  pose proof (bo_rest _ _ Hok) as Hre. pose proof (bo_ref _ _ Hok) as Hrc. simpl in Hre, Hrc.
  change (locked (strip (buf_at l i))) with (locked (buf_at l i)) in Hrc. rewrite Hlk in Hrc.
  unfold brelse, BlockLayer.brelse. rewrite decide_True by done.
  rewrite holding_step by done. rewrite Hlk. cbn [negb]. bstep. unfold id at 1.
  erewrite bind_ok by (apply on_lock_ok; [done|by apply releasesleep_ok]).
  bstep. bstep. rewrite buf_at_insert_eq by done.
  erewrite bind_ok by (apply upd_ok; by rewrite length_insert).
  rewrite buf_at_insert_eq, list_insert_insert_eq by done.
  simpl b_refcnt. rewrite Hrc. change (1 - 1) with 0. cbn [Z.eqb when].
  set (b' := set_refcnt 0 _).
  assert (length l = S NBUF) as Hlen by (pose proof (c_len _ _ Hc) as E; by rewrite length_fmap in E).
  destruct (move_front (D:=D) true (<[i := b']> l) dd ord i) as (L & ord' & HL & HLs & HLl);
    [by apply linked_insert|by rewrite length_insert|done|].
  rewrite (bind_ok _ _ _ _ _ HL). unfold release. bsimp. simpl.
  split; [|apply (keeps_strip _ _ (Bcache false (<[i := b']> l) dd)); [exact HLs|];
    apply keeps_insert; auto].
  split; simpl; try done; [|by exists ord'].
  rewrite HLs, list_fmap_insert.
  destruct (core_at _ _ _ Hc Hi) as (_ & _ & Hsi & _).
  eapply core_replace; [done|done|done|done|right; done| | | | | | |]; simpl; rewrite ?Hbn.
  - by eapply core_others.
  - apply (bufok_release (dsk a) (buf_at l i)); try done. intros Hpi.
    destruct Hclean as [Hd|He]; [apply Hdi in Hd; congruence|].
    rewrite Hov in He. unfold dblk in He. by destruct (Z.ltb_spec n 0); subst.
  - intros j bj Hj _ Hlj. by eapply c_buf.
  - intros m Hm. case_decide; rewrite ?lookup_delete_ne by done; set_solver.
  - change (used (strip b')) with (pinned (buf_at l i)).
    case_decide as Hd.
    + apply Hdi in Hd. by rewrite Hd.
    + rewrite lookup_delete_eq. destruct (pinned (buf_at l i)); [|done]. tauto.
  - set_solver.
  - done.
Qed.
(** A buffer that has not been used since boot. *)
Definition fresh (b : buf) : Prop :=
  b_flags b = 0 /\ b_dev b = 0 /\ b_refcnt b = 0 /\ sl_rest (b_lock b) /\
  sl_locked (b_lock b) = false /\ is_block (b_data b).

Lemma fresh_alter (f : buf -> buf) (l : list buf) i :
  (forall b, fresh b -> fresh (f b)) -> Forall fresh l -> Forall fresh (alter f i l).
Proof. intros Hf Hl. apply Forall_alter; [done|]. intros x Hx HP. by apply Hf. Qed.

(** One turn of the loop of [binit]. *)
Lemma binit_body (l : list buf) (d : D) i :
  (i < NBUF)%nat -> length l = S NBUF -> Forall fresh l ->
  ring (nx l) (pv l) HEAD (reverse (seq 0 i)) ->
  exists L,
    (n <- bfield HEAD b_next ;;
     upd i (set_next n) ;;
     upd i (set_prev HEAD) ;;
     upd i (set_lock (initsleeplock "buffer")) ;;
     n <- bfield HEAD b_next ;;
     upd n (set_prev i) ;;
     upd HEAD (set_next i)) (Bcache false l d) = Ok tt (Bcache false L d) /\
    length L = S NBUF /\ Forall fresh L /\
    ring (nx L) (pv L) HEAD (reverse (seq 0 (S i))).
Proof.
  intros Hi Hlen Hfr Hr.
  set (lk := set_lock (initsleeplock "buffer")).
  assert (nx l HEAD < S NBUF)%nat as Hnh.
  { rewrite (ring_first _ _ _ _ Hr). destruct (reverse (seq 0 i)) as [|x r] eqn:E; simpl;
      [unfold HEAD; lia|].
    assert (x ∈ reverse (seq 0 i)) as Hx by (rewrite E; set_solver).
    rewrite elem_of_reverse, elem_of_seq in Hx. lia. }
  assert (i <> HEAD) as HiH by (unfold HEAD; lia).
  set (l1 := alter lk i (alter (set_prev HEAD) i (alter (set_next (nx l HEAD)) i l))).
  assert (length l1 = S NBUF) as Hl1 by (unfold l1; by rewrite !length_alter).
  assert (forall y, nx l1 y = fupd (nx l) i (nx l HEAD) y) as Hn1.
  { intros y. rewrite <- nx_set_next by lia. unfold nx, l1.
    rewrite !buf_at_alter by (rewrite ?length_alter; lia). repeat case_decide; by subst. }
  assert (forall y, pv l1 y = fupd (pv l) i HEAD y) as Hp1.
  { intros y. rewrite <- pv_set_prev by lia. unfold pv, l1.
    rewrite !buf_at_alter by (rewrite ?length_alter; lia). repeat case_decide; by subst. }
  exists (alter (set_next i) HEAD (alter (set_prev i) (nx l HEAD) l1)). split_and!.
  - bstep. bstep. bstep. bstep. fold (nx l HEAD). fold lk. fold l1. bstep.
    fold (nx l1 HEAD). rewrite Hn1, fupd_ne by done. bstep. done.
  - by rewrite !length_alter.
  - repeat apply fresh_alter; try done; by intros [] (? & ? & ? & ? & ? & ?).
  - rewrite seq_S, reverse_snoc. simpl.
    eapply ring_ext; [| |apply (ring_insert _ _ _ _ i Hr)].
    + intros y. rewrite nx_set_next by (rewrite length_alter; unfold HEAD; lia).
      unfold fupd at 1 2. case_decide; [done|]. by rewrite nx_set_prev by lia.
    + intros y. rewrite pv_set_next by (rewrite length_alter; unfold HEAD; lia).
      rewrite pv_set_prev by lia. unfold fupd at 1 2. case_decide; [done|]. apply Hp1.
    + rewrite elem_of_cons, elem_of_reverse, elem_of_seq. lia.
Qed.

(** [binit] sets up the empty cache. *)
Lemma binit_refines (k : bool) (l : list buf) (d : D) :
  length l = S NBUF -> Forall fresh l -> dwf d ->
  exists c, binit (Bcache k l d) = Ok tt c /\
    Rel c (BState (dblocks d) ∅ ∅ ∅ (dwrites d)).
Proof.
  intros Hlen Hfr Hw. unfold binit. bstep. bstep. bstep.
  set (l0 := alter (set_next HEAD) HEAD (alter (set_prev HEAD) HEAD l)).
  destruct (mfor_inv
    (fun i s => exists L, s = Bcache false L d /\ length L = S NBUF /\ Forall fresh L /\
       ring (nx L) (pv L) HEAD (reverse (seq 0 (Z.to_nat i)))) NBUF 0
    (fun i => let b := Z.to_nat i in
      n <- bfield HEAD b_next ;; upd b (set_next n) ;; upd b (set_prev HEAD) ;;
      upd b (set_lock (initsleeplock "buffer")) ;; n <- bfield HEAD b_next ;;
      upd n (set_prev b) ;; upd HEAD (set_next b)) (Bcache false l0 d))
    as (s' & Hm & L & -> & HL & HLf & HLr).
  - exists l0. split_and!; try done.
    + unfold l0. by rewrite !length_alter.
    + unfold l0. repeat apply fresh_alter; try done; by intros [] (? & ? & ? & ? & ? & ?).
    + split; [apply NoDup_singleton|]. simpl. unfold l0.
      assert (HEAD < length l)%nat by (unfold HEAD; lia).
      rewrite nx_set_next, pv_set_next by (by rewrite length_alter). rewrite pv_set_prev by done.
      by rewrite !fupd_eq.
  - intros j s Hj (L & -> & HL & HLf & HLr).
    destruct (binit_body L d (Z.to_nat j)) as (L' & HE & HL' & HLf' & HLr'); [lia|done..|].
    exists (Bcache false L' d). split; [exact HE|]. exists L'. split_and!; try done.
    by replace (Z.to_nat (j + 1)) with (S (Z.to_nat j)) by lia.
  - eexists. split; [exact Hm|]. clear Hm.
    assert (forall i b, (strip <$> L) !! i = Some b -> fresh b) as Hall.
    { intros i b. rewrite list_lookup_fmap, fmap_Some. intros (b0 & Hi & ->).
      pose proof (Forall_lookup_1 _ _ _ _ HLf Hi) as Hf. by destruct b0. }
    assert (forall P n b, caches (strip <$> L) P n b <-> False) as Hno.
    { intros P n b. split; [|done]. intros (i & _ & Hi & E & _).
      destruct (Hall _ _ Hi) as (_ & E' & _). rewrite E' in E. discriminate. }
    split; simpl; try done.
    + split; simpl.
      * by rewrite length_fmap.
      * intros i b _ Hi. destruct (Hall _ _ Hi) as (? & ? & ? & ? & Hlk & ?).
        split; try done; unfold locked; rewrite Hlk; [done|by left].
      * intros i j bi bj _ _ Hi _ E. destruct (Hall _ _ Hi) as (_ & E' & _). rewrite E' in E. discriminate.
      * intros n d'. setoid_rewrite Hno. rewrite lookup_empty. naive_solver.
      * intros n. setoid_rewrite Hno. set_solver.
      * intros n. setoid_rewrite Hno. set_solver.
    + exists (reverse (seq 0 NBUF)). split; [done|]. by rewrite reverse_Permutation.
Qed.

(** * Clients of the cache *)

(** What the log and the file system do with buffers, one call at a time. *)
Inductive bop : Type :=
| ORead (n : Z)
| OSet (n : Z) (d : block)
| OPin (n : Z)
| OWrite (n : Z)
| ORelse (n : Z).

(** The client on the block layer; the result lists the blocks it has read. *)
Fixpoint run_layer (ops : list bop) : M bstate (list block) :=
  match ops with
  | [] => ret []
  | ORead n :: r => d <- BlockLayer.bread n ;; t <- run_layer r ;; ret (d :: t)
  | OSet n d :: r => BlockLayer.bset n d ;; run_layer r
  | OPin n :: r => BlockLayer.bpin n ;; run_layer r
  | OWrite n :: r => BlockLayer.bwrite n ;; run_layer r
  | ORelse n :: r => BlockLayer.brelse n ;; run_layer r
  end.

(** The client on the cache; [h] holds the buffer pointers it has been given. *)
Fixpoint run_bio (pid : Z) (h : gmap Z nat) (ops : list bop) : M (bcache D) (list block) :=
  match ops with
  | [] => ret []
  | ORead n :: r =>
      i <- bread pid ROOTDEV n ;;
      d <- bfield i b_data ;;
      t <- run_bio pid (<[n := i]> h) r ;;
      ret (d :: t)
  | OSet n d :: r => bset (default 0%nat (h !! n)) d ;; run_bio pid h r
  | OPin n :: r => bpin (default 0%nat (h !! n)) ;; run_bio pid h r
  | OWrite n :: r => bwrite (default 0%nat (h !! n)) ;; run_bio pid h r
  | ORelse n :: r => brelse (default 0%nat (h !! n)) ;; run_bio pid (delete n h) r
  end.

(** The protocol: only locked buffers are used, and a buffer that was modified
    is written or pinned before it is released. *)
Fixpoint protocol (hs md : gset Z) (ops : list bop) : Prop :=
  match ops with
  | [] => True
  | ORead n :: r => 0 <= n /\ protocol ({[n]} ∪ hs) md r
  | OSet n d :: r => n ∈ hs /\ is_block d /\ protocol hs ({[n]} ∪ md) r
  | OPin n :: r => n ∈ hs /\ protocol hs (md ∖ {[n]}) r
  | OWrite n :: r => n ∈ hs /\ protocol hs (md ∖ {[n]}) r
  | ORelse n :: r => n ∈ hs /\ n ∉ md /\ protocol (hs ∖ {[n]}) md r
  end.

(** The client's pointers are those of the blocks it holds, and a block it has
    not modified is pinned or equal to the disk. *)
Record client (hs md : gset Z) (h : gmap Z nat) (c : bcache D) (a : bstate) : Prop := Client {
  cl_rel : Rel c a;
  cl_held : held a = hs;
  cl_hd : forall n, n ∈ hs -> exists i, h !! n = Some i /\ handle c i n;
  cl_clean : forall n, n ∈ hs -> n ∉ md -> n ∈ dirty a \/ over a !! n = dblk a n
}.

(** The client relation after an operation on a block that stays locked. *)
Lemma client_keep hs md md' h c a i n c' a' :
  client hs md h c a -> n ∈ hs -> h !! n = Some i ->
  (Rel c' a' /\ handle c' i n) /\ keeps n c c' ->
  held a' = held a -> (forall m, m <> n -> m ∉ md' -> m ∉ md) ->
  (forall m, m <> n -> m ∈ dirty a -> m ∈ dirty a') ->
  (forall m, m <> n -> over a' !! m = over a !! m /\ (dblk a m = dblk a' m)) ->
  (n ∉ md' -> n ∈ dirty a' \/ over a' !! n = dblk a' n) ->
  client hs md' h c' a'.
Proof.
  intros [HR Hhe Hhd Hcl] Hn Hi [[HR' Hh'] Hk] E Hmd Hdi Hov Hcln. split; [done|congruence| |].
  - intros m Hm. destruct (decide (m = n)) as [->|Hne]; [by exists i|].
    destruct (Hhd m Hm) as (j & ? & ?). exists j. eauto.
  - intros m Hm Hmd'. destruct (decide (m = n)) as [->|Hne]; [auto|].
    destruct (Hov m Hne) as [-> <-]. destruct (Hcl m Hm); eauto.
Qed.

Lemma core_dom l a n d : core l a -> over a !! n = Some d -> n ∈ held a \/ n ∈ dirty a.
Proof.
  intros Hc. rewrite (c_over _ _ Hc), (c_held _ _ Hc), (c_dirty _ _ Hc).
  intros (b & (i & Hi & Hb & Hd & Hu & Hn) & _).
  unfold used in Hu. apply orb_true_iff in Hu as [Hu|Hu]; [left|right]; exists b, i; auto.
Qed.

Lemma client_read hs md h c a i n d c' a' :
  client hs md h c a -> BlockLayer.bread n a = Ok d a' ->
  Rel c' a' -> handle c' i n -> keeps n c c' ->
  client ({[n]} ∪ hs) md (<[n := i]> h) c' a'.
Proof.
  intros [HR <- Hhd Hcl] Hb HR' Hh' Hk.
  destruct (bread_inv _ _ _ _ Hb) as (-> & Hnh & Ho). split; [done|done| |].
  - intros m Hm. destruct (decide (m = n)) as [->|Hne]; [exists i; by rewrite lookup_insert_eq|].
    destruct (Hhd m) as (j & ? & ?); [set_solver|]. exists j. rewrite lookup_insert_ne by done. eauto.
  - intros m Hm Hmd. simpl. destruct (decide (m = n)) as [->|Hne].
    + rewrite lookup_insert_eq. destruct Ho as [Ho|[_ Ho]]; [left|by right].
      destruct (core_dom _ _ _ _ (r_core _ _ HR) Ho); [done..].
    + rewrite lookup_insert_ne by done. apply Hcl; set_solver.
Qed.

Lemma client_write hs md h c a i n u c' a' :
  client hs md h c a -> n ∈ hs -> h !! n = Some i -> handle c i n ->
  BlockLayer.bwrite n a = Ok u a' ->
  (Rel c' a' /\ handle c' i n) /\ keeps n c c' ->
  client hs (md ∖ {[n]}) h c' a'.
Proof.
  intros Hcl Hn Hi Hh Hb Hs. pose proof (handle_facts _ _ _ _ (cl_rel _ _ _ _ _ Hcl) Hh)
    as (_ & _ & _ & Hov & _ & [blk Hbk]).
  destruct (bwrite_inv _ _ _ _ Hb) as (-> & _). rewrite Hov in *. simpl in *.
  assert (0 <= n < Z.of_nat (length (dsk a))) as Hr.
  { unfold dblk in Hbk. destruct (Z.ltb_spec n 0); [done|]. apply lookup_lt_Some in Hbk. lia. }
  eapply client_keep; eauto; simpl; [set_solver|set_solver| |].
  - intros m Hm. split; [done|].
    rewrite (dblk_insert _ _ _ _ _ (over a) (held a) (dirty a) (wr a)), decide_False by done.
    by destruct a.
  - intros _. right. rewrite Hov.
    by rewrite (dblk_insert _ _ _ _ _ (over a) (held a) (dirty a) (wr a)), decide_True.
Qed.

Lemma client_relse hs md h c a i n u c' a' :
  client hs md h c a -> n ∈ hs -> h !! n = Some i ->
  BlockLayer.brelse n a = Ok u a' -> Rel c' a' /\ keeps n c c' ->
  client (hs ∖ {[n]}) md (delete n h) c' a'.
Proof.
  intros [HR <- Hhd Hcl] Hn Hi Hb [HR' Hk].
  destruct (brelse_inv _ _ _ _ Hb) as (-> & _). split; [done|done| |]; simpl.
  - intros m Hm. assert (m <> n) by set_solver.
    destruct (Hhd m) as (j & ? & ?); [set_solver|]. exists j. rewrite lookup_delete_ne by done. eauto.
  - intros m Hm Hmd. assert (m <> n) by set_solver.
    destruct (Hcl m) as [?|E]; [set_solver|done|by left|right].
    case_decide; [done|]. by rewrite lookup_delete_ne.
Qed.

Lemma run_refines pid ops hs md h c a :
  client hs md h c a -> protocol hs md ops ->
  same_outcome (fun r c' r' a' => r = r' /\ Rel c' a') (run_bio pid h ops c) (run_layer ops a).
Proof.
  revert hs md h c a. induction ops as [|o ops IH]; intros hs md h c a Hcl; simpl.
  { intros _. split; [done|apply Hcl]. }
  destruct o as [n|n d|n|n|n]; pose proof Hcl as [HR Hhe Hhd Hclean].
  - intros [Hn Hp]. pose proof (bread_refines c a pid n HR Hn) as Hs. unfold bind.
    destruct (bread pid ROOTDEV n c) as [i c1| | |], (BlockLayer.bread n a) as [d a1| | |] eqn:Ea;
      simpl in Hs; try done.
    destruct Hs as (HR1 & Hh1 & <- & Hk). unfold bfield, gets.
    specialize (IH _ _ _ _ _ (client_read _ _ _ _ _ _ _ _ _ _ Hcl Ea HR1 Hh1 Hk) Hp).
    destruct (run_bio pid (<[n:=i]> h) ops c1), (run_layer ops a1); simpl in *; try done.
    destruct IH as [-> ?]. done.
  - intros (Hn & Hd & Hp). destruct (Hhd n Hn) as (i & Hi & Hh). rewrite Hi. simpl.
    pose proof (bset_refines c a i n d HR Hh Hd) as Hs. unfold bind.
    destruct (bset i d c) as [[] c1| | |], (BlockLayer.bset n d a) as [[] a1| | |] eqn:Ea;
      simpl in Hs; try done. injection Ea as <-. apply (IH hs ({[n]} ∪ md)); [|done].
    eapply client_keep; eauto; simpl; [set_solver| |set_solver].
    intros m Hm. by rewrite lookup_insert_ne.
  - intros (Hn & Hp). destruct (Hhd n Hn) as (i & Hi & Hh). rewrite Hi. simpl.
    pose proof (bpin_refines c a i n HR Hh) as Hs. unfold bind.
    destruct (bpin i c) as [[] c1| | |], (BlockLayer.bpin n a) as [[] a1| | |] eqn:Ea;
      simpl in Hs; try done. injection Ea as <-. apply (IH hs (md ∖ {[n]})); [|done].
    eapply client_keep; eauto; simpl; set_solver.
  - intros (Hn & Hp). destruct (Hhd n Hn) as (i & Hi & Hh). rewrite Hi. simpl.
    pose proof (bwrite_refines c a i n HR Hh) as Hs. unfold bind.
    destruct (bwrite i c) as [[] c1| | |], (BlockLayer.bwrite n a) as [[] a1| | |] eqn:Ea;
      simpl in Hs; try done. apply (IH hs (md ∖ {[n]})); [|done]. by eapply client_write.
  - intros (Hn & Hmd & Hp). destruct (Hhd n Hn) as (i & Hi & Hh). rewrite Hi. simpl.
    pose proof (brelse_refines c a i n HR Hh (Hclean n Hn Hmd)) as Hs. unfold bind.
    destruct (brelse i c) as [[] c1| | |], (BlockLayer.brelse n a) as [[] a1| | |] eqn:Ea;
      simpl in Hs; try done. apply (IH (hs ∖ {[n]}) md); [|done]. by eapply client_relse.
Qed.

(** C1. The buffer cache implements the block layer.  From a cache set up by
    [binit] on any well-formed disk, every client that uses buffers by the rules
    (only locked ones, and a modified one is written or pinned before it is
    released) ends on bio.c exactly as on the block layer: it reads the same
    blocks, sleeps on the same channel, panics when the layer does, and leaves a
    cache, disk and write history that implement the layer's. *)
Theorem bio_implements_layer (pid : Z) (k : bool) (l : list buf) (d : D) (ops : list bop) :
  length l = S NBUF -> Forall fresh l -> dwf d -> protocol ∅ ∅ ops ->
  same_outcome (fun r c r' a => r = r' /\ Rel c a)
    ((binit ;; run_bio pid ∅ ops) (Bcache k l d))
    (run_layer ops (BState (dblocks d) ∅ ∅ ∅ (dwrites d))).
Proof.
  intros Hl Hf Hw Hp. destruct (binit_refines k l d Hl Hf Hw) as (c & Hb & HR).
  rewrite (bind_ok _ _ _ _ _ Hb). clear Hb. apply (run_refines pid ops ∅ ∅); [|exact Hp].
  split; [exact HR|reflexivity|set_solver..].
Qed.
End refine.

(** A four-block memory disk and a client that writes one block and reads it
    back. *)
Definition demo_disk : MemIde.memide := MemIde.ideinit (replicate 2048 0).
Definition demo_block : block := replicate 512 7.
Definition demo_ops : list bop :=
  [ORead 2; OSet 2 demo_block; OWrite 2; ORelse 2; ORead 2; ORelse 2].

Lemma bio_implements_layer_witness :
  same_outcome (fun r c r' a => r = r' /\ Rel c a)
    ((binit ;; run_bio 1 ∅ demo_ops) (Bcache false (replicate (S NBUF) buf0) demo_disk))
    (run_layer demo_ops (BState (dblocks demo_disk) ∅ ∅ ∅ (dwrites demo_disk))) /\
  match run_layer demo_ops (BState (dblocks demo_disk) ∅ ∅ ∅ (dwrites demo_disk)) with
  | Ok r a => r = [replicate 512 0; demo_block] /\ wr a = [(2, demo_block)]
  | _ => False
  end.
Proof.
  split; [|vm_compute; split; reflexivity].
  apply bio_implements_layer.
  - reflexivity.
  - apply Forall_replicate. repeat split. apply Forall_replicate. unfold is_u8. lia.
  - split; [vm_compute; discriminate|]. split; [vm_compute; discriminate|].
    apply Forall_replicate. unfold is_u8. lia.
  - simpl. split_and!; try lia; try set_solver. split; [reflexivity|].
    apply Forall_replicate. unfold is_u8. lia.
Defined.
