(* ===== verification/Super.v ===== *)
(** The super block (fs.h) and its reader [readsb] (fs.c), which the log and the
    file system share. *)
From stdpp Require Import base numbers list gmap strings.
From Stdlib Require Import ZArith Lia.
From S2P Require Import Prelude Bytes Disk BlockLayer.

Record superblock := Superblock {
  sb_size : Z;
  sb_nblocks : Z;
  sb_ninodes : Z;
  sb_nlog : Z;
  sb_logstart : Z;
  sb_inodestart : Z;
  sb_bmapstart : Z
}.

(** The seven [uint]s of [struct superblock] in a block. *)
Definition decode_sb (d : block) : superblock :=
  Superblock (get32 d 0) (get32 d 4) (get32 d 8) (get32 d 12) (get32 d 16) (get32 d 20)
    (get32 d 24).

Definition readsb : M bstate superblock :=
  d <- bread 1 ;;
  brelse 1 ;;
  ret (decode_sb d).
