(* ===== verification/Log.v ===== *)
(** The write-ahead log (log.c) on the block layer: transactions, commit and
    recovery, and the proof that a crash at any point of a commit or of a
    recovery leaves a disk from which recovery produces either all or none of
    the blocks of the transaction. *)
From stdpp Require Import base numbers list gmap sets strings.
From Stdlib Require Import ZArith Lia.
From S2P Require Import Prelude Bytes Disk BlockLayer Super.

Definition MAXOPBLOCKS : Z := 10.
Definition LOGSIZE : Z := MAXOPBLOCKS * 3.

(** [struct log] with its [struct logheader]: [lh_block] is the array
    [lh.block[LOGSIZE]]. *)
Record log := Log {
  lg_lock : bool;
  lg_start : Z;
  lg_size : Z;
  lg_outstanding : Z;
  lg_committing : bool;
  lg_dev : Z;
  lh_n : Z;
  lh_block : list Z
}.

(** The log on top of the buffer cache. *)
Record lstate := LState { lg : log; bs : bstate }.

Definition log0 : log := Log false 0 0 0 false 0 0 (replicate (Z.to_nat LOGSIZE) 0).

Definition set_lk (b : bool) (s : lstate) : lstate :=
  let l := lg s in
  LState (Log b (lg_start l) (lg_size l) (lg_outstanding l) (lg_committing l) (lg_dev l)
            (lh_n l) (lh_block l)) (bs s).
Definition set_geometry (st sz dv : Z) (s : lstate) : lstate :=
  let l := lg s in
  LState (Log (lg_lock l) st sz (lg_outstanding l) (lg_committing l) dv
            (lh_n l) (lh_block l)) (bs s).
Definition set_outstanding (o : Z) (s : lstate) : lstate :=
  let l := lg s in
  LState (Log (lg_lock l) (lg_start l) (lg_size l) o (lg_committing l) (lg_dev l)
            (lh_n l) (lh_block l)) (bs s).
Definition set_committing (c : bool) (s : lstate) : lstate :=
  let l := lg s in
  LState (Log (lg_lock l) (lg_start l) (lg_size l) (lg_outstanding l) c (lg_dev l)
            (lh_n l) (lh_block l)) (bs s).
Definition set_lh_n (n : Z) (s : lstate) : lstate :=
  let l := lg s in
  LState (Log (lg_lock l) (lg_start l) (lg_size l) (lg_outstanding l) (lg_committing l)
            (lg_dev l) n (lh_block l)) (bs s).
Definition set_lh_block (i : Z) (b : Z) (s : lstate) : lstate :=
  let l := lg s in
  LState (Log (lg_lock l) (lg_start l) (lg_size l) (lg_outstanding l) (lg_committing l)
            (lg_dev l) (lh_n l) (<[Z.to_nat i := b]> (lh_block l))) (bs s).

(** Run an operation of the buffer cache. *)
Definition cache {A} (m : M bstate A) : M lstate A :=
  zoom bs (fun b s => LState (lg s) b) m.

Definition acquire_log : M lstate unit := acquire (fun s => lg_lock (lg s)) set_lk.
Definition release_log : M lstate unit := release (fun s => lg_lock (lg s)) set_lk.

Definition field {A} (f : log -> A) : M lstate A := gets (fun s => f (lg s)).

(** [log.lh.block[i]]; an index outside the array has no meaning in C. *)
Definition lh_at (i : Z) : M lstate Z := fun s =>
  match lh_block (lg s) !! Z.to_nat i with
  | Some b => Ok b s
  | None => Panic "lh.block: index out of range"
  end.
Definition lh_store (i b : Z) : M lstate unit := fun s =>
  if (Z.to_nat i <? length (lh_block (lg s)))%nat then Ok tt (set_lh_block i b s)
  else Panic "lh.block: index out of range".

(** The [n] and [block[i]] of a header block. *)
Definition hb_n (d : block) : Z := i32 (get32 d 0).
Definition hb_block (d : block) (i : Z) : Z := i32 (get32 d (4 + 4 * i)).

(** The body of the loop of [install_trans], and the loop. *)
Definition install_block (tail : Z) : M lstate unit :=
  start <- field lg_start ;;
  let lbuf := start + tail + 1 in
  ld <- cache (bread lbuf) ;;
  dbuf <- lh_at tail ;;
  cache (bread dbuf) ;;
  cache (bset dbuf ld) ;;
  cache (bwrite dbuf) ;;
  cache (brelse lbuf) ;;
  cache (brelse dbuf).

Definition install_trans : M lstate unit :=
  n <- field lh_n ;;
  mfor (Z.to_nat n) 0 install_block.

Definition read_head : M lstate unit :=
  start <- field lg_start ;;
  d <- cache (bread start) ;;
  modify (set_lh_n (hb_n d)) ;;
  n <- field lh_n ;;
  mfor (Z.to_nat n) 0 (fun i => lh_store i (hb_block d i)) ;;
  cache (brelse start).

Definition write_head : M lstate unit :=
  start <- field lg_start ;;
  cache (bread start) ;;
  n <- field lh_n ;;
  d <- cache (bdata start) ;;
  cache (bset start (put32 d 0 n)) ;;
  mfor (Z.to_nat n) 0 (fun i =>
    b <- lh_at i ;;
    d <- cache (bdata start) ;;
    cache (bset start (put32 d (4 + 4 * i) b))) ;;
  cache (bwrite start) ;;
  cache (brelse start).

Definition recover_from_log : M lstate unit :=
  read_head ;;
  install_trans ;;
  modify (set_lh_n 0) ;;
  write_head.

Definition initlog (dev : Z) : M lstate unit :=
  modify (set_lk false) ;;
  sb <- cache readsb ;;
  modify (set_geometry (i32 (sb_logstart sb)) (i32 (sb_nlog sb)) dev) ;;
  recover_from_log.

(** The body of the loop of [write_log], and the loop. *)
Definition write_log_block (tail : Z) : M lstate unit :=
  start <- field lg_start ;;
  let to := start + tail + 1 in
  cache (bread to) ;;
  from <- lh_at tail ;;
  fd <- cache (bread from) ;;
  cache (bset to fd) ;;
  cache (bwrite to) ;;
  cache (brelse from) ;;
  cache (brelse to).

Definition write_log : M lstate unit :=
  n <- field lh_n ;;
  mfor (Z.to_nat n) 0 write_log_block.

Definition commit : M lstate unit :=
  n <- field lh_n ;;
  if 0 <? n then
    write_log ;;
    write_head ;;
    install_trans ;;
    modify (set_lh_n 0) ;;
    write_head
  else ret tt.

(** [begin_op], from its start or from its wake-up in [sleep], to its return or
    to the next [sleep]; [sleep] gives up [log.lock]. *)
Definition begin_op : M lstate unit :=
  acquire_log ;;
  l <- field id ;;
  if lg_committing l then release_log ;; msleep CLog
  else if LOGSIZE <? lh_n l + (lg_outstanding l + 1) * MAXOPBLOCKS then
    release_log ;; msleep CLog
  else
    modify (set_outstanding (lg_outstanding l + 1)) ;;
    release_log.

(** The two critical sections of [end_op], around the commit. *)
Definition end_op_enter : M lstate bool :=
  acquire_log ;;
  l <- field id ;;
  modify (set_outstanding (lg_outstanding l - 1)) ;;
  if lg_committing l then panic "log.committing" else
  do_commit <- (if lg_outstanding l - 1 =? 0
                then modify (set_committing true) ;; ret true
                else wakeup CLog ;; ret false) ;;
  release_log ;;
  ret do_commit.

Definition end_op_leave : M lstate unit :=
  acquire_log ;;
  modify (set_committing false) ;;
  wakeup CLog ;;
  release_log.

Definition end_op : M lstate unit :=
  do_commit <- end_op_enter ;;
  when do_commit (commit ;; end_op_leave).

(** The absorption loop of [log_write]: the index of [blockno] in the first [n]
    entries of [lh.block], or [n]. *)
Definition find_slot (n blockno : Z) : M lstate Z :=
  r <- mfind (Z.to_nat n) 0 (fun i =>
    b <- lh_at i ;;
    ret (if b =? blockno then Some i else None)) ;;
  ret (default n r).

Definition log_write (blockno : Z) : M lstate unit :=
  l <- field id ;;
  if (LOGSIZE <=? lh_n l) || (lg_size l - 1 <=? lh_n l) then panic "too big a transaction" else
  if lg_outstanding l <? 1 then panic "log_write outside of trans" else
  acquire_log ;;
  i <- find_slot (lh_n l) blockno ;;
  lh_store i blockno ;;
  when (i =? lh_n l) (modify (set_lh_n (lh_n l + 1))) ;;
  cache (bpin blockno) ;;
  release_log.

(** * Transactions as sequences of block writes *)

Lemma cache_ok {A} (m : M bstate A) l b a b' :
  m b = Ok a b' -> cache m (LState l b) = Ok a (LState l b').
Proof. intros E. unfold cache, zoom. simpl. by rewrite E. Qed.

Lemma cache_step {A B} (m : M bstate A) (k : A -> M lstate B) l b a b' :
  m b = Ok a b' -> bind (cache m) k (LState l b) = k a (LState l b').
Proof. intros E. by rewrite (bind_ok _ _ _ _ _ (cache_ok m l b a b' E)). Qed.

Lemma bread_quiet d o w n v :
  (size o < NBUF)%nat -> o !! n = None -> dat d n = Some v ->
  bread n (quiet d o w) = Ok v (BState d (<[n := v]> o) {[n]} (dom o) w).
Proof.
  intros Hs Ho Hd. rewrite (bread_ok n v); [|simpl; set_solver|right; done].
  unfold bheld. simpl. by rewrite union_empty_r_L.
Qed.

Lemma lh_step {A} i b (k : Z -> M lstate A) s :
  lh_block (lg s) !! Z.to_nat i = Some b -> bind (lh_at i) k s = k b s.
Proof. intros E. unfold bind, lh_at. by rewrite E. Qed.

Section steps.
Context (l : log) (d : list block) (o : gmap Z block) (w : list (Z * block)).

(** One turn of the loop of [install_trans]. *)
Lemma install_step tail dbuf v :
  let lbuf := lg_start l + tail + 1 in
  lh_block l !! Z.to_nat tail = Some dbuf ->
  o !! lbuf = None -> dat d lbuf = Some v -> dbuf <> lbuf -> is_Some (dat d dbuf) ->
  (size o < NBUF)%nat -> (is_Some (o !! dbuf) \/ (S (size o) < NBUF)%nat) ->
  install_block tail (LState l (quiet d o w)) =
  Ok tt (LState l (quiet (<[Z.to_nat dbuf := v]> d) (delete dbuf o) (w ++ [(dbuf, v)]))).
Proof.
  intros lbuf Hlh Hol Hdl Hne [u Hdd] Hsz Hroom.
  unfold install_block. erewrite bind_ok by reflexivity. cbv zeta. simpl lg. fold lbuf. clearbody lbuf.
  erewrite cache_step by (apply bread_quiet; eassumption).
  erewrite lh_step by exact Hlh.
  erewrite cache_step.
  2:{ apply (bread_ok dbuf (default u (o !! dbuf))); simpl; [set_solver|].
      rewrite lookup_insert_ne by done. destruct (o !! dbuf) as [x|] eqn:E; simpl; [by left|right].
      split; [done|]. split; [|done]. rewrite map_size_insert_None by done.
      destruct Hroom as [[? ?]|]; [done|lia]. }
  erewrite cache_step by reflexivity. unfold bheld. simpl.
  erewrite cache_step by (apply bwrite_ok; simpl; [set_solver|by rewrite lookup_insert_eq]).
  erewrite cache_step by (apply brelse_clean; simpl; [set_solver|];
    intros [E _]%elem_of_difference; apply elem_of_dom in E as [? E]; by rewrite Hol in E).
  erewrite cache_ok by (apply brelse_clean; simpl; set_solver). simpl.
  unfold quiet. do 3 f_equal.
  - apply map_eq. intros x.
    destruct (decide (x = dbuf)), (decide (x = lbuf)); subst; by simplify_map_eq.
  - set_solver.
  - by rewrite dom_delete_L.
Qed.

(** One turn of the loop of [write_log]. *)
Lemma write_log_step tail from v :
  let to := lg_start l + tail + 1 in
  lh_block l !! Z.to_nat tail = Some from ->
  o !! to = None -> is_Some (dat d to) -> o !! from = Some v -> (size o < NBUF)%nat ->
  write_log_block tail (LState l (quiet d o w)) =
  Ok tt (LState l (quiet (<[Z.to_nat to := v]> d) o (w ++ [(to, v)]))).
Proof.
  intros to Hlh Hot [u Hdt] Hof Hsz.
  assert (from <> to) as Hne by congruence.
  assert (from ∈ dom o) as Hdo by (apply elem_of_dom; eauto).
  assert (to ∉ dom o) as Hdn by (by apply not_elem_of_dom).
  unfold write_log_block. erewrite bind_ok by reflexivity. cbv zeta. simpl lg. fold to. clearbody to.
  erewrite cache_step by (apply bread_quiet; eassumption).
  erewrite lh_step by exact Hlh.
  erewrite cache_step.
  2:{ apply (bread_ok from v); simpl; [set_solver|]. left. by rewrite lookup_insert_ne. }
  erewrite cache_step by reflexivity. unfold bheld. simpl.
  erewrite cache_step by (apply bwrite_ok; simpl; [set_solver|by rewrite lookup_insert_eq]).
  erewrite cache_step by (apply brelse_dirty; simpl; set_solver).
  erewrite cache_ok by (apply brelse_clean; simpl; set_solver). simpl.
  unfold quiet. do 3 f_equal.
  - apply map_eq. intros x.
    destruct (decide (x = to)), (decide (x = from)); subst; by simplify_map_eq.
  - set_solver.
  - set_solver.
Qed.
End steps.

(** The cache after the blocks [L] have been written home and unpinned. *)
Definition unpin (L : list Z) (o : gmap Z block) : gmap Z block :=
  foldl (fun o b => delete b o) o L.

Lemma unpin_lookup L o n : unpin L o !! n = if decide (n ∈ L) then None else o !! n.
Proof.
  unfold unpin. revert o. induction L as [|b L IH]; intros o; cbn [foldl].
  - rewrite decide_False by set_solver. done.
  - rewrite IH. destruct (decide (n ∈ L)); [rewrite decide_True by set_solver; done|].
    destruct (decide (n = b)) as [->|].
    + rewrite lookup_delete_eq, decide_True by set_solver. done.
    + rewrite lookup_delete_ne, decide_False by set_solver. done.
Qed.

(** [L] is what the array [lh.block] holds from index [i] on. *)
Definition listed (l : log) (i : Z) (L : list Z) : Prop :=
  forall j b, L !! j = Some b -> lh_block l !! (Z.to_nat i + j)%nat = Some b.

Lemma listed_head l i b L : listed l i (b :: L) -> lh_block l !! Z.to_nat i = Some b.
Proof. intros H. specialize (H 0%nat b eq_refl). by rewrite Nat.add_0_r in H. Qed.

Lemma listed_tail l i b L : 0 <= i -> listed l i (b :: L) -> listed l (i + 1) L.
Proof.
  intros Hi H j x Hj. specialize (H (S j) x Hj).
  by replace (Z.to_nat (i + 1) + j)%nat with (Z.to_nat i + S j)%nat by lia.
Qed.

(** The log blocks [start+i+1 ..] of the disk hold [V]. *)
Definition logged (l : log) (d : list block) (i : Z) (V : list block) : Prop :=
  forall j v, V !! j = Some v -> dat d (lg_start l + i + 1 + Z.of_nat j) = Some v.

(** None of [L] is one of the [n] log blocks from index [i] on. *)
Definition outside (l : log) (i n : Z) (L : list Z) : Prop :=
  forall b, b ∈ L -> b < lg_start l + i + 1 \/ lg_start l + i + 1 + n <= b.

Lemma install_loop l L V tail d o w :
  0 <= tail -> length V = length L -> listed l tail L -> logged l d tail V ->
  outside l tail (Z.of_nat (length L)) L -> outside l tail (Z.of_nat (length L)) (elements (dom o)) ->
  (forall b, b ∈ L -> is_Some (dat d b)) -> (size o < NBUF)%nat ->
  (NoDup L /\ (forall b, b ∈ L -> is_Some (o !! b))) \/ (S (size o) < NBUF)%nat ->
  mfor (length L) tail install_block (LState l (quiet d o w)) =
  Ok tt (LState l (quiet (apply_writes (zip L V) d) (unpin L o) (w ++ zip L V))).
Proof.
  revert V tail d o w. induction L as [|b L IH];
    intros [|v V] tail d o w Ht Hlen Hli Hlo Hout Houto Hin Hsz Hroom; simpl in *; try lia.
  { unfold ret. by rewrite app_nil_r. }
  assert (lg_start l + tail + 1 <> b) as Hne.
  { destruct (Hout b ltac:(set_solver)); lia. }
  pose proof (Hlo 0%nat v eq_refl) as Hv. rewrite Z.add_0_r in Hv.
  assert (0 <= b) as Hb by (apply (dat_Some d), Hin; set_solver).
  erewrite bind_ok.
  2:{ apply (install_step l d o w tail b v); try done.
      - by eapply listed_head.
      - destruct (o !! (lg_start l + tail + 1)) eqn:E; [|done].
        destruct (Houto (lg_start l + tail + 1)); [|lia..].
        rewrite elem_of_elements. apply elem_of_dom. eauto.
      - apply Hin. set_solver.
      - destruct Hroom as [[_ Hr]|]; [left; apply Hr; set_solver|by right]. }
  assert (size (delete b o) <= size o)%nat as Hsz'.
  { destruct (o !! b) eqn:E; [rewrite map_size_delete_Some by eauto; lia|].
    by rewrite delete_id. }
  rewrite (IH V); [by rewrite <- app_assoc|lia|lia|by eapply listed_tail| | | | |lia|].
  - intros j x Hj. specialize (Hlo (S j) x Hj). rewrite dat_insert_ne.
    + by replace (lg_start l + (tail + 1) + 1 + Z.of_nat j)
        with (lg_start l + tail + 1 + Z.of_nat (S j)) by lia.
    + done.
    + apply lookup_lt_Some in Hj. destruct (Hout b ltac:(set_solver)); lia.
  - intros x Hx. destruct (Hout x ltac:(set_solver)); lia.
  - intros x Hx. destruct (Houto x); [|lia..]. set_solver.
  - intros x Hx. apply dat_Some. rewrite length_insert. apply dat_Some, Hin. set_solver.
  - destruct Hroom as [[Hnd Hr]|]; [left|right; lia].
    apply NoDup_cons in Hnd as [Hnb Hnd]. split; [done|].
    intros x Hx. rewrite lookup_delete_ne by set_solver. apply Hr. set_solver.
Qed.

(** The writes of [V] to the log blocks from index [i] on. *)
Fixpoint stamp (start i : Z) (V : list block) : list (Z * block) :=
  match V with
  | [] => []
  | v :: V' => (start + i + 1, v) :: stamp start (i + 1) V'
  end.

Lemma write_log_loop l L V tail d o w :
  0 <= tail -> length V = length L -> listed l tail L ->
  (forall j b, L !! j = Some b -> o !! b = V !! j) ->
  outside l tail (Z.of_nat (length L)) (elements (dom o)) ->
  0 <= lg_start l + tail + 1 -> lg_start l + tail + 1 + Z.of_nat (length L) <= Z.of_nat (length d) ->
  (size o < NBUF)%nat ->
  mfor (length L) tail write_log_block (LState l (quiet d o w)) =
  Ok tt (LState l (quiet (apply_writes (stamp (lg_start l) tail V) d) o
                     (w ++ stamp (lg_start l) tail V))).
Proof.
  revert V tail d w. induction L as [|b L IH];
    intros [|v V] tail d w Ht Hlen Hli Hval Houto Hlo Hhi Hsz; simpl in *; try lia.
  { unfold ret. by rewrite app_nil_r. }
  erewrite bind_ok.
  2:{ apply (write_log_step l d o w tail b v); try done.
      - by eapply listed_head.
      - destruct (o !! (lg_start l + tail + 1)) eqn:E; [|done].
        destruct (Houto (lg_start l + tail + 1)); [|lia..].
        rewrite elem_of_elements. apply elem_of_dom. eauto.
      - apply dat_Some. lia.
      - by apply (Hval 0%nat). }
  rewrite (IH V); [by rewrite <- app_assoc|lia|lia|by eapply listed_tail| | |lia| |done].
  - intros j x Hj. by apply (Hval (S j)).
  - intros x Hx. destruct (Houto x Hx); lia.
  - rewrite length_insert. lia.
Qed.

(** The header block after [write_head] has stored [L] in it. *)
Fixpoint fill (h : block) (i : Z) (L : list Z) : block :=
  match L with
  | [] => h
  | b :: L' => fill (put32 h (4 + 4 * i) b) (i + 1) L'
  end.

Definition header (h : block) (L : list Z) : block :=
  fill (put32 h 0 (Z.of_nat (length L))) 0 L.

Lemma fill_loop l L i d o w h u start :
  0 <= i -> listed l i L ->
  mfor (length L) i (fun i =>
    b <- lh_at i ;;
    d <- cache (bdata start) ;;
    cache (bset start (put32 d (4 + 4 * i) b)))
    (LState l (BState d (<[start := h]> o) {[start]} u w)) =
  Ok tt (LState l (BState d (<[start := fill h i L]> o) {[start]} u w)).
Proof.
  revert i h. induction L as [|b L IH]; intros i h Hi Hli; simpl; [done|].
  erewrite bind_ok.
  2:{ erewrite lh_step by (by eapply listed_head).
      erewrite cache_step by reflexivity. simpl. rewrite lookup_insert_eq. reflexivity. }
  simpl. rewrite insert_insert_eq. apply IH; [lia|by eapply listed_tail].
Qed.

Lemma write_head_ok l L d o w h :
  lh_n l = Z.of_nat (length L) -> listed l 0 L ->
  dat d (lg_start l) = Some h -> o !! lg_start l = None -> (size o < NBUF)%nat ->
  write_head (LState l (quiet d o w)) =
  Ok tt (LState l (quiet (<[Z.to_nat (lg_start l) := header h L]> d) o
                     (w ++ [(lg_start l, header h L)]))).
Proof.
  intros Hn Hli Hd Ho Hs. unfold write_head. erewrite bind_ok by reflexivity. simpl lg.
  assert (lg_start l ∉ dom o) by (by apply not_elem_of_dom).
  set (start := lg_start l) in *. clearbody start.
  erewrite cache_step by (by apply bread_quiet). erewrite bind_ok by reflexivity. simpl lg.
  erewrite cache_step by reflexivity. simpl over. rewrite lookup_insert_eq. simpl default.
  erewrite cache_step by reflexivity. simpl. rewrite insert_insert_eq, Hn, Nat2Z.id.
  erewrite bind_ok by (by apply fill_loop). fold (header h L).
  erewrite cache_step by (apply bwrite_ok; simpl; [set_solver|by rewrite lookup_insert_eq]).
  erewrite cache_ok by (apply brelse_clean; simpl; set_solver). simpl.
  unfold quiet. do 3 f_equal; [|set_solver..].
  by apply delete_insert_id.
Qed.

(** The log with another in-memory header. *)
Definition with_lh (l : log) (n : Z) (bl : list Z) : log :=
  Log (lg_lock l) (lg_start l) (lg_size l) (lg_outstanding l) (lg_committing l) (lg_dev l) n bl.

(** The block numbers of a header block. *)
Definition hlist (h : block) : list Z :=
  (fun i => hb_block h (Z.of_nat i)) <$> seq 0 (Z.to_nat (hb_n h)).

Lemma read_loop h k i l b :
  0 <= i -> (Z.to_nat i + k <= length (lh_block l))%nat ->
  exists bl, mfor k i (fun i => lh_store i (hb_block h i)) (LState l b) =
      Ok tt (LState (with_lh l (lh_n l) bl) b) /\
    length bl = length (lh_block l) /\
    (forall j, (j < k)%nat ->
       bl !! (Z.to_nat i + j)%nat = Some (hb_block h (i + Z.of_nat j))) /\
    (forall j, (j < Z.to_nat i)%nat -> bl !! j = lh_block l !! j).
Proof.
  revert i l. induction k as [|k IH]; intros i l Hi Hle; simpl.
  { exists (lh_block l). destruct l. split_and!; try done. lia. }
  erewrite bind_ok.
  2:{ unfold lh_store. simpl. destruct (Nat.ltb_spec (Z.to_nat i) (length (lh_block l))); [done|lia]. }
  unfold set_lh_block. simpl.
  edestruct (IH (i + 1)) as (bl & E & Hlen & Hnew & Hold); [lia| |].
  2:{ exists bl. split; [exact E|]. simpl in *. rewrite length_insert in Hlen.
      split; [done|]. split.
      - intros [|j] Hj.
        + rewrite Nat.add_0_r, Hold by lia. rewrite list_lookup_insert_eq by lia.
          by rewrite Z.add_0_r.
        + replace (Z.to_nat i + S j)%nat with (Z.to_nat (i + 1) + j)%nat by lia.
          rewrite Hnew by lia. f_equal. f_equal. lia.
      - intros j Hj. rewrite Hold by lia. by rewrite list_lookup_insert_ne by lia. }
  simpl. rewrite length_insert. lia.
Qed.

Lemma read_head_ok l d o w h :
  dat d (lg_start l) = Some h -> o !! lg_start l = None -> (size o < NBUF)%nat ->
  (length (hlist h) <= length (lh_block l))%nat ->
  exists bl, read_head (LState l (quiet d o w)) =
      Ok tt (LState (with_lh l (hb_n h) bl) (quiet d o w)) /\
    length bl = length (lh_block l) /\ listed (with_lh l (hb_n h) bl) 0 (hlist h).
Proof.
  intros Hd Ho Hs Hle. unfold hlist in Hle. rewrite length_fmap, length_seq in Hle.
  assert (lg_start l ∉ dom o) by (by apply not_elem_of_dom).
  unfold read_head. erewrite bind_ok by reflexivity. simpl lg.
  erewrite cache_step by (by apply bread_quiet).
  erewrite bind_ok by reflexivity. erewrite bind_ok by reflexivity. simpl lh_n.
  edestruct (read_loop h (Z.to_nat (hb_n h)) 0 (with_lh l (hb_n h) (lh_block l)))
    as (bl & E & Hlen & Hnew & _); [done|exact Hle|].
  exists bl. erewrite bind_ok by exact E. simpl. split; [|split].
  - erewrite cache_ok by (apply brelse_clean; simpl; set_solver). simpl.
    unfold quiet. do 2 f_equal; [|set_solver..]. f_equal; [|set_solver]. by apply delete_insert_id.
  - exact Hlen.
  - intros j b Hj. simpl. unfold hlist in Hj.
    rewrite list_lookup_fmap, fmap_Some in Hj. destruct Hj as (x & Hx & ->).
    apply lookup_seq in Hx as [-> Hlt]. by apply (Hnew j).
Qed.

(** * Header blocks *)

Lemma i32_small z : 0 <= z < 2 ^ 31 -> i32 (u32 z) = z.
Proof. intros. unfold i32, u32. rewrite (Z.mod_small z) by lia. rewrite Z.mod_small; lia. Qed.

Lemma put32_block h off v :
  is_block h -> 0 <= off -> off + 4 <= BSIZE -> is_block (put32 h off v).
Proof.
  intros [Hl H8] Ho Hb. split; [|by apply put32_u8].
  rewrite length_put32; [done|lia|]. unfold BSIZE in *. lia.
Qed.

Lemma fill_block h i L :
  is_block h -> 0 <= i -> 4 + 4 * (i + Z.of_nat (length L)) <= BSIZE -> is_block (fill h i L).
Proof.
  revert h i. induction L as [|b L IH]; intros h i Hh Hi Hb; simpl in *; [done|].
  apply IH; [|lia|lia]. apply put32_block; [done|lia|lia].
Qed.

Lemma fill_below h i L off :
  is_block h -> 0 <= i -> 4 + 4 * (i + Z.of_nat (length L)) <= BSIZE ->
  0 <= off -> off + 4 <= 4 + 4 * i -> get32 (fill h i L) off = get32 h off.
Proof.
  revert h i. induction L as [|b L IH]; intros h i Hh Hi Hb Ho Hoff; simpl in *; [done|].
  assert (is_block (put32 h (4 + 4 * i) b)) by (apply put32_block; [done|lia|lia]).
  rewrite IH by (done || lia). destruct Hh as [Hl _].
  apply get32_put32_ne; unfold BSIZE in *; lia.
Qed.

Lemma fill_at h i L (j : nat) b :
  is_block h -> 0 <= i -> 4 + 4 * (i + Z.of_nat (length L)) <= BSIZE ->
  L !! j = Some b -> get32 (fill h i L) (4 + 4 * (i + Z.of_nat j)) = u32 b.
Proof.
  revert h i j. induction L as [|x L IH]; intros h i j Hh Hi Hb Hj; [done|].
  simpl in *. assert (is_block (put32 h (4 + 4 * i) x)) as Hp by (apply put32_block; [done|lia|lia]).
  destruct j as [|j]; simpl in Hj.
  - injection Hj as ->. rewrite Z.add_0_r, fill_below by (done || lia).
    destruct Hh as [Hl _]. apply get32_put32_eq; unfold BSIZE in *; lia.
  - replace (i + Z.of_nat (S j)) with (i + 1 + Z.of_nat j) by lia. apply IH; [done|lia|lia|done].
Qed.

Lemma header_block h L :
  is_block h -> Z.of_nat (length L) <= LOGSIZE -> is_block (header h L).
Proof.
  intros Hh HL. apply fill_block; [|lia|unfold LOGSIZE, MAXOPBLOCKS, BSIZE in *; lia].
  apply put32_block; [done|lia|unfold BSIZE; lia].
Qed.

Lemma header_n h L :
  is_block h -> Z.of_nat (length L) <= LOGSIZE -> hb_n (header h L) = Z.of_nat (length L).
Proof.
  intros Hh HL. unfold LOGSIZE, MAXOPBLOCKS in *. unfold hb_n, header.
  rewrite fill_below; [|apply put32_block; unfold BSIZE; (done || lia)|unfold BSIZE; lia..].
  destruct Hh as [Hl _]. rewrite get32_put32_eq by (unfold BSIZE in *; lia).
  apply i32_small. lia.
Qed.

Lemma hlist_header h L :
  is_block h -> Z.of_nat (length L) <= LOGSIZE -> Forall (fun b => 0 <= b < 2 ^ 31) L ->
  hlist (header h L) = L.
Proof.
  intros Hh HL Hr. unfold hlist. rewrite header_n, Nat2Z.id by done.
  apply list_eq. intros j. rewrite list_lookup_fmap.
  destruct (L !! j) as [b|] eqn:E.
  - rewrite lookup_seq_lt by (by eapply lookup_lt_Some). simpl. f_equal.
    unfold hb_block, header. change (4 + 4 * Z.of_nat j) with (4 + 4 * (0 + Z.of_nat j)).
    unfold LOGSIZE, MAXOPBLOCKS in *.
    rewrite (fill_at _ _ _ _ b); [|apply put32_block; unfold BSIZE; (done || lia)|lia|unfold BSIZE; lia|done].
    apply i32_small. by eapply Forall_lookup_1 in E; [|exact Hr].
  - rewrite lookup_seq_ge by (by apply lookup_ge_None). done.
Qed.

(** * What recovery will make of a disk *)

Section view.
Context (st sz : Z).

(** The block numbers in the log header of a disk. *)
Definition hdr_list (d : list block) : list Z :=
  match dat d st with Some h => hlist h | None => [] end.

(** The content of block [m] once recovery has run: its copy in the log if the
    header lists [m], else its home. *)
Definition view (d : list block) (m : Z) : option block :=
  match list_find (fun b => b = m) (hdr_list d) with
  | Some (i, _) => dat d (st + Z.of_nat i + 1)
  | None => dat d m
  end.

(** Outside the log. *)
Definition home (d : list block) (b : Z) : Prop :=
  0 <= b < Z.of_nat (length d) /\ b < 2 ^ 31 /\ (b < st \/ st + sz <= b).

Definition off_log (b : Z) : Prop := b < st \/ st + sz <= b.

(** A disk whose log header can be recovered from. *)
Record disk_ok (d : list block) : Prop := DiskOk {
  do_start : 0 <= st;
  do_size : 1 <= sz <= LOGSIZE;
  do_range : st + sz <= Z.of_nat (length d);
  do_blocks : Forall is_block d;
  do_fits : Z.of_nat (length (hdr_list d)) <= sz - 1;
  do_nodup : NoDup (hdr_list d);
  do_home : Forall (home d) (hdr_list d)
}.

(** Two disks with the same log, as seen by recovery. *)
Lemma view_ext d d' m :
  (forall n, st <= n < st + sz -> dat d' n = dat d n) ->
  0 <= st -> 1 <= sz -> Z.of_nat (length (hdr_list d)) <= sz - 1 ->
  (m ∉ hdr_list d -> dat d' m = dat d m) -> view d' m = view d m.
Proof.
  intros Hlog Hst Hsz Hle Hm.
  assert (hdr_list d' = hdr_list d) as E by (unfold hdr_list; rewrite Hlog by lia; done).
  unfold view. rewrite E. destruct (list_find _ _) as [[i x]|] eqn:Hf.
  - apply list_find_Some in Hf as (Hi & _ & _). apply lookup_lt_Some in Hi. apply Hlog. lia.
  - apply Hm. apply list_find_None in Hf. rewrite Forall_forall in Hf.
    intros Hin. by apply (Hf m).
Qed.

Lemma disk_ok_ext d d' :
  disk_ok d -> length d' = length d -> Forall is_block d' -> dat d' st = dat d st -> disk_ok d'.
Proof.
  intros [? ? ? ? ? ? Hh] Hl Hb Hs.
  assert (hdr_list d' = hdr_list d) as E by (unfold hdr_list; by rewrite Hs).
  split; rewrite ?E, ?Hl; try done. eapply Forall_impl; [exact Hh|].
  unfold home. rewrite Hl. tauto.
Qed.
End view.

Lemma prefix_split {A} (p a b : list A) :
  p `prefix_of` a ++ b -> p `prefix_of` a \/ exists q, p = a ++ q /\ q `prefix_of` b.
Proof.
  revert p. induction a as [|x a IH]; intros p Hp; [right; by exists p|].
  destruct p as [|y p]; [left; apply prefix_nil|].
  simpl in Hp. pose proof (prefix_cons_inv_1 _ _ _ _ Hp) as ->.
  apply prefix_cons_inv_2 in Hp. destruct (IH p Hp) as [H|(q & -> & Hq)].
  - left. by apply prefix_cons.
  - right. by exists q.
Qed.

Lemma Forall_prefix {A} (P : A -> Prop) (p l : list A) :
  p `prefix_of` l -> Forall P l -> Forall P p.
Proof. intros [k ->]. rewrite Forall_app. tauto. Qed.

Section crash.
Context (st sz : Z).

(** The writes of [install_trans]. *)
Lemma zip_writes d V :
  disk_ok st sz d -> length V = length (hdr_list st d) -> Forall is_block V ->
  Forall (fun w => (0 <= w.1 < Z.of_nat (length d) /\ w.1 ∈ hdr_list st d /\ off_log st sz w.1) /\
                   is_block w.2) (zip (hdr_list st d) V).
Proof.
  intros Hd Hlen HV. apply Forall_lookup. intros i [b v] Hi.
  apply lookup_zip_Some in Hi as [Hb Hv]. simpl.
  pose proof (Forall_lookup_1 _ _ _ _ (do_home _ _ _ Hd) Hb) as (? & ? & ?).
  split; [|by eapply Forall_lookup_1]. split_and!; try lia; [|done].
  by eapply list_elem_of_lookup_2.
Qed.

Lemma logged_blocks d V :
  Forall is_block d -> (forall j v, V !! j = Some v -> dat d (st + Z.of_nat j + 1) = Some v) ->
  Forall is_block V.
Proof.
  intros Hd HV. apply Forall_lookup. intros i v Hi. apply HV in Hi. unfold dat in Hi.
  destruct (_ <? _); [done|]. by eapply Forall_lookup_1.
Qed.

(** Writing logged blocks home changes nothing of what recovery sees. *)
Lemma install_prefix d V q :
  disk_ok st sz d -> length V = length (hdr_list st d) ->
  (forall j v, V !! j = Some v -> dat d (st + Z.of_nat j + 1) = Some v) ->
  q `prefix_of` zip (hdr_list st d) V ->
  disk_ok st sz (apply_writes q d) /\ hdr_list st (apply_writes q d) = hdr_list st d /\
  (forall n, n ∉ hdr_list st d -> dat (apply_writes q d) n = dat d n) /\
  (forall m, view st (apply_writes q d) m = view st d m).
Proof.
  intros Hd Hlen HV Hq. pose proof Hd as [Hst Hsz Hrg Hbl Hfit Hnd Hho].
  pose proof (zip_writes d V Hd Hlen (logged_blocks _ _ Hbl HV)) as Hw.
  apply (Forall_prefix _ _ _ Hq) in Hw. apply Forall_and in Hw as [Hw Hwb].
  assert (forall n, n ∉ hdr_list st d -> dat (apply_writes q d) n = dat d n) as Hout.
  { intros n Hn. apply dat_apply_out; [eapply Forall_impl; [exact Hw|]; simpl; lia|].
    intros (w & -> & Hin)%list_elem_of_fmap. rewrite Forall_forall in Hw.
    destruct (Hw w Hin) as (_ & ? & _). done. }
  assert (forall n, st <= n < st + sz -> dat (apply_writes q d) n = dat d n) as Hlog.
  { intros n Hn. apply Hout. intros Hin. rewrite Forall_forall in Hho.
    destruct (Hho n Hin) as (_ & _ & ?). lia. }
  split_and!; [|unfold hdr_list; by rewrite Hlog by lia|done|].
  - eapply disk_ok_ext; [done|by rewrite length_apply|by apply apply_blocks|apply Hlog; lia].
  - intros m. apply (view_ext _ sz); auto; lia.
Qed.

(** Installing every logged block and erasing the header leaves, outside the
    log, the disk that recovery promised. *)
Lemma erase_view d V h :
  disk_ok st sz d -> length V = length (hdr_list st d) ->
  (forall j v, V !! j = Some v -> dat d (st + Z.of_nat j + 1) = Some v) ->
  is_block h -> hlist h = [] ->
  let d' := <[Z.to_nat st := h]> (apply_writes (zip (hdr_list st d) V) d) in
  disk_ok st sz d' /\ hdr_list st d' = [] /\
  (forall m, off_log st sz m -> dat d' m = view st d m).
Proof.
  intros Hd Hlen HV Hh Hnil. pose proof Hd as [Hst Hsz Hrg Hbl Hfit Hnd Hho].
  pose proof (zip_writes d V Hd Hlen (logged_blocks _ _ Hbl HV)) as Hw.
  apply Forall_and in Hw as [Hw Hwb].
  destruct (install_prefix d V (zip (hdr_list st d) V) Hd Hlen HV) as (Hd1 & E1 & Hout & _); [done|].
  set (d1 := apply_writes (zip (hdr_list st d) V) d) in *. intros d'.
  assert (length d1 = length d) as Hl1 by apply length_apply.
  assert (hdr_list st d' = []) as E'.
  { unfold hdr_list, d'. rewrite dat_insert_eq by lia. done. }
  split_and!; [|done|].
  - split; rewrite ?E'; unfold d'; rewrite ?length_insert, ?Hl1; simpl; try done; try lia.
    + apply Forall_insert; [apply Hd1|done].
    + constructor.
  - intros m Hm. unfold d', off_log in *. rewrite dat_insert_ne by lia.
    unfold view. destruct (list_find _ _) as [[i x]|] eqn:Hf.
    + apply list_find_Some in Hf as (Hi & -> & _).
      destruct (lookup_lt_is_Some_2 V i) as [v Hv].
      { rewrite Hlen. by eapply lookup_lt_Some. }
      rewrite (HV i v Hv). apply (dat_apply_in _ _ i).
      * eapply Forall_impl; [exact Hw|]. simpl. tauto.
      * by rewrite fst_zip by lia.
      * apply lookup_zip_Some. done.
    + apply Hout. apply list_find_None in Hf. rewrite Forall_forall in Hf.
      intros Hin. by apply (Hf m).
Qed.
End crash.

Lemma unpin_empty L : unpin L ∅ = ∅.
Proof. apply map_eq. intros n. rewrite unpin_lookup, lookup_empty. by case_decide. Qed.

(** The log blocks of a disk, as many as its header lists. *)
Definition log_copies (st : Z) (d : list block) : list block :=
  (fun i => default [] (dat d (st + Z.of_nat i + 1))) <$> seq 0 (length (hdr_list st d)).

Lemma length_log_copies st d : length (log_copies st d) = length (hdr_list st d).
Proof. unfold log_copies. by rewrite length_fmap, length_seq. Qed.

Lemma log_copies_at st sz d j v :
  disk_ok st sz d -> log_copies st d !! j = Some v -> dat d (st + Z.of_nat j + 1) = Some v.
Proof.
  intros [Hst Hsz Hrg _ Hfit _ _] Hj. unfold log_copies in Hj.
  rewrite list_lookup_fmap, fmap_Some in Hj. destruct Hj as (x & Hx & ->).
  apply lookup_seq in Hx as [-> Hlt]. simpl in *.
  assert (is_Some (dat d (st + Z.of_nat j + 1))) as [v ->] by (apply dat_Some; lia). done.
Qed.

(** The writes of a recovery from disk [d]. *)
Definition recovery_writes (st : Z) (d : list block) : list (Z * block) :=
  zip (hdr_list st d) (log_copies st d) ++
  [(st, header (default [] (dat d st)) [])].

Lemma disk_header st sz d :
  disk_ok st sz d -> exists h, dat d st = Some h /\ is_block h /\ hdr_list st d = hlist h.
Proof.
  intros [Hst Hsz Hrg Hbl _ _ _].
  assert (is_Some (dat d st)) as [h Hh] by (apply dat_Some; lia). exists h.
  split_and!; [done| |unfold hdr_list; by rewrite Hh].
  unfold dat in Hh. destruct (_ <? _); [done|]. by eapply Forall_lookup_1.
Qed.

Lemma recover_ok l sz d w :
  disk_ok (lg_start l) sz d -> length (lh_block l) = Z.to_nat LOGSIZE ->
  exists bl, recover_from_log (LState l (quiet d ∅ w)) =
      Ok tt (LState (with_lh l 0 bl)
               (quiet (apply_writes (recovery_writes (lg_start l) d) d) ∅
                  (w ++ recovery_writes (lg_start l) d))) /\
    length bl = Z.to_nat LOGSIZE.
Proof.
  intros Hd Hlb. pose proof Hd as [Hst Hsz Hrg Hbl Hfit Hnd Hho].
  destruct (disk_header _ _ _ Hd) as (h & Hh & Hhb & Hhl). set (st := lg_start l) in *.
  destruct (read_head_ok l d ∅ w h) as (bl & E & Hlen & Hli); [done|done| | |].
  { rewrite map_size_empty. unfold NBUF. lia. }
  { rewrite <- Hhl, Hlb. lia. }
  exists bl. split; [|congruence]. unfold recover_from_log. rewrite (bind_ok _ _ _ _ _ E).
  set (l1 := with_lh l (hb_n h) bl) in *. set (V := log_copies st d).
  assert (length V = length (hdr_list st d)) as HlV by apply length_log_copies.
  assert (install_trans (LState l1 (quiet d ∅ w)) =
    Ok tt (LState l1 (quiet (apply_writes (zip (hdr_list st d) V) d) ∅
      (w ++ zip (hdr_list st d) V)))) as Hin.
  { unfold install_trans. erewrite bind_ok by reflexivity. simpl lh_n.
    replace (Z.to_nat (hb_n h)) with (length (hdr_list st d)).
    2:{ rewrite Hhl. unfold hlist. by rewrite length_fmap, length_seq. }
    rewrite (install_loop l1 (hdr_list st d) V); [by rewrite unpin_empty|done|done| | | |set_solver| | |].
    - by rewrite Hhl.
    - intros j v Hj. rewrite <- (log_copies_at st sz d j v) by done. f_equal. subst st. simpl. lia.
    - intros b Hb. rewrite Forall_forall in Hho. destruct (Hho b Hb) as (_ & _ & ?).
      change (lg_start l1) with st. lia.
    - intros b Hb. rewrite Forall_forall in Hho. destruct (Hho b Hb) as (? & _). by apply dat_Some.
    - rewrite map_size_empty. unfold NBUF. lia.
    - right. rewrite map_size_empty. unfold NBUF. lia. }
  rewrite (bind_ok _ _ _ _ _ Hin). erewrite bind_ok by reflexivity.
  unfold set_lh_n. simpl.
  destruct (install_prefix st sz d V (zip (hdr_list st d) V)) as (_ & _ & Hout & _); [done|done| |done|].
  { intros j v. by eapply log_copies_at. }
  erewrite (write_head_ok _ [] _ ∅ _ h); [|done|done| |done|rewrite map_size_empty; unfold NBUF; lia].
  - unfold recovery_writes. fold V. rewrite Hh, apply_app, app_assoc. simpl. done.
  - simpl. fold st. rewrite Hout; [done|]. intros Hb. rewrite Forall_forall in Hho.
    destruct (Hho _ Hb) as (_ & _ & ?). lia.
Qed.

(** A recovery that is cut short leaves a disk that recovers to the same
    content, and a complete one leaves that content and an empty log. *)
Lemma recovery_view st sz d :
  disk_ok st sz d ->
  (forall p, p `prefix_of` recovery_writes st d ->
     disk_ok st sz (apply_writes p d) /\
     forall m, off_log st sz m -> view st (apply_writes p d) m = view st d m) /\
  let d' := apply_writes (recovery_writes st d) d in
  disk_ok st sz d' /\ hdr_list st d' = [] /\
  (forall m, off_log st sz m -> dat d' m = view st d m).
Proof.
  intros Hd. destruct (disk_header _ _ _ Hd) as (h & Hh & Hhb & _).
  assert (is_block (header h [])) as Hb0 by (apply header_block; [done|vm_compute; discriminate]).
  assert (hlist (header h []) = []) as Hl0.
  { apply hlist_header; [done|vm_compute; discriminate|constructor]. }
  assert (forall j v, log_copies st d !! j = Some v -> dat d (st + Z.of_nat j + 1) = Some v) as HV.
  { intros j v. by eapply log_copies_at. }
  pose proof (erase_view st sz d (log_copies st d) (header h []) Hd
    (length_log_copies st d) HV Hb0 Hl0) as (Hd' & E' & Hv').
  assert (apply_writes (recovery_writes st d) d =
    <[Z.to_nat st := header h []]> (apply_writes (zip (hdr_list st d) (log_copies st d)) d)) as Eq.
  { unfold recovery_writes. by rewrite Hh, apply_app. }
  split; [|by rewrite Eq].
  intros p [Hp|(q & -> & Hq)]%prefix_split.
  - destruct (install_prefix st sz d (log_copies st d) p) as (? & _ & _ & ?); auto using length_log_copies.
  - destruct q as [|x q].
    + rewrite app_nil_r. edestruct (install_prefix st sz d (log_copies st d)) as (? & _ & _ & ?);
        auto using length_log_copies.
    + pose proof (prefix_cons_inv_1 _ _ _ _ Hq) as ->. apply prefix_cons_inv_2, prefix_nil_inv in Hq as ->.
      fold (recovery_writes st d). rewrite Eq. split; [done|].
      intros m Hm. unfold view at 1. rewrite E'. simpl. auto.
Qed.

(** * Commit *)

(** Between operations: the disk's log is empty, and the blocks [L] of the
    in-memory header are exactly the pinned ones, [o] holding their content. *)
Record txn (l : log) (L : list Z) (d : list block) (o : gmap Z block) : Prop := Txn {
  tx_disk : disk_ok (lg_start l) (lg_size l) d;
  tx_clean : hdr_list (lg_start l) d = [];
  tx_array : length (lh_block l) = Z.to_nat LOGSIZE;
  tx_n : lh_n l = Z.of_nat (length L);
  tx_listed : listed l 0 L;
  tx_fits : Z.of_nat (length L) <= lg_size l - 1;
  tx_nodup : NoDup L;
  tx_home : Forall (home (lg_start l) (lg_size l) d) L;
  tx_over : forall n, is_Some (o !! n) <-> n ∈ L;
  tx_blocks : forall n v, o !! n = Some v -> is_block v
}.

(** The content of the blocks of a transaction. *)
Definition contents (o : gmap Z block) (L : list Z) : list block :=
  (fun b => default [] (o !! b)) <$> L.

(** The writes of [commit]: the log, the header, the homes, the empty header. *)
Definition commit_writes (st : Z) (d : list block) (o : gmap Z block) (L : list Z)
    : list (Z * block) :=
  let h := default [] (dat d st) in
  stamp st 0 (contents o L) ++ [(st, header h L)] ++
  zip L (contents o L) ++ [(st, header (header h L) [])].

Lemma stamp_lookup st i V j w :
  stamp st i V !! j = Some w -> exists v, V !! j = Some v /\ w = (st + i + Z.of_nat j + 1, v).
Proof.
  revert i j. induction V as [|v V IH]; intros i [|j] Hj; simpl in *; try done.
  - injection Hj as <-. exists v. split; [done|]. by rewrite Z.add_0_r.
  - destruct (IH _ _ Hj) as (v' & ? & ->). exists v'. split; [done|]. f_equal. lia.
Qed.

Lemma length_stamp st i V : length (stamp st i V) = length V.
Proof. revert i. induction V; intros; simpl; auto. Qed.

Lemma stamp_lookup_2 st i V j v :
  V !! j = Some v -> stamp st i V !! j = Some (st + i + Z.of_nat j + 1, v).
Proof.
  intros Hj. destruct (lookup_lt_is_Some_2 (stamp st i V) j) as [w Hw].
  { rewrite length_stamp. by eapply lookup_lt_Some. }
  destruct (stamp_lookup _ _ _ _ _ Hw) as (v' & Hv & ->). rewrite Hw. congruence.
Qed.

Lemma stamp_nodup st i V : NoDup (stamp st i V).*1.
Proof.
  apply NoDup_alt. intros a b x Ha Hb. rewrite list_lookup_fmap, fmap_Some in Ha, Hb.
  destruct Ha as (wa & Ha & ->), Hb as (wb & Hb & E).
  destruct (stamp_lookup _ _ _ _ _ Ha) as (? & _ & ->), (stamp_lookup _ _ _ _ _ Hb) as (? & _ & ->).
  simpl in E. lia.
Qed.

Section commit.
Context (l : log) (L : list Z) (d : list block) (o : gmap Z block) (Htx : txn l L d o).
Let st := lg_start l.
Let sz := lg_size l.
Let V := contents o L.

Lemma contents_at j b : L !! j = Some b -> exists v, o !! b = Some v /\ V !! j = Some v /\ is_block v.
Proof.
  intros Hj. assert (is_Some (o !! b)) as [v Hv].
  { apply (tx_over _ _ _ _ Htx). by eapply list_elem_of_lookup_2. }
  exists v. split_and!; [done| |by eapply tx_blocks].
  unfold V, contents. rewrite list_lookup_fmap, Hj. simpl. by rewrite Hv.
Qed.

Lemma contents_len : length V = length L.
Proof. unfold V, contents. by rewrite length_fmap. Qed.

Lemma contents_blocks : Forall is_block V.
Proof.
  apply Forall_lookup. intros j v Hj. destruct (lookup_lt_is_Some_2 L j) as [b Hb].
  { rewrite <- contents_len. by eapply lookup_lt_Some. }
  destruct (contents_at j b Hb) as (v' & _ & Hv & ?). by simplify_eq.
Qed.

Lemma txn_size : (size o < NBUF)%nat.
Proof.
  pose proof Htx as [Hd _ _ _ _ Hf Hnd _ Ho _].
  assert (dom o = list_to_set L) as E.
  { apply set_eq. intros n. rewrite elem_of_dom, elem_of_list_to_set. apply Ho. }
  rewrite <- size_dom, E, size_list_to_set by done.
  destruct (do_size _ _ _ Hd). unfold NBUF, LOGSIZE, MAXOPBLOCKS in *. lia.
Qed.

Lemma stamp_range :
  Forall (fun w => st < w.1 < st + sz /\ is_block w.2) (stamp st 0 V).
Proof.
  apply Forall_lookup. intros j w Hw. pose proof (stamp_lookup _ _ _ _ _ Hw) as (v & Hv & ->).
  pose proof (Forall_lookup_1 _ _ _ _ contents_blocks Hv). split; [|done]. simpl.
  apply lookup_lt_Some in Hv. rewrite contents_len in Hv.
  pose proof (tx_fits _ _ _ _ Htx). unfold sz. lia.
Qed.

(** While the log blocks are being written, recovery still sees the old disk. *)
Lemma stamp_prefix p :
  p `prefix_of` stamp st 0 V ->
  disk_ok st sz (apply_writes p d) /\ hdr_list st (apply_writes p d) = [] /\
  (forall m, off_log st sz m \/ m = st -> dat (apply_writes p d) m = dat d m).
Proof.
  intros Hp. pose proof (tx_disk _ _ _ _ Htx) as Hd. pose proof (do_start _ _ _ Hd) as Hst.
  fold st sz in Hd, Hst.
  pose proof (Forall_prefix _ _ _ Hp stamp_range) as Hw. apply Forall_and in Hw as [Hw Hwb].
  assert (forall m, off_log st sz m \/ m = st -> dat (apply_writes p d) m = dat d m) as Hout.
  { intros m Hm. apply dat_apply_out; [eapply Forall_impl; [exact Hw|]; simpl; lia|].
    intros (w & -> & Hin)%list_elem_of_fmap. rewrite Forall_forall in Hw.
    specialize (Hw w Hin). unfold off_log in Hm. lia. }
  split_and!; [| |done].
  - eapply disk_ok_ext; [done|by rewrite length_apply|apply apply_blocks; [apply Hd|done]|auto].
  - unfold hdr_list. rewrite Hout by auto. apply (tx_clean _ _ _ _ Htx).
Qed.

(** Once the header is written, recovery sees the new blocks. *)
Lemma header_view h d2 :
  dat d st = Some h ->
  d2 = <[Z.to_nat st := header h L]> (apply_writes (stamp st 0 V) d) ->
  disk_ok st sz d2 /\ hdr_list st d2 = L /\
  (forall j v, V !! j = Some v -> dat d2 (st + Z.of_nat j + 1) = Some v) /\
  (forall m, off_log st sz m ->
     view st d2 m = match o !! m with Some v => Some v | None => dat d m end).
Proof.
  intros Hh ->. pose proof (tx_disk _ _ _ _ Htx) as Hd. fold st sz in Hd.
  destruct (stamp_prefix (stamp st 0 V)) as (Hd1 & _ & Hout); [done|].
  pose proof Hd1 as [Hst Hsz Hrg Hbl _ _ _].
  pose proof (tx_fits _ _ _ _ Htx) as Hf. fold sz in Hf.
  assert (is_block h) as Hhb.
  { unfold dat in Hh. destruct (_ <? _); [done|].
    eapply Forall_lookup_1; [apply (do_blocks _ _ _ Hd)|done]. }
  assert (hlist (header h L) = L) as HL.
  { apply hlist_header; [done|lia|]. eapply Forall_impl; [apply (tx_home _ _ _ _ Htx)|].
    unfold home. simpl. lia. }
  set (d1 := apply_writes (stamp st 0 V) d) in *.
  assert (length d1 = length d) as Hl1 by apply length_apply.
  set (d2 := <[Z.to_nat st := header h L]> d1).
  assert (hdr_list st d2 = L) as E.
  { unfold hdr_list, d2. by rewrite dat_insert_eq by lia. }
  assert (forall j v, V !! j = Some v -> dat d2 (st + Z.of_nat j + 1) = Some v) as HV.
  { intros j v Hj. unfold d2. rewrite dat_insert_ne by lia.
    apply (dat_apply_in _ _ j); [|apply stamp_nodup|].
    - eapply Forall_impl; [exact stamp_range|]. intros w [? _]. rewrite <- Hl1. lia.
    - rewrite (stamp_lookup_2 _ _ _ _ v) by done. do 2 f_equal. lia. }
  split_and!; [|done|exact HV|].
  - split; rewrite ?E; unfold d2; rewrite ?length_insert; try done; try lia.
    + apply Forall_insert; [done|]. apply header_block; [done|lia].
    + apply (tx_nodup _ _ _ _ Htx).
    + eapply Forall_impl; [apply (tx_home _ _ _ _ Htx)|]. unfold home. rewrite length_insert, Hl1. done.
  - intros m Hm. unfold view. rewrite E. destruct (list_find _ _) as [[i x]|] eqn:Hf'.
    + apply list_find_Some in Hf' as (Hi & -> & _).
      destruct (contents_at _ _ Hi) as (v & -> & Hv & _). by apply HV.
    + apply list_find_None in Hf'. rewrite Forall_forall in Hf'.
      destruct (o !! m) eqn:Em.
      { destruct (Hf' m); [|done]. apply (tx_over _ _ _ _ Htx). eauto. }
      unfold d2, off_log in *. rewrite dat_insert_ne by lia. apply Hout. by left.
Qed.

(** What [commit] does, as block writes. *)
Lemma commit_ok w :
  L <> [] ->
  commit (LState l (quiet d o w)) =
  Ok tt (LState (with_lh l 0 (lh_block l))
           (quiet (apply_writes (commit_writes st d o L) d) ∅ (w ++ commit_writes st d o L))).
Proof.
  intros HL. pose proof (tx_disk _ _ _ _ Htx) as Hd. fold st sz in Hd.
  destruct (disk_header _ _ _ Hd) as (h & Hh & Hhb & _).
  pose proof (header_view h _ Hh eq_refl) as (Hd2 & E2 & HV2 & _).
  destruct (stamp_prefix (stamp st 0 V)) as (Hd1 & _ & Hout); [done|].
  pose proof Htx as [_ _ Hlb Hn Hli Hf Hnd Hho Hov _]. pose proof Hd as [Hst Hsz Hrg _ _ _ _].
  pose proof txn_size as Hs. pose proof contents_len as HlV.
  assert (forall x, x ∈ L -> off_log st sz x) as Hoff.
  { intros x Hx. rewrite Forall_forall in Hho. by destruct (Hho x Hx) as (_ & _ & ?). }
  assert (forall x, x ∈ elements (dom o) -> off_log st sz x) as Hofd.
  { intros x Hx. apply Hoff, Hov, elem_of_dom. by rewrite elem_of_elements in Hx. }
  assert (o !! st = None) as Hos.
  { destruct (o !! st) eqn:E; [|done]. destruct (Hoff st); [apply Hov; eauto|lia..]. }
  unfold commit. erewrite bind_ok by reflexivity. cbn [lg]. rewrite Hn.
  destruct (Z.ltb_spec 0 (Z.of_nat (length L))); [|destruct L; [done|simpl in *; lia]].
  erewrite bind_ok.
  2:{ unfold write_log. erewrite bind_ok by reflexivity. cbn [lg]. rewrite Hn, Nat2Z.id.
      apply (write_log_loop l L V); try done; fold st; unfold sz in *; try lia.
      - intros j b Hj. by destruct (contents_at j b Hj) as (v & -> & -> & _).
      - intros x Hx. fold st. destruct (Hofd x Hx); unfold sz in *; lia. }
  fold st. erewrite bind_ok.
  2:{ apply (write_head_ok l L _ o _ h); try done. fold st. rewrite Hout by auto. done. }
  fold st. set (d2 := <[Z.to_nat st := header h L]> (apply_writes (stamp st 0 V) d)) in *.
  erewrite bind_ok.
  2:{ unfold install_trans. erewrite bind_ok by reflexivity. cbn [lg]. rewrite Hn, Nat2Z.id.
      apply (install_loop l L V); try done; fold st.
      - intros j v Hj. rewrite <- (HV2 j v Hj). f_equal. fold st. lia.
      - intros x Hx. fold st. destruct (Hoff x Hx); unfold sz in *; lia.
      - intros x Hx. fold st. destruct (Hofd x Hx); unfold sz in *; lia.
      - intros x Hx. apply dat_Some. unfold d2. rewrite length_insert, length_apply.
        rewrite Forall_forall in Hho. by destruct (Hho x Hx) as (? & _).
      - left. split; [done|]. intros b Hb. by apply Hov. }
  assert (unpin L o = ∅) as ->.
  { apply map_eq. intros n. rewrite unpin_lookup, lookup_empty. case_decide as Hin; [done|].
    destruct (o !! n) eqn:E; [|done]. destruct Hin. apply Hov. eauto. }
  erewrite bind_ok by reflexivity. unfold set_lh_n. simpl.
  erewrite (write_head_ok _ [] _ ∅ _ (header h L)); [|done|done| |done|rewrite map_size_empty; unfold NBUF; lia].
  - unfold commit_writes. rewrite Hh. simpl default. fold V. rewrite !apply_app. simpl.
    fold st. fold d2. rewrite <- !app_assoc. done.
  - simpl. fold st. assert (dat d2 st = Some (header h L)) as Hd2s.
    { unfold d2. rewrite dat_insert_eq; [done|]. rewrite length_apply. lia. }
    rewrite <- Hd2s. rewrite <- E2.
    destruct (install_prefix st sz d2 V (zip (hdr_list st d2) V)) as (_ & _ & Hout2 & _);
      [done|by rewrite E2|done|done|].
    apply Hout2. rewrite E2. intros Hb. destruct (Hoff _ Hb); lia.
Qed.

(** Every prefix of the writes of a commit leaves a disk from which recovery
    gets the blocks before the transaction, or those after it. *)
Lemma commit_view p :
  p `prefix_of` commit_writes st d o L ->
  disk_ok st sz (apply_writes p d) /\
  ((forall m, off_log st sz m -> view st (apply_writes p d) m = dat d m) \/
   (forall m, off_log st sz m -> view st (apply_writes p d) m =
      match o !! m with Some v => Some v | None => dat d m end)).
Proof.
  pose proof (tx_disk _ _ _ _ Htx) as Hd. fold st sz in Hd.
  destruct (disk_header _ _ _ Hd) as (h & Hh & Hhb & _).
  pose proof (header_view h _ Hh eq_refl) as (Hd2 & E2 & HV2 & Hnew).
  pose proof (tx_fits _ _ _ _ Htx) as Hf. pose proof (do_size _ _ _ Hd). fold sz in Hf.
  assert (is_block (header h L)) as HbL by (apply header_block; [done|lia]).
  unfold commit_writes. rewrite Hh. simpl default. fold V.
  intros [Hp|(q & -> & Hq)]%prefix_split.
  { destruct (stamp_prefix p Hp) as (Hd1 & E1 & Hout). split; [done|]. left.
    intros m Hm. unfold view. rewrite E1. simpl. auto. }
  rewrite apply_app.
  destruct q as [|x q].
  { destruct (stamp_prefix (stamp st 0 V)) as (Hd1 & E1 & Hout); [done|]. split; [done|]. left.
    intros m Hm. unfold view. simpl. rewrite E1. simpl. auto. }
  pose proof (prefix_cons_inv_1 _ _ _ _ Hq) as ->. apply prefix_cons_inv_2 in Hq. simpl.
  set (d2 := <[Z.to_nat st := header h L]> (apply_writes (stamp st 0 V) d)) in *.
  rewrite <- E2 in Hq.
  apply prefix_split in Hq as [Hq|(r & -> & Hr)].
  { destruct (install_prefix st sz d2 V q) as (? & _ & _ & Hv); [done|by rewrite E2, contents_len|done|done|].
    split; [done|]. right. intros m Hm. rewrite Hv. auto. }
  rewrite apply_app. destruct r as [|x r].
  { destruct (install_prefix st sz d2 V (zip (hdr_list st d2) V)) as (? & _ & _ & Hv);
      [done|by rewrite E2, contents_len|done|done|].
    split; [done|]. right. intros m Hm. simpl. rewrite Hv. auto. }
  pose proof (prefix_cons_inv_1 _ _ _ _ Hr) as ->.
  apply prefix_cons_inv_2, prefix_nil_inv in Hr as ->. simpl.
  destruct (erase_view st sz d2 V (header (header h L) [])) as (Hd3 & E3 & Hv3);
    [done|by rewrite E2, contents_len|done| | |].
  { apply header_block; [done|vm_compute; discriminate]. }
  { apply hlist_header; [done|vm_compute; discriminate|constructor]. }
  rewrite E2 in *.
  split; [done|]. right. intros m Hm. unfold view. rewrite E3. simpl. rewrite Hv3 by done. auto.
Qed.

(** The disk after the whole commit. *)
Lemma commit_final :
  let d' := apply_writes (commit_writes st d o L) d in
  disk_ok st sz d' /\ hdr_list st d' = [] /\
  (forall m, off_log st sz m -> dat d' m = match o !! m with Some v => Some v | None => dat d m end).
Proof.
  pose proof (tx_disk _ _ _ _ Htx) as Hd. fold st sz in Hd.
  destruct (disk_header _ _ _ Hd) as (h & Hh & Hhb & _).
  pose proof (header_view h _ Hh eq_refl) as (Hd2 & E2 & HV2 & Hnew).
  pose proof (tx_fits _ _ _ _ Htx) as Hf. pose proof (do_size _ _ _ Hd). fold sz in Hf.
  assert (is_block (header h L)) as HbL by (apply header_block; [done|lia]).
  unfold commit_writes. rewrite Hh. simpl default. fold V. rewrite !apply_app. simpl.
  set (d2 := <[Z.to_nat st := header h L]> (apply_writes (stamp st 0 V) d)) in *.
  destruct (erase_view st sz d2 V (header (header h L) [])) as (Hd3 & E3 & Hv3);
    [done|by rewrite E2, contents_len|done| | |].
  { apply header_block; [done|vm_compute; discriminate]. }
  { apply hlist_header; [done|vm_compute; discriminate|constructor]. }
  rewrite E2 in *. split_and!; [done|done|]. intros m Hm. rewrite Hv3 by done. auto.
Qed.
End commit.

(** * Crashes *)

(** [reboot l d d']: started on disk [d] with log geometry [l], any number of
    recoveries that are cut short after some of their block writes, and then
    one that completes, leave disk [d']. *)
Inductive reboot (l : log) : list block -> list block -> Prop :=
| reboot_done d s :
    recover_from_log (LState l (quiet d ∅ [])) = Ok tt s -> reboot l d (dsk (bs s))
| reboot_crash d s p d' :
    recover_from_log (LState l (quiet d ∅ [])) = Ok tt s -> p `prefix_of` wr (bs s) ->
    reboot l (apply_writes p d) d' -> reboot l d d'.

Lemma reboot_exists l sz d :
  disk_ok (lg_start l) sz d -> length (lh_block l) = Z.to_nat LOGSIZE -> exists d', reboot l d d'.
Proof.
  intros Hd Hlb. destruct (recover_ok l sz d [] Hd Hlb) as (bl & E & _).
  eexists. by eapply reboot_done.
Qed.

Lemma reboot_view l sz d d' :
  reboot l d d' -> disk_ok (lg_start l) sz d -> length (lh_block l) = Z.to_nat LOGSIZE ->
  disk_ok (lg_start l) sz d' /\ hdr_list (lg_start l) d' = [] /\
  forall m, off_log (lg_start l) sz m -> dat d' m = view (lg_start l) d m.
Proof.
  induction 1 as [d s E|d s p d' E Hp Hr IH]; intros Hd Hlb;
    destruct (recover_ok l sz d [] Hd Hlb) as (bl & E' & _); rewrite E' in E; injection E as <-;
    destruct (recovery_view _ _ _ Hd) as [Hpre Hfin]; simpl in *.
  - done.
  - destruct (Hpre p Hp) as [Hd1 Hv]. destruct (IH Hd1 Hlb) as (? & ? & Hv').
    split_and!; [done..|]. intros m Hm. rewrite Hv' by done. auto.
Qed.

(** The content of block [m] with the transaction [o] applied to disk [d]. *)
Definition after (d : list block) (o : gmap Z block) (m : Z) : option block :=
  match o !! m with Some v => Some v | None => dat d m end.

Lemma txn_empty l d :
  disk_ok (lg_start l) (lg_size l) d -> hdr_list (lg_start l) d = [] ->
  length (lh_block l) = Z.to_nat LOGSIZE -> lh_n l = 0 -> txn l [] d ∅.
Proof.
  intros Hd Hc Ha Hn. pose proof (do_size _ _ _ Hd). split; try done; simpl; try lia.
  - constructor.
  - intros n. rewrite lookup_empty, is_Some_alt. split; [done|set_solver].
Qed.

(** C2. Commit is atomic across crashes.  From any transaction the log can hold,
    [commit] returns with an empty log, no pinned block and every block of the
    transaction in its place on disk; and a crash after any number of its block
    writes, followed by any number of interrupted recoveries and a complete
    one, leaves on every block outside the log either the content from before
    the transaction or the content after it, the same choice for all blocks.
    Recovery does complete. *)
Theorem commit_atomic l L d o w :
  txn l L d o ->
  exists l' ws,
    commit (LState l (quiet d o w)) =
      Ok tt (LState l' (quiet (apply_writes ws d) ∅ (w ++ ws))) /\
    txn l' [] (apply_writes ws d) ∅ /\
    (forall m, off_log (lg_start l) (lg_size l) m -> dat (apply_writes ws d) m = after d o m) /\
    forall p, p `prefix_of` ws ->
      (exists d', reboot l (apply_writes p d) d') /\
      forall d', reboot l (apply_writes p d) d' ->
        (forall m, off_log (lg_start l) (lg_size l) m -> dat d' m = dat d m) \/
        (forall m, off_log (lg_start l) (lg_size l) m -> dat d' m = after d o m).
Proof.
  intros Htx. pose proof (tx_array _ _ _ _ Htx) as Hlb.
  destruct (decide (L = [])) as [->|HL].
  { exists l, []. assert (o = ∅) as ->.
    { apply map_eq. intros n. rewrite lookup_empty. destruct (o !! n) eqn:E; [|done].
      pose proof (proj1 (tx_over _ _ _ _ Htx n) (ex_intro _ _ E)). set_solver. }
    split_and!.
    - unfold commit. erewrite bind_ok by reflexivity. cbn [lg]. rewrite (tx_n _ _ _ _ Htx). simpl.
      unfold ret. by rewrite app_nil_r.
    - done.
    - done.
    - intros p ->%prefix_nil_inv. simpl. pose proof (tx_disk _ _ _ _ Htx) as Hd.
      split; [by eapply reboot_exists|]. intros d' Hr. left. intros m Hm.
      destruct (reboot_view _ _ _ _ Hr Hd Hlb) as (_ & _ & Hv). rewrite Hv by done.
      unfold view. rewrite (tx_clean _ _ _ _ Htx). done. }
  exists (with_lh l 0 (lh_block l)), (commit_writes (lg_start l) d o L).
  destruct (commit_final _ _ _ _ Htx) as (Hd' & Hc' & Hv').
  split_and!.
  - by apply commit_ok.
  - by apply txn_empty.
  - exact Hv'.
  - intros p Hp. destruct (commit_view _ _ _ _ Htx p Hp) as [Hd1 Hv1].
    split; [by eapply reboot_exists|]. intros d' Hr.
    destruct (reboot_view _ _ _ _ Hr Hd1 Hlb) as (_ & _ & Hv).
    destruct Hv1 as [Hv1|Hv1]; [left|right]; intros m Hm; rewrite Hv by done; by apply Hv1.
Qed.

(** C3. Recovery of a disk whose log header lists committed blocks returns, with
    an empty log and every block outside the log holding what the header
    promised (its logged copy, or else its own content); and interrupted after
    any number of its block writes it can be run again, with the same result. *)
Theorem recover_idempotent l sz d w :
  disk_ok (lg_start l) sz d -> length (lh_block l) = Z.to_nat LOGSIZE ->
  exists l' ws,
    recover_from_log (LState l (quiet d ∅ w)) =
      Ok tt (LState l' (quiet (apply_writes ws d) ∅ (w ++ ws))) /\
    lh_n l' = 0 /\ hdr_list (lg_start l) (apply_writes ws d) = [] /\
    (forall m, off_log (lg_start l) sz m -> dat (apply_writes ws d) m = view (lg_start l) d m) /\
    forall p d', p `prefix_of` ws -> reboot l (apply_writes p d) d' ->
      forall m, off_log (lg_start l) sz m -> dat d' m = view (lg_start l) d m.
Proof.
  intros Hd Hlb. destruct (recover_ok l sz d w Hd Hlb) as (bl & E & _).
  destruct (recovery_view _ _ _ Hd) as [Hpre (Hd' & Hc & Hv)].
  eexists _, _. split; [exact E|]. split_and!; [done|done|done|].
  intros p d' Hp Hr m Hm. destruct (Hpre p Hp) as [Hd1 Hv1].
  destruct (reboot_view _ _ _ _ Hr Hd1 Hlb) as (_ & _ & Hv'). rewrite Hv' by done. auto.
Qed.

(** A ten-block disk with a five-block log at block 2, and a transaction that
    changes block 8. *)
Definition zero_block : block := replicate (Z.to_nat BSIZE) 0.
Definition seven_block : block := replicate (Z.to_nat BSIZE) 7.
Definition demo_log : log :=
  Log false 2 5 0 true ROOTDEV 1 (8 :: replicate 29 0).

Lemma replicate_block x : is_u8 x -> is_block (replicate (Z.to_nat BSIZE) x).
Proof. intros Hx. split; [apply length_replicate|by apply Forall_replicate]. Qed.

Lemma demo_disk_ok d :
  length d = 10%nat -> Forall is_block d -> (hdr_list 2 d = [] \/ hdr_list 2 d = [8]) ->
  disk_ok 2 5 d.
Proof.
  intros Hl Hb Hh. split; rewrite ?Hl; try done; destruct Hh as [-> | ->]; simpl; try lia.
  - constructor.
  - apply NoDup_singleton.
  - constructor.
  - constructor; [|constructor]. unfold home. rewrite Hl. lia.
Qed.

Lemma demo_txn : txn demo_log [8] (replicate 10 zero_block) {[8 := seven_block]}.
Proof.
  split; try done.
  - apply demo_disk_ok; [apply length_replicate| |left; vm_compute; reflexivity].
    apply Forall_replicate, replicate_block. unfold is_u8. lia.
  - intros [|j] b Hj; simpl in *; [by injection Hj as <-|done].
  - apply NoDup_singleton.
  - constructor; [|constructor]. unfold home. rewrite length_replicate. simpl. lia.
  - intros n. rewrite lookup_singleton_is_Some. set_solver.
  - intros n v [<- <-]%lookup_singleton_Some. apply replicate_block. unfold is_u8. lia.
Qed.

Lemma commit_atomic_witness :
  exists l' ws,
    commit (LState demo_log (quiet (replicate 10 zero_block) {[8 := seven_block]} [])) =
      Ok tt (LState l' (quiet (apply_writes ws (replicate 10 zero_block)) ∅ ([] ++ ws))) /\
    dat (apply_writes ws (replicate 10 zero_block)) 8 = Some seven_block.
Proof.
  destruct (commit_atomic demo_log [8] (replicate 10 zero_block) {[8 := seven_block]} [])
    as (l' & ws & E & _ & Hv & _).
  - apply demo_txn.
  - exists l', ws. split; [exact E|]. apply Hv. right. vm_compute. discriminate.
Defined.

(** The same disk after a crash between the commit point and the installation. *)
Definition demo_crashed : list block :=
  [zero_block; zero_block; header zero_block [8]; seven_block; zero_block; zero_block;
   zero_block; zero_block; zero_block; zero_block].

Lemma recover_idempotent_witness :
  exists l' ws,
    recover_from_log (LState demo_log (quiet demo_crashed ∅ [])) =
      Ok tt (LState l' (quiet (apply_writes ws demo_crashed) ∅ ([] ++ ws))) /\
    dat (apply_writes ws demo_crashed) 8 = Some seven_block.
Proof.
  destruct (recover_idempotent demo_log 5 demo_crashed []) as (l' & ws & E & _ & _ & Hv & _).
  - apply demo_disk_ok; [reflexivity| |right; vm_compute; reflexivity].
    repeat constructor; try reflexivity; vm_compute; discriminate.
  - reflexivity.
  - exists l', ws. split; [exact E|]. rewrite Hv by (right; vm_compute; discriminate).
    vm_compute. reflexivity.
Defined.
