(* ===== verification/LogOps.v ===== *)
(** Concurrent file-system operations on the log: the space that [begin_op]
    reserves, the panics of [log_write], and when a commit runs. *)
From stdpp Require Import base numbers list gmap sets strings.
From Stdlib Require Import ZArith Lia.
From S2P Require Import Prelude Bytes Disk BlockLayer Super Log.

(** The log, and for every operation between its [begin_op] and its [end_op]
    the set of blocks it has passed to [log_write]. *)
Record lsys := LSys { sy : lstate; ops : gmap Z (gset Z) }.

(** One process runs up to its next release of [log.lock], or runs a commit.
    An operation passes at most [MAXOPBLOCKS] different blocks to
    [log_write]. *)
Inductive lstep : lsys -> lsys -> Prop :=
| step_begin s u p s' :
    u !! p = None -> begin_op s = Ok tt s' -> lstep (LSys s u) (LSys s' (<[p := ∅]> u))
| step_write s u p bl b s' :
    u !! p = Some bl -> Z.of_nat (size ({[b]} ∪ bl)) <= MAXOPBLOCKS ->
    log_write b s = Ok tt s' -> lstep (LSys s u) (LSys s' (<[p := {[b]} ∪ bl]> u))
| step_end s u p bl do_commit s' :
    u !! p = Some bl -> end_op_enter s = Ok do_commit s' ->
    lstep (LSys s u) (LSys s' (delete p u))
| step_commit s u s1 s2 :
    lg_committing (lg s) = true -> commit s = Ok tt s1 -> end_op_leave s1 = Ok tt s2 ->
    lstep (LSys s u) (LSys s2 u).

(** After [initlog]. *)
Definition initial (y : lsys) : Prop :=
  ops y = ∅ /\ lh_n (lg (sy y)) = 0 /\ lg_outstanding (lg (sy y)) = 0 /\
  lg_committing (lg (sy y)) = false /\ lg_lock (lg (sy y)) = false /\
  length (lh_block (lg (sy y))) = Z.to_nat LOGSIZE.

Inductive reachable : lsys -> Prop :=
| reach_init y : initial y -> reachable y
| reach_step y y' : reachable y -> lstep y y' -> reachable y'.

(** What the running operations may still log. *)
Definition budget (u : gmap Z (gset Z)) : Z :=
  map_fold (fun _ bl acc => MAXOPBLOCKS - Z.of_nat (size bl) + acc) 0 u.

Lemma budget_insert u p bl :
  u !! p = None -> budget (<[p := bl]> u) = MAXOPBLOCKS - Z.of_nat (size bl) + budget u.
Proof. intros Hp. unfold budget. rewrite map_fold_insert_L; [done| |done]. intros. lia. Qed.

Lemma budget_delete u p bl :
  u !! p = Some bl -> budget u = MAXOPBLOCKS - Z.of_nat (size bl) + budget (delete p u).
Proof.
  intros Hp. rewrite <- (insert_delete_id u p bl Hp) at 1.
  by rewrite budget_insert by apply lookup_delete_eq.
Qed.

Lemma budget_update u p bl bl' :
  u !! p = Some bl ->
  budget (<[p := bl']> u) = budget u + Z.of_nat (size bl) - Z.of_nat (size bl').
Proof.
  intros Hp. rewrite (budget_delete u p bl Hp), <- (insert_delete_eq u p bl').
  rewrite budget_insert by apply lookup_delete_eq. lia.
Qed.

(** The first [lh_n] entries of [lh.block]. *)
Definition active (l : log) : list Z := take (Z.to_nat (lh_n l)) (lh_block l).

(** The invariant of the log's bookkeeping. *)
Record linv (y : lsys) : Prop := LInv {
  li_lock : lg_lock (lg (sy y)) = false;
  li_array : length (lh_block (lg (sy y))) = Z.to_nat LOGSIZE;
  li_n : 0 <= lh_n (lg (sy y));
  li_space : lh_n (lg (sy y)) + budget (ops y) <= LOGSIZE;
  li_small : forall p bl, ops y !! p = Some bl -> Z.of_nat (size bl) <= MAXOPBLOCKS;
  li_out : lg_outstanding (lg (sy y)) = Z.of_nat (size (ops y));
  li_commit : lg_committing (lg (sy y)) = true -> ops y = ∅;
  li_nodup : NoDup (active (lg (sy y)));
  li_logged : forall p bl b, ops y !! p = Some bl -> b ∈ bl -> b ∈ active (lg (sy y))
}.

(** ** Code that does not touch the in-memory log *)

Definition keeps_lg {A} (m : M lstate A) : Prop :=
  forall s a s', m s = Ok a s' -> lg s' = lg s.

Lemma keeps_bind {A B} (m : M lstate A) (k : A -> M lstate B) :
  keeps_lg m -> (forall a, keeps_lg (k a)) -> keeps_lg (bind m k).
Proof.
  intros Hm Hk s b s' E. destruct (bind_inv _ _ _ _ _ E) as (a & s1 & E1 & E2).
  rewrite (Hk _ _ _ _ E2). by apply (Hm _ _ _ E1).
Qed.

Lemma keeps_cache {A} (m : M bstate A) : keeps_lg (cache m).
Proof.
  intros s a s'. unfold cache, zoom. destruct (m (bs s)); naive_solver.
Qed.

Lemma keeps_field {A} (f : log -> A) : keeps_lg (field f).
Proof. intros s a s'. unfold field, gets. by intros [= _ <-]. Qed.

Lemma keeps_lh_at i : keeps_lg (lh_at i).
Proof. intros s a s'. unfold lh_at. destruct (_ !! _); naive_solver. Qed.

Lemma keeps_mfor n i (f : Z -> M lstate unit) :
  (forall j, keeps_lg (f j)) -> keeps_lg (mfor n i f).
Proof.
  intros Hf. revert i. induction n as [|n IH]; intros i; simpl.
  - intros s a s'. unfold ret. by intros [= _ <-].
  - apply keeps_bind; auto.
Qed.

Create HintDb keeps.
#[export] Hint Resolve keeps_bind keeps_cache keeps_field keeps_lh_at keeps_mfor : keeps.

Lemma keeps_install : keeps_lg install_trans.
Proof. unfold install_trans, install_block. auto 20 with keeps. Qed.
Lemma keeps_write_log : keeps_lg write_log.
Proof. unfold write_log, write_log_block. auto 20 with keeps. Qed.
Lemma keeps_write_head : keeps_lg write_head.
Proof. unfold write_head. auto 20 with keeps. Qed.

Lemma commit_lg s s' :
  commit s = Ok tt s' ->
  lg s' = with_lh (lg s) (if 0 <? lh_n (lg s) then 0 else lh_n (lg s)) (lh_block (lg s)).
Proof.
  unfold commit. erewrite bind_ok by reflexivity.
  destruct (0 <? lh_n (lg s)).
  - intros (? & s1 & E1 & (? & s2 & E2 & (? & s3 & E3 & (? & s4 & E4 & E5)%bind_inv)%bind_inv)%bind_inv)%bind_inv.
    apply keeps_write_log in E1. apply keeps_write_head in E2, E5. apply keeps_install in E3.
    injection E4 as _ <-. rewrite E5. simpl. by rewrite E3, E2, E1.
  - intros [= <-]. by destruct (lg s).
Qed.

(** ** The operations on a log that satisfies the invariant *)

Lemma find_loop s b k i :
  0 <= i -> i + Z.of_nat k <= Z.of_nat (length (lh_block (lg s))) ->
  exists r, mfind k i (fun i => x <- lh_at i ;; ret (if x =? b then Some i else None)) s = Ok r s /\
    match r with
    | Some j => i <= j < i + Z.of_nat k /\ lh_block (lg s) !! Z.to_nat j = Some b
    | None => forall j, (Z.to_nat i <= j < Z.to_nat i + k)%nat -> lh_block (lg s) !! j <> Some b
    end.
Proof.
  revert i. induction k as [|k IH]; intros i Hi Hk; simpl.
  { exists None. split; [done|]. lia. }
  destruct (lookup_lt_is_Some_2 (lh_block (lg s)) (Z.to_nat i)) as [x Hx]; [lia|].
  erewrite bind_ok by (erewrite lh_step by exact Hx; reflexivity).
  destruct (Z.eqb_spec x b) as [->|Hne].
  - exists (Some i). split; [done|]. split; [lia|done].
  - destruct (IH (i + 1)) as (r & -> & Hr); [lia..|]. exists r. split; [done|].
    destruct r as [j|]; [split; [lia|tauto]|].
    intros j Hj. destruct (decide (j = Z.to_nat i)) as [->|]; [congruence|apply Hr; lia].
Qed.

Lemma find_slot_ok s b :
  0 <= lh_n (lg s) <= Z.of_nat (length (lh_block (lg s))) ->
  exists i, find_slot (lh_n (lg s)) b s = Ok i s /\
    ((0 <= i < lh_n (lg s) /\ lh_block (lg s) !! Z.to_nat i = Some b /\ b ∈ active (lg s)) \/
     (i = lh_n (lg s) /\ b ∉ active (lg s))).
Proof.
  intros Hn. destruct (find_loop s b (Z.to_nat (lh_n (lg s))) 0) as (r & E & Hr); [lia..|].
  unfold find_slot. rewrite (bind_ok _ _ _ _ _ E). exists (default (lh_n (lg s)) r).
  split; [done|]. destruct r as [j|]; simpl; [left|right].
  - split; [lia|]. split; [tauto|]. apply list_elem_of_lookup. exists (Z.to_nat j).
    unfold active. rewrite lookup_take_lt by lia. tauto.
  - split; [done|]. unfold active. intros (j & Hj)%list_elem_of_lookup.
    apply lookup_take_Some in Hj as [Hj Hlt]. apply (Hr j); [lia|done].
Qed.

Lemma lh_store_ok i b s :
  (Z.to_nat i < length (lh_block (lg s)))%nat -> lh_store i b s = Ok tt (set_lh_block i b s).
Proof. intros Hi. unfold lh_store. by destruct (Nat.ltb_spec (Z.to_nat i) (length (lh_block (lg s)))); [|lia]. Qed.

(** [log_write] either absorbs the block or appends it, and pins it. *)
Lemma log_write_ok s b :
  lg_lock (lg s) = false -> length (lh_block (lg s)) = Z.to_nat LOGSIZE ->
  0 <= lh_n (lg s) < LOGSIZE -> lh_n (lg s) < lg_size (lg s) - 1 -> 1 <= lg_outstanding (lg s) ->
  exists s', log_write b s = Ok tt s' /\
    bs s' = BState (dsk (bs s)) (over (bs s)) (held (bs s)) ({[b]} ∪ dirty (bs s)) (wr (bs s)) /\
    lg s' = if decide (b ∈ active (lg s)) then lg s
            else with_lh (lg s) (lh_n (lg s) + 1) (<[Z.to_nat (lh_n (lg s)) := b]> (lh_block (lg s))).
Proof.
  intros Hlk Hlen Hn Hsz Hout. destruct s as [[k st sz out co dv n bl] [dk ov hd di w]].
  cbn [lg bs lg_lock lh_block lh_n lg_size lg_outstanding] in *. subst k.
  set (l1 := Log true st sz out co dv n bl).
  destruct (find_slot_ok (LState l1 (BState dk ov hd di w)) b) as (i & E & Hi); [simpl; lia|].
  simpl in Hi. unfold active in *. simpl in *.
  exists (LState (Log false st sz out co dv (if i =? n then n + 1 else n) (<[Z.to_nat i := b]> bl))
            (BState dk ov hd ({[b]} ∪ di) w)). split.
  - unfold log_write. erewrite bind_ok by reflexivity. unfold id. cbn [lg lh_n lg_size lg_outstanding].
    destruct (Z.leb_spec LOGSIZE n); [lia|]. destruct (Z.leb_spec (sz - 1) n); [lia|]. cbn [orb].
    destruct (Z.ltb_spec out 1); [lia|].
    erewrite bind_ok by reflexivity. erewrite bind_ok by exact E.
    erewrite bind_ok by (apply lh_store_ok; simpl; lia). unfold set_lh_block. simpl.
    unfold bind, when, modify. by destruct (i =? n).
  - destruct Hi as [(Hi & Hb & Hin)|[-> Hin]].
    + rewrite decide_True by done. destruct (Z.eqb_spec i n); [lia|]. simpl.
      by rewrite list_insert_id by done.
    + rewrite decide_False by done. rewrite Z.eqb_refl. done.
Qed.

Lemma begin_op_inv s s' :
  begin_op s = Ok tt s' ->
  lg_committing (lg s) = false /\
  lh_n (lg s) + (lg_outstanding (lg s) + 1) * MAXOPBLOCKS <= LOGSIZE /\
  s' = set_outstanding (lg_outstanding (lg s) + 1) s /\ lg_lock (lg s) = false.
Proof.
  destruct s as [[k st sz out co dv n bl] b]. unfold begin_op, acquire_log, acquire, bind. simpl.
  destruct k; [done|]. simpl. destruct co; [done|]. simpl.
  destruct (Z.ltb_spec LOGSIZE (n + (out + 1) * MAXOPBLOCKS)); [done|]. intros [= <-].
  unfold set_outstanding. simpl. auto.
Qed.

Lemma end_op_enter_inv s b s' :
  end_op_enter s = Ok b s' ->
  lg_committing (lg s) = false /\ lg_lock (lg s) = false /\
  b = (lg_outstanding (lg s) - 1 =? 0) /\
  s' = set_committing b (set_outstanding (lg_outstanding (lg s) - 1) s).
Proof.
  destruct s as [[k st sz out co dv n bl] b0]. unfold end_op_enter, acquire_log, acquire, bind. simpl.
  destruct k; [done|]. simpl. destruct co; [done|]. simpl.
  destruct (out - 1 =? 0); simpl; intros [= <- <-]; auto.
Qed.

Lemma end_op_leave_inv s s' :
  end_op_leave s = Ok tt s' -> lg_lock (lg s) = false /\ s' = set_committing false s.
Proof.
  destruct s as [[k st sz out co dv n bl] b0]. unfold end_op_leave, acquire_log, acquire, bind. simpl.
  destruct k; [done|]. simpl. by intros [= <-].
Qed.

Lemma log_write_guards s b s' :
  log_write b s = Ok tt s' ->
  lh_n (lg s) < LOGSIZE /\ lh_n (lg s) < lg_size (lg s) - 1 /\ 1 <= lg_outstanding (lg s) /\
  lg_lock (lg s) = false.
Proof.
  unfold log_write. erewrite bind_ok by reflexivity. unfold id.
  destruct (Z.leb_spec LOGSIZE (lh_n (lg s))); [done|].
  destruct (Z.leb_spec (lg_size (lg s) - 1) (lh_n (lg s))); [done|]. cbn [orb].
  destruct (Z.ltb_spec (lg_outstanding (lg s)) 1); [done|].
  unfold bind at 1, acquire_log, acquire. destruct (lg_lock (lg s)); [done|]. auto.
Qed.

Lemma budget_bounds u :
  (forall p bl, u !! p = Some bl -> Z.of_nat (size bl) <= MAXOPBLOCKS) ->
  0 <= budget u <= MAXOPBLOCKS * Z.of_nat (size u).
Proof.
  induction u as [|p bl u Hp IH] using map_ind; intros Hs.
  { unfold budget. rewrite map_fold_empty, map_size_empty. lia. }
  rewrite budget_insert, map_size_insert_None by done.
  assert (Z.of_nat (size bl) <= MAXOPBLOCKS) by (apply (Hs p); by rewrite lookup_insert_eq).
  destruct IH as [IH1 IH2].
  { intros q bl' Hq. apply (Hs q). rewrite lookup_insert_ne; [done|]. congruence. }
  unfold MAXOPBLOCKS in *. lia.
Qed.

(** The in-memory header after [b] has been appended to it. *)
Lemma active_append (l : log) b :
  0 <= lh_n l < Z.of_nat (length (lh_block l)) ->
  active (with_lh l (lh_n l + 1) (<[Z.to_nat (lh_n l) := b]> (lh_block l))) = active l ++ [b].
Proof.
  intros Hn. unfold active. simpl.
  replace (Z.to_nat (lh_n l + 1)) with (S (Z.to_nat (lh_n l))) by lia.
  rewrite (take_S_r _ _ b) by (rewrite list_lookup_insert_eq by lia; done).
  by rewrite take_insert_ge by lia.
Qed.

Lemma linv_write s u p bl b s' :
  linv (LSys s u) -> u !! p = Some bl -> Z.of_nat (size ({[b]} ∪ bl)) <= MAXOPBLOCKS ->
  log_write b s = Ok tt s' -> linv (LSys s' (<[p := {[b]} ∪ bl]> u)).
Proof.
  intros [Hlk Hlen Hn Hsp Hsm Hout Hco Hnd Hlog] Hp Hsz E. simpl in *.
  destruct (log_write_guards _ _ _ E) as (Hg1 & Hg2 & Hg3 & _).
  destruct (log_write_ok s b) as (s1 & E1 & _ & Hlg); [done..|]. rewrite E in E1. injection E1 as <-.
  assert (size bl <= size ({[b]} ∪ bl))%nat as Hmono by (apply subseteq_size; set_solver).
  assert (budget (<[p := {[b]} ∪ bl]> u) =
          budget u + Z.of_nat (size bl) - Z.of_nat (size ({[b]} ∪ bl))) as Hbud
    by (by apply budget_update).
  assert (size (<[p := {[b]} ∪ bl]> u) = size u) as Hsz'
    by (rewrite map_size_insert_Some; eauto).
  assert (lg_committing (lg s) = true -> <[p := {[b]} ∪ bl]> u = ∅) as Hco'.
  { intros C. rewrite (Hco C) in Hp. by rewrite lookup_empty in Hp. }
  assert (forall q x, <[p := {[b]} ∪ bl]> u !! q = Some x ->
            (forall y, y ∈ x -> y = b \/ y ∈ active (lg s)) /\ Z.of_nat (size x) <= MAXOPBLOCKS) as Hq.
  { intros q x [[<- <-]|[_ Hq]]%lookup_insert_Some; split; eauto.
    intros y [->%elem_of_singleton|Hy]%elem_of_union; eauto. }
  destruct (decide (b ∈ active (lg s))) as [Hin|Hin].
  - split; simpl; rewrite ?Hlg, ?Hbud; try done; try lia.
    + intros q x Hx. by destruct (Hq q x Hx).
    + intros q x y Hx Hy. destruct (proj1 (Hq q x Hx) y Hy) as [->|]; done.
  - assert (size ({[b]} ∪ bl) = S (size bl)) as Hgrow.
    { rewrite size_union, size_singleton; [done|]. apply disjoint_singleton_l. eauto. }
    assert (0 <= lh_n (lg s) < Z.of_nat (length (lh_block (lg s)))) as Hr by lia.
    split; simpl; rewrite ?Hlg, ?active_append by done; simpl; rewrite ?length_insert, ?Hbud; try done; try lia.
    + intros q x Hx. by destruct (Hq q x Hx).
    + apply NoDup_app. split; [done|]. split; [set_solver|apply NoDup_singleton].
    + intros q x y Hx Hy. apply elem_of_app.
      destruct (proj1 (Hq q x Hx) y Hy) as [->|]; [right; set_solver|by left].
Qed.

Lemma linv_step y y' : linv y -> lstep y y' -> linv y'.
Proof.
  intros HI Hst. destruct Hst as [s u p s' Hp E|s u p bl b s' Hp Hsz E|s u p bl c s' Hp E|s u s1 s2 Hc E1 E2].
  - destruct HI as [Hlk Hlen Hn Hsp Hsm Hout Hco Hnd Hlog]. simpl in *.
    destruct (begin_op_inv _ _ E) as (Hc & Hroom & -> & _).
    destruct (budget_bounds u Hsm) as [_ Hb].
    split; simpl; rewrite ?budget_insert, ?map_size_insert_None, ?size_empty by done; try done; try lia.
    + intros q x [[<- <-]|[_ Hq]]%lookup_insert_Some; [rewrite size_empty; unfold MAXOPBLOCKS; lia|eauto].
    + congruence.
    + intros q x y [[<- <-]|[_ Hq]]%lookup_insert_Some; [set_solver|eauto].
  - by eapply linv_write.
  - destruct HI as [Hlk Hlen Hn Hsp Hsm Hout Hco Hnd Hlog]. simpl in *.
    destruct (end_op_enter_inv _ _ _ E) as (Hc & _ & -> & ->).
    pose proof (budget_delete u p bl Hp) as Hb. specialize (Hsm p bl Hp) as Hs.
    assert (size (delete p u) = Nat.pred (size u)) as Hsd by (rewrite map_size_delete_Some; eauto).
    assert (size u <> 0%nat) as Hne.
    { intros E0. apply map_size_empty_inv in E0. subst u. by rewrite lookup_empty in Hp. }
    split; simpl; rewrite ?Hsd; try done; try lia.
    + intros q x [_ Hq]%lookup_delete_Some. eauto.
    + intros C%Z.eqb_eq. apply map_size_empty_inv. lia.
    + intros q x y [_ Hq]%lookup_delete_Some. eauto.
  - destruct HI as [Hlk Hlen Hn Hsp Hsm Hout Hco Hnd Hlog]. simpl in *.
    pose proof (commit_lg _ _ E1) as Hlg. destruct (end_op_leave_inv _ _ E2) as [_ ->].
    specialize (Hco Hc). subst u.
    assert ((if 0 <? lh_n (lg s) then 0 else lh_n (lg s)) = 0) as E0.
    { destruct (Z.ltb_spec 0 (lh_n (lg s))); lia. }
    rewrite E0 in Hlg. unfold active in *. split; simpl; rewrite ?Hlg; simpl; try done.
    constructor.
Qed.

Lemma reachable_linv y : reachable y -> linv y.
Proof.
  induction 1 as [y (H1 & H2 & H3 & H4 & H5 & H6)|y y' _ IH Hst]; [|by eapply linv_step].
  split; rewrite ?H1, ?H2, ?H3, ?H4, ?map_size_empty; try done.
  unfold active. rewrite H2. constructor.
Qed.


(** A commit runs alone: while [log.committing] is set no operation is
    between its [begin_op] and its [end_op], and a process that calls
    [begin_op] goes to sleep on the log and leaves it as it was. *)
Theorem commit_exclusive y :
  reachable y -> lg_committing (lg (sy y)) = true ->
  ops y = ∅ /\ begin_op (sy y) = Sleep CLog (sy y).
Proof.
  intros Hr Hc. destruct (reachable_linv y Hr) as [Hlk _ _ _ _ _ Hco _ _]. split; [auto|].
  destruct y as [[[k st sz out co dv n bl] b] u]. simpl in *. subst k co. done.
Qed.

(** * Schedules *)

Inductive act : Type :=
| ABegin (p : Z)
| AWrite (p b : Z)
| AEnd (p : Z)
| ACommit.

Definition run_act (a : act) (y : lsys) : option lsys :=
  match a with
  | ABegin p =>
      match ops y !! p, begin_op (sy y) with
      | None, Ok _ s => Some (LSys s (<[p := ∅]> (ops y)))
      | _, _ => None
      end
  | AWrite p b =>
      match ops y !! p, log_write b (sy y) with
      | Some bl, Ok _ s =>
          if Z.of_nat (size ({[b]} ∪ bl)) <=? MAXOPBLOCKS
          then Some (LSys s (<[p := {[b]} ∪ bl]> (ops y))) else None
      | _, _ => None
      end
  | AEnd p =>
      match ops y !! p, end_op_enter (sy y) with
      | Some _, Ok _ s => Some (LSys s (delete p (ops y)))
      | _, _ => None
      end
  | ACommit =>
      if lg_committing (lg (sy y)) then
        match (commit ;; end_op_leave) (sy y) with
        | Ok _ s => Some (LSys s (ops y))
        | _ => None
        end
      else None
  end.

Fixpoint run_acts (l : list act) (y : lsys) : option lsys :=
  match l with
  | [] => Some y
  | a :: l' => y' ← run_act a y; run_acts l' y'
  end.

Lemma run_act_step a y y' : run_act a y = Some y' -> lstep y y'.
Proof.
  destruct y as [s u], a as [p|p b|p|]; simpl.
  - destruct (u !! p) eqn:Hp; [done|]. destruct (begin_op s) as [[] s1| | |] eqn:E; try done.
    intros [= <-]. by constructor.
  - destruct (u !! p) as [bl|] eqn:Hp; [|done].
    destruct (log_write b s) as [[] s1| | |] eqn:E; try done.
    destruct (Z.leb_spec (Z.of_nat (size ({[b]} ∪ bl))) MAXOPBLOCKS); [|done].
    intros [= <-]. by econstructor.
  - destruct (u !! p) as [bl|] eqn:Hp; [|done]. destruct (end_op_enter s) as [c s1| | |] eqn:E; try done.
    intros [= <-]. by econstructor.
  - destruct (lg_committing (lg s)) eqn:Hc; [|done].
    destruct ((commit;; end_op_leave) s) as [[] s2| | |] eqn:E; try done. intros [= <-].
    apply bind_inv in E as ([] & s1 & E1 & E2). by econstructor.
Qed.

Lemma run_acts_reachable l y y' : reachable y -> run_acts l y = Some y' -> reachable y'.
Proof.
  revert y. induction l as [|a l IH]; intros y Hy; simpl; [by intros [= <-]|].
  intros (y1 & E1 & E2)%bind_Some. eapply IH; [|exact E2].
  eapply reach_step; [done|]. by eapply run_act_step.
Qed.

(** A log of [sz] blocks from block 2 on, on a disk of zeros with no block
    cached, as [initlog] leaves it. *)
Definition boot_sys (sz : Z) : lsys :=
  LSys (LState (Log false 2 sz 0 false ROOTDEV 0 (replicate (Z.to_nat LOGSIZE) 0))
          (quiet (replicate 40 (replicate (Z.to_nat BSIZE) 0)) ∅ [])) ∅.

Lemma boot_reachable sz : reachable (boot_sys sz).
Proof. apply reach_init. by repeat split. Qed.

(** Three operations, of which two have logged ten blocks and one nine. *)
Definition busy_acts : list act :=
  [ABegin 1; ABegin 2; ABegin 3] ++
  (AWrite 1 <$> seqZ 100 10) ++ (AWrite 2 <$> seqZ 110 10) ++ (AWrite 3 <$> seqZ 120 9).

Definition busy (sz : Z) : lsys := default (boot_sys sz) (run_acts busy_acts (boot_sys sz)).

Lemma busy_reachable sz y : run_acts busy_acts (boot_sys sz) = Some y -> reachable y.
Proof. apply run_acts_reachable, boot_reachable. Qed.


Lemma commit_exclusive_witness :
  exists y, ops y = ∅ /\ begin_op (sy y) = Sleep CLog (sy y).
Proof.
  exists (default (boot_sys 30) (run_acts [ABegin 1; AWrite 1 35; AEnd 1] (boot_sys 30))).
  apply commit_exclusive.
  - apply (run_acts_reachable [ABegin 1; AWrite 1 35; AEnd 1] (boot_sys 30)); [apply boot_reachable|].
    vm_compute. reflexivity.
  - vm_compute. reflexivity.
Defined.

(** On the log that mkfs makes, [LOGSIZE] blocks with the header among them,
    the reservation does not suffice: three operations that [begin_op] has
    admitted, each within [MAXOPBLOCKS], reach a state in which the next
    [log_write] of one that has logged nine blocks panics. *)
Theorem mkfs_log_too_small :
  reachable (busy LOGSIZE) /\ lg_size (lg (sy (busy LOGSIZE))) = LOGSIZE /\
  ops (busy LOGSIZE) !! 3 = Some (list_to_set (seqZ 120 9)) /\
  Z.of_nat (size (list_to_set (seqZ 120 9) : gset Z)) < MAXOPBLOCKS /\
  log_write 129 (sy (busy LOGSIZE)) = Panic "too big a transaction".
Proof.
  split; [apply (busy_reachable LOGSIZE); vm_compute; reflexivity|].
  split; [vm_compute; reflexivity|]. split; [vm_compute; reflexivity|].
  split; vm_compute; reflexivity.
Qed.
