(* ===== verification/Tx.v ===== *)
(** A transaction seen from inside: the file system code between [begin_op] and
    [end_op] reads and writes blocks of a virtual disk, the disk with the cached
    contents on top.  The rules below say what [bread], an assignment to a
    buffer, [log_write] and [brelse] do to that disk, and that they return as
    long as the log and the cache have room. *)
From stdpp Require Import base numbers list gmap sets strings.
From Stdlib Require Import ZArith Lia.
From S2P Require Import Prelude Bytes Disk BlockLayer Super Log LogOps.

(** - [tv_disk]: the current content of every block;
    - [tv_held]: the blocks locked by the running process;
    - [tv_mod]: those of them that have been modified and not yet logged;
    - [tv_log]: the blocks in the log;
    - [tv_lim]: how many blocks the log takes. *)
Record tview := TView {
  tv_disk : list block;
  tv_held : gset Z;
  tv_mod : gset Z;
  tv_log : gset Z;
  tv_lim : Z
}.

Record repr (s : lstate) (V : tview) : Prop := Repr {
  rp_lock : lg_lock (lg s) = false;
  rp_out : 1 <= lg_outstanding (lg s);
  rp_array : length (lh_block (lg s)) = Z.to_nat LOGSIZE;
  rp_n : lh_n (lg s) = Z.of_nat (size (tv_log V));
  rp_active : list_to_set (active (lg s)) = tv_log V;
  rp_lim : tv_lim V = Z.min LOGSIZE (lg_size (lg s) - 1);
  rp_small : Z.of_nat (size (tv_log V)) <= LOGSIZE;
  rp_held : held (bs s) = tv_held V;
  rp_dirty : dirty (bs s) = tv_log V;
  rp_dom : dom (over (bs s)) = tv_held V ∪ tv_log V;
  rp_len : length (dsk (bs s)) = length (tv_disk V);
  rp_cur : forall n, cur (bs s) n = dat (tv_disk V) n;
  rp_blocks : Forall is_block (tv_disk V);
  rp_clean : forall n, n ∈ tv_held V -> n ∉ tv_log V -> n ∉ tv_mod V -> cur (bs s) n = dblk (bs s) n
}.

(** Blocks that may still be needed besides those in the log. *)
Definition tv_room (V : tview) : Z := Z.of_nat NBUF - Z.of_nat (size (tv_held V ∪ tv_log V)).

Definition tv_hold (n : Z) (V : tview) : tview :=
  TView (tv_disk V) ({[n]} ∪ tv_held V) (tv_mod V) (tv_log V) (tv_lim V).
Definition tv_write (n : Z) (d : block) (V : tview) : tview :=
  TView (<[Z.to_nat n := d]> (tv_disk V)) (tv_held V) ({[n]} ∪ tv_mod V) (tv_log V) (tv_lim V).
Definition tv_logged (n : Z) (V : tview) : tview :=
  TView (tv_disk V) (tv_held V) (tv_mod V ∖ {[n]}) ({[n]} ∪ tv_log V) (tv_lim V).
Definition tv_release (n : Z) (V : tview) : tview :=
  TView (tv_disk V) (tv_held V ∖ {[n]}) (tv_mod V) (tv_log V) (tv_lim V).

Lemma cur_over s n d : over s !! n = Some d -> cur s n = Some d.
Proof. unfold cur. by intros ->. Qed.

Lemma held_over s V n : repr s V -> n ∈ tv_held V -> exists d, over (bs s) !! n = Some d /\ dat (tv_disk V) n = Some d.
Proof.
  intros HR Hn. assert (n ∈ dom (over (bs s))) as Hd by (rewrite (rp_dom _ _ HR); set_solver).
  apply elem_of_dom in Hd as [d Hd]. exists d. split; [done|]. rewrite <- (rp_cur _ _ HR). by apply cur_over.
Qed.

Lemma repr_bread s V n d :
  repr s V -> n ∉ tv_held V -> dat (tv_disk V) n = Some d -> 0 < tv_room V ->
  exists s', cache (bread n) s = Ok d s' /\ repr s' (tv_hold n V).
Proof.
  intros HR Hh Hd Hroom. destruct s as [l b].
  assert (over b !! n = Some d \/ (over b !! n = None /\ (size (over b) < NBUF)%nat /\ dblk b n = Some d)) as Hor.
  { pose proof (rp_cur _ _ HR n) as Hc. rewrite Hd in Hc. unfold cur in Hc. simpl in Hc.
    destruct (over b !! n) as [x|] eqn:E; [left; congruence|right]. split; [done|]. split; [|done].
    unfold tv_room in Hroom. rewrite <- (rp_dom _ _ HR) in Hroom. simpl in Hroom. rewrite size_dom in Hroom. lia. }
  exists (LState l (bheld n d b)). split.
  { apply cache_ok, bread_ok; [|done]. pose proof (rp_held _ _ HR) as E. simpl in E. by rewrite E. }
  assert (forall m, cur (bheld n d b) m = cur b m) as Hcur.
  { intros m. unfold cur, bheld. simpl. destruct (decide (m = n)) as [->|Hne].
    - rewrite lookup_insert_eq. destruct Hor as [->|(-> & _ & Hdb)]; [done|]. by rewrite <- Hdb.
    - by rewrite lookup_insert_ne. }
  destruct HR as [H1 H2 H3 H4 H5 H6 H7 H8 H9 H10 H11 H12 H13 H14]. simpl in *.
  split; simpl; try done.
  - by rewrite H8.
  - rewrite dom_insert_L, H10. set_solver.
  - intros m. by rewrite Hcur.
  - intros m Hm Hl Hmo. rewrite Hcur. destruct (decide (m = n)) as [->|Hne]; [|apply H14; set_solver].
    unfold dblk. simpl. destruct Hor as [Ho|(Ho & _ & Hdb)].
    + exfalso. assert (n ∈ dom (over b)) as Hin by (by apply elem_of_dom; eauto). set_solver.
    + unfold cur. rewrite Ho. done.
Qed.

Lemma repr_data s V n d :
  repr s V -> n ∈ tv_held V -> dat (tv_disk V) n = Some d -> cache (bdata n) s = Ok d s.
Proof.
  intros HR Hn Hd. destruct (held_over _ _ _ HR Hn) as (x & Ho & Hx). destruct s as [l b]. simpl in *.
  unfold cache, zoom, bdata. simpl. rewrite Ho. simpl. congruence.
Qed.

Lemma repr_bset s V n d :
  repr s V -> n ∈ tv_held V -> is_block d ->
  exists s', cache (bset n d) s = Ok tt s' /\ repr s' (tv_write n d V).
Proof.
  intros HR Hn Hb. destruct (held_over _ _ _ HR Hn) as (x & Ho & Hx).
  assert (0 <= n < Z.of_nat (length (tv_disk V))) as Hr by (apply dat_Some; eauto).
  destruct s as [l b]. eexists. split; [reflexivity|].
  destruct HR as [H1 H2 H3 H4 H5 H6 H7 H8 H9 H10 H11 H12 H13 H14]. simpl in *.
  split; simpl; try done.
  - rewrite dom_insert_L, H10. set_solver.
  - by rewrite length_insert.
  - intros m. unfold cur, dblk. simpl. destruct (decide (m = n)) as [->|Hne].
    + by rewrite lookup_insert_eq, dat_insert_eq.
    + rewrite lookup_insert_ne, dat_insert_ne by lia. apply H12.
  - by apply Forall_insert.
  - intros m Hm Hl Hmo. assert (m <> n) as Hne by set_solver.
    unfold cur, dblk. simpl. rewrite lookup_insert_ne by done. apply H14; set_solver.
Qed.

Lemma repr_log_write s V n :
  repr s V -> n ∈ tv_held V -> Z.of_nat (size (tv_log V)) < tv_lim V ->
  exists s', log_write n s = Ok tt s' /\ repr s' (tv_logged n V).
Proof.
  intros HR Hn Hlim. destruct HR as [H1 H2 H3 H4 H5 H6 H7 H8 H9 H10 H11 H12 H13 H14].
  destruct (log_write_ok s n) as (s' & E & Eb & El); [done|done|lia|lia|done|].
  exists s'. split; [done|].
  assert (lg_lock (lg s') = false /\ lg_outstanding (lg s') = lg_outstanding (lg s) /\
    length (lh_block (lg s')) = Z.to_nat LOGSIZE /\ lg_size (lg s') = lg_size (lg s)) as (G1 & G2 & G3 & G4).
  { rewrite El. case_decide; [done|]. simpl. by rewrite length_insert. }
  assert (n ∈ active (lg s) <-> n ∈ tv_log V) as Hin by (rewrite <- H5, elem_of_list_to_set; done).
  split; rewrite ?Eb, ?G1, ?G2, ?G3, ?G4; simpl; try done.
  - rewrite El. case_decide as Ha.
    + by rewrite subseteq_union_1_L by set_solver.
    + simpl. rewrite size_union, size_singleton by set_solver. lia.
  - rewrite El. case_decide as Ha.
    + by rewrite subseteq_union_1_L by set_solver.
    + rewrite active_append by (unfold LOGSIZE, MAXOPBLOCKS in *; lia). rewrite list_to_set_app_L, H5. set_solver.
  - destruct (decide (n ∈ tv_log V)).
    + by rewrite subseteq_union_1_L by set_solver.
    + rewrite size_union, size_singleton by set_solver. lia.
  - by rewrite H9.
  - rewrite H10. set_solver.
  - intros m Hm Hl Hmo. apply (H14 m); set_solver.
Qed.

Lemma repr_brelse s V n :
  repr s V -> n ∈ tv_held V -> n ∉ tv_mod V ->
  exists s', cache (brelse n) s = Ok tt s' /\ repr s' (tv_release n V).
Proof.
  intros HR Hn Hmo. destruct (held_over _ _ _ HR Hn) as (x & Ho & Hx). destruct s as [l b].
  pose proof (rp_held _ _ HR) as Eh. pose proof (rp_dirty _ _ HR) as Ed. simpl in Eh, Ed, Ho.
  destruct (decide (n ∈ tv_log V)) as [Hl|Hl].
  - eexists. split; [apply cache_ok, brelse_dirty; [by rewrite Eh|by rewrite Ed]|].
    destruct HR as [H1 H2 H3 H4 H5 H6 H7 H8 H9 H10 H11 H12 H13 H14]. simpl in *.
    split; simpl; try done.
    + by rewrite Eh.
    + rewrite H10. apply set_eq. intros y. destruct (decide (y = n)); set_solver.
    + intros m Hm. apply H14. set_solver.
  - eexists. split; [apply cache_ok, brelse_clean; [by rewrite Eh|by rewrite Ed]|].
    pose proof (rp_clean _ _ HR n Hn Hl Hmo) as Hcl. simpl in Hcl.
    assert (forall m, cur (BState (dsk b) (delete n (over b)) (held b ∖ {[n]}) (dirty b) (wr b)) m = cur b m) as Hc.
    { intros m. unfold cur, dblk. simpl. destruct (decide (m = n)) as [->|Hne].
      - rewrite lookup_delete_eq. unfold cur in Hcl. rewrite Ho in *. unfold dblk in Hcl. done.
      - by rewrite lookup_delete_ne. }
    destruct HR as [H1 H2 H3 H4 H5 H6 H7 H8 H9 H10 H11 H12 H13 H14]. simpl in *.
    split; simpl; try done.
    + by rewrite Eh.
    + rewrite dom_delete_L, H10. set_solver.
    + intros m. by rewrite Hc.
    + intros m Hm Hlm Hmm. rewrite Hc. apply H14; set_solver.
Qed.
