(* ===== verification/Ring.v ===== *)
(** Ring buffers with free-running 32-bit counters, as pipe.c and console.c have
    them: the counters wrap at 2^32 and index the buffer modulo its size, which
    divides 2^32. *)
From stdpp Require Import base numbers list.
From Stdlib Require Import ZArith Lia.
From S2P Require Import Prelude.

Lemma u32_add z a : u32 (u32 z + a) = u32 (z + a).
Proof. unfold u32. by rewrite Zplus_mod_idemp_l. Qed.

Lemma u32_sub z a b : 0 <= a - b < 2 ^ 32 -> u32 (u32 (z + a) - u32 (z + b)) = a - b.
Proof.
  intros H. unfold u32. rewrite <- Zminus_mod. replace (z + a - (z + b)) with (a - b) by lia. by apply Z.mod_small.
Qed.

Lemma u32_same z : is_u32 z -> u32 z = z.
Proof. apply Z.mod_small. Qed.

(** The buffer holds [l] from the counter [r] on. *)
Definition ring_at (N r : Z) (buf l : list Z) : Prop :=
  forall k c, l !! k = Some c -> buf !! Z.to_nat ((r + Z.of_nat k) mod N) = Some c.

Section ring.
Context (N : Z) (HN : 0 < N) (Hdiv : (N | 2 ^ 32)).
Implicit Types (buf l : list Z) (r z : Z).

Lemma ring_mod z : u32 z mod N = z mod N.
Proof using HN Hdiv. unfold u32. symmetry. by apply Znumtheory.Zmod_div_mod. Qed.

Lemma ring_mod_inj z a b : 0 <= a < N -> 0 <= b < N -> (z + a) mod N = (z + b) mod N -> a = b.
Proof using HN.
  intros Ha Hb E. assert ((a - b) mod N = 0) as E0.
  { replace (a - b) with ((z + a) - (z + b)) by lia. rewrite Zminus_mod, E, Z.sub_diag. apply Z.mod_0_l. lia. }
  apply Z.mod_divide in E0 as [q E0]; [|lia].
  assert (-1 < q < 1) as Hq by (split; apply (Zmult_lt_reg_r _ _ N HN); lia).
  replace q with 0 in E0 by lia. lia.
Qed.

Lemma ring_index z (n : nat) : n = Z.to_nat N -> (Z.to_nat (z mod N) < n)%nat.
Proof using HN. intros ->. apply Z2Nat.inj_lt; [apply Z.mod_pos_bound; lia|lia|]. by apply Z.mod_pos_bound. Qed.

(** Storing at the end. *)
Lemma ring_push r buf l c : length buf = Z.to_nat N -> Z.of_nat (length l) < N -> ring_at N r buf l ->
  ring_at N r (<[Z.to_nat (u32 (r + Z.of_nat (length l)) mod N) := c]> buf) (l ++ [c]).
Proof using HN Hdiv.
  intros Hb Hl Hat k x Hk. rewrite ring_mod. apply lookup_app_Some in Hk as [Hk|[Hge Hk]].
  - rewrite list_lookup_insert_ne; [by apply Hat|]. pose proof (lookup_lt_Some _ _ _ Hk). intros E.
    apply Z2Nat.inj in E; [|by apply Z.mod_pos_bound..]. apply ring_mod_inj in E; lia.
  - apply list_lookup_singleton_Some in Hk as [Hk ->].
    replace k with (length l) by lia. rewrite list_lookup_insert_eq; [done|]. by apply ring_index.
Qed.

(** Taking from the front. *)
Lemma ring_front r buf c l : ring_at N r buf (c :: l) -> nth (Z.to_nat (r mod N)) buf 0 = c.
Proof. intros Hat. apply nth_lookup_Some. specialize (Hat 0%nat c eq_refl). by rewrite Z.add_0_r in Hat. Qed.

Lemma ring_pop r buf c l : ring_at N r buf (c :: l) -> ring_at N (u32 (r + 1)) buf l.
Proof using HN Hdiv.
  intros Hat k x Hk. specialize (Hat (S k) x Hk). rewrite <- Hat. f_equal. f_equal.
  rewrite <- (ring_mod (u32 _ + _)), u32_add, ring_mod. f_equal. lia.
Qed.

(** Dropping the last one. *)
Lemma ring_unpush r buf l l' : ring_at N r buf (l ++ l') -> ring_at N r buf l.
Proof. intros Hat k x Hk. apply Hat. by apply lookup_app_l_Some. Qed.

Lemma ring_back r buf l c : ring_at N r buf (l ++ [c]) ->
  nth (Z.to_nat (u32 (r + Z.of_nat (length l)) mod N)) buf 0 = c.
Proof using HN Hdiv.
  intros Hat. apply nth_lookup_Some. rewrite ring_mod. apply Hat.
  rewrite lookup_app_r by lia. by rewrite Nat.sub_diag.
Qed.
End ring.

(** Counters at most a buffer apart are equal exactly when their distances are. *)
Lemma ring_eqb z a b : 0 <= a < 2 ^ 32 -> 0 <= b < 2 ^ 32 -> (u32 (z + a) =? u32 (z + b)) = (a =? b).
Proof.
  intros Ha Hb. destruct (Z.eqb_spec a b) as [->|Hne]; [apply Z.eqb_refl|]. apply Z.eqb_neq. intros E. apply Hne.
  apply (ring_mod_inj (2 ^ 32) ltac:(lia) z); [done..|exact E].
Qed.
