(* ===== verification/Pipe.v ===== *)
(** Pipes (pipe.c): the ring buffer of a pipe, [pipewrite], [piperead] and
    [pipeclose], and the system of the processes that use one pipe.

    [pipewrite] and [piperead] run with [p->lock] held from one [sleep] to the
    next, so each such stretch is one step of the system.  A stretch ends in a
    [return] or in a [sleep] with the loop counter kept. *)
From stdpp Require Import base numbers list gmap sets.
From Stdlib Require Import ZArith Lia.
From S2P Require Import Prelude Bytes Ring.

Definition PIPESIZE : Z := 512.

(** [struct pipe].  [pp_woken] is the list of the channels that [wakeup] has been
    called on: the sleepers are outside of the pipe. *)
Record pipe := Pipe {
  pp_lock : bool;
  pp_data : list Z;
  pp_nread : Z;
  pp_nwrite : Z;
  pp_readopen : bool;
  pp_writeopen : bool;
  pp_woken : list chan
}.

Definition set_pp_lock (b : bool) (p : pipe) : pipe :=
  Pipe b (pp_data p) (pp_nread p) (pp_nwrite p) (pp_readopen p) (pp_writeopen p) (pp_woken p).
Definition set_pp_open (r w : bool) (p : pipe) : pipe :=
  Pipe (pp_lock p) (pp_data p) (pp_nread p) (pp_nwrite p) r w (pp_woken p).

Definition acquire_pipe : M pipe unit := acquire pp_lock set_pp_lock.
Definition release_pipe : M pipe unit := release pp_lock set_pp_lock.

Definition wakeup_pipe (c : chan) : M pipe unit :=
  modify (fun p => Pipe (pp_lock p) (pp_data p) (pp_nread p) (pp_nwrite p)
                     (pp_readopen p) (pp_writeopen p) (pp_woken p ++ [c])).

(** The fields that [pipealloc] sets in a page that [kalloc] gave it. *)
Definition pipeinit (p : pipe) : pipe := Pipe false (pp_data p) 0 0 true true (pp_woken p).

(** [p->data[p->nwrite++ % PIPESIZE] = c]. *)
Definition put (c : Z) : M pipe unit :=
  modify (fun p => Pipe (pp_lock p) (<[Z.to_nat (pp_nwrite p mod PIPESIZE) := c]> (pp_data p))
                     (pp_nread p) (u32 (pp_nwrite p + 1)) (pp_readopen p) (pp_writeopen p) (pp_woken p)).

(** [p->data[p->nread++ % PIPESIZE]]. *)
Definition take1 : M pipe Z :=
  fun p => Ok (nth (Z.to_nat (pp_nread p mod PIPESIZE)) (pp_data p) 0)
    (Pipe (pp_lock p) (pp_data p) (u32 (pp_nread p + 1)) (pp_nwrite p)
       (pp_readopen p) (pp_writeopen p) (pp_woken p)).

(** How a stretch ends: [return r], or [sleep(chan, &p->lock)]. *)
Inductive stretch (A : Type) : Type :=
| Return (r : A)
| Asleep (c : chan) (i : Z).
Arguments Return {A} _.
Arguments Asleep {A} _ _.

(** The loop of [pipewrite] from counter [i], with the lock held; [k] is the
    number of turns left. *)
Fixpoint pipewrite_loop (killed : bool) (addr : list Z) (n i : Z) (k : nat) : M pipe (stretch Z) :=
  match k with
  | O =>
      wakeup_pipe CPipeRead ;;
      release_pipe ;;
      ret (Return n)
  | S k' =>
      p <- mget ;;
      if pp_nwrite p =? u32 (pp_nread p + PIPESIZE) then
        if negb (pp_readopen p) || killed then
          release_pipe ;;
          ret (Return (-1))
        else
          wakeup_pipe CPipeRead ;;
          release_pipe ;;
          ret (Asleep CPipeWrite i)
      else
        put (nth (Z.to_nat i) addr 0) ;;
        pipewrite_loop killed addr n (i + 1) k'
  end.

(** From the start of [pipewrite], or from the return of its [sleep]: both take
    the lock first. *)
Definition pipewrite_from (killed : bool) (addr : list Z) (n i : Z) : M pipe (stretch Z) :=
  acquire_pipe ;;
  pipewrite_loop killed addr n i (Z.to_nat (n - i)).

Definition pipewrite (killed : bool) (addr : list Z) (n : Z) : M pipe (stretch Z) :=
  pipewrite_from killed addr n 0.

(** The copying loop of [piperead]: the bytes it stores at [addr]. *)
Fixpoint piperead_copy (k : nat) : M pipe (list Z) :=
  match k with
  | O => ret []
  | S k' =>
      p <- mget ;;
      if pp_nread p =? pp_nwrite p then ret []
      else
        c <- take1 ;;
        r <- piperead_copy k' ;;
        ret (c :: r)
  end.

(** [piperead], from its start or from the return of its [sleep]; it returns the
    number of bytes and the bytes. *)
Definition piperead (killed : bool) (n : Z) : M pipe (stretch (Z * list Z)) :=
  acquire_pipe ;;
  p <- mget ;;
  if (pp_nread p =? pp_nwrite p) && pp_writeopen p then
    if killed then
      release_pipe ;;
      ret (Return (-1, []))
    else
      release_pipe ;;
      ret (Asleep CPipeRead 0)
  else
    r <- piperead_copy (Z.to_nat n) ;;
    wakeup_pipe CPipeWrite ;;
    release_pipe ;;
    ret (Return (Z.of_nat (length r), r)).

(** [pipeclose]; the result tells whether the page of the pipe goes back to the
    allocator. *)
Definition pipeclose (writable : bool) : M pipe bool :=
  acquire_pipe ;;
  (if writable then
     modify (fun p => set_pp_open (pp_readopen p) false p) ;;
     wakeup_pipe CPipeRead
   else
     modify (fun p => set_pp_open false (pp_writeopen p) p) ;;
     wakeup_pipe CPipeWrite) ;;
  p <- mget ;;
  if negb (pp_readopen p) && negb (pp_writeopen p) then
    release_pipe ;;
    ret true
  else
    release_pipe ;;
    ret false.

(** * The ring buffer as a queue *)

(** The pipe holds the bytes [l], in order.  The counters are free running and
    wrap at 2^32, a multiple of [PIPESIZE]. *)
Record holds (p : pipe) (l : list Z) : Prop := Holds {
  ho_data : length (pp_data p) = Z.to_nat PIPESIZE;
  ho_nread : is_u32 (pp_nread p);
  ho_nwrite : pp_nwrite p = u32 (pp_nread p + Z.of_nat (length l));
  ho_len : Z.of_nat (length l) <= PIPESIZE;
  ho_at : ring_at PIPESIZE (pp_nread p) (pp_data p) l
}.

Lemma pipe_div : (PIPESIZE | 2 ^ 32).
Proof. exists (2 ^ 23). reflexivity. Qed.

Lemma u32_mod_id z : u32 z mod 2 ^ 32 = u32 z.
Proof. unfold u32. by rewrite Z.mod_mod. Qed.

Lemma full_spec p l : holds p l -> (pp_nwrite p =? u32 (pp_nread p + PIPESIZE)) = (Z.of_nat (length l) =? PIPESIZE).
Proof. intros [_ _ -> Hl _]. apply ring_eqb; unfold PIPESIZE in *; lia. Qed.

Lemma empty_spec p l : holds p l -> (pp_nread p =? pp_nwrite p) = (Z.of_nat (length l) =? 0).
Proof.
  intros [_ Hr -> Hl _]. rewrite <- (u32_same (pp_nread p)) at 1 by done. rewrite <- (Z.add_0_r (pp_nread p)) at 1.
  rewrite ring_eqb by (unfold PIPESIZE in *; lia). apply Z.eqb_sym.
Qed.

(** Storing at the end of the queue. *)
Lemma put_holds p l c :
  holds p l -> Z.of_nat (length l) < PIPESIZE ->
  exists p', put c p = Ok tt p' /\ holds p' (l ++ [c]) /\ pp_lock p' = pp_lock p /\
    pp_readopen p' = pp_readopen p /\ pp_writeopen p' = pp_writeopen p /\ pp_woken p' = pp_woken p /\
    pp_nwrite p' = u32 (pp_nwrite p + 1) /\ pp_nread p' = pp_nread p.
Proof.
  intros [Hd Hr Hw Hl Hat] Hlt. eexists. split; [reflexivity|]. split; [|done]. split; simpl.
  - by rewrite length_insert.
  - done.
  - rewrite Hw, length_app, u32_add. simpl. f_equal. lia.
  - rewrite length_app. simpl. lia.
  - rewrite Hw. by apply (ring_push PIPESIZE eq_refl pipe_div).
Qed.

(** Taking the byte at the front. *)
Lemma take1_holds p c l :
  holds p (c :: l) ->
  exists p', take1 p = Ok c p' /\ holds p' l /\ pp_lock p' = pp_lock p /\
    pp_readopen p' = pp_readopen p /\ pp_writeopen p' = pp_writeopen p /\ pp_woken p' = pp_woken p.
Proof.
  intros [Hd Hr Hw Hl Hat]. unfold take1. rewrite (ring_front _ _ _ _ _ Hat).
  eexists. split; [reflexivity|]. split; [|done]. split; simpl.
  - done.
  - apply Z.mod_pos_bound. lia.
  - rewrite Hw, u32_add. simpl. f_equal. lia.
  - simpl in Hl. lia.
  - by apply (ring_pop PIPESIZE eq_refl pipe_div _ _ c).
Qed.

(** * What the calls do to the queue *)

(** Same pipe but for the queue, with the lock free and [ws] woken. *)
Definition same_pipe (p p' : pipe) (ws : list chan) : Prop :=
  pp_lock p' = false /\ pp_readopen p' = pp_readopen p /\ pp_writeopen p' = pp_writeopen p /\
  pp_woken p' = pp_woken p ++ ws.

(** The ends of a stretch of [pipewrite] that has stored [m] of its [k]
    remaining bytes, from counter [i], and left [l] in the pipe. *)
Definition write_end (killed : bool) (p : pipe) (n i : Z) (k m : nat) (l : list Z)
    (r : stretch Z) (ws : list chan) : Prop :=
  (m = k /\ r = Return n /\ ws = [CPipeRead]) \/
  (m < k)%nat /\ Z.of_nat (length l) = PIPESIZE /\
  ((pp_readopen p = false \/ killed = true) /\ r = Return (-1) /\ ws = [] \/
   pp_readopen p = true /\ killed = false /\ r = Asleep CPipeWrite (i + Z.of_nat m) /\ ws = [CPipeRead]).

Lemma pipewrite_loop_ok killed addr n i k p l :
  holds p l -> pp_lock p = true -> 0 <= i -> (Z.to_nat i + k <= length addr)%nat ->
  exists m r p' ws, pipewrite_loop killed addr n i k p = Ok r p' /\
    holds p' (l ++ take m (drop (Z.to_nat i) addr)) /\ (m <= k)%nat /\ same_pipe p p' ws /\
    pp_nwrite p' = u32 (pp_nwrite p + Z.of_nat m) /\
    write_end killed p n i k m (l ++ take m (drop (Z.to_nat i) addr)) r ws.
Proof.
  revert i p l. induction k as [|k IH]; intros i p l Hp Hk Hi Hlen.
  - destruct Hp as [? Hn Hw ? ?]. simpl. unfold bind, release_pipe, release. simpl. rewrite Hk.
    exists 0%nat. eexists _, _, _. split; [reflexivity|]. rewrite take_0, app_nil_r, Z.add_0_r.
    split; [done|]. split; [lia|]. split; [done|]. split; [|by left].
    rewrite Hw. unfold u32 at 2. by rewrite u32_mod_id.
  - simpl. unfold bind at 1, mget. rewrite (full_spec p l Hp).
    destruct (Z.eqb_spec (Z.of_nat (length l)) PIPESIZE) as [Hf|Hf].
    + destruct Hp as [Hd Hn Hw Hl Hat].
      assert (pp_nwrite p = u32 (pp_nwrite p + Z.of_nat 0)) as Hw0.
      { rewrite Hw, Z.add_0_r. unfold u32 at 2. by rewrite u32_mod_id. }
      destruct (negb (pp_readopen p) || killed) eqn:Hc; unfold bind, release_pipe, release; simpl; rewrite Hk.
      * exists 0%nat, (Return (-1)), (set_pp_lock false p), []. split; [done|]. rewrite take_0, app_nil_r.
        split; [done|]. split; [lia|]. split; [by unfold same_pipe; rewrite app_nil_r|]. split; [done|].
        right. split; [lia|]. split; [done|]. left. by destruct (pp_readopen p), killed; auto.
      * exists 0%nat. eexists _, _, _. split; [reflexivity|]. rewrite take_0, app_nil_r.
        split; [done|]. split; [lia|]. split; [done|]. split; [done|].
        right. split; [lia|]. split; [done|]. right. rewrite Z.add_0_r. by destruct (pp_readopen p), killed.
    + destruct (put_holds p l (nth (Z.to_nat i) addr 0) Hp) as (p1 & E & Hp1 & El & Er & Ew & Ewk & Enw & _).
      { destruct Hp. lia. }
      rewrite (bind_ok _ _ _ _ _ E).
      destruct (IH (i + 1) p1 _ Hp1) as (m & r & p2 & ws & E2 & Hp2 & Hm & (Hs1 & Hs2 & Hs3 & Hs4) & Hnw & He);
        [congruence|lia|lia|].
      exists (S m), r, p2, ws. split; [done|].
      assert (l ++ take (S m) (drop (Z.to_nat i) addr) =
              (l ++ [nth (Z.to_nat i) addr 0]) ++ take m (drop (Z.to_nat (i + 1)) addr)) as ->.
      { destruct (lookup_lt_is_Some_2 addr (Z.to_nat i)) as [x Hx]; [lia|].
        rewrite (drop_S addr x (Z.to_nat i) Hx), <- app_assoc. simpl.
        rewrite (nth_lookup_Some _ _ _ _ Hx). by replace (Z.to_nat (i + 1)) with (S (Z.to_nat i)) by lia. }
      split; [done|]. split; [lia|]. split; [unfold same_pipe; rewrite <- Er, <- Ew, <- Ewk; done|]. split.
      { rewrite Hnw, Enw, u32_add. f_equal. lia. }
      destruct He as [(-> & -> & ->)|(Hlt & Hfl & He)]; [by left|]. right. split; [lia|]. split; [done|].
      rewrite Er in He. replace (i + 1 + Z.of_nat m) with (i + Z.of_nat (S m)) in He by lia. done.
Qed.

Lemma piperead_copy_ok k p l :
  holds p l ->
  exists p', piperead_copy k p = Ok (take k l) p' /\ holds p' (drop k l) /\ pp_lock p' = pp_lock p /\
    pp_readopen p' = pp_readopen p /\ pp_writeopen p' = pp_writeopen p /\ pp_woken p' = pp_woken p.
Proof.
  revert p l. induction k as [|k IH]; intros p l Hp; simpl; [by exists p|].
  unfold bind at 1, mget. rewrite (empty_spec p l Hp). destruct l as [|c l]; simpl; [by exists p|].
  destruct (take1_holds p c l Hp) as (p1 & E & Hp1 & E1 & E2 & E3 & E4).
  rewrite (bind_ok _ _ _ _ _ E). destruct (IH p1 l Hp1) as (p2 & F & Hp2 & F1 & F2 & F3 & F4).
  rewrite (bind_ok _ _ _ _ _ F). exists p2. repeat split; try done; try congruence; apply Hp2.
Qed.

(** The ends of a stretch of [piperead] on a pipe that holds [l]. *)
Lemma piperead_ok killed n p l :
  holds p l -> pp_lock p = false ->
  exists r p' ws, piperead killed n p = Ok r p' /\ same_pipe p p' ws /\
    (l = [] /\ pp_writeopen p = true /\ holds p' [] /\ ws = [] /\
       r = (if killed then Return (-1, []) else Asleep CPipeRead 0) \/
     (l <> [] \/ pp_writeopen p = false) /\ holds p' (drop (Z.to_nat n) l) /\ ws = [CPipeWrite] /\
       r = Return (Z.of_nat (length (take (Z.to_nat n) l)), take (Z.to_nat n) l)).
Proof.
  intros Hp Hk. unfold piperead, acquire_pipe, acquire, bind at 1. rewrite Hk.
  assert (holds (set_pp_lock true p) l) as Hp1 by (destruct Hp; split; done).
  unfold bind at 1, mget. rewrite (empty_spec _ l Hp1).
  destruct ((Z.of_nat (length l) =? 0) && pp_writeopen (set_pp_lock true p)) eqn:Hc.
  - apply andb_true_iff in Hc as [He Hw]. destruct l; [|discriminate He]. simpl in Hw.
    destruct killed; eexists _, _, _; (split; [reflexivity|]); unfold same_pipe; simpl;
      (split; [by rewrite app_nil_r|]); left; repeat split; try done; apply Hp.
  - destruct (piperead_copy_ok (Z.to_nat n) _ _ Hp1) as (p2 & F & Hp2 & F1 & F2 & F3 & F4).
    rewrite (bind_ok _ _ _ _ _ F). unfold bind, wakeup_pipe, modify, release_pipe, release. simpl.
    rewrite F1. simpl. eexists _, _, _. split; [reflexivity|]. unfold same_pipe. simpl in *.
    split; [by rewrite F2, F3, F4|]. right. repeat split; try done; try apply Hp2.
    apply andb_false_iff in Hc as [Hc|Hc]; [|by right]. left. by destruct l.
Qed.

(** * The processes of a pipe *)

(** A call in progress: a write of [buf] that has got to counter [i], or a read
    of [n] bytes; asleep on a channel, or runnable again. *)
Inductive pcall : Type :=
| Wr (buf : list Z) (i : Z)
| Rd (n : Z).

Record psys := PSys {
  sp : pipe;
  calls : gmap Z (pcall * option chan);
  killed : gset Z;
  sent : list Z;
  recv : list Z
}.

Definition awake (ws : list chan) (x : pcall * option chan) : pcall * option chan :=
  (x.1, match x.2 with Some c => if decide (c ∈ ws) then None else Some c | None => None end).

(** The calls after the wakeups of a stretch, with the call of process [q] gone
    or asleep. *)
Definition settled {A} (q : Z) (back : Z -> pcall) (r : stretch A) (ws : list chan)
    (cs : gmap Z (pcall * option chan)) : gmap Z (pcall * option chan) :=
  let cs' := awake ws <$> delete q cs in
  match r with
  | Return _ => cs'
  | Asleep c i => <[q := (back i, Some c)]> cs'
  end.

Definition quiet_pipe (p : pipe) : pipe :=
  Pipe (pp_lock p) (pp_data p) (pp_nread p) (pp_nwrite p) (pp_readopen p) (pp_writeopen p) [].

(** The bytes a stretch of a write has stored: the counter [nwrite] tells how
    many there are. *)
Definition stored (buf : list Z) (i : Z) (p p' : pipe) : list Z :=
  take (Z.to_nat (u32 (pp_nwrite p' - pp_nwrite p))) (drop (Z.to_nat i) buf).

Definition dead (y : psys) (q : Z) : bool := bool_decide (q ∈ killed y).

Inductive pstep : psys -> psys -> Prop :=
| ps_write y q buf i r p' :
    (calls y !! q = None /\ i = 0 \/ calls y !! q = Some (Wr buf i, None)) ->
    pp_writeopen (sp y) = true ->
    pipewrite_from (dead y q) buf (Z.of_nat (length buf)) i (quiet_pipe (sp y)) = Ok r p' ->
    pstep y (PSys p' (settled q (Wr buf) r (pp_woken p') (calls y)) (killed y)
               (sent y ++ stored buf i (sp y) p') (recv y))
| ps_read y q n r p' :
    (calls y !! q = None \/ calls y !! q = Some (Rd n, None)) ->
    pp_readopen (sp y) = true ->
    piperead (dead y q) n (quiet_pipe (sp y)) = Ok r p' ->
    pstep y (PSys p' (settled q (fun _ => Rd n) r (pp_woken p') (calls y)) (killed y)
               (sent y) (recv y ++ match r with Return (_, bs) => bs | _ => [] end))
| ps_close y w r p' :
    (forall q x, calls y !! q = Some x ->
       match x.1 with Wr _ _ => w = false | Rd _ => w = true end) ->
    pipeclose w (quiet_pipe (sp y)) = Ok r p' ->
    pstep y (PSys p' (awake (pp_woken p') <$> calls y) (killed y) (sent y) (recv y))
| ps_kill y q :
    pstep y (PSys (sp y) (alter (fun x => (x.1, None)) q (calls y)) ({[q]} ∪ killed y) (sent y) (recv y)).

Inductive preach : psys -> Prop :=
| pr_new p : length (pp_data p) = Z.to_nat PIPESIZE -> preach (PSys (pipeinit p) ∅ ∅ [] [])
| pr_next y y' : preach y -> pstep y y' -> preach y'.

(** A sleeping writer has a full pipe with an open read end in front of it; a
    reader has an open read end, and when it sleeps an open write end, and an
    empty pipe as long as nobody has been killed. *)
Definition waits (y : psys) (l : list Z) (q : Z) (x : pcall * option chan) : Prop :=
  match x with
  | (Wr buf i, st) => 0 <= i <= Z.of_nat (length buf) /\
      (st <> None -> st = Some CPipeWrite /\ Z.of_nat (length l) = PIPESIZE /\ pp_readopen (sp y) = true /\
         q ∉ killed y)
  | (Rd n, st) => pp_readopen (sp y) = true /\
      (st <> None -> st = Some CPipeRead /\ pp_writeopen (sp y) = true /\ q ∉ killed y /\
         (killed y = ∅ -> l = []))
  end.

Record psinv (y : psys) : Prop := PSInv {
  pi_lock : pp_lock (sp y) = false;
  pi_queue : exists l, holds (sp y) l /\ sent y = recv y ++ l /\
    forall q x, calls y !! q = Some x -> waits y l q x
}.

Lemma quiet_holds p l : holds p l -> holds (quiet_pipe p) l.
Proof. intros []. by split. Qed.

Lemma holds_lock p l b : holds p l -> holds (set_pp_lock b p) l.
Proof. intros []. by split. Qed.

(** What the state of a call needs after wakeups and a change of the pipe. *)
Lemma waits_awake y y' l l' q x ws :
  waits y l q x ->
  killed y' = killed y ->
  pp_readopen (sp y') = pp_readopen (sp y) -> pp_writeopen (sp y') = pp_writeopen (sp y) ->
  (CPipeWrite ∈ ws \/ (Z.of_nat (length l) = PIPESIZE -> Z.of_nat (length l') = PIPESIZE)) ->
  (pp_readopen (sp y) = true -> CPipeRead ∈ ws \/ (killed y = ∅ -> l = [] -> l' = [])) ->
  waits y' l' q (awake ws x).
Proof.
  destruct x as [[buf i|n] st]; unfold awake, waits; cbn [fst snd]; intros Hx Ek Er Ew Hfull Hempty;
    rewrite Ek, Er; try rewrite Ew.
  - destruct Hx as [Hi Hst]. split; [done|]. destruct st as [c|]; [|done].
    destruct (Hst ltac:(done)) as ([= ->] & H1 & H2 & H3).
    destruct (decide (CPipeWrite ∈ ws)) as [|Hn]; [done|]. destruct Hfull as [|Hfull]; [done|]. auto.
  - destruct Hx as [Hro Hst]. split; [done|]. destruct st as [c|]; [|done].
    destruct (Hst ltac:(done)) as ([= ->] & H1 & H2 & H3).
    destruct (decide (CPipeRead ∈ ws)) as [|Hn]; [done|]. destruct (Hempty Hro) as [|Hem]; [done|]. intros _. split_and!; auto.
Qed.

Lemma settled_waits {A} y y' l l' q0 back (r : stretch A) ws :
  (forall q x, calls y !! q = Some x -> waits y l q x) ->
  killed y' = killed y ->
  pp_readopen (sp y') = pp_readopen (sp y) -> pp_writeopen (sp y') = pp_writeopen (sp y) ->
  (CPipeWrite ∈ ws \/ (Z.of_nat (length l) = PIPESIZE -> Z.of_nat (length l') = PIPESIZE)) ->
  (pp_readopen (sp y) = true -> CPipeRead ∈ ws \/ (killed y = ∅ -> l = [] -> l' = [])) ->
  (forall c i, r = Asleep c i -> waits y' l' q0 (back i, Some c)) ->
  forall q x, settled q0 back r ws (calls y) !! q = Some x -> waits y' l' q x.
Proof.
  intros Hw Ek Er Ew Hf He Hq0 q x Hx.
  assert (forall x, (awake ws <$> delete q0 (calls y)) !! q = Some x -> waits y' l' q x) as Hrest.
  { intros x'. rewrite lookup_fmap. intros (x0 & Hx0 & ->)%fmap_Some.
    apply lookup_delete_Some in Hx0 as [_ Hx0]. eapply waits_awake; eauto. }
  unfold settled in Hx. destruct r as [r|c i]; [by apply Hrest|].
  apply lookup_insert_Some in Hx as [[<- <-]|[_ Hx]]; [by apply Hq0|by apply Hrest].
Qed.

Lemma step_write y q buf i r p' :
  psinv y -> (calls y !! q = None /\ i = 0 \/ calls y !! q = Some (Wr buf i, None)) ->
  pipewrite_from (dead y q) buf (Z.of_nat (length buf)) i (quiet_pipe (sp y)) = Ok r p' ->
  psinv (PSys p' (settled q (Wr buf) r (pp_woken p') (calls y)) (killed y)
           (sent y ++ stored buf i (sp y) p') (recv y)).
Proof.
  intros [Hk (l & Hh & Hs & Hw)] Hq E.
  assert (0 <= i <= Z.of_nat (length buf)) as Hi.
  { destruct Hq as [[_ ->]|Hq]; [lia|]. by apply (Hw _ _ Hq). }
  unfold pipewrite_from, acquire_pipe, acquire, bind at 1 in E. simpl in E. rewrite Hk in E.
  destruct (pipewrite_loop_ok (dead y q) buf (Z.of_nat (length buf)) i
    (Z.to_nat (Z.of_nat (length buf) - i)) (set_pp_lock true (quiet_pipe (sp y))) l)
    as (m & r' & p2 & ws & E2 & Hh2 & Hm & (S1 & S2 & S3 & S4) & Hnw & He); [by apply holds_lock, quiet_holds|done|lia|lia|].
  rewrite E2 in E. injection E as -> ->. simpl in S2, S3, S4, Hnw.
  assert (stored buf i (sp y) p' = take m (drop (Z.to_nat i) buf)) as Hst.
  { unfold stored. f_equal. rewrite Hnw. unfold u32.
    rewrite Zminus_mod_idemp_l. replace (_ + Z.of_nat m - _) with (Z.of_nat m) by lia.
    pose proof (ho_len _ _ Hh2) as Hl2. rewrite length_app, length_take, length_drop in Hl2.
    unfold PIPESIZE in Hl2. rewrite Z.mod_small; lia. }
  split; [done|]. exists (l ++ take m (drop (Z.to_nat i) buf)). split; [done|].
  split; [by rewrite Hst, Hs, app_assoc|]. rewrite S4.
  pose proof (ho_len _ _ Hh2) as Hl2. rewrite length_app in Hl2.
  eapply (settled_waits y); [exact Hw|done|done|done|right; rewrite length_app; lia| |].
  - intros Hro. destruct He as [(-> & -> & ->)|(_ & _ & [([Hr|Hd] & -> & ->)|(_ & _ & -> & ->)])].
    + left. set_solver.
    + simpl in Hr. congruence.
    + right. intros Hk0. unfold dead in Hd. apply bool_decide_eq_true in Hd. set_solver.
    + left. set_solver.
  - intros c j ->. destruct He as [(_ & [=] & _)|(Hlt & Hfl & [(_ & [=] & _)|(Hr & Hd & [= -> ->] & ->)])].
    simpl in Hr. simpl. split; [lia|]. intros _. split; [done|]. split; [done|]. split; [congruence|].
    unfold dead in Hd. by apply bool_decide_eq_false in Hd.
Qed.

Lemma step_read y q n r p' :
  psinv y -> (calls y !! q = None \/ calls y !! q = Some (Rd n, None)) -> pp_readopen (sp y) = true ->
  piperead (dead y q) n (quiet_pipe (sp y)) = Ok r p' ->
  psinv (PSys p' (settled q (fun _ => Rd n) r (pp_woken p') (calls y)) (killed y)
           (sent y) (recv y ++ match r with Return (_, bs) => bs | _ => [] end)).
Proof.
  intros [Hk (l & Hh & Hs & Hw)] Hq Hro E.
  destruct (piperead_ok (dead y q) n (quiet_pipe (sp y)) l) as (r' & p2 & ws & E2 & (S1 & S2 & S3 & S4) & Hc);
    [by apply quiet_holds|done|].
  rewrite E2 in E. injection E as -> ->. simpl in S2, S3, S4. split; [done|]. cbn [sp sent recv calls].
  destruct Hc as [(-> & Hwo & Hh2 & -> & ->)|(Hor & Hh2 & -> & ->)].
  - exists []. split; [done|]. split; [rewrite Hs; by destruct (dead y q); rewrite !app_nil_r|]. rewrite S4.
    eapply (settled_waits y); [exact Hw|done|done|done|by right|by right|].
    + intros c j Hr. destruct (dead y q) eqn:Hd; [done|]. injection Hr as <- <-. simpl. split; [congruence|].
      intros _. simpl in Hwo. unfold dead in Hd. apply bool_decide_eq_false in Hd. by rewrite S3.
  - exists (drop (Z.to_nat n) l). split; [done|]. split; [by rewrite Hs, <- app_assoc, take_drop|]. rewrite S4.
    eapply (settled_waits y); [exact Hw|done|done|done|left; set_solver|right; intros _ ->; by rewrite drop_nil|done].
Qed.

Lemma step_close y w r p' :
  psinv y ->
  (forall q x, calls y !! q = Some x -> match x.1 with Wr _ _ => w = false | Rd _ => w = true end) ->
  pipeclose w (quiet_pipe (sp y)) = Ok r p' ->
  psinv (PSys p' (awake (pp_woken p') <$> calls y) (killed y) (sent y) (recv y)).
Proof.
  intros [Hk (l & Hh & Hs & Hw)] Hcl E.
  assert (exists ro wo ws, p' = Pipe false (pp_data (sp y)) (pp_nread (sp y)) (pp_nwrite (sp y)) ro wo [ws] /\
    if w then ro = pp_readopen (sp y) /\ ws = CPipeRead else wo = pp_writeopen (sp y) /\ ws = CPipeWrite)
    as (ro & wo & ws & -> & Hws).
  { unfold pipeclose, acquire_pipe, acquire, bind at 1 in E. simpl in E. rewrite Hk in E.
    destruct w; unfold bind, modify, mget, wakeup_pipe, release_pipe, release in E; simpl in E;
      destruct (pp_readopen (sp y)), (pp_writeopen (sp y)); simpl in E; injection E as <- <-; eauto 10. }
  split; [done|]. exists l. split; [destruct Hh; by split|]. split; [done|]. cbn [calls pp_woken].
  intros q x. rewrite lookup_fmap. intros (x0 & Hx0 & ->)%fmap_Some.
  specialize (Hcl _ _ Hx0). specialize (Hw _ _ Hx0). destruct x0 as [[buf i|n] st]; simpl in Hcl; subst w.
  - destruct Hws as [-> ->], Hw as [Hi Hst]. unfold awake, waits. simpl. split; [done|].
    destruct st as [c|]; [|done]. destruct (Hst ltac:(done)) as ([= ->] & _).
    by rewrite decide_True by set_solver.
  - destruct Hws as [-> ->], Hw as [Hi Hst]. unfold awake, waits. simpl. split; [done|].
    destruct st as [c|]; [|done]. destruct (Hst ltac:(done)) as ([= ->] & _).
    by rewrite decide_True by set_solver.
Qed.

Lemma step_pkill y q :
  psinv y ->
  psinv (PSys (sp y) (alter (fun x => (x.1, None)) q (calls y)) ({[q]} ∪ killed y) (sent y) (recv y)).
Proof.
  intros [Hk (l & Hh & Hs & Hw)]. split; [done|]. exists l. split; [done|]. split; [done|].
  cbn [calls]. intros q' x Hx. destruct (decide (q = q')) as [<-|Hne].
  - rewrite lookup_alter_eq in Hx. apply fmap_Some in Hx as (x0 & Hx0 & ->). specialize (Hw _ _ Hx0).
    destruct x0 as [[buf i|n] st]; simpl; (split; [apply Hw|done]).
  - rewrite lookup_alter_ne in Hx by done. specialize (Hw _ _ Hx).
    destruct x as [[buf i|n] st]; simpl in *; (split; [apply Hw|]); intros Hst;
      destruct Hw as [_ Hw]; specialize (Hw Hst); [set_solver|].
    destruct Hw as (? & ? & ? & _). split_and!; [done|done|set_solver|]. intros E. set_solver.
Qed.

Lemma preach_psinv y : preach y -> psinv y.
Proof.
  induction 1 as [p Hp|y y' _ IH Hst].
  - split; [done|]. exists []. split; [|split; [done|by intros q x Hx]].
    split; try done; simpl; unfold is_u32, PIPESIZE; lia.
  - destruct Hst; eauto using step_write, step_read, step_close, step_pkill.
Qed.

(** C13. A pipe is a bounded queue: whatever the interleaving of reads, writes,
    closes and kills, the bytes that have been read are exactly the bytes that
    have been written, in order, up to those still in the pipe, of which there
    are at most [PIPESIZE], and the next read that does not have to wait returns
    the first of these, all of them or as many as it asks for.  The two counters
    may wrap. *)
Theorem pipe_is_fifo y :
  preach y ->
  exists l, sent y = recv y ++ l /\ Z.of_nat (length l) <= PIPESIZE /\
    pp_nwrite (sp y) = u32 (pp_nread (sp y) + Z.of_nat (length l)) /\
    forall k n, l <> [] \/ pp_writeopen (sp y) = false ->
      exists p', piperead k n (sp y) =
        Ok (Return (Z.of_nat (length (take (Z.to_nat n) l)), take (Z.to_nat n) l)) p'.
Proof.
  intros Hr. destruct (preach_psinv y Hr) as [Hk (l & Hh & Hs & _)]. exists l.
  split; [done|]. split; [apply Hh|]. split; [apply Hh|]. intros k n Hor.
  destruct (piperead_ok k n (sp y) l Hh Hk) as (r & p' & ws & E & _ & [(-> & Hwo & _)|(_ & _ & _ & ->)]);
    [|by exists p'].
  destruct Hor; congruence.
Qed.


(** ** Schedules *)

Inductive pact : Type :=
| AWrite (q : Z) (buf : list Z) | AResume (q : Z) | ARead (q n : Z) | AKill (q : Z).

Definition run_write (y : psys) (q : Z) (buf : list Z) (i : Z) : option psys :=
  match pipewrite_from (dead y q) buf (Z.of_nat (length buf)) i (quiet_pipe (sp y)) with
  | Ok r p' => Some (PSys p' (settled q (Wr buf) r (pp_woken p') (calls y)) (killed y)
                      (sent y ++ stored buf i (sp y) p') (recv y))
  | _ => None
  end.

Definition run_pact (a : pact) (y : psys) : option psys :=
  match a with
  | AWrite q buf =>
      match calls y !! q with
      | None => if pp_writeopen (sp y) then run_write y q buf 0 else None
      | _ => None
      end
  | AResume q =>
      match calls y !! q with
      | Some (Wr buf i, None) => if pp_writeopen (sp y) then run_write y q buf i else None
      | _ => None
      end
  | ARead q n =>
      match calls y !! q with
      | None =>
          if pp_readopen (sp y) then
            match piperead (dead y q) n (quiet_pipe (sp y)) with
            | Ok r p' => Some (PSys p' (settled q (fun _ => Rd n) r (pp_woken p') (calls y)) (killed y)
                                (sent y) (recv y ++ match r with Return (_, bs) => bs | _ => [] end))
            | _ => None
            end
          else None
      | _ => None
      end
  | AKill q => Some (PSys (sp y) (alter (fun x => (x.1, None)) q (calls y)) ({[q]} ∪ killed y) (sent y) (recv y))
  end.

Fixpoint run_pacts (l : list pact) (y : psys) : option psys :=
  match l with
  | [] => Some y
  | a :: l' => y' ← run_pact a y; run_pacts l' y'
  end.

Lemma run_pact_ok a y y' : run_pact a y = Some y' -> pstep y y'.
Proof.
  destruct a as [q buf|q|q n|q]; simpl; unfold run_write.
  - destruct (calls y !! q) eqn:Hq; [done|]. destruct (pp_writeopen _) eqn:Ho; [|done].
    destruct (pipewrite_from _ _ _ _ _) eqn:E; [|done..]. intros [= <-]. econstructor; eauto.
  - destruct (calls y !! q) as [[[buf i|n] [c|]]|] eqn:Hq; [done| |done..].
    destruct (pp_writeopen _) eqn:Ho; [|done].
    destruct (pipewrite_from _ _ _ _ _) eqn:E; [|done..]. intros [= <-]. econstructor; eauto.
  - destruct (calls y !! q) eqn:Hq; [done|]. destruct (pp_readopen _) eqn:Ho; [|done].
    destruct (piperead _ _ _) eqn:E; [|done..]. intros [= <-]. econstructor; eauto.
  - intros [= <-]. constructor.
Qed.

Lemma run_pacts_ok l y y' : preach y -> run_pacts l y = Some y' -> preach y'.
Proof.
  revert y. induction l as [|a l IH]; intros y Hr; simpl; [by intros [= <-]|].
  intros (y1 & E1 & E2)%bind_Some. eapply IH; [|exact E2]. eapply pr_next; [done|]. by eapply run_pact_ok.
Qed.

Definition new_pipe : psys := PSys (pipeinit (Pipe false (replicate 512 0) 0 0 false false [])) ∅ ∅ [] [].
Definition run_new (l : list pact) : psys := default new_pipe (run_pacts l new_pipe).

Lemma run_new_reach l : is_Some (run_pacts l new_pipe) -> preach (run_new l).
Proof.
  intros [y E]. unfold run_new. rewrite E. eapply run_pacts_ok; [|exact E].
  apply (pr_new (Pipe false (replicate 512 0) 0 0 false false [])). done.
Qed.

(** Process 1 writes 600 bytes, and process 2 reads 100. *)
Definition demo_pipe : psys := run_new [AWrite 1 (seqZ 0 600); ARead 2 100].

Lemma pipe_is_fifo_witness :
  exists l, sent demo_pipe = recv demo_pipe ++ l /\ Z.of_nat (length l) <= PIPESIZE /\
    pp_nwrite (sp demo_pipe) = u32 (pp_nread (sp demo_pipe) + Z.of_nat (length l)) /\
    forall k n, l <> [] \/ pp_writeopen (sp demo_pipe) = false ->
      exists p', piperead k n (sp demo_pipe) =
        Ok (Return (Z.of_nat (length (take (Z.to_nat n) l)), take (Z.to_nat n) l)) p'.
Proof. apply pipe_is_fifo. apply run_new_reach. vm_compute. eauto. Defined.


(** Process 1 fills the pipe and sleeps, and is killed; process 2 empties the
    pipe and then waits for more; process 1 goes on. *)
Definition lost_acts : list pact :=
  [AWrite 1 (replicate 1025 7); AKill 1; ARead 2 512; ARead 2 1; AResume 1].

(** The wakeup of a reader can be lost: a killed writer that fills the pipe
    returns -1 without [wakeup(&p->nread)], and the reader that waits sleeps on
    in front of a full pipe with no other call in progress. *)
Theorem killed_writer_loses_wakeup :
  preach (run_new lost_acts) /\ calls (run_new lost_acts) = {[2 := (Rd 1, Some CPipeRead)]} /\
  pp_nwrite (sp (run_new lost_acts)) = u32 (pp_nread (sp (run_new lost_acts)) + PIPESIZE) /\
  2 ∉ killed (run_new lost_acts).
Proof.
  split; [apply run_new_reach; vm_compute; eauto|]. split; [vm_compute; reflexivity|].
  split; [vm_compute; reflexivity|]. apply (bool_decide_unpack _). vm_compute. exact I.
Qed.
