(* ===== verification/Kalloc.v ===== *)
(** The page allocator (kalloc.c): the free list lives in the free pages
    themselves, in the byte memory of Mem.v.  The proof that it hands out every
    page of its pool at most once and leaves the pages in use alone. *)
From stdpp Require Import base numbers list gmap sets strings.
From Stdlib Require Import ZArith Lia.
From S2P Require Import Prelude Bytes Mem.

(** mmu.h and memlayout.h. *)
Definition PGSIZE : Z := 4096.
Definition PGROUNDUP (sz : Z) : Z := Z.land (u32 (sz + PGSIZE - 1)) (Z.lnot (PGSIZE - 1)).
Definition PGROUNDDOWN (a : Z) : Z := Z.land a (Z.lnot (PGSIZE - 1)).
Definition PHYSTOP : Z := 0xE000000.
Definition KERNBASE : Z := 0x80000000.
Definition V2P (a : Z) : Z := u32 (a - KERNBASE).
Definition P2V (a : Z) : Z := u32 (a + KERNBASE).

(** [struct kmem], with the memory whose pages it manages. *)
Record kmem := Kmem {
  km_lock : bool;
  km_use_lock : bool;
  km_freelist : Z;
  km_mem : mem
}.

Definition set_km_lock (b : bool) (k : kmem) : kmem :=
  Kmem b (km_use_lock k) (km_freelist k) (km_mem k).
Definition set_use_lock (b : bool) (k : kmem) : kmem :=
  Kmem (km_lock k) b (km_freelist k) (km_mem k).
Definition set_freelist (r : Z) (k : kmem) : kmem :=
  Kmem (km_lock k) (km_use_lock k) r (km_mem k).
Definition set_km_mem (m : mem) (k : kmem) : kmem :=
  Kmem (km_lock k) (km_use_lock k) (km_freelist k) m.

(** The accesses of kalloc.c to [kmem.lock], which depend on [use_lock]. *)
Definition acquire_km : M kmem unit :=
  u <- gets km_use_lock ;; when u (acquire km_lock set_km_lock).
Definition release_km : M kmem unit :=
  u <- gets km_use_lock ;; when u (release km_lock set_km_lock).

Section kalloc.
(** [end]: the first address after the kernel, from the linker script. *)
Context (kend : Z).

Definition kfree (v : Z) : M kmem unit :=
  if negb (v mod PGSIZE =? 0) || (v <? kend) || (PHYSTOP <=? V2P v) then panic "kfree" else
  modify (fun k => set_km_mem (memset (km_mem k) v 1 PGSIZE) k) ;;
  acquire_km ;;
  next <- gets km_freelist ;;
  modify (fun k => set_km_mem (st32 (km_mem k) v next) k) ;;
  modify (set_freelist v) ;;
  release_km.

Definition kalloc : M kmem Z :=
  acquire_km ;;
  r <- gets km_freelist ;;
  when (negb (r =? 0)) (modify (fun k => set_freelist (ld32 (km_mem k) r) k)) ;;
  release_km ;;
  ret r.

(** The loop of [freerange] from [p]. *)
Fixpoint freerange_loop (p vend : Z) (fuel : nat) : M kmem unit :=
  match fuel with
  | O => diverge
  | S f =>
      if u32 (p + PGSIZE) <=? vend then
        kfree p ;;
        freerange_loop (u32 (p + PGSIZE)) vend f
      else ret tt
  end.

Definition freerange (vstart vend : Z) : M kmem unit :=
  freerange_loop (PGROUNDUP vstart) vend (S (Z.to_nat (vend / PGSIZE))).

Definition kinit1 (vstart vend : Z) : M kmem unit :=
  modify (set_km_lock false) ;;
  modify (set_use_lock false) ;;
  freerange vstart vend.

Definition kinit2 (vstart vend : Z) : M kmem unit :=
  freerange vstart vend ;;
  modify (set_use_lock true).
End kalloc.

(** * The free list *)

Definition in_page (v a : Z) : Prop := v <= a < v + PGSIZE.

(** [l] is the list of pages that starts at [r]. *)
Fixpoint chain (m : mem) (r : Z) (l : list Z) : Prop :=
  match l with
  | [] => r = 0
  | v :: l' => r = v /\ v <> 0 /\ chain m (ld32 m v) l'
  end.

Lemma chain_frame m m' r l :
  (forall v a, v ∈ l -> in_page v a -> ld m' a = ld m a) -> chain m r l -> chain m' r l.
Proof.
  revert r. induction l as [|v l IH]; intros r Hf; simpl; [done|].
  intros (-> & Hv & Hc). split; [done|]. split; [done|]. apply IH.
  - intros v' a Hv'. apply Hf. set_solver.
  - assert (ld32 m' v = ld32 m v) as ->; [|done].
    unfold ld32. rewrite !(Hf v); try done; try set_solver; unfold in_page, PGSIZE; lia.
Qed.

Section pages.
Context (kend : Z).

(** The pages that [kfree] accepts. *)
Definition is_page (v : Z) : Prop := v mod PGSIZE = 0 /\ kend <= v < KERNBASE + PHYSTOP.

Context (Hend : KERNBASE <= kend).

Lemma page_range v : is_page v -> 0 < v /\ v + PGSIZE <= 2 ^ 32.
Proof. unfold is_page, KERNBASE, PHYSTOP, PGSIZE in *. lia. Qed.

Lemma page_check v : is_page v ->
  negb (v mod PGSIZE =? 0) || (v <? kend) || (PHYSTOP <=? V2P v) = false.
Proof.
  intros [Hm Hr]. rewrite Hm. simpl. apply orb_false_iff. split; [apply Z.ltb_ge; lia|].
  apply Z.leb_gt. unfold V2P. rewrite u32_small; unfold KERNBASE, PHYSTOP in *; lia.
Qed.

Lemma pages_apart v w a : v mod PGSIZE = 0 -> w mod PGSIZE = 0 -> in_page v a -> in_page w a -> v = w.
Proof.
  unfold in_page, PGSIZE. intros Hv Hw Ha Hb.
  pose proof (Z.div_mod v 4096 ltac:(lia)). pose proof (Z.div_mod w 4096 ltac:(lia)). lia.
Qed.

(** The allocator at rest, with the free pages [l]. *)
Record kfree_list (k : kmem) (l : list Z) : Prop := KFree {
  kf_lock : km_lock k = false;
  kf_chain : chain (km_mem k) (km_freelist k) l;
  kf_nodup : NoDup l;
  kf_pages : forall v, v ∈ l -> is_page v
}.

Lemma acquire_release_km k :
  km_lock k = false ->
  acquire_km k = Ok tt (set_km_lock (km_use_lock k) k) /\
  forall k', km_lock k' = km_use_lock k' -> release_km k' = Ok tt (set_km_lock false k').
Proof.
  intros Hk. split.
  - unfold acquire_km, bind, gets, when, acquire. destruct k as [lk [|] f m]; simpl in *; by subst.
  - intros [lk [|] f m] E; simpl in E; subst; done.
Qed.

(** [kfree] puts the page in front of the list, and writes inside the page
    only. *)
Lemma kfree_ok k l v :
  kfree_list k l -> is_page v -> v ∉ l ->
  exists k', kfree kend v k = Ok tt k' /\ kfree_list k' (v :: l) /\ km_use_lock k' = km_use_lock k /\
    forall a, ~ in_page v a -> ld (km_mem k') a = ld (km_mem k) a.
Proof.
  intros [Hlk Hc Hnd Hp] Hv Hnv. destruct (page_range v Hv) as [Hv0 Hv1].
  unfold kfree. rewrite (page_check v Hv). unfold bind at 1, modify.
  set (k1 := set_km_mem _ k). destruct (acquire_release_km k1 Hlk) as [Ha Hr].
  rewrite (bind_ok _ _ _ _ _ Ha). unfold bind, gets. rewrite Hr by done.
  eexists. split; [reflexivity|]. simpl.
  assert (forall a, ~ in_page v a ->
    ld (st32 (memset (km_mem k) v 1 PGSIZE) v (km_freelist k)) a = ld (km_mem k) a) as Hfr.
  { intros a Hna. rewrite ld_st32_ne by (unfold in_page, PGSIZE in Hna; lia).
    rewrite ld_memset by (unfold PGSIZE in *; lia). by rewrite decide_False. }
  split; [|done]. split; simpl; [done| | |].
  - split; [done|]. split; [lia|]. rewrite ld32_st32_eq, u32_small.
    + apply (chain_frame (km_mem k)); [|done]. intros w a Hw Hwa. apply Hfr. intros Hva.
      apply Hnv. rewrite (pages_apart v w a); [done|apply Hv|by apply Hp|done|done].
    + destruct l as [|w l]; simpl in Hc; [by rewrite Hc|]. destruct Hc as [-> _].
      destruct (page_range w); [apply Hp; set_solver|]. unfold PGSIZE in *. lia.
  - by apply NoDup_cons.
  - intros w [->|Hw]%elem_of_cons; [done|by apply Hp].
Qed.

Lemma kalloc_ok k l :
  kfree_list k l ->
  exists k', kalloc k = Ok (default 0 (head l)) k' /\ kfree_list k' (tail l) /\
    km_use_lock k' = km_use_lock k /\ km_mem k' = km_mem k.
Proof.
  intros [Hlk Hc Hnd Hp]. unfold kalloc. destruct (acquire_release_km k Hlk) as [Ha Hr].
  rewrite (bind_ok _ _ _ _ _ Ha). unfold bind, gets, modify, when. simpl.
  destruct l as [|v l]; simpl in *.
  - rewrite Hc. simpl. rewrite Hr by done. eexists. split; [reflexivity|]. by split.
  - destruct Hc as (-> & Hv & Hc). rewrite (proj2 (Z.eqb_neq v 0) Hv). simpl. rewrite Hr by done.
    eexists. split; [reflexivity|]. apply NoDup_cons in Hnd as [_ Hnd].
    split; [|done]. split; simpl; try done. intros w Hw. apply Hp. set_solver.
Qed.

(** The pages of [p, p + n * PGSIZE), from the top down. *)
Fixpoint pages_down (p : Z) (n : nat) : list Z :=
  match n with O => [] | S n' => pages_down (p + PGSIZE) n' ++ [p] end.

Lemma elem_of_pages_down p n v :
  v ∈ pages_down p n <-> exists i, 0 <= i < Z.of_nat n /\ v = p + i * PGSIZE.
Proof.
  revert p. induction n as [|n IH]; intros p; simpl.
  - split; [by intros ?%elem_of_nil|]. intros (i & Hi & _). lia.
  - rewrite elem_of_app, IH, list_elem_of_singleton. split.
    + intros [(i & Hi & ->)| ->]; [exists (i + 1)|exists 0]; split; lia.
    + intros (i & Hi & ->). destruct (decide (i = 0)) as [->|]; [right; lia|left].
      exists (i - 1). split; lia.
Qed.

Lemma freerange_loop_ok fuel p vend n k l :
  p mod PGSIZE = 0 -> kend <= p -> vend <= KERNBASE + PHYSTOP -> p <= KERNBASE + PHYSTOP ->
  p + Z.of_nat n * PGSIZE <= vend \/ n = 0%nat -> vend < p + (Z.of_nat n + 1) * PGSIZE ->
  (n < fuel)%nat -> kfree_list k l -> (forall v, v ∈ l -> v < p) ->
  exists k', freerange_loop kend p vend fuel k = Ok tt k' /\ kfree_list k' (pages_down p n ++ l) /\
    km_use_lock k' = km_use_lock k /\
    forall a, a < p \/ p + Z.of_nat n * PGSIZE <= a -> ld (km_mem k') a = ld (km_mem k) a.
Proof.
  revert p n k l. induction fuel as [|fuel IH]; intros p n k l Hm Hp Hve Hpt Hn1 Hn2 Hf Hk Hl; [lia|].
  simpl. rewrite u32_small by (unfold KERNBASE, PHYSTOP, PGSIZE in *; lia).
  destruct (Z.leb_spec (p + PGSIZE) vend) as [Hle|Hgt].
  - destruct n as [|n]; [unfold PGSIZE in *; lia|].
    assert (is_page p) as Hpg by (split; [done|unfold PGSIZE in *; lia]).
    destruct (kfree_ok k l p Hk Hpg) as (k1 & E1 & Hk1 & Hu1 & Hf1); [intros Hin; specialize (Hl p Hin); lia|].
    rewrite (bind_ok _ _ _ _ _ E1).
    destruct (IH (p + PGSIZE) n k1 (p :: l)) as (k2 & E2 & Hk2 & Hu2 & Hf2); try done; try (unfold PGSIZE in *; lia).
    + rewrite <- Zplus_mod_idemp_r, Z_mod_same_full, Z.add_0_r. done.
    + intros v [->|Hv]%elem_of_cons; [unfold PGSIZE; lia|]. specialize (Hl v Hv). unfold PGSIZE. lia.
    + exists k2. split; [done|]. split; [simpl; by rewrite <- app_assoc|]. split; [congruence|].
      intros a Ha. rewrite Hf2, Hf1; [done|unfold in_page, PGSIZE in *; lia|unfold PGSIZE in *; lia].
  - destruct n as [|n]; [|unfold PGSIZE in *; lia]. exists k. split; [done|]. split; [done|]. split; [done|]. done.
Qed.

Lemma PGROUNDUP_spec z : 0 <= z -> z + PGSIZE <= 2 ^ 32 ->
  PGROUNDUP z mod PGSIZE = 0 /\ z <= PGROUNDUP z < z + PGSIZE.
Proof.
  intros Hz Hb. unfold PGROUNDUP. rewrite u32_small by (unfold PGSIZE in *; lia).
  change (Z.lnot (PGSIZE - 1)) with (Z.lnot (Z.ones 12)). rewrite <- Z.ldiff_land, Z.ldiff_ones_r by lia.
  rewrite Z.shiftl_mul_pow2, Z.shiftr_div_pow2 by lia. change (2 ^ 12) with PGSIZE.
  split; [apply Z.mod_mul; done|].
  pose proof (Z.div_mod (z + PGSIZE - 1) PGSIZE ltac:(done)) as E.
  pose proof (Z.mod_pos_bound (z + PGSIZE - 1) PGSIZE ltac:(done)). lia.
Qed.

(** The pages that [freerange vs ve] frees. *)
Definition range_pages (vs ve : Z) : list Z :=
  pages_down (PGROUNDUP vs) (Z.to_nat ((ve - PGROUNDUP vs) / PGSIZE)).

Lemma elem_of_range vs ve v :
  kend <= vs -> ve <= KERNBASE + PHYSTOP -> vs <= KERNBASE + PHYSTOP ->
  v ∈ range_pages vs ve <-> v mod PGSIZE = 0 /\ vs <= v /\ v + PGSIZE <= ve.
Proof.
  intros Hs He Hse. unfold range_pages. rewrite elem_of_pages_down.
  destruct (PGROUNDUP_spec vs) as [Hm Hr]; [unfold KERNBASE in *; lia|unfold KERNBASE, PHYSTOP, PGSIZE in *; lia|].
  set (p := PGROUNDUP vs) in *. clearbody p.
  pose proof (Z.div_mod (ve - p) PGSIZE ltac:(done)) as E.
  pose proof (Z.mod_pos_bound (ve - p) PGSIZE ltac:(done)).
  pose proof (Z.div_mod p PGSIZE ltac:(done)) as Ep. unfold PGSIZE in *. split.
  - intros (i & Hi & ->). split; [|lia].
    rewrite Z.mod_add by lia. done.
  - intros (Hv & Hlo & Hhi). pose proof (Z.div_mod v 4096 ltac:(done)) as Ev.
    exists (v / 4096 - p / 4096). lia.
Qed.

Lemma freerange_ok vs ve k l :
  kend <= vs -> ve <= KERNBASE + PHYSTOP -> vs <= KERNBASE + PHYSTOP ->
  kfree_list k l -> (forall v, v ∈ l -> v < vs) ->
  exists k', freerange kend vs ve k = Ok tt k' /\ kfree_list k' (range_pages vs ve ++ l) /\
    km_use_lock k' = km_use_lock k /\ forall a, a < vs -> ld (km_mem k') a = ld (km_mem k) a.
Proof.
  intros Hs He Hse Hk Hl. unfold freerange.
  destruct (PGROUNDUP_spec vs) as [Hm Hr]; [unfold KERNBASE in *; lia|unfold KERNBASE, PHYSTOP, PGSIZE in *; lia|].
  destruct (freerange_loop_ok (S (Z.to_nat (ve / PGSIZE))) (PGROUNDUP vs) ve
    (Z.to_nat ((ve - PGROUNDUP vs) / PGSIZE)) k l) as (k' & E & H1 & H2 & H3); try done; try lia.
  - destruct (PGROUNDUP_spec (KERNBASE + PHYSTOP)) as [_ _]; [done|done|].
    pose proof (Z.div_mod (PGROUNDUP vs) PGSIZE ltac:(done)). unfold KERNBASE, PHYSTOP, PGSIZE in *. lia.
  - pose proof (Z.div_mod (ve - PGROUNDUP vs) PGSIZE ltac:(done)).
    pose proof (Z.mod_pos_bound (ve - PGROUNDUP vs) PGSIZE ltac:(done)). unfold PGSIZE in *. lia.
  - pose proof (Z.div_mod (ve - PGROUNDUP vs) PGSIZE ltac:(done)).
    pose proof (Z.mod_pos_bound (ve - PGROUNDUP vs) PGSIZE ltac:(done)). unfold PGSIZE in *. lia.
  - assert ((ve - PGROUNDUP vs) / PGSIZE <= ve / PGSIZE); [|lia].
    apply Z.div_le_mono; [done|]. unfold KERNBASE in *. lia.
  - intros v Hv. specialize (Hl v Hv). lia.
  - exists k'. split; [done|]. split; [done|]. split; [done|]. intros a Ha. apply H3. lia.
Qed.

(** * The allocator and its clients *)

(** [ks_used]: the pages that clients hold; [ks_pool]: all the pages that the
    allocator has been given; they lie below [ks_top]. *)
Record ksys := KSys {
  ks : kmem;
  ks_used : gset Z;
  ks_pool : gset Z;
  ks_top : Z
}.

(** A client allocates, frees a page that it holds, or stores into one;
    [kinit2] adds the pages above those of [kinit1]. *)
Inductive kstep : ksys -> ksys -> Prop :=
| ks_alloc y r k' :
    kalloc (ks y) = Ok r k' ->
    kstep y (KSys k' (if r =? 0 then ks_used y else {[r]} ∪ ks_used y) (ks_pool y) (ks_top y))
| ks_free y v k' :
    v ∈ ks_used y -> kfree kend v (ks y) = Ok tt k' ->
    kstep y (KSys k' (ks_used y ∖ {[v]}) (ks_pool y) (ks_top y))
| ks_store y v a c :
    v ∈ ks_used y -> in_page v a ->
    kstep y (KSys (set_km_mem (st (km_mem (ks y)) a c) (ks y)) (ks_used y) (ks_pool y) (ks_top y))
| ks_init2 y vs ve k' :
    ks_top y <= vs -> vs <= ve -> ve <= KERNBASE + PHYSTOP ->
    kinit2 kend vs ve (ks y) = Ok tt k' ->
    kstep y (KSys k' (ks_used y) (list_to_set (range_pages vs ve) ∪ ks_pool y) ve).

Inductive kreach : ksys -> Prop :=
| kr_boot k ve k' :
    km_freelist k = 0 -> kend <= ve -> ve <= KERNBASE + PHYSTOP ->
    kinit1 kend kend ve k = Ok tt k' ->
    kreach (KSys k' ∅ (list_to_set (range_pages kend ve)) ve)
| kr_step y y' : kreach y -> kstep y y' -> kreach y'.

Record kinv (y : ksys) (l : list Z) : Prop := KInv {
  ki_list : kfree_list (ks y) l;
  ki_apart : forall v, v ∈ l -> v ∉ ks_used y;
  ki_pool : list_to_set l ∪ ks_used y = ks_pool y;
  ki_pages : forall v, v ∈ ks_pool y -> is_page v /\ v < ks_top y;
  ki_top : kend <= ks_top y
}.

Lemma kinv_step y y' l : kinv y l -> kstep y y' -> exists l', kinv y' l'.
Proof.
  intros [Hl Ha Hp Hg Ht] Hst. destruct Hst as [y r k' E|y v k' Hv E|y v a c Hv Hva|y vs ve k' Htop Hve Hmax E].
  - destruct (kalloc_ok _ _ Hl) as (k1 & E1 & Hl1 & _). rewrite E1 in E. injection E as <- <-.
    exists (tail l). destruct l as [|v l]; simpl in *; [by split|].
    destruct (kf_pages _ _ Hl v) as [_ Hvr]; [set_solver|].
    rewrite (proj2 (Z.eqb_neq v 0)) by (unfold KERNBASE in *; lia).
    pose proof (kf_nodup _ _ Hl) as [Hn _]%NoDup_cons.
    split; simpl; [done|set_solver|set_solver|done|done].
  - assert (is_page v) as Hpv by (apply Hg; set_solver).
    destruct (kfree_ok _ _ _ Hl Hpv) as (k1 & E1 & Hl1 & _); [set_solver|]. rewrite E1 in E. injection E as <-.
    exists (v :: l). split; simpl; [done|set_solver| |done|done].
    rewrite <- Hp. apply set_eq. intros x. destruct (decide (x = v)); set_solver.
  - exists l. assert (is_page v) as Hpv by (apply Hg; set_solver).
    destruct Hl as [Hlk Hc Hnd Hpg]. split; simpl; try done. split; simpl; try done.
    apply (chain_frame (km_mem (ks y))); [|done]. intros w b Hw Hwb. rewrite ld_st.
    rewrite decide_False; [done|]. intros ->.
    assert (v = w) as ->; [|by apply (Ha w)]. eapply pages_apart; [apply Hpv|by apply Hpg|done|done].
  - unfold kinit2 in E. apply bind_inv in E as ([] & k1 & E1 & E). injection E as <-.
    destruct (freerange_ok vs ve (ks y) l) as (k2 & E2 & Hl2 & _); [lia|lia|lia|done| |].
    { intros v Hv. assert (v ∈ ks_pool y) as Hvp by set_solver. apply Hg in Hvp. lia. }
    rewrite E2 in E1. injection E1 as <-.
    assert (forall v, v ∈ range_pages vs ve -> is_page v /\ vs <= v < ve) as Hrp.
    { intros v Hv. apply elem_of_range in Hv; [|lia..]. unfold is_page, PGSIZE in *. lia. }
    exists (range_pages vs ve ++ l). split; simpl.
    + destruct Hl2. by split.
    + intros v [Hv|Hv]%elem_of_app; [|by apply Ha]. intros Hu.
      assert (v ∈ ks_pool y) as Hvp by set_solver. apply Hg in Hvp. apply Hrp in Hv. lia.
    + rewrite list_to_set_app_L, <- Hp. set_solver.
    + intros v [Hv|Hv]%elem_of_union; [apply elem_of_list_to_set, Hrp in Hv|apply Hg in Hv]; split; try apply Hv; lia.
    + lia.
Qed.

Lemma kreach_inv y : kreach y -> exists l, kinv y l.
Proof.
  induction 1 as [k ve k' Hf Hk Hve E|y y' _ [l IH] Hst]; [|by eapply kinv_step].
  unfold kinit1 in E. unfold bind at 1, modify in E. unfold bind at 1 in E.
  destruct (freerange_ok kend ve (set_use_lock false (set_km_lock false k)) []) as (k2 & E2 & Hl2 & _);
    [lia|lia|lia| |by intros v ?%elem_of_nil|].
  { split; simpl; [done|done|constructor|by intros v ?%elem_of_nil]. }
  rewrite E2 in E. injection E as <-. rewrite app_nil_r in Hl2. exists (range_pages kend ve).
  split; simpl; [done|set_solver|set_solver| |lia].
  intros v Hv%elem_of_list_to_set. apply elem_of_range in Hv; [|lia..]. unfold is_page, PGSIZE in *. lia.
Qed.
End pages.

(** C16. The allocator hands out every page of its pool at most once: in any
    state that [kinit1], [kinit2] and any sequence of allocations, frees and
    stores by the clients reach, [kalloc] returns an aligned page of the pool
    that no client holds, or 0 when all the pages are held; [kfree] of a held
    page returns without a panic; and neither changes a byte of any other page
    that a client holds. *)
Theorem kalloc_safe kend y :
  KERNBASE <= kend -> kreach kend y ->
  (exists r k', kalloc (ks y) = Ok r k' /\ km_mem k' = km_mem (ks y) /\
     ((r = 0 /\ ks_used y = ks_pool y) \/
      (r <> 0 /\ r ∈ ks_pool y /\ r ∉ ks_used y /\ r mod PGSIZE = 0 /\ kend <= r))) /\
  (forall v, v ∈ ks_used y -> exists k', kfree kend v (ks y) = Ok tt k' /\
     forall w a, w ∈ ks_used y -> w <> v -> in_page w a -> ld (km_mem k') a = ld (km_mem (ks y)) a).
Proof.
  intros Hend Hr. destruct (kreach_inv kend Hend y Hr) as (l & [Hl Ha Hp Hg _]). split.
  - destruct (kalloc_ok kend Hend _ _ Hl) as (k' & E & _ & _ & Hm). exists (default 0 (head l)), k'.
    split; [done|]. split; [done|]. destruct l as [|v l]; simpl in *; [left; set_solver|right].
    destruct (kf_pages _ _ _ Hl v) as [Hvm Hvr]; [set_solver|].
    split; [unfold KERNBASE in *; lia|]. split; [set_solver|]. split; [apply Ha; set_solver|]. split; [done|lia].
  - intros v Hv. assert (is_page kend v) as Hpv by (apply Hg; set_solver).
    destruct (kfree_ok kend Hend _ _ _ Hl Hpv) as (k' & E & _ & _ & Hf); [set_solver|]. exists k'. split; [done|].
    intros w a Hw Hne Hwa. apply Hf. intros Hva. apply Hne.
    assert (is_page kend w) as Hpw by (apply Hg; set_solver).
    eapply pages_apart; [apply Hpw|apply Hpv|done|done].
Qed.

(** A kernel that ends at KERNBASE + 0x1234, given two pages; one is taken. *)
Definition demo_end : Z := KERNBASE + 0x1234.
Definition demo_kmem : kmem := Kmem false false 0 ∅.
Definition demo_top : Z := KERNBASE + 0x4000.
Definition demo_ks : kmem :=
  match kinit1 demo_end demo_end demo_top demo_kmem with Ok _ k => k | _ => demo_kmem end.
Definition demo_taken : kmem := match kalloc demo_ks with Ok _ k => k | _ => demo_ks end.
Definition demo_ksys : ksys :=
  KSys demo_taken ({[KERNBASE + 0x3000]} ∪ ∅) (list_to_set (range_pages demo_end demo_top)) demo_top.

Definition is_ok {S A} (r : res S A) : bool := match r with Ok _ _ => true | _ => false end.

Lemma demo_ks_ok : kinit1 demo_end demo_end demo_top demo_kmem = Ok tt demo_ks.
Proof.
  assert (is_ok (kinit1 demo_end demo_end demo_top demo_kmem) = true) as H by (vm_compute; reflexivity).
  unfold demo_ks. by destruct (kinit1 demo_end demo_end demo_top demo_kmem) as [[] k| | |].
Qed.

Lemma demo_taken_ok : kalloc demo_ks = Ok (KERNBASE + 0x3000) demo_taken.
Proof.
  assert (match kalloc demo_ks with Ok r _ => r =? KERNBASE + 0x3000 | _ => false end = true) as H
    by (vm_compute; reflexivity).
  unfold demo_taken. destruct (kalloc demo_ks) as [r k| | |]; [|discriminate H..].
  apply Z.eqb_eq in H. by rewrite H.
Qed.

Lemma kalloc_safe_witness :
  (exists r k', kalloc (ks demo_ksys) = Ok r k' /\ km_mem k' = km_mem (ks demo_ksys) /\
     ((r = 0 /\ ks_used demo_ksys = ks_pool demo_ksys) \/
      (r <> 0 /\ r ∈ ks_pool demo_ksys /\ r ∉ ks_used demo_ksys /\ r mod PGSIZE = 0 /\ demo_end <= r))) /\
  (forall v, v ∈ ks_used demo_ksys -> exists k', kfree demo_end v (ks demo_ksys) = Ok tt k' /\
     forall w a, w ∈ ks_used demo_ksys -> w <> v -> in_page w a ->
       ld (km_mem k') a = ld (km_mem (ks demo_ksys)) a).
Proof.
  apply (kalloc_safe demo_end demo_ksys); [vm_compute; discriminate|].
  assert (kreach demo_end (KSys demo_ks ∅ (list_to_set (range_pages demo_end demo_top)) demo_top)) as H0.
  { apply (kr_boot demo_end demo_kmem demo_top demo_ks);
      [reflexivity|vm_compute; discriminate|vm_compute; discriminate|exact demo_ks_ok]. }
  eapply kr_step; [exact H0|].
  exact (ks_alloc demo_end (KSys demo_ks ∅ (list_to_set (range_pages demo_end demo_top)) demo_top)
    (KERNBASE + 0x3000) demo_taken demo_taken_ok).
Defined.
