(* ===== verification/Fs.v ===== *)
(** The file system (fs.c) on the log: the block allocator, inodes and the inode
    cache, file contents, directories and path names. *)
From stdpp Require Import base numbers list gmap sets strings.
From Stdlib Require Import ZArith Lia.
From S2P Require Import Prelude Bytes Mem Sleeplock Disk BlockLayer Super Log.

(** * Constants and data (fs.h, file.h, stat.h, param.h) *)

Definition ROOTINO : Z := 1.
Definition NDIRECT : Z := 12.
Definition NINDIRECT : Z := BSIZE / 4.
Definition MAXFILE : Z := NDIRECT + NINDIRECT.
Definition NINODE : nat := 50.
Definition NDEV : Z := 10.
Definition DIRSIZ : nat := 14.

Definition T_DIR : Z := 1.
Definition T_FILE : Z := 2.
Definition T_DEV : Z := 3.

(** [struct dinode]: 64 bytes. *)
Record dinode := Dinode {
  di_type : Z;
  di_major : Z;
  di_minor : Z;
  di_nlink : Z;
  di_size : Z;
  di_addrs : list Z
}.
Definition DINODE : Z := 64.

Definition IPB : Z := BSIZE / DINODE.
Definition IBLOCK (i : Z) (sb : superblock) : Z := u32 (i / IPB + sb_inodestart sb).
Definition BPB : Z := BSIZE * 8.
Definition BBLOCK (b : Z) (sb : superblock) : Z := u32 (b / BPB + sb_bmapstart sb).

(** The inode at byte [o] of a block, read and written field by field. *)
Definition get_addrs (d : block) (o : Z) (n : nat) : list Z :=
  (fun k => get32 d (o + 4 * Z.of_nat k)) <$> seq 0 n.

Fixpoint put_addrs (d : block) (o : Z) (l : list Z) : block :=
  match l with
  | [] => d
  | a :: l' => put_addrs (put32 d o a) (o + 4) l'
  end.

Definition get_dinode (d : block) (o : Z) : dinode :=
  Dinode (i16 (get16 d o)) (i16 (get16 d (o + 2))) (i16 (get16 d (o + 4))) (i16 (get16 d (o + 6)))
    (get32 d (o + 8)) (get_addrs d (o + 12) 13).

Definition put_dinode (d : block) (o : Z) (i : dinode) : block :=
  put_addrs (put32 (put16 (put16 (put16 (put16 d o (di_type i)) (o + 2) (di_major i)) (o + 4) (di_minor i))
    (o + 6) (di_nlink i)) (o + 8) (di_size i)) (o + 12) (di_addrs i).

(** [struct inode]; [i_data] is the copy of the disk inode, good when [i_valid]
    ([I_VALID]) is set. *)
Record inode := Inode {
  i_dev : Z;
  i_inum : Z;
  i_ref : Z;
  i_lock : sleeplock;
  i_valid : bool;
  i_data : dinode
}.

Definition i_type (ip : inode) : Z := di_type (i_data ip).
Definition i_nlink (ip : inode) : Z := di_nlink (i_data ip).
Definition i_size (ip : inode) : Z := di_size (i_data ip).
Definition i_addrs (ip : inode) : list Z := di_addrs (i_data ip).

Definition set_i_ref (r : Z) (ip : inode) : inode :=
  Inode (i_dev ip) (i_inum ip) r (i_lock ip) (i_valid ip) (i_data ip).
Definition set_i_lock (l : sleeplock) (ip : inode) : inode :=
  Inode (i_dev ip) (i_inum ip) (i_ref ip) l (i_valid ip) (i_data ip).
Definition set_i_valid (v : bool) (ip : inode) : inode :=
  Inode (i_dev ip) (i_inum ip) (i_ref ip) (i_lock ip) v (i_data ip).
Definition set_i_data (d : dinode) (ip : inode) : inode :=
  Inode (i_dev ip) (i_inum ip) (i_ref ip) (i_lock ip) (i_valid ip) d.
Definition set_i_type (t : Z) (ip : inode) : inode :=
  let d := i_data ip in
  set_i_data (Dinode t (di_major d) (di_minor d) (di_nlink d) (di_size d) (di_addrs d)) ip.
Definition set_i_nlink (n : Z) (ip : inode) : inode :=
  let d := i_data ip in
  set_i_data (Dinode (di_type d) (di_major d) (di_minor d) n (di_size d) (di_addrs d)) ip.
Definition set_i_devno (ma mi : Z) (ip : inode) : inode :=
  let d := i_data ip in
  set_i_data (Dinode (di_type d) ma mi (di_nlink d) (di_size d) (di_addrs d)) ip.
Definition set_i_size (z : Z) (ip : inode) : inode :=
  let d := i_data ip in
  set_i_data (Dinode (di_type d) (di_major d) (di_minor d) (di_nlink d) z (di_addrs d)) ip.
Definition set_i_addr (k : Z) (a : Z) (ip : inode) : inode :=
  let d := i_data ip in
  set_i_data (Dinode (di_type d) (di_major d) (di_minor d) (di_nlink d) (di_size d)
                (<[Z.to_nat k := a]> (di_addrs d))) ip.

(** The state of the file system, with the process that runs: its pid and its
    current directory, an index into the inode cache. *)
Record fstate := FState {
  fl : lstate;
  fsb : superblock;
  ic_lock : bool;
  icache : list inode;
  f_pid : Z;
  f_cwd : nat
}.

Definition set_fl (l : lstate) (s : fstate) : fstate :=
  FState l (fsb s) (ic_lock s) (icache s) (f_pid s) (f_cwd s).
Definition set_fsb (b : superblock) (s : fstate) : fstate :=
  FState (fl s) b (ic_lock s) (icache s) (f_pid s) (f_cwd s).
Definition set_ic_lock (b : bool) (s : fstate) : fstate :=
  FState (fl s) (fsb s) b (icache s) (f_pid s) (f_cwd s).
Definition set_icache (l : list inode) (s : fstate) : fstate :=
  FState (fl s) (fsb s) (ic_lock s) l (f_pid s) (f_cwd s).

(** Calls into log.c and bio.c.  The disk driver serves one device. *)
Definition lift {A} (m : M lstate A) : M fstate A := zoom fl set_fl m.
Definition on_dev {A} (dev : Z) (m : M fstate A) : M fstate A :=
  if dev =? ROOTDEV then m else panic "iderw: request not for disk 1".
Definition fbread (dev n : Z) : M fstate block := on_dev dev (lift (cache (bread n))).
Definition fdata (n : Z) : M fstate block := lift (cache (bdata n)).
Definition fset (n : Z) (d : block) : M fstate unit := lift (cache (bset n d)).
Definition fbrelse (n : Z) : M fstate unit := lift (cache (brelse n)).
Definition flog_write (n : Z) : M fstate unit := lift (log_write n).

Definition acquire_ic : M fstate unit := acquire ic_lock set_ic_lock.
Definition release_ic : M fstate unit := release ic_lock set_ic_lock.

Definition inode0 : inode :=
  Inode 0 0 0 (Sleeplock false false "" 0) false (Dinode 0 0 0 0 0 (replicate 13 0)).
Definition inode_at (i : nat) (s : fstate) : inode := nth i (icache s) inode0.
Definition ifield {A} (i : nat) (f : inode -> A) : M fstate A := gets (fun s => f (inode_at i s)).
Definition iupd (i : nat) (f : inode -> inode) : M fstate unit :=
  modify (fun s => set_icache (alter f i (icache s)) s).
Definition on_ilock {A} (i : nat) (m : M sleeplock A) : M fstate A :=
  zoom (fun s => i_lock (inode_at i s)) (fun l s => set_icache (alter (set_i_lock l) i (icache s)) s) m.

(** * Blocks *)

Definition freadsb (dev : Z) : M fstate unit :=
  on_dev dev (sb <- lift (cache readsb) ;; modify (set_fsb sb)).

Definition bzero (dev bno : Z) : M fstate unit :=
  fbread dev bno ;;
  fset bno (replicate (Z.to_nat BSIZE) 0) ;;
  flog_write bno ;;
  fbrelse bno.

(** [d[k]], and [d[k] = v], on the bytes of a block. *)
Definition byte_at (d : block) (k : Z) : Z := nth (Z.to_nat k) d 0.
Definition set_byte (d : block) (k v : Z) : block := <[Z.to_nat k := u8 v]> d.

(** The body of the inner loop of [balloc] at bit [bi] of the bitmap block [bb],
    whose first bit is that of block [b]. *)
Definition balloc_bit (dev bb b bi : Z) : M fstate (option Z) :=
  d <- fdata bb ;;
  let m := Z.shiftl 1 (bi mod 8) in
  if Z.land (byte_at d (bi / 8)) m =? 0 then
    fset bb (set_byte d (bi / 8) (Z.lor (byte_at d (bi / 8)) m)) ;;
    flog_write bb ;;
    fbrelse bb ;;
    bzero dev (b + bi) ;;
    ret (Some (b + bi))
  else ret None.

Definition balloc (dev : Z) : M fstate Z :=
  sb <- gets fsb ;;
  r <- mfind (Z.to_nat ((sb_size sb + BPB - 1) / BPB)) 0 (fun k =>
    let b := k * BPB in
    let bb := BBLOCK b sb in
    fbread dev bb ;;
    r <- mfind (Z.to_nat (Z.min BPB (sb_size sb - b))) 0 (balloc_bit dev bb b) ;;
    match r with
    | Some a => ret (Some a)
    | None => fbrelse bb ;; ret None
    end) ;;
  match r with
  | Some a => ret a
  | None => panic "balloc: out of blocks"
  end.

Definition bfree (dev b : Z) : M fstate unit :=
  freadsb dev ;;
  sb <- gets fsb ;;
  let bb := BBLOCK b sb in
  d <- fbread dev bb ;;
  let bi := b mod BPB in
  let m := Z.shiftl 1 (bi mod 8) in
  if Z.land (byte_at d (bi / 8)) m =? 0 then panic "freeing free block" else
  fset bb (set_byte d (bi / 8) (Z.land (byte_at d (bi / 8)) (Z.lnot m))) ;;
  flog_write bb ;;
  fbrelse bb.

(** * Inodes *)

Definition iinit (dev : Z) : M fstate unit :=
  modify (set_ic_lock false) ;;
  mfor NINODE 0 (fun i => iupd (Z.to_nat i) (set_i_lock (initsleeplock "inode"))) ;;
  freadsb dev.

(** The scan of [iget]: the entry that holds the inode, or the first free entry
    seen from [i] on, [empty] being the one remembered so far. *)
Fixpoint iget_scan (dev inum : Z) (l : list inode) (i : nat) (empty : option nat) : nat + option nat :=
  match l with
  | [] => inr empty
  | ip :: l' =>
      if (0 <? i_ref ip) && (i_dev ip =? dev) && (i_inum ip =? inum) then inl i
      else iget_scan dev inum l' (S i)
             (match empty with
              | None => if i_ref ip =? 0 then Some i else None
              | Some e => Some e
              end)
  end.

Definition iget (dev inum : Z) : M fstate nat :=
  acquire_ic ;;
  l <- gets icache ;;
  match iget_scan dev inum l 0 None with
  | inl i =>
      iupd i (fun ip => set_i_ref (i_ref ip + 1) ip) ;;
      release_ic ;;
      ret i
  | inr None => panic "iget: no inodes"
  | inr (Some i) =>
      iupd i (fun ip => Inode dev inum 1 (i_lock ip) false (i_data ip)) ;;
      release_ic ;;
      ret i
  end.

Definition ialloc (dev type : Z) : M fstate nat :=
  sb <- gets fsb ;;
  r <- mfind (Z.to_nat (sb_ninodes sb - 1)) 1 (fun inum =>
    let bb := IBLOCK inum sb in
    let o := inum mod IPB * DINODE in
    d <- fbread dev bb ;;
    if di_type (get_dinode d o) =? 0 then
      fset bb (put16 (splice d o (replicate (Z.to_nat DINODE) 0)) o type) ;;
      flog_write bb ;;
      fbrelse bb ;;
      i <- iget dev inum ;;
      ret (Some i)
    else fbrelse bb ;; ret None) ;;
  match r with
  | Some i => ret i
  | None => panic "ialloc: no inodes"
  end.

Definition iupdate (i : nat) : M fstate unit :=
  ip <- ifield i id ;;
  sb <- gets fsb ;;
  let bb := IBLOCK (i_inum ip) sb in
  d <- fbread (i_dev ip) bb ;;
  fset bb (put_dinode d (i_inum ip mod IPB * DINODE) (i_data ip)) ;;
  flog_write bb ;;
  fbrelse bb.

Definition idup (i : nat) : M fstate nat :=
  acquire_ic ;;
  iupd i (fun ip => set_i_ref (i_ref ip + 1) ip) ;;
  release_ic ;;
  ret i.

(** The law that [fork] relies on. *)
Lemma idup_returns i s r s' : idup i s = Ok r s' -> r = i.
Proof.
  unfold idup. intros ([] & s1 & _ & ([] & s2 & _ & ([] & s3 & _ & E)%bind_inv)%bind_inv)%bind_inv. by injection E as <-.
Qed.

Definition ilock (i : nat) : M fstate unit :=
  r <- ifield i i_ref ;;
  if r <? 1 then panic "ilock" else
  pid <- gets f_pid ;;
  on_ilock i (acquiresleep (CInode i) pid) ;;
  ip <- ifield i id ;;
  if i_valid ip then ret tt else
  sb <- gets fsb ;;
  let bb := IBLOCK (i_inum ip) sb in
  d <- fbread (i_dev ip) bb ;;
  iupd i (set_i_data (get_dinode d (i_inum ip mod IPB * DINODE))) ;;
  fbrelse bb ;;
  iupd i (set_i_valid true) ;;
  t <- ifield i i_type ;;
  if t =? 0 then panic "ilock: no type" else ret tt.

Definition iunlock (i : nat) : M fstate unit :=
  h <- on_ilock i holdingsleep ;;
  r <- ifield i i_ref ;;
  if negb h || (r <? 1) then panic "iunlock" else
  on_ilock i (releasesleep (CInode i)).

(** ** Contents *)

Definition bmap (i : nat) (bn : Z) : M fstate Z :=
  ip <- ifield i id ;;
  if bn <? NDIRECT then
    let addr := nth (Z.to_nat bn) (i_addrs ip) 0 in
    if addr =? 0 then
      addr <- balloc (i_dev ip) ;;
      iupd i (set_i_addr bn addr) ;;
      ret addr
    else ret addr
  else
  let bn := bn - NDIRECT in
  if bn <? NINDIRECT then
    let addr := nth (Z.to_nat NDIRECT) (i_addrs ip) 0 in
    addr <- (if addr =? 0 then
               addr <- balloc (i_dev ip) ;;
               iupd i (set_i_addr NDIRECT addr) ;;
               ret addr
             else ret addr) ;;
    d <- fbread (i_dev ip) addr ;;
    let a := get32 d (4 * bn) in
    r <- (if a =? 0 then
            a <- balloc (i_dev ip) ;;
            d <- fdata addr ;;
            fset addr (put32 d (4 * bn) a) ;;
            flog_write addr ;;
            ret a
          else ret a) ;;
    fbrelse addr ;;
    ret r
  else panic "bmap: out of range".

Definition itrunc (i : nat) : M fstate unit :=
  mfor (Z.to_nat NDIRECT) 0 (fun k =>
    ip <- ifield i id ;;
    let a := nth (Z.to_nat k) (i_addrs ip) 0 in
    when (negb (a =? 0))
      (bfree (i_dev ip) a ;;
       iupd i (set_i_addr k 0))) ;;
  ip <- ifield i id ;;
  let ind := nth (Z.to_nat NDIRECT) (i_addrs ip) 0 in
  when (negb (ind =? 0))
    (d <- fbread (i_dev ip) ind ;;
     mfor (Z.to_nat NINDIRECT) 0 (fun j =>
       d <- fdata ind ;;
       let a := get32 d (4 * j) in
       when (negb (a =? 0)) (bfree (i_dev ip) a)) ;;
     fbrelse ind ;;
     bfree (i_dev ip) ind ;;
     iupd i (set_i_addr NDIRECT 0)) ;;
  iupd i (set_i_size 0) ;;
  iupdate i.

Definition iput (i : nat) : M fstate unit :=
  acquire_ic ;;
  ip <- ifield i id ;;
  when ((i_ref ip =? 1) && i_valid ip && (i_nlink ip =? 0))
    (release_ic ;;
     itrunc i ;;
     iupd i (set_i_type 0) ;;
     iupdate i ;;
     acquire_ic ;;
     iupd i (set_i_valid false)) ;;
  iupd i (fun ip => set_i_ref (i_ref ip - 1) ip) ;;
  release_ic.

Definition iunlockput (i : nat) : M fstate unit :=
  iunlock i ;;
  iput i.

(** [struct stat]. *)
Record stat := Stat { st_type : Z; st_dev : Z; st_ino : Z; st_nlink : Z; st_size : Z }.

Definition stati (i : nat) : M fstate stat :=
  ip <- ifield i id ;;
  ret (Stat (i_type ip) (i_dev ip) (i_inum ip) (i_nlink ip) (i_size ip)).

(** [devsw]: the device functions that the drivers register, by major number. *)
Class Devsw := {
  dev_read : Z -> option (nat -> Z -> M fstate (Z * list Z));
  dev_write : Z -> option (nat -> list Z -> Z -> M fstate Z)
}.

Section contents.
Context `{!Devsw}.

(** The loop of [readi]: [n] bytes are left to be read at [off]. *)
Fixpoint readi_loop (i : nat) (off n : Z) (fuel : nat) : M fstate (list Z) :=
  match fuel with
  | O => diverge
  | S f =>
      if n <=? 0 then ret [] else
      ip <- ifield i id ;;
      b <- bmap i (off / BSIZE) ;;
      d <- fbread (i_dev ip) b ;;
      let m := Z.min n (BSIZE - off mod BSIZE) in
      fbrelse b ;;
      r <- readi_loop i (off + m) (n - m) f ;;
      ret (slice d (off mod BSIZE) m ++ r)
  end.

(** [readi]: the result, and the bytes stored at [dst]. *)
Definition readi (i : nat) (off n : Z) : M fstate (Z * list Z) :=
  ip <- ifield i id ;;
  if i_type ip =? T_DEV then
    let ma := di_major (i_data ip) in
    if (ma <? 0) || (NDEV <=? ma) then ret (-1, []) else
    match dev_read ma with
    | None => ret (-1, [])
    | Some f => f i n
    end
  else
  if (i_size ip <? off) || (u32 (off + n) <? off) then ret (-1, []) else
  let n := if i_size ip <? u32 (off + n) then i_size ip - off else n in
  r <- readi_loop i off n (S (Z.to_nat n)) ;;
  ret (n, r).

Fixpoint writei_loop (i : nat) (src : list Z) (off n : Z) (fuel : nat) : M fstate Z :=
  match fuel with
  | O => diverge
  | S f =>
      if n <=? 0 then ret off else
      ip <- ifield i id ;;
      b <- bmap i (off / BSIZE) ;;
      d <- fbread (i_dev ip) b ;;
      let m := Z.min n (BSIZE - off mod BSIZE) in
      fset b (splice d (off mod BSIZE) (take (Z.to_nat m) src)) ;;
      flog_write b ;;
      fbrelse b ;;
      writei_loop i (drop (Z.to_nat m) src) (off + m) (n - m) f
  end.

Definition writei (i : nat) (src : list Z) (off n : Z) : M fstate Z :=
  ip <- ifield i id ;;
  if i_type ip =? T_DEV then
    let ma := di_major (i_data ip) in
    if (ma <? 0) || (NDEV <=? ma) then ret (-1) else
    match dev_write ma with
    | None => ret (-1)
    | Some f => f i src n
    end
  else
  if (i_size ip <? off) || (u32 (off + n) <? off) then ret (-1) else
  if MAXFILE * BSIZE <? u32 (off + n) then ret (-1) else
  off' <- writei_loop i src off n (S (Z.to_nat n)) ;;
  size <- ifield i i_size ;;
  when ((0 <? n) && (size <? off'))
    (iupd i (set_i_size off') ;;
     iupdate i) ;;
  ret n.

(** * Directories *)

(** [struct dirent]: 16 bytes, the inode number and the name. *)
Definition DIRENT : Z := 16.
Definition de_inum (de : list Z) : Z := get16 de 0.
Definition de_name (de : list Z) : list Z := slice de 2 (Z.of_nat DIRSIZ).
Definition mk_dirent (inum : Z) (name : list Z) : list Z := enc 2 inum ++ name.

Definition namecmp (s t : list Z) : Z := strncmp (cview s) (cview t) 0 DIRSIZ.

Fixpoint dirlookup_loop (dp : nat) (name : list Z) (off : Z) (fuel : nat) : M fstate (option (nat * Z)) :=
  match fuel with
  | O => diverge
  | S f =>
      d <- ifield dp id ;;
      if negb (off <? i_size d) then ret None else
      r <- readi dp off DIRENT ;;
      if negb (r.1 =? DIRENT) then panic "dirlink read" else
      if de_inum r.2 =? 0 then dirlookup_loop dp name (off + DIRENT) f else
      if namecmp name (de_name r.2) =? 0 then
        i <- iget (i_dev d) (de_inum r.2) ;;
        ret (Some (i, off))
      else dirlookup_loop dp name (off + DIRENT) f
  end.

(** [dirlookup]: the inode and the offset that goes to [*poff]. *)
Definition dirlookup (dp : nat) (name : list Z) : M fstate (option (nat * Z)) :=
  d <- ifield dp id ;;
  if negb (i_type d =? T_DIR) then panic "dirlookup not DIR" else
  dirlookup_loop dp name 0 (S (Z.to_nat (i_size d))).

(** The search of [dirlink] for a free entry. *)
Fixpoint dirlink_loop (dp : nat) (off : Z) (fuel : nat) : M fstate Z :=
  match fuel with
  | O => diverge
  | S f =>
      d <- ifield dp id ;;
      if negb (off <? i_size d) then ret off else
      r <- readi dp off DIRENT ;;
      if negb (r.1 =? DIRENT) then panic "dirlink read" else
      if de_inum r.2 =? 0 then ret off else dirlink_loop dp (off + DIRENT) f
  end.

Definition dirlink (dp : nat) (name : list Z) (inum : Z) : M fstate Z :=
  r <- dirlookup dp name ;;
  match r with
  | Some (i, _) => iput i ;; ret (-1)
  | None =>
      d <- ifield dp id ;;
      off <- dirlink_loop dp 0 (S (Z.to_nat (i_size d))) ;;
      w <- writei dp (mk_dirent inum (strncpy (cview name) 0 DIRSIZ)) off DIRENT ;;
      if negb (w =? DIRENT) then panic "dirlink" else ret 0
  end.
End contents.

(** * Paths *)

Definition SLASH : Z := 47.

Fixpoint skip_slashes (path : list Z) : list Z :=
  match path with
  | c :: p => if c =? SLASH then skip_slashes p else path
  | [] => []
  end.

(** The characters before the next slash, and what follows them. *)
Fixpoint scan_elem (path : list Z) : list Z * list Z :=
  match path with
  | [] => ([], [])
  | c :: p => if c =? SLASH then ([], path) else let r := scan_elem p in (c :: r.1, r.2)
  end.

(** [skipelem]: a path is the list of its characters, without the final NUL;
    [name] is the buffer of [DIRSIZ] bytes that is written. *)
Definition skipelem (path name : list Z) : option (list Z * list Z) :=
  let path := skip_slashes path in
  match path with
  | [] => None
  | _ =>
      let (s, rest) := scan_elem path in
      let name :=
        if (DIRSIZ <=? length s)%nat then splice name 0 (take DIRSIZ s)
        else splice name 0 (s ++ [0]) in
      Some (skip_slashes rest, name)
  end.

Section paths.
Context `{!Devsw}.

(** The loop of [namex] at the inode [i]. *)
Fixpoint namex_loop (i : nat) (path : list Z) (parent : bool) (name : list Z) (fuel : nat) :
    M fstate (option nat * list Z) :=
  match fuel with
  | O => diverge
  | S f =>
      match skipelem path name with
      | None => if parent then iput i ;; ret (None, name) else ret (Some i, name)
      | Some (path, name) =>
          ilock i ;;
          t <- ifield i i_type ;;
          if negb (t =? T_DIR) then iunlockput i ;; ret (None, name) else
          if parent && (length path =? 0)%nat then iunlock i ;; ret (Some i, name) else
          r <- dirlookup i name ;;
          match r with
          | None => iunlockput i ;; ret (None, name)
          | Some (next, _) => iunlockput i ;; namex_loop next path parent name f
          end
      end
  end.

Definition namex (path : list Z) (parent : bool) (name : list Z) : M fstate (option nat * list Z) :=
  i <- match path with
       | c :: _ => if c =? SLASH then iget ROOTDEV ROOTINO else (d <- gets f_cwd ;; idup d)
       | [] => d <- gets f_cwd ;; idup d
       end ;;
  namex_loop i path parent name (S (length path)).

(** The local [name] of [namei] is not initialised; its content does not matter. *)
Definition namei (path : list Z) : M fstate (option nat) :=
  r <- namex path false (replicate DIRSIZ 0) ;; ret r.1.

Definition nameiparent (path name : list Z) : M fstate (option nat * list Z) := namex path true name.
End paths.
