(* ===== verification/FsBlocks.v ===== *)
(** The block allocator of fs.c: [balloc] finds the first free block, marks it
    and zeroes it; [bfree] clears the mark.  Rules for the calls of fs.c into the
    log and the buffer cache. *)
From stdpp Require Import base numbers list gmap sets strings.
From Stdlib Require Import ZArith Lia.
From S2P Require Import Prelude Bytes Mem Sleeplock Disk BlockLayer Super Log LogOps Tx Fs.

(** * Rules for buffers *)

(** The view after a block has been replaced, logged and released. *)
Definition tv_put (n : Z) (d : block) (V : tview) : tview :=
  TView (<[Z.to_nat n := d]> (tv_disk V)) (tv_held V) (tv_mod V) ({[n]} ∪ tv_log V) (tv_lim V).

(** Room for [k] more blocks, in the log and in the cache. *)
Definition budget (V : tview) (k : Z) : Prop :=
  k <= tv_room V /\ k <= tv_lim V - Z.of_nat (size (tv_log V)).

Lemma tv_hold_release n V : n ∉ tv_held V -> tv_release n (tv_hold n V) = V.
Proof.
  intros Hn. destruct V as [d H m L lim]. unfold tv_release, tv_hold. simpl in *. f_equal. set_solver.
Qed.

Lemma tv_update n d V :
  n ∉ tv_held V -> n ∉ tv_mod V -> tv_release n (tv_logged n (tv_write n d (tv_hold n V))) = tv_put n d V.
Proof.
  intros Hn Hm. destruct V as [dk H m L lim]. unfold tv_release, tv_hold, tv_put, tv_logged, tv_write. simpl in *.
  f_equal; set_solver.
Qed.

Lemma budget_mono V k j : budget V k -> j <= k -> budget V j.
Proof. unfold budget. lia. Qed.

Lemma size_insert_le (n : Z) (X : gset Z) : (size X <= size ({[n]} ∪ X) <= S (size X))%nat.
Proof.
  split; [apply subseteq_size; set_solver|].
  destruct (decide (n ∈ X)); [by rewrite subseteq_union_1_L by set_solver; lia|].
  rewrite size_union, size_singleton by set_solver. lia.
Qed.

Lemma budget_hold n V k : budget V (k + 1) -> budget (tv_hold n V) k.
Proof.
  unfold budget, tv_room. simpl. rewrite <- union_assoc_L.
  pose proof (size_insert_le n (tv_held V ∪ tv_log V)). lia.
Qed.

Lemma budget_put n d V k : budget V (k + 1) -> budget (tv_put n d V) k.
Proof.
  unfold budget, tv_room. simpl.
  replace (tv_held V ∪ ({[n]} ∪ tv_log V)) with ({[n]} ∪ (tv_held V ∪ tv_log V)) by set_solver.
  pose proof (size_insert_le n (tv_held V ∪ tv_log V)). pose proof (size_insert_le n (tv_log V)). lia.
Qed.

Section rules.
Context (S : fstate) (V : tview).
Context (HR : repr (fl S) V).

Lemma wp_fbread n d (Q : block -> fstate -> Prop) :
  n ∉ tv_held V -> dat (tv_disk V) n = Some d -> 0 < tv_room V ->
  (forall l, repr l (tv_hold n V) -> Q d (set_fl l S)) -> wp (fbread ROOTDEV n) Q S.
Proof.
  intros Hh Hd Hroom HQ. destruct (repr_bread _ _ _ _ HR Hh Hd Hroom) as (l & E & Hl).
  exists d, (set_fl l S). split; [|auto]. unfold fbread, on_dev, lift, zoom. simpl. by rewrite E.
Qed.

Lemma wp_fdata n d (Q : block -> fstate -> Prop) :
  n ∈ tv_held V -> dat (tv_disk V) n = Some d -> Q d S -> wp (fdata n) Q S.
Proof.
  intros Hh Hd HQ. exists d, S. split; [|auto]. unfold fdata, lift, zoom.
  rewrite (repr_data _ _ _ _ HR Hh Hd). by destruct S.
Qed.

Lemma wp_fset n d (Q : unit -> fstate -> Prop) :
  n ∈ tv_held V -> is_block d ->
  (forall l, repr l (tv_write n d V) -> Q tt (set_fl l S)) -> wp (fset n d) Q S.
Proof.
  intros Hh Hd HQ. destruct (repr_bset _ _ _ _ HR Hh Hd) as (l & E & Hl).
  exists tt, (set_fl l S). split; [|auto]. unfold fset, lift, zoom. by rewrite E.
Qed.

Lemma wp_flog_write n (Q : unit -> fstate -> Prop) :
  n ∈ tv_held V -> Z.of_nat (size (tv_log V)) < tv_lim V ->
  (forall l, repr l (tv_logged n V) -> Q tt (set_fl l S)) -> wp (flog_write n) Q S.
Proof.
  intros Hh Hd HQ. destruct (repr_log_write _ _ _ HR Hh Hd) as (l & E & Hl).
  exists tt, (set_fl l S). split; [|auto]. unfold flog_write, lift, zoom. by rewrite E.
Qed.

Lemma wp_fbrelse n (Q : unit -> fstate -> Prop) :
  n ∈ tv_held V -> n ∉ tv_mod V ->
  (forall l, repr l (tv_release n V) -> Q tt (set_fl l S)) -> wp (fbrelse n) Q S.
Proof.
  intros Hh Hd HQ. destruct (repr_brelse _ _ _ HR Hh Hd) as (l & E & Hl).
  exists tt, (set_fl l S). split; [|auto]. unfold fbrelse, lift, zoom. by rewrite E.
Qed.
End rules.

(** The end of an update of a block: assignment, [log_write], [brelse]. *)
Lemma wp_commit_block S V n d (Q : unit -> fstate -> Prop) :
  repr (fl S) (tv_hold n V) -> n ∉ tv_held V -> n ∉ tv_mod V -> is_block d ->
  Z.of_nat (size (tv_log V)) < tv_lim V ->
  (forall l, repr l (tv_put n d V) -> Q tt (set_fl l S)) ->
  wp (fset n d ;; flog_write n ;; fbrelse n) Q S.
Proof.
  intros HR Hh Hm Hb Hlim HQ. apply wp_bind. eapply wp_fset; [done|simpl; set_solver|done|]. intros l1 H1.
  apply wp_bind. eapply wp_flog_write; [done|simpl; set_solver|done|]. intros l2 H2.
  eapply wp_fbrelse; [done|simpl; set_solver|simpl; set_solver|]. intros l3 H3.
  rewrite tv_update in H3 by done. by apply HQ.
Qed.

Lemma wp_bzero S V n d0 (Q : unit -> fstate -> Prop) :
  repr (fl S) V -> n ∉ tv_held V -> n ∉ tv_mod V -> dat (tv_disk V) n = Some d0 -> budget V 1 ->
  (forall l, repr l (tv_put n (replicate (Z.to_nat BSIZE) 0) V) -> Q tt (set_fl l S)) ->
  wp (bzero ROOTDEV n) Q S.
Proof.
  intros HR Hh Hm Hd [Hb1 Hb2] HQ. apply wp_bind. eapply wp_fbread; [done|done|done|lia|]. intros l1 H1.
  eapply wp_commit_block; [done|done|done| |lia|].
  - split; [by rewrite length_replicate|]. apply Forall_replicate. unfold is_u8. lia.
  - intros l2 H2. by apply HQ.
Qed.

Lemma wp_commit_then {A} S V n d (k : M fstate A) (Q : A -> fstate -> Prop) :
  repr (fl S) (tv_hold n V) -> n ∉ tv_held V -> n ∉ tv_mod V -> is_block d ->
  Z.of_nat (size (tv_log V)) < tv_lim V ->
  (forall l, repr l (tv_put n d V) -> wp k Q (set_fl l S)) ->
  wp (fset n d ;; flog_write n ;; fbrelse n ;; k) Q S.
Proof.
  intros HR Hh Hm Hb Hlim HQ.
  assert (forall s, (fset n d ;; flog_write n ;; fbrelse n ;; k) s =
    ((fset n d ;; flog_write n ;; fbrelse n) ;; k) s) as Eq.
  { intros s. unfold bind. destruct (fset n d s) as [[] s1| | |]; [|done..].
    by destruct (flog_write n s1) as [[] s2| | |]. }
  unfold wp. rewrite Eq. apply wp_bind. by eapply wp_commit_block.
Qed.

(** * The bitmap *)

Lemma land_bit x i : 0 <= i -> (Z.land x (Z.shiftl 1 i) =? 0) = negb (Z.testbit x i).
Proof.
  intros Hi. rewrite Z.shiftl_1_l. destruct (Z.testbit x i) eqn:E; simpl.
  - apply Z.eqb_neq. intros H0. assert (Z.testbit (Z.land x (2 ^ i)) i = false) as H by (rewrite H0; apply Z.bits_0).
    rewrite Z.land_spec, E, Z.pow2_bits_true in H by lia. done.
  - apply Z.eqb_eq. apply Z.bits_inj'. intros j Hj. rewrite Z.land_spec, Z.bits_0.
    destruct (decide (j = i)) as [->|Hne]; [by rewrite E|]. rewrite Z.pow2_bits_false by lia. apply andb_false_r.
Qed.

Lemma u8_testbit v i : 0 <= i < 8 -> Z.testbit (u8 v) i = Z.testbit v i.
Proof. intros Hi. unfold u8. by rewrite Z.mod_pow2_bits_low by lia. Qed.

(** The mark of block [b] in the bitmap. *)
Definition bm_byte (sb : superblock) (dk : list block) (b : Z) : Z :=
  byte_at (default [] (dat dk (BBLOCK b sb))) (b mod BPB / 8).
Definition bm_bit (sb : superblock) (dk : list block) (b : Z) : bool := Z.testbit (bm_byte sb dk b) (b mod 8).

(** The bitmap block of [b], with another byte there. *)
Definition bm_put (sb : superblock) (dk : list block) (b v : Z) : block :=
  set_byte (default [] (dat dk (BBLOCK b sb))) (b mod BPB / 8) v.
Definition bm_mark (sb : superblock) (dk : list block) (b : Z) : block :=
  bm_put sb dk b (Z.lor (bm_byte sb dk b) (Z.shiftl 1 (b mod 8))).
Definition bm_clear (sb : superblock) (dk : list block) (b : Z) : block :=
  bm_put sb dk b (Z.land (bm_byte sb dk b) (Z.lnot (Z.shiftl 1 (b mod 8)))).

(** The layout of the disk: boot block, super block, log, inodes, bitmap, and
    then the data blocks; everything before the data is marked. *)
Definition nbitmap (sb : superblock) : Z := (sb_size sb + BPB - 1) / BPB.
Definition dstart (sb : superblock) : Z := sb_bmapstart sb + nbitmap sb.

Record geo (sb : superblock) (dk : list block) : Prop := Geo {
  g_size : dstart sb <= sb_size sb <= Z.of_nat (length dk);
  g_bound : sb_size sb < 2 ^ 31;
  g_super : decode_sb (default [] (dat dk 1)) = sb;
  g_first : 1 < sb_inodestart sb;
  g_inodes : sb_inodestart sb + sb_ninodes sb / IPB < sb_bmapstart sb;
  g_ninodes : 0 <= sb_ninodes sb < 2 ^ 31;
  g_blocks : Forall is_block dk;
  g_meta : forall b, 0 <= b < dstart sb -> bm_bit sb dk b = true
}.

Lemma geo_pos sb dk : geo sb dk -> 0 < sb_inodestart sb < sb_bmapstart sb.
Proof.
  intros [_ _ _ H4 H5 H6 _ _]. pose proof (Z.div_pos (sb_ninodes sb) IPB ltac:(lia) ltac:(done)). lia.
Qed.

Lemma geo_dstart sb dk : geo sb dk -> sb_bmapstart sb < dstart sb.
Proof.
  intros HG. pose proof (geo_pos _ _ HG). destruct (g_size _ _ HG) as [H1 _]. unfold dstart, nbitmap in *.
  change BPB with 4096 in *. pose proof (Z.div_mod (sb_size sb + 4096 - 1) 4096 ltac:(lia)).
  pose proof (Z.mod_pos_bound (sb_size sb + 4096 - 1) 4096 ltac:(lia)). lia.
Qed.

Section bitmap.
Context (sb : superblock) (dk : list block).
Context (HG : geo sb dk).

Lemma BPB_pos : BPB = 4096.
Proof. done. Qed.

Lemma BBLOCK_eq b : 0 <= b < sb_size sb -> BBLOCK b sb = b / 4096 + sb_bmapstart sb.
Proof.
  intros Hb. unfold BBLOCK. rewrite BPB_pos. destruct HG as [[H1 H2] H3 _ H4 H5 H6 _ _].
  unfold dstart, nbitmap in H1. rewrite BPB_pos in H1.
  pose proof (Z.div_pos (sb_ninodes sb) IPB ltac:(lia) ltac:(done)).
  pose proof (Z.div_le_mono b (sb_size sb + 4096 - 1) 4096 ltac:(lia) ltac:(lia)).
  pose proof (Z.div_pos b 4096 ltac:(lia) ltac:(done)). apply u32_small. lia.
Qed.

Lemma BBLOCK_range b : 0 <= b < sb_size sb -> sb_bmapstart sb <= BBLOCK b sb < dstart sb.
Proof.
  intros Hb. rewrite BBLOCK_eq by done. unfold dstart, nbitmap. rewrite BPB_pos.
  pose proof (Z.div_pos b 4096 ltac:(lia) ltac:(done)).
  assert ((b + 1 * 4096) / 4096 <= (sb_size sb + 4096 - 1) / 4096) as Hle by (apply Z.div_le_mono; lia).
  rewrite Z.div_add in Hle by lia. lia.
Qed.

Lemma BBLOCK_dat b : 0 <= b < sb_size sb -> exists d, dat dk (BBLOCK b sb) = Some d /\ is_block d.
Proof.
  intros Hb. pose proof (BBLOCK_range b Hb) as Hr. destruct HG as [[H1 H2] H3 _ H4 H5 H6 H7 _].
  pose proof (Z.div_pos (sb_ninodes sb) IPB ltac:(lia) ltac:(done)).
  destruct (proj2 (dat_Some dk (BBLOCK b sb))) as [d Hd]; [lia|]. exists d. split; [done|].
  unfold dat in Hd. destruct (_ <? 0); [done|]. by eapply (Forall_lookup_1 _ _ _ _ H7).
Qed.

Lemma bm_index b : 0 <= b mod BPB / 8 < 512.
Proof.
  rewrite BPB_pos. pose proof (Z.mod_pos_bound b 4096 ltac:(lia)).
  split; [apply Z.div_pos; lia|apply Z.div_lt_upper_bound; lia].
Qed.

Lemma bm_put_block b v : 0 <= b < sb_size sb -> is_block (bm_put sb dk b v).
Proof.
  intros Hb. destruct (BBLOCK_dat b Hb) as (d & Hd & [Hl Hf]). unfold bm_put, set_byte. rewrite Hd. simpl.
  split; [by rewrite length_insert|]. apply Forall_insert; [done|]. unfold is_u8, u8.
  pose proof (Z.mod_pos_bound v (2 ^ 8) ltac:(lia)). lia.
Qed.

(** Another byte at the place of [b], seen at [c]. *)
Lemma bm_bit_put b c v :
  0 <= b < sb_size sb -> 0 <= c < sb_size sb ->
  (forall i, 0 <= i < 8 -> i <> b mod 8 -> Z.testbit v i = Z.testbit (bm_byte sb dk b) i) ->
  bm_bit sb (<[Z.to_nat (BBLOCK b sb) := bm_put sb dk b v]> dk) c =
  if decide (c = b) then Z.testbit v (b mod 8) else bm_bit sb dk c.
Proof.
  intros Hb Hc Hv. destruct (BBLOCK_dat b Hb) as (d & Hd & [Hl _]).
  pose proof (proj1 (dat_Some _ _) (mk_is_Some _ _ Hd)) as Hr. pose proof (bm_index b) as Hib.
  pose proof (Z.mod_pos_bound c 8 ltac:(lia)) as Hc8. pose proof (Z.mod_pos_bound b 8 ltac:(lia)) as Hb8.
  unfold bm_bit, bm_byte. destruct (decide (BBLOCK c sb = BBLOCK b sb)) as [Ebb|Ebb].
  - rewrite Ebb, dat_insert_eq by done. simpl. unfold bm_put, set_byte, byte_at. rewrite Hd. simpl.
    destruct (decide (c mod BPB / 8 = b mod BPB / 8)) as [Ei|Ei].
    + rewrite Ei. rewrite (nth_lookup_Some _ _ 0 (u8 v)) by (apply list_lookup_insert_eq; rewrite Hl; unfold BSIZE; lia).
      rewrite u8_testbit by lia. destruct (decide (c = b)) as [->|Hne]; [done|].
      rewrite Hv; [|lia|].
      * unfold bm_byte, byte_at. by rewrite Hd.
      * intros E8. apply Hne. rewrite !BBLOCK_eq in Ebb by lia. rewrite BPB_pos in Ei.
        pose proof (Z.div_mod b 4096 ltac:(lia)). pose proof (Z.div_mod c 4096 ltac:(lia)).
        assert (c mod 4096 mod 8 = b mod 4096 mod 8) as E9.
        { rewrite <- !(Znumtheory.Zmod_div_mod 8 4096) by (done || (exists 512; done)). done. }
        pose proof (Z.div_mod (b mod 4096) 8 ltac:(lia)). pose proof (Z.div_mod (c mod 4096) 8 ltac:(lia)). lia.
    + rewrite decide_False by congruence. pose proof (bm_index c).
      f_equal. rewrite !nth_lookup. rewrite list_lookup_insert_ne by lia. done.
  - rewrite dat_insert_ne by lia. rewrite decide_False by congruence. done.
Qed.

Lemma bm_bit_mark b c :
  0 <= b < sb_size sb -> 0 <= c < sb_size sb ->
  bm_bit sb (<[Z.to_nat (BBLOCK b sb) := bm_mark sb dk b]> dk) c = (bool_decide (c = b) || bm_bit sb dk c).
Proof.
  intros Hb Hc. pose proof (Z.mod_pos_bound b 8 ltac:(lia)). unfold bm_mark. rewrite bm_bit_put; [|done..|].
  - rewrite Z.lor_spec, Z.shiftl_1_l, Z.pow2_bits_true, orb_true_r by lia.
    case_decide as E; [by rewrite bool_decide_eq_true_2|by rewrite bool_decide_eq_false_2].
  - intros i Hi Hne. rewrite Z.lor_spec, Z.shiftl_1_l, Z.pow2_bits_false by lia. apply orb_false_r.
Qed.

Lemma bm_bit_clear b c :
  0 <= b < sb_size sb -> 0 <= c < sb_size sb ->
  bm_bit sb (<[Z.to_nat (BBLOCK b sb) := bm_clear sb dk b]> dk) c = (negb (bool_decide (c = b)) && bm_bit sb dk c).
Proof.
  intros Hb Hc. pose proof (Z.mod_pos_bound b 8 ltac:(lia)). unfold bm_clear. rewrite bm_bit_put; [|done..|].
  - rewrite Z.land_spec, Z.lnot_spec, Z.shiftl_1_l, Z.pow2_bits_true, andb_false_r by lia.
    case_decide as E; [by rewrite bool_decide_eq_true_2|by rewrite bool_decide_eq_false_2].
  - intros i Hi Hne. rewrite Z.land_spec, Z.lnot_spec, Z.shiftl_1_l, Z.pow2_bits_false by lia. apply andb_true_r.
Qed.
End bitmap.

(** A change of a data block leaves the bitmap alone. *)
Lemma bm_bit_data sb dk n d b :
  geo sb dk -> dstart sb <= n -> 0 <= b < sb_size sb -> bm_bit sb (<[Z.to_nat n := d]> dk) b = bm_bit sb dk b.
Proof.
  intros HG Hn Hb. pose proof (BBLOCK_range sb dk HG b Hb) as Hr.
  unfold bm_bit, bm_byte. rewrite dat_insert_ne; [done| |lia].
  destruct HG as [_ _ _ H4 H5 H6 _ _]. pose proof (Z.div_pos (sb_ninodes sb) IPB ltac:(lia) ltac:(done)). lia.
Qed.

(** * [balloc] and [bfree] *)

Definition zeroes : block := replicate (Z.to_nat BSIZE) 0.

Lemma zeroes_block : is_block zeroes.
Proof. split; [apply length_replicate|]. apply Forall_replicate. unfold is_u8. lia. Qed.

(** The view after [balloc] has returned [b], and after [bfree] of [b]. *)
Definition tv_alloc (sb : superblock) (b : Z) (V : tview) : tview :=
  tv_put b zeroes (tv_put (BBLOCK b sb) (bm_mark sb (tv_disk V) b) V).
Definition tv_free (sb : superblock) (b : Z) (V : tview) : tview :=
  tv_put (BBLOCK b sb) (bm_clear sb (tv_disk V) b) V.

(** What fs.c may hold while it allocates: data blocks in use. *)
Record fsok (sb : superblock) (V : tview) : Prop := FsOk {
  fo_geo : geo sb (tv_disk V);
  fo_held : forall n, n ∈ tv_held V -> dstart sb <= n < sb_size sb /\ bm_bit sb (tv_disk V) n = true;
  fo_mod : tv_mod V = ∅
}.

Lemma bm_index_in k bi :
  0 <= bi < BPB -> (k * BPB + bi) mod BPB = bi /\ (k * BPB + bi) mod 8 = bi mod 8 /\ (k * BPB + bi) / BPB = k.
Proof.
  rewrite BPB_pos. intros Hbi. split; [|split].
  - rewrite Z.add_comm, Z.mod_add by lia. by apply Z.mod_small.
  - replace (k * 4096 + bi) with (bi + (k * 512) * 8) by lia. by rewrite Z.mod_add by lia.
  - rewrite Z.add_comm, Z.div_add by lia. rewrite Z.div_small by lia. lia.
Qed.

Section alloc.
Context (sb : superblock) (S : fstate) (V : tview).
Context (HR : repr (fl S) V) (Hsb : fsb S = sb) (HO : fsok sb V).

Lemma not_held_meta n : n < dstart sb -> n ∉ tv_held V.
Proof. intros Hn Hin. destruct (fo_held _ _ HO n Hin). lia. Qed.

(** The inner loop, at one bitmap block. *)
Lemma wp_balloc_bits k (Q : option Z -> fstate -> Prop) l0 :
  let b := k * BPB in
  0 <= b < sb_size sb -> budget V 2 -> repr l0 (tv_hold (BBLOCK b sb) V) ->
  (forall l, repr l (tv_hold (BBLOCK b sb) V) ->
     (forall c, b <= c < b + BPB -> c < sb_size sb -> bm_bit sb (tv_disk V) c = true) -> Q None (set_fl l S)) ->
  (forall c l, b <= c < b + BPB -> dstart sb <= c < sb_size sb -> bm_bit sb (tv_disk V) c = false ->
     (forall c', b <= c' < c -> bm_bit sb (tv_disk V) c' = true) ->
     repr l (tv_alloc sb c V) -> Q (Some c) (set_fl l S)) ->
  wp (mfind (Z.to_nat (Z.min BPB (sb_size sb - b))) 0 (balloc_bit ROOTDEV (BBLOCK b sb) b)) Q (set_fl l0 S).
Proof.
  intros b Hb Hbud Hl0 HN HS. pose proof (fo_geo _ _ HO) as HG. pose proof (geo_pos _ _ HG) as Hgp.
  pose proof (BBLOCK_range sb _ HG b Hb) as Hbb. destruct (BBLOCK_dat sb _ HG b Hb) as (d & Hd & Hdb).
  assert (BBLOCK b sb ∉ tv_held V) as Hnh by (apply not_held_meta; lia).
  eapply (wp_mfind (fun bi t => exists l, t = set_fl l S /\ repr l (tv_hold (BBLOCK b sb) V) /\
      forall c, b <= c < b + bi -> bm_bit sb (tv_disk V) c = true)
    (fun c t => exists l, t = set_fl l S /\ b <= c < b + BPB /\ dstart sb <= c < sb_size sb /\
      bm_bit sb (tv_disk V) c = false /\ (forall c', b <= c' < c -> bm_bit sb (tv_disk V) c' = true) /\
      repr l (tv_alloc sb c V))).
  - exists l0. split; [done|]. split; [done|]. intros c Hc. lia.
  - intros bi t Hbi (l & -> & Hl & Hall). assert (0 <= bi < BPB) as Hbi' by lia.
    destruct (bm_index_in k bi Hbi') as (E1 & E2 & E3). fold b in E1, E2, E3.
    assert (BBLOCK (b + bi) sb = BBLOCK b sb) as Ebb.
    { unfold BBLOCK. rewrite E3. unfold b. by rewrite Z.div_mul by done. }
    apply wp_bind. eapply wp_fdata; [exact Hl|simpl; set_solver|simpl; exact Hd|]. cbv zeta.
    pose proof (Z.mod_pos_bound bi 8 ltac:(lia)). rewrite land_bit by lia.
    assert (bm_bit sb (tv_disk V) (b + bi) = Z.testbit (byte_at d (bi / 8)) (bi mod 8)) as Ebit.
    { unfold bm_bit, bm_byte. rewrite Ebb, Hd, E1, E2. done. }
    destruct (Z.testbit (byte_at d (bi / 8)) (bi mod 8)) eqn:Et; cbn [negb].
    + apply wp_ret. exists l. split; [done|]. split; [done|]. intros c Hc.
      destruct (decide (c = b + bi)) as [->|]; [done|]. apply Hall. lia.
    + assert (dstart sb <= b + bi) as Hds.
      { destruct (Z.le_gt_cases (dstart sb) (b + bi)); [done|]. rewrite (g_meta _ _ HG) in Ebit by lia. done. }
      assert (set_byte d (bi / 8) (Z.lor (byte_at d (bi / 8)) (Z.shiftl 1 (bi mod 8))) =
        bm_mark sb (tv_disk V) (b + bi)) as ->.
      { unfold bm_mark, bm_put, bm_byte. by rewrite Ebb, Hd, E1, E2. }
      eapply wp_commit_then; [exact Hl|done|by rewrite (fo_mod _ _ HO)|apply (bm_put_block sb _ HG); lia|
        destruct Hbud; lia|].
      intros l1 Hl1. apply wp_bind.
      assert (b + bi ∉ tv_held V) as Hnb.
      { intros Hin. destruct (fo_held _ _ HO _ Hin) as [_ Ht]. congruence. }
      destruct (proj2 (dat_Some (tv_disk V) (b + bi))) as [d0 Hd0]; [destruct (g_size _ _ HG); lia|].
      eapply wp_bzero; [exact Hl1|done|by simpl; rewrite (fo_mod _ _ HO)| | |].
      * simpl. rewrite dat_insert_ne; [exact Hd0|lia|lia].
      * apply budget_put. by eapply budget_mono; [exact Hbud|lia].
      * intros l2 Hl2. apply wp_ret. exists l2. split; [done|]. split; [lia|]. split; [lia|]. split; [done|].
        split; [intros c' Hc'; apply Hall; lia|]. unfold tv_alloc. rewrite Ebb. done.
  - intros t (l & -> & Hl & Hall). apply HN; [done|]. intros c Hc Hcs. apply Hall. lia.
  - intros c t (l & -> & H1 & H2 & H3 & H4 & H5). by apply HS.
Qed.

Lemma wp_balloc (Q : Z -> fstate -> Prop) :
  (exists b, 0 <= b < sb_size sb /\ bm_bit sb (tv_disk V) b = false) -> budget V 2 ->
  (forall b l, dstart sb <= b < sb_size sb -> bm_bit sb (tv_disk V) b = false ->
     (forall c, 0 <= c < b -> bm_bit sb (tv_disk V) c = true) ->
     repr l (tv_alloc sb b V) -> Q b (set_fl l S)) ->
  wp (balloc ROOTDEV) Q S.
Proof.
  intros (b0 & Hb0 & Hf0) Hbud HQ. pose proof (fo_geo _ _ HO) as HG. unfold balloc.
  apply wp_bind, wp_gets. rewrite Hsb. apply wp_bind. fold (nbitmap sb).
  assert (0 <= nbitmap sb) as Hnb by (unfold nbitmap; apply Z.div_pos; rewrite ?BPB_pos; lia).
  eapply (wp_mfind (fun k t => exists l, t = set_fl l S /\ repr l V /\
      forall c, 0 <= c < k * BPB -> c < sb_size sb -> bm_bit sb (tv_disk V) c = true)
    (fun c t => exists l, t = set_fl l S /\ dstart sb <= c < sb_size sb /\ bm_bit sb (tv_disk V) c = false /\
      (forall c', 0 <= c' < c -> bm_bit sb (tv_disk V) c' = true) /\ repr l (tv_alloc sb c V))).
  - exists (fl S). split; [by destruct S|]. split; [done|]. intros c Hc. lia.
  - intros k t Hk (l & -> & Hl & Hall). cbv zeta.
    assert (0 <= k * BPB < sb_size sb) as Hkb.
    { unfold nbitmap in *. rewrite BPB_pos in *. rewrite Z2Nat.id in Hk by lia.
      pose proof (Z.div_mod (sb_size sb + 4096 - 1) 4096 ltac:(lia)).
      pose proof (Z.mod_pos_bound (sb_size sb + 4096 - 1) 4096 ltac:(lia)). lia. }
    pose proof (BBLOCK_range sb _ HG _ Hkb) as Hbb. destruct (BBLOCK_dat sb _ HG _ Hkb) as (d & Hd & Hdb).
    assert (BBLOCK (k * BPB) sb ∉ tv_held V) as Hnh by (apply not_held_meta; lia).
    apply wp_bind. eapply wp_fbread; [exact Hl|done|exact Hd|destruct Hbud; lia|]. intros l1 Hl1.
    apply wp_bind. eapply wp_balloc_bits; [done|done|exact Hl1| |].
    + intros l2 Hl2 Hall2. apply wp_bind. eapply wp_fbrelse; [exact Hl2|simpl; set_solver|
        by simpl; rewrite (fo_mod _ _ HO)|]. intros l3 Hl3. apply wp_ret. exists l3. split; [done|].
      rewrite tv_hold_release in Hl3 by done. split; [done|]. intros c Hc Hcs.
      destruct (Z.lt_ge_cases c (k * BPB)); [apply Hall; lia|apply Hall2; lia].
    + intros c l2 H1 H2 H3 H4 H5. apply wp_ret. exists l2. split; [done|]. split; [done|]. split; [done|].
      split; [|done]. intros c' Hc'. destruct (Z.lt_ge_cases c' (k * BPB)); [apply Hall; lia|apply H4; lia].
  - intros t (l & -> & Hl & Hall). exfalso. rewrite Hall in Hf0; [done| |lia].
    unfold nbitmap in *. rewrite BPB_pos in *. rewrite Z2Nat.id by lia.
    pose proof (Z.div_mod (sb_size sb + 4096 - 1) 4096 ltac:(lia)).
    pose proof (Z.mod_pos_bound (sb_size sb + 4096 - 1) 4096 ltac:(lia)). lia.
  - intros c t (l & -> & H1 & H2 & H3 & H4). by apply wp_ret, HQ.
Qed.
End alloc.

Lemma set_fsb_id sb l S : fsb S = sb -> set_fsb sb (set_fl l S) = set_fl l S.
Proof. destruct S. simpl. by intros ->. Qed.

Section free.
Context (sb : superblock) (S : fstate) (V : tview).
Context (HR : repr (fl S) V) (Hsb : fsb S = sb) (HO : fsok sb V).

Lemma wp_freadsb (Q : unit -> fstate -> Prop) :
  0 < tv_room V -> (forall l, repr l V -> Q tt (set_fl l S)) -> wp (freadsb ROOTDEV) Q S.
Proof.
  intros Hroom HQ. pose proof (fo_geo _ _ HO) as HG.
  pose proof (geo_pos _ _ HG) as Hp1. pose proof (geo_dstart _ _ HG) as Hp2. pose proof (g_first _ _ HG) as Hp3.
  destruct (proj2 (dat_Some (tv_disk V) 1)) as [d Hd]; [destruct (g_size _ _ HG); lia|].
  assert (1 ∉ tv_held V) as Hn by (apply (not_held_meta sb V HO); lia).
  destruct (repr_bread _ _ _ _ HR Hn Hd Hroom) as (l1 & E1 & H1).
  destruct (repr_brelse _ _ 1 H1) as (l2 & E2 & H2); [simpl; set_solver|by simpl; rewrite (fo_mod _ _ HO)|].
  rewrite tv_hold_release in H2 by done.
  assert (cache readsb (fl S) = Ok sb l2) as E.
  { unfold cache, zoom in E1, E2 |- *. unfold readsb, bind. destruct (bread 1 (bs (fl S))) as [x b1| | |] eqn:Eb; [|done..].
    injection E1 as -> <-. simpl in E2. destruct (brelse 1 b1) as [u b2| | |]; [|done..]. injection E2 as _ <-.
    simpl. unfold ret. f_equal. pose proof (g_super _ _ HG) as Hs. by rewrite Hd in Hs. }
  exists tt, (set_fl l2 S). split; [|by apply HQ]. unfold freadsb, on_dev, lift. simpl.
  unfold bind, zoom. rewrite E. unfold modify. by rewrite set_fsb_id.
Qed.

Lemma wp_bfree b (Q : unit -> fstate -> Prop) :
  0 <= b < sb_size sb -> bm_bit sb (tv_disk V) b = true -> budget V 1 ->
  (forall l, repr l (tv_free sb b V) -> Q tt (set_fl l S)) -> wp (bfree ROOTDEV b) Q S.
Proof.
  intros Hb Hbit Hbud HQ. pose proof (fo_geo _ _ HO) as HG. unfold bfree. apply wp_bind.
  apply wp_freadsb; [destruct Hbud; lia|]. intros l1 H1. apply wp_bind, wp_gets. simpl fsb. rewrite Hsb. cbv zeta.
  pose proof (BBLOCK_range sb _ HG b Hb) as Hbb. destruct (BBLOCK_dat sb _ HG b Hb) as (d & Hd & Hdb).
  assert (BBLOCK b sb ∉ tv_held V) as Hnh by (apply (not_held_meta sb V HO); lia).
  apply wp_bind. eapply wp_fbread; [exact H1|done|exact Hd|destruct Hbud; lia|]. intros l2 H2.
  assert (b mod BPB mod 8 = b mod 8) as E8.
  { rewrite BPB_pos. rewrite <- (Znumtheory.Zmod_div_mod 8 4096) by (done || (exists 512; done)). done. }
  rewrite E8, land_bit by (apply Z.mod_pos_bound; lia).
  assert (Z.testbit (byte_at d (b mod BPB / 8)) (b mod 8) = true) as Et.
  { unfold bm_bit, bm_byte in Hbit. by rewrite Hd in Hbit. }
  rewrite Et. cbn [negb].
  assert (set_byte d (b mod BPB / 8) (Z.land (byte_at d (b mod BPB / 8)) (Z.lnot (Z.shiftl 1 (b mod 8)))) =
    bm_clear sb (tv_disk V) b) as ->.
  { unfold bm_clear, bm_put, bm_byte. by rewrite Hd. }
  eapply wp_commit_block; [exact H2|done|by rewrite (fo_mod _ _ HO)|by apply (bm_put_block sb _ HG)|
    destruct Hbud; lia|]. intros l3 H3. by apply HQ.
Qed.

Lemma bfree_free b :
  0 <= b < sb_size sb -> bm_bit sb (tv_disk V) b = false -> 0 < tv_room V ->
  bfree ROOTDEV b S = Panic "freeing free block".
Proof.
  intros Hb Hbit Hroom. pose proof (fo_geo _ _ HO) as HG. unfold bfree.
  assert (wp (freadsb ROOTDEV) (fun _ t => exists l, t = set_fl l S /\ repr l V) S) as (u & t & E1 & l1 & -> & H1).
  { apply wp_freadsb; eauto. }
  rewrite (bind_ok _ _ _ _ _ E1). unfold bind at 1, gets. simpl fsb. rewrite Hsb. cbv zeta.
  pose proof (BBLOCK_range sb _ HG b Hb) as Hbb. destruct (BBLOCK_dat sb _ HG b Hb) as (d & Hd & Hdb).
  assert (BBLOCK b sb ∉ tv_held V) as Hnh by (apply (not_held_meta sb V HO); lia).
  assert (wp (fbread ROOTDEV (BBLOCK b sb)) (fun x _ => x = d) (set_fl l1 S)) as (x & t2 & E2 & ->).
  { eapply wp_fbread; [exact H1|done|exact Hd|done|done]. }
  rewrite (bind_ok _ _ _ _ _ E2).
  assert (b mod BPB mod 8 = b mod 8) as E8.
  { rewrite BPB_pos. rewrite <- (Znumtheory.Zmod_div_mod 8 4096) by (done || (exists 512; done)). done. }
  rewrite E8, land_bit by (apply Z.mod_pos_bound; lia).
  unfold bm_bit, bm_byte in Hbit. rewrite Hd in Hbit. simpl in Hbit. by rewrite Hbit.
Qed.
End free.

(** * What the updates keep *)

Lemma geo_put sb dk n d :
  geo sb dk -> is_block d -> 1 < n ->
  (dstart sb <= n \/ n < sb_bmapstart sb \/
   forall b, 0 <= b < dstart sb -> bm_bit sb (<[Z.to_nat n := d]> dk) b = true) ->
  geo sb (<[Z.to_nat n := d]> dk).
Proof.
  intros HG Hd Hn Hor. pose proof (geo_pos _ _ HG) as Hgp. split; try apply HG.
  - rewrite length_insert. apply HG.
  - rewrite dat_insert_ne by lia. apply HG.
  - apply Forall_insert; [apply HG|done].
  - intros b Hb. pose proof (g_size _ _ HG). destruct Hor as [Hor|[Hor|Hor]]; [| |by apply Hor].
    + rewrite bm_bit_data; [by apply (g_meta _ _ HG)|done|done|lia].
    + unfold bm_bit, bm_byte. rewrite dat_insert_ne; [by apply (g_meta _ _ HG)|lia|].
      pose proof (BBLOCK_range sb _ HG b ltac:(lia)). lia.
Qed.

Section keep.
Context (sb : superblock) (V : tview).
Context (HO : fsok sb V).

Let HG := fo_geo _ _ HO.

Lemma geo_mark b : 0 <= b < sb_size sb ->
  geo sb (<[Z.to_nat (BBLOCK b sb) := bm_mark sb (tv_disk V) b]> (tv_disk V)).
Proof.
  intros Hb. pose proof (g_size _ _ HG). pose proof (geo_pos _ _ HG).
  pose proof (BBLOCK_range sb _ HG b Hb). apply geo_put; [done|by apply (bm_put_block sb _ HG)|lia|]. right. right.
  intros c Hc. rewrite (bm_bit_mark sb _ HG) by lia. rewrite (g_meta _ _ HG) by done. apply orb_true_r.
Qed.

Lemma alloc_bits b c : dstart sb <= b < sb_size sb -> 0 <= c < sb_size sb ->
  bm_bit sb (tv_disk (tv_alloc sb b V)) c = bool_decide (c = b) || bm_bit sb (tv_disk V) c.
Proof.
  intros Hb Hc. pose proof (geo_pos _ _ HG). pose proof (geo_dstart _ _ HG).
  unfold tv_alloc, tv_put. simpl. rewrite bm_bit_data; [|apply geo_mark; lia|lia|done].
  apply (bm_bit_mark sb _ HG); lia.
Qed.

(** Blocks that are neither the allocated one nor part of the bitmap stay. *)
Lemma alloc_other b n : dstart sb <= b < sb_size sb -> n <> b -> (n < sb_bmapstart sb \/ dstart sb <= n) ->
  dat (tv_disk (tv_alloc sb b V)) n = dat (tv_disk V) n.
Proof.
  intros Hb Hn Hr. pose proof (geo_pos _ _ HG). pose proof (geo_dstart _ _ HG).
  pose proof (BBLOCK_range sb _ HG b ltac:(lia)).
  unfold tv_alloc, tv_put. simpl. rewrite !dat_insert_ne by lia. done.
Qed.

Lemma alloc_zero b : dstart sb <= b < sb_size sb -> dat (tv_disk (tv_alloc sb b V)) b = Some zeroes.
Proof.
  intros Hb. pose proof (geo_pos _ _ HG). pose proof (geo_dstart _ _ HG). pose proof (g_size _ _ HG).
  unfold tv_alloc, tv_put. simpl. rewrite dat_insert_eq; [done|]. rewrite length_insert. lia.
Qed.

Lemma fsok_alloc b : dstart sb <= b < sb_size sb -> fsok sb (tv_alloc sb b V).
Proof.
  intros Hb. pose proof (geo_pos _ _ HG). pose proof (geo_dstart _ _ HG). split.
  - unfold tv_alloc, tv_put. simpl. apply geo_put; [apply geo_mark; lia|apply zeroes_block|lia|left; lia].
  - intros n Hn. destruct (fo_held _ _ HO n Hn) as [H1 H2]. split; [done|].
    rewrite alloc_bits by lia. rewrite H2. apply orb_true_r.
  - apply (fo_mod _ _ HO).
Qed.

Lemma free_bits b c : 0 <= b < sb_size sb -> 0 <= c < sb_size sb ->
  bm_bit sb (tv_disk (tv_free sb b V)) c = negb (bool_decide (c = b)) && bm_bit sb (tv_disk V) c.
Proof. intros Hb Hc. by apply (bm_bit_clear sb _ HG). Qed.

Lemma free_other b n : 0 <= b < sb_size sb -> (n < sb_bmapstart sb \/ dstart sb <= n) ->
  dat (tv_disk (tv_free sb b V)) n = dat (tv_disk V) n.
Proof.
  intros Hb Hr. pose proof (BBLOCK_range sb _ HG b Hb). pose proof (geo_pos _ _ HG).
  unfold tv_free, tv_put. simpl. apply dat_insert_ne; lia.
Qed.

Lemma fsok_free b : dstart sb <= b < sb_size sb -> b ∉ tv_held V -> fsok sb (tv_free sb b V).
Proof.
  intros Hb Hh. pose proof (geo_pos _ _ HG). pose proof (geo_dstart _ _ HG). pose proof (g_size _ _ HG).
  pose proof (BBLOCK_range sb _ HG b ltac:(lia)). split.
  - unfold tv_free, tv_put. simpl. apply geo_put; [done|apply (bm_put_block sb _ HG); lia|lia|]. right. right.
    intros c Hc. rewrite (bm_bit_clear sb _ HG) by lia. rewrite (g_meta _ _ HG) by done.
    by rewrite bool_decide_eq_false_2 by lia.
  - intros n Hn. destruct (fo_held _ _ HO n Hn) as [H1' H2']. split; [done|].
    rewrite free_bits by lia. rewrite H2'. by rewrite bool_decide_eq_false_2 by (intros ->; done).
  - apply (fo_mod _ _ HO).
Qed.

(** Writing a data block. *)
Lemma fsok_put n d : is_block d -> dstart sb <= n -> fsok sb (tv_put n d V).
Proof.
  intros Hd Hn. pose proof (geo_pos _ _ HG). pose proof (geo_dstart _ _ HG). split.
  - apply geo_put; [done|done|lia|by left].
  - intros m Hm. destruct (fo_held _ _ HO m Hm) as [H1 H2]. split; [done|]. simpl. rewrite bm_bit_data; [done..|lia].
  - apply (fo_mod _ _ HO).
Qed.

(** Writing an inode block. *)
Lemma fsok_put_inode n d : is_block d -> 1 < n < sb_bmapstart sb -> fsok sb (tv_put n d V).
Proof.
  intros Hd Hn. pose proof (geo_pos _ _ HG). pose proof (geo_dstart _ _ HG). pose proof (g_size _ _ HG). split.
  - apply geo_put; [done|done|lia|right; left; lia].
  - intros m Hm. destruct (fo_held _ _ HO m Hm) as [Hm1 Hm2]. split; [done|]. simpl.
    unfold bm_bit, bm_byte. rewrite dat_insert_ne; [done|lia|].
    pose proof (BBLOCK_range sb _ HG m ltac:(lia)). lia.
  - apply (fo_mod _ _ HO).
Qed.

Lemma fsok_hold n : dstart sb <= n < sb_size sb -> bm_bit sb (tv_disk V) n = true -> fsok sb (tv_hold n V).
Proof.
  intros Hn Hb. split; simpl; [done| |apply HO].
  intros m [->%elem_of_singleton|Hm]%elem_of_union; [done|by apply (fo_held _ _ HO)].
Qed.
End keep.

(** C17. The block allocator: inside a transaction with room for two blocks and
    a free block on the disk, [balloc] returns the first free data block, marks
    it and only it in the bitmap, fills it with zeroes, and changes no block
    outside the bitmap but that one; [bfree] of a marked data block clears its
    mark and only its mark; and [bfree] of a block that is not marked panics. *)
Theorem block_allocator sb S V :
  repr (fl S) V -> fsb S = sb -> fsok sb V -> budget V 2 ->
  ((exists b, 0 <= b < sb_size sb /\ bm_bit sb (tv_disk V) b = false) ->
   wp (balloc ROOTDEV) (fun b S' => exists V', repr (fl S') V' /\ fsok sb V' /\
     dstart sb <= b < sb_size sb /\ bm_bit sb (tv_disk V) b = false /\
     (forall c, 0 <= c < b -> bm_bit sb (tv_disk V) c = true) /\
     (forall c, 0 <= c < sb_size sb -> bm_bit sb (tv_disk V') c = bool_decide (c = b) || bm_bit sb (tv_disk V) c) /\
     dat (tv_disk V') b = Some zeroes /\
     (forall n, n <> b -> n < sb_bmapstart sb \/ dstart sb <= n -> dat (tv_disk V') n = dat (tv_disk V) n)) S) /\
  (forall b, dstart sb <= b < sb_size sb -> b ∉ tv_held V -> bm_bit sb (tv_disk V) b = true ->
   wp (bfree ROOTDEV b) (fun _ S' => exists V', repr (fl S') V' /\ fsok sb V' /\
     (forall c, 0 <= c < sb_size sb ->
        bm_bit sb (tv_disk V') c = negb (bool_decide (c = b)) && bm_bit sb (tv_disk V) c) /\
     (forall n, n < sb_bmapstart sb \/ dstart sb <= n -> dat (tv_disk V') n = dat (tv_disk V) n)) S) /\
  (forall b, 0 <= b < sb_size sb -> bm_bit sb (tv_disk V) b = false ->
     bfree ROOTDEV b S = Panic "freeing free block").
Proof.
  intros HR Hsb HO Hbud. pose proof (geo_pos _ _ (fo_geo _ _ HO)). pose proof (geo_dstart _ _ (fo_geo _ _ HO)).
  split; [|split].
  - intros Hf. eapply wp_balloc; [done..|]. intros b l Hb Hbit Hfirst Hl. exists (tv_alloc sb b V).
    split; [done|]. split; [by apply fsok_alloc|]. split; [done|]. split; [done|]. split; [done|].
    split; [intros c Hc; by apply alloc_bits|]. split; [by apply alloc_zero|]. intros n Hn Hr. by apply alloc_other.
  - intros b Hb Hh Hbit. eapply wp_bfree; [done|done|done|lia|done|by eapply budget_mono; [done|lia]|].
    intros l Hl. exists (tv_free sb b V). split; [done|]. split; [by apply fsok_free|].
    split; [intros c Hc; apply free_bits; [done|lia|done]|]. intros n Hr. apply free_other; [done|lia|done].
  - intros b Hb Hbit. eapply bfree_free; [done..|]. destruct Hbud. lia.
Qed.

(** * A small disk *)

(** [geo], checked. *)
Definition geo_check (sb : superblock) (dk : list block) : bool :=
  (dstart sb <=? sb_size sb) && (sb_size sb <=? Z.of_nat (length dk)) && (sb_size sb <? 2 ^ 31) &&
  (1 <? sb_inodestart sb) && (sb_inodestart sb + sb_ninodes sb / IPB <? sb_bmapstart sb) &&
  (0 <=? sb_ninodes sb) && (sb_ninodes sb <? 2 ^ 31) &&
  forallb (fun d => (length d =? 512)%nat && forallb (fun c => (0 <=? c) && (c <? 256)) d) dk &&
  forallb (fun b => bm_bit sb dk b) (seqZ 0 (dstart sb)).

Lemma geo_check_ok sb dk :
  geo_check sb dk = true -> decode_sb (default [] (dat dk 1)) = sb -> geo sb dk.
Proof.
  unfold geo_check. rewrite !andb_true_iff, !Z.leb_le, !Z.ltb_lt, !forallb_forall.
  intros ((((((((H1 & H2) & H3) & H4) & H5) & H6) & H7) & H8) & H9) Hs. split; try done; try lia.
  - apply Forall_forall. intros d Hd. apply list_elem_of_In, H8 in Hd.
    apply andb_true_iff in Hd as [Hl Hf]. apply Nat.eqb_eq in Hl. split; [done|].
    rewrite forallb_forall in Hf. apply Forall_forall. intros c Hc. apply list_elem_of_In, Hf in Hc.
    apply andb_true_iff in Hc as [Ha%Z.leb_le Hb%Z.ltb_lt]. done.
  - intros b Hb. apply H9, list_elem_of_In, elem_of_seqZ. lia.
Qed.

(** An operation that has just begun. *)
Lemma repr_begun l d w :
  lg_lock l = false -> 1 <= lg_outstanding l -> length (lh_block l) = Z.to_nat LOGSIZE -> lh_n l = 0 ->
  Forall is_block d ->
  repr (LState l (quiet d ∅ w)) (TView d ∅ ∅ ∅ (Z.min LOGSIZE (lg_size l - 1))).
Proof.
  intros H1 H2 H3 H4 H5. split; simpl; try done.
  - unfold active. by rewrite H4.
Qed.

(** 48 blocks: log at 2, inodes at 33, bitmap at 35, data from 36 on. *)
Definition demo_sb : superblock := Superblock 48 12 8 31 2 33 35.
Definition demo_super : block :=
  enc 4 48 ++ enc 4 12 ++ enc 4 8 ++ enc 4 31 ++ enc 4 2 ++ enc 4 33 ++ enc 4 35 ++ replicate 484 0.
Definition demo_bitmap : block := [255; 255; 255; 255; 15] ++ replicate 507 0.
Definition demo_blocks : list block :=
  <[1%nat := demo_super]> (<[35%nat := demo_bitmap]> (replicate 48 zeroes)).
Definition demo_fslog : log := Log false 2 31 1 false 1 0 (replicate 30 0).
Definition demo_fs : fstate :=
  FState (LState demo_fslog (quiet demo_blocks ∅ [])) demo_sb false (replicate NINODE inode0) 3 0.
Definition demo_view : tview := TView demo_blocks ∅ ∅ ∅ 30.

Lemma demo_geo : geo demo_sb demo_blocks.
Proof. apply geo_check_ok; vm_compute; reflexivity. Qed.

Lemma demo_repr : repr (fl demo_fs) demo_view.
Proof. apply (repr_begun demo_fslog demo_blocks []); try done. apply demo_geo. Qed.

Lemma demo_fsok : fsok demo_sb demo_view.
Proof. split; [apply demo_geo|set_solver|done]. Qed.

Lemma block_allocator_witness :
  exists V', repr (fl demo_fs) demo_view /\ fsok demo_sb V' /\
    wp (balloc ROOTDEV) (fun b S' => b = 36 /\ dat (tv_disk V') 36 = Some zeroes) demo_fs.
Proof.
  destruct (block_allocator demo_sb demo_fs demo_view demo_repr eq_refl demo_fsok) as [H _].
  { split; vm_compute; discriminate. }
  destruct H as (b & S' & E & V' & HR & HO & Hb & Hbit & Hfirst & Hbits & Hz & _).
  { exists 40. split; [vm_compute; split; [discriminate|reflexivity]|vm_compute; reflexivity]. }
  assert (b = 36) as ->.
  { assert (dstart demo_sb = 36) as Ed by reflexivity. rewrite Ed in Hb.
    destruct (Z.lt_ge_cases 36 b) as [Hlt|]; [|lia]. specialize (Hfirst 36 ltac:(lia)). vm_compute in Hfirst. discriminate. }
  exists V'. split; [exact demo_repr|]. split; [exact HO|]. exists 36, S'. split; [exact E|]. split; [reflexivity|exact Hz].
Defined.
