(* ===== verification/FsInode.v ===== *)
(** Inodes on disk and in the cache: the 64-byte encoding of [struct dinode], the
    round trip of [iupdate] and [ilock], and the invariant of the inode cache
    under [iget], [idup] and [iput]. *)
From stdpp Require Import base numbers list gmap sets strings.
From Stdlib Require Import ZArith Lia.
From S2P Require Import Prelude Bytes Mem Sleeplock Disk BlockLayer Super Log LogOps Tx Fs FsBlocks.

(** * The encoding *)

Lemma splice_adj {A} (l a b : list A) o :
  0 <= o -> o + Z.of_nat (length a) + Z.of_nat (length b) <= Z.of_nat (length l) ->
  splice (splice l o a) (o + Z.of_nat (length a)) b = splice l o (a ++ b).
Proof.
  intros Ho Hl. apply list_eq. intros k.
  assert (length (splice l o a) = length l) as Hla by (apply length_splice; lia).
  destruct (decide (Z.to_nat o <= k < Z.to_nat o + length (a ++ b))%nat) as [Hin|Hout].
  - rewrite (lookup_splice_in l o (a ++ b)) by (done || lia). rewrite length_app in Hin.
    destruct (decide (k < Z.to_nat o + length a)%nat).
    + rewrite lookup_splice_out by (rewrite ?Hla; lia). rewrite lookup_splice_in by lia.
      by rewrite lookup_app_l by lia.
    + rewrite lookup_splice_in by (rewrite ?Hla; lia). rewrite lookup_app_r by lia. f_equal. lia.
  - rewrite (lookup_splice_out l o (a ++ b)) by (rewrite ?length_app in *; lia). rewrite length_app in Hout.
    rewrite !lookup_splice_out by (rewrite ?Hla; lia). done.
Qed.

Lemma slice_slice {A} (l : list A) o n a m :
  0 <= o -> 0 <= a -> 0 <= m -> a + m <= n -> slice (slice l o n) a m = slice l (o + a) m.
Proof.
  intros Ho Ha Hm Hn. apply list_eq. intros k. destruct (decide (Z.of_nat k < m)).
  - rewrite !lookup_slice by lia. f_equal. lia.
  - unfold slice. rewrite !lookup_take_ge by lia. done.
Qed.

Definition enc_addrs (l : list Z) : list Z := concat (enc 4 <$> l).
Definition enc_dinode (i : dinode) : list Z :=
  enc 2 (di_type i) ++ enc 2 (di_major i) ++ enc 2 (di_minor i) ++ enc 2 (di_nlink i) ++
  enc 4 (di_size i) ++ enc_addrs (di_addrs i).

Lemma length_enc_addrs l : length (enc_addrs l) = (4 * length l)%nat.
Proof. unfold enc_addrs. induction l as [|a l IH]; [done|]. cbn [fmap list_fmap concat length]. rewrite length_app, IH, length_enc. lia. Qed.

Lemma enc_addrs_u8 l : Forall is_u8 (enc_addrs l).
Proof.
  unfold enc_addrs. induction l as [|a l IH]; [constructor|]. cbn [fmap list_fmap concat].
  apply Forall_app. split; [apply enc_u8|done].
Qed.

Lemma length_enc_dinode i : length (di_addrs i) = 13%nat -> length (enc_dinode i) = 64%nat.
Proof. intros H. unfold enc_dinode. rewrite !length_app, !length_enc, length_enc_addrs, H. done. Qed.

Lemma put_addrs_splice d o l :
  0 <= o -> o + 4 * Z.of_nat (length l) <= Z.of_nat (length d) -> put_addrs d o l = splice d o (enc_addrs l).
Proof.
  revert d o. induction l as [|a l IH]; intros d o Ho Hl.
  - cbn. unfold splice. simpl. rewrite Nat.add_0_r, take_drop. done.
  - cbn [put_addrs]. simpl in Hl. assert (length (put32 d o a) = length d) as E by (apply length_put32; lia).
    rewrite IH by (rewrite ?E; lia). unfold put32.
    replace (o + 4) with (o + Z.of_nat (length (enc 4 a))) by (rewrite length_enc; lia).
    rewrite splice_adj; [done|lia|]. rewrite length_enc, length_enc_addrs. lia.
Qed.

(** Adjacent pieces, written one after the other. *)
Local Ltac merge_splices Ha :=
  repeat match goal with |- context [splice (splice ?x ?o ?a) ?o' ?b] =>
    replace o' with (o + Z.of_nat (length a)) by (rewrite ?length_app, ?length_enc; lia);
    rewrite (splice_adj x a b o) by (rewrite ?length_app, ?length_enc, ?length_enc_addrs, ?Ha; lia)
  end.

Lemma put_dinode_splice d o i :
  0 <= o -> o + 64 <= Z.of_nat (length d) -> length (di_addrs i) = 13%nat ->
  put_dinode d o i = splice d o (enc_dinode i).
Proof.
  intros Ho Hl Ha. unfold put_dinode, put32, put16. merge_splices Ha.
  rewrite put_addrs_splice; [|lia|rewrite length_splice, Ha; rewrite ?length_app, ?length_enc; lia].
  merge_splices Ha.
  unfold enc_dinode. by rewrite <- !app_assoc.
Qed.

(** Fields in the ranges of their C types. *)
Definition is_i16 (z : Z) : Prop := - 2 ^ 15 <= z < 2 ^ 15.
Record dinode_ok (i : dinode) : Prop := DinodeOk {
  do_type : is_i16 (di_type i);
  do_major : is_i16 (di_major i);
  do_minor : is_i16 (di_minor i);
  do_nlink : is_i16 (di_nlink i);
  do_size : is_u32 (di_size i);
  do_len : length (di_addrs i) = 13%nat;
  do_addrs : Forall is_u32 (di_addrs i)
}.

Lemma i16_u16 z : is_i16 z -> i16 (u16 z) = z.
Proof.
  unfold is_i16, i16, u16. intros Hz.
  assert (z mod 2 ^ 16 = z \/ z mod 2 ^ 16 = z + 2 ^ 16) as [-> | ->].
  { destruct (Z.lt_ge_cases z 0); [right|left; apply Z.mod_small; lia].
    symmetry. apply (Zmod_unique _ _ (-1)); lia. }
  - rewrite Z.mod_small; lia.
  - replace (z + 2 ^ 16 + 2 ^ 15) with (z + 2 ^ 15 + 1 * 2 ^ 16) by lia.
    rewrite Z.mod_add, Z.mod_small; lia.
Qed.

Lemma slice_mid {A} (a b c : list A) o n :
  o = Z.of_nat (length a) -> n = Z.of_nat (length b) -> slice (a ++ b ++ c) o n = b.
Proof.
  intros -> ->. unfold slice. rewrite !Nat2Z.id, drop_app_length. apply take_app_length.
Qed.

Lemma get_enc_addrs l pre post o k a :
  o = Z.of_nat (length pre) -> l !! k = Some a -> is_u32 a ->
  get32 (pre ++ enc_addrs l ++ post) (o + 4 * Z.of_nat k) = a.
Proof.
  intros -> Hk Ha. unfold get32.
  assert (enc_addrs l = enc_addrs (take k l) ++ enc 4 a ++ enc_addrs (drop (S k) l)) as ->.
  { rewrite <- (take_drop_middle l k a Hk) at 1. unfold enc_addrs. rewrite fmap_app, concat_app. done. }
  rewrite <- !app_assoc, (app_assoc pre). rewrite slice_mid.
  - rewrite dec_enc_id; [done|]. unfold is_u32 in Ha. done.
  - rewrite length_app, length_enc_addrs, length_take. pose proof (lookup_lt_Some _ _ _ Hk). lia.
  - by rewrite length_enc.
Qed.

Lemma get_addrs_enc l pre post o :
  o = Z.of_nat (length pre) -> Forall is_u32 l -> get_addrs (pre ++ enc_addrs l ++ post) o (length l) = l.
Proof.
  intros Ho Hl. apply list_eq. intros k. unfold get_addrs. rewrite list_lookup_fmap.
  destruct (l !! k) as [a|] eqn:E.
  - pose proof (lookup_lt_Some _ _ _ E). rewrite lookup_seq_lt by done. simpl.
    f_equal. apply get_enc_addrs; [done|done|]. by eapply (Forall_lookup_1 _ _ _ _ Hl).
  - apply lookup_ge_None in E. by rewrite lookup_seq_ge by done.
Qed.

Lemma get_dinode_slice d o : 0 <= o -> get_dinode d o = get_dinode (slice d o 64) 0.
Proof.
  intros Ho. unfold get_dinode, get16, get32. rewrite !slice_slice by lia.
  rewrite !Z.add_0_l, !Z.add_0_r. f_equal.
  unfold get_addrs. apply list_fmap_ext. intros k n Hn. apply lookup_seq in Hn as [-> Hk].
  unfold get32. rewrite slice_slice by lia. f_equal. f_equal. lia.
Qed.

Lemma get_enc_dinode i : dinode_ok i -> get_dinode (enc_dinode i) 0 = i.
Proof.
  intros [H1 H2 H3 H4 H5 H6 H7]. destruct i as [t ma mi nl sz ad]. simpl in *. unfold get_dinode. f_equal.
  1-4: unfold get16, enc_dinode; cbn [di_type di_major di_minor di_nlink di_size di_addrs].
  - unfold slice. rewrite drop_0, take_app_length' by (rewrite length_enc; done). rewrite dec_enc. by apply i16_u16.
  - rewrite (slice_mid (enc 2 t) (enc 2 ma)) by (rewrite ?length_enc; done). rewrite dec_enc. by apply i16_u16.
  - rewrite (app_assoc (enc 2 t)), (slice_mid _ (enc 2 mi)) by (rewrite ?length_app, ?length_enc; done).
    rewrite dec_enc. by apply i16_u16.
  - rewrite (app_assoc (enc 2 t)), (app_assoc (enc 2 t ++ _)), (slice_mid _ (enc 2 nl))
      by (rewrite ?length_app, ?length_enc; done).
    rewrite dec_enc. by apply i16_u16.
  - unfold get32, enc_dinode. cbn [di_type di_major di_minor di_nlink di_size di_addrs].
    replace (enc 2 t ++ _) with ((enc 2 t ++ enc 2 ma ++ enc 2 mi ++ enc 2 nl) ++ enc 4 sz ++ enc_addrs ad)
      by (by rewrite <- !app_assoc).
    rewrite slice_mid by (rewrite ?length_app, ?length_enc; done).
    rewrite dec_enc_id; [done|]. by unfold is_u32 in H5.
  - rewrite <- H6. unfold enc_dinode. cbn [di_type di_major di_minor di_nlink di_size di_addrs].
    replace (enc 2 t ++ _) with ((enc 2 t ++ enc 2 ma ++ enc 2 mi ++ enc 2 nl ++ enc 4 sz) ++ enc_addrs ad ++ [])
      by (by rewrite app_nil_r, <- !app_assoc).
    apply get_addrs_enc; [|done].
    rewrite !length_app, !length_enc. done.
Qed.

Lemma get_put_dinode d o i :
  0 <= o -> o + 64 <= Z.of_nat (length d) -> dinode_ok i -> get_dinode (put_dinode d o i) o = i.
Proof.
  intros Ho Hl Hi. rewrite put_dinode_splice by (done || apply Hi). rewrite get_dinode_slice by done.
  pose proof (length_enc_dinode i (do_len _ Hi)) as El.
  replace 64 with (Z.of_nat (length (enc_dinode i))) by (rewrite El; done).
  rewrite slice_splice_eq by (rewrite ?El; lia). by apply get_enc_dinode.
Qed.

Lemma get_put_dinode_ne d o o' i :
  0 <= o -> o + 64 <= Z.of_nat (length d) -> 0 <= o' -> length (di_addrs i) = 13%nat ->
  o' + 64 <= o \/ o + 64 <= o' -> get_dinode (put_dinode d o i) o' = get_dinode d o'.
Proof.
  intros Ho Hl Ho' Hi Hor. rewrite put_dinode_splice by done.
  rewrite (get_dinode_slice _ o'), (get_dinode_slice d o') by done.
  pose proof (length_enc_dinode i Hi) as El.
  by rewrite slice_splice_disj by (rewrite ?El; lia).
Qed.

Lemma put_dinode_block d o i :
  is_block d -> 0 <= o -> o + 64 <= 512 -> length (di_addrs i) = 13%nat -> is_block (put_dinode d o i).
Proof.
  intros [Hl Hf] Ho Ho2 Hi. unfold BSIZE in Hl. rewrite put_dinode_splice by (done || lia).
  pose proof (length_enc_dinode i Hi) as El. split.
  - rewrite length_splice by lia. done.
  - apply splice_u8; [done|]. unfold enc_dinode. rewrite !Forall_app.
    split_and!; try apply enc_u8. apply enc_addrs_u8.
Qed.

(** * Inodes on the disk *)

Definition ioff (inum : Z) : Z := inum mod IPB * DINODE.
Definition disk_inode (sb : superblock) (dk : list block) (inum : Z) : dinode :=
  get_dinode (default [] (dat dk (IBLOCK inum sb))) (ioff inum).

(** The view after [iupdate]. *)
Definition tv_inode (sb : superblock) (inum : Z) (di : dinode) (V : tview) : tview :=
  tv_put (IBLOCK inum sb) (put_dinode (default [] (dat (tv_disk V) (IBLOCK inum sb))) (ioff inum) di) V.

Lemma ioff_range inum : 0 <= ioff inum /\ ioff inum + 64 <= 512.
Proof.
  unfold ioff. change IPB with 8. change DINODE with 64.
  pose proof (Z.mod_pos_bound inum 8 ltac:(lia)). lia.
Qed.

Section disk_inodes.
Context (sb : superblock) (V : tview).
Context (HO : fsok sb V).

Let HG := fo_geo _ _ HO.

Lemma IBLOCK_eq inum : 0 <= inum < sb_ninodes sb -> IBLOCK inum sb = inum / 8 + sb_inodestart sb.
Proof.
  intros Hn. unfold IBLOCK. change IPB with 8.
  pose proof (geo_pos _ _ HG). pose proof (g_inodes _ _ HG) as Hi. change IPB with 8 in Hi.
  pose proof (g_size _ _ HG). pose proof (g_bound _ _ HG). pose proof (geo_dstart _ _ HG).
  pose proof (Z.div_le_mono inum (sb_ninodes sb) 8 ltac:(lia) ltac:(lia)).
  pose proof (Z.div_pos inum 8 ltac:(lia) ltac:(lia)). apply u32_small. lia.
Qed.

Lemma IBLOCK_range inum : 0 <= inum < sb_ninodes sb -> 1 < IBLOCK inum sb < sb_bmapstart sb.
Proof.
  intros Hn. rewrite IBLOCK_eq by done.
  pose proof (g_first _ _ HG). pose proof (g_inodes _ _ HG) as Hi. change IPB with 8 in Hi.
  pose proof (Z.div_le_mono inum (sb_ninodes sb) 8 ltac:(lia) ltac:(lia)).
  pose proof (Z.div_pos inum 8 ltac:(lia) ltac:(lia)). lia.
Qed.

Lemma IBLOCK_dat inum : 0 <= inum < sb_ninodes sb ->
  exists d, dat (tv_disk V) (IBLOCK inum sb) = Some d /\ is_block d.
Proof.
  intros Hn. pose proof (IBLOCK_range inum Hn). pose proof (geo_dstart _ _ HG). pose proof (g_size _ _ HG).
  destruct (proj2 (dat_Some (tv_disk V) (IBLOCK inum sb))) as [d Hd]; [lia|]. exists d. split; [done|].
  unfold dat in Hd. destruct (_ <? 0); [done|]. by eapply (Forall_lookup_1 _ _ _ _ (g_blocks _ _ HG)).
Qed.

Lemma inode_block inum di : 0 <= inum < sb_ninodes sb -> length (di_addrs di) = 13%nat ->
  is_block (put_dinode (default [] (dat (tv_disk V) (IBLOCK inum sb))) (ioff inum) di).
Proof.
  intros Hn Hd. destruct (IBLOCK_dat inum Hn) as (d & E & Hb). rewrite E. simpl. pose proof (ioff_range inum).
  apply put_dinode_block; [done|lia|lia|done].
Qed.

Lemma fsok_inode inum di :
  0 <= inum < sb_ninodes sb -> length (di_addrs di) = 13%nat -> fsok sb (tv_inode sb inum di V).
Proof.
  intros Hn Hd. apply fsok_put_inode; [done|by apply inode_block|by apply IBLOCK_range].
Qed.

(** [iupdate] changes the inode, and no other. *)
Lemma disk_inode_put inum di m :
  0 <= inum < sb_ninodes sb -> 0 <= m < sb_ninodes sb -> dinode_ok di ->
  disk_inode sb (tv_disk (tv_inode sb inum di V)) m = if decide (m = inum) then di else disk_inode sb (tv_disk V) m.
Proof.
  intros Hn Hm Hd. destruct (IBLOCK_dat inum Hn) as (d & E & [Hl _]).
  pose proof (proj1 (dat_Some _ _) (mk_is_Some _ _ E)) as Hr. unfold BSIZE in Hl.
  pose proof (ioff_range inum). pose proof (ioff_range m).
  unfold disk_inode, tv_inode, tv_put. simpl. rewrite E. simpl.
  destruct (decide (IBLOCK m sb = IBLOCK inum sb)) as [Eb|Eb].
  - rewrite Eb, dat_insert_eq by done. simpl. case_decide as Em.
    + subst m. apply get_put_dinode; [lia|lia|done].
    + rewrite E. simpl. apply get_put_dinode_ne; [lia|lia|lia|apply Hd|].
      rewrite !IBLOCK_eq in Eb by done. unfold ioff. change IPB with 8. change DINODE with 64.
      pose proof (Z.div_mod m 8 ltac:(lia)). pose proof (Z.div_mod inum 8 ltac:(lia)). lia.
  - rewrite decide_False by congruence. by rewrite dat_insert_ne by lia.
Qed.

Lemma tv_inode_other inum di n :
  0 <= inum < sb_ninodes sb -> sb_bmapstart sb <= n -> dat (tv_disk (tv_inode sb inum di V)) n = dat (tv_disk V) n.
Proof.
  intros Hn Hge. pose proof (IBLOCK_range inum Hn). unfold tv_inode, tv_put. simpl. apply dat_insert_ne; lia.
Qed.
End disk_inodes.

(** Two disks with the same blocks before the bitmap have the same inodes. *)
Lemma disk_inode_ext sb V dk inum :
  fsok sb V -> 0 <= inum < sb_ninodes sb ->
  (forall n, 1 < n < sb_bmapstart sb -> dat dk n = dat (tv_disk V) n) ->
  disk_inode sb dk inum = disk_inode sb (tv_disk V) inum.
Proof. intros HO Hn He. unfold disk_inode. rewrite He; [done|]. by apply (IBLOCK_range sb V HO). Qed.

(** * Code that works on one inode of the cache *)

Lemma alter_inserted {A} (f : A -> A) (l : list A) i x :
  (i < length l)%nat -> alter f i (<[i := x]> l) = <[i := f x]> l.
Proof.
  intros Hi. apply list_eq. intros k. destruct (decide (k = i)) as [->|Hne].
  - by rewrite list_lookup_alter_eq, !list_lookup_insert_eq.
  - by rewrite list_lookup_alter_ne, !list_lookup_insert_ne.
Qed.

(** [S0] with another log and another copy of the inode in entry [i]. *)
Definition with_data (S0 : fstate) (i : nat) (l : lstate) (di : dinode) : fstate :=
  FState l (fsb S0) (ic_lock S0) (<[i := set_i_data di (inode_at i S0)]> (icache S0)) (f_pid S0) (f_cwd S0).

Lemma with_data_id S0 i : (i < length (icache S0))%nat ->
  with_data S0 i (fl S0) (i_data (inode_at i S0)) = S0.
Proof.
  intros Hi.
  destruct S0 as [l b k c p w]. unfold with_data, inode_at in *. simpl in *. f_equal.
  destruct (lookup_lt_is_Some_2 c i Hi) as [x Hx]. apply list_insert_id. rewrite Hx. f_equal.
  rewrite (nth_lookup_Some _ _ _ _ Hx). by destruct x.
Qed.

Lemma wp_with_data {A} S0 i (m : M fstate A) (Q : A -> fstate -> Prop) :
  (i < length (icache S0))%nat -> wp m Q (with_data S0 i (fl S0) (i_data (inode_at i S0))) -> wp m Q S0.
Proof. intros Hi. by rewrite with_data_id. Qed.

Section one_inode.
Context (sb : superblock) (S0 : fstate) (i : nat).
Context (Hi : (i < length (icache S0))%nat) (Hsb : fsb S0 = sb).
Context (Hdev : i_dev (inode_at i S0) = ROOTDEV).

Lemma inode_at_with l di : inode_at i (with_data S0 i l di) = set_i_data di (inode_at i S0).
Proof. unfold inode_at at 1. simpl. apply nth_lookup_Some. by apply list_lookup_insert_eq. Qed.

Lemma iupd_with (f : inode -> inode) l di di' :
  f (set_i_data di (inode_at i S0)) = set_i_data di' (inode_at i S0) ->
  iupd i f (with_data S0 i l di) = Ok tt (with_data S0 i l di').
Proof.
  intros Hf. unfold iupd, modify, set_icache, with_data. simpl. do 2 f_equal.
  rewrite alter_inserted by done. by rewrite Hf.
Qed.

Lemma wp_iupd f l di di' (Q : unit -> fstate -> Prop) :
  f (set_i_data di (inode_at i S0)) = set_i_data di' (inode_at i S0) ->
  Q tt (with_data S0 i l di') -> wp (iupd i f) Q (with_data S0 i l di).
Proof. intros Hf HQ. exists tt, (with_data S0 i l di'). split; [by apply iupd_with|done]. Qed.

Lemma wp_ifield {A} (f : inode -> A) l di (Q : A -> fstate -> Prop) :
  Q (f (set_i_data di (inode_at i S0))) (with_data S0 i l di) -> wp (ifield i f) Q (with_data S0 i l di).
Proof. intros HQ. apply wp_gets. by rewrite inode_at_with. Qed.

Lemma wp_iupdate l V di (Q : unit -> fstate -> Prop) :
  let inum := i_inum (inode_at i S0) in
  0 <= inum < sb_ninodes sb -> repr l V -> fsok sb V -> dinode_ok di -> budget V 1 ->
  (forall l', repr l' (tv_inode sb inum di V) -> Q tt (with_data S0 i l' di)) ->
  wp (iupdate i) Q (with_data S0 i l di).
Proof.
  intros inum Hn HR HO Hd Hb HQ. unfold iupdate. apply wp_bind, wp_ifield. apply wp_bind, wp_gets.
  simpl fsb. rewrite Hsb. cbv zeta. cbn [i_inum i_dev i_data set_i_data id]. fold inum. rewrite Hdev.
  destruct (IBLOCK_dat sb V HO inum Hn) as (d & E & Hbk). pose proof (IBLOCK_range sb V HO inum Hn).
  pose proof (geo_dstart _ _ (fo_geo _ _ HO)).
  assert (IBLOCK inum sb ∉ tv_held V) as Hnh by (apply (not_held_meta sb V HO); lia).
  apply wp_bind. eapply wp_fbread; [exact HR|done|exact E|destruct Hb; lia|]. intros l1 H1.
  eapply wp_commit_block; [exact H1|done|by rewrite (fo_mod _ _ HO)| |destruct Hb; lia|].
  - pose proof (inode_block sb V HO inum di Hn (do_len _ Hd)) as Hx. by rewrite E in Hx.
  - intros l2 H2. apply HQ. unfold tv_inode. by rewrite E.
Qed.
End one_inode.

(** * [ilock] *)

(** The entry that [ilock] leaves. *)
Definition locked_inode (sb : superblock) (dk : list block) (pid : Z) (ip : inode) : inode :=
  Inode (i_dev ip) (i_inum ip) (i_ref ip) (Sleeplock true false (sl_name (i_lock ip)) pid) true
    (if i_valid ip then i_data ip else disk_inode sb dk (i_inum ip)).

(** A reference that can be locked: nobody holds the lock, and the inode on disk
    is in use. *)
Record lockable (sb : superblock) (dk : list block) (ip : inode) : Prop := Lockable {
  lk_ref : 1 <= i_ref ip;
  lk_dev : i_dev ip = ROOTDEV;
  lk_inum : 0 <= i_inum ip < sb_ninodes sb;
  lk_free : sl_locked (i_lock ip) = false /\ sl_lk (i_lock ip) = false;
  lk_type : i_valid ip = false -> di_type (disk_inode sb dk (i_inum ip)) <> 0
}.

Lemma inode_at_alter f j S l : (j < length (icache S))%nat ->
  inode_at j (set_icache (alter f j (icache S)) (set_fl l S)) = f (inode_at j S).
Proof.
  intros Hj. unfold inode_at. simpl. destruct (lookup_lt_is_Some_2 _ _ Hj) as [x Hx].
  rewrite (nth_lookup_Some _ _ _ _ Hx). apply nth_lookup_Some. rewrite list_lookup_alter_eq, Hx. done.
Qed.

Lemma alter_inode f j S : (j < length (icache S))%nat -> alter f j (icache S) = <[j := f (inode_at j S)]> (icache S).
Proof.
  intros Hj. destruct (lookup_lt_is_Some_2 _ _ Hj) as [x Hx]. unfold inode_at.
  rewrite (nth_lookup_Some _ _ _ _ Hx). apply list_eq. intros k. destruct (decide (k = j)) as [->|Hne].
  - by rewrite list_lookup_alter_eq, Hx, list_lookup_insert_eq.
  - by rewrite list_lookup_alter_ne, list_lookup_insert_ne.
Qed.

Lemma inode_at_set j x S l : (j < length (icache S))%nat ->
  inode_at j (set_icache (<[j := x]> (icache S)) (set_fl l S)) = x.
Proof. intros Hj. unfold inode_at. simpl. apply nth_lookup_Some. by apply list_lookup_insert_eq. Qed.

(** An update of entry [j] on top of an update of entry [j]. *)
Lemma wp_iupd_set f j x S l (Q : unit -> fstate -> Prop) :
  (j < length (icache S))%nat ->
  Q tt (set_icache (<[j := f x]> (icache S)) (set_fl l S)) ->
  wp (iupd j f) Q (set_icache (<[j := x]> (icache S)) (set_fl l S)).
Proof.
  intros Hj HQ. apply wp_modify. simpl. rewrite alter_inserted by done. exact HQ.
Qed.

Lemma wp_ilock sb S V j (Q : unit -> fstate -> Prop) :
  repr (fl S) V -> fsb S = sb -> fsok sb V -> (j < length (icache S))%nat ->
  lockable sb (tv_disk V) (inode_at j S) -> 0 < tv_room V ->
  (forall l, repr l V ->
     Q tt (set_icache (<[j := locked_inode sb (tv_disk V) (f_pid S) (inode_at j S)]> (icache S)) (set_fl l S))) ->
  wp (ilock j) Q S.
Proof.
  intros HR Hsb HO Hj [Href Hdev Hnum [Hl1 Hl2] Hty] Hroom HQ. set (ip := inode_at j S) in *.
  set (lk := Sleeplock true false (sl_name (i_lock ip)) (f_pid S)).
  assert (S = set_fl (fl S) S) as ES by (by destruct S).
  unfold ilock. apply wp_bind, wp_gets. fold ip. destruct (Z.ltb_spec (i_ref ip) 1); [lia|].
  apply wp_bind, wp_gets. apply wp_bind, wp_zoom. fold ip.
  exists tt, lk. split; [by apply acquiresleep_free|].
  rewrite alter_inode by done. fold ip.
  assert (inode_at j (set_icache (<[j := set_i_lock lk ip]> (icache S)) S) = set_i_lock lk ip) as Eat.
  { rewrite ES at 2. by apply inode_at_set. }
  apply wp_bind, wp_gets. rewrite Eat. cbn [id i_valid set_i_lock].
  destruct (i_valid ip) eqn:Hv.
  - apply wp_ret. specialize (HQ (fl S) HR). unfold locked_inode in HQ. rewrite Hv in HQ.
    rewrite <- ES in HQ. unfold set_i_lock. rewrite Hv. exact HQ.
  - apply wp_bind, wp_gets. cbn [fsb set_icache]. rewrite Hsb. cbv zeta. cbn [i_inum i_dev set_i_lock].
    rewrite Hdev. fold (ioff (i_inum ip)).
    destruct (IBLOCK_dat sb V HO _ Hnum) as (d & E & Hbk). pose proof (IBLOCK_range sb V HO _ Hnum).
    pose proof (geo_dstart _ _ (fo_geo _ _ HO)).
    assert (IBLOCK (i_inum ip) sb ∉ tv_held V) as Hnh by (apply (not_held_meta sb V HO); lia).
    apply wp_bind. eapply wp_fbread; [exact HR|done|exact E|done|]. intros l1 Hr1.
    apply wp_bind. apply (wp_iupd_set _ j _ S l1); [done|]. apply wp_bind.
    eapply wp_fbrelse; [exact Hr1|simpl; set_solver|by simpl; rewrite (fo_mod _ _ HO)|]. intros l2 Hr2.
    rewrite tv_hold_release in Hr2 by done.
    apply wp_bind. apply (wp_iupd_set _ j _ S l2); [done|]. apply wp_bind, wp_gets.
    rewrite inode_at_set by done. unfold i_type. cbn [i_data set_i_valid set_i_data].
    assert (get_dinode d (ioff (i_inum ip)) = disk_inode sb (tv_disk V) (i_inum ip)) as Ed.
    { unfold disk_inode. by rewrite E. }
    rewrite Ed. rewrite (proj2 (Z.eqb_neq _ _)) by (by apply Hty). apply wp_ret.
    specialize (HQ l2 Hr2). unfold locked_inode in HQ. rewrite Hv in HQ. exact HQ.
Qed.

(** C18. [iupdate] and [ilock] are inverse: what [iupdate] writes for an inode is
    what the next [ilock] of a reference to it that is not valid reads back,
    field by field; [iupdate] changes no other inode and no block from the
    bitmap on. *)
Theorem inode_roundtrip sb S V i :
  repr (fl S) V -> fsb S = sb -> fsok sb V -> budget V 2 -> (i < length (icache S))%nat ->
  i_dev (inode_at i S) = ROOTDEV -> 0 <= i_inum (inode_at i S) < sb_ninodes sb ->
  dinode_ok (i_data (inode_at i S)) -> i_type (inode_at i S) <> 0 ->
  wp (iupdate i) (fun _ S' => exists V', repr (fl S') V' /\ fsok sb V' /\
    (forall m, 0 <= m < sb_ninodes sb -> m <> i_inum (inode_at i S) ->
       disk_inode sb (tv_disk V') m = disk_inode sb (tv_disk V) m) /\
    (forall n, sb_bmapstart sb <= n -> dat (tv_disk V') n = dat (tv_disk V) n) /\
    forall j S2, fl S2 = fl S' -> fsb S2 = sb -> (j < length (icache S2))%nat ->
      i_dev (inode_at j S2) = ROOTDEV -> i_inum (inode_at j S2) = i_inum (inode_at i S) ->
      1 <= i_ref (inode_at j S2) -> i_valid (inode_at j S2) = false ->
      i_lock (inode_at j S2) = initsleeplock "inode" ->
      wp (ilock j) (fun _ S3 => i_valid (inode_at j S3) = true /\
        i_data (inode_at j S3) = i_data (inode_at i S)) S2) S.
Proof.
  intros HR Hsb HO Hb Hi Hdev Hn Hd Ht. apply (wp_with_data S i); [done|].
  apply (wp_iupdate sb S i Hi Hsb Hdev (fl S) V); [done|done|done|done|by eapply budget_mono; [done|lia]|].
  intros l Hl. set (inum := i_inum (inode_at i S)) in *. exists (tv_inode sb inum (i_data (inode_at i S)) V).
  split; [done|]. assert (fsok sb (tv_inode sb inum (i_data (inode_at i S)) V)) as HO2
    by (apply fsok_inode; [done|done|apply Hd]).
  split; [done|]. split; [intros m Hm Hne; rewrite disk_inode_put by done; by rewrite decide_False|].
  split; [intros n Hge; by apply tv_inode_other|].
  intros j S2 Efl Esb Hj Hdj Hnj Hrj Hvj Hlj.
  assert (disk_inode sb (tv_disk (tv_inode sb inum (i_data (inode_at i S)) V)) (i_inum (inode_at j S2)) =
    i_data (inode_at i S)) as Edi.
  { rewrite Hnj, disk_inode_put by done. by rewrite decide_True. }
  eapply (wp_ilock sb S2); [by rewrite Efl|done|exact HO2|done| | |].
  - split; [done|done|by rewrite Hnj|by rewrite Hlj|]. intros _. rewrite Edi. exact Ht.
  - assert (budget (tv_inode sb inum (i_data (inode_at i S)) V) 1) as [H1 _] by (apply budget_put; done). lia.
  - intros l' _. rewrite inode_at_set by done. unfold locked_inode. rewrite Hvj. done.
Qed.

(** * The inode cache *)

Definition ikey (ip : inode) : Z * Z := (i_dev ip, i_inum ip).

(** The number of references to the inode [k]. *)
Definition contrib (k : Z * Z) (ip : inode) : Z := if decide (ikey ip = k) then i_ref ip else 0.
Fixpoint refs (l : list inode) (k : Z * Z) : Z :=
  match l with [] => 0 | ip :: l' => contrib k ip + refs l' k end.

(** Reference counts are not negative, and no inode is in two entries. *)
Record icinv (l : list inode) : Prop := IcInv {
  ic_pos : forall i ip, l !! i = Some ip -> 0 <= i_ref ip;
  ic_uniq : forall i j ip jp, l !! i = Some ip -> l !! j = Some jp -> 0 < i_ref ip -> 0 < i_ref jp ->
    ikey ip = ikey jp -> i = j
}.

Lemma refs_insert l i ip ip' k :
  l !! i = Some ip -> refs (<[i := ip']> l) k = refs l k - contrib k ip + contrib k ip'.
Proof.
  revert i. induction l as [|x l IH]; intros [|i] Hi; simpl in *; try done.
  - injection Hi as ->. lia.
  - rewrite IH by done. lia.
Qed.

Lemma iget_scan_ok dev inum l i e :
  match iget_scan dev inum l i e with
  | inl j => exists ip, (i <= j)%nat /\ l !! (j - i)%nat = Some ip /\ 0 < i_ref ip /\ ikey ip = (dev, inum)
  | inr r => (forall j ip, l !! j = Some ip -> 0 < i_ref ip -> ikey ip <> (dev, inum)) /\
      match e with
      | Some _ => r = e
      | None =>
          match r with
          | Some j => exists ip, (i <= j)%nat /\ l !! (j - i)%nat = Some ip /\ i_ref ip = 0
          | None => forall j ip, l !! j = Some ip -> i_ref ip <> 0
          end
      end
  end.
Proof.
  revert i e. induction l as [|x l IH]; intros i e; simpl.
  - split; [done|]. destruct e; done.
  - destruct ((0 <? i_ref x) && (i_dev x =? dev) && (i_inum x =? inum)) eqn:Hc.
    + apply andb_true_iff in Hc as [[H1%Z.ltb_lt H2%Z.eqb_eq]%andb_true_iff H3%Z.eqb_eq].
      exists x. replace (i - i)%nat with 0%nat by lia. unfold ikey. rewrite H2, H3. auto.
    + assert (0 < i_ref x -> ikey x <> (dev, inum)) as Hx.
      { intros H0 [= E1 E2]. rewrite E1, E2, !Z.eqb_refl in Hc. by rewrite (proj2 (Z.ltb_lt _ _) H0) in Hc. }
      specialize (IH (S i) (match e with None => if i_ref x =? 0 then Some i else None | Some e => Some e end)).
      destruct (iget_scan dev inum l (S i) _) as [j|r].
      * destruct IH as (ip & Hj & Hl & H2). exists ip. split; [lia|]. split; [|done].
        by replace (j - i)%nat with (S (j - S i)) by lia.
      * destruct IH as [Hno Hr]. split; [intros [|j] ip Hj; [injection Hj as <-; done|by apply (Hno j)]|].
        destruct e as [e|]; [done|]. destruct (Z.eqb_spec (i_ref x) 0) as [E0|E0].
        -- subst r. exists x. by replace (i - i)%nat with 0%nat by lia.
        -- destruct r as [j|].
           ++ destruct Hr as (ip & Hj & Hl & H0). exists ip. split; [lia|]. split; [|done].
              by replace (j - i)%nat with (S (j - S i)) by lia.
           ++ intros [|j] ip Hj; [injection Hj as <-; done|by apply (Hr j ip)].
Qed.

Lemma lookup_inode_at i S ip : icache S !! i = Some ip -> inode_at i S = ip.
Proof. intros H. unfold inode_at. by apply nth_lookup_Some. Qed.

(** A count that changes by one. *)
Lemma icinv_ref l i ip r :
  icinv l -> l !! i = Some ip -> 0 < i_ref ip -> 0 <= r -> icinv (<[i := set_i_ref r ip]> l).
Proof.
  intros [Hp Hu] Hi H0 Hr. split.
  - intros j jp [(<- & <- & _)|[_ Hj]]%list_lookup_insert_Some; [done|by eapply Hp].
  - intros j k jp kp Hj Hk Hjp Hkp Hkey.
    apply list_lookup_insert_Some in Hj as [(<- & <- & _)|[Hne Hj]];
      apply list_lookup_insert_Some in Hk as [(<- & <- & _)|[Hne' Hk]]; [done| | |by eapply Hu].
    + exact (Hu i k ip kp Hi Hk H0 Hkp Hkey).
    + exact (Hu j i jp ip Hj Hi Hjp H0 Hkey).
Qed.

(** The outcomes of [iget], [idup] and [iput] on entry [i]. *)
Section cache_ops.
Context (S : fstate) (i : nat) (ip : inode).
Context (Hlk : ic_lock S = false) (Hi : icache S !! i = Some ip).

Let Halt f : alter f i (icache S) = <[i := f ip]> (icache S).
Proof. rewrite alter_inode by (by eapply lookup_lt_Some). by rewrite (lookup_inode_at _ _ _ Hi). Qed.

Lemma iget_hit dev inum :
  iget_scan dev inum (icache S) 0 None = inl i ->
  iget dev inum S = Ok i (set_icache (<[i := set_i_ref (i_ref ip + 1) ip]> (icache S)) S).
Proof.
  intros E. unfold iget, acquire_ic, acquire, bind, gets. rewrite Hlk. cbn [icache set_ic_lock]. rewrite E.
  unfold iupd, modify, release_ic, release. cbn [icache set_ic_lock set_icache ic_lock]. rewrite Halt.
  destruct S. simpl in *. by subst.
Qed.

Lemma iget_miss dev inum :
  iget_scan dev inum (icache S) 0 None = inr (Some i) ->
  iget dev inum S = Ok i (set_icache (<[i := Inode dev inum 1 (i_lock ip) false (i_data ip)]> (icache S)) S).
Proof.
  intros E. unfold iget, acquire_ic, acquire, bind, gets. rewrite Hlk. cbn [icache set_ic_lock]. rewrite E.
  unfold iupd, modify, release_ic, release. cbn [icache set_ic_lock set_icache ic_lock]. rewrite Halt.
  destruct S. simpl in *. by subst.
Qed.

Lemma idup_ok : idup i S = Ok i (set_icache (<[i := set_i_ref (i_ref ip + 1) ip]> (icache S)) S).
Proof.
  unfold idup, acquire_ic, acquire, bind. rewrite Hlk.
  unfold iupd, modify, release_ic, release. cbn [icache set_ic_lock set_icache ic_lock]. rewrite Halt.
  destruct S. simpl in *. by subst.
Qed.

Lemma iput_keep :
  ~ (i_ref ip = 1 /\ i_valid ip = true /\ i_nlink ip = 0) ->
  iput i S = Ok tt (set_icache (<[i := set_i_ref (i_ref ip - 1) ip]> (icache S)) S).
Proof.
  intros Hnf. unfold iput, acquire_ic, acquire, bind. rewrite Hlk. unfold ifield, gets.
  change (inode_at i (set_ic_lock true S)) with (inode_at i S). rewrite (lookup_inode_at _ _ _ Hi). unfold id.
  destruct ((i_ref ip =? 1) && i_valid ip && (i_nlink ip =? 0)) eqn:Hc.
  { apply andb_true_iff in Hc as [[H1%Z.eqb_eq H2]%andb_true_iff H3%Z.eqb_eq]. tauto. }
  unfold when, ret, iupd, modify, release_ic, release. cbn [icache set_ic_lock set_icache ic_lock]. rewrite Halt.
  destruct S. simpl in *. by subst.
Qed.

(** The entry after an update of it. *)
Lemma inode_at_upd x : inode_at i (set_icache (<[i := x]> (icache S)) S) = x.
Proof. unfold inode_at. simpl. apply nth_lookup_Some, list_lookup_insert_eq. by eapply lookup_lt_Some. Qed.

Lemma refs_upd r k :
  refs (<[i := set_i_ref r ip]> (icache S)) k =
  refs (icache S) k + if decide (k = ikey ip) then r - i_ref ip else 0.
Proof.
  rewrite (refs_insert _ _ _ _ _ Hi). unfold contrib.
  change (ikey (set_i_ref r ip)) with (ikey ip). repeat case_decide; simpl; try congruence; lia.
Qed.

Lemma icinv_recycle dev inum :
  icinv (icache S) -> (forall j jp, icache S !! j = Some jp -> 0 < i_ref jp -> ikey jp <> (dev, inum)) ->
  icinv (<[i := Inode dev inum 1 (i_lock ip) false (i_data ip)]> (icache S)).
Proof.
  intros [Hp Hu] Hno. split.
  - intros j jp [(<- & <- & _)|[_ Hj]]%list_lookup_insert_Some; [done|by eapply Hp].
  - intros j k jp kp Hj Hk Hjp Hkp Hkey.
    apply list_lookup_insert_Some in Hj as [(<- & <- & _)|[Hne Hj]];
      apply list_lookup_insert_Some in Hk as [(<- & <- & _)|[Hne' Hk]]; [done| | |by eapply Hu].
    + destruct (Hno k kp Hk Hkp). by rewrite <- Hkey.
    + destruct (Hno j jp Hj Hjp). by rewrite Hkey.
Qed.
End cache_ops.

(** C19. The inode cache: as long as every entry has a count that is not negative
    and no inode is in two entries, [iget] gives an entry that holds the inode
    asked for with one more reference, changes the count of no other inode, and
    keeps the cached copy if there was one; it panics exactly when the inode is
    not cached and all entries are in use.  [idup] and an [iput] that does not
    free the inode change the count of the inode by one; the cache stays well
    formed. *)
Theorem inode_cache S :
  ic_lock S = false -> icinv (icache S) ->
  (forall dev inum,
     match iget dev inum S with
     | Ok i S' => icinv (icache S') /\ fl S' = fl S /\ ikey (inode_at i S') = (dev, inum) /\
         refs (icache S') (dev, inum) = refs (icache S) (dev, inum) + 1 /\
         (forall k, k <> (dev, inum) -> refs (icache S') k = refs (icache S) k) /\
         (0 < i_ref (inode_at i S) /\ ikey (inode_at i S) = (dev, inum) ->
          i_data (inode_at i S') = i_data (inode_at i S) /\ i_valid (inode_at i S') = i_valid (inode_at i S))
     | Panic _ => forall i ip, icache S !! i = Some ip -> 0 < i_ref ip /\ ikey ip <> (dev, inum)
     | _ => False
     end) /\
  (forall i ip, icache S !! i = Some ip -> 0 < i_ref ip ->
     (exists S', idup i S = Ok i S' /\ icinv (icache S') /\
        forall k, refs (icache S') k = refs (icache S) k + if decide (k = ikey ip) then 1 else 0) /\
     (~ (i_ref ip = 1 /\ i_valid ip = true /\ i_nlink ip = 0) ->
      exists S', iput i S = Ok tt S' /\ icinv (icache S') /\
        forall k, refs (icache S') k = refs (icache S) k - if decide (k = ikey ip) then 1 else 0)).
Proof.
  intros Hlk HI. pose proof HI as [Hp Hu]. split.
  - intros dev inum. pose proof (iget_scan_ok dev inum (icache S) 0 None) as Hs.
    destruct (iget_scan dev inum (icache S) 0 None) as [i|[i|]] eqn:E.
    + destruct Hs as (ip & _ & Hi & H0 & Hk). rewrite Nat.sub_0_r in Hi. rewrite (iget_hit S i ip) by done.
      rewrite (inode_at_upd S i ip), (lookup_inode_at _ _ _ Hi) by done. cbn [icache fl set_icache].
      split; [apply icinv_ref; [done..|lia]|]. split; [done|]. split; [done|].
      split; [rewrite (refs_upd S i ip Hi), decide_True by done; lia|].
      split; [|done]. intros k Hne. rewrite (refs_upd S i ip Hi), decide_False by congruence. lia.
    + destruct Hs as (Hno & ip & _ & Hi & H0). rewrite Nat.sub_0_r in Hi. rewrite (iget_miss S i ip) by done.
      rewrite (inode_at_upd S i ip), (lookup_inode_at _ _ _ Hi) by done. cbn [icache fl set_icache].
      split; [by apply icinv_recycle|]. split; [done|]. split; [done|].
      split; [|split; [|intros [Hpos _]; lia]].
      * rewrite (refs_insert _ _ _ _ _ Hi). unfold contrib, ikey. cbn [i_dev i_inum i_ref].
        rewrite (decide_True (P := (dev, inum) = _)) by done. rewrite H0. case_decide; lia.
      * intros k Hne. rewrite (refs_insert _ _ _ _ _ Hi). unfold contrib, ikey. cbn [i_dev i_inum i_ref].
        rewrite (decide_False (P := (dev, inum) = _)) by congruence. rewrite H0. case_decide; lia.
    + destruct Hs as [Hno Hfull]. unfold iget, acquire_ic, acquire, bind, gets. rewrite Hlk.
      cbn [icache set_ic_lock]. rewrite E. intros i ip Hi. specialize (Hp i ip Hi). specialize (Hfull i ip Hi).
      split; [lia|]. apply (Hno i ip Hi). lia.
  - intros i ip Hi H0. split.
    + rewrite (idup_ok S i ip) by done. eexists. split; [reflexivity|]. cbn [icache set_icache].
      split; [apply icinv_ref; [done..|lia]|]. intros k. rewrite (refs_upd S i ip Hi). case_decide; lia.
    + intros Hnf. rewrite (iput_keep S i ip) by done. eexists. split; [reflexivity|]. cbn [icache set_icache].
      split; [apply icinv_ref; [done..|lia]|]. intros k. rewrite (refs_upd S i ip Hi). case_decide; lia.
Qed.

(** ** Witnesses *)

(** Entry 0 caches inode 3, a file of 700 bytes in blocks 36 and 37. *)
Definition demo_dinode : dinode := Dinode T_FILE 0 0 1 700 ([36; 37] ++ replicate 11 0).
Definition demo_inode : inode := Inode ROOTDEV 3 1 (initsleeplock "inode") true demo_dinode.
Definition demo_ifs : fstate := set_icache (<[0%nat := demo_inode]> (replicate NINODE inode0)) demo_fs.

Lemma demo_dinode_ok : dinode_ok demo_dinode.
Proof.
  split; try (unfold is_i16, is_u32; simpl; unfold T_FILE; lia).
  repeat constructor; unfold is_u32; lia.
Qed.

Lemma inode_roundtrip_witness :
  wp (iupdate 0) (fun _ S' => exists V', repr (fl S') V' /\ fsok demo_sb V' /\
    (forall m, 0 <= m < sb_ninodes demo_sb -> m <> i_inum (inode_at 0 demo_ifs) ->
       disk_inode demo_sb (tv_disk V') m = disk_inode demo_sb (tv_disk demo_view) m) /\
    (forall n, sb_bmapstart demo_sb <= n -> dat (tv_disk V') n = dat (tv_disk demo_view) n) /\
    forall j S2, fl S2 = fl S' -> fsb S2 = demo_sb -> (j < length (icache S2))%nat ->
      i_dev (inode_at j S2) = ROOTDEV -> i_inum (inode_at j S2) = i_inum (inode_at 0 demo_ifs) ->
      1 <= i_ref (inode_at j S2) -> i_valid (inode_at j S2) = false ->
      i_lock (inode_at j S2) = initsleeplock "inode" ->
      wp (ilock j) (fun _ S3 => i_valid (inode_at j S3) = true /\
        i_data (inode_at j S3) = i_data (inode_at 0 demo_ifs)) S2) demo_ifs.
Proof.
  apply (inode_roundtrip demo_sb demo_ifs demo_view 0).
  - exact demo_repr.
  - reflexivity.
  - exact demo_fsok.
  - split; vm_compute; discriminate.
  - vm_compute. lia.
  - reflexivity.
  - vm_compute. split; [discriminate|reflexivity].
  - exact demo_dinode_ok.
  - vm_compute. discriminate.
Defined.

Lemma demo_icinv : icinv (icache demo_ifs).
Proof.
  assert (forall i ip, icache demo_ifs !! i = Some ip -> i = 0%nat /\ ip = demo_inode \/ ip = inode0) as H.
  { intros i ip Hi. apply list_lookup_insert_Some in Hi as [(<- & <- & _)|[_ Hi]]; [by left|right].
    by apply lookup_replicate in Hi as [-> _]. }
  split.
  - intros i ip [[_ ->]| ->]%H; vm_compute; discriminate.
  - intros i j ip jp [[-> ->]| ->]%H [[-> ->]| ->]%H; vm_compute; intros; (reflexivity || discriminate).
Qed.

Lemma inode_cache_witness :
  match iget ROOTDEV 5 demo_ifs with
  | Ok i S' => icinv (icache S') /\ fl S' = fl demo_ifs /\ ikey (inode_at i S') = (ROOTDEV, 5) /\
      refs (icache S') (ROOTDEV, 5) = refs (icache demo_ifs) (ROOTDEV, 5) + 1 /\
      (forall k, k <> (ROOTDEV, 5) -> refs (icache S') k = refs (icache demo_ifs) k) /\
      (0 < i_ref (inode_at i demo_ifs) /\ ikey (inode_at i demo_ifs) = (ROOTDEV, 5) ->
       i_data (inode_at i S') = i_data (inode_at i demo_ifs) /\
       i_valid (inode_at i S') = i_valid (inode_at i demo_ifs))
  | Panic _ => forall i ip, icache demo_ifs !! i = Some ip -> 0 < i_ref ip /\ ikey ip <> (ROOTDEV, 5)
  | _ => False
  end.
Proof.
  apply (inode_cache demo_ifs).
  - reflexivity.
  - exact demo_icinv.
Defined.
