(* ===== verification/FsMap.v ===== *)
(** [bmap]: the blocks of a file.  An inode maps block numbers of the file to
    blocks of the disk, twelve directly and 128 through an indirect block;
    [bmap] finds the block, or allocates it, and disturbs nothing else. *)
From stdpp Require Import base numbers list gmap sets strings.
From Stdlib Require Import ZArith Lia.
From S2P Require Import Prelude Bytes Mem Sleeplock Disk BlockLayer Super Log LogOps Tx Fs FsBlocks FsInode.

(** The indirect block, and the block of the disk that holds block [bn] of the
    file; 0 if there is none. *)
Definition bptr (di : dinode) : Z := nth (Z.to_nat NDIRECT) (di_addrs di) 0.
Definition imap (dk : list block) (di : dinode) (bn : Z) : Z :=
  if bn <? NDIRECT then nth (Z.to_nat bn) (di_addrs di) 0
  else if bptr di =? 0 then 0 else get32 (default [] (dat dk (bptr di))) (4 * (bn - NDIRECT)).

(** A data block in use. *)
Definition dblock (sb : superblock) (dk : list block) (n : Z) : Prop :=
  dstart sb <= n < sb_size sb /\ bm_bit sb dk n = true.

Record inode_ok (sb : superblock) (dk : list block) (di : dinode) : Prop := InodeOk {
  io_fields : dinode_ok di;
  io_ind : bptr di <> 0 -> dblock sb dk (bptr di);
  io_map : forall bn, 0 <= bn < MAXFILE -> imap dk di bn <> 0 ->
    dblock sb dk (imap dk di bn) /\ imap dk di bn <> bptr di;
  io_inj : forall bn bn', 0 <= bn < MAXFILE -> 0 <= bn' < MAXFILE -> imap dk di bn <> 0 ->
    imap dk di bn = imap dk di bn' -> bn = bn';
  io_size : di_size di <= MAXFILE * BSIZE;
  io_full : forall bn, 0 <= bn -> bn * BSIZE < di_size di -> imap dk di bn <> 0
}.

Definition set_addr (k a : Z) (di : dinode) : dinode :=
  Dinode (di_type di) (di_major di) (di_minor di) (di_nlink di) (di_size di) (<[Z.to_nat k := a]> (di_addrs di)).

Lemma set_addr_ok k a di : is_u32 a -> dinode_ok di -> dinode_ok (set_addr k a di).
Proof.
  intros Ha [H1 H2 H3 H4 H5 H6 H7]. split; simpl; try done; [by rewrite length_insert|by apply Forall_insert].
Qed.

Lemma nth_insert_eq (l : list Z) k a : (k < length l)%nat -> nth k (<[k := a]> l) 0 = a.
Proof. intros Hk. apply nth_lookup_Some. by apply list_lookup_insert_eq. Qed.

Lemma nth_insert_ne (l : list Z) k j a : k <> j -> nth j (<[k := a]> l) 0 = nth j l 0.
Proof. intros Hk. rewrite !nth_lookup. by rewrite list_lookup_insert_ne. Qed.

(** * Free blocks *)

Definition nfree (sb : superblock) (dk : list block) : nat :=
  length (filter (fun b => bm_bit sb dk b = false) (seqZ 0 (sb_size sb))).

Lemma nfree_pos sb dk : (0 < nfree sb dk)%nat -> exists b, 0 <= b < sb_size sb /\ bm_bit sb dk b = false.
Proof.
  unfold nfree. destruct (filter _ _) as [|b l] eqn:E; simpl; [lia|]. intros _. exists b.
  assert (b ∈ filter (fun b => bm_bit sb dk b = false) (seqZ 0 (sb_size sb))) as Hb by (rewrite E; set_solver).
  apply list_elem_of_filter in Hb as [Hb Hin]. apply elem_of_seqZ in Hin. split; [lia|done].
Qed.

Lemma nfree_ext sb dk dk' :
  (forall c, 0 <= c < sb_size sb -> bm_bit sb dk c = bm_bit sb dk' c) -> nfree sb dk' = nfree sb dk.
Proof.
  intros Hb. unfold nfree. f_equal.
  assert (forall l : list Z, (forall c, c ∈ l -> bm_bit sb dk c = bm_bit sb dk' c) ->
    filter (fun b => bm_bit sb dk' b = false) l = filter (fun b => bm_bit sb dk b = false) l) as H.
  { induction l as [|x l IH]; intros Hl; [done|]. rewrite !filter_cons, IH by (intros; apply Hl; set_solver).
    by rewrite (Hl x) by set_solver. }
  apply H. intros c Hc%elem_of_seqZ. apply Hb. lia.
Qed.

Lemma filter_less (f g : Z -> bool) (l : list Z) b :
  NoDup l -> (forall c, c ∈ l -> g c = bool_decide (c = b) || f c) ->
  (length (filter (fun c => f c = false) l) <= length (filter (fun c => g c = false) l) + 1)%nat.
Proof.
  induction 1 as [|x l Hx Hnd IH]; intros Hg; [simpl; lia|].
  assert (forall c, c ∈ l -> g c = bool_decide (c = b) || f c) as Hg' by (intros; apply Hg; set_solver).
  specialize (Hg x ltac:(set_solver)). destruct (decide (x = b)) as [->|Hne].
  - assert (filter (fun c => f c = false) l = filter (fun c => g c = false) l) as E.
    { clear IH. induction l as [|y l IH]; [done|]. apply NoDup_cons in Hnd as [_ Hnd].
      assert (f y = g y) as Ey by (rewrite Hg' by set_solver; by rewrite bool_decide_eq_false_2 by set_solver).
      rewrite !filter_cons, Ey, IH; [done|set_solver|done|intros; apply Hg'; set_solver]. }
    rewrite !filter_cons, E. repeat case_decide; simpl; lia.
  - rewrite bool_decide_eq_false_2 in Hg by done. simpl in Hg. specialize (IH Hg').
    rewrite !filter_cons, Hg. case_decide; simpl; lia.
Qed.

Lemma nfree_alloc sb V b : fsok sb V -> dstart sb <= b < sb_size sb ->
  (nfree sb (tv_disk V) <= nfree sb (tv_disk (tv_alloc sb b V)) + 1)%nat.
Proof.
  intros HO Hb. unfold nfree. apply (filter_less _ _ _ b); [apply NoDup_seqZ|].
  intros c Hc%elem_of_seqZ. apply alloc_bits; [done|done|lia].
Qed.

(** * What keeps an inode well formed *)

Section grow.
Context (sb : superblock) (dk dk' : list block) (di di' : dinode) (b : Z).
Context (HI : inode_ok sb dk di) (Hd' : dinode_ok di').
Context (Hb : dstart sb <= b < sb_size sb) (Hfree : bm_bit sb dk b = false) (Hb0 : 0 < dstart sb).
Context (Hbits : forall c, 0 <= c < sb_size sb -> bm_bit sb dk' c = bool_decide (c = b) || bm_bit sb dk c).
Context (Hsize : di_size di' = di_size di).

Lemma dblock_grow n : dblock sb dk n -> dblock sb dk' n.
Proof. intros [Hr Hn]. split; [done|]. rewrite Hbits, Hn by lia. apply orb_true_r. Qed.

Lemma dblock_new : dblock sb dk' b.
Proof. split; [done|]. rewrite Hbits by lia. by rewrite bool_decide_eq_true_2. Qed.

Lemma dblock_fresh n : dblock sb dk n -> n <> b.
Proof. intros [_ Hn] ->. congruence. Qed.

(** Block [bn] of the file is now [b]. *)
Lemma inode_ok_block bn :
  0 <= bn < MAXFILE -> imap dk di bn = 0 -> imap dk' di' bn = b -> bptr di' = bptr di ->
  (forall k, 0 <= k < MAXFILE -> k <> bn -> imap dk' di' k = imap dk di k) -> inode_ok sb dk' di'.
Proof.
  intros Hbn Hz Hnew Hptr Hoth. destruct HI as [H1 H2 H3 H4 H5 H6]. split.
  - done.
  - rewrite Hptr. intros Hp. by apply dblock_grow, H2.
  - intros k Hk Hk0. rewrite Hptr. destruct (decide (k = bn)) as [->|Hne].
    + rewrite Hnew. split; [apply dblock_new|]. destruct (decide (bptr di = 0)) as [E|E]; [lia|].
      intros Eb. by apply (dblock_fresh (bptr di) (H2 E)).
    + rewrite Hoth in * by done. destruct (H3 k Hk Hk0). split; [by apply dblock_grow|done].
  - intros k k' Hk Hk' Hk0 E. destruct (decide (k = bn)) as [->|Hne], (decide (k' = bn)) as [->|Hne']; [done| | |].
    + rewrite Hnew, Hoth in E by done. exfalso. destruct (H3 k' Hk') as [Hx _]; [lia|]. by apply (dblock_fresh _ Hx).
    + rewrite Hnew, Hoth in E by done. exfalso. destruct (H3 k Hk) as [Hx _]; [lia|]. by apply (dblock_fresh _ Hx).
    + rewrite !Hoth in E by done. rewrite Hoth in Hk0 by done. by apply H4.
  - by rewrite Hsize.
  - intros k Hk Hs. rewrite Hsize in Hs. destruct (decide (k = bn)) as [->|Hne]; [lia|].
    rewrite Hoth; [by apply H6| |done]. split; [done|]. unfold BSIZE, MAXFILE in *. lia.
Qed.

(** The indirect block is now [b]. *)
Lemma inode_ok_ind :
  bptr di = 0 -> bptr di' = b -> (forall k, 0 <= k < MAXFILE -> imap dk' di' k = imap dk di k) -> inode_ok sb dk' di'.
Proof.
  intros Hz Hptr Hall. destruct HI as [H1 H2 H3 H4 H5 H6]. split.
  - done.
  - intros _. rewrite Hptr. apply dblock_new.
  - intros k Hk Hk0. rewrite Hall in * by done. destruct (H3 k Hk Hk0) as [Hx _]. split; [by apply dblock_grow|].
    rewrite Hptr. by apply dblock_fresh.
  - intros k k' Hk Hk' Hk0 E. rewrite !Hall in E by done. rewrite Hall in Hk0 by done. by apply H4.
  - by rewrite Hsize.
  - intros k Hk Hs. rewrite Hsize in Hs. rewrite Hall; [by apply H6|].
    split; [done|]. unfold BSIZE, MAXFILE in *. lia.
Qed.
End grow.

(** * [bmap] *)

(** Two inodes that differ in their addresses only. *)
Definition same_meta (di di' : dinode) : Prop :=
  di_type di' = di_type di /\ di_major di' = di_major di /\ di_minor di' = di_minor di /\
  di_nlink di' = di_nlink di /\ di_size di' = di_size di.

(** What [bmap] may change: it adds blocks to the file. *)
Record grown (sb : superblock) (V V' : tview) (di di' : dinode) : Prop := Grown {
  gr_fsok : fsok sb V';
  gr_held : tv_held V' = tv_held V;
  gr_inode : inode_ok sb (tv_disk V') di';
  gr_meta : same_meta di di';
  gr_bits : forall c, 0 <= c < sb_size sb -> bm_bit sb (tv_disk V) c = true -> bm_bit sb (tv_disk V') c = true;
  gr_ptr : bptr di <> 0 -> bptr di' = bptr di;
  gr_map : forall bn, 0 <= bn < MAXFILE -> imap (tv_disk V) di bn <> 0 ->
    imap (tv_disk V') di' bn = imap (tv_disk V) di bn;
  gr_newptr : bptr di' = bptr di \/ bm_bit sb (tv_disk V) (bptr di') = false;
  gr_new : forall bn, 0 <= bn < MAXFILE ->
    imap (tv_disk V') di' bn = imap (tv_disk V) di bn \/ bm_bit sb (tv_disk V) (imap (tv_disk V') di' bn) = false;
  gr_frame : forall n, n < sb_bmapstart sb \/ dblock sb (tv_disk V) n /\ n <> bptr di ->
    dat (tv_disk V') n = dat (tv_disk V) n
}.

Lemma grown_refl sb V di : fsok sb V -> inode_ok sb (tv_disk V) di -> grown sb V V di di.
Proof. intros HO HI. split; try done; by left. Qed.

Lemma dblock_bits sb dk dk' n :
  (forall c, 0 <= c < sb_size sb -> bm_bit sb dk c = true -> bm_bit sb dk' c = true) -> 0 < dstart sb ->
  dblock sb dk n -> dblock sb dk' n.
Proof. intros Hb H0 [Hr Hn]. split; [done|]. apply Hb; [lia|done]. Qed.

Lemma bit_back sb dk dk' n :
  (forall c, 0 <= c < sb_size sb -> bm_bit sb dk c = true -> bm_bit sb dk' c = true) -> 0 < dstart sb ->
  dstart sb <= n < sb_size sb -> bm_bit sb dk' n = false -> bm_bit sb dk n = false.
Proof. intros Hb H0 Hr Hn. destruct (bm_bit sb dk n) eqn:E; [|done]. rewrite Hb in Hn; [done|lia|done]. Qed.

Lemma grown_trans sb V1 V2 V3 d1 d2 d3 :
  grown sb V1 V2 d1 d2 -> grown sb V2 V3 d2 d3 -> 0 < dstart sb -> grown sb V1 V3 d1 d3.
Proof.
  intros [A1 A2 A3 A4 A5 A6 A7 AP AN A8] [B1 B2 B3 B4 B5 B6 B7 BP BN B8] H0. split; try done.
  - congruence.
  - unfold same_meta in *. intuition congruence.
  - auto.
  - intros Hz. rewrite B6; [by apply A6|]. by rewrite A6.
  - intros bn Hbn Hz. rewrite B7; [by apply A7|done|]. by rewrite A7.
  - destruct BP as [->|BP]; [done|]. destruct (decide (bptr d3 = 0)) as [Hz|Hz].
    + left. destruct (decide (bptr d1 = 0)) as [E|E]; [congruence|]. rewrite B6; rewrite A6; done.
    + right. eapply bit_back; [exact A5|done|by apply (io_ind _ _ _ B3)|done].
  - intros bn Hbn. destruct (BN bn Hbn) as [->|Hn]; [by apply AN|].
    destruct (decide (imap (tv_disk V3) d3 bn = 0)) as [Hz|Hz].
    + left. destruct (decide (imap (tv_disk V1) d1 bn = 0)) as [E|E]; [congruence|]. rewrite B7; rewrite ?A7; done.
    + right. eapply bit_back; [exact A5|done|by apply (io_map _ _ _ B3)|done].
  - intros n Hn. rewrite B8; [by apply A8|]. destruct Hn as [Hn|[Hn Hne]]; [by left|right].
    split; [by eapply dblock_bits|]. intros ->. destruct AP as [AP|AP]; [done|]. destruct Hn. congruence.
Qed.

Section allocs.
Context (sb : superblock) (V : tview) (di : dinode) (b : Z).
Context (HO : fsok sb V) (HI : inode_ok sb (tv_disk V) di).
Context (Hb : dstart sb <= b < sb_size sb) (Hfree : bm_bit sb (tv_disk V) b = false).

Let HG := fo_geo _ _ HO.

Lemma b_u32 : is_u32 b.
Proof. pose proof (geo_pos _ _ HG). pose proof (geo_dstart _ _ HG). pose proof (g_bound _ _ HG). unfold is_u32. lia. Qed.

Lemma dstart_pos : 0 < dstart sb.
Proof. pose proof (geo_pos _ _ HG). pose proof (geo_dstart _ _ HG). lia. Qed.

Lemma alloc_bits' c : 0 <= c < sb_size sb ->
  bm_bit sb (tv_disk (tv_alloc sb b V)) c = bool_decide (c = b) || bm_bit sb (tv_disk V) c.
Proof. intros Hc. by apply alloc_bits. Qed.

Lemma alloc_keeps n : n < sb_bmapstart sb \/ dblock sb (tv_disk V) n ->
  dat (tv_disk (tv_alloc sb b V)) n = dat (tv_disk V) n.
Proof.
  intros Hn. pose proof (geo_dstart _ _ HG). apply alloc_other; [done|done| |].
  - intros ->. destruct Hn as [Hn|[_ Hn]]; [lia|congruence].
  - destruct Hn as [Hn|[Hn _]]; lia.
Qed.

Lemma ind_keeps : bptr di <> 0 -> dat (tv_disk (tv_alloc sb b V)) (bptr di) = dat (tv_disk V) (bptr di).
Proof. intros Hp. apply alloc_keeps. right. by apply (io_ind _ _ _ HI). Qed.

(** A direct block. *)
Lemma grown_direct bn :
  0 <= bn < NDIRECT -> imap (tv_disk V) di bn = 0 ->
  grown sb V (tv_alloc sb b V) di (set_addr bn b di) /\
  imap (tv_disk (tv_alloc sb b V)) (set_addr bn b di) bn = b.
Proof.
  intros Hbn Hz. pose proof dstart_pos as H0. pose proof (do_len _ (io_fields _ _ _ HI)) as Hlen.
  assert (bptr (set_addr bn b di) = bptr di) as Hptr.
  { unfold bptr. simpl. apply nth_insert_ne. unfold NDIRECT in *. lia. }
  assert (imap (tv_disk (tv_alloc sb b V)) (set_addr bn b di) bn = b) as Hnew.
  { unfold imap. destruct (Z.ltb_spec bn NDIRECT); [|lia]. simpl. apply nth_insert_eq.
    rewrite Hlen. unfold NDIRECT in *. lia. }
  assert (forall k, 0 <= k < MAXFILE -> k <> bn ->
    imap (tv_disk (tv_alloc sb b V)) (set_addr bn b di) k = imap (tv_disk V) di k) as Hoth.
  { intros k Hk Hne. unfold imap. rewrite Hptr. destruct (k <? NDIRECT).
    - simpl. apply nth_insert_ne. lia.
    - destruct (Z.eqb_spec (bptr di) 0); [done|]. by rewrite ind_keeps. }
  split; [|done]. split.
  - by apply fsok_alloc.
  - done.
  - eapply (inode_ok_block sb (tv_disk V) _ di _ b) with (bn := bn); try done;
      [apply set_addr_ok; [apply b_u32|apply HI]|apply alloc_bits'|change MAXFILE with 140; unfold NDIRECT in *; lia].
  - done.
  - intros c Hc Hbit. rewrite alloc_bits' by done. rewrite Hbit. apply orb_true_r.
  - done.
  - intros k Hk Hk0. destruct (decide (k = bn)) as [->|Hne]; [congruence|by apply Hoth].
  - by left.
  - intros k Hk. destruct (decide (k = bn)) as [->|Hne]; [right; by rewrite Hnew|left; by apply Hoth].
  - intros n Hn. apply alloc_keeps. tauto.
Qed.

(** The indirect block itself. *)
Lemma grown_ind :
  bptr di = 0 ->
  grown sb V (tv_alloc sb b V) di (set_addr NDIRECT b di) /\ bptr (set_addr NDIRECT b di) = b /\
  forall k, 0 <= k < MAXFILE ->
    imap (tv_disk (tv_alloc sb b V)) (set_addr NDIRECT b di) k = imap (tv_disk V) di k.
Proof.
  intros Hz. pose proof dstart_pos as H0. pose proof (do_len _ (io_fields _ _ _ HI)) as Hlen.
  assert (bptr (set_addr NDIRECT b di) = b) as Hptr.
  { unfold bptr. simpl. apply nth_insert_eq. rewrite Hlen. unfold NDIRECT. lia. }
  assert (forall k, 0 <= k < MAXFILE ->
    imap (tv_disk (tv_alloc sb b V)) (set_addr NDIRECT b di) k = imap (tv_disk V) di k) as Hall.
  { intros k Hk. unfold imap. rewrite Hptr. destruct (Z.ltb_spec k NDIRECT).
    - simpl. apply nth_insert_ne. unfold NDIRECT in *. lia.
    - rewrite (proj2 (Z.eqb_neq b 0)) by lia. rewrite (proj2 (Z.eqb_eq _ _) Hz).
      rewrite alloc_zero by done. simpl. unfold get32, slice, zeroes. rewrite drop_replicate, take_replicate.
      assert (forall n, dec (replicate n 0) = 0) as Hdec by (intros n; induction n; simpl; lia). apply Hdec. }
  split; [|done]. split.
  - by apply fsok_alloc.
  - done.
  - eapply (inode_ok_ind sb (tv_disk V) _ di _ b); try done;
      [apply set_addr_ok; [apply b_u32|apply HI]|apply alloc_bits'].
  - done.
  - intros c Hc Hbit. rewrite alloc_bits' by done. rewrite Hbit. apply orb_true_r.
  - congruence.
  - intros k Hk Hk0. by apply Hall.
  - right. by rewrite Hptr.
  - intros k Hk. left. by apply Hall.
  - intros n Hn. apply alloc_keeps. tauto.
Qed.

(** A block reached through the indirect block. *)
Lemma grown_indirect bn d :
  NDIRECT <= bn < MAXFILE -> imap (tv_disk V) di bn = 0 -> bptr di <> 0 ->
  dat (tv_disk V) (bptr di) = Some d ->
  let V' := tv_put (bptr di) (put32 d (4 * (bn - NDIRECT)) b) (tv_alloc sb b V) in
  grown sb V V' di di /\ imap (tv_disk V') di bn = b /\
  (forall n, n <> bptr di -> dat (tv_disk V') n = dat (tv_disk (tv_alloc sb b V)) n).
Proof.
  intros Hbn Hz Hp Hd V'. pose proof dstart_pos as H0. pose proof (io_ind _ _ _ HI Hp) as Hpb.
  pose proof Hpb as [Hpr Hpbit]. pose proof (ind_keeps Hp) as Hk.
  assert (is_block d) as [Hdl Hdf].
  { unfold dat in Hd. destruct (_ <? 0); [done|]. by eapply (Forall_lookup_1 _ _ _ _ (g_blocks _ _ HG)). }
  unfold BSIZE in Hdl. unfold NDIRECT in Hbn. change MAXFILE with 140 in Hbn.
  assert (is_block (put32 d (4 * (bn - NDIRECT)) b)) as Hblk.
  { split; [rewrite length_put32; unfold NDIRECT, BSIZE; lia|by apply put32_u8]. }
  assert (forall n, n <> bptr di -> dat (tv_disk V') n = dat (tv_disk (tv_alloc sb b V)) n) as Hne.
  { intros n Hn. unfold V', tv_put. simpl. apply dat_insert_ne; lia. }
  assert (dat (tv_disk V') (bptr di) = Some (put32 d (4 * (bn - NDIRECT)) b)) as Hptr.
  { unfold V', tv_put. simpl. apply dat_insert_eq.
    assert (is_Some (dat (tv_disk (tv_alloc sb b V)) (bptr di))) as Hs by (rewrite Hk; eauto). by apply dat_Some in Hs. }
  assert (imap (tv_disk V') di bn = b) as Hnew.
  { unfold imap. destruct (Z.ltb_spec bn NDIRECT); [unfold NDIRECT in *; lia|].
    rewrite (proj2 (Z.eqb_neq _ _) Hp), Hptr. simpl. rewrite get32_put32_eq by (unfold NDIRECT; lia).
    apply u32_id, b_u32. }
  assert (forall k, 0 <= k < MAXFILE -> k <> bn -> imap (tv_disk V') di k = imap (tv_disk V) di k) as Hoth.
  { intros k Hkr Hkn. unfold imap. destruct (Z.ltb_spec k NDIRECT); [done|]. rewrite (proj2 (Z.eqb_neq _ _) Hp), Hptr, Hd.
    simpl. apply get32_put32_ne; unfold NDIRECT in *; lia. }
  assert (forall c, 0 <= c < sb_size sb -> bm_bit sb (tv_disk V') c = bool_decide (c = b) || bm_bit sb (tv_disk V) c) as Hbits.
  { intros c Hc. unfold V', tv_put. simpl. rewrite bm_bit_data; [by apply alloc_bits'|apply fsok_alloc; done|lia|done]. }
  split; [|done]. split.
  - apply fsok_put; [by apply fsok_alloc|done|lia].
  - done.
  - eapply (inode_ok_block sb (tv_disk V) _ di _ b HI) with (bn := bn); try done; [apply HI|].
    change MAXFILE with 140. lia.
  - done.
  - intros c Hc Hbit. rewrite Hbits by done. rewrite Hbit. apply orb_true_r.
  - done.
  - intros k Hkr Hk0. destruct (decide (k = bn)) as [->|]; [congruence|by apply Hoth].
  - by left.
  - intros k Hkr. destruct (decide (k = bn)) as [->|]; [right; by rewrite Hnew|left; by apply Hoth].
  - intros n Hn. rewrite Hne; [apply alloc_keeps; tauto|]. destruct Hn as [Hn|[_ Hn]]; [|done].
    pose proof (geo_dstart _ _ HG). lia.
Qed.
End allocs.

Section bmap.
Context (sb : superblock) (S0 : fstate) (i : nat).
Context (Hi : (i < length (icache S0))%nat) (Hsb : fsb S0 = sb).
Context (Hdev : i_dev (inode_at i S0) = ROOTDEV).

(** A block that is there. *)
Lemma wp_bmap_mapped l V di bn (Q : Z -> fstate -> Prop) :
  repr l V -> fsok sb V -> tv_held V = ∅ -> inode_ok sb (tv_disk V) di -> 0 <= bn < MAXFILE ->
  imap (tv_disk V) di bn <> 0 -> 0 < tv_room V ->
  (forall l', repr l' V -> Q (imap (tv_disk V) di bn) (with_data S0 i l' di)) ->
  wp (bmap i bn) Q (with_data S0 i l di).
Proof.
  intros HR HO Hh HI Hbn Hmap Hroom HQ. unfold bmap. apply wp_bind, (wp_ifield S0 i Hi). unfold id.
  change (i_addrs (set_i_data di (inode_at i S0))) with (di_addrs di).
  change (i_dev (set_i_data di (inode_at i S0))) with (i_dev (inode_at i S0)). rewrite Hdev.
  unfold imap in Hmap, HQ. fold (bptr di). destruct (Z.ltb_spec bn NDIRECT) as [Hlt|Hge].
  - cbv zeta. rewrite (proj2 (Z.eqb_neq _ _) Hmap). by apply wp_ret, HQ.
  - cbv zeta. destruct (Z.ltb_spec (bn - NDIRECT) NINDIRECT); [|change MAXFILE with 140 in Hbn;
      unfold NDIRECT in *; change NINDIRECT with 128 in *; lia].
    destruct (Z.eqb_spec (bptr di) 0) as [|Hp]; [done|]. apply wp_bind, wp_ret.
    destruct (io_ind _ _ _ HI Hp) as [Hpr _].
    destruct (proj2 (dat_Some (tv_disk V) (bptr di))) as [d Hd].
    { pose proof (g_size _ _ (fo_geo _ _ HO)). pose proof (dstart_pos sb V HO). lia. }
    rewrite Hd in Hmap, HQ. simpl in Hmap, HQ.
    apply wp_bind. eapply wp_fbread; [exact HR|by rewrite Hh|exact Hd|done|]. intros l1 H1.
    rewrite (proj2 (Z.eqb_neq _ _) Hmap). apply wp_bind, wp_ret. apply wp_bind.
    eapply wp_fbrelse; [exact H1|simpl; set_solver|by simpl; rewrite (fo_mod _ _ HO)|]. intros l2 H2.
    rewrite tv_hold_release in H2 by (by rewrite Hh). by apply wp_ret, HQ.
Qed.

(** The result of [bmap] on any block number in range. *)
Record bmapped (V : tview) (di : dinode) (bn : Z) (V' : tview) (di' : dinode) (a : Z) : Prop := BMapped {
  bp_grown : grown sb V V' di di';
  bp_addr : imap (tv_disk V') di' bn = a;
  bp_ne : a <> 0;
  bp_same : imap (tv_disk V) di bn <> 0 -> V' = V /\ di' = di;
  bp_fresh : imap (tv_disk V) di bn = 0 -> dat (tv_disk V') a = Some zeroes /\ bm_bit sb (tv_disk V) a = false;
  bp_budget : forall k, budget V (k + 5) -> budget V' k;
  bp_nfree : (nfree sb (tv_disk V) <= nfree sb (tv_disk V') + 2)%nat
}.

(** The indirect block, allocated if need be. *)
Lemma wp_bmap_ind l V di (Q : Z -> fstate -> Prop) :
  repr l V -> fsok sb V -> tv_held V = ∅ -> inode_ok sb (tv_disk V) di ->
  budget V 2 -> (1 <= nfree sb (tv_disk V))%nat ->
  (forall l' V' di', repr l' V' -> grown sb V V' di di' -> bptr di' <> 0 ->
     (forall k, 0 <= k < MAXFILE -> imap (tv_disk V') di' k = imap (tv_disk V) di k) ->
     (forall k, budget V (k + 2) -> budget V' k) -> (nfree sb (tv_disk V) <= nfree sb (tv_disk V') + 1)%nat ->
     Q (bptr di') (with_data S0 i l' di')) ->
  wp (if bptr di =? 0 then
        addr <- balloc ROOTDEV ;;
        iupd i (set_i_addr NDIRECT addr) ;;
        ret addr
      else ret (bptr di)) Q (with_data S0 i l di).
Proof.
  intros HR HO Hh HI Hb Hf HQ. destruct (Z.eqb_spec (bptr di) 0) as [Hp|Hp].
  - apply wp_bind. eapply (wp_balloc sb); [exact HR|done|done|by apply nfree_pos|done|].
    intros b l1 Hbr Hbit _ H1. apply wp_bind.
    apply (wp_iupd S0 i Hi _ _ _ (set_addr NDIRECT b di)); [done|]. apply wp_ret.
    destruct (grown_ind sb V di b HO HI Hbr Hbit Hp) as (Hg & Hptr & Hall).
    rewrite <- Hptr at 1. apply (HQ l1 (tv_alloc sb b V)); rewrite ?Hptr; try done.
    + pose proof (dstart_pos sb V HO). lia.
    + intros k Hk. apply budget_put, budget_put. by replace (k + 1 + 1) with (k + 2) by lia.
    + by apply nfree_alloc.
  - apply wp_ret. apply (HQ l V di); [done|by apply grown_refl|done|done| |lia].
    intros k Hk. eapply budget_mono; [exact Hk|lia].
Qed.

(** The entry of the indirect block, which the caller holds. *)
Lemma wp_bmap_entry l V di bn d (Q : Z -> fstate -> Prop) :
  repr l (tv_hold (bptr di) V) -> fsok sb V -> tv_held V = ∅ -> inode_ok sb (tv_disk V) di ->
  NDIRECT <= bn < MAXFILE -> bptr di <> 0 -> dat (tv_disk V) (bptr di) = Some d ->
  imap (tv_disk V) di bn = 0 -> budget V 3 -> (1 <= nfree sb (tv_disk V))%nat ->
  (forall l' V' a, repr l' V' -> bmapped V di bn V' di a ->
     (forall k, budget V (k + 3) -> budget V' k) -> (nfree sb (tv_disk V) <= nfree sb (tv_disk V') + 1)%nat ->
     Q a (with_data S0 i l' di)) ->
  wp (a <- balloc ROOTDEV ;;
      d <- fdata (bptr di) ;;
      fset (bptr di) (put32 d (4 * (bn - NDIRECT)) a) ;;
      flog_write (bptr di) ;;
      ret a) (fun r => wp (fbrelse (bptr di) ;; ret r) Q) (with_data S0 i l di).
Proof.
  intros H2 HO Hh HI Hbn Hp Hd Hz Hb Hf HQ. pose proof (dstart_pos sb V HO) as H0. pose proof (io_ind _ _ _ HI Hp) as [Hpr Hpb].
  apply wp_bind. eapply (wp_balloc sb); [exact H2|done|by apply fsok_hold|apply nfree_pos; simpl; lia|
    by apply budget_hold; eapply budget_mono; [exact Hb|lia]|].
  intros b l3 Hbr Hbit _ H3. simpl in Hbit.
  change (tv_alloc sb b (tv_hold (bptr di) V)) with (tv_hold (bptr di) (tv_alloc sb b V)) in H3.
  destruct (grown_indirect sb V di b HO HI Hbr Hbit bn d) as (Hg & Hnew & Hoth); [done|done|done|done|].
  assert (bptr di <> b) as Hpne by congruence.
  assert (dat (tv_disk (tv_alloc sb b V)) (bptr di) = Some d) as Hd3.
  { by rewrite (ind_keeps sb V di b HO HI Hbr Hbit Hp). }
  apply wp_bind. eapply wp_fdata; [exact H3|simpl; set_solver|exact Hd3|].
  assert (is_block (put32 d (4 * (bn - NDIRECT)) b)) as Hblk.
  { pose proof (g_blocks _ _ (fo_geo _ _ HO)) as Hbl. unfold dat in Hd. destruct (_ <? 0); [done|].
    destruct (Forall_lookup_1 _ _ _ _ Hbl Hd) as [Hl1 Hl2]. unfold BSIZE in Hl1. change MAXFILE with 140 in Hbn.
    unfold NDIRECT in *. split; [rewrite length_put32; unfold BSIZE; lia|by apply put32_u8]. }
  apply wp_bind. eapply wp_fset; [exact H3|simpl; set_solver|done|]. intros l4 H4.
  apply wp_bind. eapply wp_flog_write; [exact H4|simpl; set_solver| |].
  { assert (budget (tv_alloc sb b V) 1) as [_ Hx] by (apply budget_put, budget_put; exact Hb). simpl in Hx |- *. lia. }
  intros l5 H5. apply wp_ret. apply wp_bind.
  eapply wp_fbrelse; [exact H5|simpl; set_solver|simpl; set_solver|]. intros l6 H6.
  rewrite tv_update in H6 by (simpl; rewrite ?Hh, ?(fo_mod _ _ HO); done). apply wp_ret.
  assert (forall k, budget V (k + 3) -> budget (tv_put (bptr di) (put32 d (4 * (bn - NDIRECT)) b) (tv_alloc sb b V)) k) as Hbud.
  { intros k Hk. apply budget_put, budget_put, budget_put. by replace (k + 1 + 1 + 1) with (k + 3) by lia. }
  assert (nfree sb (tv_disk V) <= nfree sb (tv_disk (tv_put (bptr di) (put32 d (4 * (bn - NDIRECT)) b) (tv_alloc sb b V))) + 1)%nat as Hnf.
  { rewrite (nfree_ext sb (tv_disk (tv_alloc sb b V)) (tv_disk (tv_put _ _ _))); [by apply nfree_alloc|]. intros c Hc.
    symmetry. unfold tv_put. simpl. apply bm_bit_data; [apply fsok_alloc; done|lia|done]. }
  eapply HQ; [exact H6| |done|done]. split; [done|done|lia|congruence| |intros k Hk; apply Hbud; by eapply budget_mono; [exact Hk|lia]|lia].
  intros _. rewrite Hoth by congruence. split; [by apply alloc_zero|done].
Qed.

Lemma wp_bmap l V di bn (Q : Z -> fstate -> Prop) :
  repr l V -> fsok sb V -> tv_held V = ∅ -> inode_ok sb (tv_disk V) di -> 0 <= bn < MAXFILE ->
  budget V 5 -> (2 <= nfree sb (tv_disk V))%nat ->
  (forall l' V' di' a, repr l' V' -> bmapped V di bn V' di' a -> Q a (with_data S0 i l' di')) ->
  wp (bmap i bn) Q (with_data S0 i l di).
Proof.
  intros HR HO Hh HI Hbn Hb Hf HQ. pose proof (dstart_pos sb V HO) as H0.
  destruct (decide (imap (tv_disk V) di bn = 0)) as [Hz|Hz].
  2: { eapply wp_bmap_mapped; try done; [destruct Hb; lia|]. intros l' H'. apply (HQ l' V); [done|].
       split; [by apply grown_refl|done|done|done|done| |lia]. intros k Hk. eapply budget_mono; [exact Hk|lia]. }
  unfold bmap. apply wp_bind, (wp_ifield S0 i Hi). unfold id.
  change (i_addrs (set_i_data di (inode_at i S0))) with (di_addrs di).
  change (i_dev (set_i_data di (inode_at i S0))) with (i_dev (inode_at i S0)). rewrite Hdev.
  fold (bptr di). destruct (Z.ltb_spec bn NDIRECT) as [Hlt|Hge]; cbv zeta.
  - assert (imap (tv_disk V) di bn = nth (Z.to_nat bn) (di_addrs di) 0) as Em.
    { unfold imap. by rewrite (proj2 (Z.ltb_lt _ _) Hlt). }
    rewrite <- Em, Hz, Z.eqb_refl. apply wp_bind.
    eapply (wp_balloc sb); [exact HR|done|done|apply nfree_pos; lia|by eapply budget_mono; [exact Hb|lia]|].
    intros b l1 Hbr Hbit _ H1. apply wp_bind.
    apply (wp_iupd S0 i Hi _ _ _ (set_addr bn b di)); [done|]. apply wp_ret.
    destruct (grown_direct sb V di b HO HI Hbr Hbit bn) as (Hg & Hnew); [lia|done|].
    apply (HQ l1 (tv_alloc sb b V)); [done|]. split; [done|done|lia|congruence| | |].
    + intros _. split; [by apply alloc_zero|done].
    + intros k Hk. apply budget_put, budget_put. eapply budget_mono; [exact Hk|lia].
    + pose proof (nfree_alloc sb V b HO Hbr). lia.
  - destruct (Z.ltb_spec (bn - NDIRECT) NINDIRECT); [|change MAXFILE with 140 in Hbn; change NINDIRECT with 128 in *;
      unfold NDIRECT in *; lia]. apply wp_bind.
    eapply wp_bmap_ind; [exact HR|done|done|done|by eapply budget_mono; [exact Hb|lia]|lia|].
    intros l1 V1 di1 HR1 Hg1 Hp1 Hall Hbud1 Hnf1.
    pose proof (gr_fsok _ _ _ _ _ Hg1) as HO1. pose proof (gr_inode _ _ _ _ _ Hg1) as HI1.
    assert (tv_held V1 = ∅) as Hh1 by (by rewrite (gr_held _ _ _ _ _ Hg1)).
    destruct (io_ind _ _ _ HI1 Hp1) as [Hpr _].
    destruct (proj2 (dat_Some (tv_disk V1) (bptr di1))) as [d Hd].
    { pose proof (g_size _ _ (fo_geo _ _ HO1)). lia. }
    assert (budget V1 3) as Hb1 by (apply Hbud1; done).
    apply wp_bind. eapply wp_fbread; [exact HR1|by rewrite Hh1|exact Hd|destruct Hb1; lia|]. intros l2 H2.
    assert (imap (tv_disk V1) di1 bn = get32 d (4 * (bn - NDIRECT))) as Em.
    { unfold imap. by rewrite (proj2 (Z.ltb_ge _ _) Hge), (proj2 (Z.eqb_neq _ _) Hp1), Hd. }
    rewrite Hall, Hz in Em by done. rewrite <- Em, Z.eqb_refl. apply wp_bind.
    eapply wp_bmap_entry; [exact H2|done|done|done|lia|done|done|by rewrite Hall|done|lia|].
    intros l3 V3 a H3 Hm Hbud3 Hnf3. apply (HQ l3 V3); [done|]. destruct Hm as [M1 M2 M3 M4 M5 M6 M7].
    assert (grown sb V V3 di di1) as Hg by (by eapply grown_trans).
    assert (imap (tv_disk V1) di1 bn = 0) as Hz1 by (by rewrite Hall). destruct (M5 Hz1) as [M51 M52].
    split; [done|done|done|congruence| | |lia].
    + intros _. split; [done|]. subst a. pose proof (io_map _ _ _ (gr_inode _ _ _ _ _ Hg) bn Hbn M3) as [[Hr _] _].
      eapply bit_back; [exact (gr_bits _ _ _ _ _ Hg1)|done|done|done].
    + intros k Hk. apply Hbud3, Hbud1. by replace (k + 3 + 2) with (k + 5) by lia.
Qed.
End bmap.
