(* ===== verification/FsFile.v ===== *)
(** [readi] and [writei]: the bytes of a file.  The content of an inode is a
    list of bytes; [readi] returns a piece of it, [writei] overwrites a piece
    and extends it, and every other file keeps its content. *)
From stdpp Require Import base numbers list gmap sets strings.
From Stdlib Require Import ZArith Lia.
From S2P Require Import Prelude Bytes Mem Sleeplock Disk BlockLayer Super Log LogOps Tx Fs FsBlocks FsInode FsMap.

(** Byte [k] of the file, and a range of its bytes. *)
Definition fbyte (dk : list block) (di : dinode) (k : Z) : Z :=
  byte_at (default [] (dat dk (imap dk di (k / BSIZE)))) (k mod BSIZE).
Definition fbytes (dk : list block) (di : dinode) (off n : Z) : list Z := fbyte dk di <$> seqZ off n.
Definition content (dk : list block) (di : dinode) : list Z := fbytes dk di 0 (di_size di).

(** The blocks of the file. *)
Definition owns (dk : list block) (di : dinode) (n : Z) : Prop :=
  n <> 0 /\ (n = bptr di \/ exists bn, 0 <= bn < MAXFILE /\ imap dk di bn = n).

Lemma length_fbytes dk di off n : length (fbytes dk di off n) = Z.to_nat n.
Proof. unfold fbytes. rewrite length_fmap. apply length_seqZ. Qed.

Lemma fbytes_app dk di off n m : 0 <= n -> 0 <= m ->
  fbytes dk di off (n + m) = fbytes dk di off n ++ fbytes dk di (off + n) m.
Proof. intros Hn Hm. unfold fbytes. by rewrite seqZ_app, fmap_app by lia. Qed.

Lemma lookup_fbytes dk di off n (j : nat) : Z.of_nat j < n ->
  fbytes dk di off n !! j = Some (fbyte dk di (off + Z.of_nat j)).
Proof. intros Hj. unfold fbytes. rewrite list_lookup_fmap, lookup_seqZ_lt by lia. done. Qed.

Lemma fbytes_ext dk dk' di di' off n :
  (forall k, off <= k < off + n -> fbyte dk di k = fbyte dk' di' k) -> fbytes dk di off n = fbytes dk' di' off n.
Proof.
  intros H. apply list_eq_same_length with (n := Z.to_nat n); rewrite ?length_fbytes; [done..|].
  intros j x y Hj. rewrite !lookup_fbytes by lia. intros [= <-] [= <-]. apply H. lia.
Qed.

Lemma fbytes_slice dk di off n : 0 <= off -> 0 <= n -> off + n <= di_size di ->
  fbytes dk di off n = slice (content dk di) off n.
Proof.
  intros Ho Hn Hs. unfold content, slice.
  replace (di_size di) with (off + (n + (di_size di - off - n))) by lia.
  rewrite !fbytes_app by lia. rewrite drop_app_length' by (by rewrite length_fbytes).
  by rewrite take_app_length' by (by rewrite length_fbytes).
Qed.

(** The bytes of one block. *)
Lemma block_bytes dk di off m d :
  0 <= off -> 0 <= m <= BSIZE - off mod BSIZE -> dat dk (imap dk di (off / BSIZE)) = Some d -> is_block d ->
  slice d (off mod BSIZE) m = fbytes dk di off m.
Proof.
  intros Ho Hm Hd [Hl _]. unfold BSIZE in *. pose proof (Z.mod_pos_bound off 512 ltac:(lia)) as Hb.
  apply list_eq_same_length with (n := Z.to_nat m); [rewrite length_fbytes; done|pose proof (length_slice d (off mod 512) m ltac:(lia) ltac:(lia) ltac:(lia)); lia|].
  intros j x y Hj. rewrite lookup_fbytes, lookup_slice by lia. intros E [= <-].
  unfold fbyte, BSIZE.
  assert ((off + Z.of_nat j) / 512 = off / 512 /\ (off + Z.of_nat j) mod 512 = off mod 512 + Z.of_nat j) as [-> ->].
  { pose proof (Z.div_mod off 512 ltac:(lia)).
    assert (off + Z.of_nat j = 512 * (off / 512) + (off mod 512 + Z.of_nat j)) as E2 by lia. split.
    - symmetry. eapply Z.div_unique; [|exact E2]. lia.
    - symmetry. eapply Z.mod_unique; [|exact E2]. lia. }
  rewrite Hd. simpl. unfold byte_at. rewrite nth_lookup. replace (Z.to_nat _) with (Z.to_nat (off mod 512) + j)%nat by lia.
  by rewrite E.
Qed.

Section files.
Context `{!Devsw}.
Context (sb : superblock) (S0 : fstate) (i : nat).
Context (Hi : (i < length (icache S0))%nat) (Hsb : fsb S0 = sb).
Context (Hdev : i_dev (inode_at i S0) = ROOTDEV).

Lemma file_block V di bn : fsok sb V -> inode_ok sb (tv_disk V) di -> 0 <= bn < MAXFILE -> imap (tv_disk V) di bn <> 0 ->
  exists d, dat (tv_disk V) (imap (tv_disk V) di bn) = Some d /\ is_block d.
Proof. clear Hi Hsb Hdev.
  intros HO HI Hbn Hm. destruct (io_map _ _ _ HI bn Hbn Hm) as [[Hr _] _]. pose proof (fo_geo _ _ HO) as HG.
  pose proof (dstart_pos sb V HO). destruct (proj2 (dat_Some (tv_disk V) (imap (tv_disk V) di bn))) as [d Hd].
  { pose proof (g_size _ _ HG). lia. }
  exists d. split; [done|]. unfold dat in Hd. destruct (_ <? 0); [done|].
  by eapply (Forall_lookup_1 _ _ _ _ (g_blocks _ _ HG)).
Qed.

(** * Reading *)

Lemma wp_readi_loop V di : fsok sb V -> tv_held V = ∅ -> inode_ok sb (tv_disk V) di -> 0 < tv_room V ->
  forall fuel l off n (Q : list Z -> fstate -> Prop),
  repr l V -> 0 <= off -> 0 <= n -> off + n <= di_size di -> n < Z.of_nat fuel ->
  (forall l', repr l' V -> Q (fbytes (tv_disk V) di off n) (with_data S0 i l' di)) ->
  wp (readi_loop i off n fuel) Q (with_data S0 i l di).
Proof.
  intros HO Hh HI Hroom. induction fuel as [|f IH]; intros l off n Q HR Ho Hn Hs Hf HQ; [lia|]. cbn [readi_loop].
  destruct (Z.leb_spec n 0) as [Hz|Hz].
  { apply wp_ret. assert (n = 0) as -> by lia. by apply HQ. }
  pose proof (Z.mod_pos_bound off BSIZE ltac:(done)) as Hmod. pose proof (Z.div_mod off BSIZE ltac:(done)) as Hdm.
  pose proof (io_size _ _ _ HI) as Hsz.
  assert (0 <= off / BSIZE < MAXFILE) as Hbn by (unfold BSIZE in *; lia).
  assert (imap (tv_disk V) di (off / BSIZE) <> 0) as Hmap.
  { apply (io_full _ _ _ HI); [lia|]. unfold BSIZE in *. lia. }
  destruct (file_block V di _ HO HI Hbn Hmap) as (d & Hd & Hdb).
  apply wp_bind, (wp_ifield S0 i Hi). apply wp_bind.
  eapply (wp_bmap_mapped sb S0 i Hi Hsb Hdev); [exact HR|done|done|done|done|done|done|]. intros l1 H1.
  change (i_dev (id (set_i_data di (inode_at i S0)))) with (i_dev (inode_at i S0)). rewrite Hdev.
  apply wp_bind. eapply wp_fbread; [exact H1|by rewrite Hh|exact Hd|done|]. intros l2 H2. cbv zeta.
  apply wp_bind. eapply wp_fbrelse; [exact H2|simpl; set_solver|by simpl; rewrite (fo_mod _ _ HO)|]. intros l3 H3.
  rewrite tv_hold_release in H3 by (by rewrite Hh). set (m := Z.min n (BSIZE - off mod BSIZE)).
  apply wp_bind. apply (IH l3); [done|lia|lia|lia|lia|]. intros l4 H4. apply wp_ret.
  rewrite (block_bytes (tv_disk V) di off m d) by (done || lia).
  rewrite <- fbytes_app by lia. replace (m + (n - m)) with n by lia. by apply HQ.
Qed.

Lemma wp_readi l V di off n (Q : Z * list Z -> fstate -> Prop) :
  repr l V -> fsok sb V -> tv_held V = ∅ -> inode_ok sb (tv_disk V) di -> di_type di <> T_DEV -> 0 < tv_room V ->
  0 <= off -> 0 <= n < 2 ^ 32 ->
  (forall l', repr l' V ->
     Q (if (di_size di <? off) || (2 ^ 32 <=? off + n) then (-1, [])
        else (Z.min n (di_size di - off), slice (content (tv_disk V) di) off (Z.min n (di_size di - off))))
       (with_data S0 i l' di)) ->
  wp (readi i off n) Q (with_data S0 i l di).
Proof.
  intros HR HO Hh HI Ht Hroom Ho Hn HQ. unfold readi. apply wp_bind, (wp_ifield S0 i Hi). unfold id.
  change (i_type (set_i_data di (inode_at i S0))) with (di_type di).
  change (i_size (set_i_data di (inode_at i S0))) with (di_size di).
  rewrite (proj2 (Z.eqb_neq _ _) Ht).
  pose proof (io_size _ _ _ HI) as Hsz. change (MAXFILE * BSIZE) with 71680 in Hsz.
  destruct (Z.ltb_spec (di_size di) off) as [Hlt|Hge]; [by apply wp_ret, HQ|]. simpl in HQ. cbn [orb].
  destruct (Z.leb_spec (2 ^ 32) (off + n)) as [Hov|Hno].
  - assert (u32 (off + n) = off + n - 2 ^ 32) as ->.
    { unfold u32. symmetry. apply Z.mod_unique with 1; lia. }
    destruct (Z.ltb_spec (off + n - 2 ^ 32) off); [|lia]. by apply wp_ret, HQ.
  - rewrite u32_small by lia. destruct (Z.ltb_spec (off + n) off); [lia|].
    cbv zeta. assert ((if di_size di <? off + n then di_size di - off else n) = Z.min n (di_size di - off)) as ->.
    { destruct (Z.ltb_spec (di_size di) (off + n)); lia. }
    apply wp_bind. apply (wp_readi_loop V di HO Hh HI Hroom); [done|lia|lia|lia|lia|]. intros l1 H1. apply wp_ret.
    rewrite fbytes_slice by lia. by apply HQ.
Qed.

(** * Writing *)

(** The bytes [src] have been written at [off]; the size is still the old one. *)
Record wrote (V : tview) (di : dinode) (off : Z) (src : list Z) (V' : tview) (di' : dinode) : Prop := Wrote {
  wr_fsok : fsok sb V';
  wr_held : tv_held V' = ∅;
  wr_inode : inode_ok sb (tv_disk V') di';
  wr_meta : same_meta di di';
  wr_bits : forall c, 0 <= c < sb_size sb -> bm_bit sb (tv_disk V) c = true -> bm_bit sb (tv_disk V') c = true;
  wr_map : forall bn, 0 <= bn < MAXFILE -> imap (tv_disk V) di bn <> 0 ->
    imap (tv_disk V') di' bn = imap (tv_disk V) di bn;
  wr_new : forall n, owns (tv_disk V') di' n -> owns (tv_disk V) di n \/ bm_bit sb (tv_disk V) n = false;
  wr_has : forall k, off <= k < off + Z.of_nat (length src) -> imap (tv_disk V') di' (k / BSIZE) <> 0;
  wr_in : forall k, off <= k < off + Z.of_nat (length src) -> fbyte (tv_disk V') di' k = nth (Z.to_nat (k - off)) src 0;
  wr_out : forall k, 0 <= k < MAXFILE * BSIZE -> k < off \/ off + Z.of_nat (length src) <= k ->
    imap (tv_disk V) di (k / BSIZE) <> 0 -> fbyte (tv_disk V') di' k = fbyte (tv_disk V) di k;
  wr_same : (forall k, off <= k < off + Z.of_nat (length src) -> imap (tv_disk V) di (k / BSIZE) <> 0) -> di' = di;
  wr_frame : forall n, n < sb_bmapstart sb \/ dblock sb (tv_disk V) n /\ ~ owns (tv_disk V) di n ->
    dat (tv_disk V') n = dat (tv_disk V) n
}.

Lemma wrote_nil V di off : fsok sb V -> tv_held V = ∅ -> inode_ok sb (tv_disk V) di -> wrote V di off [] V di.
Proof. clear Hi Hsb Hdev. intros HO Hh HI. split; try done; simpl; try (intros; lia). by left. Qed.

Lemma in_file k : 0 <= k < MAXFILE * BSIZE -> 0 <= k / BSIZE < MAXFILE.
Proof. clear Hi Hsb Hdev. intros Hk. pose proof (Z.div_mod k BSIZE ltac:(done)). pose proof (Z.mod_pos_bound k BSIZE ltac:(done)).
  unfold BSIZE in *. lia. Qed.

Lemma wrote_app V di off s1 V1 d1 s2 V2 d2 :
  0 <= off -> off + Z.of_nat (length (s1 ++ s2)) <= MAXFILE * BSIZE -> 0 < dstart sb ->
  wrote V di off s1 V1 d1 -> wrote V1 d1 (off + Z.of_nat (length s1)) s2 V2 d2 -> wrote V di off (s1 ++ s2) V2 d2.
Proof. clear Hi Hsb Hdev.
  intros Ho Hmax H0 [A1 A2 A3 A4 A5 A6 A7 A8 A9 A10 A11 A12] [B1 B2 B3 B4 B5 B6 B7 B8 B9 B10 B11 B12].
  rewrite length_app in Hmax. rewrite Nat2Z.inj_add in Hmax. split; rewrite ?length_app, ?Nat2Z.inj_add; try done.
  - unfold same_meta in *. intuition congruence.
  - auto.
  - intros bn Hbn Hz. rewrite B6; [by apply A6|done|]. by rewrite A6.
  - intros n Hn. destruct (B7 n Hn) as [Hn1|Hn1]; [by apply A7|]. right.
    eapply bit_back; [exact A5|done| |exact Hn1].
    destruct Hn as [Hz [-> | (bn & Hbn & <-)]]; [by apply (io_ind _ _ _ B3)|by apply (io_map _ _ _ B3)].
  - intros k Hk. destruct (decide (k < off + Z.of_nat (length s1))) as [Hlt|Hge]; [|apply B8; lia].
    rewrite B6; [apply A8; lia|apply in_file; lia|apply A8; lia].
  - intros k Hk. destruct (decide (k < off + Z.of_nat (length s1))) as [Hlt|Hge].
    + rewrite B10, A9 by (lia || (apply A8; lia)). rewrite app_nth1 by lia. done.
    + rewrite B9 by lia. rewrite app_nth2 by lia. f_equal. lia.
  - intros k Hk Hout Hm. rewrite B10; [apply A10; [done|lia|done]|done|lia|]. rewrite A6; [done|by apply in_file|done].
  - intros Hall. rewrite <- A11 at 1 by (intros; apply Hall; lia). apply B11. intros k Hk.
    rewrite A6; [apply Hall; lia|apply in_file; lia|apply Hall; lia].
  - intros n Hn. rewrite B12; [by apply A12|]. destruct Hn as [Hn|[Hn Ho']]; [by left|right].
    split; [by eapply dblock_bits|]. intros Hown. destruct (A7 n Hown) as [|Hf]; [done|]. destruct Hn. congruence.
Qed.

(** A store into a block of the file. *)
Section store.
Context (V : tview) (di : dinode) (bn : Z) (d' : block).
Context (HO : fsok sb V) (HI : inode_ok sb (tv_disk V) di) (Hbn : 0 <= bn < MAXFILE).
Let a := imap (tv_disk V) di bn.
Context (Ha : a <> 0) (Hd' : is_block d').
Let V' := tv_put a d' V.

Lemma store_range : dstart sb <= a < sb_size sb /\ bm_bit sb (tv_disk V) a = true /\ a <> bptr di.
Proof. clear Hi Hsb Hdev. destruct (io_map _ _ _ HI bn Hbn Ha) as [[H1 H2] H3]. done. Qed.

Lemma store_other n : n <> a -> dat (tv_disk V') n = dat (tv_disk V) n.
Proof. clear Hi Hsb Hdev. intros Hn. destruct store_range as (Hr & _). pose proof (dstart_pos sb V HO). apply dat_insert_ne; [lia|done]. Qed.

Lemma store_block : dat (tv_disk V') a = Some d'.
Proof. clear Hi Hsb Hdev.
  destruct store_range as (Hr & _). pose proof (dstart_pos sb V HO). pose proof (g_size _ _ (fo_geo _ _ HO)).
  apply dat_insert_eq. lia.
Qed.

Lemma store_imap k : imap (tv_disk V') di k = imap (tv_disk V) di k.
Proof. clear Hi Hsb Hdev.
  unfold imap. destruct (_ <? _); [done|]. destruct (Z.eqb_spec (bptr di) 0); [done|].
  rewrite store_other; [done|]. intros E. destruct store_range as (_ & _ & Hx). by rewrite E in Hx.
Qed.

Lemma store_bits c : 0 <= c < sb_size sb -> bm_bit sb (tv_disk V') c = bm_bit sb (tv_disk V) c.
Proof. clear Hi Hsb Hdev. intros Hc. destruct store_range as (Hr & _). apply bm_bit_data; [apply HO|lia|done]. Qed.

Lemma store_inode : inode_ok sb (tv_disk V') di.
Proof. clear Hi Hsb Hdev.
  pose proof (dstart_pos sb V HO) as H0.
  assert (forall n, dblock sb (tv_disk V) n -> dblock sb (tv_disk V') n) as Hdb.
  { intros n [Hr Hb]. split; [done|]. by rewrite store_bits by lia. }
  destruct HI as [I1 I2 I3 I4 I5 I6]. split; try done.
  - auto.
  - intros k Hk. rewrite !store_imap. intros Hk0. destruct (I3 k Hk Hk0). auto.
  - intros k k' Hk Hk'. rewrite !store_imap. by apply I4.
  - intros k. rewrite !store_imap. by apply I6.
Qed.

Lemma store_byte k : 0 <= k < MAXFILE * BSIZE ->
  fbyte (tv_disk V') di k = if decide (k / BSIZE = bn) then byte_at d' (k mod BSIZE) else fbyte (tv_disk V) di k.
Proof. clear Hi Hsb Hdev.
  intros Hk. unfold fbyte. rewrite store_imap. case_decide as E.
  - rewrite E. fold a. by rewrite store_block.
  - destruct (decide (imap (tv_disk V) di (k / BSIZE) = a)) as [Ea|Ea]; [|by rewrite store_other].
    exfalso. apply E. symmetry. apply (io_inj _ _ _ HI); [done|by apply in_file|done|done].
Qed.
End store.

Lemma same_block off j : 0 <= j -> off mod BSIZE + j < BSIZE ->
  (off + j) / BSIZE = off / BSIZE /\ (off + j) mod BSIZE = off mod BSIZE + j.
Proof. clear Hi Hsb Hdev.
  intros Hj Hb. pose proof (Z.div_mod off BSIZE ltac:(done)) as Hd. pose proof (Z.mod_pos_bound off BSIZE ltac:(done)).
  assert (off + j = BSIZE * (off / BSIZE) + (off mod BSIZE + j)) as E by lia. split.
  - symmetry. eapply Z.div_unique; [|exact E]. unfold BSIZE in *. lia.
  - symmetry. eapply Z.mod_unique; [|exact E]. unfold BSIZE in *. lia.
Qed.

Lemma grown_owns V V1 di di1 n : grown sb V V1 di di1 -> owns (tv_disk V1) di1 n ->
  owns (tv_disk V) di n \/ bm_bit sb (tv_disk V) n = false.
Proof. clear Hi Hsb Hdev.
  intros Hg [Hz [-> | (bn & Hbn & <-)]].
  - destruct (gr_newptr _ _ _ _ _ Hg) as [E|]; [left|by right]. split; [done|]. by left.
  - destruct (gr_new _ _ _ _ _ Hg bn Hbn) as [E|]; [left|by right]. split; [done|]. right. eauto.
Qed.

(** The bytes of a file block survive [bmap]. *)
Lemma grown_byte V V1 di di1 k : inode_ok sb (tv_disk V) di -> grown sb V V1 di di1 -> 0 <= k < MAXFILE * BSIZE ->
  imap (tv_disk V) di (k / BSIZE) <> 0 -> fbyte (tv_disk V1) di1 k = fbyte (tv_disk V) di k.
Proof. clear Hi Hsb Hdev.
  intros HI Hg Hk Hm. unfold fbyte. rewrite (gr_map _ _ _ _ _ Hg) by (done || by apply in_file).
  rewrite (gr_frame _ _ _ _ _ Hg); [done|]. right. apply (io_map _ _ _ HI); [by apply in_file|done].
Qed.

Lemma wrote_step V di off s V1 di1 a d :
  fsok sb V -> tv_held V = ∅ -> inode_ok sb (tv_disk V) di ->
  0 <= off -> off + Z.of_nat (length s) <= MAXFILE * BSIZE ->
  (0 < length s)%nat -> Z.of_nat (length s) <= BSIZE - off mod BSIZE -> Forall is_u8 s ->
  grown sb V V1 di di1 -> imap (tv_disk V1) di1 (off / BSIZE) = a -> a <> 0 ->
  (imap (tv_disk V) di (off / BSIZE) <> 0 -> V1 = V /\ di1 = di) -> dat (tv_disk V1) a = Some d -> is_block d ->
  is_block (splice d (off mod BSIZE) s) /\
  wrote V di off s (tv_put a (splice d (off mod BSIZE) s) V1) di1.
Proof. clear Hi Hsb Hdev.
  intros HO Hh HI Ho Hmax Hlen Hfit Hs8 Hg Ea Hne Hsame Hd [Hdl Hdf]. subst a.
  pose proof (Z.mod_pos_bound off BSIZE ltac:(done)) as Hmod. pose proof (in_file off ltac:(lia)) as Hbn.
  set (bn := off / BSIZE) in *. set (d' := splice d (off mod BSIZE) s).
  assert (is_block d') as Hd'.
  { split; [unfold d'; rewrite length_splice; lia|by apply splice_u8]. }
  split; [done|]. pose proof (gr_fsok _ _ _ _ _ Hg) as HO1. pose proof (gr_inode _ _ _ _ _ Hg) as HI1.
  destruct (store_range V1 di1 bn HI1 Hbn Hne) as (Hr & Hrb & Hrp).
  assert (forall j, 0 <= j < Z.of_nat (length s) -> (off + j) / BSIZE = bn /\ (off + j) mod BSIZE = off mod BSIZE + j) as Hblk.
  { intros j Hj. apply same_block; lia. }
  split.
  - apply fsok_put; [done|done|lia].
  - simpl. by rewrite (gr_held _ _ _ _ _ Hg).
  - by apply store_inode.
  - apply Hg.
  - intros c Hc Hb. rewrite store_bits by done. by apply (gr_bits _ _ _ _ _ Hg).
  - intros k Hk Hk0. rewrite store_imap by done. by apply (gr_map _ _ _ _ _ Hg).
  - intros n Hn. apply (grown_owns _ _ _ _ _ Hg). destruct Hn as [Hz [Hn | (k & Hk & E)]]; split; [done|by left|done|].
    right. exists k. split; [done|]. by rewrite store_imap in E.
  - intros k Hk. destruct (Hblk (k - off) ltac:(lia)) as [E _]. replace (off + (k - off)) with k in E by lia.
    rewrite store_imap by done. by rewrite E.
  - intros k Hk. destruct (Hblk (k - off) ltac:(lia)) as [E1 E2]. replace (off + (k - off)) with k in E1, E2 by lia.
    rewrite store_byte by (done || lia). rewrite decide_True by done. unfold byte_at, d'. rewrite !nth_lookup.
    rewrite lookup_splice_in by lia. do 2 f_equal. lia.
  - intros k Hk Hout Hm. rewrite store_byte by done. case_decide as E; [|by apply grown_byte].
    assert (k mod BSIZE < off mod BSIZE \/ off mod BSIZE + Z.of_nat (length s) <= k mod BSIZE) as Hcase.
    { pose proof (Z.div_mod k BSIZE ltac:(done)) as Hdk. pose proof (Z.div_mod off BSIZE ltac:(done)) as Hdo.
      fold bn in Hdo. rewrite E in Hdk. lia. }
    pose proof (Z.mod_pos_bound k BSIZE ltac:(done)).
    rewrite <- (grown_byte V V1 di di1 k HI Hg Hk Hm). unfold fbyte. rewrite E, Hd. simpl. unfold byte_at, d'.
    rewrite !nth_lookup. rewrite lookup_splice_out by lia. done.
  - intros Hall. apply Hsame. specialize (Hall off ltac:(lia)). done.
  - intros n Hn. rewrite store_other; [|done..|].
    + apply (gr_frame _ _ _ _ _ Hg). destruct Hn as [Hn|[Hn Hno]]; [by left|right]. split; [done|].
      intros ->. apply Hno. split; [|by left]. destruct Hn as [Hn _]. pose proof (dstart_pos sb V HO). lia.
    + intros E. rewrite E in Hn. destruct Hn as [Hn|[Hn Hno]]; [pose proof (geo_dstart _ _ (fo_geo _ _ HO)); lia|].
      assert (owns (tv_disk V1) di1 (imap (tv_disk V1) di1 bn)) as Hown by (split; [done|right; eauto]).
      destruct (grown_owns _ _ _ _ _ Hg Hown) as [|Hf]; [done|]. destruct Hn. congruence.
Qed.

(** The loop: [c] blocks are enough for the [n] bytes that are left. *)
Lemma wp_writei_loop : forall fuel l V di src off (c : nat) k (Q : Z -> fstate -> Prop),
  repr l V -> fsok sb V -> tv_held V = ∅ -> inode_ok sb (tv_disk V) di ->
  0 <= off -> off + Z.of_nat (length src) <= MAXFILE * BSIZE -> Forall is_u8 src ->
  Z.of_nat (length src) <= Z.max 0 (Z.of_nat c * BSIZE - off mod BSIZE) -> 0 <= k -> budget V (k + 6 * Z.of_nat c) ->
  (2 * c <= nfree sb (tv_disk V))%nat -> (length src < fuel)%nat ->
  (forall l' V' di', repr l' V' -> wrote V di off src V' di' -> budget V' k ->
     Q (off + Z.of_nat (length src)) (with_data S0 i l' di')) ->
  wp (writei_loop i src off (Z.of_nat (length src)) fuel) Q (with_data S0 i l di).
Proof.
  induction fuel as [|f IH]; intros l V di src off c k Q HR HO Hh HI Ho Hmax Hu8 Hc Hk Hb Hf Hfu HQ; [lia|].
  cbn [writei_loop]. destruct (Z.leb_spec (Z.of_nat (length src)) 0) as [Hz|Hz].
  { apply wp_ret. assert (src = []) as -> by (apply nil_length_inv; lia). simpl in HQ. rewrite Z.add_0_r in HQ.
    apply (HQ l V); [done|by apply wrote_nil|by eapply budget_mono; [exact Hb|lia]]. }
  pose proof (Z.mod_pos_bound off BSIZE ltac:(done)) as Hmod. pose proof (in_file off ltac:(lia)) as Hbn.
  assert (1 <= c)%nat as Hc1 by (unfold BSIZE in *; lia).
  apply wp_bind, (wp_ifield S0 i Hi). apply wp_bind.
  eapply (wp_bmap sb S0 i Hi Hsb Hdev); [exact HR|done|done|done|done|by eapply budget_mono; [exact Hb|lia]|lia|].
  intros l1 V1 di1 a H1 Hm.
  change (i_dev (id (set_i_data di (inode_at i S0)))) with (i_dev (inode_at i S0)). rewrite Hdev.
  pose proof (bp_grown _ _ _ _ _ _ _ Hm) as Hg. pose proof (gr_fsok _ _ _ _ _ Hg) as HO1.
  assert (tv_held V1 = ∅) as Hh1 by (by rewrite (gr_held _ _ _ _ _ Hg)).
  destruct (file_block V1 di1 (off / BSIZE) HO1 (gr_inode _ _ _ _ _ Hg) Hbn) as (d & Hd & Hdb).
  { rewrite (bp_addr _ _ _ _ _ _ _ Hm). apply Hm. }
  rewrite (bp_addr _ _ _ _ _ _ _ Hm) in Hd.
  assert (budget V1 (k + 6 * (Z.of_nat c - 1) + 1)) as Hb1.
  { apply (bp_budget _ _ _ _ _ _ _ Hm). eapply budget_mono; [exact Hb|lia]. }
  apply wp_bind. eapply wp_fbread; [exact H1|by rewrite Hh1|exact Hd|destruct Hb1; lia|]. intros l2 H2. cbv zeta.
  set (m := Z.min (Z.of_nat (length src)) (BSIZE - off mod BSIZE)). set (s := take (Z.to_nat m) src).
  assert (length s = Z.to_nat m) as Hls by (unfold s; rewrite length_take; lia).
  destruct (wrote_step V di off s V1 di1 a d) as [Hblk Hw]; try done; [lia|lia|lia|by apply Forall_take|by apply (bp_addr _ _ _ _ _ _ _ Hm)|by apply (bp_ne _ _ _ _ _ _ _ Hm)|
    by apply (bp_same _ _ _ _ _ _ _ Hm)|].
  eapply wp_commit_then; [exact H2|by rewrite Hh1|by rewrite (fo_mod _ _ HO1)|done|destruct Hb1; lia|].
  intros l3 H3. set (V2 := tv_put a _ V1) in *.
  assert (length (drop (Z.to_nat m) src) = (length src - Z.to_nat m)%nat) as Hlr by (by rewrite length_drop).
  replace (Z.of_nat (length src) - m) with (Z.of_nat (length (drop (Z.to_nat m) src))) by lia.
  assert (nfree sb (tv_disk V1) = nfree sb (tv_disk V2)) as Hnf.
  { apply nfree_ext. intros x Hx. pose proof (bp_addr _ _ _ _ _ _ _ Hm) as Ea. unfold V2. rewrite <- Ea.
    apply store_bits; [done|apply Hg|done|rewrite Ea; apply Hm|done]. }
  pose proof (bp_nfree _ _ _ _ _ _ _ Hm).
  apply (IH l3 V2 di1 (drop (Z.to_nat m) src) (off + m) (c - 1)%nat k); [done|apply Hw|apply Hw|apply Hw|lia|lia|by apply Forall_drop| |done| |lia|lia|].
  - destruct (decide (m = BSIZE - off mod BSIZE)) as [E|E]; [|lia].
    replace ((off + m) mod BSIZE) with 0; [unfold BSIZE in *; lia|].
    pose proof (Z.div_mod off BSIZE ltac:(done)). replace (off + m) with ((off / BSIZE + 1) * BSIZE) by lia.
    by rewrite Z.mod_mul.
  - apply budget_put. eapply budget_mono; [exact Hb1|lia].
  - intros l4 V4 di4 H4 Hw4 Hb4. replace (off + m + _) with (off + Z.of_nat (length src)) by lia.
    eapply HQ; [exact H4| |done]. rewrite <- (take_drop (Z.to_nat m) src). fold s.
    eapply wrote_app; [done| |by apply (dstart_pos sb V)|exact Hw|].
    + rewrite length_app. lia.
    + by replace (off + Z.of_nat (length s)) with (off + m) by lia.
Qed.

(** An inode whose blocks are left alone. *)
Lemma inode_frame dk dk' dj :
  0 < dstart sb -> inode_ok sb dk dj -> (forall n, owns dk dj n -> dat dk' n = dat dk n) ->
  (forall c, 0 <= c < sb_size sb -> bm_bit sb dk c = true -> bm_bit sb dk' c = true) ->
  inode_ok sb dk' dj /\ (forall bn, 0 <= bn < MAXFILE -> imap dk' dj bn = imap dk dj bn) /\
  (forall n, owns dk' dj n <-> owns dk dj n) /\ content dk' dj = content dk dj.
Proof. clear Hi Hsb Hdev.
  intros H0 HI Hd Hb.
  assert (forall bn, imap dk' dj bn = imap dk dj bn) as Em.
  { intros bn. unfold imap. destruct (_ <? _); [done|]. destruct (Z.eqb_spec (bptr dj) 0); [done|].
    rewrite Hd; [done|]. split; [done|by left]. }
  split; [|split; [done|split]].
  - destruct HI as [I1 I2 I3 I4 I5 I6]. split; try done.
    + intros Hp. eapply dblock_bits; [exact Hb|done|auto].
    + intros k Hk. rewrite !Em. intros Hk0. destruct (I3 k Hk Hk0). split; [by eapply dblock_bits|done].
    + intros k k' Hk Hk'. rewrite !Em. by apply I4.
    + intros k. rewrite !Em. by apply I6.
  - intros n. unfold owns. by setoid_rewrite Em.
  - apply fbytes_ext. intros k Hk. unfold fbyte. rewrite Em. rewrite Hd; [done|].
    pose proof (io_size _ _ _ HI). split; [|right; exists (k / BSIZE); split; [apply in_file; lia|done]].
    apply (io_full _ _ _ HI); [apply Z.div_pos; [lia|done]|]. pose proof (Z.div_mod k BSIZE ltac:(done)).
    pose proof (Z.mod_pos_bound k BSIZE ltac:(done)). lia.
Qed.

(** A write is complete: the size is up to date, in the cache and on the disk. *)
Definition inum_of : Z := i_inum (inode_at i S0).

Record written (V : tview) (di : dinode) (off : Z) (src : list Z) (V' : tview) (di' : dinode) : Prop := Written {
  wn_fsok : fsok sb V';
  wn_held : tv_held V' = ∅;
  wn_inode : inode_ok sb (tv_disk V') di';
  wn_type : di_type di' = di_type di /\ di_nlink di' = di_nlink di;
  wn_content : content (tv_disk V') di' = splice (content (tv_disk V) di) off src;
  wn_disk : disk_inode sb (tv_disk V) inum_of = di -> disk_inode sb (tv_disk V') inum_of = di';
  wn_inodes : forall m, 0 <= m < sb_ninodes sb -> m <> inum_of ->
    disk_inode sb (tv_disk V') m = disk_inode sb (tv_disk V) m;
  wn_others : forall dj, inode_ok sb (tv_disk V) dj ->
    (forall n, owns (tv_disk V) di n -> ~ owns (tv_disk V) dj n) ->
    inode_ok sb (tv_disk V') dj /\ content (tv_disk V') dj = content (tv_disk V) dj /\
    (forall n, owns (tv_disk V') di' n -> ~ owns (tv_disk V') dj n)
}.

Definition set_size (n : Z) (di : dinode) : dinode :=
  Dinode (di_type di) (di_major di) (di_minor di) (di_nlink di) n (di_addrs di).

Lemma wrote_content V di off src V' di' sz :
  inode_ok sb (tv_disk V) di -> wrote V di off src V' di' -> 0 <= off <= di_size di ->
  sz = Z.max (di_size di) (off + Z.of_nat (length src)) -> sz <= MAXFILE * BSIZE ->
  content (tv_disk V') (set_size sz di') = splice (content (tv_disk V) di) off src /\
  inode_ok sb (tv_disk V') (set_size sz di').
Proof. clear Hi Hsb Hdev.
  intros HI Hw Ho Esz Hmax. pose proof (io_size _ _ _ HI) as Hs.
  assert (forall k, 0 <= k < di_size di -> imap (tv_disk V) di (k / BSIZE) <> 0) as Hfull.
  { intros k Hk. apply (io_full _ _ _ HI); [apply Z.div_pos; [lia|done]|].
    pose proof (Z.div_mod k BSIZE ltac:(done)). pose proof (Z.mod_pos_bound k BSIZE ltac:(done)). lia. }
  split.
  - assert (length (content (tv_disk V) di) = Z.to_nat (di_size di)) as Hlc by apply length_fbytes.
    apply list_eq_same_length with (n := Z.to_nat sz).
    + unfold splice. rewrite !length_app, length_take, length_drop, Hlc. lia.
    + apply length_fbytes.
    + intros j x y Hj. unfold content at 1. rewrite lookup_fbytes by (simpl; lia). intros [= <-] Ey.
      change (fbyte (tv_disk V') (set_size sz di')) with (fbyte (tv_disk V') di'). rewrite Z.add_0_l.
      destruct (decide (off <= Z.of_nat j < off + Z.of_nat (length src))) as [Hin|Hout].
      * rewrite (wr_in _ _ _ _ _ _ Hw) by done. rewrite lookup_splice_in in Ey by lia.
        replace (Z.to_nat (Z.of_nat j - off)) with (j - Z.to_nat off)%nat by lia. by apply nth_lookup_Some.
      * assert (Z.of_nat j < di_size di) as Hjs by lia. rewrite (wr_out _ _ _ _ _ _ Hw) by (lia || (apply Hfull; lia)).
        destruct (decide (Z.of_nat j < off)) as [Hlt|Hge].
        -- unfold splice in Ey. rewrite lookup_app_l in Ey by (rewrite length_take; lia).
           rewrite lookup_take_lt in Ey by lia. unfold content in Ey. rewrite lookup_fbytes in Ey by lia.
           rewrite Z.add_0_l in Ey. congruence.
        -- rewrite lookup_splice_out in Ey by lia. unfold content in Ey. rewrite lookup_fbytes in Ey by lia.
           rewrite Z.add_0_l in Ey. congruence.
  - destruct (wr_inode _ _ _ _ _ _ Hw) as [[F1 F2 F3 F4 F5 F6 F7] I2 I3 I4 I5 I6]. split; try done.
    + split; try done. simpl. unfold is_u32. change (MAXFILE * BSIZE) with 71680 in *. lia.
    + intros bn Hbn0 Hbn. simpl in Hbn. change (imap (tv_disk V') (set_size sz di') bn) with (imap (tv_disk V') di' bn).
      assert (bn = bn * BSIZE / BSIZE) as Ebn by (by rewrite Z.div_mul).
      destruct (decide (bn * BSIZE < di_size di)) as [Hlt|Hge].
      * rewrite (wr_map _ _ _ _ _ _ Hw); [by apply (io_full _ _ _ HI)|unfold BSIZE in *; lia|by apply (io_full _ _ _ HI)].
      * rewrite Ebn. apply (wr_has _ _ _ _ _ _ Hw). lia.
Qed.

Lemma owns_dblock dk di n : inode_ok sb dk di -> owns dk di n -> dblock sb dk n.
Proof. clear Hi Hsb Hdev.
  intros HI [Hz [-> | (bn & Hbn & <-)]]; [by apply (io_ind _ _ _ HI)|by apply (io_map _ _ _ HI)].
Qed.

Lemma wrote_others V di off src V' di' dj :
  fsok sb V -> wrote V di off src V' di' -> inode_ok sb (tv_disk V) dj ->
  (forall n, owns (tv_disk V) di n -> ~ owns (tv_disk V) dj n) ->
  inode_ok sb (tv_disk V') dj /\ content (tv_disk V') dj = content (tv_disk V) dj /\
  (forall n, owns (tv_disk V') di' n -> ~ owns (tv_disk V') dj n).
Proof. clear Hi Hsb Hdev.
  intros HO Hw HJ Hdis. destruct (inode_frame (tv_disk V) (tv_disk V') dj) as (F1 & F2 & F3 & F4).
  - by apply (dstart_pos sb V).
  - done.
  - intros n Hn. apply (wr_frame _ _ _ _ _ _ Hw). right. split; [by eapply owns_dblock|]. intros Hd. by eapply Hdis.
  - apply Hw.
  - split; [done|split; [done|]]. intros n Hn Hj. rewrite F3 in Hj.
    destruct (wr_new _ _ _ _ _ _ Hw n Hn) as [|Hf]; [by eapply Hdis|].
    destruct (owns_dblock _ _ _ HJ Hj). congruence.
Qed.

Lemma wrote_inodes V di off src V' di' m : fsok sb V -> wrote V di off src V' di' -> 0 <= m < sb_ninodes sb ->
  disk_inode sb (tv_disk V') m = disk_inode sb (tv_disk V) m.
Proof. clear Hi Hsb Hdev. intros HO Hw Hm. apply (disk_inode_ext sb V); [done|done|]. intros n Hn. apply (wr_frame _ _ _ _ _ _ Hw). lia. Qed.

(** [iupdate] does not touch the files. *)
Lemma tv_inode_files V m di dj : fsok sb V -> 0 <= m < sb_ninodes sb -> inode_ok sb (tv_disk V) dj ->
  inode_ok sb (tv_disk (tv_inode sb m di V)) dj /\
  content (tv_disk (tv_inode sb m di V)) dj = content (tv_disk V) dj /\
  (forall n, owns (tv_disk (tv_inode sb m di V)) dj n <-> owns (tv_disk V) dj n).
Proof. clear Hi Hsb Hdev.
  intros HO Hm HJ. pose proof (geo_dstart _ _ (fo_geo _ _ HO)).
  destruct (inode_frame (tv_disk V) (tv_disk (tv_inode sb m di V)) dj) as (F1 & F2 & F3 & F4); try done.
  - by apply (dstart_pos sb V).
  - intros n Hn. apply (tv_inode_other sb V HO); [done|]. destruct (owns_dblock _ _ _ HJ Hn). lia.
  - intros c Hc Hb. unfold bm_bit, bm_byte. rewrite (tv_inode_other sb V HO); [done|done|].
    by apply (BBLOCK_range sb _ (fo_geo _ _ HO)).
Qed.

Lemma set_size_id di : set_size (di_size di) di = di.
Proof. clear Hi Hsb Hdev. by destruct di. Qed.

Lemma written_keep V di off src V' di' :
  fsok sb V -> 0 <= inum_of < sb_ninodes sb -> inode_ok sb (tv_disk V) di -> wrote V di off src V' di' ->
  0 <= off -> off + Z.of_nat (length src) <= di_size di -> written V di off src V' di'.
Proof.
  intros HO Hm HI Hw Ho Hs. pose proof (io_size _ _ _ HI) as Hmax.
  destruct (wrote_content V di off src V' di' (di_size di)) as [Hc _]; [done|done|lia|lia|done|].
  assert (di' = di) as ->.
  { apply (wr_same _ _ _ _ _ _ Hw). intros k Hk. apply (io_full _ _ _ HI); [apply Z.div_pos; [lia|done]|].
    pose proof (Z.div_mod k BSIZE ltac:(done)). pose proof (Z.mod_pos_bound k BSIZE ltac:(done)). lia. }
  rewrite set_size_id in Hc. split; try done; try apply Hw.
  - by rewrite (wrote_inodes _ _ _ _ _ _ _ HO Hw).
  - intros m Hmr _. by apply (wrote_inodes _ _ _ _ _ _ _ HO Hw).
  - intros dj. by apply (wrote_others _ _ _ _ _ _ _ HO Hw).
Qed.

Lemma written_grow V di off src V' di' :
  fsok sb V -> 0 <= inum_of < sb_ninodes sb -> inode_ok sb (tv_disk V) di -> wrote V di off src V' di' ->
  0 <= off <= di_size di -> di_size di < off + Z.of_nat (length src) <= MAXFILE * BSIZE ->
  let di'' := set_size (off + Z.of_nat (length src)) di' in
  written V di off src (tv_inode sb inum_of di'' V') di''.
Proof.
  intros HO Hm HI Hw Ho Hs di''. pose proof (wr_fsok _ _ _ _ _ _ Hw) as HO'.
  destruct (wrote_content V di off src V' di' (off + Z.of_nat (length src))) as [Hc HI'']; [done|done|lia|lia|lia|].
  destruct (tv_inode_files V' inum_of di'' di'' HO' Hm HI'') as (T1 & T2 & T3).
  pose proof (io_fields _ _ _ HI'') as Hok. split; try done.
  - apply fsok_inode; [done|done|apply Hok].
  - simpl. apply Hw.
  - simpl. destruct (wr_meta _ _ _ _ _ _ Hw) as (M1 & _ & _ & M4 & _). done.
  - by rewrite T2.
  - intros _. rewrite disk_inode_put by done. by rewrite decide_True.
  - intros m Hmr Hne. rewrite disk_inode_put by done. rewrite decide_False by done.
    by apply (wrote_inodes _ _ _ _ _ _ _ HO Hw).
  - intros dj HJ Hdis. destruct (wrote_others V di off src V' di' dj HO Hw HJ Hdis) as (O1 & O2 & O3).
    destruct (tv_inode_files V' inum_of di'' dj HO' Hm O1) as (U1 & U2 & U3).
    split; [done|]. split; [by rewrite U2|]. intros n Hn Hj. rewrite T3 in Hn. rewrite U3 in Hj. by apply (O3 n).
Qed.

(** Blocks that a write of [n] bytes at [off] can touch. *)
Definition nblocks (off n : Z) : nat := Z.to_nat ((off mod BSIZE + n + BSIZE - 1) / BSIZE).

Lemma nblocks_enough off n : 0 <= n -> n <= Z.max 0 (Z.of_nat (nblocks off n) * BSIZE - off mod BSIZE).
Proof.
  intros Hn. unfold nblocks, BSIZE. pose proof (Z.mod_pos_bound off 512 ltac:(lia)).
  pose proof (Z.div_mod (off mod 512 + n + 512 - 1) 512 ltac:(lia)).
  pose proof (Z.mod_pos_bound (off mod 512 + n + 512 - 1) 512 ltac:(lia)). lia.
Qed.

Lemma wp_writei l V di src off k (Q : Z -> fstate -> Prop) :
  repr l V -> fsok sb V -> tv_held V = ∅ -> inode_ok sb (tv_disk V) di -> di_type di <> T_DEV ->
  0 <= inum_of < sb_ninodes sb -> 0 <= off < 2 ^ 32 -> Z.of_nat (length src) < 2 ^ 32 -> Forall is_u8 src ->
  0 <= k -> budget V (k + 1 + 6 * Z.of_nat (nblocks off (Z.of_nat (length src)))) ->
  (2 * nblocks off (Z.of_nat (length src)) <= nfree sb (tv_disk V))%nat ->
  (let bad := (di_size di <? off) || (MAXFILE * BSIZE <? off + Z.of_nat (length src)) in
   forall l' V' di', repr l' V' -> budget V' k ->
     (if bad then V' = V /\ di' = di else written V di off src V' di') ->
     Q (if bad then -1 else Z.of_nat (length src)) (with_data S0 i l' di')) ->
  wp (writei i src off (Z.of_nat (length src))) Q (with_data S0 i l di).
Proof.
  intros HR HO Hh HI Ht Hm Ho Hn Hu8 Hk Hb Hf HQ. assert (budget V k) as Hbk by (eapply budget_mono; [exact Hb|lia]).
  unfold writei. apply wp_bind, (wp_ifield S0 i Hi). unfold id.
  change (i_type (set_i_data di (inode_at i S0))) with (di_type di).
  change (i_size (set_i_data di (inode_at i S0))) with (di_size di).
  rewrite (proj2 (Z.eqb_neq _ _) Ht). set (n := Z.of_nat (length src)) in *. cbv zeta in HQ.
  pose proof (io_size _ _ _ HI) as Hsz. change (MAXFILE * BSIZE) with 71680 in *.
  assert (MAXFILE * BSIZE = 71680) as HMB by done.
  destruct (Z.ltb_spec (di_size di) off) as [Hlt|Hge]; [by apply wp_ret, (HQ l V)|]. cbn [orb] in *.
  destruct (Z.ltb_spec 71680 (off + n)) as [Hbig|Hok].
  { destruct (u32 (off + n) <? off) eqn:E1; [by apply wp_ret, (HQ l V)|].
    destruct (Z.leb_spec (2 ^ 32) (off + n)).
    { assert (u32 (off + n) = off + n - 2 ^ 32) as Eu by (unfold u32; symmetry; apply Z.mod_unique with 1; lia). lia. }
    rewrite u32_small by lia. destruct (Z.ltb_spec 71680 (off + n)); [|lia]. by apply wp_ret, (HQ l V). }
  rewrite u32_small by lia. destruct (Z.ltb_spec (off + n) off) as [|_]; [lia|].
  destruct (Z.ltb_spec 71680 (off + n)) as [|_]; [lia|].
  apply wp_bind. unfold n at 1.
  apply (wp_writei_loop _ l V di src off (nblocks off n) (k + 1)); try done; [lia|apply nblocks_enough; lia|lia|unfold n; lia|].
  intros l1 V1 di1 H1 Hw Hb1. apply wp_bind, (wp_ifield S0 i Hi).
  change (i_size (set_i_data di1 (inode_at i S0))) with (di_size di1).
  destruct (wr_meta _ _ _ _ _ _ Hw) as (M1 & _ & _ & M4 & ->). fold n.
  destruct (Z.ltb_spec (di_size di) (off + n)) as [Hgr|Hng].
  - destruct (Z.ltb_spec 0 n); [|lia]. apply wp_bind, wp_when; [intros _|done].
    pose proof (written_grow V di off src V1 di1 HO Hm HI Hw ltac:(lia) ltac:(lia)) as HW. cbv zeta in HW. fold n in HW.
    apply wp_bind, (wp_iupd S0 i Hi _ _ _ (set_size (off + n) di1)); [done|].
    eapply (wp_iupdate sb S0 i Hi Hsb Hdev); [done|exact H1|apply Hw| |by eapply budget_mono; [exact Hb1|lia]|].
    { destruct (wrote_content V di off src V1 di1 (off + n)) as [_ Hx]; [done|done|lia|unfold n; lia|
        change (MAXFILE * BSIZE) with 71680; lia|]. apply Hx. }
    intros l2 H2. apply wp_ret. eapply HQ; [exact H2|by apply budget_put|exact HW].
  - rewrite andb_false_r. apply wp_bind, wp_when; [done|]. intros _. apply wp_ret. apply (HQ l1 V1); [done|by eapply budget_mono; [exact Hb1|lia]|].
    apply written_keep; try done; lia.
Qed.
End files.

(** An inode that its owner has locked and read, inside a transaction. *)
Record openfile (sb : superblock) (S : fstate) (V : tview) (i : nat) : Prop := OpenFile {
  of_repr : repr (fl S) V;
  of_sb : fsb S = sb;
  of_fsok : fsok sb V;
  of_held : tv_held V = ∅;
  of_in : (i < length (icache S))%nat;
  of_dev : i_dev (inode_at i S) = ROOTDEV;
  of_inum : 0 <= i_inum (inode_at i S) < sb_ninodes sb;
  of_inode : inode_ok sb (tv_disk V) (i_data (inode_at i S));
  of_type : di_type (i_data (inode_at i S)) <> T_DEV
}.

Lemma openfile_with sb S V i l V' di' :
  openfile sb S V i -> repr l V' -> fsok sb V' -> tv_held V' = ∅ -> inode_ok sb (tv_disk V') di' ->
  di_type di' <> T_DEV -> openfile sb (with_data S i l di') V' i.
Proof.
  intros [O1 O2 O3 O4 O5 O6 O7 O8 O9] HR HO Hh HI Ht. split; try done; rewrite ?(inode_at_with S i O5); try done.
  simpl. by rewrite length_insert.
Qed.

(** C20. Round trip through a file: [writei] of [src] at an offset inside the
    file, with blocks and log space to spare, returns the number of bytes
    written.  The content of the file is then the old one with [src] laid over
    it at that offset, longer if [src] reaches past the end, and the inode on
    the disk agrees with the cached one.  No other inode and no file that
    shares no block with this one changes, and the blocks of the two stay
    disjoint.  [readi] at the same place then returns [src]. *)
Theorem file_roundtrip `{!Devsw} sb S V i src off :
  openfile sb S V i -> Forall is_u8 src ->
  0 <= off <= di_size (i_data (inode_at i S)) -> off + Z.of_nat (length src) <= MAXFILE * BSIZE ->
  budget V (2 + 6 * Z.of_nat (nblocks off (Z.of_nat (length src)))) ->
  (2 * nblocks off (Z.of_nat (length src)) <= nfree sb (tv_disk V))%nat ->
  wp (writei i src off (Z.of_nat (length src))) (fun r S' =>
    r = Z.of_nat (length src) /\
    exists V', openfile sb S' V' i /\
      written sb S i V (i_data (inode_at i S)) off src V' (i_data (inode_at i S')) /\
      wp (readi i off (Z.of_nat (length src))) (fun q _ => q = (Z.of_nat (length src), src)) S') S.
Proof.
  intros HF Hu8 Ho Hmax Hb Hf. pose proof HF as [O1 O2 O3 O4 O5 O6 O7 O8 O9].
  assert (MAXFILE * BSIZE = 71680) as HMB by done.
  apply (wp_with_data S i); [done|]. set (di := i_data (inode_at i S)) in *. pose proof (io_size _ _ _ O8) as Hsz.
  eapply (wp_writei sb S i O5 O2 O6 (fl S) V di src off 1); try done; [lia|lia|].
  cbv zeta. destruct (Z.ltb_spec (di_size di) off); [lia|]. destruct (Z.ltb_spec (MAXFILE * BSIZE) (off + Z.of_nat (length src))); [lia|].
  cbn [orb]. intros l' V' di' H' Hb' HW. split; [done|]. exists V'. rewrite (inode_at_with S i O5).
  cbn [i_data set_i_data]. pose proof HW as [W1 W2 W3 [W4 _] W5 _ _ _].
  assert (di_type di' <> T_DEV) as Ht by (by rewrite W4).
  split; [by apply (openfile_with sb S V)|]. split; [done|].
  assert (length (content (tv_disk V) di) = Z.to_nat (di_size di)) as Hl by apply length_fbytes.
  assert (di_size di' = Z.max (di_size di) (off + Z.of_nat (length src))) as Es.
  { assert (length (content (tv_disk V') di') = Z.to_nat (di_size di')) as Hl' by apply length_fbytes.
    rewrite W5 in Hl'. unfold splice in Hl'. rewrite !length_app, length_take, length_drop, Hl in Hl'.
    pose proof (do_size _ (io_fields _ _ _ W3)) as Hs'. unfold is_u32 in Hs'. lia. }
  eapply (wp_readi sb S i O5 O2 O6); try done; [destruct Hb'; lia|lia|lia|]. intros l2 H2.
  destruct (Z.ltb_spec (di_size di') off); [lia|]. destruct (Z.leb_spec (2 ^ 32) (off + Z.of_nat (length src))); [lia|].
  cbn [orb]. rewrite Z.min_l by lia. f_equal. rewrite W5. unfold slice, splice. rewrite Nat2Z.id.
  rewrite drop_app_length' by (rewrite length_take; lia). by rewrite take_app_length.
Qed.

(** [readi] on every branch: an offset past the end, or an offset and a
    length that overflow 32 bits, give -1; otherwise the bytes of the file from
    the offset on, as many as asked for or as many as there are.  The inode and
    the disk are as before. *)
Theorem file_read `{!Devsw} sb S V i off n :
  openfile sb S V i -> 0 < tv_room V -> 0 <= off -> 0 <= n < 2 ^ 32 ->
  wp (readi i off n) (fun r S' =>
    openfile sb S' V i /\ i_data (inode_at i S') = i_data (inode_at i S) /\
    let size := di_size (i_data (inode_at i S)) in
    if (size <? off) || (2 ^ 32 <=? off + n) then r = (-1, [])
    else r = (Z.min n (size - off), slice (content (tv_disk V) (i_data (inode_at i S))) off (Z.min n (size - off)))) S.
Proof.
  intros HF Hroom Ho Hn. pose proof HF as [O1 O2 O3 O4 O5 O6 O7 O8 O9].
  apply (wp_with_data S i); [done|]. eapply (wp_readi sb S i O5 O2 O6); try done. intros l' H'.
  rewrite (inode_at_with S i O5). cbn [i_data set_i_data].
  split; [by apply (openfile_with sb S V)|]. split; [done|]. cbv zeta. by destruct (_ || _).
Qed.

(** * A file to run on *)

#[local] Instance no_devices : Devsw := {| dev_read _ := None; dev_write _ := None |}.

Definition empty_dinode : dinode := Dinode T_FILE 0 0 1 0 (replicate 13 0).
Definition demo_file : fstate :=
  set_icache (<[0%nat := Inode ROOTDEV 3 1 (initsleeplock "inode") true empty_dinode]> (replicate NINODE inode0)) demo_fs.

Lemma empty_imap dk bn : imap dk empty_dinode bn = 0.
Proof.
  unfold imap. destruct (bn <? NDIRECT); [|done].
  change (di_addrs empty_dinode) with (replicate 13 0). generalize (Z.to_nat bn), 13%nat. intros a b. revert a.
  induction b as [|b IH]; intros [|a]; simpl; auto.
Qed.

Lemma demo_openfile : openfile demo_sb demo_file demo_view 0.
Proof.
  split; try done.
  - exact demo_repr.
  - exact demo_fsok.
  - vm_compute. lia.
  - split; try (intros; rewrite ?empty_imap in *; done).
    + split; try (unfold is_i16, is_u32; simpl; unfold T_FILE; lia). repeat constructor; unfold is_u32; lia.
    + intros bn H0 H1. simpl in H1. unfold BSIZE in *. lia.
Qed.

Lemma file_roundtrip_witness :
  wp (writei 0 [104; 105] 0 2) (fun r S' =>
    r = 2 /\
    exists V', openfile demo_sb S' V' 0 /\
      written demo_sb demo_file 0 demo_view (i_data (inode_at 0 demo_file)) 0 [104; 105] V' (i_data (inode_at 0 S')) /\
      wp (readi 0 0 2) (fun q _ => q = (2, [104; 105])) S') demo_file.
Proof.
  apply (file_roundtrip demo_sb demo_file demo_view 0 [104; 105] 0).
  - exact demo_openfile.
  - repeat constructor; unfold is_u8; lia.
  - vm_compute. split; discriminate.
  - vm_compute. discriminate.
  - split; vm_compute; discriminate.
  - vm_compute. lia.
Defined.

Lemma file_read_witness :
  wp (readi 0 7 5) (fun r S' =>
    openfile demo_sb S' demo_view 0 /\ i_data (inode_at 0 S') = i_data (inode_at 0 demo_file) /\
    let size := di_size (i_data (inode_at 0 demo_file)) in
    if (size <? 7) || (2 ^ 32 <=? 7 + 5) then r = (-1, [])
    else r = (Z.min 5 (size - 7), slice (content (tv_disk demo_view) (i_data (inode_at 0 demo_file))) 7 (Z.min 5 (size - 7)))) demo_file.
Proof.
  apply (file_read demo_sb demo_file demo_view 0 7 5).
  - exact demo_openfile.
  - vm_compute. reflexivity.
  - lia.
  - lia.
Defined.
