(* ===== verification/FsDir.v ===== *)
(** Directories: the content of a directory is an array of 16-byte entries, which
    stands for a finite map from names to inode numbers.  [dirlookup] and
    [dirlink] (fs.c) look the map up and extend it; clearing an entry, as
    [sys_unlink] does, deletes from it. *)
From stdpp Require Import base numbers list gmap sets strings.
From Stdlib Require Import ZArith Lia.
From S2P Require Import Prelude Bytes Mem Disk BlockLayer Super Log LogOps Tx Sleeplock Fs FsBlocks FsInode FsMap FsFile.

(** * The map of a directory *)

(** Entry [k] of the content [C], and its name, up to the NUL. *)
Definition ent (C : list Z) (k : Z) : list Z := slice C (DIRENT * k) DIRENT.
Definition the_name (n : list Z) : list Z := cname (cview n) 0 DIRSIZ.
Definition ent_name (e : list Z) : list Z := the_name (de_name e).

(** The first live entry with the name [n] among the [cnt] entries from [k] on:
    its inode number and its offset. *)
Fixpoint dir_find (C n : list Z) (k : Z) (cnt : nat) : option (Z * Z) :=
  match cnt with
  | O => None
  | S c =>
      let e := ent C k in
      if negb (de_inum e =? 0) && bool_decide (ent_name e = n) then Some (de_inum e, DIRENT * k)
      else dir_find C n (k + 1) c
  end.

Definition dir_size (C : list Z) : nat := Z.to_nat (Z.of_nat (length C) / DIRENT).
Definition dir_lookup (C n : list Z) : option (Z * Z) := dir_find C n 0 (dir_size C).

(** A well-formed directory: whole entries, and no name twice. *)
Record dir_ok (C : list Z) : Prop := DirOk {
  do_whole : Z.of_nat (length C) mod DIRENT = 0;
  do_uniq : forall j k, 0 <= j < Z.of_nat (dir_size C) -> 0 <= k < Z.of_nat (dir_size C) ->
    de_inum (ent C j) <> 0 -> de_inum (ent C k) <> 0 -> ent_name (ent C j) = ent_name (ent C k) -> j = k
}.

Lemma dir_find_ext C C' n k cnt : (forall j, k <= j < k + Z.of_nat cnt -> ent C j = ent C' j) ->
  dir_find C n k cnt = dir_find C' n k cnt.
Proof.
  revert k. induction cnt as [|c IH]; intros k Hj; cbn [dir_find]; [done|].
  rewrite (Hj k), (IH (k + 1)) by (intros; apply Hj || idtac; lia). done.
Qed.

Lemma dir_find_app C n k c1 c2 :
  dir_find C n k (c1 + c2) =
  match dir_find C n k c1 with Some r => Some r | None => dir_find C n (k + Z.of_nat c1) c2 end.
Proof.
  revert k. induction c1 as [|c1 IH]; intros k; cbn [Nat.add dir_find]; [by rewrite Z.add_0_r|].
  destruct (_ && _); [done|]. rewrite IH. by replace (k + 1 + Z.of_nat c1) with (k + Z.of_nat (S c1)) by lia.
Qed.

(** Where a search ends. *)
Lemma dir_find_some C n k cnt x off : dir_find C n k cnt = Some (x, off) ->
  exists j, k <= j < k + Z.of_nat cnt /\ off = DIRENT * j /\ x = de_inum (ent C j) /\ x <> 0 /\ ent_name (ent C j) = n.
Proof.
  revert k. induction cnt as [|c IH]; intros k; cbn [dir_find]; [done|].
  destruct (de_inum (ent C k) =? 0) eqn:E0; cbn [negb andb].
  - intros (j & Hj & H)%IH. exists j. split; [lia|done].
  - apply Z.eqb_neq in E0. destruct (bool_decide_reflect (ent_name (ent C k) = n)) as [E1|E1].
    + intros [= <- <-]. exists k. split; [lia|done].
    + intros (j & Hj & H)%IH. exists j. split; [lia|done].
Qed.

Lemma dir_find_none C n k cnt : dir_find C n k cnt = None <->
  forall j, k <= j < k + Z.of_nat cnt -> de_inum (ent C j) <> 0 -> ent_name (ent C j) <> n.
Proof.
  revert k. induction cnt as [|c IH]; intros k; cbn [dir_find]; [split; [lia|done]|].
  destruct (de_inum (ent C k) =? 0) eqn:E0; cbn [negb andb].
  - apply Z.eqb_eq in E0. rewrite IH. split; intros H j Hj; [|apply H; lia].
    destruct (decide (j = k)) as [->|Hne]; [done|]. apply H. lia.
  - apply Z.eqb_neq in E0. destruct (bool_decide_reflect (ent_name (ent C k) = n)) as [E1|E1].
    + split; [done|]. intros H. by destruct (H k ltac:(lia) E0).
    + rewrite IH. split; intros H j Hj; [|apply H; lia].
      destruct (decide (j = k)) as [->|Hne]; [done|]. apply H. lia.
Qed.

(** Writing an entry. *)
Lemma length_ent C k : 0 <= k -> DIRENT * (k + 1) <= Z.of_nat (length C) -> length (ent C k) = 16%nat.
Proof. intros Hk Hl. unfold ent, slice. rewrite length_take, length_drop. unfold DIRENT in *. lia. Qed.

Lemma ent_write C k (e : list Z) : 0 <= k -> DIRENT * k <= Z.of_nat (length C) -> length e = 16%nat ->
  ent (splice C (DIRENT * k) e) k = e.
Proof.
  intros Hk Hl He. unfold ent, slice, splice, DIRENT in *.
  rewrite drop_app_length' by (rewrite length_take; lia). by apply take_app_length'.
Qed.

Lemma ent_write_ne C k j (e : list Z) : 0 <= k -> 0 <= j -> j <> k -> DIRENT * k <= Z.of_nat (length C) -> length e = 16%nat ->
  DIRENT * (j + 1) <= Z.of_nat (length C) -> ent (splice C (DIRENT * k) e) j = ent C j.
Proof.
  intros Hk Hj Hne Hl He Hlj. apply list_eq. intros m. unfold ent, DIRENT in *.
  destruct (Nat.lt_ge_cases m 16) as [Hm|Hm].
  - rewrite !lookup_slice by lia. unfold splice. destruct (Z.lt_ge_cases j k).
    + rewrite lookup_app_l by (rewrite length_take; lia). by rewrite lookup_take_lt by lia.
    + rewrite lookup_app_r by (rewrite length_take; lia). rewrite length_take, Nat.min_l by lia.
      rewrite lookup_app_r by lia. rewrite lookup_drop. f_equal. lia.
  - rewrite !lookup_ge_None_2; [done|..]; unfold slice; rewrite length_take; lia.
Qed.

Lemma length_write (C : list Z) k (e : list Z) : 0 <= k -> DIRENT * k <= Z.of_nat (length C) -> length e = 16%nat ->
  Z.of_nat (length (splice C (DIRENT * k) e)) = Z.max (Z.of_nat (length C)) (DIRENT * (k + 1)).
Proof. intros. unfold splice, DIRENT in *. rewrite !length_app, length_take, length_drop. lia. Qed.

Lemma dir_lookup_spec C n x off : dir_ok C -> dir_lookup C n = Some (x, off) <->
  exists j, 0 <= j < Z.of_nat (dir_size C) /\ off = DIRENT * j /\ x = de_inum (ent C j) /\ x <> 0 /\ ent_name (ent C j) = n.
Proof.
  intros [_ Hu]. unfold dir_lookup. split.
  - intros (j & Hj & H)%dir_find_some. exists j. split; [lia|done].
  - intros (j & Hj & -> & -> & H0 & Hn). destruct (dir_find C n 0 (dir_size C)) as [[y o]|] eqn:E.
    + apply dir_find_some in E as (k & Hk & -> & -> & Hy & Hny). assert (j = k) as -> by (apply Hu; [lia|lia|done|done|congruence]).
      done.
    + rewrite dir_find_none in E. by destruct (E j ltac:(lia) H0).
Qed.

Lemma dir_bytes C : dir_ok C -> Z.of_nat (length C) = DIRENT * Z.of_nat (dir_size C).
Proof.
  intros [Hw _]. unfold dir_size, DIRENT in *. pose proof (Z.div_mod (Z.of_nat (length C)) 16 ltac:(lia)).
  rewrite Z2Nat.id by (apply Z.div_pos; lia). lia.
Qed.

(** The entry [k] of [C], which is free or the one after the last, gets the
    content [e]. *)
Section entry.
Context (C e : list Z) (k : Z).
Context (HC : dir_ok C) (Hk : 0 <= k <= Z.of_nat (dir_size C)) (He : length e = 16%nat).
Let C' := splice C (DIRENT * k) e.

Lemma write_size : Z.of_nat (dir_size C') = Z.max (Z.of_nat (dir_size C)) (k + 1) /\
  Z.of_nat (length C') mod DIRENT = 0.
Proof using HC Hk He.
  assert (Z.of_nat (length C') = Z.max (Z.of_nat (dir_size C)) (k + 1) * DIRENT) as E.
  { unfold C'. pose proof (dir_bytes C HC). rewrite length_write by (unfold DIRENT in *; lia). unfold DIRENT in *. lia. }
  split; [|rewrite E; by apply Z.mod_mul]. unfold dir_size at 1. rewrite E, Z.div_mul by done. lia.
Qed.

Lemma write_at : ent C' k = e.
Proof using HC Hk He. apply ent_write; [lia| |done]. rewrite (dir_bytes C HC). unfold DIRENT. lia. Qed.

Lemma write_ne j : 0 <= j < Z.of_nat (dir_size C) -> j <> k -> ent C' j = ent C j.
Proof using HC Hk He. intros Hj Hne. apply ent_write_ne; try done; try lia; rewrite (dir_bytes C HC); unfold DIRENT; lia. Qed.

(** Adding an entry in a free place. *)
Lemma dir_add :
  (k < Z.of_nat (dir_size C) -> de_inum (ent C k) = 0) -> de_inum e <> 0 -> dir_lookup C (ent_name e) = None ->
  dir_ok C' /\ dir_lookup C' (ent_name e) = Some (de_inum e, DIRENT * k) /\
  forall n, n <> ent_name e -> dir_lookup C' n = dir_lookup C n.
Proof using HC Hk He.
  intros Hfree Hi Hnone. destruct write_size as [Hs Hw]. pose proof write_at as Ek. pose proof write_ne as Ene.
  unfold dir_lookup in Hnone. rewrite dir_find_none in Hnone. pose proof HC as [_ Hu].
  assert (forall j, 0 <= j < Z.of_nat (dir_size C') -> j <> k -> 0 <= j < Z.of_nat (dir_size C)) as Hold by lia.
  assert (dir_ok C') as HC'.
  { split; [done|]. intros i j Hi' Hj'. destruct (decide (i = k)) as [->|Hik], (decide (j = k)) as [->|Hjk]; rewrite ?Ek; try done.
    - rewrite Ene by auto. intros _ H1 H2. destruct (Hnone j); [specialize (Hold j Hj' Hjk); lia|done|done].
    - rewrite Ene by auto. intros H1 _ H2. destruct (Hnone i); [specialize (Hold i Hi' Hik); lia|done|done].
    - rewrite !Ene by auto. by apply Hu; apply Hold. }
  split; [done|]. split.
  - apply dir_lookup_spec; [done|]. exists k. rewrite Ek. split; [lia|done].
  - intros n Hn. apply option_eq. intros [x off]. rewrite !dir_lookup_spec by done. split; intros (j & Hj & H).
    + destruct (decide (j = k)) as [->|Hjk]; [rewrite Ek in H; destruct H as (_ & _ & _ & H); congruence|].
      exists j. rewrite Ene in H by auto. split; [by apply Hold|done].
    + destruct (decide (j = k)) as [->|Hjk]; [destruct H as (_ & H1 & H2 & _); rewrite Hfree in H1 by lia; congruence|].
      exists j. rewrite Ene by auto. split; [lia|done].
Qed.

(** Clearing an entry. *)
Lemma dir_del : k < Z.of_nat (dir_size C) -> de_inum (ent C k) <> 0 -> de_inum e = 0 ->
  dir_ok C' /\ dir_lookup C' (ent_name (ent C k)) = None /\
  forall n, n <> ent_name (ent C k) -> dir_lookup C' n = dir_lookup C n.
Proof using HC Hk He.
  intros Hlt Hlive Hi. destruct write_size as [Hs Hw]. pose proof write_at as Ek. pose proof write_ne as Ene. pose proof HC as [_ Hu].
  assert (dir_size C' = dir_size C) as Es by lia.
  assert (dir_ok C') as HC'.
  { split; [done|]. rewrite Es. intros i j Hi' Hj'. destruct (decide (i = k)) as [->|Hik]; [by rewrite Ek|].
    destruct (decide (j = k)) as [->|Hjk]; [by rewrite Ek|]. rewrite !Ene by done. by apply Hu. }
  split; [done|]. split.
  - unfold dir_lookup. rewrite dir_find_none, Es. intros j Hj. destruct (decide (j = k)) as [->|Hjk]; [by rewrite Ek|].
    rewrite Ene by lia. intros H1 H2. apply Hjk. apply Hu; [lia|lia|done|done|done].
  - intros n Hn. apply option_eq. intros [x off]. rewrite !dir_lookup_spec, Es by done. split; intros (j & Hj & H); exists j; (split; [done|]).
    + destruct (decide (j = k)) as [->|Hjk]; [rewrite Ek in H; naive_solver|]. by rewrite Ene in H.
    + destruct (decide (j = k)) as [->|Hjk]; [naive_solver|]. by rewrite Ene.
Qed.
End entry.

(** * The code *)

Lemma namecmp_eq name e : (namecmp name (de_name e) =? 0) = bool_decide (ent_name e = the_name name).
Proof.
  unfold namecmp. destruct (bool_decide_reflect (ent_name e = the_name name)) as [E|E].
  - apply Z.eqb_eq, strncmp_eq. by symmetry.
  - apply Z.eqb_neq. intros H%strncmp_eq. by apply E.
Qed.

Definition is_u16 (z : Z) : Prop := 0 <= z < 2 ^ 16.

(** The entry that [dirlink] makes. *)
Lemma mk_dirent_ok inum name : is_u16 inum ->
  let e := mk_dirent inum (strncpy (cview name) 0 DIRSIZ) in
  length e = 16%nat /\ de_inum e = inum /\ ent_name e = the_name name.
Proof.
  intros Hi e. unfold e, mk_dirent. assert (length (enc 2 inum) = 2%nat) as El by apply length_enc. split; [|split].
  - rewrite length_app, El, length_strncpy. done.
  - unfold de_inum, get16, slice. cbn [Z.to_nat]. rewrite drop_0, take_app_length' by done. by apply dec_enc_id.
  - unfold ent_name, the_name, de_name, slice. change (Z.to_nat 2) with 2%nat. rewrite drop_app_length' by done.
    rewrite take_ge by (rewrite length_strncpy; done). apply cname_strncpy.
Qed.

(** The free entry that [dirlink] takes: the first one, or the end. *)
Fixpoint free_ent (C : list Z) (k : Z) (cnt : nat) : Z :=
  match cnt with
  | O => k
  | S c => if de_inum (ent C k) =? 0 then k else free_ent C (k + 1) c
  end.

Lemma free_ent_spec C k cnt : k <= free_ent C k cnt <= k + Z.of_nat cnt /\
  (free_ent C k cnt < k + Z.of_nat cnt -> de_inum (ent C (free_ent C k cnt)) = 0).
Proof.
  revert k. induction cnt as [|c IH]; intros k; cbn [free_ent]; [lia|].
  destruct (Z.eqb_spec (de_inum (ent C k)) 0) as [E|E]; [split; [lia|done]|].
  destruct (IH (k + 1)) as [H1 H2]. split; [lia|]. intros Hlt. apply H2. lia.
Qed.

Section dirs.
Context `{!Devsw}.
Context (sb : superblock) (S0 : fstate) (i : nat).
Context (Hi : (i < length (icache S0))%nat) (Hsb : fsb S0 = sb).
Context (Hdev : i_dev (inode_at i S0) = ROOTDEV).
Context (V : tview) (di : dinode).
Context (HO : fsok sb V) (Hh : tv_held V = ∅) (HI : inode_ok sb (tv_disk V) di) (Ht : di_type di <> T_DEV)
  (Hroom : 0 < tv_room V).
Let C := content (tv_disk V) di.
Context (Hwhole : Z.of_nat (length C) mod DIRENT = 0).

Lemma dir_length : Z.of_nat (length C) = di_size di /\ di_size di = DIRENT * Z.of_nat (dir_size C).
Proof using Hi HI Hwhole.
  assert (Z.of_nat (length C) = di_size di) as E.
  { unfold C, content. rewrite length_fbytes. pose proof (do_size _ (io_fields _ _ _ HI)) as Hu. unfold is_u32 in Hu. lia. }
  split; [done|]. unfold dir_size, DIRENT in *. pose proof (Z.div_mod (Z.of_nat (length C)) 16 ltac:(lia)).
  rewrite Z2Nat.id by (apply Z.div_pos; lia). lia.
Qed.

(** Reading one entry. *)
Lemma wp_read_ent l k (Q : Z * list Z -> fstate -> Prop) : repr l V -> 0 <= k < Z.of_nat (dir_size C) ->
  (forall l', repr l' V -> Q (DIRENT, ent C k) (with_data S0 i l' di)) ->
  wp (readi i (DIRENT * k) DIRENT) Q (with_data S0 i l di).
Proof using Hi Hsb Hdev HO Hh HI Ht Hroom Hwhole.
  intros HR Hk HQ. destruct dir_length as [_ Hs]. pose proof (io_size _ _ _ HI) as Hsz. change (MAXFILE * BSIZE) with 71680 in Hsz.
  eapply (wp_readi sb S0 i Hi Hsb Hdev); [exact HR|done|done|done|done|done|unfold DIRENT; lia|unfold DIRENT; lia|].
  intros l' HR'. unfold DIRENT in *. destruct (Z.ltb_spec (di_size di) (16 * k)); [lia|].
  destruct (Z.leb_spec (2 ^ 32) (16 * k + 16)); [lia|]. cbn [orb]. rewrite Z.min_l by lia. by apply HQ.
Qed.

(** Following the search: what is found is handed to [iget]. *)
Definition found (Q : option (nat * Z) -> fstate -> Prop) (r : option (Z * Z)) (S : fstate) : Prop :=
  match r with
  | None => Q None S
  | Some (x, off) => wp (iget ROOTDEV x) (fun j => Q (Some (j, off))) S
  end.

Lemma wp_dirlookup_loop name cnt l k fuel (Q : option (nat * Z) -> fstate -> Prop) :
  repr l V -> 0 <= k -> k + Z.of_nat cnt = Z.of_nat (dir_size C) -> (cnt < fuel)%nat ->
  (forall l', repr l' V -> found Q (dir_find C (the_name name) k cnt) (with_data S0 i l' di)) ->
  wp (dirlookup_loop i name (DIRENT * k) fuel) Q (with_data S0 i l di).
Proof using Hi Hsb Hdev HO Hh HI Ht Hroom Hwhole.
  destruct dir_length as [_ Hs]. revert l k fuel. induction cnt as [|c IH]; intros l k [|f] HR Hk Hkc Hf HQ; try lia;
    cbn [dirlookup_loop]; apply wp_bind, (wp_ifield S0 i Hi); unfold id;
    change (i_size (set_i_data di (inode_at i S0))) with (di_size di).
  - rewrite (proj2 (Z.ltb_ge _ _)) by (unfold DIRENT in *; lia). apply wp_ret. by apply HQ.
  - rewrite (proj2 (Z.ltb_lt _ _)) by (unfold DIRENT in *; lia). cbn [negb].
    apply wp_bind. apply wp_read_ent; [done|lia|]. intros l1 H1. cbn [fst snd]. rewrite Z.eqb_refl. cbn [negb].
    cbn [dir_find] in HQ. rewrite namecmp_eq. replace (DIRENT * k + DIRENT) with (DIRENT * (k + 1)) by (unfold DIRENT; lia).
    destruct (de_inum (ent C k) =? 0); cbn [negb andb] in HQ; [apply IH; [done|lia|lia|lia|done]|].
    destruct (bool_decide _); [|apply IH; [done|lia|lia|lia|done]].
    apply wp_bind. change (i_dev (set_i_data di (inode_at i S0))) with (i_dev (inode_at i S0)). rewrite Hdev.
    eapply wp_mono; [by apply HQ|]. intros j s2 Hj. by apply wp_ret.
Qed.

Lemma wp_dirlookup name l (Q : option (nat * Z) -> fstate -> Prop) :
  repr l V -> di_type di = T_DIR ->
  (forall l', repr l' V -> found Q (dir_lookup C (the_name name)) (with_data S0 i l' di)) ->
  wp (dirlookup i name) Q (with_data S0 i l di).
Proof using Hi Hsb Hdev HO Hh HI Ht Hroom Hwhole.
  intros HR Hd HQ. destruct dir_length as [Hl Hs]. unfold dirlookup. apply wp_bind, (wp_ifield S0 i Hi). unfold id.
  change (i_type (set_i_data di (inode_at i S0))) with (di_type di). rewrite Hd. cbn [Z.eqb Pos.eqb negb T_DIR].
  change (i_size (set_i_data di (inode_at i S0))) with (di_size di).
  apply (wp_dirlookup_loop name (dir_size C) l 0); [done|lia|lia| |done]. unfold DIRENT in *. lia.
Qed.

Lemma wp_dirlink_loop cnt l k fuel (Q : Z -> fstate -> Prop) :
  repr l V -> 0 <= k -> k + Z.of_nat cnt = Z.of_nat (dir_size C) -> (cnt < fuel)%nat ->
  (forall l', repr l' V -> Q (DIRENT * free_ent C k cnt) (with_data S0 i l' di)) ->
  wp (dirlink_loop i (DIRENT * k) fuel) Q (with_data S0 i l di).
Proof using Hi Hsb Hdev HO Hh HI Ht Hroom Hwhole.
  destruct dir_length as [_ Hs]. revert l k fuel. induction cnt as [|c IH]; intros l k [|f] HR Hk Hkc Hf HQ; try lia;
    cbn [dirlink_loop]; apply wp_bind, (wp_ifield S0 i Hi); unfold id;
    change (i_size (set_i_data di (inode_at i S0))) with (di_size di).
  - rewrite (proj2 (Z.ltb_ge _ _)) by (unfold DIRENT in *; lia). apply wp_ret. by apply HQ.
  - rewrite (proj2 (Z.ltb_lt _ _)) by (unfold DIRENT in *; lia). cbn [negb].
    apply wp_bind. apply wp_read_ent; [done|lia|]. intros l1 H1. cbn [fst snd]. rewrite Z.eqb_refl. cbn [negb].
    cbn [free_ent] in HQ. replace (DIRENT * k + DIRENT) with (DIRENT * (k + 1)) by (unfold DIRENT; lia).
    destruct (de_inum (ent C k) =? 0); [apply wp_ret; by apply HQ|]. apply IH; [done|lia|lia|lia|done].
Qed.
End dirs.

(** * References to what is found *)

(** The cache has an entry for the inode, or a free one. *)
Definition cache_room (S : fstate) (dev inum : Z) : Prop :=
  exists j ip, icache S !! j = Some ip /\ (i_ref ip = 0 \/ ikey ip = (dev, inum)).

(** Entry [j] of [S'] holds the inode, with a reference that [S] did not have. *)
Record got (S : fstate) (dev inum : Z) (j : nat) (S' : fstate) : Prop := Got {
  gt_entry : exists x, icache S !! j <> None /\ S' = set_icache (<[j := x]> (icache S)) S /\ ikey x = (dev, inum) /\
    1 <= i_ref x /\ (i_ref x = 1 -> i_valid x = false);
  gt_inv : icinv (icache S')
}.

Lemma wp_iget dev inum S (Q : nat -> fstate -> Prop) : ic_lock S = false -> icinv (icache S) -> cache_room S dev inum ->
  (forall j S', got S dev inum j S' -> Q j S') -> wp (iget dev inum) Q S.
Proof.
  intros Hlk HI (j0 & ip0 & Hj0 & Hroom) HQ. pose proof HI as [Hp Hu]. unfold wp.
  pose proof (iget_scan_ok dev inum (icache S) 0 None) as Hs.
  destruct (iget_scan dev inum (icache S) 0 None) as [j|[j|]] eqn:E.
  - destruct Hs as (ip & _ & Hj & H0 & Hk). rewrite Nat.sub_0_r in Hj. rewrite (iget_hit S j ip) by done.
    eexists _, _. split; [reflexivity|]. apply HQ. split.
    + exists (set_i_ref (i_ref ip + 1) ip). rewrite Hj. split; [done|]. split; [done|]. split; [done|]. cbn. split; [lia|]. lia.
    + cbn [icache set_icache]. apply icinv_ref; [done..|lia].
  - destruct Hs as (Hno & ip & _ & Hj & H0). rewrite Nat.sub_0_r in Hj. rewrite (iget_miss S j ip) by done.
    eexists _, _. split; [reflexivity|]. apply HQ. split.
    + eexists. rewrite Hj. split; [done|]. split; [reflexivity|]. cbn. split; [done|]. split; [lia|done].
    + cbn [icache set_icache]. by apply icinv_recycle.
  - destruct Hs as [Hno Hfull]. exfalso. specialize (Hfull j0 ip0 Hj0). specialize (Hp j0 ip0 Hj0).
    destruct Hroom as [Hr|Hr]; [lia|]. by destruct (Hno j0 ip0 Hj0 ltac:(lia)).
Qed.

(** Giving the reference back at once does not free the inode. *)
Lemma wp_iput_got dev inum j S S' (Q : unit -> fstate -> Prop) : ic_lock S = false -> got S dev inum j S' ->
  (forall x, Q tt (set_icache (<[j := x]> (icache S)) S)) -> wp (iput j) Q S'.
Proof.
  intros Hlk [(x & Hj & -> & Hk & Hr & Hv) _] HQ. destruct (icache S !! j) as [ip|] eqn:Ej; [|done].
  eexists _, _. split.
  - apply (iput_keep _ j x); [done| |].
    + cbn. apply list_lookup_insert_eq. by eapply lookup_lt_Some.
    + intros (H1 & H2 & _). rewrite Hv in H2 by done. done.
  - cbn [icache set_icache]. rewrite list_insert_insert_eq. destruct S. apply HQ.
Qed.

Lemma strncpy_u8 name i n : Forall is_u8 name -> Forall is_u8 (strncpy (cview name) i n).
Proof.
  intros Hn. assert (forall j, is_u8 (cview name j)) as Hv.
  { intros j. unfold cview. destruct (nth_in_or_default (Z.to_nat j) name 0) as [Hin| ->]; [|unfold is_u8; lia].
    rewrite Forall_forall in Hn. apply Hn. by apply list_elem_of_In. }
  revert i. induction n as [|n IH]; intros i; cbn [strncpy]; [constructor|]. case_match; constructor; auto; [unfold is_u8; lia|].
  apply Forall_replicate. unfold is_u8. lia.
Qed.

Lemma nblocks_ent k : 0 <= k -> nblocks (DIRENT * k) DIRENT = 1%nat.
Proof.
  intros Hk. unfold nblocks, DIRENT, BSIZE. replace (16 * k) with (k * 16) by lia. change 512 with (32 * 16).
  rewrite Z.mul_mod_distr_r by lia. pose proof (Z.mod_pos_bound k 32 ltac:(lia)).
  assert ((k mod 32 * 16 + 16 + 32 * 16 - 1) / (32 * 16) = 1) as ->; [|done].
  symmetry. apply Z.div_unique with (k mod 32 * 16 + 15); lia.
Qed.

Lemma with_data_cache S i l : (i < length (icache S))%nat -> icache (with_data S i l (i_data (inode_at i S))) = icache S.
Proof.
  intros Hi. cbn. apply list_insert_id. destruct (lookup_lt_is_Some_2 _ _ Hi) as [ip Hip].
  rewrite Hip. unfold inode_at. rewrite (nth_lookup_Some _ _ _ _ Hip). by destruct ip.
Qed.

(** A directory that its owner has locked, inside a transaction: the cached inode
    is the one on the disk, and [C] the bytes of its blocks there. *)
Record opendir (sb : superblock) (S : fstate) (V : tview) (dp : nat) (C : list Z) : Prop := OpenDir {
  od_file : openfile sb S V dp;
  od_disk : disk_inode sb (tv_disk V) (i_inum (inode_at dp S)) = i_data (inode_at dp S);
  od_type : di_type (i_data (inode_at dp S)) = T_DIR;
  od_content : content (tv_disk V) (i_data (inode_at dp S)) = C;
  od_dir : dir_ok C
}.

Section opendir.
Context `{!Devsw} (sb : superblock) (S : fstate) (V : tview) (dp : nat) (C : list Z).
Context (HD : opendir sb S V dp C) (Hroom : 0 < tv_room V).
Let di := i_data (inode_at dp S).

Lemma opendir_same l : repr l V -> opendir sb (with_data S dp l di) V dp C.
Proof using HD.
  intros HR. destruct HD as [HF Hdk Ht HC Hok]. pose proof HF as [O1 O2 O3 O4 O5 O6 O7 O8 O9]. split.
  - by apply (openfile_with sb S V).
  - by rewrite (inode_at_with S dp O5).
  - by rewrite (inode_at_with S dp O5).
  - by rewrite (inode_at_with S dp O5).
  - done.
Qed.

Lemma wp_lookup name (Q : option (nat * Z) -> fstate -> Prop) :
  (forall l', repr l' V -> found Q (dir_lookup C (the_name name)) (with_data S dp l' di)) -> wp (dirlookup dp name) Q S.
Proof using HD Hroom.
  intros HQ. destruct HD as [HF Hdk Ht HC Hok]. pose proof HF as [O1 O2 O3 O4 O5 O6 O7 O8 O9]. apply (wp_with_data S dp); [done|].
  eapply (wp_dirlookup sb S dp O5 O2 O6 V di); try done; fold di in HC; rewrite HC; [apply Hok|done].
Qed.

Lemma wp_link name inum (Q : Z -> fstate -> Prop) :
  dir_lookup C (the_name name) = None -> is_u16 inum -> inum <> 0 -> Forall is_u8 name ->
  budget V 8 -> (2 <= nfree sb (tv_disk V))%nat -> Z.of_nat (length C) + DIRENT <= MAXFILE * BSIZE ->
  (forall S' V' C' off, opendir sb S' V' dp C' -> dir_lookup C' (the_name name) = Some (inum, off) ->
     (forall n, n <> the_name name -> dir_lookup C' n = dir_lookup C n) -> Q 0 S') ->
  wp (dirlink dp name inum) Q S.
Proof using HD Hroom.
  intros Hnone Hu H0 Hname Hb Hf Hmax HQ. unfold dirlink. apply wp_bind, wp_lookup. intros l1 H1. rewrite Hnone. cbn [found].
  destruct HD as [HF Hdk Ht HC Hok]. pose proof HF as [O1 O2 O3 O4 O5 O6 O7 O8 O9]. fold di in HC.
  assert (Z.of_nat (length C) = di_size di /\ di_size di = DIRENT * Z.of_nat (dir_size C)) as [Hl Hs].
  { rewrite <- HC. eapply dir_length; [exact O5|exact O8|]. fold di. rewrite HC. apply Hok. }
  destruct (mk_dirent_ok inum name Hu) as (El & Ei & En). set (e := mk_dirent inum _) in *.
  apply wp_bind, (wp_ifield S dp O5). change (i_size (id (set_i_data di (inode_at dp S)))) with (di_size di).
  apply wp_bind. change (dirlink_loop dp 0) with (dirlink_loop dp (DIRENT * 0)).
  assert (Z.of_nat (length (content (tv_disk V) di)) mod DIRENT = 0) as Hwh by (rewrite HC; apply Hok).
  eapply (wp_dirlink_loop sb S dp O5 O2 O6 V di O3 O4 O8 O9 Hroom Hwh (dir_size C)); rewrite ?HC;
    [exact H1|lia|lia|unfold DIRENT in *; lia|]. intros l2 H2.
  destruct (free_ent_spec C 0 (dir_size C)) as [Hk Hfree]. set (k := free_ent C 0 (dir_size C)) in *.
  apply wp_bind. replace DIRENT with (Z.of_nat (length e)) at 2 by (by rewrite El).
  eapply (wp_writei sb S dp O5 O2 O6 l2 V di e (DIRENT * k) 1); try done; rewrite ?El.
  - unfold DIRENT in *. change (MAXFILE * BSIZE) with 71680 in Hmax. lia.
  - lia.
  - apply Forall_app. split; [apply enc_u8|by apply strncpy_u8].
  - change (Z.of_nat 16) with DIRENT. rewrite nblocks_ent by lia. done.
  - change (Z.of_nat 16) with DIRENT. rewrite nblocks_ent by lia. lia.
  - cbv zeta. rewrite (proj2 (Z.ltb_ge _ _)) by (unfold DIRENT in *; lia).
    rewrite (proj2 (Z.ltb_ge _ _)) by (unfold DIRENT in *; lia). cbn [orb]. intros l3 V' di' H3 Hb3 HW.
    change (Z.of_nat 16) with DIRENT. rewrite Z.eqb_refl. cbn [negb]. apply wp_ret.
    pose proof HW as [W1 W2 W3 [W4 _] W5 _ _ _]. fold di in HC. rewrite HC in W5.
    destruct (dir_add C e k Hok ltac:(lia) El) as (A1 & A2 & A3); [intros; apply Hfree; lia|by rewrite Ei|by rewrite En|].
    rewrite Ei, En in *. eapply HQ; [|exact A2|exact A3]. split.
    + apply (openfile_with sb S V); try done. rewrite W4. fold di in Ht. rewrite Ht. done.
    + rewrite (inode_at_with S dp O5). exact (wn_disk _ _ _ _ _ _ _ _ _ HW Hdk).
    + rewrite (inode_at_with S dp O5). cbn. by rewrite W4.
    + by rewrite (inode_at_with S dp O5).
    + done.
Qed.
End opendir.

(** C21. Directories are maps, on the disk.  On a well-formed directory, where no
    name occurs twice and the locked inode is the one on the disk, [dirlookup]
    finds exactly the name's entry, compared as strings of at most 14 characters,
    and takes a reference to its inode; an absent name gives a null pointer.
    [dirlink] of an absent name, with space to spare, returns 0, and the directory
    is then the same map with that name added, still well formed, and its inode on
    the disk, with the new size and blocks, is the one in memory; of a name that
    is there, it returns -1 and the disk is as it was. *)
Theorem directory_map `{!Devsw} sb S V dp C name inum :
  opendir sb S V dp C -> ic_lock S = false -> icinv (icache S) -> Forall is_u8 name ->
  is_u16 inum -> inum <> 0 -> budget V 8 -> (2 <= nfree sb (tv_disk V))%nat ->
  Z.of_nat (length C) + DIRENT <= MAXFILE * BSIZE ->
  match dir_lookup C (the_name name) with
  | None =>
      wp (dirlookup dp name) (fun r S' => r = None /\ opendir sb S' V dp C) S /\
      wp (dirlink dp name inum) (fun r S' => r = 0 /\ exists V' C' off,
        opendir sb S' V' dp C' /\ dir_lookup C' (the_name name) = Some (inum, off) /\
        forall n, n <> the_name name -> dir_lookup C' n = dir_lookup C n) S
  | Some (x, off) =>
      cache_room S ROOTDEV x ->
      wp (dirlookup dp name) (fun r S' => exists j S1, r = Some (j, off) /\ opendir sb S1 V dp C /\
        icache S1 = icache S /\ got S1 ROOTDEV x j S') S /\
      wp (dirlink dp name inum) (fun r S' => r = -1 /\ repr (fl S') V) S
  end.
Proof.
  intros HD Hlk HI Hname Hu H0 Hb Hf Hmax. assert (0 < tv_room V) as Hroom by (destruct Hb; lia).
  pose proof (od_file _ _ _ _ _ HD) as HF. pose proof (of_in _ _ _ _ HF) as Hi.
  destruct (dir_lookup C (the_name name)) as [[x off]|] eqn:E.
  - intros Hr. assert (forall l Q, (forall j S', got (with_data S dp l (i_data (inode_at dp S))) ROOTDEV x j S' -> Q j S') ->
      wp (iget ROOTDEV x) Q (with_data S dp l (i_data (inode_at dp S)))) as Hget.
    { intros l Q HQ. apply wp_iget; [done|by rewrite with_data_cache| |done]. unfold cache_room. by rewrite with_data_cache. }
    split.
    + apply (wp_lookup sb S V dp C HD Hroom). intros l1 H1. rewrite E. cbn [found]. apply Hget. intros j S' Hg.
      exists j, (with_data S dp l1 (i_data (inode_at dp S))). split; [done|].
      split; [by apply (opendir_same sb S V dp C)|]. split; [by apply with_data_cache|done].
    + unfold dirlink. apply wp_bind, (wp_lookup sb S V dp C HD Hroom). intros l1 H1. rewrite E. cbn [found]. apply Hget.
      intros j S' Hg. apply wp_bind. eapply wp_iput_got; [|exact Hg|]; [done|]. intros y. apply wp_ret. by split.
  - split.
    + apply (wp_lookup sb S V dp C HD Hroom). intros l1 H1. rewrite E. split; [done|]. by apply (opendir_same sb S V dp C).
    + apply (wp_link sb S V dp C HD Hroom); try done. intros S' V' C' off Ho Hl Hn. split; [done|]. by exists V', C', off.
Qed.

(** * A directory to run on: the empty one *)

#[local] Instance dir_devices : Devsw := {| dev_read _ := None; dev_write _ := None |}.

Definition empty_dir : dinode := Dinode T_DIR 0 0 1 0 (replicate 13 0).
Definition dir_blocks : list block := <[33%nat := put_dinode zeroes (ioff 3) empty_dir]> demo_blocks.
Definition dir_view : tview := TView dir_blocks ∅ ∅ ∅ 30.
Definition demo_dir : fstate :=
  FState (LState demo_fslog (quiet dir_blocks ∅ [])) demo_sb false
    (<[0%nat := Inode ROOTDEV 3 1 (initsleeplock "inode") true empty_dir]> (replicate NINODE inode0)) 3 0.

Lemma dir_geo : geo demo_sb dir_blocks.
Proof. apply geo_check_ok; vm_compute; reflexivity. Qed.

Lemma demo_opendir : opendir demo_sb demo_dir dir_view 0 [].
Proof.
  assert (forall bn, imap (tv_disk dir_view) empty_dir bn = 0) as Himap by (intros bn; exact (empty_imap (tv_disk dir_view) bn)).
  split; [split; try done| | | |].
  - apply (repr_begun demo_fslog dir_blocks []); try done. apply dir_geo.
  - split; [apply dir_geo|set_solver|done].
  - vm_compute. lia.
  - split; try (intros; rewrite ?Himap in *; done).
    + split; try (unfold is_i16, is_u32; simpl; unfold T_DIR; lia). repeat constructor; unfold is_u32; lia.
    + intros bn H0 H1. simpl in H1. unfold BSIZE in *. lia.
  - vm_compute. reflexivity.
  - done.
  - done.
  - split; [done|]. intros j k Hj. change (Z.of_nat (dir_size [])) with 0 in Hj. lia.
Qed.

Lemma directory_map_witness :
  wp (dirlink 0 [97; 98] 5) (fun r S' => r = 0 /\ exists V' C' off,
    opendir demo_sb S' V' 0 C' /\ dir_lookup C' [97; 98] = Some (5, off) /\
    forall n, n <> [97; 98] -> dir_lookup C' n = dir_lookup [] n) demo_dir.
Proof.
  apply (directory_map demo_sb demo_dir dir_view 0 [] [97; 98] 5).
  - exact demo_opendir.
  - reflexivity.
  - split.
    + intros [|i] ip Hi; [by injection Hi as <-|]. apply lookup_replicate in Hi as [-> _]. cbn. lia.
    + intros [|i] [|j] ip jp Hi Hj; [done|..].
      * apply lookup_replicate in Hj as [-> _]. cbn. lia.
      * apply lookup_replicate in Hi as [-> _]. cbn. lia.
      * apply lookup_replicate in Hi as [-> _]. cbn. lia.
  - repeat constructor; unfold is_u8; lia.
  - unfold is_u16. lia.
  - lia.
  - split; vm_compute; discriminate.
  - vm_compute. lia.
  - vm_compute. discriminate.
Defined.
