(* ===== verification/FsPath.v ===== *)
(** Paths: [skipelem] and [namex] (fs.c) against a reference that first splits the
    path into its elements and then walks them. *)
From stdpp Require Import base numbers list gmap strings.
From Stdlib Require Import ZArith Lia.
From S2P Require Import Prelude Bytes Mem Disk Super Log Fs.

Open Scope kernel_scope.

(** The pieces between the slashes; the elements are those that are not empty. *)
Fixpoint pieces (path : list Z) : list (list Z) :=
  match path with
  | [] => [[]]
  | c :: p =>
      if c =? SLASH then [] :: pieces p
      else match pieces p with
           | e :: es => (c :: e) :: es
           | [] => [[c]]
           end
  end.

Definition elements (path : list Z) : list (list Z) := filter (fun e => e <> []) (pieces path).

(** What [skipelem] leaves in the buffer [name] for the element [e]. *)
Definition into_name (name e : list Z) : list Z :=
  if (DIRSIZ <=? length e)%nat then splice name 0 (take DIRSIZ e) else splice name 0 (e ++ [0]).

Lemma elements_slash p : elements (SLASH :: p) = elements p.
Proof. done. Qed.

Lemma skip_elements p : elements (skip_slashes p) = elements p.
Proof.
  induction p as [|c p IH]; [done|]. cbn [skip_slashes]. destruct (Z.eqb_spec c SLASH) as [->|]; [|done].
  by rewrite elements_slash.
Qed.

Lemma skip_head p : skip_slashes p = [] \/ exists c q, skip_slashes p = c :: q /\ c <> SLASH.
Proof.
  induction p as [|c p IH]; [by left|]. cbn [skip_slashes]. destruct (Z.eqb_spec c SLASH); [done|]. right. by exists c, p.
Qed.

Lemma length_skip p : (length (skip_slashes p) <= length p)%nat.
Proof. induction p as [|c p IH]; [done|]. cbn [skip_slashes]. destruct (c =? SLASH); cbn [length]; lia. Qed.

Lemma pieces_scan p : pieces p = (scan_elem p).1 :: match (scan_elem p).2 with [] => [] | _ :: r => pieces r end.
Proof.
  induction p as [|c p IH]; [done|]. cbn [pieces scan_elem]. destruct (c =? SLASH); [done|]. rewrite IH. done.
Qed.

Lemma scan_rest p : (length (scan_elem p).1 + length (scan_elem p).2 = length p)%nat /\
  ((scan_elem p).2 = [] \/ exists r, (scan_elem p).2 = SLASH :: r).
Proof.
  induction p as [|c p [IH1 IH2]]; [by split; [|left]|]. cbn [scan_elem]. destruct (Z.eqb_spec c SLASH) as [->|]; cbn [fst snd length].
  - split; [done|]. right. by exists p.
  - split; [lia|done].
Qed.

(** One element at a time. *)
Lemma skipelem_elements path name :
  match skipelem path name with
  | None => elements path = []
  | Some (rest, name') =>
      exists e, elements path = e :: elements rest /\ name' = into_name name e /\
        (length rest < length path)%nat /\ (rest = [] <-> elements rest = [])
  end.
Proof.
  unfold skipelem. rewrite <- (skip_elements path). pose proof (length_skip path) as Hl.
  destruct (skip_head path) as [E|(c & q & E & Hc)]; rewrite E in *; [done|].
  pose proof (scan_rest (c :: q)) as [H1 H2]. destruct (scan_elem (c :: q)) as [s rest] eqn:Es. cbn [fst snd] in *.
  assert (s <> []) as Hs.
  { cbn [scan_elem] in Es. rewrite (proj2 (Z.eqb_neq _ _) Hc) in Es. injection Es as <- _. done. }
  exists s. split; [|split; [done|split]].
  - unfold elements at 1. rewrite pieces_scan, Es. cbn [fst snd]. rewrite filter_cons_True by done. f_equal.
    rewrite skip_elements. by destruct H2 as [->|[r ->]].
  - pose proof (length_skip rest). destruct s; [done|]. cbn [length] in *. lia.
  - destruct (skip_head rest) as [E'|(c' & q' & E' & Hc')]; rewrite E'; [done|]. split; [done|].
    unfold elements. rewrite pieces_scan. cbn [scan_elem]. rewrite (proj2 (Z.eqb_neq _ _) Hc'). cbn [fst].
    by rewrite filter_cons_True by done.
Qed.

Section walk.
Context `{!Devsw}.

(** The reference: the elements are walked one after the other; with [parent] the
    walk stops before the last one. *)
Fixpoint walk (i : nat) (es : list (list Z)) (parent : bool) (name : list Z) : M fstate (option nat * list Z) :=
  match es with
  | [] => if parent then iput i ;; ret (None, name) else ret (Some i, name)
  | e :: es' =>
      let name := into_name name e in
      ilock i ;;
      t <- ifield i i_type ;;
      if negb (t =? T_DIR) then iunlockput i ;; ret (None, name) else
      if parent && bool_decide (es' = []) then iunlock i ;; ret (Some i, name) else
      r <- dirlookup i name ;;
      iunlockput i ;;
      match r with
      | None => ret (None, name)
      | Some (next, _) => walk next es' parent name
      end
  end.

Lemma bind_ext {S A B} (m : M S A) (k k' : A -> M S B) s : (forall a s, k a s = k' a s) -> bind m k s = bind m k' s.
Proof. intros Hk. unfold bind. by destruct (m s). Qed.

Lemma namex_loop_walk i path parent name fuel s : (length path < fuel)%nat ->
  namex_loop i path parent name fuel s = walk i (elements path) parent name s.
Proof.
  revert i path name s. induction fuel as [|f IH]; intros i path name s Hf; [lia|]. cbn [namex_loop].
  pose proof (skipelem_elements path name) as He. destruct (skipelem path name) as [[rest name']|].
  - destruct He as (e & -> & -> & Hlen & Hnil). cbn [walk]. apply bind_ext. intros _ s1. apply bind_ext. intros t s2.
    destruct (negb (t =? T_DIR)); [done|].
    assert ((length rest =? 0)%nat = bool_decide (elements rest = [])) as ->.
    { destruct (bool_decide_reflect (elements rest = [])) as [E|E].
      - apply Hnil in E. by subst.
      - apply Nat.eqb_neq. intros E0. apply E, Hnil. by destruct rest. }
    destruct (parent && _); [done|]. apply bind_ext. intros [[next off]|] s3; [|done]. apply bind_ext. intros _ s4.
    apply IH. lia.
  - rewrite He. done.
Qed.

(** C22. Path lookup is a walk along the elements of the path.  For every path,
    with any number of slashes anywhere, [namex] does exactly what the reference
    does that starts at the root or the current directory and follows the
    non-empty pieces between the slashes one by one, each cut to 14 characters;
    [nameiparent] stops before the last one and leaves it in [name].  The loop
    always ends. *)
Theorem namex_walks (path name : list Z) (parent : bool) (s : fstate) :
  namex path parent name s =
  (i <- (if bool_decide (head path = Some SLASH) then iget ROOTDEV ROOTINO else (d <- gets f_cwd ;; idup d)) ;;
   walk i (elements path) parent name) s.
Proof.
  unfold namex. destruct path as [|c p]; cbn [head].
  - rewrite bool_decide_false by done. apply bind_ext. intros i s1. apply namex_loop_walk. cbn [length]. lia.
  - destruct (Z.eqb_spec c SLASH) as [->|Hc].
    + rewrite bool_decide_true by done. apply bind_ext. intros i s1. apply namex_loop_walk. cbn [length]. lia.
    + rewrite bool_decide_false by congruence. apply bind_ext. intros i s1. apply namex_loop_walk. cbn [length]. lia.
Qed.
End walk.

(** The examples in the comment of [skipelem]. *)
Lemma skipelem_examples name : length name = DIRSIZ ->
  (fst <$> skipelem [97; 47; 98; 98; 47; 99] name) = Some [98; 98; 47; 99] /\
  (fst <$> skipelem [47; 47; 47; 97; 47; 47; 98; 98] name) = Some [98; 98] /\
  (fst <$> skipelem [97] name) = Some [] /\ skipelem [] name = None /\ skipelem [47; 47; 47; 47] name = None.
Proof. done. Qed.
