(* ===== verification/FsEnds.v ===== *)
(** Every run of the file system ends: it returns, goes to sleep, or stops in a
    panic, and never in one of the panics with which file.c guards its callers.
    [stops] is the logic for such statements; Files.v uses them for the calls on
    files. *)
From stdpp Require Import base numbers list gmap strings.
From Stdlib Require Import ZArith Lia.
From S2P Require Import Prelude Bytes Mem Sleeplock Disk BlockLayer Super Log Fs.

Open Scope kernel_scope.

(** The panics of file.c at a file that is not open. *)
Definition file_panics : list string := ["filedup"; "fileclose"; "fileread"; "filewrite"]%string.

(** [stops Q W m s]: the run of [m] from [s] returns with [Q], sleeps with [W], or
    panics with a message that is not one of [file_panics]. *)
Definition stops {S A} (Q : A -> S -> Prop) (W : S -> Prop) (m : M S A) (s : S) : Prop :=
  match m s with
  | Ok a s' => Q a s'
  | Sleep _ s' => W s'
  | Panic e => e ∉ file_panics
  | Diverge => False
  end.

(** However [m] ends, the state it leaves is related to the one it started in. *)
Definition leaves {S A} (R : S -> S -> Prop) (m : M S A) : Prop :=
  forall s, stops (fun _ => R s) (R s) m s.

Section stops.
Context {S : Type}.

Lemma stops_bind {A B} (Q : B -> S -> Prop) W (m : M S A) (k : A -> M S B) s :
  stops (fun a => stops Q W (k a)) W m s -> stops Q W (bind m k) s.
Proof. unfold stops, bind. by destruct (m s). Qed.

Lemma stops_mono {A} (Q Q' : A -> S -> Prop) (W W' : S -> Prop) m s :
  stops Q W m s -> (forall a s', Q a s' -> Q' a s') -> (forall s', W s' -> W' s') -> stops Q' W' m s.
Proof. unfold stops. destruct (m s); auto. Qed.

Lemma stops_zoom {T A} (Q : A -> S -> Prop) W (get : S -> T) set (m : M T A) s :
  stops (fun a t => Q a (set t s)) (fun t => W (set t s)) m (get s) -> stops Q W (zoom get set m) s.
Proof. unfold stops, zoom. by destruct (m (get s)). Qed.

Lemma stops_panic {A} (Q : A -> S -> Prop) W e s : e ∉ file_panics -> stops Q W (panic e) s.
Proof. done. Qed.

Lemma wp_stops {A} (Q : A -> S -> Prop) W m s : wp m Q s -> stops Q W m s.
Proof. intros (a & s' & E & H). unfold stops. by rewrite E. Qed.
End stops.

Section leaves.
Context {S : Type} (R : S -> S -> Prop) `{!PreOrder R}.

Lemma leaves_ret {A} (a : A) : leaves R (ret a).
Proof. intros s. unfold stops, ret. reflexivity. Qed.
Lemma leaves_gets {A} (f : S -> A) : leaves R (gets f).
Proof. intros s. unfold stops, gets. reflexivity. Qed.
Lemma leaves_mget : leaves R mget.
Proof. intros s. unfold stops, mget. reflexivity. Qed.
Lemma leaves_panic {A} e : e ∉ file_panics -> leaves R (@panic S A e).
Proof. by intros H s. Qed.
Lemma leaves_msleep {A} c : leaves R (@msleep S A c).
Proof. intros s. unfold stops, msleep. reflexivity. Qed.
Lemma leaves_modify f : (forall s, R s (f s)) -> leaves R (modify f).
Proof. intros H s. apply H. Qed.
Lemma leaves_wakeup c : leaves R (wakeup c).
Proof. apply leaves_ret. Qed.

Lemma leaves_bind {A B} (m : M S A) (k : A -> M S B) :
  leaves R m -> (forall a, leaves R (k a)) -> leaves R (bind m k).
Proof using All.
  intros Hm Hk s. apply stops_bind. eapply stops_mono; [apply Hm| |done].
  intros a s' H1. eapply stops_mono; [apply Hk|..]; intros; by transitivity s'.
Qed.

Lemma leaves_when b m : (b = true -> leaves R m) -> leaves R (when b m).
Proof using All. intros H. destruct b; [by apply H|apply leaves_ret]. Qed.

Lemma leaves_mfor n i body : (forall j, leaves R (body j)) -> leaves R (mfor n i body).
Proof using All.
  intros H. revert i. induction n as [|n IH]; intros i; simpl; [apply leaves_ret|].
  apply leaves_bind; [apply H|intros _; apply IH].
Qed.

Lemma leaves_mfind {A} n i (body : Z -> M S (option A)) :
  (forall j, leaves R (body j)) -> leaves R (mfind n i body).
Proof using All.
  intros H. revert i. induction n as [|n IH]; intros i; simpl; [apply leaves_ret|].
  apply leaves_bind; [apply H|intros [a|]; [apply leaves_ret|apply IH]].
Qed.

Lemma leaves_acquire lk set : (forall b s, R s (set b s)) -> leaves R (acquire lk set).
Proof. intros H s. unfold stops, acquire. destruct (lk s); [by vm_compute; set_solver|apply H]. Qed.
Lemma leaves_release lk set : (forall b s, R s (set b s)) -> leaves R (release lk set).
Proof. intros H s. unfold stops, release. destruct (lk s); [apply H|by vm_compute; set_solver]. Qed.

Lemma leaves_zoom {T A} (R' : T -> T -> Prop) (get : S -> T) set (m : M T A) :
  leaves R' m -> (forall s t, R' (get s) t -> R s (set t s)) -> leaves R (zoom get set m).
Proof. intros Hm HR s. apply stops_zoom. eapply stops_mono; [apply Hm|..]; simpl; auto. Qed.
End leaves.

Lemma leaves_mono {S A} (R R' : S -> S -> Prop) (m : M S A) :
  leaves R m -> (forall s s', R s s' -> R' s s') -> leaves R' m.
Proof. intros H HR s. eapply stops_mono; [apply H|..]; simpl; auto. Qed.

(** Nothing said of the states. *)
Definition anyhow {S} (_ _ : S) : Prop := True.
#[export] Instance anyhow_preorder {S} : PreOrder (@anyhow S).
Proof. by split. Qed.

Lemma stops_anyhow {S A} (m : M S A) s s1 : leaves anyhow m -> stops (fun _ => anyhow s1) (anyhow s1) m s.
Proof. intros H. by eapply stops_mono; [apply H|..]. Qed.

Lemma leaves_anyhow {S A} R (m : M S A) : leaves R m -> leaves anyhow m.
Proof. intros H. by eapply leaves_mono. Qed.

Create HintDb leaves.

(** One step through the text of a function. *)
Ltac leaves_step :=
  lazymatch goal with
  | |- leaves _ (bind _ _) => apply leaves_bind; [apply _| |intros ?]
  | |- leaves _ (ret _) => apply leaves_ret; apply _
  | |- leaves _ (gets _) => apply leaves_gets; apply _
  | |- leaves _ mget => apply leaves_mget; apply _
  | |- leaves _ (panic _) => apply leaves_panic; vm_compute; set_solver
  | |- leaves _ (msleep _) => apply leaves_msleep; apply _
  | |- leaves _ (wakeup _) => apply leaves_wakeup; apply _
  | |- leaves anyhow (modify _) => by apply leaves_modify
  | |- leaves anyhow (acquire _ _) => by apply leaves_acquire
  | |- leaves anyhow (release _ _) => by apply leaves_release
  | |- leaves anyhow (zoom _ _ _) => eapply (leaves_zoom _ anyhow); [|done]
  | |- leaves _ (when _ _) => apply leaves_when; [apply _|intros _]
  | |- leaves _ (mfor _ _ _) => apply leaves_mfor; [apply _|intros ?]
  | |- leaves _ (mfind _ _ _) => apply leaves_mfind; [apply _|intros ?]
  | |- leaves _ (let _ := _ in _) => cbv zeta
  | |- leaves _ (if ?b then _ else _) => destruct b
  | |- leaves _ (match ?x with _ => _ end) => destruct x
  end.
Ltac leaves_tac := repeat (first [solve [eauto 5 with leaves] | leaves_step]).

(** * The block layer and the log *)

Lemma bread_ends n : leaves anyhow (bread n).
Proof.
  intros s. unfold stops, bread. case_decide; [done|]. destruct (over s !! n); [done|].
  destruct (_ <=? _)%nat; [by vm_compute; set_solver|]. destruct (dblk s n); [done|by vm_compute; set_solver].
Qed.
Lemma bset_ends n d : leaves anyhow (bset n d).
Proof. by intros s. Qed.
Lemma bdata_ends n : leaves anyhow (bdata n).
Proof. by intros s. Qed.
Lemma bpin_ends n : leaves anyhow (bpin n).
Proof. by intros s. Qed.
Lemma bwrite_ends n : leaves anyhow (bwrite n).
Proof. intros s. unfold stops, bwrite. case_decide; [done|by vm_compute; set_solver]. Qed.
Lemma brelse_ends n : leaves anyhow (brelse n).
Proof. intros s. unfold stops, brelse. case_decide; [done|by vm_compute; set_solver]. Qed.
#[export] Hint Resolve bread_ends bset_ends bdata_ends bpin_ends bwrite_ends brelse_ends : leaves.

Lemma readsb_ends : leaves anyhow readsb.
Proof. unfold readsb. leaves_tac. Qed.
Lemma cache_ends {A} (m : M bstate A) : leaves anyhow m -> leaves anyhow (cache m).
Proof. intros H. unfold cache. leaves_tac. Qed.
Lemma lh_at_ends i : leaves anyhow (lh_at i).
Proof. intros s. unfold stops, lh_at. destruct (_ !! _); [done|by vm_compute; set_solver]. Qed.
Lemma lh_store_ends i b : leaves anyhow (lh_store i b).
Proof. intros s. unfold stops, lh_store. destruct (_ <? _)%nat; [done|by vm_compute; set_solver]. Qed.
Lemma field_ends {A} (f : log -> A) : leaves anyhow (field f).
Proof. unfold field. leaves_tac. Qed.
Lemma acquire_log_ends : leaves anyhow acquire_log.
Proof. unfold acquire_log. leaves_tac. Qed.
Lemma release_log_ends : leaves anyhow release_log.
Proof. unfold release_log. leaves_tac. Qed.
#[export] Hint Resolve readsb_ends cache_ends lh_at_ends lh_store_ends field_ends acquire_log_ends
  release_log_ends : leaves.

Lemma write_head_ends : leaves anyhow write_head.
Proof. unfold write_head. leaves_tac. Qed.
Lemma install_trans_ends : leaves anyhow install_trans.
Proof. unfold install_trans, install_block. leaves_tac. Qed.
Lemma write_log_ends : leaves anyhow write_log.
Proof. unfold write_log, write_log_block. leaves_tac. Qed.
#[export] Hint Resolve write_head_ends install_trans_ends write_log_ends : leaves.

Lemma commit_ends : leaves anyhow commit.
Proof. unfold commit. leaves_tac. Qed.
#[export] Hint Resolve commit_ends : leaves.
Lemma begin_op_ends : leaves anyhow begin_op.
Proof. unfold begin_op. leaves_tac. Qed.
Lemma end_op_ends : leaves anyhow end_op.
Proof. unfold end_op, end_op_enter, end_op_leave. leaves_tac. Qed.
Lemma log_write_ends n : leaves anyhow (log_write n).
Proof. unfold log_write, find_slot. leaves_tac. Qed.
#[export] Hint Resolve begin_op_ends end_op_ends log_write_ends : leaves.

(** * Reading keeps the types and sizes of the inodes *)

Definition same_kind (s s' : fstate) : Prop :=
  forall i, i_type (inode_at i s') = i_type (inode_at i s) /\ i_size (inode_at i s') = i_size (inode_at i s).

#[export] Instance same_kind_preorder : PreOrder same_kind.
Proof.
  split; [by intros s i|]. intros s1 s2 s3 H1 H2 i. destruct (H1 i), (H2 i). split; congruence.
Qed.

Lemma lift_kind {A} (m : M lstate A) : leaves anyhow m -> leaves same_kind (lift m).
Proof. intros H. unfold lift. by eapply (leaves_zoom same_kind anyhow). Qed.
Lemma on_dev_kind {A} dev (m : M fstate A) : leaves same_kind m -> leaves same_kind (on_dev dev m).
Proof. intros H. unfold on_dev. leaves_tac. Qed.
#[export] Hint Resolve lift_kind on_dev_kind : leaves.

Lemma ifield_kind {A} i (f : inode -> A) : leaves same_kind (ifield i f).
Proof. unfold ifield. leaves_tac. Qed.
Lemma fbread_kind dev n : leaves same_kind (fbread dev n).
Proof. unfold fbread. leaves_tac. Qed.
Lemma fdata_kind n : leaves same_kind (fdata n).
Proof. unfold fdata. leaves_tac. Qed.
Lemma fset_kind n d : leaves same_kind (fset n d).
Proof. unfold fset. leaves_tac. Qed.
Lemma fbrelse_kind n : leaves same_kind (fbrelse n).
Proof. unfold fbrelse. leaves_tac. Qed.
Lemma flog_write_kind n : leaves same_kind (flog_write n).
Proof. unfold flog_write. leaves_tac. Qed.
#[export] Hint Resolve ifield_kind fbread_kind fdata_kind fset_kind fbrelse_kind flog_write_kind : leaves.

Lemma bzero_kind dev n : leaves same_kind (bzero dev n).
Proof. unfold bzero. leaves_tac. Qed.
#[export] Hint Resolve bzero_kind : leaves.
Lemma balloc_kind dev : leaves same_kind (balloc dev).
Proof. unfold balloc, balloc_bit. leaves_tac. Qed.
#[export] Hint Resolve balloc_kind : leaves.

Lemma set_i_addr_kind i k a : leaves same_kind (iupd i (set_i_addr k a)).
Proof.
  unfold iupd. apply leaves_modify. intros s j. unfold inode_at, set_icache. cbn [icache].
  rewrite !nth_lookup. destruct (decide (i = j)) as [->|Hij].
  - rewrite list_lookup_alter_eq. by destruct (icache s !! j).
  - by rewrite list_lookup_alter_ne.
Qed.
#[export] Hint Resolve set_i_addr_kind : leaves.

Lemma bmap_kind i bn : leaves same_kind (bmap i bn).
Proof. unfold bmap. leaves_tac. Qed.
#[export] Hint Resolve bmap_kind : leaves.

Lemma turn_pos n off : 0 < n -> 0 < Z.min n (BSIZE - off mod BSIZE).
Proof. intros Hn. pose proof (Z.mod_pos_bound off BSIZE ltac:(done)). unfold BSIZE in *. lia. Qed.

(** A turn of the loop reads at least one byte. *)
Lemma readi_loop_kind i off n fuel : (Z.to_nat n < fuel)%nat -> leaves same_kind (readi_loop i off n fuel).
Proof.
  revert off n. induction fuel as [|f IH]; intros off n Hf; [lia|]. cbn [readi_loop].
  destruct (Z.leb_spec n 0); [leaves_tac|]. pose proof (turn_pos n off ltac:(lia)).
  repeat first [apply IH; lia | solve [eauto 5 with leaves] | leaves_step].
Qed.

Lemma anyhow_kind {A} (m : M fstate A) : leaves same_kind m -> leaves anyhow m.
Proof. apply leaves_anyhow. Qed.
#[export] Hint Resolve anyhow_kind : leaves.

(** * Inodes *)

Lemma iupd_ends i f : leaves anyhow (iupd i f).
Proof. unfold iupd. leaves_tac. Qed.
Lemma acquire_ic_ends : leaves anyhow acquire_ic.
Proof. unfold acquire_ic. leaves_tac. Qed.
Lemma release_ic_ends : leaves anyhow release_ic.
Proof. unfold release_ic. leaves_tac. Qed.
Lemma on_ilock_ends {A} i (m : M sleeplock A) : leaves anyhow m -> leaves anyhow (on_ilock i m).
Proof. intros H. unfold on_ilock. leaves_tac. Qed.
Lemma acquiresleep_ends c pid : leaves anyhow (acquiresleep c pid).
Proof. unfold acquiresleep. leaves_tac. Qed.
Lemma releasesleep_ends c : leaves anyhow (releasesleep c).
Proof. unfold releasesleep. leaves_tac. Qed.
Lemma holdingsleep_ends : leaves anyhow holdingsleep.
Proof. unfold holdingsleep. leaves_tac. Qed.
#[export] Hint Resolve iupd_ends acquire_ic_ends release_ic_ends on_ilock_ends acquiresleep_ends
  releasesleep_ends holdingsleep_ends : leaves.

Lemma bfree_ends dev b : leaves anyhow (bfree dev b).
Proof. unfold bfree, freadsb, on_dev. leaves_tac. Qed.
Lemma iget_ends dev inum : leaves anyhow (iget dev inum).
Proof. unfold iget. leaves_tac. Qed.
Lemma iupdate_ends i : leaves anyhow (iupdate i).
Proof. unfold iupdate. leaves_tac. Qed.
Lemma idup_ends i : leaves anyhow (idup i).
Proof. unfold idup. leaves_tac. Qed.
Lemma ilock_ends i : leaves anyhow (ilock i).
Proof. unfold ilock. leaves_tac. Qed.
Lemma iunlock_ends i : leaves anyhow (iunlock i).
Proof. unfold iunlock. leaves_tac. Qed.
Lemma stati_ends i : leaves anyhow (stati i).
Proof. unfold stati. leaves_tac. Qed.
#[export] Hint Resolve bfree_ends iget_ends iupdate_ends idup_ends ilock_ends iunlock_ends stati_ends : leaves.

Lemma ialloc_ends dev type : leaves anyhow (ialloc dev type).
Proof. unfold ialloc. leaves_tac. Qed.
Lemma itrunc_ends i : leaves anyhow (itrunc i).
Proof. unfold itrunc. leaves_tac. Qed.
#[export] Hint Resolve ialloc_ends itrunc_ends : leaves.
Lemma iput_ends i : leaves anyhow (iput i).
Proof. unfold iput. leaves_tac. Qed.
#[export] Hint Resolve iput_ends : leaves.
Lemma iunlockput_ends i : leaves anyhow (iunlockput i).
Proof. unfold iunlockput. leaves_tac. Qed.
#[export] Hint Resolve iunlockput_ends : leaves.

(** * Contents, directories and paths *)

(** The functions of the device drivers end as well. *)
Class DevswEnds `{!Devsw} : Prop := {
  dev_read_ends ma f i n : dev_read ma = Some f -> leaves anyhow (f i n);
  dev_write_ends ma f i src n : dev_write ma = Some f -> leaves anyhow (f i src n)
}.

Section contents.
Context `{DV : !Devsw} `{DE : !DevswEnds}.

Lemma readi_ends i off n : leaves anyhow (readi i off n).
Proof using DE.
  unfold readi. apply leaves_bind; [apply _|eauto 5 with leaves|]. intros ip. destruct (i_type ip =? T_DEV).
  - destruct (_ || _); [leaves_tac|]. destruct (dev_read _) eqn:E; [by eapply dev_read_ends|leaves_tac].
  - destruct (_ || _); [leaves_tac|]. leaves_step; [|leaves_tac]. apply anyhow_kind, readi_loop_kind. lia.
Qed.

Lemma writei_loop_ends i src off n fuel : (Z.to_nat n < fuel)%nat -> leaves anyhow (writei_loop i src off n fuel).
Proof.
  revert src off n. induction fuel as [|f IH]; intros src off n Hf; [lia|]. cbn [writei_loop].
  destruct (Z.leb_spec n 0); [leaves_tac|]. pose proof (turn_pos n off ltac:(lia)).
  repeat first [apply IH; lia | solve [eauto 5 with leaves] | leaves_step].
Qed.

Lemma writei_ends i src off n : leaves anyhow (writei i src off n).
Proof using DE.
  unfold writei. apply leaves_bind; [apply _|eauto 5 with leaves|]. intros ip. destruct (i_type ip =? T_DEV).
  - destruct (_ || _); [leaves_tac|]. destruct (dev_write _) eqn:E; [by eapply dev_write_ends|leaves_tac].
  - destruct (_ || _); [leaves_tac|]. destruct (_ <? _); [leaves_tac|].
    leaves_step; [apply writei_loop_ends; lia|leaves_tac].
Qed.

(** [readi] of a directory, and the state after it. *)
Lemma readi_dir_kind i off n s :
  i_type (inode_at i s) = T_DIR -> stops (fun _ => same_kind s) (same_kind s) (readi i off n) s.
Proof.
  intros Ht. unfold readi. apply stops_bind. unfold stops at 1, ifield, gets. change (id ?x) with x. rewrite Ht. cbn [Z.eqb T_DIR T_DEV Pos.eqb].
  destruct (_ || _); [apply leaves_ret, _|]. apply leaves_bind; [apply _| |intros; apply leaves_ret, _].
  apply readi_loop_kind. lia.
Qed.

(** A directory of which the entries from [off] on are left to be read. *)
Definition dir_left (dp : nat) (off : Z) (fuel : nat) (s : fstate) : Prop :=
  i_type (inode_at dp s) = T_DIR /\ 0 <= off /\ i_size (inode_at dp s) - off < Z.of_nat fuel.

(** A turn of a loop over the entries: in the next turn the fuel is one less. *)
Lemma dir_turn {B} (Q : B -> fstate -> Prop) dp off fuel s (k : Z * list Z -> M fstate B) :
  dir_left dp off (Datatypes.S fuel) s ->
  (forall r s', dir_left dp (off + DIRENT) fuel s' -> stops Q (fun _ => True) (k r) s') ->
  stops Q (fun _ => True) (bind (readi dp off DIRENT) k) s.
Proof.
  intros (Ht & Ho & Hf) Hk. apply stops_bind. eapply stops_mono; [by apply readi_dir_kind| |done].
  intros r s' Hs'. apply Hk. destruct (Hs' dp) as [E1 E2]. unfold dir_left, DIRENT. rewrite E1, E2. lia.
Qed.

Lemma dirlookup_loop_ends dp name off fuel s :
  dir_left dp off fuel s -> (0 < fuel)%nat ->
  stops (fun r s' => r = None -> i_type (inode_at dp s') = T_DIR) (fun _ => True) (dirlookup_loop dp name off fuel) s.
Proof using DE.
  revert off s. induction fuel as [|f IH]; intros off s Hs Hf; [lia|]. cbn [dirlookup_loop].
  apply stops_bind. unfold stops at 1, ifield, gets. change (id ?x) with x.
  destruct (Z.ltb_spec off (i_size (inode_at dp s))) as [Hlt|]; [|by intros _; apply Hs]. cbn [negb].
  apply (dir_turn _ _ _ f); [done|]. intros r s' Hs'.
  assert (0 < f)%nat by (destruct Hs as (? & ? & ?); lia).
  destruct (negb _); [apply stops_panic; vm_compute; set_solver|].
  destruct (_ =? 0); [by apply IH|]. destruct (_ =? 0); [|by apply IH].
  apply stops_bind. eapply stops_mono; [apply iget_ends|by intros|done].
Qed.

Lemma dirlookup_none dp name s :
  stops (fun r s' => r = None -> i_type (inode_at dp s') = T_DIR) (fun _ => True) (dirlookup dp name) s.
Proof using DE.
  unfold dirlookup. apply stops_bind. unfold stops at 1, ifield, gets. change (id ?x) with x.
  destruct (Z.eqb_spec (i_type (inode_at dp s)) T_DIR) as [Ht|]; [|apply stops_panic; vm_compute; set_solver].
  apply dirlookup_loop_ends; [|lia]. split; [done|]. lia.
Qed.

Lemma dirlookup_ends dp name : leaves anyhow (dirlookup dp name).
Proof using DE. intros s. eapply stops_mono; [apply dirlookup_none|done|done]. Qed.

Lemma dirlink_loop_ends dp off fuel s :
  dir_left dp off fuel s -> (0 < fuel)%nat -> stops (fun _ _ => True) (fun _ => True) (dirlink_loop dp off fuel) s.
Proof using DE.
  revert off s. induction fuel as [|f IH]; intros off s Hs Hf; [lia|]. cbn [dirlink_loop].
  apply stops_bind. unfold stops at 1, ifield, gets. change (id ?x) with x.
  destruct (Z.ltb_spec off (i_size (inode_at dp s))) as [Hlt|]; [|done]. cbn [negb].
  apply (dir_turn _ _ _ f); [done|]. intros r s' Hs'.
  assert (0 < f)%nat by (destruct Hs as (? & ? & ?); lia).
  destruct (negb _); [apply stops_panic; vm_compute; set_solver|].
  destruct (_ =? 0); [done|by apply IH].
Qed.

Lemma dirlink_ends dp name inum : leaves anyhow (dirlink dp name inum).
Proof using DE.
  intros s. unfold dirlink. apply stops_bind. eapply stops_mono; [apply dirlookup_none| |done].
  intros [[i o]|] s1 Ht.
  - apply stops_anyhow. leaves_tac.
  - apply stops_bind. unfold stops at 1, ifield, gets. change (id ?x) with x. apply stops_bind.
    eapply stops_mono; [apply dirlink_loop_ends; [|lia]| |done].
    + split; [by apply Ht|]. lia.
    + intros off s2 _. apply stops_anyhow. pose proof writei_ends. leaves_tac.
Qed.

Lemma skip_slashes_length p : (length (skip_slashes p) <= length p)%nat.
Proof. induction p as [|c p IH]; simpl; [done|]. destruct (c =? SLASH); simpl; lia. Qed.

Lemma scan_elem_length p : (length (scan_elem p).1 + length (scan_elem p).2 = length p)%nat.
Proof. induction p as [|c p IH]; simpl; [done|]. destruct (c =? SLASH); simpl; lia. Qed.

Lemma skip_slashes_head p c q : skip_slashes p = c :: q -> (c =? SLASH) = false.
Proof. induction p as [|d p IH]; simpl; [done|]. destruct (d =? SLASH) eqn:E; [done|]. by intros [= -> ->]. Qed.

(** An element of a path has at least one character. *)
Lemma skipelem_shorter path name path' name' :
  skipelem path name = Some (path', name') -> (length path' < length path)%nat.
Proof.
  unfold skipelem. destruct (skip_slashes path) as [|c q] eqn:E; [done|].
  pose proof (skip_slashes_head _ _ _ E) as Hc. pose proof (skip_slashes_length path) as Hl. rewrite E in Hl.
  pose proof (scan_elem_length q). cbn [scan_elem]. rewrite Hc. intros [= <- _]. cbn [snd].
  pose proof (skip_slashes_length (scan_elem q).2). simpl in Hl. lia.
Qed.

Lemma namex_loop_ends i path parent name fuel :
  (length path < fuel)%nat -> leaves anyhow (namex_loop i path parent name fuel).
Proof using DE.
  revert i path name. induction fuel as [|f IH]; intros i path name Hf; [lia|]. cbn [namex_loop].
  destruct (skipelem path name) as [[path' name']|] eqn:E; [|leaves_tac].
  pose proof (skipelem_shorter _ _ _ _ E). pose proof (dirlookup_ends i name').
  repeat first [apply IH; lia | solve [eauto 5 with leaves] | leaves_step].
Qed.

Lemma namex_ends path parent name : leaves anyhow (namex path parent name).
Proof using DE.
  unfold namex. apply leaves_bind; [apply _|leaves_tac|]. intros i. apply namex_loop_ends. lia.
Qed.
Lemma namei_ends path : leaves anyhow (namei path).
Proof using DE. pose proof namex_ends. unfold namei. leaves_tac. Qed.
Lemma nameiparent_ends path name : leaves anyhow (nameiparent path name).
Proof using DE. apply namex_ends. Qed.
End contents.

#[export] Hint Resolve readi_ends writei_ends dirlookup_ends dirlink_ends namei_ends nameiparent_ends : leaves.
