(* ===== verification/Mkfs.v ===== *)
(** mkfs.c: the host program that makes the first file system image.

    The image is a file of whole blocks.  A failed [read] or [assert] ends the
    program; the model gives both as a panic.  The host is a little-endian machine,
    as the x86 that the image is for. *)
From stdpp Require Import base numbers list gmap strings.
From Stdlib Require Import ZArith Lia.
From S2P Require Import Prelude Bytes Mem Disk Super Log Fs.

Open Scope kernel_scope.

Module Mkfs.

Definition NINODES : Z := 200.
Definition nbitmap : Z := FSSIZE / (BSIZE * 8) + 1.
Definition ninodeblocks : Z := NINODES / IPB + 1.
Definition nlog : Z := LOGSIZE.

(** The variables: [fsfd] stands for the blocks of the image. *)
Record mk := Mk {
  fsfd : list block;
  sb : superblock;
  freeinode : Z;
  freeblock : Z
}.

Definition set_fsfd (l : list block) (s : mk) : mk := Mk l (sb s) (freeinode s) (freeblock s).
Definition set_sb (b : superblock) (s : mk) : mk := Mk (fsfd s) b (freeinode s) (freeblock s).
Definition set_freeinode (n : Z) (s : mk) : mk := Mk (fsfd s) (sb s) n (freeblock s).
Definition set_freeblock (n : Z) (s : mk) : mk := Mk (fsfd s) (sb s) (freeinode s) n.

(** [x++] of the two counters. *)
Definition next_inode : M mk Z := n <- gets freeinode ;; modify (set_freeinode (u32 (n + 1))) ;; ret n.
Definition next_block : M mk Z := n <- gets freeblock ;; modify (set_freeblock (u32 (n + 1))) ;; ret n.

Definition assert (b : bool) : M mk unit := if b then ret tt else panic "assert".

(** The bytes of the result in their order, read back as an integer. *)
Definition xshort (x : Z) : Z := dec [u8 x; u8 (Z.shiftr x 8)].
Definition xint (x : Z) : Z := dec [u8 x; u8 (Z.shiftr x 8); u8 (Z.shiftr x 16); u8 (Z.shiftr x 24)].

Definition zeroes : block := replicate (Z.to_nat BSIZE) 0.

(** Writing past the end of a file fills the gap with zeroes; reading there gives
    fewer than [BSIZE] bytes. *)
Definition wsect (sec : Z) (buf : block) : M mk unit :=
  let n := Z.to_nat (u32 (sec * BSIZE) / BSIZE) in
  modify (fun s =>
    set_fsfd (take n (fsfd s ++ replicate (n - length (fsfd s)) zeroes) ++ buf :: drop (S n) (fsfd s)) s).

Definition rsect (sec : Z) : M mk block :=
  let n := Z.to_nat (u32 (sec * BSIZE) / BSIZE) in
  l <- gets fsfd ;;
  match l !! n with
  | Some d => ret d
  | None => panic "read"
  end.

Definition winode (inum : Z) (ip : dinode) : M mk unit :=
  b <- gets sb ;;
  let bn := IBLOCK inum b in
  buf <- rsect bn ;;
  wsect bn (put_dinode buf (inum mod IPB * DINODE) ip).

Definition rinode (inum : Z) : M mk dinode :=
  b <- gets sb ;;
  let bn := IBLOCK inum b in
  buf <- rsect bn ;;
  ret (get_dinode buf (inum mod IPB * DINODE)).

Definition ialloc (type : Z) : M mk Z :=
  inum <- next_inode ;;
  let din := Dinode (xshort type) 0 0 (xshort 1) (xint 0) (replicate 13 0) in
  winode inum din ;;
  ret inum.

(** The loop of [balloc] over the bits. *)
Fixpoint balloc_loop (i : Z) (buf : block) (n : nat) : block :=
  match n with
  | O => buf
  | S k =>
      balloc_loop (i + 1)
        (<[Z.to_nat (i / 8) := u8 (Z.lor (nth (Z.to_nat (i / 8)) buf 0) (Z.shiftl 1 (i mod 8)))]> buf) k
  end.

Definition balloc (used : Z) : M mk unit :=
  assert (used <? BSIZE * 8) ;;
  let buf := balloc_loop 0 (replicate (Z.to_nat BSIZE) 0) (Z.to_nat used) in
  b <- gets sb ;;
  wsect (sb_bmapstart b) buf.

Definition set_daddr (k a : Z) (di : dinode) : dinode :=
  Dinode (di_type di) (di_major di) (di_minor di) (di_nlink di) (di_size di) (<[Z.to_nat k := a]> (di_addrs di)).
Definition set_dsize (n : Z) (di : dinode) : dinode :=
  Dinode (di_type di) (di_major di) (di_minor di) (di_nlink di) n (di_addrs di).
Definition daddr (di : dinode) (k : Z) : Z := nth (Z.to_nat k) (di_addrs di) 0.

(** The block number [x] of block [fbn] of the file, in the loop of [iappend]: through
    the indirect block, and in any case. *)
Definition iappend_entry (din : dinode) (fbn : Z) : M mk Z :=
  indirect <- rsect (xint (daddr din NDIRECT)) ;;
  let o := 4 * (fbn - NDIRECT) in
  indirect <- (if get32 indirect o =? 0 then
                 b <- next_block ;;
                 let indirect := put32 indirect o (xint b) in
                 wsect (xint (daddr din NDIRECT)) indirect ;;
                 ret indirect
               else ret indirect) ;;
  ret (xint (get32 indirect o)).

Definition iappend_block (din : dinode) (fbn : Z) : M mk (dinode * Z) :=
  if fbn <? NDIRECT then
    din <- (if xint (daddr din fbn) =? 0 then
              b <- next_block ;;
              ret (set_daddr fbn (xint b) din)
            else ret din) ;;
    ret (din, xint (daddr din fbn))
  else
    din <- (if xint (daddr din NDIRECT) =? 0 then
              b <- next_block ;;
              ret (set_daddr NDIRECT (xint b) din)
            else ret din) ;;
    x <- iappend_entry din fbn ;;
    ret (din, x).

(** The loop of [iappend]: [p] are the [n] bytes that are left.  Each turn takes one
    of them at least. *)
Fixpoint iappend_loop (din : dinode) (off : Z) (p : list Z) (n : Z) (fuel : nat) : M mk (dinode * Z) :=
  match fuel with
  | O => diverge
  | S fl =>
      if negb (0 <? n) then ret (din, off) else
      let fbn := off / BSIZE in
      assert (fbn <? MAXFILE) ;;
      r <- iappend_block din fbn ;;
      let '(din, x) := r in
      let n1 := Z.min n (u32 ((fbn + 1) * BSIZE - off)) in
      buf <- rsect x ;;
      wsect x (splice buf (off - fbn * BSIZE) (take (Z.to_nat n1) p)) ;;
      iappend_loop din (u32 (off + n1)) (drop (Z.to_nat n1) p) (n - n1) fl
  end.

Definition iappend (inum : Z) (p : list Z) (n : Z) : M mk unit :=
  din <- rinode inum ;;
  r <- iappend_loop din (xint (di_size din)) p n (S (Z.to_nat n)) ;;
  let '(din, off) := r in
  winode inum (set_dsize (xint off) din).

(** A [struct dirent] with [name] in a cleared field: [strcpy] of a short name,
    [strncpy] of an argument. *)
Definition dirent (inum : Z) (name : list Z) : list Z := mk_dirent (xshort inum) (strncpy (cview name) 0 DIRSIZ).

(** An argument: the name, and what [read] gives from the file piece by piece, or
    that it cannot be opened. *)
Record arg := Arg { a_name : list Z; a_reads : option (list (list Z)) }.

Fixpoint append_reads (inum : Z) (reads : list (list Z)) : M mk unit :=
  match reads with
  | [] => ret tt
  | buf :: reads => iappend inum buf (Z.of_nat (length buf)) ;; append_reads inum reads
  end.

Definition add_file (rootino : Z) (a : arg) : M mk unit :=
  assert (bool_decide (SLASH ∉ a_name a)) ;;
  match a_reads a with
  | None => panic "open"
  | Some reads =>
      let name := match a_name a with c :: n => if c =? 95 then n else c :: n | [] => [] end in
      inum <- ialloc T_FILE ;;
      iappend rootino (dirent inum name) DIRENT ;;
      append_reads inum reads
  end.

Fixpoint add_files (rootino : Z) (args : list arg) : M mk unit :=
  match args with
  | [] => ret tt
  | a :: args => add_file rootino a ;; add_files rootino args
  end.

(** The super block in a cleared block. *)
Definition put_sb (b : superblock) : block :=
  put32 (put32 (put32 (put32 (put32 (put32 (put32 zeroes 0 (sb_size b)) 4 (sb_nblocks b)) 8 (sb_ninodes b))
    12 (sb_nlog b)) 16 (sb_logstart b)) 20 (sb_inodestart b)) 24 (sb_bmapstart b).

(** [main], once it has opened the image and truncated it. *)
Definition main (args : list arg) : M mk unit :=
  assert (BSIZE mod DINODE =? 0) ;;
  assert (BSIZE mod DIRENT =? 0) ;;
  let nmeta := 2 + nlog + ninodeblocks + nbitmap in
  let nblocks := FSSIZE - nmeta in
  modify (set_sb (Superblock (xint FSSIZE) (xint nblocks) (xint NINODES) (xint nlog) (xint 2) (xint (2 + nlog))
    (xint (2 + nlog + ninodeblocks)))) ;;
  modify (set_freeblock nmeta) ;;
  mfor (Z.to_nat FSSIZE) 0 (fun i => wsect i zeroes) ;;
  b <- gets sb ;;
  wsect 1 (put_sb b) ;;
  rootino <- ialloc T_DIR ;;
  assert (rootino =? ROOTINO) ;;
  iappend rootino (dirent rootino [46]) DIRENT ;;
  iappend rootino (dirent rootino [46; 46]) DIRENT ;;
  add_files rootino args ;;
  din <- rinode rootino ;;
  let off := xint (di_size din) in
  let off := u32 ((off / BSIZE + 1) * BSIZE) in
  winode rootino (set_dsize (xint off) din) ;;
  used <- gets freeblock ;;
  balloc used.

(** The variables at the start. *)
Definition mk0 : mk := Mk [] (Superblock 0 0 0 0 0 0 0) 1 0.
End Mkfs.
