(* ===== verification/MkfsProps.v ===== *)
(** The image that mkfs makes is a file system as fs.c expects it: the files and the
    root directory have their contents, no block is shared, and the bitmap marks
    exactly the blocks in use. *)
From stdpp Require Import base numbers list gmap sets strings.
From Stdlib Require Import ZArith Lia.
From S2P Require Import Prelude Bytes Mem Disk BlockLayer Super Log LogOps Tx Fs FsBlocks FsInode FsMap FsFile FsDir Mkfs.

Open Scope kernel_scope.

(** * Integers *)

Lemma xint_id x : is_u32 x -> Mkfs.xint x = x.
Proof.
  intros Hx. rewrite <- (u32_id x Hx) at 2. unfold Mkfs.xint, u8, u32, is_u32 in *. cbn [dec].
  rewrite !Z.shiftr_div_pow2 by lia. change (2 ^ 16) with (2 ^ 8 * 2 ^ 8). change (2 ^ 24) with (2 ^ 8 * (2 ^ 8 * 2 ^ 8)).
  rewrite <- !Z.div_div by lia. change (2 ^ 32) with (2 ^ 8 * (2 ^ 8 * (2 ^ 8 * 2 ^ 8))).
  rewrite !Z.rem_mul_r by lia. lia.
Qed.

Lemma xshort_id x : is_u16 x -> Mkfs.xshort x = x.
Proof.
  intros Hx. unfold Mkfs.xshort, u8, is_u16 in *. cbn [dec]. rewrite !Z.shiftr_div_pow2 by lia.
  assert (x / 2 ^ 8 < 2 ^ 8) by (apply Z.div_lt_upper_bound; lia). pose proof (Z.div_pos x (2 ^ 8) ltac:(lia) ltac:(lia)).
  rewrite (Z.mod_small (x / 2 ^ 8)) by lia. pose proof (Z.div_mod x (2 ^ 8) ltac:(lia)). lia.
Qed.

(** * The image and a view of it *)

(** The super block that [main] writes. *)
Definition msb : superblock := Superblock 1000 941 200 30 2 32 58.

Lemma msb_dstart : dstart msb = 59.
Proof. done. Qed.

(** The view is the image with the blocks in front of [freeblock] marked in the
    bitmap, which [balloc] writes in the end. *)
Record mrep (s : Mkfs.mk) (V : tview) : Prop := MRep {
  mr_sb : Mkfs.sb s = msb;
  mr_len : length (Mkfs.fsfd s) = 1000%nat;
  mr_dlen : length (tv_disk V) = 1000%nat;
  mr_eq : forall n, n <> 58 -> dat (Mkfs.fsfd s) n = dat (tv_disk V) n;
  mr_ok : fsok msb V;
  mr_held : tv_held V = ∅;
  mr_bits : forall c, 0 <= c < 1000 -> bm_bit msb (tv_disk V) c = (c <? Mkfs.freeblock s);
  mr_zero : forall n, Mkfs.freeblock s <= n < 1000 -> dat (tv_disk V) n = Some zeroes;
  mr_log : forall n, 2 <= n < 32 -> dat (tv_disk V) n = Some zeroes;
  mr_free : 59 <= Mkfs.freeblock s <= 1000
}.

Lemma sect_index n : 0 <= n < 1000 -> Z.to_nat (u32 (n * BSIZE) / BSIZE) = Z.to_nat n.
Proof. intros Hn. unfold BSIZE. rewrite u32_small by lia. by rewrite Z.div_mul. Qed.

Lemma wsect_eq n d s :
  0 <= n < 1000 -> length (Mkfs.fsfd s) = 1000%nat ->
  Mkfs.wsect n d s = Ok tt (Mkfs.set_fsfd (<[Z.to_nat n := d]> (Mkfs.fsfd s)) s).
Proof.
  intros Hn Hl. unfold Mkfs.wsect, modify. rewrite sect_index by done. do 2 f_equal.
  rewrite insert_take_drop by lia. f_equal. rewrite take_app_le by lia. done.
Qed.

Lemma IBLOCK_first inum : 0 <= inum < 200 -> 32 <= IBLOCK inum msb.
Proof.
  intros Hn. unfold IBLOCK. change IPB with 8. cbn [sb_inodestart msb]. pose proof (Z.div_pos inum 8 ltac:(lia) ltac:(lia)).
  pose proof (Z.div_le_mono inum 200 8 ltac:(lia) ltac:(lia)) as Hle. change (200 / 8) with 25 in Hle. rewrite u32_small by lia. lia.
Qed.

Section steps.
Context (s : Mkfs.mk) (V : tview).
Context (HM : mrep s V).

Let HG := fo_geo _ _ (mr_ok _ _ HM).

Lemma rsect_ok n d : 0 <= n < 1000 -> n <> 58 -> dat (tv_disk V) n = Some d -> Mkfs.rsect n s = Ok d s.
Proof.
  intros Hn H58 Hd. unfold Mkfs.rsect, bind, gets. rewrite sect_index by done.
  rewrite <- (mr_eq _ _ HM) in Hd by done. unfold dat in Hd. destruct (Z.ltb_spec n 0); [done|]. by rewrite Hd.
Qed.

(** A block in use, or an inode block, is written. *)
Lemma wsect_ok n d :
  is_block d -> 59 <= n < Mkfs.freeblock s \/ 31 < n < 58 ->
  exists s', Mkfs.wsect n d s = Ok tt s' /\ mrep s' (tv_put n d V) /\
    Mkfs.freeblock s' = Mkfs.freeblock s /\ Mkfs.freeinode s' = Mkfs.freeinode s.
Proof.
  intros Hd Hn. pose proof (mr_free _ _ HM) as Hf. rewrite wsect_eq by (try apply HM; lia).
  eexists. split; [done|]. split; [|done]. split; cbn [Mkfs.sb Mkfs.fsfd Mkfs.freeblock Mkfs.set_fsfd tv_put tv_disk tv_held].
  - apply HM.
  - rewrite length_insert. apply HM.
  - rewrite length_insert. apply HM.
  - intros m Hm. destruct (decide (m = n)) as [->|Hne].
    + rewrite !dat_insert_eq by (rewrite ?(mr_len _ _ HM), ?(mr_dlen _ _ HM); lia). done.
    + rewrite !dat_insert_ne by lia. by apply HM.
  - destruct Hn as [Hn|Hn]; [apply fsok_put; [apply HM|done|rewrite msb_dstart; lia]|].
    apply fsok_put_inode; [apply HM|done|cbn; lia].
  - apply HM.
  - intros c Hc. rewrite <- (mr_bits _ _ HM c Hc). destruct Hn as [Hn|Hn].
    + apply bm_bit_data; [done|rewrite msb_dstart; lia|done].
    + unfold bm_bit, bm_byte. rewrite dat_insert_ne; [done|lia|]. pose proof (BBLOCK_range msb _ HG c Hc). cbn in *. lia.
  - intros m Hm. rewrite dat_insert_ne by lia. by apply (mr_zero _ _ HM).
  - intros m Hm. rewrite dat_insert_ne by lia. by apply (mr_log _ _ HM).
  - done.
Qed.

(** [freeblock++]. *)
Lemma next_block_ok :
  Mkfs.freeblock s < 1000 ->
  exists s', Mkfs.next_block s = Ok (Mkfs.freeblock s) s' /\ mrep s' (tv_alloc msb (Mkfs.freeblock s) V) /\
    Mkfs.freeblock s' = Mkfs.freeblock s + 1 /\ Mkfs.freeinode s' = Mkfs.freeinode s.
Proof.
  intros Hlt. set (b := Mkfs.freeblock s). pose proof (mr_free _ _ HM) as Hf. fold b in Hf, Hlt.
  assert (dstart msb <= b < sb_size msb) as Hb by (rewrite msb_dstart; cbn; lia).
  unfold Mkfs.next_block, bind, gets, modify, ret. fold b. rewrite u32_small by lia. eexists. split; [done|]. split; [|done].
  assert (forall n, n <> 58 -> dat (tv_disk (tv_alloc msb b V)) n = dat (tv_disk V) n) as Hsame.
  { intros n Hn. destruct (decide (n = b)) as [->|Hne].
    - rewrite (alloc_zero msb V (mr_ok _ _ HM)) by done. symmetry. apply (mr_zero _ _ HM). fold b. lia.
    - apply (alloc_other msb V (mr_ok _ _ HM)); [done|done|rewrite msb_dstart; cbn; lia]. }
  split; cbn [Mkfs.sb Mkfs.fsfd Mkfs.freeblock Mkfs.set_freeblock].
  - apply HM.
  - apply HM.
  - unfold tv_alloc, tv_put. cbn [tv_disk]. rewrite !length_insert. apply HM.
  - intros n Hn. rewrite Hsame by done. by apply HM.
  - apply (fsok_alloc msb V (mr_ok _ _ HM)). done.
  - apply HM.
  - intros c Hc. rewrite (alloc_bits msb V (mr_ok _ _ HM)) by done. rewrite (mr_bits _ _ HM c Hc). fold b.
    destruct (decide (c = b)) as [->|Hne].
    + rewrite bool_decide_true by done. symmetry. apply Z.ltb_lt. lia.
    + rewrite bool_decide_false by done. cbn [orb]. destruct (Z.ltb_spec c b), (Z.ltb_spec c (b + 1)); try done; lia.
  - intros n Hn. rewrite Hsame by lia. apply (mr_zero _ _ HM). fold b. lia.
  - intros n Hn. rewrite Hsame by lia. by apply (mr_log _ _ HM).
  - lia.
Qed.

Lemma rinode_ok inum : 0 <= inum < 200 -> Mkfs.rinode inum s = Ok (disk_inode msb (tv_disk V) inum) s.
Proof.
  intros Hn. destruct (IBLOCK_dat msb V (mr_ok _ _ HM) inum Hn) as (d & Hd & _).
  pose proof (IBLOCK_range msb V (mr_ok _ _ HM) inum Hn) as Hr. cbn in Hr.
  unfold Mkfs.rinode, bind, gets. rewrite (mr_sb _ _ HM). rewrite (rsect_ok (IBLOCK inum msb) d) by (try done; lia).
  unfold disk_inode. by rewrite Hd.
Qed.

Lemma winode_ok inum di :
  0 <= inum < 200 -> length (di_addrs di) = 13%nat ->
  exists s', Mkfs.winode inum di s = Ok tt s' /\ mrep s' (tv_inode msb inum di V) /\
    Mkfs.freeblock s' = Mkfs.freeblock s /\ Mkfs.freeinode s' = Mkfs.freeinode s.
Proof.
  intros Hn Hl. destruct (IBLOCK_dat msb V (mr_ok _ _ HM) inum Hn) as (d & Hd & _).
  pose proof (IBLOCK_range msb V (mr_ok _ _ HM) inum Hn) as Hr. cbn in Hr.
  pose proof (inode_block msb V (mr_ok _ _ HM) inum di Hn Hl) as Hb.
  unfold Mkfs.winode, bind, gets. rewrite (mr_sb _ _ HM). rewrite (rsect_ok (IBLOCK inum msb) d) by (try done; lia).
  pose proof (IBLOCK_first inum Hn).
  rewrite Hd in Hb. destruct (wsect_ok (IBLOCK inum msb) (put_dinode d (ioff inum) di) Hb) as (s' & E & H'); [lia|].
  exists s'. unfold tv_inode. rewrite Hd. done.
Qed.
End steps.

(** * The blocks of a file *)

(** How many blocks a file of [n] bytes takes, with its indirect block. *)
Definition need (n : Z) : Z :=
  let b := (n + 511) / 512 in if 12 <? b then b + 1 else b.

Lemma need_0 : need 0 = 0.
Proof. done. Qed.

Lemma need_same off : 0 <= off -> off mod 512 <> 0 -> need (off + 1) = need off.
Proof.
  intros Ho Hm. unfold need. pose proof (Z.div_mod off 512 ltac:(lia)). pose proof (Z.mod_pos_bound off 512 ltac:(lia)).
  assert ((off + 1 + 511) / 512 = off / 512 + 1) as -> by (symmetry; apply (Z.div_unique _ _ _ (off mod 512)); lia).
  assert ((off + 511) / 512 = off / 512 + 1) as -> by (symmetry; apply (Z.div_unique _ _ _ (off mod 512 - 1)); lia).
  done.
Qed.

Lemma need_new k : 0 <= k -> need (512 * k + 1) = need (512 * k) + (if k =? 12 then 2 else 1).
Proof.
  intros Hk. unfold need.
  assert ((512 * k + 1 + 511) / 512 = k + 1) as -> by (symmetry; apply (Z.div_unique _ _ _ 0); lia).
  assert ((512 * k + 511) / 512 = k) as -> by (symmetry; apply (Z.div_unique _ _ _ 511); lia).
  destruct (Z.ltb_spec 12 k), (Z.ltb_spec 12 (k + 1)), (Z.eqb_spec k 12); lia.
Qed.

Lemma need_mono n m : 0 <= n <= m -> need n <= need m.
Proof.
  intros H. unfold need. pose proof (Z.div_le_mono (n + 511) (m + 511) 512 ltac:(lia) ltac:(lia)).
  destruct (Z.ltb_spec 12 ((n + 511) / 512)), (Z.ltb_spec 12 ((m + 511) / 512)); lia.
Qed.

(** The inode maps exactly the blocks of its first [n] bytes. *)
Record tight (dk : list block) (di : dinode) (n : Z) : Prop := Tight {
  tg_map : forall bn, 0 <= bn < MAXFILE -> imap dk di bn <> 0 <-> bn * BSIZE < n;
  tg_ind : bptr di <> 0 <-> NDIRECT * BSIZE < n
}.

Lemma in_block off : 0 <= off -> off = 512 * (off / 512) + off mod 512 /\ 0 <= off mod 512 < 512.
Proof. intros. split; [apply Z.div_mod; lia|apply Z.mod_pos_bound; lia]. Qed.

Lemma tight_same dk di off : 0 <= off -> off mod 512 <> 0 -> tight dk di off -> tight dk di (off + 1).
Proof.
  intros Ho Hm [T1 T2]. destruct (in_block off Ho). split.
  - intros bn Hbn. rewrite T1 by done. unfold BSIZE. assert (bn * 512 <> off) by (intros <-; apply Hm, Z.mod_mul; lia). lia.
  - rewrite T2. unfold NDIRECT, BSIZE. assert (off <> 12 * 512) by (intros ->; by apply Hm). lia.
Qed.

(** Growing one block at a time: the block [k] is the only new one. *)
Lemma grown_only V V' di di' b k :
  grown msb V V' di di' ->
  (forall c, 0 <= c < 1000 -> bm_bit msb (tv_disk V') c = true -> c = b \/ bm_bit msb (tv_disk V) c = true) ->
  0 <= k < MAXFILE -> imap (tv_disk V') di' k = b -> b <> 0 ->
  forall bn, 0 <= bn < MAXFILE -> imap (tv_disk V') di' bn <> 0 <-> bn = k \/ imap (tv_disk V) di bn <> 0.
Proof.
  intros Hg Hb Hk Ek Hb0 bn Hbn. split.
  - intros Hne. destruct (gr_new _ _ _ _ _ Hg bn Hbn) as [E|Hf]; [right; congruence|left].
    destruct (io_map _ _ _ (gr_inode _ _ _ _ _ Hg) bn Hbn Hne) as [[Hr Hbit] _]. rewrite msb_dstart in Hr. cbn in Hr.
    destruct (Hb (imap (tv_disk V') di' bn) ltac:(lia) Hbit) as [E|E]; [|congruence].
    apply (io_inj _ _ _ (gr_inode _ _ _ _ _ Hg)); [done..|congruence].
  - intros [->|Hne]; [congruence|]. by rewrite (gr_map _ _ _ _ _ Hg).
Qed.

Lemma tight_new dk dk' di di' k :
  0 <= k < MAXFILE -> tight dk di (512 * k) ->
  (forall bn, 0 <= bn < MAXFILE -> imap dk' di' bn <> 0 <-> bn = k \/ imap dk di bn <> 0) ->
  (bptr di' <> 0 <-> NDIRECT <= k) -> tight dk' di' (512 * k + 1).
Proof.
  intros Hk [T1 _] Hm Hp. split.
  - intros bn Hbn. rewrite Hm, T1 by done. unfold BSIZE. lia.
  - rewrite Hp. unfold NDIRECT, BSIZE. lia.
Qed.

(** [iappend_block]: the file gets the block that holds byte [off], if it has not. *)
Record blocked (s : Mkfs.mk) (V : tview) (di : dinode) (off : Z) (s' : Mkfs.mk) (V' : tview) (di' : dinode) (a : Z) : Prop := Blocked {
  bk_rep : mrep s' V';
  bk_grown : grown msb V V' di di';
  bk_addr : imap (tv_disk V') di' (off / BSIZE) = a;
  bk_ne : a <> 0;
  bk_same : imap (tv_disk V) di (off / BSIZE) <> 0 -> V' = V /\ di' = di;
  bk_fresh : imap (tv_disk V) di (off / BSIZE) = 0 -> dat (tv_disk V') a = Some zeroes;
  bk_tight : tight (tv_disk V') di' (off + 1);
  bk_free : Mkfs.freeblock s' = Mkfs.freeblock s + (need (off + 1) - need off);
  bk_ino : Mkfs.freeinode s' = Mkfs.freeinode s
}.

Section block.
Context (s : Mkfs.mk) (V : tview) (di : dinode) (off : Z).
Context (HM : mrep s V) (HI : inode_ok msb (tv_disk V) di) (HT : tight (tv_disk V) di off).
Context (Hoff : 0 <= off < MAXFILE * BSIZE) (Hroom : Mkfs.freeblock s + (need (off + 1) - need off) <= 1000).

Lemma fbn_range : 0 <= off / BSIZE < MAXFILE.
Proof. apply in_file. done. Qed.

(** A block that is there. *)
Lemma blocked_mapped a :
  imap (tv_disk V) di (off / BSIZE) = a -> a <> 0 -> blocked s V di off s V di a.
Proof.
  intros Ea Hne. destruct (in_block off ltac:(lia)) as [E1 E2]. pose proof fbn_range as Hr.
  assert (off mod 512 <> 0) as Hm.
  { rewrite <- Ea in Hne. apply (tg_map _ _ _ HT _ Hr) in Hne. unfold BSIZE in *. lia. }
  split; try done.
  - apply grown_refl; [apply HM|done].
  - intros E. congruence.
  - by apply tight_same; [lia|..].
  - rewrite need_same by (done || lia). lia.
Qed.

(** A block that is missing is the next one. *)
Lemma unmapped_off : imap (tv_disk V) di (off / BSIZE) = 0 -> off = 512 * (off / 512).
Proof.
  intros E. destruct (in_block off ltac:(lia)) as [E1 E2]. pose proof fbn_range as Hr.
  destruct (decide (off / BSIZE * BSIZE < off)) as [Hlt|Hge]; [|unfold BSIZE in *; lia].
  by apply (tg_map _ _ _ HT _ Hr) in Hlt.
Qed.

Lemma free_block : Mkfs.freeblock s < 1000 ->
  dstart msb <= Mkfs.freeblock s < sb_size msb /\ bm_bit msb (tv_disk V) (Mkfs.freeblock s) = false.
Proof.
  intros Hlt. pose proof (mr_free _ _ HM). rewrite msb_dstart. cbn. split; [lia|]. rewrite (mr_bits _ _ HM) by lia. apply Z.ltb_irrefl.
Qed.

Lemma daddr_u32 k : (k < 13)%nat -> is_u32 (nth k (di_addrs di) 0).
Proof.
  intros Hk. pose proof (io_fields _ _ _ HI) as [_ _ _ _ _ Hl Ha].
  destruct (lookup_lt_is_Some_2 (di_addrs di) k) as [x Hx]; [lia|]. rewrite (nth_lookup_Some _ _ _ _ Hx).
  by apply (Forall_lookup_1 _ _ _ _ Ha Hx).
Qed.

Lemma iappend_direct :
  off / BSIZE < NDIRECT ->
  exists s' V' di' a, Mkfs.iappend_block di (off / BSIZE) s = Ok (di', a) s' /\ blocked s V di off s' V' di' a.
Proof.
  intros Hd. pose proof fbn_range as Hr. unfold Mkfs.iappend_block. destruct (Z.ltb_spec (off / BSIZE) NDIRECT); [|lia].
  set (k := off / BSIZE) in *. assert (imap (tv_disk V) di k = nth (Z.to_nat k) (di_addrs di) 0) as Em.
  { unfold imap. by destruct (Z.ltb_spec k NDIRECT); [|lia]. }
  assert (is_u32 (nth (Z.to_nat k) (di_addrs di) 0)) as Hu by (apply daddr_u32; unfold NDIRECT in *; lia).
  unfold Mkfs.daddr. rewrite (xint_id _ Hu), <- Em. destruct (Z.eqb_spec (imap (tv_disk V) di k) 0) as [E0|Hne].
  - pose proof (unmapped_off E0) as Eo. assert (off / 512 = k) as Ek by done.
    assert (need (off + 1) - need off = 1) as En.
    { rewrite Eo, Ek, need_new by lia. destruct (Z.eqb_spec k 12); [unfold NDIRECT in *; lia|lia]. }
    destruct (free_block ltac:(lia)) as [Hb Hf]. set (b := Mkfs.freeblock s) in *.
    destruct (next_block_ok s V HM ltac:(fold b; lia)) as (s' & E & HM' & Hs1 & Hs2). fold b in E, HM', Hs1.
    assert (is_u32 b) as Hbu by (unfold is_u32; rewrite msb_dstart in Hb; cbn in Hb; lia).
    destruct (grown_direct msb V di b (mr_ok _ _ HM) HI Hb Hf k ltac:(lia) E0) as [Hg Ei].
    exists s', (tv_alloc msb b V), (set_addr k b di), b. rewrite bind_assoc, (bind_ok _ _ _ _ _ E). unfold bind, ret.
    rewrite !(xint_id b) by done. change (Mkfs.set_daddr k b di) with (set_addr k b di). split.
    { do 2 f_equal. cbn [set_addr di_addrs]. rewrite nth_insert_eq; [by apply xint_id|].
      rewrite (do_len _ (io_fields _ _ _ HI)). unfold NDIRECT in *. lia. }
    split; try done; try lia.
    + rewrite msb_dstart in Hb. lia.
    + intros _. apply (alloc_zero msb V (mr_ok _ _ HM)). done.
    + rewrite Eo, Ek. apply (tight_new (tv_disk V) _ di); [done|by rewrite <- Ek, <- Eo| |].
      * apply (grown_only V _ di _ b k); try done; [|rewrite msb_dstart in Hb; lia].
        intros c Hc Hbit. rewrite (alloc_bits msb V (mr_ok _ _ HM)) in Hbit by done.
        apply orb_true_iff in Hbit as [Hbit|Hbit]; [left; by apply bool_decide_eq_true in Hbit|by right].
      * assert (bptr (set_addr k b di) = bptr di) as -> by (unfold bptr; cbn [set_addr di_addrs]; apply nth_insert_ne; unfold NDIRECT in *; lia).
        rewrite (tg_ind _ _ _ HT), Eo, Ek. unfold NDIRECT, BSIZE in *. lia.
  - exists s, V, di, (imap (tv_disk V) di k). split; [|by apply blocked_mapped]. unfold bind, ret.
    by rewrite (xint_id _ Hu), Em.
Qed.
End block.

(** An entry of the indirect block. *)
Section entry.
Context (s : Mkfs.mk) (V : tview) (di : dinode) (k : Z).
Context (HM : mrep s V) (HI : inode_ok msb (tv_disk V) di).
Context (Hk : NDIRECT <= k < MAXFILE) (Hp : bptr di <> 0).

Lemma ind_block : exists d, dat (tv_disk V) (bptr di) = Some d /\ is_block d /\ 59 <= bptr di < Mkfs.freeblock s /\
  imap (tv_disk V) di k = get32 d (4 * (k - NDIRECT)) /\ is_u32 (get32 d (4 * (k - NDIRECT))).
Proof.
  destruct (io_ind _ _ _ HI Hp) as [Hr Hb]. rewrite msb_dstart in Hr. cbn in Hr.
  destruct (proj2 (dat_Some (tv_disk V) (bptr di))) as [d Hd]; [rewrite (mr_dlen _ _ HM); lia|]. exists d.
  assert (is_block d) as Hblk.
  { unfold dat in Hd. destruct (_ <? 0); [done|]. by eapply (Forall_lookup_1 _ _ _ _ (g_blocks _ _ (fo_geo _ _ (mr_ok _ _ HM)))). }
  split; [done|]. split; [done|]. split; [|split; [|apply get32_range, Hblk]].
  - rewrite (mr_bits _ _ HM) in Hb by lia. apply Z.ltb_lt in Hb. lia.
  - unfold imap. destruct (Z.ltb_spec k NDIRECT); [lia|]. by rewrite (proj2 (Z.eqb_neq _ _) Hp), Hd.
Qed.

Lemma ptr_daddr : Mkfs.xint (Mkfs.daddr di NDIRECT) = bptr di.
Proof. apply xint_id, (daddr_u32 V di HI). unfold NDIRECT. lia. Qed.

Lemma entry_mapped :
  imap (tv_disk V) di k <> 0 -> Mkfs.iappend_entry di k s = Ok (imap (tv_disk V) di k) s.
Proof.
  intros Hne. destruct ind_block as (d & Hd & _ & Hr & Ei & Hu). pose proof (mr_free _ _ HM). unfold Mkfs.iappend_entry. rewrite ptr_daddr.
  rewrite (bind_ok _ _ _ _ _ (rsect_ok s V HM (bptr di) d ltac:(lia) ltac:(lia) Hd)). rewrite Ei in *.
  rewrite (proj2 (Z.eqb_neq _ _) Hne). unfold bind, ret. by rewrite xint_id.
Qed.

Lemma entry_new :
  imap (tv_disk V) di k = 0 -> Mkfs.freeblock s < 1000 ->
  exists s' V', Mkfs.iappend_entry di k s = Ok (Mkfs.freeblock s) s' /\ mrep s' V' /\ grown msb V V' di di /\
    imap (tv_disk V') di k = Mkfs.freeblock s /\ dat (tv_disk V') (Mkfs.freeblock s) = Some zeroes /\
    (forall bn, 0 <= bn < MAXFILE -> imap (tv_disk V') di bn <> 0 <-> bn = k \/ imap (tv_disk V) di bn <> 0) /\
    Mkfs.freeblock s' = Mkfs.freeblock s + 1 /\ Mkfs.freeinode s' = Mkfs.freeinode s.
Proof.
  intros E0 Hlt. destruct ind_block as (d & Hd & Hblk & Hr & Ei & Hu). pose proof (mr_free _ _ HM). unfold Mkfs.iappend_entry. rewrite ptr_daddr.
  rewrite (bind_ok _ _ _ _ _ (rsect_ok s V HM (bptr di) d ltac:(lia) ltac:(lia) Hd)). cbv zeta. rewrite E0 in Ei. rewrite <- Ei. cbn [Z.eqb].
  destruct (free_block s V HM Hlt) as [Hb Hf]. set (b := Mkfs.freeblock s) in *.
  destruct (next_block_ok s V HM Hlt) as (s1 & E1 & HM1 & F1 & F2). fold b in E1, HM1, F1.
  assert (is_u32 b) as Hbu by (unfold is_u32; rewrite msb_dstart in Hb; cbn in Hb; lia).
  destruct (grown_indirect msb V di b (mr_ok _ _ HM) HI Hb Hf k d Hk E0 Hp Hd) as (Hg & Ek & Hoth).
  set (o := 4 * (k - NDIRECT)) in *. destruct Hblk as [Hl H8]. unfold BSIZE in Hl. change MAXFILE with 140 in Hk. unfold NDIRECT in Hk.
  assert (is_block (put32 d o b)) as Hpb.
  { split; [rewrite length_put32; unfold o, NDIRECT, BSIZE; lia|by apply put32_u8]. }
  destruct (wsect_ok s1 _ HM1 (bptr di) (put32 d o b) Hpb ltac:(left; lia)) as (s2 & E2 & HM2 & G1 & G2).
  exists s2, (tv_put (bptr di) (put32 d o b) (tv_alloc msb b V)). split.
  - rewrite bind_assoc, (bind_ok _ _ _ _ _ E1), bind_assoc. rewrite !(xint_id b) by done.
    rewrite (bind_ok _ _ _ _ _ E2). unfold bind, ret. rewrite get32_put32_eq by (unfold o, NDIRECT; lia).
    by rewrite (u32_id b), xint_id.
  - split; [done|]. split; [done|]. split; [done|].
    split; [rewrite Hoth by lia; by apply (alloc_zero msb V (mr_ok _ _ HM))|]. split; [|lia].
    apply (grown_only V _ di di b k Hg); [|change MAXFILE with 140; lia|done|rewrite msb_dstart in Hb; lia].
    intros c Hc Hbit. cbn [tv_put tv_disk] in Hbit.
    rewrite bm_bit_data in Hbit; [|apply (mr_ok _ _ HM1)|rewrite msb_dstart; lia|done].
    rewrite (alloc_bits msb V (mr_ok _ _ HM)) in Hbit by done.
    apply orb_true_iff in Hbit as [Hbit|Hbit]; [left; by apply bool_decide_eq_true in Hbit|by right].
Qed.
End entry.

Section indirect.
Context (s : Mkfs.mk) (V : tview) (di : dinode) (off : Z).
Context (HM : mrep s V) (HI : inode_ok msb (tv_disk V) di) (HT : tight (tv_disk V) di off).
Context (Hoff : 0 <= off < MAXFILE * BSIZE) (Hroom : Mkfs.freeblock s + (need (off + 1) - need off) <= 1000).
Let k := off / BSIZE.
Context (Hk : NDIRECT <= k).

Lemma ind_range : NDIRECT <= k < MAXFILE.
Proof. pose proof (fbn_range off Hoff). unfold k in *. lia. Qed.

(** The indirect block is there. *)
Lemma indirect_have :
  bptr di <> 0 ->
  exists s' V' a, Mkfs.iappend_entry di k s = Ok a s' /\ blocked s V di off s' V' di a.
Proof.
  intros Hp. pose proof ind_range as Hr. destruct (decide (imap (tv_disk V) di k = 0)) as [E0|Hne].
  - pose proof (unmapped_off V di off HT Hoff E0) as Eo. change (off / 512) with k in Eo.
    pose proof (proj1 (tg_ind _ _ _ HT) Hp) as Hbig. unfold NDIRECT, BSIZE in Hbig.
    assert (need (off + 1) - need off = 1) as En by (rewrite Eo, need_new by (unfold NDIRECT in *; lia); destruct (Z.eqb_spec k 12); lia).
    destruct (entry_new s V di k HM HI Hr Hp E0 ltac:(lia)) as (s' & V' & E & HM' & Hg & Ei & Ez & Hall & F1 & F2).
    pose proof (mr_free _ _ HM). exists s', V', (Mkfs.freeblock s). split; [done|]. split; try done; try lia.
    rewrite Eo. apply (tight_new (tv_disk V) _ di); [unfold NDIRECT in *; lia|by rewrite <- Eo|done|]. unfold NDIRECT in *. lia.
  - exists s, V, (imap (tv_disk V) di k). split; [by apply entry_mapped|]. by apply blocked_mapped.
Qed.

Lemma iappend_indirect :
  exists s' V' di' a, Mkfs.iappend_block di k s = Ok (di', a) s' /\ blocked s V di off s' V' di' a.
Proof.
  pose proof ind_range as Hr. unfold Mkfs.iappend_block. destruct (Z.ltb_spec k NDIRECT); [lia|]. rewrite (ptr_daddr V di HI).
  destruct (Z.eqb_spec (bptr di) 0) as [Ep|Hp].
  - (* the indirect block is the next one, and its first entry the one after *)
    assert (off = 512 * 12 /\ k = 12) as [Eo Ek].
    { destruct (decide (NDIRECT * BSIZE < off)) as [Hlt|Hge]; [by apply (tg_ind _ _ _ HT) in Hlt|].
      unfold NDIRECT, k in *. destruct (in_block off ltac:(lia)). unfold BSIZE in *. lia. }
    assert (need (off + 1) - need off = 2) as En by (by rewrite Eo, need_new).
    destruct (free_block s V HM ltac:(lia)) as [Hb Hf]. set (b := Mkfs.freeblock s) in *.
    destruct (next_block_ok s V HM ltac:(fold b; lia)) as (s1 & E1 & HM1 & F1 & F2). fold b in E1, HM1, F1.
    assert (is_u32 b) as Hbu by (unfold is_u32; rewrite msb_dstart in Hb; cbn in Hb; lia).
    destruct (grown_ind msb V di b (mr_ok _ _ HM) HI Hb Hf Ep) as (Hg & Eb & Eall).
    set (V1 := tv_alloc msb b V) in *. set (di1 := set_addr NDIRECT b di) in *.
    assert (imap (tv_disk V) di k = 0) as E0.
    { destruct (decide (imap (tv_disk V) di k = 0)) as [|Hne]; [done|].
      apply (tg_map _ _ _ HT) in Hne; [unfold BSIZE in *; lia|unfold NDIRECT in *; lia]. }
    assert (bptr di1 <> 0) as Hp1 by (rewrite Eb; rewrite msb_dstart in Hb; lia).
    destruct (entry_new s1 V1 di1 k HM1 (gr_inode _ _ _ _ _ Hg) Hr Hp1) as (s2 & V2 & E2 & HM2 & Hg2 & Ei & Ez & Hall & G1 & G2).
    { rewrite Eall by (unfold NDIRECT in *; lia). done. }
    { lia. }
    exists s2, V2, di1, (Mkfs.freeblock s1). split.
    + rewrite bind_assoc, (bind_ok _ _ _ _ _ E1). unfold bind at 1, ret at 1. rewrite (xint_id b) by done.
      change (Mkfs.set_daddr NDIRECT b di) with di1. by rewrite (bind_ok _ _ _ _ _ E2).
    + split; try done; try lia.
      * eapply grown_trans; [exact Hg|exact Hg2|by rewrite msb_dstart].
      * pose proof (mr_free _ _ HM1). lia.
      * rewrite Eo. apply (tight_new (tv_disk V) _ di); [done|by rewrite <- Eo| |].
        -- intros bn Hbn. rewrite <- Ek, Hall, Eall by done. done.
        -- unfold NDIRECT. lia.
  - unfold bind at 1, ret at 1. destruct (indirect_have Hp) as (s' & V' & a & E & HB).
    exists s', V', di, a. rewrite (bind_ok _ _ _ _ _ E). done.
Qed.
End indirect.

Lemma iappend_block_ok s V di off :
  mrep s V -> inode_ok msb (tv_disk V) di -> tight (tv_disk V) di off -> 0 <= off < MAXFILE * BSIZE ->
  Mkfs.freeblock s + (need (off + 1) - need off) <= 1000 ->
  exists s' V' di' a, Mkfs.iappend_block di (off / BSIZE) s = Ok (di', a) s' /\ blocked s V di off s' V' di' a.
Proof.
  intros. destruct (decide (off / BSIZE < NDIRECT)); [by apply iappend_direct|]. apply iappend_indirect; try done. lia.
Qed.

(** * [iappend] *)

Lemma need_within off m : 0 <= off -> 0 < m <= 512 - off mod 512 -> need (off + m) = need (off + 1).
Proof.
  intros Ho Hm. destruct (in_block off Ho). unfold need.
  assert ((off + m + 511) / 512 = off / 512 + 1) as -> by (symmetry; apply (Z.div_unique _ _ _ (off mod 512 + m - 1)); lia).
  assert ((off + 1 + 511) / 512 = off / 512 + 1) as -> by (symmetry; apply (Z.div_unique _ _ _ (off mod 512)); lia).
  done.
Qed.

Lemma tight_within dk dk' di off m :
  0 <= off -> 0 < m <= 512 - off mod 512 -> (forall bn, imap dk' di bn = imap dk di bn) ->
  tight dk di (off + 1) -> tight dk' di (off + m).
Proof.
  intros Ho Hm He [T1 T2]. destruct (in_block off Ho). split.
  - intros bn Hbn. rewrite He, T1 by done. unfold BSIZE. lia.
  - rewrite T2. unfold NDIRECT, BSIZE. lia.
Qed.

(** The bytes after the first [n] are zero in the blocks that the file has. *)
Definition ztail (dk : list block) (di : dinode) (n : Z) : Prop :=
  forall k, n <= k < MAXFILE * BSIZE -> imap dk di (k / BSIZE) <> 0 -> fbyte dk di k = 0.

(** What [iappend_loop] leaves. *)
Record appended (s : Mkfs.mk) (V : tview) (di : dinode) (off : Z) (p : list Z) (s' : Mkfs.mk) (V' : tview) (di' : dinode) : Prop := Appended {
  ap_rep : mrep s' V';
  ap_wrote : wrote msb V di off p V' di';
  ap_tight : tight (tv_disk V') di' (off + Z.of_nat (length p));
  ap_tail : ztail (tv_disk V') di' (off + Z.of_nat (length p));
  ap_free : Mkfs.freeblock s' = Mkfs.freeblock s + (need (off + Z.of_nat (length p)) - need off);
  ap_ino : Mkfs.freeinode s' = Mkfs.freeinode s
}.

Lemma nth_zeroes k : nth k zeroes 0 = 0.
Proof.
  rewrite nth_lookup. unfold zeroes. destruct (_ !! _) as [x|] eqn:E; [|done]. by apply lookup_replicate in E as [-> _].
Qed.

(** A piece is stored in the block of byte [off]. *)
Lemma tail_turn V V1 di di' off p d :
  fsok msb V1 -> inode_ok msb (tv_disk V1) di' -> 0 <= off -> off + Z.of_nat (length p) <= MAXFILE * BSIZE ->
  (0 < length p)%nat -> Z.of_nat (length p) <= 512 - off mod 512 -> is_block d ->
  let a := imap (tv_disk V1) di' (off / BSIZE) in
  a <> 0 -> tight (tv_disk V1) di' (off + 1) -> dat (tv_disk V1) a = Some d -> ztail (tv_disk V) di off ->
  (imap (tv_disk V) di (off / BSIZE) <> 0 -> V1 = V /\ di' = di) ->
  (imap (tv_disk V) di (off / BSIZE) = 0 -> dat (tv_disk V1) a = Some zeroes) ->
  is_block (splice d (off - off / BSIZE * BSIZE) p) ->
  ztail (tv_disk (tv_put a (splice d (off - off / BSIZE * BSIZE) p) V1)) di' (off + Z.of_nat (length p)).
Proof.
  intros HO HI Ho Hmax Hlen Hfit [Hdl _] a Ha HT Hd HZ Hsame Hfr Hb k Hk Hm. pose proof (in_file off ltac:(lia)) as Hr.
  pose proof (in_file k ltac:(lia)) as Hkr. destruct (in_block off Ho) as [E1 E2], (in_block k ltac:(lia)) as [E3 E4].
  unfold a in Hm. rewrite (store_imap msb V1 di' (off / BSIZE)) in Hm by done. apply (tg_map _ _ _ HT _ Hkr) in Hm.
  assert (k / BSIZE = off / BSIZE) as Ek by (unfold BSIZE in *; lia).
  rewrite (store_byte msb V1 di' (off / BSIZE)) by (done || lia). rewrite decide_True by done.
  unfold BSIZE in *. unfold byte_at. rewrite nth_lookup, lookup_splice_out by lia. rewrite <- nth_lookup.
  destruct (decide (imap (tv_disk V) di (off / 512) = 0)) as [E0|Hne].
  - rewrite (Hfr E0) in Hd. injection Hd as <-. apply nth_zeroes.
  - destruct (Hsame Hne) as [-> ->]. unfold ztail, fbyte, BSIZE in HZ. specialize (HZ k ltac:(lia)). rewrite Ek in HZ.
    specialize (HZ Hne). fold a in HZ. rewrite Hd in HZ. exact HZ.
Qed.

(** One turn of the loop. *)
Lemma iappend_turn s V di off p :
  mrep s V -> inode_ok msb (tv_disk V) di -> tight (tv_disk V) di off -> ztail (tv_disk V) di off ->
  0 <= off -> off + Z.of_nat (length p) <= MAXFILE * BSIZE -> Forall is_u8 p ->
  (0 < length p)%nat -> Z.of_nat (length p) <= BSIZE - off mod BSIZE ->
  Mkfs.freeblock s + (need (off + Z.of_nat (length p)) - need off) <= 1000 ->
  exists s1 di' a buf s', Mkfs.iappend_block di (off / BSIZE) s = Ok (di', a) s1 /\ Mkfs.rsect a s1 = Ok buf s1 /\
    Mkfs.wsect a (splice buf (off - off / BSIZE * BSIZE) p) s1 = Ok tt s' /\ exists V', appended s V di off p s' V' di'.
Proof.
  intros HM HI HT HZ Ho Hmax Hu8 Hlen Hfit Hroom. unfold BSIZE in Hfit. rewrite (need_within off (Z.of_nat (length p))) in Hroom by lia.
  destruct (iappend_block_ok s V di off HM HI HT ltac:(lia) Hroom) as (s1 & V1 & di' & a & E & [HM1 Hg Ea Hne Hsame Hfr HT1 F1 F2]).
  pose proof (in_file off ltac:(lia)) as Hr. pose proof (gr_inode _ _ _ _ _ Hg) as HI1. pose proof (mr_free _ _ HM1).
  destruct (file_block msb V1 di' (off / BSIZE) (mr_ok _ _ HM1) HI1 Hr ltac:(congruence)) as (d & Hd & Hblk). rewrite Ea in Hd.
  destruct (io_map _ _ _ HI1 (off / BSIZE) Hr ltac:(congruence)) as [[Har Hab] _]. rewrite Ea, msb_dstart in *. cbn in Har.
  rewrite (mr_bits _ _ HM1) in Hab by lia. apply Z.ltb_lt in Hab.
  destruct (wrote_step msb V di off p V1 di' a d) as [Hb2 Hw]; try done; [apply HM|apply HM|].
  replace (off mod BSIZE) with (off - off / BSIZE * BSIZE) in * by (unfold BSIZE; destruct (in_block off Ho); lia).
  destruct (wsect_ok s1 V1 HM1 a _ Hb2 ltac:(left; lia)) as (s' & Ew & HM2 & G1 & G2).
  exists s1, di', a, d, s'. split; [done|]. split; [by apply (rsect_ok s1 V1 HM1); [lia|lia|]|]. split; [done|].
  exists (tv_put a (splice d (off - off / BSIZE * BSIZE) p) V1). split; try done.
  - apply (tight_within (tv_disk V1)); [done|unfold BSIZE in *; destruct (in_block off Ho); lia| |done].
    intros bn. rewrite <- Ea. apply (store_imap msb V1 di' (off / BSIZE)); try done; [apply HM1|congruence].
  - subst a. apply (tail_turn V V1 di di'); try done. apply HM1.
  - rewrite need_within by (unfold BSIZE in *; destruct (in_block off Ho); lia). lia.
  - congruence.
Qed.

Lemma iappend_loop_ok fuel s V di off p :
  mrep s V -> inode_ok msb (tv_disk V) di -> tight (tv_disk V) di off -> ztail (tv_disk V) di off ->
  0 <= off -> off + Z.of_nat (length p) <= MAXFILE * BSIZE -> Forall is_u8 p -> (length p < fuel)%nat ->
  Mkfs.freeblock s + (need (off + Z.of_nat (length p)) - need off) <= 1000 ->
  exists s' V' di', Mkfs.iappend_loop di off p (Z.of_nat (length p)) fuel s = Ok (di', off + Z.of_nat (length p)) s' /\
    appended s V di off p s' V' di'.
Proof.
  revert s V di off p. induction fuel as [|fl IH]; intros s V di off p HM HI HT HZ Ho Hmax Hu8 Hf Hroom; [lia|].
  cbn [Mkfs.iappend_loop]. destruct (Z.ltb_spec 0 (Z.of_nat (length p))) as [Hpos|Hz]; cbn [negb].
  2:{ assert (p = []) as -> by (apply nil_length_inv; lia). exists s, V, di. simpl length. rewrite Z.add_0_r.
      split; [done|]. split; try done; [by apply wrote_nil; [apply HM|apply HM|]| | |]; simpl length; rewrite Z.add_0_r; [done|done|lia]. }
  destruct (in_block off Ho) as [Ed Em]. change (MAXFILE * BSIZE) with 71680 in *.
  assert (off / BSIZE < MAXFILE) as Hlt by (unfold BSIZE; change MAXFILE with 140; lia).
  unfold bind at 1, Mkfs.assert at 1. rewrite (proj2 (Z.ltb_lt _ _) Hlt). unfold ret at 1.
  assert (u32 ((off / BSIZE + 1) * BSIZE - off) = 512 - off mod 512) as -> by (unfold BSIZE; rewrite u32_small; lia).
  set (m := Z.min (Z.of_nat (length p)) (512 - off mod 512)). set (q := take (Z.to_nat m) p).
  assert (Z.of_nat (length q) = m) as Hq by (unfold q; rewrite length_take; lia).
  assert (Z.of_nat (length (drop (Z.to_nat m) p)) = Z.of_nat (length p) - m) as Hrest by (rewrite length_drop; lia).
  pose proof (need_mono (off + m) (off + Z.of_nat (length p)) ltac:(lia)).
  destruct (iappend_turn s V di off q) as (s1 & di1 & a & buf & s2 & E1 & E2 & E3 & V2 & [HM2 Hw HT2 HZ2 F1 F2]); try done;
    [change (MAXFILE * BSIZE) with 71680; lia|by apply Forall_take|lia|unfold BSIZE; lia|rewrite Hq; lia|].
  rewrite (bind_ok _ _ _ _ _ E1), (bind_ok _ _ _ _ _ E2), (bind_ok _ _ _ _ _ E3). fold q. rewrite u32_small by lia. rewrite <- Hrest.
  rewrite Hq in HT2, HZ2, F1.
  destruct (IH s2 V2 di1 (off + m) (drop (Z.to_nat m) p)) as (s' & V' & di' & E & [HM' Hw' HT' HZ' F1' F2']); try done;
    [apply Hw|lia|lia|by apply Forall_drop|lia|rewrite Hrest; replace (off + m + (Z.of_nat (length p) - m)) with (off + Z.of_nat (length p)) by lia; lia|].
  rewrite Hrest in *. replace (off + m + (Z.of_nat (length p) - m)) with (off + Z.of_nat (length p)) in * by lia.
  exists s', V', di'. split; [done|]. split; [done| |done|done|lia|congruence].
  rewrite <- (take_drop (Z.to_nat m) p). eapply wrote_app; [done| |by rewrite msb_dstart|exact Hw|by fold q; rewrite Hq].
  rewrite take_drop. change (MAXFILE * BSIZE) with 71680. lia.
Qed.

(** * The files of the image *)

(** Inode [i + 1] of the view. *)
Definition fdi (V : tview) (i : nat) : dinode := disk_inode msb (tv_disk V) (Z.of_nat i + 1).

(** A file of type [t] with the bytes [c]. *)
Record is_file (V : tview) (di : dinode) (t : Z) (c : list Z) : Prop := IsFile {
  if_inode : inode_ok msb (tv_disk V) di;
  if_tight : tight (tv_disk V) di (Z.of_nat (length c));
  if_tail : ztail (tv_disk V) di (Z.of_nat (length c));
  if_content : content (tv_disk V) di = c;
  if_size : di_size di = Z.of_nat (length c);
  if_type : di_type di = t;
  if_nlink : di_nlink di = 1
}.

(** The inodes in use are the files [cs], no two of them share a block, and the
    other inodes are free. *)
Record finv (V : tview) (cs : list (Z * list Z)) : Prop := FInv {
  fi_file : forall i t c, cs !! i = Some (t, c) -> is_file V (fdi V i) t c;
  fi_apart : forall i j n, (i < length cs)%nat -> (j < length cs)%nat -> i <> j ->
    owns (tv_disk V) (fdi V i) n -> ~ owns (tv_disk V) (fdi V j) n;
  fi_free : forall j, (length cs <= j < 199)%nat -> di_type (fdi V j) = 0;
  fi_count : (length cs <= 199)%nat
}.

Definition needs (cs : list (Z * list Z)) : Z := foldr (fun f n => need (Z.of_nat (length f.2)) + n) 0 cs.

Definition minv (s : Mkfs.mk) (cs : list (Z * list Z)) : Prop :=
  exists V, mrep s V /\ finv V cs /\ Mkfs.freeinode s = 1 + Z.of_nat (length cs) /\ Mkfs.freeblock s = 59 + needs cs.

Lemma needs_insert cs i t c t' c' :
  cs !! i = Some (t, c) ->
  needs (<[i := (t', c')]> cs) = needs cs - need (Z.of_nat (length c)) + need (Z.of_nat (length c')).
Proof.
  revert i. induction cs as [|f cs IH]; intros [|i] E; simpl in *; try done; [injection E as ->; simpl; lia|].
  rewrite (IH i E). lia.
Qed.

Lemma needs_app cs f : needs (cs ++ [f]) = needs cs + need (Z.of_nat (length f.2)).
Proof. induction cs as [|g cs IH]; simpl; [lia|]. rewrite IH. lia. Qed.

(** An inode whose blocks stay keeps its map and its blocks. *)
Lemma imap_frame dk dk' dj :
  (bptr dj <> 0 -> dat dk' (bptr dj) = dat dk (bptr dj)) -> forall bn, imap dk' dj bn = imap dk dj bn.
Proof.
  intros H bn. unfold imap. destruct (_ <? _); [done|]. destruct (Z.eqb_spec (bptr dj) 0); [done|]. by rewrite H.
Qed.

Lemma owns_frame dk dk' dj n : (forall bn, imap dk' dj bn = imap dk dj bn) -> owns dk' dj n <-> owns dk dj n.
Proof. intros H. unfold owns. by setoid_rewrite H. Qed.

Lemma tight_frame dk dk' dj m : (forall bn, imap dk' dj bn = imap dk dj bn) -> tight dk dj m -> tight dk' dj m.
Proof. intros H [T1 T2]. split; [|done]. intros bn Hbn. by rewrite H, T1. Qed.

(** Another file, while blocks in use that are not its own are written. *)
Lemma is_file_frame V V' dj t c :
  is_file V dj t c -> (forall n, owns (tv_disk V) dj n -> dat (tv_disk V') n = dat (tv_disk V) n) ->
  (forall c, 0 <= c < 1000 -> bm_bit msb (tv_disk V) c = true -> bm_bit msb (tv_disk V') c = true) ->
  is_file V' dj t c /\ forall n, owns (tv_disk V') dj n <-> owns (tv_disk V) dj n.
Proof.
  intros [F1 F2 FZ F3 F4 F5 F6] Hd Hb.
  destruct (inode_frame msb (tv_disk V) (tv_disk V') dj) as (G1 & _ & G3 & G4); try done.
  assert (forall bn, imap (tv_disk V') dj bn = imap (tv_disk V) dj bn) as Em.
  { apply imap_frame. intros Hp. apply Hd. split; [done|by left]. }
  split; [|done]. split; try done; [by eapply tight_frame| |congruence].
  intros k Hk. rewrite Em. intros Hm. rewrite <- (FZ k Hk Hm). unfold fbyte. rewrite Em, Hd; [done|].
  split; [done|]. right. exists (k / BSIZE). split; [apply in_file; lia|done].
Qed.

(** [winode] leaves every file. *)
Lemma is_file_winode V m di dj t c :
  fsok msb V -> 0 <= m < 200 -> is_file V dj t c ->
  is_file (tv_inode msb m di V) dj t c /\
  forall n, owns (tv_disk (tv_inode msb m di V)) dj n <-> owns (tv_disk V) dj n.
Proof.
  intros HO Hm HJ. apply (is_file_frame V); [done| |].
  - intros n Hn. apply (tv_inode_other msb V HO); [done|].
    destruct (owns_dblock msb _ _ _ (if_inode _ _ _ _ HJ) Hn) as [Hr _]. rewrite msb_dstart in Hr. cbn. lia.
  - intros b Hb Hbit. unfold bm_bit, bm_byte. rewrite (tv_inode_other msb V HO); [done|done|].
    apply (BBLOCK_range msb _ (fo_geo _ _ HO)). done.
Qed.

Section append.
Context (V V' : tview) (cs : list (Z * list Z)) (i : nat) (t : Z) (c p : list Z) (di' : dinode).
Context (HO : fsok msb V) (HF : finv V cs) (Hi : cs !! i = Some (t, c)).
Context (Hw : wrote msb V (fdi V i) (Z.of_nat (length c)) p V' di').
Context (HT : tight (tv_disk V') di' (Z.of_nat (length c) + Z.of_nat (length p))).
Context (HZ : ztail (tv_disk V') di' (Z.of_nat (length c) + Z.of_nat (length p))).
Context (Hmax : Z.of_nat (length c) + Z.of_nat (length p) <= MAXFILE * BSIZE).
Let inum := Z.of_nat i + 1.
Let di'' := set_size (Z.of_nat (length c) + Z.of_nat (length p)) di'.
Let V'' := tv_inode msb inum di'' V'.

Lemma app_inum (j : nat) : (j < 199)%nat -> 0 <= Z.of_nat j + 1 < sb_ninodes msb.
Proof. intros Hj. cbn. lia. Qed.

Lemma app_lt (j : nat) : (j < length cs)%nat -> (j < 199)%nat.
Proof. intros Hj. pose proof (fi_count _ _ HF). lia. Qed.

Lemma app_this : is_file V' di'' t (c ++ p).
Proof.
  destruct (fi_file _ _ HF i t c Hi) as [F1 F2 FZ F3 F4 F5 F6].
  destruct (wrote_content msb V (fdi V i) (Z.of_nat (length c)) p V' di' (Z.of_nat (length c) + Z.of_nat (length p))) as [Hc HI''];
    [done|done|lia|lia|done|].
  destruct (wr_meta _ _ _ _ _ _ _ Hw) as (M1 & _ & _ & M4 & _).
  split; try done.
  - rewrite length_app, Nat2Z.inj_add. destruct HT as [T1 T2]. by split.
  - rewrite length_app, Nat2Z.inj_add. exact HZ.
  - unfold di''. rewrite Hc, F3. unfold splice. rewrite Nat2Z.id, take_ge, drop_ge by lia. by rewrite app_nil_r.
  - cbn. rewrite length_app. lia.
  - cbn. congruence.
  - cbn. congruence.
Qed.

Lemma app_disk j : (j < 199)%nat -> fdi V'' j = if decide (j = i) then di'' else fdi V j.
Proof.
  intros Hj. pose proof (lookup_lt_Some _ _ _ Hi) as Hil. unfold fdi, V''.
  rewrite disk_inode_put; [|apply Hw|by apply app_inum, app_lt|by apply app_inum|apply app_this].
  destruct (decide (j = i)) as [->|Hne]; [by rewrite decide_True|]. rewrite decide_False by (unfold inum; lia).
  apply (wrote_inodes msb V (fdi V i) _ _ _ _ _ HO Hw). by apply app_inum.
Qed.

Lemma app_winode dj t0 c0 :
  is_file V' dj t0 c0 -> is_file V'' dj t0 c0 /\ forall n, owns (tv_disk V'') dj n <-> owns (tv_disk V') dj n.
Proof. apply is_file_winode; [apply Hw|]. apply app_inum, app_lt. by eapply lookup_lt_Some. Qed.

Lemma app_other j tj cj :
  j <> i -> cs !! j = Some (tj, cj) ->
  is_file V'' (fdi V j) tj cj /\ (forall n, owns (tv_disk V'') (fdi V j) n <-> owns (tv_disk V) (fdi V j) n).
Proof.
  intros Hne Hj. pose proof (lookup_lt_Some _ _ _ Hi). pose proof (lookup_lt_Some _ _ _ Hj).
  pose proof (fi_file _ _ HF j tj cj Hj) as HJ.
  destruct (is_file_frame V V' _ _ _ HJ) as [HJ' Ho'].
  - intros n Hn. apply (wr_frame _ _ _ _ _ _ _ Hw). right. split; [by eapply owns_dblock; [apply HJ|]|].
    intros Hown. by apply (fi_apart _ _ HF i j n).
  - apply Hw.
  - destruct (app_winode _ _ _ HJ') as [HJ'' Ho'']. split; [done|]. intros n. by rewrite Ho''.
Qed.

Lemma app_finv : finv V'' (<[i := (t, c ++ p)]> cs).
Proof.
  pose proof (lookup_lt_Some _ _ _ Hi) as Hil. destruct (app_winode _ _ _ app_this) as [HT'' Hown].
  assert (forall j n, (j < length cs)%nat -> j <> i -> owns (tv_disk V'') di'' n -> ~ owns (tv_disk V'') (fdi V j) n) as Hdis.
  { intros j n Hj Hne Hn Hjn. destruct (lookup_lt_is_Some_2 cs j Hj) as [[tj cj] Ej].
    destruct (app_other j tj cj Hne Ej) as [_ Eo]. rewrite Eo in Hjn. rewrite Hown in Hn.
    change (owns (tv_disk V') di' n) in Hn. destruct (wr_new _ _ _ _ _ _ _ Hw n Hn) as [Hn'|Hf]; [by apply (fi_apart _ _ HF i j n)|].
    destruct (owns_dblock msb _ _ _ (if_inode _ _ _ _ (fi_file _ _ HF j tj cj Ej)) Hjn). congruence. }
  split.
  - intros j tj cj Hj. destruct (decide (j = i)) as [->|Hne].
    + rewrite list_lookup_insert_eq in Hj by done. injection Hj as <- <-. rewrite app_disk, decide_True by (done || by apply app_lt). done.
    + rewrite list_lookup_insert_ne in Hj by done. rewrite app_disk, decide_False by (done || by eapply app_lt, lookup_lt_Some).
      by apply app_other.
  - rewrite length_insert. intros j k n Hj Hk Hjk. rewrite !app_disk by by apply app_lt.
    destruct (decide (j = i)) as [->|Hji]; destruct (decide (k = i)) as [->|Hki]; [done|by apply Hdis| |].
    + intros Hn Hn'. by apply (Hdis j n).
    + destruct (lookup_lt_is_Some_2 cs j Hj) as [[tj cj] Ej], (lookup_lt_is_Some_2 cs k Hk) as [[tk ck] Ek].
      rewrite (proj2 (app_other j tj cj Hji Ej)), (proj2 (app_other k tk ck Hki Ek)). by apply HF.
  - rewrite length_insert. intros j Hj. rewrite app_disk, decide_False by lia. by apply HF.
  - rewrite length_insert. apply HF.
Qed.
End append.

(** ** The calls *)

Lemma iappend_ok s cs i t c p :
  minv s cs -> cs !! i = Some (t, c) -> Forall is_u8 p -> Z.of_nat (length (c ++ p)) <= MAXFILE * BSIZE ->
  59 + needs (<[i := (t, c ++ p)]> cs) <= 1000 ->
  exists s', Mkfs.iappend (Z.of_nat i + 1) p (Z.of_nat (length p)) s = Ok tt s' /\ minv s' (<[i := (t, c ++ p)]> cs).
Proof.
  intros (V & HM & HF & Ei & Eb) Hi Hp Hmax Hroom. pose proof (lookup_lt_Some _ _ _ Hi) as Hil. pose proof (fi_count _ _ HF).
  rewrite (needs_insert _ _ _ _ _ _ Hi) in *. rewrite length_app, Nat2Z.inj_add in *.
  destruct (fi_file _ _ HF i t c Hi) as [F1 F2 FZ F3 F4 F5 F6]. unfold Mkfs.iappend.
  rewrite (bind_ok _ _ _ _ _ (rinode_ok s V HM (Z.of_nat i + 1) ltac:(lia))). fold (fdi V i).
  change (MAXFILE * BSIZE) with 71680 in *.
  rewrite F4, xint_id by (unfold is_u32; lia).
  destruct (iappend_loop_ok (S (Z.to_nat (Z.of_nat (length p)))) s V (fdi V i) (Z.of_nat (length c)) p HM F1 F2 FZ ltac:(lia) Hmax Hp ltac:(lia) ltac:(lia))
    as (s1 & V1 & di1 & E1 & [HM1 Hw HT HZ G1 G2]).
  rewrite (bind_ok _ _ _ _ _ E1). rewrite xint_id by (unfold is_u32; lia).
  set (n := Z.of_nat (length c) + Z.of_nat (length p)) in *.
  destruct (winode_ok s1 V1 HM1 (Z.of_nat i + 1) (set_size n di1)) as (s2 & E2 & HM2 & K1 & K2);
    [lia|apply (io_fields _ _ _ (wr_inode _ _ _ _ _ _ _ Hw))|].
  exists s2. split; [exact E2|]. exists (tv_inode msb (Z.of_nat i + 1) (set_size n di1) V1). split; [done|].
  split; [apply (app_finv V V1); try done; apply HM|]. rewrite length_insert, (needs_insert _ _ _ _ _ _ Hi), length_app, Nat2Z.inj_add. fold n. lia.
Qed.

(** An inode that has just been allocated. *)
Definition new_inode (t : Z) : dinode := Dinode t 0 0 1 0 (replicate 13 0).

Lemma new_imap dk t bn : imap dk (new_inode t) bn = 0.
Proof. exact (empty_imap dk bn). Qed.

Lemma new_file V t : is_i16 t -> is_file V (new_inode t) t [].
Proof.
  intros Ht. split; try done.
  - split; try (intros; rewrite ?new_imap in *; done).
    + split; try (unfold is_i16, is_u32 in *; simpl; lia). repeat constructor; unfold is_u32; lia.
    + intros bn H0 H1. simpl in H1. unfold BSIZE in *. lia.
  - split; [|done]. intros bn Hbn. rewrite new_imap. unfold BSIZE. simpl. lia.
  - intros k Hk. by rewrite new_imap.
Qed.

Lemma ialloc_ok s cs t :
  minv s cs -> (length cs < 199)%nat -> is_i16 t -> is_u16 t ->
  exists s', Mkfs.ialloc t s = Ok (Z.of_nat (length cs) + 1) s' /\ minv s' (cs ++ [(t, [])]).
Proof.
  intros (V & HM & HF & Ei & Eb) Hlt Ht Ht2. set (m := Z.of_nat (length cs) + 1).
  unfold Mkfs.ialloc, Mkfs.next_inode, bind at 1 2 3, gets, modify, ret. rewrite Ei. replace (1 + Z.of_nat (length cs)) with m by lia.
  rewrite (xshort_id t) by done. change (Mkfs.xshort 1) with 1. change (Mkfs.xint 0) with 0. fold (new_inode t).
  set (s1 := Mkfs.set_freeinode (u32 (m + 1)) s).
  assert (mrep s1 V) as HM1 by (destruct HM; by split).
  destruct (winode_ok s1 V HM1 m (new_inode t) ltac:(lia) eq_refl) as (s2 & E2 & HM2 & K1 & K2).
  rewrite (bind_ok _ _ _ _ _ E2). exists s2. split; [done|]. exists (tv_inode msb m (new_inode t) V). split; [done|].
  assert (0 <= m < 200) as Hm by lia. pose proof (mr_ok _ _ HM) as HO.
  assert (forall j, (j < 199)%nat ->
    fdi (tv_inode msb m (new_inode t) V) j = if decide (j = length cs) then new_inode t else fdi V j) as Hd.
  { intros j Hj. unfold fdi. rewrite disk_inode_put; [|done|cbn; lia|cbn; lia|apply (new_file V t Ht)].
    unfold m. destruct (decide (j = length cs)) as [->|Hne]; [by rewrite decide_True|by rewrite decide_False by lia]. }
  assert (forall j tj cj, cs !! j = Some (tj, cj) ->
    is_file (tv_inode msb m (new_inode t) V) (fdi V j) tj cj /\
    forall n, owns (tv_disk (tv_inode msb m (new_inode t) V)) (fdi V j) n <-> owns (tv_disk V) (fdi V j) n) as Hold.
  { intros j tj cj Hj. by apply is_file_winode, HF. }
  assert (forall dk n, ~ owns dk (new_inode t) n) as Hnone.
  { intros dk n [Hn [E|(bn & _ & E)]]; [done|]. rewrite new_imap in E. done. }
  split; [split|].
  - intros j tj cj Hj. rewrite Hd by (apply lookup_lt_Some in Hj; rewrite length_app in Hj; simpl in Hj; lia).
    destruct (decide (j = length cs)) as [->|Hne].
    + rewrite lookup_app_r, Nat.sub_diag in Hj by done. injection Hj as <- <-. by apply new_file.
    + apply lookup_lt_Some in Hj as Hjl. rewrite length_app in Hjl. simpl in Hjl. rewrite lookup_app_l in Hj by lia. by apply Hold.
  - rewrite length_app. simpl. intros j k n Hj Hk Hjk. rewrite !Hd by lia.
    destruct (decide (j = length cs)) as [->|Hne]; [intros Hn; by apply Hnone in Hn|].
    destruct (decide (k = length cs)) as [->|Hne']; [intros _; apply Hnone|].
    destruct (lookup_lt_is_Some_2 cs j ltac:(lia)) as [[tj cj] Ej], (lookup_lt_is_Some_2 cs k ltac:(lia)) as [[tk ck] Ek].
    rewrite (proj2 (Hold j tj cj Ej)), (proj2 (Hold k tk ck Ek)). apply HF; [lia|lia|done].
  - rewrite length_app. cbn [length]. intros j Hj. rewrite Hd, decide_False by lia. apply HF. lia.
  - rewrite length_app. simpl. lia.
  - rewrite needs_app, length_app. cbn [snd length]. change (need (Z.of_nat 0)) with 0. split; [|cbn in K1; lia].
    rewrite K2. cbn. rewrite u32_small by lia. simpl. lia.
Qed.

(** ** The arguments *)

Lemma need_pos n : 0 <= n -> 0 <= need n.
Proof. intros. rewrite <- need_0. apply need_mono. lia. Qed.

Lemma needs_apps cs fs : needs (cs ++ fs) = needs cs + needs fs.
Proof. induction cs as [|g cs IH]; simpl; [lia|]. rewrite IH. lia. Qed.

Lemma needs_pos cs : 0 <= needs cs.
Proof. induction cs as [|g cs IH]; simpl; [lia|]. pose proof (need_pos (Z.of_nat (length g.2)) ltac:(lia)). lia. Qed.

Lemma append_reads_ok reads s cs i t c :
  minv s cs -> cs !! i = Some (t, c) -> Forall is_u8 (concat reads) ->
  Z.of_nat (length (c ++ concat reads)) <= MAXFILE * BSIZE ->
  59 + needs (<[i := (t, c ++ concat reads)]> cs) <= 1000 ->
  exists s', Mkfs.append_reads (Z.of_nat i + 1) reads s = Ok tt s' /\ minv s' (<[i := (t, c ++ concat reads)]> cs).
Proof.
  revert s cs c. induction reads as [|r reads IH]; intros s cs c HM Hi Hu Hmax Hroom; cbn [Mkfs.append_reads concat] in *.
  - exists s. rewrite app_nil_r, list_insert_id by done. done.
  - apply Forall_app in Hu as [Hr Hu]. rewrite app_assoc in *. pose proof (lookup_lt_Some _ _ _ Hi) as Hl.
    rewrite (needs_insert _ _ _ _ _ _ Hi) in Hroom.
    pose proof (need_mono (Z.of_nat (length (c ++ r))) (Z.of_nat (length ((c ++ r) ++ concat reads))) ltac:(rewrite (length_app (c ++ r)); lia)).
    destruct (iappend_ok s cs i t c r HM Hi Hr) as (s1 & E1 & HM1).
    { rewrite (length_app (c ++ r)) in Hmax. lia. }
    { rewrite (needs_insert _ _ _ _ _ _ Hi). lia. }
    rewrite (bind_ok _ _ _ _ _ E1).
    destruct (IH s1 _ (c ++ r) HM1 (list_lookup_insert_eq _ _ _ Hl) Hu Hmax) as (s2 & E2 & HM2).
    { rewrite list_insert_insert_eq, (needs_insert _ _ _ _ _ _ Hi). lia. }
    exists s2. split; [done|]. by rewrite list_insert_insert_eq in HM2.
Qed.

(** The name and the bytes of the file of an argument. *)
Definition arg_name (a : Mkfs.arg) : list Z :=
  match Mkfs.a_name a with c :: n => if c =? 95 then n else c :: n | [] => [] end.
Definition arg_data (a : Mkfs.arg) : list Z := concat (default [] (Mkfs.a_reads a)).

Record arg_ok (a : Mkfs.arg) : Prop := ArgOk {
  ao_slash : SLASH ∉ Mkfs.a_name a;
  ao_open : is_Some (Mkfs.a_reads a);
  ao_name : Forall is_u8 (arg_name a);
  ao_data : Forall is_u8 (arg_data a);
  ao_size : Z.of_nat (length (arg_data a)) <= MAXFILE * BSIZE
}.

(** The directory entries of the arguments, from inode number [k] on, the bytes of
    directory entries, and the files. *)
Fixpoint arg_entries (k : Z) (args : list Mkfs.arg) : list (Z * list Z) :=
  match args with
  | [] => []
  | a :: args => (k, arg_name a) :: arg_entries (k + 1) args
  end.
Definition entries (es : list (Z * list Z)) : list Z := es ≫= (fun e => Mkfs.dirent e.1 e.2).
Definition arg_files (args : list Mkfs.arg) : list (Z * list Z) := (fun a => (T_FILE, arg_data a)) <$> args.

Lemma length_dirent k n : length (Mkfs.dirent k n) = 16%nat.
Proof. unfold Mkfs.dirent, mk_dirent. rewrite length_app, length_enc, length_strncpy. done. Qed.

Lemma dirent_u8 k n : Forall is_u8 n -> Forall is_u8 (Mkfs.dirent k n).
Proof. intros Hn. unfold Mkfs.dirent, mk_dirent. apply Forall_app. split; [apply enc_u8|by apply strncpy_u8]. Qed.

Lemma set_last {A} (a x y : A) l : <[S (length l) := y]> (a :: l ++ [x]) = a :: l ++ [y].
Proof. change (a :: <[length l := y]> (l ++ [x]) = a :: l ++ [y]). by rewrite insert_app_r_alt, Nat.sub_diag. Qed.

(** [add_file]: an inode, its entry in the root, and its content. *)
Lemma add_file_ok s R fs a :
  minv s ((T_DIR, R) :: fs) -> arg_ok a -> (length fs < 198)%nat ->
  Z.of_nat (length R) + 16 <= MAXFILE * BSIZE ->
  59 + need (Z.of_nat (length R) + 16) + needs fs + need (Z.of_nat (length (arg_data a))) <= 1000 ->
  exists s', Mkfs.add_file ROOTINO a s = Ok tt s' /\
    minv s' ((T_DIR, R ++ Mkfs.dirent (Z.of_nat (length fs) + 2) (arg_name a)) :: fs ++ [(T_FILE, arg_data a)]).
Proof.
  intros HM [Hs [rs Hrs] Hn Hd Hz] Hc Hmax Hroom. unfold Mkfs.add_file. rewrite bool_decide_true by done.
  unfold bind at 1, Mkfs.assert, ret at 1. rewrite Hrs. fold (arg_name a).
  assert (concat rs = arg_data a) as Ers by (unfold arg_data; by rewrite Hrs).
  destruct (ialloc_ok s _ T_FILE HM) as (s1 & E1 & HM1); [simpl; lia|unfold is_i16, T_FILE; lia|unfold is_u16, T_FILE; lia|].
  rewrite (bind_ok _ _ _ _ _ E1). cbn [length] in *. replace (Z.of_nat (S (length fs)) + 1) with (Z.of_nat (length fs) + 2) by lia.
  set (de := Mkfs.dirent _ _). assert (length de = 16%nat) as Hde by apply length_dirent.
  pose proof (need_pos (Z.of_nat (length (arg_data a))) ltac:(lia)).
  destruct (iappend_ok s1 ((T_DIR, R) :: fs ++ [(T_FILE, [])]) 0 T_DIR R de) as (s2 & E2 & HM2); try done.
  { by apply dirent_u8. }
  { rewrite length_app, Hde. lia. }
  { cbn [insert list_insert needs foldr snd]. fold (needs (fs ++ [(T_FILE, [])])). rewrite length_app, Hde, needs_app. cbn [snd length].
    replace (Z.of_nat (length R + 16)) with (Z.of_nat (length R) + 16) by lia. change (need (Z.of_nat 0)) with 0. lia. }
  rewrite Hde in E2. change (Z.of_nat 0 + 1) with ROOTINO in E2. change (Z.of_nat 16) with DIRENT in E2.
  rewrite (bind_ok _ _ _ _ _ E2). cbn [insert list_insert] in HM2.
  destruct (append_reads_ok rs s2 ((T_DIR, R ++ de) :: fs ++ [(T_FILE, [])]) (S (length fs)) T_FILE []) as (s3 & E3 & HM3).
  - done.
  - change ((fs ++ [(T_FILE, [] : list Z)]) !! length fs = Some (T_FILE, [])). by rewrite lookup_app_r, Nat.sub_diag.
  - by rewrite Ers.
  - simpl app. by rewrite Ers.
  - rewrite set_last. cbn [needs foldr snd app]. fold (needs (fs ++ [(T_FILE, concat rs)])). rewrite needs_app, length_app, Hde, Ers. cbn [snd].
    replace (Z.of_nat (length R + 16)) with (Z.of_nat (length R) + 16) by lia. lia.
  - replace (Z.of_nat (S (length fs)) + 1) with (Z.of_nat (length fs) + 2) in E3 by lia. exists s3. split; [done|].
    by rewrite set_last, app_nil_l, Ers in HM3.
Qed.

Lemma add_files_ok args s R fs :
  minv s ((T_DIR, R) :: fs) -> Forall arg_ok args -> (length fs + length args <= 198)%nat ->
  Z.of_nat (length R) + 16 * Z.of_nat (length args) <= MAXFILE * BSIZE ->
  59 + need (Z.of_nat (length R) + 16 * Z.of_nat (length args)) + needs fs + needs (arg_files args) <= 1000 ->
  exists s', Mkfs.add_files ROOTINO args s = Ok tt s' /\
    minv s' ((T_DIR, R ++ entries (arg_entries (Z.of_nat (length fs) + 2) args)) :: fs ++ arg_files args).
Proof.
  revert s R fs. induction args as [|a args IH]; intros s R fs HM Ha Hc Hmax Hroom; cbn [Mkfs.add_files arg_entries].
  - exists s. cbn. by rewrite !app_nil_r.
  - apply Forall_cons in Ha as [Ha Has]. cbn [arg_files fmap list_fmap] in *. fold (arg_files args) in *.
    cbn [needs foldr snd] in Hroom. fold (needs (arg_files args)) in Hroom. cbn [length] in *.
    pose proof (needs_pos (arg_files args)).
    pose proof (need_mono (Z.of_nat (length R) + 16) (Z.of_nat (length R) + 16 * Z.of_nat (S (length args))) ltac:(lia)).
    destruct (add_file_ok s R fs a HM Ha) as (s1 & E1 & HM1); [lia|lia|lia|].
    rewrite (bind_ok _ _ _ _ _ E1).
    destruct (IH s1 _ _ HM1 Has) as (s2 & E2 & HM2).
    + rewrite length_app. simpl. lia.
    + rewrite length_app, length_dirent. lia.
    + rewrite length_app, length_dirent, needs_app. cbn [snd].
      replace (Z.of_nat (length R + 16) + 16 * Z.of_nat (length args)) with (Z.of_nat (length R) + 16 * Z.of_nat (S (length args))) by lia. lia.
    + exists s2. split; [done|]. unfold entries in *. rewrite bind_cons. rewrite length_app in HM2. simpl length in HM2. rewrite <- !app_assoc in HM2. cbn [app fst snd] in *.
      by replace (Z.of_nat (length fs + 1) + 2) with (Z.of_nat (length fs) + 2 + 1) in HM2 by lia.
Qed.

(** ** The root directory *)

Lemma ent_head (d C : list Z) : length d = 16%nat -> ent (d ++ C) 0 = d.
Proof. intros Hd. unfold ent, slice. simpl Z.to_nat. rewrite drop_0. by apply take_app_length'. Qed.

Lemma ent_tail (d C : list Z) j : length d = 16%nat -> 0 <= j -> ent (d ++ C) (j + 1) = ent C j.
Proof.
  intros Hd Hj. unfold ent, slice, DIRENT. f_equal.
  replace (Z.to_nat (16 * (j + 1))) with (length d + Z.to_nat (16 * j))%nat by lia. by rewrite <- drop_drop, drop_app_length.
Qed.

Lemma dec_zeros k : dec (replicate k 0) = 0.
Proof. induction k as [|k IH]; [done|]. cbn [replicate dec]. by rewrite IH. Qed.

Lemma ent_zeros k j : de_inum (ent (replicate k 0) j) = 0.
Proof. unfold de_inum, get16, ent, slice. rewrite drop_replicate, take_replicate, drop_replicate, take_replicate. apply dec_zeros. Qed.

(** Entries, with cleared entries behind. *)
Lemma ent_entries es k j :
  0 <= j ->
  match es !! Z.to_nat j with
  | Some e => ent (entries es ++ replicate k 0) j = Mkfs.dirent e.1 e.2
  | None => de_inum (ent (entries es ++ replicate k 0) j) = 0
  end.
Proof.
  revert j. induction es as [|e es IH]; intros j Hj; [cbn; apply ent_zeros|].
  unfold entries. rewrite bind_cons, <- app_assoc. fold (entries es). destruct (decide (j = 0)) as [->|Hne].
  - change (Z.to_nat 0) with 0%nat. cbn [lookup list_lookup]. apply ent_head, length_dirent.
  - replace (Z.to_nat j) with (S (Z.to_nat (j - 1))) by lia. cbn [lookup list_lookup]. specialize (IH (j - 1) ltac:(lia)).
    replace j with (j - 1 + 1) by lia. rewrite ent_tail by (lia || apply length_dirent).
    replace (j - 1 + 1 - 1) with (j - 1) by lia. exact IH.
Qed.

Lemma length_entries es : length (entries es) = (16 * length es)%nat.
Proof. induction es as [|e es IH]; [done|]. unfold entries in *. rewrite bind_cons, length_app, length_dirent, IH. simpl. lia. Qed.

Lemma entries_u8 es : Forall (fun e => Forall is_u8 e.2) es -> Forall is_u8 (entries es).
Proof.
  induction 1 as [|e es He _ IH]; [by apply Forall_nil|]. unfold entries in *. rewrite bind_cons. apply Forall_app. split; [by apply dirent_u8|done].
Qed.

(** A directory with these entries: its names are the first 14 bytes of theirs. *)
Section directory.
Context (es : list (Z * list Z)) (m : nat).
Context (Hes : Forall (fun e => 0 < e.1 < 2 ^ 16) es) (Hnames : NoDup ((fun e => the_name e.2) <$> es)).
Let C := entries es ++ replicate (16 * m) 0.

Lemma entry_at j : 0 <= j -> de_inum (ent C j) <> 0 ->
  exists e, es !! Z.to_nat j = Some e /\ de_inum (ent C j) = e.1 /\ ent_name (ent C j) = the_name e.2.
Proof.
  intros Hj Hne. pose proof (ent_entries es (16 * m) j Hj) as H. destruct (es !! Z.to_nat j) as [e|] eqn:E; [|done].
  exists e. split; [done|]. fold C in H. rewrite H. assert (is_u16 e.1) as Hu by (rewrite Forall_lookup in Hes; specialize (Hes _ _ E); unfold is_u16; lia).
  unfold Mkfs.dirent. rewrite xshort_id by done. apply (mk_dirent_ok e.1 e.2 Hu).
Qed.

Lemma entries_size : dir_size C = (length es + m)%nat.
Proof.
  unfold dir_size, C, DIRENT. rewrite length_app, length_entries, length_replicate.
  replace (Z.of_nat (16 * length es + 16 * m)) with (Z.of_nat (length es + m) * 16) by lia. rewrite Z.div_mul by lia. lia.
Qed.

Lemma entries_ok : dir_ok C.
Proof.
  split.
  - unfold C, DIRENT. rewrite length_app, length_entries, length_replicate.
    replace (Z.of_nat (16 * length es + 16 * m)) with (Z.of_nat (length es + m) * 16) by lia. apply Z.mod_mul. lia.
  - intros j k Hj Hk Ej Ek. destruct (entry_at j ltac:(lia) Ej) as (e & E1 & _ & ->), (entry_at k ltac:(lia) Ek) as (f & F1 & _ & ->).
    intros Heq. enough (Z.to_nat j = Z.to_nat k) by lia. eapply NoDup_lookup; [exact Hnames|by rewrite list_lookup_fmap, E1|].
    rewrite list_lookup_fmap, F1. simpl. by rewrite Heq.
Qed.

(** The directory maps the names to the inode numbers, and nothing else. *)
Lemma entries_lookup n x : (exists off, dir_lookup C n = Some (x, off)) <-> exists e, e ∈ es /\ e.1 = x /\ the_name e.2 = n.
Proof.
  setoid_rewrite (dir_lookup_spec C n x _ entries_ok). split.
  - intros (off & j & Hj & _ & -> & Hne & <-). destruct (entry_at j ltac:(lia) Hne) as (e & E1 & E2 & E3).
    exists e. split; [by eapply list_elem_of_lookup_2|done].
  - intros (e & (j & Hj)%list_elem_of_lookup & <- & <-). exists (DIRENT * Z.of_nat j), (Z.of_nat j).
    pose proof (lookup_lt_Some _ _ _ Hj). rewrite entries_size. split; [lia|]. split; [done|].
    pose proof (ent_entries es (16 * m) (Z.of_nat j) ltac:(lia)) as H1. rewrite Nat2Z.id, Hj in H1. fold C in H1.
    rewrite Forall_lookup in Hes. pose proof (Hes _ _ Hj).
    assert (is_u16 e.1) as Hu by (unfold is_u16; lia). destruct (mk_dirent_ok e.1 e.2 Hu) as (_ & K1 & K2).
    unfold Mkfs.dirent in H1. rewrite xshort_id in H1 by done. rewrite H1. split; [done|]. split; [lia|done].
Qed.
End directory.

(** ** The bitmap *)

Definition bit_of (d : block) (c : Z) : bool := Z.testbit (nth (Z.to_nat (c / 8)) d 0) (c mod 8).

Lemma bit_index c i : 0 <= c -> 0 <= i -> c / 8 = i / 8 -> c mod 8 = i mod 8 -> c = i.
Proof. intros. rewrite (Z.div_mod c 8), (Z.div_mod i 8) by lia. congruence. Qed.

Lemma balloc_loop_ok n i buf :
  is_block buf -> 0 <= i -> i + Z.of_nat n <= 4096 ->
  is_block (Mkfs.balloc_loop i buf n) /\
  forall c, 0 <= c < 4096 -> bit_of (Mkfs.balloc_loop i buf n) c = bit_of buf c || ((i <=? c) && (c <? i + Z.of_nat n)).
Proof.
  revert i buf. induction n as [|n IH]; intros i buf Hb Hi Hn; cbn [Mkfs.balloc_loop].
  - split; [done|]. intros c Hc. destruct (Z.leb_spec i c), (Z.ltb_spec c (i + Z.of_nat 0)); try lia; by rewrite orb_false_r.
  - destruct Hb as [Hl Hf]. change (Z.to_nat BSIZE) with 512%nat in Hl. pose proof (Z.div_pos i 8 ltac:(lia) ltac:(lia)). assert (i / 8 < 512) by (apply Z.div_lt_upper_bound; lia).
    pose proof (Z.mod_pos_bound i 8 ltac:(lia)).
    destruct (IH (i + 1) (<[Z.to_nat (i / 8) := u8 (Z.lor (nth (Z.to_nat (i / 8)) buf 0) (Z.shiftl 1 (i mod 8)))]> buf)) as [G1 G2];
      [split; [by rewrite length_insert|apply Forall_insert; [done|by apply Z.mod_pos_bound]]|lia|lia|].
    split; [done|]. intros c Hc. rewrite G2 by done. pose proof (Z.div_pos c 8 ltac:(lia) ltac:(lia)). pose proof (Z.mod_pos_bound c 8 ltac:(lia)).
    assert (bit_of (<[Z.to_nat (i / 8) := u8 (Z.lor (nth (Z.to_nat (i / 8)) buf 0) (Z.shiftl 1 (i mod 8)))]> buf) c = bit_of buf c || (c =? i)) as ->.
    + unfold bit_of. rewrite !nth_lookup. destruct (decide (c / 8 = i / 8)) as [E|E].
      * rewrite E, list_lookup_insert_eq by lia. simpl. rewrite u8_testbit, Z.lor_spec, Z.shiftl_1_l by lia. f_equal.
        destruct (Z.eqb_spec c i) as [->|Hne]; [by apply Z.pow2_bits_true; lia|]. apply Z.pow2_bits_false. intros Em. apply Hne, bit_index; (lia || done).
      * rewrite list_lookup_insert_ne by lia. destruct (Z.eqb_spec c i) as [->|Hne]; [done|]. by rewrite orb_false_r.
    + rewrite <- orb_assoc. f_equal. destruct (Z.eqb_spec c i), (Z.leb_spec i c), (Z.leb_spec (i + 1) c), (Z.ltb_spec c (i + 1 + Z.of_nat n)),
        (Z.ltb_spec c (i + Z.of_nat (S n))); try lia; done.
Qed.

(** ** The start *)

(** The image of zeroes, [n] blocks of it from block [i] on. *)
Lemma blank_ok n i b :
  (i + n <= 1000)%nat ->
  mfor n (Z.of_nat i) (fun k => Mkfs.wsect k Mkfs.zeroes) (Mkfs.Mk (replicate i zeroes) b 1 59) =
  Ok tt (Mkfs.Mk (replicate (i + n) zeroes) b 1 59).
Proof.
  revert i. induction n as [|n IH]; intros i Hn; cbn [mfor]; [by rewrite Nat.add_0_r|].
  unfold bind, Mkfs.wsect, modify, Mkfs.set_fsfd. cbn [Mkfs.fsfd Mkfs.sb Mkfs.freeinode Mkfs.freeblock].
  rewrite sect_index, Nat2Z.id, length_replicate, Nat.sub_diag by lia. cbn [replicate]. rewrite app_nil_r.
  rewrite take_ge, drop_ge by (rewrite length_replicate; lia). change Mkfs.zeroes with zeroes. rewrite <- replicate_S_end.
  replace (Z.of_nat i + 1) with (Z.of_nat (S i)) by lia. rewrite IH by lia. by replace (S i + n)%nat with (i + S n)%nat by lia.
Qed.

(** The empty image, and the view of it. *)
Definition blank : list block := <[1%nat := Mkfs.put_sb msb]> (replicate 1000 zeroes).
Definition blank_view : tview := TView (<[58%nat := Mkfs.balloc_loop 0 zeroes 59]> blank) ∅ ∅ ∅ 0.

Lemma blank_bits c : 0 <= c < 1000 -> bm_bit msb (tv_disk blank_view) c = (c <? 59).
Proof.
  intros Hc. assert (forallb (fun c => Bool.eqb (bm_bit msb (tv_disk blank_view) c) (c <? 59)) (seqZ 0 1000) = true) as H by by vm_compute.
  rewrite forallb_forall in H. apply Bool.eqb_prop, H, list_elem_of_In, elem_of_seqZ. lia.
Qed.

Lemma blank_geo : geo msb (tv_disk blank_view).
Proof. apply geo_check_ok; by vm_compute. Qed.

Lemma blank_dat n : 0 <= n < 1000 -> n <> 1 -> n <> 58 -> dat (tv_disk blank_view) n = Some zeroes.
Proof.
  intros Hn H1 H58. unfold blank_view, blank, dat. cbn [tv_disk]. destruct (Z.ltb_spec n 0); [lia|].
  rewrite !list_lookup_insert_ne by lia. apply lookup_replicate_2. lia.
Qed.

Lemma blank_free j : (j < 199)%nat -> di_type (fdi blank_view j) = 0.
Proof.
  intros Hj. assert (forallb (fun j => di_type (fdi blank_view j) =? 0) (seq 0 199) = true) as H by by vm_compute.
  rewrite forallb_forall in H. apply Z.eqb_eq, H, list_elem_of_In, elem_of_seq. lia.
Qed.

Lemma length_blank : length blank = 1000%nat.
Proof. unfold blank. by rewrite length_insert, length_replicate. Qed.

Lemma blank_eq n : n <> 58 -> dat (tv_disk blank_view) n = dat blank n.
Proof. exact (dat_insert_ne blank 58 n _ ltac:(lia)). Qed.

Lemma length_blank_view : length (tv_disk blank_view) = 1000%nat.
Proof. unfold blank_view. cbn [tv_disk]. by rewrite length_insert, length_blank. Qed.

Lemma blank_held : tv_held blank_view = ∅.
Proof. reflexivity. Qed.

Lemma blank_mod : tv_mod blank_view = ∅.
Proof. reflexivity. Qed.

Opaque blank blank_view.

Lemma start_ok : minv (Mkfs.Mk blank msb 1 59) [].
Proof.
  exists blank_view. split; [|split; [|split; [reflexivity|reflexivity]]].
  - split; cbn [Mkfs.sb Mkfs.fsfd Mkfs.freeblock].
    + reflexivity.
    + apply length_blank.
    + apply length_blank_view.
    + intros n Hn. symmetry. by apply blank_eq.
    + split; [apply blank_geo| |]; by rewrite ?blank_held, ?blank_mod.
    + apply blank_held.
    + apply blank_bits.
    + intros n Hn. apply blank_dat; lia.
    + intros n Hn. apply blank_dat; lia.
    + lia.
  - split.
    + intros i t c Hi. by rewrite lookup_nil in Hi.
    + cbn [length]. lia.
    + intros j Hj. apply blank_free. lia.
    + cbn [length]. lia.
Qed.

(** ** The end *)

(** The size of the root directory, rounded up. *)
Definition root_size (n : Z) : Z := (n / 512 + 1) * 512.

(** The root directory with the new size: zeroes follow the entries. *)
Lemma root_padded V di R :
  is_file V di T_DIR R -> Z.of_nat (length R) mod 512 <> 0 -> root_size (Z.of_nat (length R)) <= MAXFILE * BSIZE ->
  let di' := set_size (root_size (Z.of_nat (length R))) di in
  inode_ok msb (tv_disk V) di' /\
  content (tv_disk V) di' = R ++ replicate (Z.to_nat (root_size (Z.of_nat (length R)) - Z.of_nat (length R))) 0.
Proof.
  intros [F1 F2 FZ F3 F4 F5 F6] Hm Hmax di'. set (n := Z.of_nat (length R)) in *. change (MAXFILE * BSIZE) with 71680 in *.
  destruct (in_block n ltac:(lia)) as [E1 E2].
  assert (n < root_size n <= n + 511) as Hsz by (unfold root_size; lia).
  assert (forall bn, 0 <= bn -> bn * 512 < root_size n -> imap (tv_disk V) di bn <> 0) as Hmap.
  { intros bn H0 H1. apply (tg_map _ _ _ F2); [change MAXFILE with 140; lia|]. fold n. unfold BSIZE, root_size in *. lia. }
  split.
  - destruct F1 as [[D1 D2 D3 D4 D5 D6 D7] I2 I3 I4 I5 I6]. split; try done.
    split; try done. simpl. unfold is_u32. lia.
  - unfold content. cbn [di_size set_size di']. replace (root_size n) with (n + (root_size n - n)) at 1 by lia.
    rewrite fbytes_app by lia. f_equal; [rewrite <- F3; unfold content; by rewrite F4|].
    apply list_eq_same_length with (n := Z.to_nat (root_size n - n)); [by rewrite length_replicate|apply length_fbytes|].
    intros j x y Hj. rewrite lookup_fbytes by lia. intros [= <-] [-> _]%lookup_replicate. rewrite Z.add_0_l.
    apply FZ; [fold n; change (MAXFILE * BSIZE) with 71680; lia|]. unfold BSIZE.
    destruct (in_block (n + Z.of_nat j) ltac:(lia)). apply Hmap; [apply Z.div_pos; lia|lia].
Qed.

(** The image that [mkfs] leaves with the root entries [R] and the files [fs]. *)
Record finished (R : list Z) (fs : list (Z * list Z)) (dk : list block) : Prop := Finished {
  fn_geo : geo msb dk;
  fn_log : forall n, 2 <= n < 32 -> dat dk n = Some zeroes;
  fn_bits : forall b, 0 <= b < 1000 -> bm_bit msb dk b = (b <? 59 + need (Z.of_nat (length R)) + needs fs);
  fn_root : let di := disk_inode msb dk ROOTINO in
    inode_ok msb dk di /\ di_type di = T_DIR /\ di_nlink di = 1 /\
    content dk di = R ++ replicate (Z.to_nat (root_size (Z.of_nat (length R)) - Z.of_nat (length R))) 0;
  fn_file : forall i t c, fs !! i = Some (t, c) -> let di := disk_inode msb dk (Z.of_nat i + 2) in
    inode_ok msb dk di /\ di_type di = t /\ di_nlink di = 1 /\ content dk di = c;
  fn_apart : forall i j n, 1 <= i <= 1 + Z.of_nat (length fs) -> 1 <= j <= 1 + Z.of_nat (length fs) -> i <> j ->
    owns dk (disk_inode msb dk i) n -> ~ owns dk (disk_inode msb dk j) n;
  fn_free : forall j, 1 + Z.of_nat (length fs) < j < 200 -> di_type (disk_inode msb dk j) = 0
}.

Section finish.
Context (s : Mkfs.mk) (V : tview) (R : list Z) (fs : list (Z * list Z)).
Context (HM : mrep s V) (HF : finv V ((T_DIR, R) :: fs)).
Context (Hfree : Mkfs.freeblock s = 59 + needs ((T_DIR, R) :: fs)).
Context (Hm : Z.of_nat (length R) mod 512 <> 0) (Hmax : root_size (Z.of_nat (length R)) <= MAXFILE * BSIZE).
Let di' := set_size (root_size (Z.of_nat (length R))) (fdi V 0).
Let V2 := tv_inode msb ROOTINO di' V.
Context (dk : list block) (bits : block).
Context (Hlen : length dk = 1000%nat) (Heq : forall n, n <> 58 -> dat dk n = dat (tv_disk V2) n).
Context (Hbits : dat dk 58 = Some bits) (Hblk : is_block bits) (H2 : fsok msb V2).
Context (Hset : forall c, 0 <= c < 4096 -> bit_of bits c = (c <? Mkfs.freeblock s)).

Lemma fin_bit c : 0 <= c < 1000 -> bm_bit msb dk c = (c <? Mkfs.freeblock s).
Proof.
  intros Hc. rewrite <- Hset by lia. unfold bm_bit, bm_byte, bit_of. change BPB with 4096.
  assert (BBLOCK c msb = 58) as ->.
  { unfold BBLOCK. change BPB with 4096. rewrite Z.div_small by lia. done. }
  rewrite Hbits. cbn [default]. rewrite Z.mod_small by lia. done.
Qed.

Lemma fin_same n : 59 <= n -> dat dk n = dat (tv_disk V) n.
Proof.
  intros Hn. rewrite Heq by lia. apply (tv_inode_other msb V (mr_ok _ _ HM)); [done|]. cbn. lia.
Qed.

Lemma fin_frame dj : inode_ok msb (tv_disk V) dj ->
  inode_ok msb dk dj /\ (forall n, owns dk dj n <-> owns (tv_disk V) dj n) /\ content dk dj = content (tv_disk V) dj.
Proof.
  intros HI. destruct (inode_frame msb (tv_disk V) dk dj) as (G1 & _ & G3 & G4); try done.
  - intros n Hn. apply fin_same. destruct (owns_dblock msb _ _ _ HI Hn) as [Hr _]. rewrite msb_dstart in Hr. lia.
  - intros c Hc. rewrite (mr_bits _ _ HM) by done. by rewrite fin_bit.
Qed.

Lemma fin_inode j : (j < 199)%nat ->
  disk_inode msb dk (Z.of_nat j + 1) = if decide (j = 0%nat) then di' else fdi V j.
Proof.
  intros Hj. unfold disk_inode.
  pose proof (IBLOCK_range msb V (mr_ok _ _ HM) (Z.of_nat j + 1) ltac:(cbn; lia)) as Hr. cbn in Hr. rewrite Heq by lia.
  fold (disk_inode msb (tv_disk V2) (Z.of_nat j + 1)). unfold V2. rewrite disk_inode_put; [|apply HM|done|cbn; lia|].
  - unfold ROOTINO. destruct (decide (j = 0%nat)) as [->|Hne]; [done|]. by rewrite decide_False by lia.
  - destruct (root_padded V (fdi V 0) R (fi_file _ _ HF 0%nat _ _ eq_refl) Hm Hmax) as [HI _]. apply HI.
Qed.

Lemma fin_geo : geo msb dk.
Proof.
  destruct (fo_geo _ _ H2) as [G1 G2 G3 G4 G5 G6 G7 G8]. split; try done.
  - rewrite msb_dstart, Hlen. cbn. lia.
  - by rewrite Heq.
  - apply Forall_lookup. intros i d Hi. pose proof (lookup_lt_Some _ _ _ Hi) as Hl.
    assert (dat dk (Z.of_nat i) = Some d) as Hd by (unfold dat; destruct (Z.ltb_spec (Z.of_nat i) 0); [lia|by rewrite Nat2Z.id]).
    destruct (decide (i = 58%nat)) as [->|Hne]; [change (Z.of_nat 58) with 58 in Hd; congruence|].
    rewrite Heq in Hd by lia. unfold dat in Hd. destruct (Z.ltb_spec (Z.of_nat i) 0); [lia|].
    rewrite Forall_lookup in G7. by eapply G7.
  - intros b Hb. rewrite msb_dstart in Hb. rewrite fin_bit by lia. apply Z.ltb_lt. pose proof (mr_free _ _ HM). lia.
Qed.

Lemma fin_apart (i j : nat) n : (i < length ((T_DIR, R) :: fs))%nat -> (j < length ((T_DIR, R) :: fs))%nat -> i <> j ->
  owns dk (disk_inode msb dk (Z.of_nat i + 1)) n -> ~ owns dk (disk_inode msb dk (Z.of_nat j + 1)) n.
Proof.
  intros Hi Hj Hij. pose proof (fi_count _ _ HF).
  assert (forall k, (k < length ((T_DIR, R) :: fs))%nat ->
    owns dk (disk_inode msb dk (Z.of_nat k + 1)) n <-> owns (tv_disk V) (fdi V k) n) as Ho.
  { intros k Hk. destruct (lookup_lt_is_Some_2 _ _ Hk) as [[t c] E]. pose proof (if_inode _ _ _ _ (fi_file _ _ HF k t c E)) as HI.
    rewrite fin_inode by lia. destruct (fin_frame _ HI) as (_ & G & _). destruct (decide (k = 0%nat)) as [->|]; [|apply G].
    change (owns dk (fdi V 0) n <-> owns (tv_disk V) (fdi V 0) n). apply G. }
  rewrite !Ho by done. by apply HF.
Qed.

Lemma fin_ok : finished R fs dk.
Proof.
  pose proof (fi_count _ _ HF) as Hc. cbn [length] in Hc. split.
  - apply fin_geo.
  - intros n Hn. rewrite Heq by lia. unfold V2. rewrite <- (mr_log _ _ HM n Hn). pose proof (IBLOCK_first ROOTINO ltac:(done)). apply dat_insert_ne; lia.
  - intros b Hb. rewrite fin_bit, Hfree by done. cbn [needs foldr snd]. by rewrite Z.add_assoc.
  - pose proof (fi_file _ _ HF 0%nat _ _ eq_refl) as HR. destruct (root_padded V (fdi V 0) R HR Hm Hmax) as [HI Hcon].
    destruct (fin_frame _ HI) as (G1 & _ & G3). pose proof (fin_inode 0 ltac:(lia)) as E. rewrite decide_True in E by done.
    change (Z.of_nat 0 + 1) with ROOTINO in E. cbv zeta. rewrite E. split; [done|]. destruct HR. split; [done|]. split; [done|].
    unfold di'. by rewrite G3.
  - intros i t c Hi. pose proof (lookup_lt_Some _ _ _ Hi). pose proof (fi_file _ _ HF (S i) t c Hi) as HI.
    pose proof (fin_inode (S i) ltac:(lia)) as E. rewrite decide_False in E by done.
    replace (Z.of_nat (S i) + 1) with (Z.of_nat i + 2) in E by lia. cbv zeta. rewrite E.
    destruct (fin_frame _ (if_inode _ _ _ _ HI)) as (G1 & _ & G3). rewrite G3. by destruct HI.
  - intros i j n Hi Hj Hij. pose proof (fin_apart (Z.to_nat (i - 1)) (Z.to_nat (j - 1)) n) as G. cbn [length] in G.
    replace (Z.of_nat (Z.to_nat (i - 1)) + 1) with i in G by lia. replace (Z.of_nat (Z.to_nat (j - 1)) + 1) with j in G by lia.
    apply G; lia.
  - intros j Hj. pose proof (fin_inode (Z.to_nat (j - 1)) ltac:(lia)) as E. rewrite decide_False in E by lia.
    replace (Z.of_nat (Z.to_nat (j - 1)) + 1) with j in E by lia. rewrite E. apply HF. cbn [length]. lia.
Qed.
End finish.

Lemma is_block_zeroes : is_block zeroes.
Proof. split; [done|]. apply Forall_replicate. unfold is_u8. lia. Qed.

Lemma bit_zeroes c : bit_of zeroes c = false.
Proof. unfold bit_of. rewrite nth_zeroes. apply Z.bits_0. Qed.

(** The end of [main]: the size of the root directory, and the bitmap. *)
Definition finish : M Mkfs.mk unit :=
  din <- Mkfs.rinode ROOTINO ;;
  let off := u32 ((Mkfs.xint (di_size din) / BSIZE + 1) * BSIZE) in
  Mkfs.winode ROOTINO (Mkfs.set_dsize (Mkfs.xint off) din) ;;
  used <- gets Mkfs.freeblock ;;
  Mkfs.balloc used.

Lemma finish_ok s R fs :
  minv s ((T_DIR, R) :: fs) -> Z.of_nat (length R) mod 512 <> 0 -> root_size (Z.of_nat (length R)) <= MAXFILE * BSIZE ->
  exists s', finish s = Ok tt s' /\ finished R fs (Mkfs.fsfd s').
Proof.
  intros (V & HM & HF & Ei & Eb) Hm Hmax. pose proof (fi_file _ _ HF 0%nat _ _ eq_refl) as HR. unfold finish.
  rewrite (bind_ok _ _ _ _ _ (rinode_ok s V HM ROOTINO ltac:(unfold ROOTINO; lia))). change (disk_inode msb (tv_disk V) ROOTINO) with (fdi V 0).
  destruct (root_padded V (fdi V 0) R HR Hm Hmax) as [HI _]. change (MAXFILE * BSIZE) with 71680 in *.
  rewrite (if_size _ _ _ _ HR). unfold root_size in Hmax. pose proof (Z.div_pos (Z.of_nat (length R)) 512 ltac:(lia) ltac:(lia)).
  destruct (in_block (Z.of_nat (length R)) ltac:(lia)).
  rewrite (xint_id (Z.of_nat (length R))) by (unfold is_u32; lia). unfold BSIZE. rewrite u32_small, xint_id by (unfold is_u32; lia).
  fold (root_size (Z.of_nat (length R))). change (Mkfs.set_dsize ?n) with (set_size n).
  destruct (winode_ok s V HM ROOTINO (set_size (root_size (Z.of_nat (length R))) (fdi V 0))) as (s2 & E2 & HM2 & K1 & K2);
    [unfold ROOTINO; lia|apply HI|]. rewrite (bind_ok _ _ _ _ _ E2). unfold bind at 1, gets at 1. rewrite K1.
  pose proof (mr_free _ _ HM) as Hf. unfold Mkfs.balloc. rewrite (proj2 (Z.ltb_lt _ _)) by (change (BSIZE * 8) with 4096; lia).
  unfold bind, Mkfs.assert, ret, gets. rewrite (mr_sb _ _ HM2). cbn [sb_bmapstart msb]. rewrite wsect_eq by (try apply HM2; lia).
  eexists. split; [done|]. cbn [Mkfs.fsfd Mkfs.set_fsfd]. change (replicate (Z.to_nat BSIZE) 0) with zeroes.
  destruct (balloc_loop_ok (Z.to_nat (Mkfs.freeblock s)) 0 zeroes is_block_zeroes ltac:(lia) ltac:(lia)) as [B1 B2].
  eapply (fin_ok s V R fs HM HF Eb Hm Hmax); [| |apply dat_insert_eq|exact B1|apply HM2|].
  - rewrite length_insert. apply HM2.
  - intros n Hn. rewrite dat_insert_ne by lia. by apply HM2.
  - rewrite (mr_len _ _ HM2). lia.
  - intros c Hc. rewrite B2, bit_zeroes by done. cbn [orb]. rewrite Z.add_0_l, Z2Nat.id by lia.
    by rewrite (proj2 (Z.leb_le 0 c)) by lia.
Qed.

(** ** The whole program *)

Definition root_entries (args : list Mkfs.arg) : list (Z * list Z) := (1, [46]) :: (1, [46; 46]) :: arg_entries 2 args.

(** [main] after the blank image. *)
Lemma main_eq args :
  Mkfs.main args Mkfs.mk0 =
  (rootino <- Mkfs.ialloc T_DIR ;;
   Mkfs.assert (rootino =? ROOTINO) ;;
   Mkfs.iappend rootino (Mkfs.dirent rootino [46]) DIRENT ;;
   Mkfs.iappend rootino (Mkfs.dirent rootino [46; 46]) DIRENT ;;
   Mkfs.add_files rootino args ;;
   din <- Mkfs.rinode rootino ;;
   let off := u32 ((Mkfs.xint (di_size din) / BSIZE + 1) * BSIZE) in
   Mkfs.winode rootino (Mkfs.set_dsize (Mkfs.xint off) din) ;;
   used <- gets Mkfs.freeblock ;;
   Mkfs.balloc used) (Mkfs.Mk blank msb 1 59).
Proof.
  unfold Mkfs.main. do 2 (rewrite (bind_ok _ _ _ tt Mkfs.mk0) by reflexivity).
  rewrite (bind_ok _ _ _ tt (Mkfs.Mk [] msb 1 0)) by reflexivity. rewrite (bind_ok _ _ _ tt (Mkfs.Mk [] msb 1 59)) by reflexivity.
  rewrite (bind_ok _ _ _ tt (Mkfs.Mk (replicate 1000 zeroes) msb 1 59)) by exact (blank_ok 1000 0 msb ltac:(lia)).
  rewrite (bind_ok _ _ _ msb (Mkfs.Mk (replicate 1000 zeroes) msb 1 59)) by reflexivity.
  rewrite (bind_ok _ _ _ tt (Mkfs.Mk blank msb 1 59)); [reflexivity|].
  rewrite wsect_eq; [|lia|apply length_replicate]. Transparent blank. reflexivity.
Qed.
Opaque blank.

(** What the kernel needs of the image of [args]: the geometry that its super block
    describes, a clear log, a bitmap that marks the blocks in use and no other, a
    well-formed root directory with the names of the arguments, a file for each of
    them, no block in two files, and free inodes otherwise. *)
Record mkfs_image (args : list Mkfs.arg) (dk : list block) : Prop := MkfsImage {
  im_geo : geo msb dk;
  im_log : forall n, 2 <= n < 32 -> dat dk n = Some zeroes;
  im_bits : forall b, 0 <= b < 1000 ->
    bm_bit msb dk b = (b <? 59 + need (16 * (2 + Z.of_nat (length args))) + needs (arg_files args));
  im_root : let di := disk_inode msb dk ROOTINO in
    inode_ok msb dk di /\ di_type di = T_DIR /\ di_nlink di = 1 /\ dir_ok (content dk di);
  im_names : forall n x, (exists off, dir_lookup (content dk (disk_inode msb dk ROOTINO)) n = Some (x, off)) <->
    exists e, e ∈ root_entries args /\ e.1 = x /\ the_name e.2 = n;
  im_file : forall i a, args !! i = Some a -> let di := disk_inode msb dk (Z.of_nat i + 2) in
    inode_ok msb dk di /\ di_type di = T_FILE /\ di_nlink di = 1 /\ content dk di = arg_data a;
  im_apart : forall i j n, 1 <= i <= 1 + Z.of_nat (length args) -> 1 <= j <= 1 + Z.of_nat (length args) -> i <> j ->
    owns dk (disk_inode msb dk i) n -> ~ owns dk (disk_inode msb dk j) n;
  im_free : forall j, 1 + Z.of_nat (length args) < j < 200 -> di_type (disk_inode msb dk j) = 0
}.

Lemma length_arg_entries k args : length (arg_entries k args) = length args.
Proof. revert k. induction args as [|a args IH]; intros k; [done|]. cbn [arg_entries length]. by rewrite IH. Qed.

Lemma arg_entries_range k args : 0 < k -> k + Z.of_nat (length args) <= 2 ^ 16 ->
  Forall (fun e => 0 < e.1 < 2 ^ 16) (arg_entries k args).
Proof.
  revert k. induction args as [|a args IH]; intros k Hk Hn; cbn [arg_entries length] in *; constructor; [simpl; lia|]. apply IH; lia.
Qed.

Lemma arg_entries_names k args : (fun e => the_name e.2) <$> arg_entries k args = (fun a => the_name (arg_name a)) <$> args.
Proof. revert k. induction args as [|a args IH]; intros k; [done|]. cbn [arg_entries]. rewrite !fmap_cons. by rewrite IH. Qed.

Lemma finished_image args dk :
  finished (entries (root_entries args)) (arg_files args) dk -> (length args <= 198)%nat ->
  NoDup ((fun e => the_name e.2) <$> root_entries args) -> mkfs_image args dk.
Proof.
  intros [F1 F2 F3 F4 F5 F6 F7] Hc Hn.
  assert (length (root_entries args) = (2 + length args)%nat) as Hl by (cbn [root_entries length]; by rewrite length_arg_entries).
  assert (Forall (fun e => 0 < e.1 < 2 ^ 16) (root_entries args)) as Hr.
  { repeat constructor; try (simpl; lia). apply arg_entries_range; lia. }
  assert (length (arg_files args) = length args) as Hla by apply length_fmap. rewrite Hla in *.
  set (N := Z.of_nat (length (entries (root_entries args)))) in *.
  assert (N = 16 * (2 + Z.of_nat (length args))) as EN by (unfold N; rewrite length_entries, Hl; lia).
  destruct (in_block N ltac:(lia)). assert (exists m : nat, Z.to_nat (root_size N - N) = (16 * m)%nat) as [m Hm].
  { exists (Z.to_nat (32 * (N / 512 + 1) - (2 + Z.of_nat (length args)))). unfold root_size. lia. }
  rewrite Hm in F4. cbv zeta in F4. destruct F4 as (R1 & R2 & R3 & R4). split; try done.
  - intros b Hb. by rewrite F3, EN.
  - cbv zeta. rewrite R4. split; [done|]. split; [done|]. split; [done|]. by apply entries_ok.
  - rewrite R4. by apply entries_lookup.
  - intros i a Hi. apply F5. unfold arg_files. by rewrite list_lookup_fmap, Hi.
Qed.

(** C23. [mkfs] makes a file system.  For arguments that name files it can read, with
    names that differ in their first 14 bytes, at most 198 of them, their number plus 2
    not a multiple of 32 (the root directory then does not end at the end of a block),
    and a content that fits on the 1000 blocks, it ends without an assertion failure.
    The image it leaves
    is one that the kernel's theorems accept: its super block gives the geometry, its
    log is clear, its bitmap marks exactly the blocks in use, the root directory maps
    [.] and [..] to itself and each name to its inode and nothing else, each inode has the
    bytes of its file, no two of them share a block, and the others are free. *)
Theorem mkfs_makes_fs args :
  Forall arg_ok args -> (length args <= 198)%nat -> NoDup ((fun e => the_name e.2) <$> root_entries args) ->
  (2 + Z.of_nat (length args)) mod 32 <> 0 ->
  59 + need (16 * (2 + Z.of_nat (length args))) + needs (arg_files args) <= 1000 ->
  exists s, Mkfs.main args Mkfs.mk0 = Ok tt s /\ mkfs_image args (Mkfs.fsfd s).
Proof.
  intros Ha Hc Hn Hmod Hroom. rewrite main_eq. pose proof (needs_pos (arg_files args)) as Hpos.
  destruct (ialloc_ok _ [] T_DIR start_ok) as (s1 & E1 & M1); [simpl; lia|unfold is_i16, T_DIR; lia|unfold is_u16, T_DIR; lia|].
  rewrite (bind_ok _ _ _ _ _ E1). change (Z.of_nat (length []) + 1) with ROOTINO. rewrite (bind_ok _ _ _ tt s1) by reflexivity.
  assert (59 + need 16 <= 1000 /\ 59 + need 32 <= 1000) as [N1 N2] by (split; vm_compute; discriminate).
  destruct (iappend_ok s1 [(T_DIR, [])] 0 T_DIR [] (Mkfs.dirent ROOTINO [46])) as (s2 & E2 & M2); try done.
  { apply dirent_u8. repeat constructor; lia. }
  rewrite (bind_ok _ _ _ _ _ E2).
  destruct (iappend_ok s2 [(T_DIR, Mkfs.dirent ROOTINO [46])] 0 T_DIR _ (Mkfs.dirent ROOTINO [46; 46]) M2 eq_refl) as (s3 & E3 & M3); try done.
  { apply dirent_u8. repeat constructor; lia. }
  rewrite (bind_ok _ _ _ _ _ E3).
  destruct (add_files_ok args s3 (Mkfs.dirent ROOTINO [46] ++ Mkfs.dirent ROOTINO [46; 46]) [] M3 Ha) as (s4 & E4 & M4).
  { simpl. lia. }
  { rewrite length_app, !length_dirent. change (MAXFILE * BSIZE) with 71680. lia. }
  { rewrite length_app, !length_dirent. cbn [needs foldr].
    replace (Z.of_nat (16 + 16) + 16 * Z.of_nat (length args)) with (16 * (2 + Z.of_nat (length args))) by lia. lia. }
  rewrite (bind_ok _ _ _ _ _ E4). rewrite <- app_assoc in M4.
  change (_ ++ _ ++ entries _) with (entries (root_entries args)) in M4.
  assert (Z.of_nat (length (entries (root_entries args))) = 16 * (2 + Z.of_nat (length args))) as EN
    by (rewrite length_entries; cbn [root_entries length]; rewrite length_arg_entries; lia).
  destruct (finish_ok s4 (entries (root_entries args)) (arg_files args) M4) as (s5 & E5 & F5).
  - rewrite EN. change 512 with (16 * 32). rewrite Z.mul_mod_distr_l by lia. lia.
  - rewrite EN. unfold root_size. change (MAXFILE * BSIZE) with 71680.
    pose proof (Z.div_mod (16 * (2 + Z.of_nat (length args))) 512 ltac:(lia)). pose proof (Z.mod_pos_bound (16 * (2 + Z.of_nat (length args))) 512 ltac:(lia)). lia.
  - exists s5. split; [exact E5|]. by apply finished_image.
Qed.

(** [mkfs fs.img _cat README], with [README] longer than the direct blocks hold. *)
Definition demo_args : list Mkfs.arg :=
  [Mkfs.Arg [95; 99; 97; 116] (Some [[104; 105]; [33]]);
   Mkfs.Arg [82; 69; 65; 68; 77; 69] (Some (replicate 14 (replicate 500 65)))].

Lemma mkfs_makes_fs_witness :
  exists s, Mkfs.main demo_args Mkfs.mk0 = Ok tt s /\ mkfs_image demo_args (Mkfs.fsfd s).
Proof.
  apply (mkfs_makes_fs demo_args).
  - assert (forall l, forallb (fun c => (0 <=? c) && (c <? 256)) l = true -> Forall is_u8 l) as Hu.
    { intros l H. rewrite forallb_forall in H. apply Forall_forall. intros c Hc%list_elem_of_In%H.
      apply andb_true_iff in Hc as [Ha%Z.leb_le Hb%Z.ltb_lt]. done. }
    apply Forall_cons_2; [|apply Forall_cons_2; [|apply Forall_nil_2]]; split; try (apply Hu; vm_compute; reflexivity).
    1, 4: apply (bool_decide_unpack _); vm_compute; exact I.
    1, 3: by eexists.
    all: vm_compute; discriminate.
  - vm_compute. lia.
  - apply (bool_decide_unpack _). vm_compute. exact I.
  - vm_compute. discriminate.
  - vm_compute. discriminate.
Defined.
