(* ===== verification/File.v ===== *)
(** Open files: the file table (file.c, file.h) and the making of pipes (pipe.c), on
    top of the file system and of the pipes. *)
From stdpp Require Import base numbers list gmap strings.
From Stdlib Require Import ZArith Lia.
From S2P Require Import Prelude Bytes Mem Disk Super Log Pipe Fs.

Open Scope kernel_scope.

Definition NFILE : nat := 100.

Inductive ftype : Type := FD_NONE | FD_PIPE | FD_INODE.

#[export] Instance ftype_eq_dec : EqDecision ftype.
Proof. solve_decision. Defined.

(** [struct file]; [f_pipe] and [f_ip] are indices of the pages that hold pipes
    and of the inode cache. *)
Record file := File {
  f_type : ftype;
  f_ref : Z;
  f_readable : bool;
  f_writable : bool;
  f_pipe : nat;
  f_ip : nat;
  f_off : Z
}.

Definition file0 : file := File FD_NONE 0 false false 0 0 0.

Definition set_f_ref (r : Z) (f : file) : file :=
  File (f_type f) r (f_readable f) (f_writable f) (f_pipe f) (f_ip f) (f_off f).
Definition set_f_type (t : ftype) (f : file) : file :=
  File t (f_ref f) (f_readable f) (f_writable f) (f_pipe f) (f_ip f) (f_off f).
Definition set_f_off (o : Z) (f : file) : file :=
  File (f_type f) (f_ref f) (f_readable f) (f_writable f) (f_pipe f) (f_ip f) o.

(** The state: [ftable], the file system, the pages that [kalloc] gives for pipes
    (their content as a pipe, and which of them are free), and of the running
    process its open files and whether it was killed. *)
Record kfiles := KFiles {
  kf_lock : bool;
  kf_table : list file;
  kf_fs : fstate;
  kf_pipes : list pipe;
  kf_free : list nat;
  kf_ofile : list (option nat);
  kf_killed : bool
}.

Definition set_kf_lock (b : bool) (s : kfiles) : kfiles :=
  KFiles b (kf_table s) (kf_fs s) (kf_pipes s) (kf_free s) (kf_ofile s) (kf_killed s).
Definition set_kf_table (t : list file) (s : kfiles) : kfiles :=
  KFiles (kf_lock s) t (kf_fs s) (kf_pipes s) (kf_free s) (kf_ofile s) (kf_killed s).
Definition set_kf_fs (x : fstate) (s : kfiles) : kfiles :=
  KFiles (kf_lock s) (kf_table s) x (kf_pipes s) (kf_free s) (kf_ofile s) (kf_killed s).
Definition set_kf_pipes (p : list pipe) (s : kfiles) : kfiles :=
  KFiles (kf_lock s) (kf_table s) (kf_fs s) p (kf_free s) (kf_ofile s) (kf_killed s).
Definition set_kf_free (l : list nat) (s : kfiles) : kfiles :=
  KFiles (kf_lock s) (kf_table s) (kf_fs s) (kf_pipes s) l (kf_ofile s) (kf_killed s).
Definition set_kf_ofile (o : list (option nat)) (s : kfiles) : kfiles :=
  KFiles (kf_lock s) (kf_table s) (kf_fs s) (kf_pipes s) (kf_free s) o (kf_killed s).

Definition acquire_ft : M kfiles unit := acquire kf_lock set_kf_lock.
Definition release_ft : M kfiles unit := release kf_lock set_kf_lock.
Definition file_at (f : nat) (s : kfiles) : file := nth f (kf_table s) file0.
Definition ffield {A} (f : nat) (g : file -> A) : M kfiles A := gets (fun s => g (file_at f s)).
Definition fupd (f : nat) (g : file -> file) : M kfiles unit :=
  modify (fun s => set_kf_table (alter g f (kf_table s)) s).

(** Calls into the file system, the log and a pipe; the [sleep] of a pipe ends the
    run. *)
Definition on_fs {A} (m : M fstate A) : M kfiles A := zoom kf_fs set_kf_fs m.
Definition fbegin_op : M kfiles unit := on_fs (lift begin_op).
Definition fend_op : M kfiles unit := on_fs (lift end_op).

Definition pipe0 : pipe := Pipe false [] 0 0 false false [].
Definition on_pipe {A} (k : nat) (m : M pipe A) : M kfiles A :=
  zoom (fun s => nth k (kf_pipes s) pipe0) (fun p s => set_kf_pipes (<[k := p]> (kf_pipes s)) s) m.
Definition ended {A} (r : stretch A) : M kfiles A :=
  match r with Return a => ret a | Asleep c _ => msleep c end.

(** [kalloc] and [kfree] of the page of a pipe; [None] is the null pointer. *)
Definition pkalloc : M kfiles (option nat) :=
  l <- gets kf_free ;;
  match l with
  | [] => ret None
  | k :: l' => modify (set_kf_free l') ;; ret (Some k)
  end.
Definition pkfree (k : nat) : M kfiles unit := modify (fun s => set_kf_free (k :: kf_free s) s).

(** * file.c *)

Definition fileinit : M kfiles unit := modify (set_kf_lock false).

Definition filealloc : M kfiles (option nat) :=
  acquire_ft ;;
  r <- mfind NFILE 0 (fun k =>
    c <- ffield (Z.to_nat k) f_ref ;;
    if c =? 0 then
      fupd (Z.to_nat k) (set_f_ref 1) ;;
      release_ft ;;
      ret (Some (Z.to_nat k))
    else ret None) ;;
  match r with
  | Some f => ret (Some f)
  | None => release_ft ;; ret None
  end.

Definition filedup (f : nat) : M kfiles nat :=
  acquire_ft ;;
  c <- ffield f f_ref ;;
  if c <? 1 then panic "filedup" else
  fupd f (set_f_ref (c + 1)) ;;
  release_ft ;;
  ret f.

(** The law that [fork] relies on. *)
Lemma filedup_returns f s r s' : filedup f s = Ok r s' -> r = f.
Proof.
  unfold filedup. intros ([] & s1 & _ & (c & s2 & _ & E)%bind_inv)%bind_inv. destruct (c <? 1); [done|].
  apply bind_inv in E as ([] & s3 & _ & ([] & s4 & _ & E)%bind_inv). by injection E as <-.
Qed.

Definition fileclose (f : nat) : M kfiles unit :=
  acquire_ft ;;
  c <- ffield f f_ref ;;
  if c <? 1 then panic "fileclose" else
  fupd f (set_f_ref (c - 1)) ;;
  if 0 <? c - 1 then release_ft else
  ff <- ffield f id ;;
  fupd f (set_f_ref 0) ;;
  fupd f (set_f_type FD_NONE) ;;
  release_ft ;;
  if decide (f_type ff = FD_PIPE) then
    gone <- on_pipe (f_pipe ff) (pipeclose (f_writable ff)) ;;
    when gone (pkfree (f_pipe ff))
  else if decide (f_type ff = FD_INODE) then
    fbegin_op ;;
    on_fs (iput (f_ip ff)) ;;
    fend_op
  else ret tt.

Definition filestat (f : nat) : M kfiles (option stat) :=
  ff <- ffield f id ;;
  if decide (f_type ff = FD_INODE) then
    on_fs (ilock (f_ip ff)) ;;
    st <- on_fs (stati (f_ip ff)) ;;
    on_fs (iunlock (f_ip ff)) ;;
    ret (Some st)
  else ret None.

Section io.
Context `{!Devsw}.

(** The result, and the bytes stored at [addr]. *)
Definition fileread (f : nat) (n : Z) : M kfiles (Z * list Z) :=
  ff <- ffield f id ;;
  if negb (f_readable ff) then ret (-1, []) else
  if decide (f_type ff = FD_PIPE) then
    kl <- gets kf_killed ;;
    r <- on_pipe (f_pipe ff) (piperead kl n) ;;
    ended r
  else if decide (f_type ff = FD_INODE) then
    on_fs (ilock (f_ip ff)) ;;
    r <- on_fs (readi (f_ip ff) (f_off ff) (u32 n)) ;;
    when (0 <? r.1) (fupd f (fun ff => set_f_off (u32 (f_off ff + r.1)) ff)) ;;
    on_fs (iunlock (f_ip ff)) ;;
    ret r
  else panic "fileread".

(** [max]: as many blocks as half of the log holds. *)
Definition WRITE_MAX : Z := (LOGSIZE - 1 - 1 - 2) / 2 * 512.

(** The loop of [filewrite] with [i] bytes written; [src] are the bytes from
    [addr + i] on.  Each turn writes at least one byte or leaves the loop. *)
Fixpoint filewrite_loop (f : nat) (src : list Z) (i n : Z) (fuel : nat) : M kfiles Z :=
  match fuel with
  | O => diverge
  | S fl =>
      if negb (i <? n) then ret i else
      let n1 := if WRITE_MAX <? n - i then WRITE_MAX else n - i in
      ff <- ffield f id ;;
      fbegin_op ;;
      on_fs (ilock (f_ip ff)) ;;
      r <- on_fs (writei (f_ip ff) (take (Z.to_nat n1) src) (f_off ff) n1) ;;
      when (0 <? r) (fupd f (fun ff => set_f_off (u32 (f_off ff + r)) ff)) ;;
      on_fs (iunlock (f_ip ff)) ;;
      fend_op ;;
      if r <? 0 then ret i else
      if negb (r =? n1) then panic "short filewrite" else
      filewrite_loop f (drop (Z.to_nat r) src) (i + r) n fl
  end.

Definition filewrite (f : nat) (src : list Z) (n : Z) : M kfiles Z :=
  ff <- ffield f id ;;
  if negb (f_writable ff) then ret (-1) else
  if decide (f_type ff = FD_PIPE) then
    kl <- gets kf_killed ;;
    r <- on_pipe (f_pipe ff) (pipewrite kl src n) ;;
    ended r
  else if decide (f_type ff = FD_INODE) then
    i <- filewrite_loop f src 0 n (S (Z.to_nat n)) ;;
    ret (if i =? n then n else -1)
  else panic "filewrite".
End io.

(** * pipealloc (pipe.c) *)

Definition set_pipe_end (readable writable : bool) (p : nat) (f : file) : file :=
  File FD_PIPE (f_ref f) readable writable p (f_ip f) (f_off f).

(** [goto bad] of [pipealloc]: [p] is still null there. *)
Definition pipe_bad (f0 f1 : option nat) : M kfiles (option (nat * nat)) :=
  match f0 with Some f => fileclose f | None => ret tt end ;;
  match f1 with Some f => fileclose f | None => ret tt end ;;
  ret None.

Definition pipealloc : M kfiles (option (nat * nat)) :=
  f0 <- filealloc ;;
  match f0 with
  | None => pipe_bad None None
  | Some a =>
      f1 <- filealloc ;;
      match f1 with
      | None => pipe_bad (Some a) None
      | Some b =>
          p <- pkalloc ;;
          match p with
          | None => pipe_bad (Some a) (Some b)
          | Some p =>
              on_pipe p (modify pipeinit) ;;
              fupd a (set_pipe_end true false p) ;;
              fupd b (set_pipe_end false true p) ;;
              ret (Some (a, b))
          end
      end
  end.
