(* ===== verification/Ulib.v ===== *)
(** User programs, and the C library they share: ulib.c and printf.c.  A program
    is a tree of system calls; what it does depends on the answers alone, and
    [run] runs it against any kernel. *)
From stdpp Require Import base numbers list strings.
From Stdlib Require Import ZArith Lia Ascii.
From S2P Require Import Prelude.

(** * Programs *)

(** The system calls of user.h, with the data that a pointer argument points to;
    a path or an argument is its characters without the final NUL. *)
Inductive call : Type :=
| CFork
| CWait
| CPipe
| CWrite (fd : Z) (buf : list Z)
| CRead (fd n : Z)
| CClose (fd : Z)
| CKill (pid : Z)
| CExec (path : list Z) (argv : list (list Z))
| COpen (path : list Z) (mode : Z)
| CMknod (path : list Z) (major minor : Z)
| CUnlink (path : list Z)
| CFstat (fd : Z)
| CLink (old new : list Z)
| CMkdir (path : list Z)
| CChdir (path : list Z)
| CDup (fd : Z)
| CGetpid
| CSbrk (n : Z)
| CSleepFor (n : Z)
| CUptime
| CHello.

(** An answer: the result, and the bytes or words stored through a pointer. *)
Record ans := Ans { a_val : Z; a_data : list Z }.

(** [exit] ends a program.  [Fault] is a wild access, [NoFuel] a loop that has
    not ended within the number of turns the model gives it. *)
Inductive prog (A : Type) : Type :=
| Ret (a : A)
| Exit (status : Z)
| Do (c : call) (k : ans -> prog A)
| Fault
| NoFuel.
Arguments Ret {A} _.
Arguments Exit {A} _.
Arguments Do {A} _ _.
Arguments Fault {A}.
Arguments NoFuel {A}.

Fixpoint pbind {A B} (m : prog A) (k : A -> prog B) : prog B :=
  match m with
  | Ret a => k a
  | Exit st => Exit st
  | Do c h => Do c (fun r => pbind (h r) k)
  | Fault => Fault
  | NoFuel => NoFuel
  end.

Declare Scope prog_scope.
Delimit Scope prog_scope with prog.
Notation "x <- m ;; k" := (pbind m (fun x => k)) : prog_scope.
Notation "m ;; k" := (pbind m (fun _ => k)) : prog_scope.

Definition sys (c : call) : prog Z := Do c (fun r => Ret (a_val r)).
Definition sys_data (c : call) : prog ans := Do c Ret.

(** How a program ends. *)
Inductive ended (A : Type) : Type :=
| Returned (a : A)
| Exited (status : Z)
| Faulted
| Running.
Arguments Returned {A} _.
Arguments Exited {A} _.
Arguments Faulted {A}.
Arguments Running {A}.

(** [Kernel]: a kernel as a program sees it. *)
Class Kernel (S : Type) := syscall : S -> call -> ans * S.

Fixpoint run {S A} `{!Kernel S} (p : prog A) (s : S) : ended A * S :=
  match p with
  | Ret a => (Returned a, s)
  | Exit st => (Exited st, s)
  | Do c k => let (r, s') := syscall s c in run (k r) s'
  | Fault => (Faulted, s)
  | NoFuel => (Running, s)
  end.

(** The characters of a literal. *)
Definition bs (s : string) : list Z := (fun c => Z.of_N (N_of_ascii c)) <$> String.list_ascii_of_string s.

Open Scope prog_scope.

(** * ulib.c *)

(** Strings in memory are views: the byte at an offset from the pointer. *)

(** The bytes that [strcpy(s, t)] stores. *)
Fixpoint strcpy (t : Z -> Z) (i : Z) (fuel : nat) : option (list Z) :=
  match fuel with
  | O => None
  | S f => if t i =? 0 then Some [0] else cons (t i) <$> strcpy t (i + 1) f
  end.

Fixpoint strcmp (p q : Z -> Z) (i : Z) (fuel : nat) : option Z :=
  match fuel with
  | O => None
  | S f => if negb (p i =? 0) && (p i =? q i) then strcmp p q (i + 1) f else Some (u8 (p i) - u8 (q i))
  end.

Fixpoint strlen (s : Z -> Z) (n : Z) (fuel : nat) : option Z :=
  match fuel with
  | O => None
  | S f => if negb (s n =? 0) then strlen s (n + 1) f else Some n
  end.

(** [strchr] on a literal or on a string given by its characters: the offset of
    the first [c]. *)
Fixpoint strchr (s : list Z) (c : Z) : option nat :=
  match s with
  | [] => None
  | x :: s' => if x =? 0 then None else if x =? c then Some O else S <$> strchr s' c
  end.

(** [gets(buf, max)]: the bytes stored, NUL included. *)
Fixpoint gets_loop (i max : Z) (fuel : nat) : prog (list Z) :=
  match fuel with
  | O => NoFuel
  | S f =>
      if negb (i + 1 <? max) then Ret [0] else
      r <- sys_data (CRead 0 1) ;;
      if a_val r <? 1 then Ret [0] else
      match a_data r with
      | c :: _ =>
          if (c =? 10) || (c =? 13) then Ret [c; 0]
          else rest <- gets_loop (i + 1) max f ;; Ret (c :: rest)
      | [] => Fault
      end
  end.
Definition gets (max : Z) : prog (list Z) := gets_loop 0 max (S (Z.to_nat max)).

Definition O_RDONLY : Z := 0x000.
Definition O_WRONLY : Z := 0x001.
Definition O_RDWR : Z := 0x002.
Definition O_CREATE : Z := 0x200.

(** [stat]: the result and the fields of the [struct stat]. *)
Definition stat (n : list Z) : prog ans :=
  fd <- sys (COpen n O_RDONLY) ;;
  if fd <? 0 then Ret (Ans (-1) []) else
  r <- sys_data (CFstat fd) ;;
  sys (CClose fd) ;;
  Ret r.

Fixpoint atoi_loop (s : list Z) (n : Z) : Z :=
  match s with
  | c :: s' => if (48 <=? c) && (c <=? 57) then atoi_loop s' (i32 (n * 10 + c - 48)) else n
  | [] => n
  end.
Definition atoi (s : list Z) : Z := atoi_loop s 0.

(** * printf.c *)

Definition putc (fd c : Z) : prog unit := sys (CWrite fd [u8 c]) ;; Ret tt.

(** [digits], in upper case. *)
Definition digits : list Z := bs "0123456789ABCDEF".

(** The first loop of [printint]: the digits, least significant first. *)
Fixpoint digit_loop (digits : list Z) (x base : Z) (fuel : nat) : list Z :=
  match fuel with
  | O => []
  | S f =>
      nth (Z.to_nat (x mod base)) digits 0 ::
      (if x / base =? 0 then [] else digit_loop digits (x / base) base f)
  end.

(** The buffer after the first loop and the sign; 32 turns are enough for any
    32-bit number in base 2 or more. *)
Definition int_buf (digits : list Z) (xx base : Z) (sgn : bool) : list Z :=
  let neg := sgn && (xx <? 0) in
  let x := if neg then u32 (- xx) else u32 xx in
  digit_loop digits x base 32 ++ (if neg then [45] else []).

Fixpoint put_back (fd : Z) (buf : list Z) : prog unit :=
  match buf with
  | [] => Ret tt
  | c :: buf' => put_back fd buf' ;; putc fd c
  end.

Definition printint (fd xx base : Z) (sgn : bool) : prog unit :=
  put_back fd (int_buf digits xx base sgn).

Fixpoint puts (fd : Z) (s : list Z) : prog unit :=
  match s with
  | [] => Ret tt
  | c :: s' => putc fd c ;; puts fd s'
  end.

(** An argument of [printf]: a word, or a pointer to a string. *)
Inductive parg : Type := PInt (v : Z) | PStr (s : option (list Z)).

Fixpoint printf_loop (fd : Z) (fmt : list Z) (ap : list parg) (state : bool) : prog unit :=
  match fmt with
  | [] => Ret tt
  | c :: fmt' =>
      if negb state then
        if c =? 37 then printf_loop fd fmt' ap true
        else putc fd c ;; printf_loop fd fmt' ap false
      else
      if c =? 100 then
        match ap with
        | PInt v :: ap' => printint fd (i32 v) 10 true ;; printf_loop fd fmt' ap' false
        | _ => Fault
        end
      else if (c =? 120) || (c =? 112) then
        match ap with
        | PInt v :: ap' => printint fd (i32 v) 16 false ;; printf_loop fd fmt' ap' false
        | _ => Fault
        end
      else if c =? 115 then
        match ap with
        | PStr s :: ap' => puts fd (default (bs "(null)") s) ;; printf_loop fd fmt' ap' false
        | _ => Fault
        end
      else if c =? 99 then
        match ap with
        | PInt v :: ap' => putc fd v ;; printf_loop fd fmt' ap' false
        | _ => Fault
        end
      else if c =? 37 then putc fd c ;; printf_loop fd fmt' ap false
      else putc fd 37 ;; putc fd c ;; printf_loop fd fmt' ap false
  end.
Definition printf (fd : Z) (fmt : list Z) (ap : list parg) : prog unit := printf_loop fd fmt ap false.

(** * Facts about running programs *)

Lemma run_bind {S A B} `{!Kernel S} (m : prog A) (k : A -> prog B) s :
  run (pbind m k) s =
  match run m s with
  | (Returned a, s') => run (k a) s'
  | (Exited st, s') => (Exited st, s')
  | (Faulted, s') => (Faulted, s')
  | (Running, s') => (Running, s')
  end.
Proof.
  revert s. induction m as [a|st|c h IH| |]; intros s; simpl; try done. destruct (syscall s c). apply IH.
Qed.

(** [Stdio]: what a program that reads [fd] and writes to file 1 may count on:
    [rest] is what is left to be read and [out] what has been written.  A read
    returns some of it, at least one byte unless there is none. *)
Class Stdio (S : Type) `{!Kernel S} (fd : Z) (rest out : S -> list Z) : Prop := {
  sio_read : forall s n, 0 < n -> exists k s',
    syscall s (CRead fd n) = (Ans (Z.of_nat k) (take k (rest s)), s') /\
    (k <= length (rest s))%nat /\ Z.of_nat k <= n /\ (rest s <> [] -> (0 < k)%nat) /\
    rest s' = drop k (rest s) /\ out s' = out s;
  sio_write : forall s d, exists s',
    syscall s (CWrite 1 d) = (Ans (Z.of_nat (length d)) [], s') /\ rest s' = rest s /\ out s' = out s ++ d
}.

Section printing.
Context {S : Type} `{!Kernel S} (fd : Z) (rest out : S -> list Z) `{!Stdio S fd rest out}.

(** [p] writes [l], and nothing else happens. *)
Definition prints (p : prog unit) (l : list Z) : Prop := forall s, exists s',
  run p s = (Returned tt, s') /\ out s' = out s ++ l /\ rest s' = rest s.

Lemma prints_ret : prints (Ret tt) [].
Proof. intros s. exists s. by rewrite app_nil_r. Qed.

Lemma prints_bind p q l1 l2 : prints p l1 -> prints q l2 -> prints (p ;; q) (l1 ++ l2).
Proof.
  intros Hp Hq s. destruct (Hp s) as (s1 & E1 & O1 & R1). destruct (Hq s1) as (s2 & E2 & O2 & R2).
  exists s2. rewrite run_bind, E1, E2. rewrite O2, O1, <- app_assoc, R2, R1. done.
Qed.

Lemma prints_write d : prints (sys (CWrite 1 d) ;; Ret tt) d.
Proof.
  intros s. destruct (sio_write s d) as (s' & E & R & O). exists s'. unfold sys. simpl. rewrite E. done.
Qed.

Lemma prints_putc c : is_u8 c -> prints (putc 1 c) [c].
Proof.
  intros Hc. assert (u8 c = c) as E by (unfold u8; by apply Z.mod_small).
  unfold putc. rewrite E. apply prints_write.
Qed.

Lemma prints_puts l : Forall is_u8 l -> prints (puts 1 l) l.
Proof.
  induction 1 as [|c l Hc Hl IH]; [apply prints_ret|].
  change (prints (putc 1 c ;; puts 1 l) ([c] ++ l)). apply prints_bind; [by apply prints_putc|done].
Qed.

Lemma prints_back l : Forall is_u8 l -> prints (put_back 1 l) (rev l).
Proof.
  induction 1 as [|c l Hc Hl IH]; [apply prints_ret|].
  change (prints (put_back 1 l ;; putc 1 c) (rev l ++ [c])). apply prints_bind; [done|by apply prints_putc].
Qed.

(** [printf], one directive or character at a time. *)
Lemma prints_end : prints (printf_loop 1 [] [] false) [].
Proof. apply prints_ret. Qed.

Lemma prints_char c fmt ap l : is_u8 c -> c <> 37 ->
  prints (printf_loop 1 fmt ap false) l -> prints (printf_loop 1 (c :: fmt) ap false) (c :: l).
Proof.
  intros Hc Hne Hl. cbn [printf_loop negb]. rewrite (proj2 (Z.eqb_neq _ _) Hne).
  apply (prints_bind _ _ [c]); [by apply prints_putc|done].
Qed.

Lemma prints_d v fmt ap l1 l2 :
  prints (printint 1 (i32 v) 10 true) l1 -> prints (printf_loop 1 fmt ap false) l2 ->
  prints (printf_loop 1 (37 :: 100 :: fmt) (PInt v :: ap) false) (l1 ++ l2).
Proof. intros H1 H2. cbn [printf_loop negb Z.eqb Pos.eqb]. by apply prints_bind. Qed.

Lemma prints_s s fmt ap l : Forall is_u8 s -> prints (printf_loop 1 fmt ap false) l ->
  prints (printf_loop 1 (37 :: 115 :: fmt) (PStr (Some s) :: ap) false) (s ++ l).
Proof. intros H1 H2. cbn [printf_loop negb Z.eqb Pos.eqb orb default]. by apply prints_bind; [apply prints_puts|]. Qed.
End printing.

(** * Numbers in and out *)

(** The number that a list of digits denotes, the most significant first. *)
Definition digit_val (c : Z) : Z := if c <=? 57 then c - 48 else c - 55.
Definition number (base : Z) (l : list Z) : Z := fold_left (fun n c => n * base + digit_val c) l 0.

Lemma number_snoc base l c : number base (l ++ [c]) = number base l * base + digit_val c.
Proof. unfold number. by rewrite fold_left_app. Qed.

(** A table of digits that [digit_val] reads, as both tables of the code are. *)
Lemma digit_nth d : 0 <= d < 16 -> digit_val (nth (Z.to_nat d) digits 0) = d /\ 48 <= nth (Z.to_nat d) digits 0 < 71 /\
  (d < 10 -> nth (Z.to_nat d) digits 0 = 48 + d).
Proof.
  intros Hd. assert (forall k : nat, (k < 16)%nat -> digit_val (nth k digits 0) = Z.of_nat k /\ 48 <= nth k digits 0 < 71 /\
    (Z.of_nat k < 10 -> nth k digits 0 = 48 + Z.of_nat k)) as H.
  { intros k Hk. do 16 (destruct k as [|k]; [vm_compute; repeat split; congruence|]). lia. }
  specialize (H (Z.to_nat d) ltac:(lia)). by rewrite Z2Nat.id in H by lia.
Qed.

Section digits.
Context (base : Z) (Hbase : 2 <= base <= 16).

Lemma digit_loop_value fuel x : 0 <= x < base ^ Z.of_nat fuel -> (0 < fuel)%nat ->
  number base (rev (digit_loop digits x base fuel)) = x.
Proof.
  revert x. induction fuel as [|f IH]; intros x Hx Hf; [lia|]. cbn [digit_loop rev].
  pose proof (Z.mod_pos_bound x base ltac:(lia)) as Hm. pose proof (Z.div_mod x base ltac:(lia)) as Hd.
  assert (0 <= x / base) by (apply Z.div_pos; lia).
  rewrite number_snoc. rewrite (proj1 (digit_nth (x mod base) ltac:(lia))).
  destruct (Z.eqb_spec (x / base) 0) as [E|E]; [cbn; lia|].
  rewrite Nat2Z.inj_succ, Z.pow_succ_r in Hx by lia. destruct f as [|f].
  { exfalso. apply E. apply Z.div_small. cbn in Hx. lia. }
  rewrite IH; [lia| |lia]. split; [done|]. apply Z.div_lt_upper_bound; lia.
Qed.

Lemma digit_loop_length fuel (k : nat) x : 0 <= x < base ^ Z.of_nat k -> (0 < k)%nat ->
  (length (digit_loop digits x base fuel) <= k)%nat.
Proof.
  revert k x. induction fuel as [|f IH]; intros k x Hx Hk; cbn [digit_loop length]; [lia|].
  destruct (Z.eqb_spec (x / base) 0) as [E|E]; [cbn; lia|]. destruct k as [|k]; [lia|].
  rewrite Nat2Z.inj_succ, Z.pow_succ_r in Hx by lia. destruct k as [|k].
  { exfalso. apply E. apply Z.div_small. cbn in Hx. lia. }
  apply le_n_S, IH; [|lia]. split; [apply Z.div_pos; lia|]. apply Z.div_lt_upper_bound; lia.
Qed.

Lemma digit_loop_chars fuel x : 0 <= x -> Forall (fun c => 48 <= c < 71 /\ (base <= 10 -> 48 <= c <= 57)) (digit_loop digits x base fuel).
Proof.
  revert x. induction fuel as [|f IH]; intros x Hx; cbn [digit_loop]; [constructor|].
  pose proof (Z.mod_pos_bound x base ltac:(lia)). constructor.
  - destruct (digit_nth (x mod base) ltac:(lia)) as (_ & H1 & H2). split; [done|]. intros. rewrite H2; lia.
  - destruct (x / base =? 0); [constructor|]. apply IH. apply Z.div_pos; lia.
Qed.
End digits.

Lemma atoi_number l n : Forall (fun c => 48 <= c <= 57) l -> 0 <= n ->
  fold_left (fun n c => n * 10 + digit_val c) l n < 2 ^ 31 ->
  atoi_loop l n = fold_left (fun n c => n * 10 + digit_val c) l n.
Proof.
  intros Hl. revert n. induction Hl as [|c l Hc Hl IH]; intros n Hn Hb; simpl; [done|].
  assert (digit_val c = c - 48) as Ed by (unfold digit_val; destruct (Z.leb_spec c 57); lia).
  rewrite (proj2 (Z.leb_le _ _)), (proj2 (Z.leb_le _ _)) by lia. cbn [andb]. simpl in Hb.
  assert (forall k, 0 <= k -> k <= fold_left (fun n c => n * 10 + digit_val c) l k) as Hmono.
  { clear -Hl. induction Hl as [|c l Hc Hl IH]; intros k Hk; simpl; [lia|].
    assert (0 <= digit_val c) by (unfold digit_val; destruct (c <=? 57) eqn:E; lia).
    etransitivity; [|apply IH; lia]. lia. }
  pose proof (Hmono (n * 10 + digit_val c) ltac:(lia)) as H1.
  assert (i32 (n * 10 + c - 48) = n * 10 + digit_val c) as ->.
  { unfold i32. rewrite Z.mod_small; lia. }
  apply IH; [lia|done].
Qed.

(** Numbers survive printing: the characters that [printint] writes denote the
    number, in base 10 with a minus sign in front of a negative one, the
    smallest 32-bit integer included, and in base 16 as an unsigned word.
    [atoi] reads back what %d writes for a number that is not negative, and the
    16 bytes of the buffer are enough. *)
Theorem print_number {S} `{!Kernel S} (fd : Z) (rest out : S -> list Z) `{!Stdio S fd rest out} (xx : Z) :
  - 2 ^ 31 <= xx < 2 ^ 31 ->
  exists dec hex,
    prints rest out (printint 1 xx 10 true) dec /\ prints rest out (printint 1 xx 16 false) hex /\
    (length dec <= 11)%nat /\ (length hex <= 8)%nat /\ number 16 hex = u32 xx /\
    (if xx <? 0 then exists m, dec = 45 :: m /\ number 10 m = - xx else number 10 dec = xx /\ atoi dec = xx).
Proof.
  intros Hx. exists (rev (int_buf digits xx 10 true)), (rev (int_buf digits xx 16 false)).
  assert (forall base x, 2 <= base <= 16 -> 0 <= x -> Forall is_u8 (digit_loop digits x base 32)) as Hu8.
  { intros base x Hb H0. eapply Forall_impl; [by apply digit_loop_chars|]. intros c [Hc _]. unfold is_u8. lia. }
  assert (0 <= u32 xx < 2 ^ 32) as Hu by (unfold u32; apply Z.mod_pos_bound; lia).
  unfold printint, int_buf. cbn [andb]. rewrite app_nil_r, !length_rev.
  set (x := if xx <? 0 then u32 (- xx) else u32 xx).
  assert (x = Z.abs xx) as Ex.
  { unfold x, u32. destruct (Z.ltb_spec xx 0); rewrite Z.mod_small; lia. }
  split; [apply (prints_back fd rest out); apply Forall_app; split; [apply Hu8; lia|destruct (xx <? 0); repeat constructor; unfold is_u8; lia]|].
  split; [apply (prints_back fd rest out), Hu8; lia|]. rewrite length_app.
  pose proof (digit_loop_length 10 ltac:(lia) 32 10 x ltac:(lia) ltac:(lia)).
  pose proof (digit_loop_length 16 ltac:(lia) 32 8 (u32 xx) ltac:(lia) ltac:(lia)).
  split; [destruct (xx <? 0); cbn [length]; lia|]. split; [done|].
  assert (2 ^ 32 < 16 ^ Z.of_nat 32 /\ 2 ^ 32 < 10 ^ Z.of_nat 32) as [Hp16 Hp10] by (split; vm_compute; reflexivity).
  split; [apply digit_loop_value; [lia|split; [lia|by eapply Z.lt_trans; [apply Hu|]]|lia]|].
  assert (number 10 (rev (digit_loop digits x 10 32)) = x) as Hn.
  { apply digit_loop_value; [lia|split; [lia|]|lia]. by apply Z.le_lt_trans with (2 ^ 32); [lia|]. }
  rewrite rev_app_distr. destruct (Z.ltb_spec xx 0) as [Hneg|Hpos]; cbn [rev app].
  - exists (rev (digit_loop digits x 10 32)). split; [done|lia].
  - split; [lia|]. unfold atoi. rewrite atoi_number; [unfold number in Hn; lia| |lia|unfold number in Hn; lia].
    apply Forall_rev. eapply Forall_impl; [apply (digit_loop_chars 10); lia|]. intros c [_ Hc]. apply Hc. lia.
Qed.

(** * A kernel to run on: one input stream, cut into reads of at most [t_max]+1
      bytes, and one output stream; every other call fails. *)
Record term := Term { t_in : list Z; t_out : list Z; t_max : nat }.

#[export] Instance term_kernel : Kernel term := fun s c =>
  match c with
  | CRead _ n =>
      let k := Nat.min (Z.to_nat n) (Nat.min (S (t_max s)) (length (t_in s))) in
      (Ans (Z.of_nat k) (take k (t_in s)), Term (drop k (t_in s)) (t_out s) (t_max s))
  | CWrite 1 d => (Ans (Z.of_nat (length d)) [], Term (t_in s) (t_out s ++ d) (t_max s))
  | _ => (Ans (-1) [], s)
  end.

#[export] Instance term_stdio fd : Stdio term fd t_in t_out.
Proof.
  split.
  - intros s n Hn. eexists _, _. split; [done|]. cbn [t_in t_out]. repeat split; try lia.
    destruct (t_in s); [done|]. simpl. lia.
  - intros s d. eexists. done.
Qed.

Lemma print_number_witness :
  exists dec hex,
    prints t_in t_out (printint 1 (-305) 10 true) dec /\ prints t_in t_out (printint 1 (-305) 16 false) hex /\
    (length dec <= 11)%nat /\ (length hex <= 8)%nat /\ number 16 hex = u32 (-305) /\
    (if -305 <? 0 then exists m, dec = 45 :: m /\ number 10 m = - (-305) else number 10 dec = -305 /\ atoi dec = -305).
Proof. apply (print_number 0 t_in t_out (-305)). lia. Defined.
