(* ===== verification/Umalloc.v ===== *)
(** The memory allocator of user programs (umalloc.c): the circular list of free
    blocks in the memory of the process, [malloc], [free] and [morecore].  Blocks
    that are in use do not overlap each other or the list, and the allocator does
    not touch their contents. *)
From stdpp Require Import base numbers list gmap strings.
From Stdlib Require Import ZArith Lia.
From S2P Require Import Prelude Bytes Mem.

Open Scope kernel_scope.

(** The memory of the process, the static [freep], and the end of the process
    that [sbrk] moves. *)
Record heap := Heap { h_mem : mem; h_freep : Z; h_brk : Z }.

Definition set_h_mem (m : mem) (h : heap) : heap := Heap m (h_freep h) (h_brk h).
Definition set_h_freep (p : Z) (h : heap) : heap := Heap (h_mem h) p (h_brk h).
Definition set_h_brk (b : Z) (h : heap) : heap := Heap (h_mem h) (h_freep h) b.

(** [sizeof(Header)]; [s.ptr] is at offset 0, and [s.size] at offset 4. *)
Definition HEADER : Z := 8.

Definition h_ptr (p : Z) : M heap Z := gets (fun h => ld32 (h_mem h) p).
Definition h_size (p : Z) : M heap Z := gets (fun h => ld32 (h_mem h) (u32 (p + 4))).
Definition set_ptr (p v : Z) : M heap unit := modify (fun h => set_h_mem (st32 (h_mem h) p v) h).
Definition set_size (p v : Z) : M heap unit := modify (fun h => set_h_mem (st32 (h_mem h) (u32 (p + 4)) v) h).
Definition set_freep (p : Z) : M heap unit := modify (set_h_freep p).

(** [p + n] of pointers to headers. *)
Definition padd (p n : Z) : Z := u32 (p + HEADER * n).

Section umalloc.
(** The address of the static [base], and when the kernel lets the process grow. *)
Context (base : Z) (grows : Z -> Z -> bool).

(** The system call [sbrk]: the old end of the process, or -1. *)
Definition sbrk (n : Z) : M heap Z :=
  b <- gets h_brk ;;
  if grows b (i32 n) then
    modify (set_h_brk (u32 (b + i32 n))) ;;
    ret b
  else ret (u32 (-1)).

(** The search of [free] from [p] on, for the place of [bp] in the list. *)
Fixpoint free_loop (bp p : Z) (fuel : nat) : M heap Z :=
  match fuel with
  | O => diverge
  | S f =>
      q <- h_ptr p ;;
      if (p <? bp) && (bp <? q) then ret p else
      if (q <=? p) && ((p <? bp) || (bp <? q)) then ret p else
      free_loop bp q f
  end.

Definition free (ap : Z) (fuel : nat) : M heap unit :=
  let bp := padd ap (-1) in
  p <- gets h_freep ;;
  p <- free_loop bp p fuel ;;
  sz <- h_size bp ;;
  q <- h_ptr p ;;
  (if padd bp sz =? q then
     qsz <- h_size q ;;
     set_size bp (u32 (sz + qsz)) ;;
     qq <- h_ptr q ;;
     set_ptr bp qq
   else set_ptr bp q) ;;
  psz <- h_size p ;;
  (if padd p psz =? bp then
     bsz <- h_size bp ;;
     set_size p (u32 (psz + bsz)) ;;
     bptr <- h_ptr bp ;;
     set_ptr p bptr
   else set_ptr p bp) ;;
  set_freep p.

(** [morecore]; 0 is the null pointer. *)
Definition morecore (nu : Z) (fuel : nat) : M heap Z :=
  let nu := if nu <? 4096 then 4096 else nu in
  p <- sbrk (u32 (nu * HEADER)) ;;
  if p =? u32 (-1) then ret 0 else
  set_size p nu ;;
  free (padd p 1) fuel ;;
  gets h_freep.

(** The search of [malloc] after [prevp]. *)
Fixpoint malloc_loop (nunits prevp : Z) (fuel : nat) : M heap Z :=
  match fuel with
  | O => diverge
  | S f =>
      p <- h_ptr prevp ;;
      sz <- h_size p ;;
      if nunits <=? sz then
        p <- (if sz =? nunits then
                q <- h_ptr p ;;
                set_ptr prevp q ;;
                ret p
              else
                set_size p (u32 (sz - nunits)) ;;
                let p := padd p (u32 (sz - nunits)) in
                set_size p nunits ;;
                ret p) ;;
        set_freep prevp ;;
        ret (padd p 1)
      else
        fp <- gets h_freep ;;
        if p =? fp then
          p <- morecore nunits f ;;
          if p =? 0 then ret 0 else malloc_loop nunits p f
        else malloc_loop nunits p f
  end.

Definition nunits_of (nbytes : Z) : Z := u32 (u32 (u32 (nbytes + HEADER) - 1) / HEADER + 1).

Definition malloc (nbytes : Z) (fuel : nat) : M heap Z :=
  let nunits := nunits_of nbytes in
  prevp <- gets h_freep ;;
  prevp <- (if prevp =? 0 then
              set_ptr base base ;;
              set_freep base ;;
              set_size base 0 ;;
              ret base
            else ret prevp) ;;
  malloc_loop nunits prevp fuel.
End umalloc.

(** * The list of free blocks *)

(** A block: the address of its header, and its size in headers. *)
Abbreviation blk := (Z * Z)%type.
Definition bend (b : blk) : Z := b.1 + HEADER * b.2.

(** The address of the first block of [l], [e] if there is none. *)
Definition nxt (l : list blk) (e : Z) : Z := match l with [] => e | b :: _ => b.1 end.

(** The blocks of [l] are linked in this order, and the last one to [e]. *)
Fixpoint links (m : mem) (l : list blk) (e : Z) : Prop :=
  match l with
  | [] => True
  | b :: l' => ld32 m b.1 = nxt l' e /\ ld32 m (b.1 + 4) = b.2 /\ links m l' e
  end.

(** Ascending addresses from [lo] on, each block with a gap before it. *)
Fixpoint sorted (lo : Z) (l : list blk) : Prop :=
  match l with
  | [] => True
  | b :: l' => lo < b.1 /\ 1 <= b.2 /\ sorted (bend b) l'
  end.

Definition disj (b c : blk) : Prop := bend b <= c.1 \/ bend c <= b.1.

Fixpoint apart (l : list blk) : Prop :=
  match l with
  | [] => True
  | b :: l' => Forall (disj b) l' /\ apart l'
  end.

(** The end of a process cannot pass KERNBASE. *)
Definition LIMIT : Z := 2 ^ 31.

(** The heap with the free blocks [fs], in the order of their addresses, after
    [base], and the blocks [used] that are not free. *)
Record hrep (base : Z) (fs used : list blk) (h : heap) : Prop := Hrep {
  hr_chain : links (h_mem h) ((base, 0) :: fs) base;
  hr_sorted : sorted (base + 7) fs;
  hr_freep : h_freep h ∈ base :: fs.*1;
  hr_size : Forall (fun u => ld32 (h_mem h) (u.1 + 4) = u.2) used;
  hr_apart : apart used;
  hr_disj : Forall (fun u => Forall (disj u) fs) used;
  hr_used : Forall (fun u => base + 8 <= u.1 /\ 1 <= u.2 /\ bend u <= h_brk h) used;
  hr_fs : Forall (fun b => bend b <= h_brk h) fs;
  hr_base : 0 < base;
  hr_brk : base + 8 <= h_brk h <= LIMIT
}.

(** The headers in the blocks of a list. *)
Definition tot (l : list blk) : Z := foldr (fun b t => b.2 + t) 0 l.

Lemma tot_cons b l : tot (b :: l) = b.2 + tot l.
Proof. done. Qed.
Lemma tot_app l k : tot (l ++ k) = tot l + tot k.
Proof. induction l as [|b l IH]; [done|]. rewrite <- app_comm_cons, !tot_cons, IH. lia. Qed.

Lemma nxt_app l k e : nxt (l ++ k) e = nxt l (nxt k e).
Proof. by destruct l. Qed.

Lemma links_app m l k e : links m (l ++ k) e <-> links m l (nxt k e) /\ links m k e.
Proof. induction l as [|b l IH]; simpl; [tauto|]. rewrite nxt_app, IH. tauto. Qed.

Lemma ld32_frame m m' a : (forall d, 0 <= d < 4 -> ld m' (a + d) = ld m (a + d)) -> ld32 m' a = ld32 m a.
Proof.
  intros H. pose proof (H 0 ltac:(lia)) as H0. rewrite Z.add_0_r in H0. unfold ld32.
  rewrite H0, (H 1), (H 2), (H 3) by lia. done.
Qed.

(** Memory that agrees on the headers of the blocks. *)
Lemma links_frame m m' l e :
  (forall b d, b ∈ l -> 0 <= d < 8 -> ld m' (b.1 + d) = ld m (b.1 + d)) -> links m l e -> links m' l e.
Proof.
  induction l as [|b l IH]; intros H; [done|]. simpl. intros (H1 & H2 & H3). split_and!.
  - rewrite <- H1. apply ld32_frame. intros d Hd. apply H; [set_solver|lia].
  - rewrite <- H2. apply ld32_frame. intros d Hd. rewrite <- !Z.add_assoc. apply H; [set_solver|lia].
  - apply IH; [|done]. intros c d Hc. apply H. set_solver.
Qed.

Definition lend (lo : Z) (l : list blk) : Z := match last l with Some b => bend b | None => lo end.

Lemma lend_cons lo b l : lend lo (b :: l) = lend (bend b) l.
Proof. unfold lend. rewrite last_cons. by destruct (last l). Qed.

Lemma sorted_app lo l k : sorted lo (l ++ k) <-> sorted lo l /\ sorted (lend lo l) k.
Proof.
  revert lo. induction l as [|b l IH]; intros lo; simpl; [unfold lend; simpl; tauto|].
  rewrite IH, lend_cons. tauto.
Qed.

Lemma sorted_weaken lo lo' l : sorted lo l -> lo' <= lo -> sorted lo' l.
Proof. destruct l; simpl; [done|]. intros (? & ? & ?) ?. split_and!; [lia|done|done]. Qed.

Lemma sorted_in lo l b : sorted lo l -> b ∈ l -> lo < b.1 /\ 1 <= b.2.
Proof.
  revert lo. induction l as [|c l IH]; intros lo; [set_solver|]. simpl. intros (H1 & H2 & H3) [->|Hb]%elem_of_cons; [done|].
  destruct (IH _ H3 Hb). unfold bend, HEADER in *. split; lia.
Qed.

(** In the order of the list. *)
Lemma sorted_split lo l k b c : sorted lo (l ++ k) -> b ∈ l -> c ∈ k -> bend b < c.1.
Proof.
  revert lo. induction l as [|d l IH]; intros lo; [set_solver|]. simpl.
  intros (H1 & H2 & H3) [->|Hb]%elem_of_cons Hc; [|by eapply IH].
  apply (sorted_in _ _ c) in H3; [lia|set_solver].
Qed.

Lemma apart_perm l k : l ≡ₚ k -> apart l -> apart k.
Proof.
  induction 1 as [|b l k HP IH|b c l|l k j H1 IH1 H2 IH2]; simpl; [done| | |auto].
  - intros [Hf Ha]. split; [by rewrite <- HP|auto].
  - intros [[Hbc Hb]%Forall_cons [Hc Ha]]. split; [|done]. constructor; [unfold disj in *; lia|done].
Qed.

Section list.
Context (base : Z).

Notation lst fs := ((base, 0) :: fs).

Definition nexta (l : list blk) (i : nat) : Z := nxt (drop (S i) l) base.

Lemma links_lookup m l e i b :
  links m l e -> l !! i = Some b -> ld32 m b.1 = nxt (drop (S i) l) e /\ ld32 m (b.1 + 4) = b.2.
Proof.
  revert i. induction l as [|c l IH]; intros i; [done|]. simpl. intros (H1 & H2 & H3). destruct i as [|i]; simpl.
  - intros [= ->]. by rewrite drop_0.
  - intros Hb. by apply IH.
Qed.

(** Ascending order, by index. *)
Lemma asc fs i j b c : sorted (base + 7) fs -> lst fs !! i = Some b -> lst fs !! j = Some c -> (i < j)%nat -> b.1 + 8 <= c.1.
Proof.
  intros Hs Hi Hj Hij. destruct j as [|j]; [lia|]. simpl in Hj. pose proof (list_elem_of_lookup_2 _ _ _ Hj) as Hc.
  destruct i as [|i]; simpl in Hi.
  - injection Hi as <-. apply (sorted_in _ _ c) in Hs; [|done]. simpl. lia.
  - rewrite <- (take_drop j fs) in Hs.
    assert (b ∈ take j fs) as Hb by (apply (list_elem_of_lookup_2 _ i); rewrite lookup_take_lt; [done|lia]).
    assert (c ∈ drop j fs) as Hd by (apply (list_elem_of_lookup_2 _ 0); rewrite lookup_drop, Nat.add_0_r; done).
    pose proof (sorted_split _ _ _ b c Hs Hb Hd). apply sorted_app in Hs as [Hs _].
    destruct (sorted_in _ _ b Hs Hb). unfold bend, HEADER in *. lia.
Qed.

Lemma nexta_lookup l i c : l !! S i = Some c -> nexta l i = c.1.
Proof. intros H. unfold nexta. by rewrite (drop_S _ _ _ H). Qed.
Lemma nexta_last l i : length l = S i -> nexta l i = base.
Proof. intros H. unfold nexta. by rewrite drop_ge by lia. Qed.

(** The index of the block after the one at [i], around the list. *)
Definition succ (l : list blk) (i : nat) : nat := if decide (S i < length l)%nat then S i else 0%nat.

Lemma succ_lookup fs i b :
  lst fs !! i = Some b -> exists c, lst fs !! succ (lst fs) i = Some c /\ c.1 = nexta (lst fs) i.
Proof.
  intros Hb. pose proof (lookup_lt_Some _ _ _ Hb) as Hi. unfold succ. case_decide as E.
  - destruct (lookup_lt_is_Some_2 (lst fs) (S i) E) as [c Hc]. exists c. split; [done|]. symmetry. by apply nexta_lookup.
  - exists (base, 0). split; [done|]. simpl. symmetry. apply nexta_last. lia.
Qed.

(** The steps from [k] to [i], around the list. *)
Definition dist (l : list blk) (k i : nat) : nat := if decide (k <= i)%nat then (i - k)%nat else (length l - k + i)%nat.

Lemma dist_succ l k i : (k < length l)%nat -> (i < length l)%nat -> k <> i -> dist l k i = S (dist l (succ l k) i).
Proof. intros Hk Hi Hne. unfold dist, succ. repeat case_decide; lia. Qed.

Lemma dist_lt l k i : (k < length l)%nat -> (i < length l)%nat -> (dist l k i < length l)%nat.
Proof. intros Hk Hi. unfold dist. case_decide; lia. Qed.

(** The test of [free] at a block [a] that is followed by [q]. *)
Definition stopf (bp a q : Z) : bool := (a <? bp) && (bp <? q) || (q <=? a) && ((a <? bp) || (bp <? q)).

Lemma free_loop_walk fs bp i0 p fuel : forall k b h,
  links (h_mem h) (lst fs) base -> lst fs !! i0 = Some p ->
  (forall i b, lst fs !! i = Some b -> stopf bp b.1 (nexta (lst fs) i) = bool_decide (i = i0)) ->
  lst fs !! k = Some b -> (dist (lst fs) k i0 < fuel)%nat -> free_loop bp b.1 fuel h = Ok p.1 h.
Proof.
  induction fuel as [|f IH]; intros k b h Hch Hp Hst Hb Hf; [lia|]. cbn [free_loop].
  unfold bind at 1, h_ptr, gets. destruct (links_lookup _ _ _ _ _ Hch Hb) as [-> _]. fold (nexta (lst fs) k).
  pose proof (Hst k b Hb) as E. unfold stopf in E. destruct (succ_lookup _ _ _ Hb) as (c & Hc & Ec).
  rewrite <- Ec in *. clear Ec. case_bool_decide as Hk.
  - subst k. assert (b = p) as -> by congruence. apply orb_true_iff in E as [E|E]; rewrite E; [done|]. by case_match.
  - apply orb_false_iff in E as [-> ->]. apply (IH (succ (lst fs) k)); try done.
    rewrite dist_succ in Hf; [lia|by apply lookup_lt_Some in Hb|by apply lookup_lt_Some in Hp|done].
Qed.

(** The place of [bp] between the blocks [f1] and [f2]. *)
Lemma sorted_place lo fs bp :
  sorted lo fs -> Forall (fun b => b.1 <> bp) fs ->
  exists f1 f2, fs = f1 ++ f2 /\ Forall (fun b => b.1 < bp) f1 /\ Forall (fun b => bp < b.1) f2.
Proof.
  revert lo. induction fs as [|b fs IH]; intros lo; [by exists [], []|]. simpl.
  intros (H1 & H2 & H3) [Hb Hf]%Forall_cons. destruct (decide (b.1 < bp)) as [Hlt|].
  - destruct (IH _ H3 Hf) as (f1 & f2 & -> & Hf1 & Hf2). exists (b :: f1), f2. split; [done|]. split; [by constructor|done].
  - exists [], (b :: fs). split; [done|]. split; [done|]. apply Forall_cons. split; [lia|]. apply Forall_forall.
    intros c Hc. apply (sorted_in _ _ c) in H3; [|done]. unfold bend, HEADER in H3. lia.
Qed.

Lemma stopf_place f1 f2 bp i b :
  sorted (base + 7) (f1 ++ f2) -> base < bp -> Forall (fun b => b.1 < bp) f1 -> Forall (fun b => bp < b.1) f2 ->
  lst (f1 ++ f2) !! i = Some b -> stopf bp b.1 (nexta (lst (f1 ++ f2)) i) = bool_decide (i = length f1).
Proof.
  intros Hs Hbp H1 H2 Hb. rewrite Forall_lookup in H1, H2.
  assert (forall j c, lst (f1 ++ f2) !! j = Some c -> (j <= length f1)%nat /\ c.1 < bp \/ (length f1 < j)%nat /\ bp < c.1) as Hside.
  { intros [|j] c; simpl; [intros [= <-]; left; split; [lia|done]|]. rewrite lookup_app_Some. intros [Hc|[Hl Hc]].
    - left. split; [apply lookup_lt_Some in Hc; lia|by eapply H1].
    - right. split; [lia|by eapply H2]. }
  assert (base <= b.1) as Hge.
  { destruct i as [|i]; [by injection Hb as <-|]. pose proof (asc _ 0 (S i) (base, 0) b Hs eq_refl Hb ltac:(lia)). simpl in *. lia. }
  destruct (Hside _ _ Hb) as [[Hi Hlt]|[Hi Hlt]].
  all: destruct (lst (f1 ++ f2) !! S i) as [c|] eqn:Hc.
  all: try (rewrite (nexta_lookup _ _ _ Hc); pose proof (asc _ _ _ _ _ Hs Hb Hc ltac:(lia)); destruct (Hside _ _ Hc) as [[? ?]|[? ?]]).
  all: try (rewrite nexta_last by (apply lookup_ge_None in Hc; apply lookup_lt_Some in Hb; lia)).
  all: unfold stopf; case_bool_decide; repeat first [destruct (Z.ltb_spec _ _) | destruct (Z.leb_spec _ _)]; simpl; try done; try lia.
  all: try (apply lookup_ge_None in Hc; simpl in Hc; rewrite length_app in Hc; lia).
Qed.
End list.

(** * Putting a block into the list *)

(** The block [(bp, u)] with the one after it, if they touch. *)
Definition rjoin (bp u : Z) (f2 : list blk) : Z * list blk :=
  match f2 with
  | c :: f2' => if bp + HEADER * u =? c.1 then (u + c.2, f2') else (u, f2)
  | [] => (u, [])
  end.

Definition free_right (bp p : Z) : M heap unit :=
  sz <- h_size bp ;;
  q <- h_ptr p ;;
  if padd bp sz =? q then
    qsz <- h_size q ;;
    set_size bp (u32 (sz + qsz)) ;;
    qq <- h_ptr q ;;
    set_ptr bp qq
  else set_ptr bp q.

Definition free_left (bp p : Z) : M heap unit :=
  psz <- h_size p ;;
  if padd p psz =? bp then
    bsz <- h_size bp ;;
    set_size p (u32 (psz + bsz)) ;;
    bptr <- h_ptr bp ;;
    set_ptr p bptr
  else set_ptr p bp.

Lemma free_eq ap fuel h :
  free ap fuel h =
  (p <- gets h_freep ;; p <- free_loop (padd ap (-1)) p fuel ;;
   free_right (padd ap (-1)) p ;; free_left (padd ap (-1)) p ;; set_freep p) h.
Proof.
  unfold free, free_right, free_left, bind, h_size, h_ptr, set_size, set_ptr, set_freep, modify, gets. cbn beta iota.
  destruct (free_loop _ _ _ _) as [p h1| | |]; [|done..].
  match goal with |- context [if ?b then _ else _] => by destruct b end.
Qed.

(** Nothing but the header at [bp] changes. *)
Definition only_header (bp : Z) (m m' : mem) : Prop := forall a, a < bp \/ bp + 8 <= a -> ld m' a = ld m a.

Lemma only_header_chain bp m m' l e :
  only_header bp m m' -> Forall (fun b => b.1 + 8 <= bp \/ bp + 8 <= b.1) l -> links m l e -> links m' l e.
Proof.
  intros Ho Hl. apply links_frame. intros b d Hb Hd. rewrite Forall_forall in Hl. specialize (Hl b Hb). apply Ho. lia.
Qed.

Lemma u32_fits z : 0 <= z < 2 ^ 32 -> u32 z = z.
Proof. apply u32_id. Qed.

Section link.
Context (base : Z).

Lemma free_right_ok h bp u p f2 :
  let m := h_mem h in
  ld32 m (bp + 4) = u -> ld32 m p = nxt f2 base -> links m f2 base ->
  0 < base -> base + 8 <= bp -> 1 <= u -> bp + HEADER * u <= LIMIT -> sorted (bp + HEADER * u - 1) f2 ->
  Forall (fun b => bend b <= LIMIT) f2 ->
  exists m1, free_right bp p h = Ok tt (set_h_mem m1 h) /\ only_header bp m m1 /\
    ld32 m1 bp = nxt (rjoin bp u f2).2 base /\ ld32 m1 (bp + 4) = (rjoin bp u f2).1 /\ links m1 (rjoin bp u f2).2 base.
Proof.
  intros m Hu Hp Hc Hb0 Hb Hu1 Hend Hs Hf2. unfold LIMIT, HEADER in *.
  unfold free_right, bind at 1 2, h_size at 1, h_ptr at 1, gets. fold m. rewrite (u32_fits (bp + 4)) by lia. rewrite Hu, Hp.
  unfold padd, HEADER. rewrite u32_fits by lia.
  assert (Hpt : forall v, exists m1, set_ptr bp v h = Ok tt (set_h_mem m1 h) /\ only_header bp m m1 /\
     ld32 m1 bp = u32 v /\ ld32 m1 (bp + 4) = u).
  { intros v. exists (st32 m bp v). split; [done|]. split; [intros a Ha; apply ld_st32_ne; lia|].
    split; [apply ld32_st32_eq|]. rewrite ld32_st32_ne by lia. done. }
  destruct f2 as [|c f2]; cbn [nxt rjoin].
  - destruct (Z.eqb_spec (bp + 8 * u) base); [lia|]. destruct (Hpt base) as (m1 & E & Ho & E1 & E2). exists m1.
    cbn [fst snd nxt]. split_and!; try done. rewrite E1. apply u32_fits. lia.
  - destruct Hs as (Hs1 & Hs2 & Hs3). apply Forall_cons in Hf2 as [Hc2 Hf2]. destruct Hc as (Hc0 & Hc1 & Hc).
    unfold bend, HEADER in *. pose proof (ld32_range m c.1) as Hr. unfold is_u32 in Hr.
    assert (forall b, b ∈ f2 -> bp + 8 <= b.1) as Hf.
    { intros b Hin. apply (sorted_in _ _ b) in Hs3; [lia|done]. }
    destruct (Z.eqb_spec (bp + 8 * u) c.1) as [Hj|Hj]; cbn [fst snd].
    + unfold bind at 1, h_size, gets. fold m. rewrite (u32_fits (c.1 + 4)), Hc1 by lia.
      unfold bind at 1, set_size, modify. unfold bind at 1, h_ptr, gets. cbn [h_mem set_h_mem]. fold m.
      rewrite (u32_fits (bp + 4)), (u32_fits (u + c.2)) by lia. rewrite ld32_st32_ne by lia. rewrite Hc0.
      exists (st32 (st32 m (bp + 4) (u + c.2)) bp (nxt f2 base)). split; [done|].
      assert (only_header bp m (st32 (st32 m (bp + 4) (u + c.2)) bp (nxt f2 base))) as Ho.
      { intros a Ha. rewrite !ld_st32_ne by lia. done. }
      split; [done|]. split; [rewrite ld32_st32_eq; apply u32_fits; rewrite <- Hc0; done|].
      split; [rewrite ld32_st32_ne, ld32_st32_eq by lia; apply u32_fits; lia|].
      eapply only_header_chain; [done| |done]. apply Forall_forall. intros b Hin. right. by apply Hf.
    + destruct (Hpt c.1) as (m1 & E & Ho & E1 & E2). exists m1. split; [done|]. split; [done|].
      split; [cbn [nxt]; rewrite E1; apply u32_fits; lia|]. split; [done|].
      eapply only_header_chain; [done| |by split_and!]. apply Forall_forall. intros b [->|Hin]%elem_of_cons; right; [lia|by apply Hf].
Qed.

Lemma free_left_ok h bp u p ps rest :
  let m := h_mem h in
  ld32 m (p + 4) = ps -> ld32 m bp = nxt rest base -> ld32 m (bp + 4) = u ->
  0 < p -> p + 8 <= bp -> 0 <= ps -> p + HEADER * ps <= bp -> 1 <= u -> bp + HEADER * u <= LIMIT ->
  exists m1, free_left bp p h = Ok tt (set_h_mem m1 h) /\ only_header p m m1 /\
    if p + HEADER * ps =? bp then ld32 m1 p = nxt rest base /\ ld32 m1 (p + 4) = ps + u
    else ld32 m1 p = bp /\ ld32 m1 (p + 4) = ps.
Proof.
  intros m Hps Hbp Hu Hp0 Hp Hp1 Hp2 Hu1 Hend. unfold LIMIT, HEADER in *. pose proof (ld32_range m bp) as Hr. unfold is_u32 in Hr.
  unfold free_left, bind at 1, h_size at 1, gets. fold m. rewrite (u32_fits (p + 4)) by lia. rewrite Hps.
  unfold padd, HEADER. rewrite u32_fits by lia. destruct (Z.eqb_spec (p + 8 * ps) bp) as [Hj|Hj].
  - unfold bind at 1, h_size, gets. fold m. rewrite (u32_fits (bp + 4)), Hu by lia.
    unfold bind at 1, set_size, modify. unfold bind at 1, h_ptr, gets. cbn [h_mem set_h_mem]. fold m.
    rewrite (u32_fits (p + 4)), (u32_fits (ps + u)) by lia. rewrite ld32_st32_ne by lia. rewrite Hbp.
    exists (st32 (st32 m (p + 4) (ps + u)) p (nxt rest base)). split; [done|]. split; [intros a Ha; rewrite !ld_st32_ne by lia; done|].
    split; [rewrite ld32_st32_eq; apply u32_fits; rewrite <- Hbp; done|].
    rewrite ld32_st32_ne, ld32_st32_eq by lia. apply u32_fits. lia.
  - exists (st32 m p bp). split; [done|]. split; [intros a Ha; apply ld_st32_ne; lia|].
    rewrite ld32_st32_eq, ld32_st32_ne by lia. split; [apply u32_fits; lia|done].
Qed.
End link.

Lemma rjoin_sorted bp u f2 :
  1 <= u -> sorted (bp + HEADER * u - 1) f2 ->
  u <= (rjoin bp u f2).1 /\ sorted (bp + HEADER * (rjoin bp u f2).1) (rjoin bp u f2).2.
Proof.
  unfold HEADER. intros Hu. destruct f2 as [|c f2]; cbn [rjoin]; [by split|]. cbn [sorted]. intros (H1 & H2 & H3). unfold HEADER.
  destruct (Z.eqb_spec (bp + 8 * u) c.1) as [E|E]; cbn [fst snd sorted].
  - split; [lia|]. eapply sorted_weaken; [done|]. unfold bend, HEADER. lia.
  - split; [lia|]. split_and!; [lia|done..].
Qed.

(** What is true of the blocks is true of the joined one. *)
Lemma rjoin_disj v bp u f2 :
  1 <= u -> 1 <= v.2 -> sorted (bp + HEADER * u - 1) f2 -> disj v (bp, u) -> Forall (disj v) f2 ->
  disj v (bp, (rjoin bp u f2).1) /\ Forall (disj v) (rjoin bp u f2).2.
Proof.
  unfold HEADER. intros Hu Hv. destruct f2 as [|c f2]; cbn [rjoin]; [by split|]. cbn [sorted].
  intros (H1 & H2 & _) Hd [Hc Hf]%Forall_cons. unfold HEADER.
  destruct (Z.eqb_spec (bp + 8 * u) c.1) as [E|E]; cbn [fst snd].
  - split; [|done]. unfold disj, bend, HEADER in *. cbn [fst snd] in *. lia.
  - split; [done|]. by constructor.
Qed.

Lemma rjoin_brk brk bp u f2 :
  bp + HEADER * u <= brk -> Forall (fun b => bend b <= brk) f2 ->
  bp + HEADER * (rjoin bp u f2).1 <= brk /\ Forall (fun b => bend b <= brk) (rjoin bp u f2).2.
Proof.
  unfold HEADER. intros Hb. destruct f2 as [|c f2]; cbn [rjoin]; [by split|]. intros [Hc Hf]%Forall_cons. unfold HEADER, bend, HEADER in *.
  destruct (Z.eqb_spec (bp + 8 * u) c.1) as [E|E]; cbn [fst snd]; split; try done; try lia. by constructor.
Qed.

(** The blocks before the new one, the last of them joined with it if they touch. *)
Definition ljoin (f1 : list blk) (bp u : Z) : list blk :=
  match last f1 with
  | Some p => if bend p =? bp then take (length f1 - 1) f1 ++ [(p.1, p.2 + u)] else f1 ++ [(bp, u)]
  | None => [(bp, u)]
  end.

Lemma ljoin_nil bp u : ljoin [] bp u = [(bp, u)].
Proof. done. Qed.
Lemma ljoin_snoc f p bp u :
  ljoin (f ++ [p]) bp u = if bend p =? bp then f ++ [(p.1, p.2 + u)] else f ++ [p; (bp, u)].
Proof.
  unfold ljoin. rewrite last_snoc. case_match; [|by rewrite <- app_assoc].
  rewrite length_app. simpl. by replace (length f + 1 - 1)%nat with (length f) by lia; rewrite take_app_length.
Qed.

(** A list is empty or has a last element. *)
Lemma nil_or_snoc {A} (l : list A) : l = [] \/ exists k x, l = k ++ [x].
Proof. destruct l as [|x k] using rev_ind; [by left|]. right. by exists k, x. Qed.

Lemma ljoin_sorted lo f1 bp u rest :
  sorted lo f1 -> lo < bp -> Forall (fun b => bend b <= bp) f1 -> 1 <= u -> sorted (bp + HEADER * u) rest ->
  sorted lo (ljoin f1 bp u ++ rest).
Proof.
  intros Hs Hlo Hb Hu Hr. destruct (nil_or_snoc f1) as [->|(f & p & ->)].
  - rewrite ljoin_nil. split_and!; [done|done|]. done.
  - rewrite ljoin_snoc. apply sorted_app in Hs as [Hs (H1 & H2 & _)]. apply Forall_app in Hb as [_ [Hb _]%Forall_cons].
    unfold bend, HEADER in Hb. destruct (Z.eqb_spec (bend p) bp) as [E|E]; rewrite <- app_assoc; apply sorted_app; (split; [done|]); simpl.
    + split_and!; [done|lia|]. eapply sorted_weaken; [done|]. unfold bend, HEADER in *. simpl. lia.
    + unfold bend, HEADER in *. split_and!; try done; simpl; try lia.
Qed.

Lemma ljoin_disj v f1 bp u :
  1 <= u -> 1 <= v.2 -> Forall (fun b => 1 <= b.2) f1 -> disj v (bp, u) -> Forall (disj v) f1 -> Forall (disj v) (ljoin f1 bp u).
Proof.
  intros Hu Hv Hp Hd Hf. destruct (nil_or_snoc f1) as [->|(f & p & ->)]; [by rewrite ljoin_nil; constructor|].
  rewrite ljoin_snoc. apply Forall_app in Hf as [Hf [Hp1 _]%Forall_cons]. apply Forall_app in Hp as [_ [Hp2 _]%Forall_cons].
  destruct (Z.eqb_spec (bend p) bp) as [E|E]; apply Forall_app; (split; [done|]); repeat (apply Forall_cons; split); try done.
  unfold disj, bend, HEADER in *. cbn [fst snd] in *. lia.
Qed.

Lemma ljoin_brk brk f1 bp u :
  bp + HEADER * u <= brk -> Forall (fun b => bend b <= brk) f1 -> Forall (fun b => bend b <= brk) (ljoin f1 bp u).
Proof.
  intros Hb Hf. destruct (nil_or_snoc f1) as [->|(f & p & ->)]; [by rewrite ljoin_nil; constructor|].
  rewrite ljoin_snoc. apply Forall_app in Hf as [Hf [Hp _]%Forall_cons].
  destruct (Z.eqb_spec (bend p) bp) as [E|E]; apply Forall_app; (split; [done|]); repeat (apply Forall_cons; split); try done.
  unfold bend, HEADER in *. cbn [fst snd]. lia.
Qed.

Lemma rjoin_length bp u f2 : (length (rjoin bp u f2).2 <= length f2)%nat.
Proof. destruct f2 as [|c f2]; cbn [rjoin]; [done|]. destruct (_ =? _); simpl; lia. Qed.
Lemma ljoin_length f1 bp u : (length (ljoin f1 bp u) <= S (length f1))%nat.
Proof.
  destruct (nil_or_snoc f1) as [->|(f & q & ->)]; [done|]. rewrite ljoin_snoc. destruct (_ =? _); rewrite !length_app; simpl; lia.
Qed.

(** Nothing is lost. *)
Lemma rjoin_tot bp u f2 : (rjoin bp u f2).1 + tot (rjoin bp u f2).2 = u + tot f2.
Proof. destruct f2 as [|c f2]; cbn [rjoin]; [done|]. destruct (_ =? _); cbn [fst snd]; rewrite ?tot_cons; lia. Qed.
Lemma ljoin_tot f1 bp u : tot (ljoin f1 bp u) = tot f1 + u.
Proof.
  destruct (nil_or_snoc f1) as [->|(f & q & ->)]; [rewrite ljoin_nil, tot_cons; simpl; lia|]. rewrite ljoin_snoc.
  destruct (_ =? _); rewrite !tot_app, !tot_cons; simpl; lia.
Qed.

(** A block of the list is as big as the new one. *)
Lemma ljoin_big f1 bp u : Forall (fun b => 1 <= b.2) f1 -> exists c, c ∈ ljoin f1 bp u /\ u <= c.2.
Proof.
  intros Hp. destruct (nil_or_snoc f1) as [->|(f & p & ->)]; [exists (bp, u); rewrite ljoin_nil; set_solver by lia|].
  rewrite ljoin_snoc. apply Forall_app in Hp as [_ [Hp _]%Forall_cons]. destruct (bend p =? bp).
  - exists (p.1, p.2 + u). split; [set_solver|simpl; lia].
  - exists (bp, u). split; [set_solver|simpl; lia].
Qed.

Section free.
Context (base : Z).
Notation lst fs := ((base, 0) :: fs).

(** The links after [free] has put [(bp, u)] behind the block [p]. *)
Lemma free_chain m m1 m2 l1 p bp u f2 :
  links m (l1 ++ p :: f2) base -> only_header bp m m1 -> only_header p.1 m1 m2 ->
  Forall (fun b => b.1 + 8 <= p.1) l1 -> p.1 + 8 <= bp -> Forall (fun b => bp + 8 <= b.1) (rjoin bp u f2).2 ->
  ld32 m1 bp = nxt (rjoin bp u f2).2 base -> ld32 m1 (bp + 4) = (rjoin bp u f2).1 -> links m1 (rjoin bp u f2).2 base ->
  (if bend p =? bp then ld32 m2 p.1 = nxt (rjoin bp u f2).2 base /\ ld32 m2 (p.1 + 4) = p.2 + (rjoin bp u f2).1
   else ld32 m2 p.1 = bp /\ ld32 m2 (p.1 + 4) = p.2) ->
  links m2 (l1 ++ (if bend p =? bp then [(p.1, p.2 + (rjoin bp u f2).1)] else [p; (bp, (rjoin bp u f2).1)]) ++ (rjoin bp u f2).2) base.
Proof.
  intros Hc Ho1 Ho2 Hl Hp Hr Hb1 Hb2 Hc1 H2. apply links_app in Hc as [Hc _]. cbn [nxt] in Hc.
  assert (links m2 l1 p.1) as Hl2.
  { eapply only_header_chain; [exact Ho2| |eapply only_header_chain; [exact Ho1| |exact Hc]];
      (eapply Forall_impl; [exact Hl|]; simpl; lia). }
  assert (links m2 (rjoin bp u f2).2 base) as Hr2.
  { eapply only_header_chain; [exact Ho2| |exact Hc1]. eapply Forall_impl; [exact Hr|]. simpl. lia. }
  apply links_app. destruct (bend p =? bp); cbn [app links nxt fst snd].
  - split; [done|]. destruct H2. by split_and!.
  - split; [done|]. destruct H2. split_and!; try done.
    + rewrite <- Hb1. apply ld32_frame. intros d Hd. apply Ho2. lia.
    + rewrite <- Hb2. apply ld32_frame. intros d Hd. apply Ho2. lia.
Qed.

(** The bytes of the blocks [used] are as they were. *)
Definition kept (used : list blk) (m m' : mem) : Prop :=
  forall v a, v ∈ used -> v.1 <= a < bend v -> ld m' a = ld m a.

Lemma kept_trans used m1 m2 m3 : kept used m1 m2 -> kept used m2 m3 -> kept used m1 m3.
Proof. intros H1 H2 v a Hv Ha. rewrite (H2 v) by done. by apply (H1 v). Qed.

Lemma header_kept used p m m' :
  only_header p m m' -> Forall (fun v => bend v <= p \/ p + 8 <= v.1) used -> kept used m m'.
Proof. intros Ho Hf v a Hv Ha. rewrite Forall_forall in Hf. specialize (Hf v Hv). apply Ho. lia. Qed.

Lemma kept_size used m m' :
  kept used m m' -> Forall (fun v => 1 <= v.2) used ->
  Forall (fun v => ld32 m (v.1 + 4) = v.2) used -> Forall (fun v => ld32 m' (v.1 + 4) = v.2) used.
Proof.
  intros Hk H1 Hs. rewrite !Forall_forall in *. intros v Hv. rewrite <- (Hs v Hv). apply ld32_frame.
  intros d Hd. apply (Hk v); [done|]. specialize (H1 v Hv). unfold bend, HEADER. simpl in H1. lia.
Qed.

(** Where [free] puts the block, and what is around it. *)
Lemma free_place fs used bu h :
  hrep base fs (bu :: used) h ->
  exists f1 f2 l1 p, fs = f1 ++ f2 /\ lst f1 = l1 ++ [p] /\ Forall (fun b => bend b <= bu.1) f1 /\
    Forall (fun b => b.1 < bu.1) f1 /\ Forall (fun b => bu.1 < b.1) f2 /\ sorted (bend bu - 1) f2 /\
    Forall (fun b => b.1 + 8 <= p.1) l1 /\ p.1 + 8 <= bu.1 /\ bend p <= bu.1 /\ 0 <= p.2.
Proof.
  intros [Hc Hs Hf Hz [_ Ha] [Hd _]%Forall_cons [(Hb1 & Hb2 & Hb3) _]%Forall_cons Hfs H0 Hbrk].
  destruct (sorted_place (base + 7) fs bu.1) as (f1 & f2 & -> & F1 & F2); [done| |].
  { apply Forall_forall. intros b Hb E. destruct (sorted_in _ _ b Hs Hb). rewrite Forall_forall in Hd.
    specialize (Hd b Hb). unfold disj, bend, HEADER in Hd. lia. }
  rewrite Forall_forall in Hd, F1, F2.
  assert (Forall (fun b => bend b <= bu.1) f1) as G1.
  { apply Forall_forall. intros b Hb. specialize (Hd b ltac:(set_solver)). specialize (F1 b Hb). simpl in F1.
    unfold disj, bend, HEADER in *. lia. }
  assert (exists l1 p, lst f1 = l1 ++ [p]) as (l1 & p & E).
  { destruct (nil_or_snoc f1) as [->|(f & p & ->)]; [by exists [], (base, 0)|]. by exists (lst f), p. }
  exists f1, f2, l1, p. split; [done|]. split; [done|]. split; [done|]. split; [by apply Forall_forall|]. split; [by apply Forall_forall|].
  assert (p.1 + 8 <= bu.1 /\ bend p <= bu.1 /\ 0 <= p.2) as Hp.
  { assert (p ∈ lst f1) as Hin by (rewrite E; set_solver). apply elem_of_cons in Hin as [->|Hin]; [unfold bend, HEADER; simpl; lia|].
    rewrite Forall_forall in G1. specialize (G1 p Hin). destruct (sorted_in _ _ p Hs ltac:(set_solver)).
    simpl in G1. unfold bend, HEADER in *. lia. }
  split; [|split; [|done]].
  - apply sorted_app in Hs as [_ Hs]. destruct f2 as [|c f2]; [done|]. destruct Hs as (? & ? & ?). split_and!; [|done|done].
    specialize (Hd c ltac:(set_solver)). specialize (F2 c ltac:(set_solver)). simpl in F2. unfold disj, bend, HEADER in *. lia.
  - apply Forall_lookup. intros i b Hb. assert (lst (f1 ++ f2) !! length l1 = Some p) as Hp1.
    { rewrite app_comm_cons, E, <- app_assoc. by apply list_lookup_middle. }
    eapply (asc base); [exact Hs| |exact Hp1|by apply lookup_lt_Some in Hb].
    rewrite app_comm_cons, E, <- app_assoc. by apply lookup_app_l_Some.
Qed.

Lemma freep_lookup fs used h : hrep base fs used h -> exists k b, lst fs !! k = Some b /\ b.1 = h_freep h.
Proof.
  intros H. pose proof (hr_freep _ _ _ _ H) as Hf. apply elem_of_cons in Hf as [->|Hf]; [by exists 0%nat, (base, 0)|].
  apply list_elem_of_fmap in Hf as (b & -> & Hb). apply list_elem_of_lookup in Hb as [k Hk]. by exists (S k), b.
Qed.

Lemma ljoin_lst f1 l1 p bp u rest :
  lst f1 = l1 ++ [p] -> base < bp ->
  lst (ljoin f1 bp u ++ rest) = l1 ++ (if bend p =? bp then [(p.1, p.2 + u)] else [p; (bp, u)]) ++ rest.
Proof.
  intros E Hb. destruct (nil_or_snoc f1) as [->|(f & q & ->)].
  - destruct l1 as [|? [|]]; try done. injection E as <-. rewrite ljoin_nil. unfold bend, HEADER. simpl.
    destruct (Z.eqb_spec (base + 8 * 0) bp); [lia|done].
  - rewrite app_comm_cons in E. apply app_inj_tail in E as [<- ->]. rewrite ljoin_snoc.
    destruct (bend p =? bp); simpl; by rewrite <- app_assoc.
Qed.

(** The search ends at the block [p] before the place of [bp]. *)
Lemma free_search f1 f2 l1 p bp k b h fuel :
  links (h_mem h) (l1 ++ p :: f2) base -> lst f1 = l1 ++ [p] -> sorted (base + 7) (f1 ++ f2) -> base < bp ->
  Forall (fun b => b.1 < bp) f1 -> Forall (fun b => bp < b.1) f2 ->
  lst (f1 ++ f2) !! k = Some b -> b.1 = h_freep h -> (length (f1 ++ f2) < fuel)%nat ->
  free_loop bp (h_freep h) fuel h = Ok p.1 h.
Proof.
  intros Hc El Hs Hb L1 L2 Hk Eb Hfuel.
  assert (lst (f1 ++ f2) = l1 ++ p :: f2) as EL by (rewrite app_comm_cons, El, <- app_assoc; done).
  assert (lst (f1 ++ f2) !! length f1 = Some p) as Hip.
  { rewrite EL. assert (length f1 = length l1) as ->; [|by apply list_lookup_middle].
    apply (f_equal length) in El. rewrite length_app in El. simpl in El. lia. }
  rewrite <- Eb. eapply (free_loop_walk base (f1 ++ f2) bp (length f1)); [by rewrite EL|done| |exact Hk|].
  - intros i c Hi. by apply stopf_place.
  - pose proof (dist_lt (lst (f1 ++ f2)) k (length f1)) as Hdl. apply lookup_lt_Some in Hk, Hip. simpl in *. lia.
Qed.

(** [free] of a block that is in use. *)
Lemma free_ok fs used bu h fuel :
  hrep base fs (bu :: used) h -> (length fs < fuel)%nat ->
  exists fs' h', free (padd bu.1 1) fuel h = Ok tt h' /\ hrep base fs' used h' /\ h_brk h' = h_brk h /\
    kept used (h_mem h) (h_mem h') /\ (length fs' <= S (length fs))%nat /\ tot fs' = tot fs + bu.2 /\
    exists c, c ∈ fs' /\ bu.2 <= c.2.
Proof.
  intros H Hfuel. destruct (free_place _ _ _ _ H) as (f1 & f2 & l1 & p & -> & El & G1 & L1 & L2 & S2 & P1 & P2 & P3 & P4).
  destruct (freep_lookup _ _ _ H) as (k & b & Hk & Eb).
  destruct H as [Hc Hs Hf [Hz1 Hz]%Forall_cons [Ha1 Ha] [Hd1 Hd]%Forall_cons [(Hb1 & Hb2 & Hb3) Hus]%Forall_cons Hfs H0 Hbrk].
  destruct bu as [bp u]. cbn [fst snd] in *. unfold bend at 1 in Hb3. cbn [fst snd] in Hb3. unfold LIMIT, HEADER in *.
  assert (padd (padd bp 1) (-1) = bp) as Epb.
  { unfold padd, HEADER. rewrite (u32_fits (bp + 8 * 1)) by lia. rewrite u32_fits by lia. lia. }
  rewrite app_comm_cons in Hc. rewrite El, <- app_assoc in Hc. cbn [app] in Hc.
  apply Forall_app in Hfs as [Hfs1 Hfs2].
  assert (free_loop bp (h_freep h) fuel h = Ok p.1 h) as Eloop by (eapply free_search; try done; lia).
  pose proof Hc as Hc'. apply links_app in Hc' as [_ (Cp1 & Cp2 & Cf2)].
  assert (0 < p.1) as Hp0.
  { assert (p ∈ lst f1) as Hin by (rewrite El; set_solver). apply elem_of_cons in Hin as [->|Hin]; [done|].
    destruct (sorted_in _ _ p Hs ltac:(set_solver)). lia. }
  destruct (free_right_ok base h bp u p.1 f2) as (m1 & E1 & O1 & R1 & R2 & R3); try done; try (unfold LIMIT, HEADER; lia).
  { eapply Forall_impl; [exact Hfs2|]. simpl. unfold LIMIT. lia. }
  destruct (rjoin_sorted bp u f2 Hb2 S2) as [Hu' Hsr]. set (u' := (rjoin bp u f2).1) in *. set (rest := (rjoin bp u f2).2) in *.
  destruct (rjoin_brk (h_brk h) bp u f2 ltac:(unfold HEADER; lia) Hfs2) as [Hub Hrb]. fold u' rest in Hub, Hrb. unfold HEADER in Hub.
  assert (ld32 m1 (p.1 + 4) = p.2) as Ep2.
  { rewrite <- Cp2. apply ld32_frame. intros d Hd'. apply O1. lia. }
  destruct (free_left_ok base (set_h_mem m1 h) bp u' p.1 p.2 rest) as (m2 & E2 & O2 & Q); try done; try (unfold LIMIT, HEADER; lia).
  fold (bend p) in Q. cbn [h_mem set_h_mem] in O2.
  assert (Forall (fun v => 1 <= v.2) used) as Hus1 by (eapply Forall_impl; [exact Hus|]; simpl; lia).
  assert (kept used (h_mem h) m2) as Hkept.
  { eapply kept_trans; [eapply (header_kept used bp); [exact O1|]|eapply (header_kept used p.1); [exact O2|]].
    - apply Forall_forall. intros v Hv. rewrite Forall_forall in Ha1. specialize (Ha1 v Hv). unfold disj, bend, HEADER in *. simpl in *. lia.
    - apply Forall_forall. intros v Hv. rewrite Forall_forall in Hus. specialize (Hus v Hv). simpl in Hus.
      assert (p ∈ lst f1) as Hin by (rewrite El; set_solver). apply elem_of_cons in Hin as [->|Hin]; [simpl; lia|].
      rewrite Forall_forall in Hd. specialize (Hd v Hv). rewrite Forall_forall in Hd. specialize (Hd p ltac:(set_solver)).
      destruct (sorted_in _ _ p Hs ltac:(set_solver)). unfold disj, bend, HEADER in *. lia. }
  assert (Forall (fun b => 1 <= b.2) f1) as Hf11.
  { apply Forall_forall. intros c Hcin. by destruct (sorted_in _ _ c Hs ltac:(set_solver)). }
  exists (ljoin f1 bp u' ++ rest), (set_h_freep p.1 (set_h_mem m2 (set_h_mem m1 h))). split_and!; try done.
  - rewrite free_eq, Epb. unfold bind at 1, gets. rewrite (bind_ok _ _ _ _ _ Eloop), (bind_ok _ _ _ _ _ E1), (bind_ok _ _ _ _ _ E2). done.
  - split; cbn [h_mem h_freep h_brk set_h_freep set_h_mem]; try done.
    + rewrite (ljoin_lst f1 l1 p) by (done || lia). apply (free_chain (h_mem h) m1); try done.
      apply Forall_forall. intros c Hcin. apply (sorted_in _ _ c) in Hsr; [|done]. unfold HEADER in Hsr. lia.
    + apply ljoin_sorted; try done; [by apply sorted_app in Hs as [? _]|lia|lia].
    + assert (p ∈ lst (ljoin f1 bp u' ++ rest) \/ exists c, c ∈ lst (ljoin f1 bp u' ++ rest) /\ c.1 = p.1) as Hin.
      { rewrite (ljoin_lst f1 l1 p) by (done || lia). destruct (bend p =? bp); [right; exists (p.1, p.2 + u')|left]; set_solver. }
      change (base :: (ljoin f1 bp u' ++ rest).*1) with ((lst (ljoin f1 bp u' ++ rest)).*1).
      destruct Hin as [Hin|(c & Hin & <-)]; by apply list_elem_of_fmap_2.
    + by eapply kept_size.
    + apply Forall_forall. intros v Hv. rewrite Forall_forall in Ha1, Hd, Hus1. specialize (Ha1 v Hv). specialize (Hd v Hv). specialize (Hus1 v Hv).
      apply Forall_app in Hd as [Hdl Hdr]. assert (disj v (bp, u)) as Hvb by (unfold disj in *; tauto).
      destruct (rjoin_disj v bp u f2) as [Hj1 Hj2]; try done. apply Forall_app. split; [|done]. apply ljoin_disj; try done. lia.
    + apply Forall_app. split; [by apply ljoin_brk|done].
  - pose proof (rjoin_length bp u f2). pose proof (ljoin_length f1 bp u'). rewrite !length_app. unfold rest. lia.
  - pose proof (rjoin_tot bp u f2). rewrite !tot_app, ljoin_tot. unfold u', rest. cbn [snd]. lia.
  - destruct (ljoin_big f1 bp u' Hf11) as (c & Hc1 & Hc2). exists c. split; [set_solver|simpl; lia].
Qed.
End free.

(** * Taking a block from the list *)

Section malloc.
Context (base : Z).
Notation lst fs := ((base, 0) :: fs).

(** The end of [malloc] at the block [p] of size [sz] behind [prevp]. *)
Definition take_block (nunits prevp p sz : Z) : M heap Z :=
  p <- (if sz =? nunits then
          q <- h_ptr p ;;
          set_ptr prevp q ;;
          ret p
        else
          set_size p (u32 (sz - nunits)) ;;
          let p := padd p (u32 (sz - nunits)) in
          set_size p nunits ;;
          ret p) ;;
  set_freep prevp ;;
  ret (padd p 1).

(** The header of a block of the list is outside of the blocks in use. *)
Lemma header_outside fs used h p :
  hrep base fs used h -> p ∈ lst fs -> Forall (fun v => bend v <= p.1 \/ p.1 + 8 <= v.1) used.
Proof.
  intros H Hp. apply Forall_forall. intros v Hv.
  pose proof (hr_used _ _ _ _ H) as Hu. pose proof (hr_disj _ _ _ _ H) as Hd. pose proof (hr_sorted _ _ _ _ H) as Hs.
  rewrite Forall_forall in Hu, Hd. specialize (Hu v Hv). specialize (Hd v Hv). rewrite Forall_forall in Hd. simpl in Hu.
  apply elem_of_cons in Hp as [->|Hp]; [simpl; lia|]. specialize (Hd p Hp). destruct (sorted_in _ _ p Hs Hp).
  unfold disj, bend, HEADER in *. lia.
Qed.

(** The block [b] of the list [g1 ++ b :: l2] and the others. *)
Lemma block_apart g1 b l2 c : sorted (base + 7) (g1 ++ b :: l2) -> c ∈ g1 ++ l2 -> bend c < b.1 \/ bend b < c.1.
Proof.
  intros Hs [Hc|Hc]%elem_of_app.
  - left. eapply (sorted_split _ g1 (b :: l2)); [done|done|set_solver].
  - right. rewrite (cons_middle b), app_assoc in Hs. eapply (sorted_split _ (g1 ++ [b]) l2); [done|set_solver|done].
Qed.

Lemma sorted_remove lo g1 b l2 : sorted lo (g1 ++ b :: l2) -> sorted lo (g1 ++ l2).
Proof.
  intros Hs. apply sorted_app in Hs as [H1 (H2 & H3 & H4)]. apply sorted_app. split; [done|].
  eapply sorted_weaken; [done|]. unfold bend, HEADER. lia.
Qed.

(** The new block is apart from those in use. *)
Lemma used_cons fs fs' used nb h h' :
  hrep base fs used h ->
  links (h_mem h') (lst fs') base -> sorted (base + 7) fs' -> h_freep h' ∈ base :: fs'.*1 -> h_brk h' = h_brk h ->
  kept used (h_mem h) (h_mem h') -> ld32 (h_mem h') (nb.1 + 4) = nb.2 ->
  Forall (disj nb) used -> Forall (disj nb) fs' -> Forall (fun v => Forall (disj v) fs') used ->
  base + 8 <= nb.1 -> 1 <= nb.2 -> bend nb <= h_brk h -> Forall (fun b => bend b <= h_brk h) fs' ->
  hrep base fs' (nb :: used) h'.
Proof.
  intros [Hc Hs Hf Hz Ha Hd Hu Hfs H0 Hbrk] Hc' Hs' Hf' Eb Hk Hsz D1 D2 D3 N1 N2 N3 B. split; try done; try (by rewrite Eb).
  - constructor; [done|]. eapply kept_size; [done| |done]. eapply Forall_impl; [exact Hu|]. simpl. lia.
  - by constructor.
  - rewrite Eb. by constructor.
Qed.

Lemma take_exact fs used h g1 l1 pv b l2 :
  hrep base fs used h -> fs = g1 ++ b :: l2 -> lst g1 = l1 ++ [pv] ->
  exists h', take_block b.2 pv.1 b.1 b.2 h = Ok (padd b.1 1) h' /\ hrep base (g1 ++ l2) (b :: used) h' /\
    h_brk h' = h_brk h /\ kept used (h_mem h) (h_mem h').
Proof.
  intros H -> El. pose proof (hr_chain _ _ _ _ H) as Hc. pose proof (hr_sorted _ _ _ _ H) as Hs.
  rewrite app_comm_cons, El, <- app_assoc in Hc. cbn [app] in Hc. pose proof Hc as Hc'.
  apply links_app in Hc' as [Cl (Cp1 & Cp2 & Cb1 & Cb2 & C2)]. cbn [nxt] in Cl, Cp1.
  assert (pv ∈ lst (g1 ++ b :: l2)) as Hpv by (rewrite app_comm_cons, El; set_solver).
  pose proof (sorted_in _ _ b Hs ltac:(set_solver)) as [Hb1 Hb2].
  assert (forall i, l1 !! i <> None -> forall c, l1 !! i = Some c -> c.1 + 8 <= pv.1) as Hl1.
  { intros i _ c Hi. eapply (asc base); [exact Hs| | |apply lookup_lt_Some in Hi; exact Hi];
      rewrite app_comm_cons, El, <- app_assoc; [by apply lookup_app_l_Some|by apply list_lookup_middle]. }
  assert (pv.1 + 8 <= b.1) as Hpb.
  { eapply (asc base _ (length l1) (S (length l1))); [exact Hs| | |lia]; rewrite app_comm_cons, El, <- app_assoc; cbn [app].
    - by apply list_lookup_middle.
    - rewrite lookup_app_r by lia. by replace (S (length l1) - length l1)%nat with 1%nat by lia. }
  set (m' := st32 (h_mem h) pv.1 (nxt l2 base)).
  assert (only_header pv.1 (h_mem h) m') as Ho by (intros a Ha; apply ld_st32_ne; lia).
  assert (kept used (h_mem h) m') as Hk by (eapply header_kept; [exact Ho|by eapply header_outside]).
  assert (forall c, c ∈ l2 -> bend b < c.1) as Hl2.
  { intros c Hin. rewrite (cons_middle b), app_assoc in Hs. eapply (sorted_split _ (g1 ++ [b]) l2); [done|set_solver|done]. }
  exists (set_h_freep pv.1 (set_h_mem m' h)). split; [|split; [|done]].
  { unfold take_block. rewrite Z.eqb_refl. unfold bind, h_ptr, gets. rewrite Cb1. done. }
  pose proof (hr_disj _ _ _ _ H) as Hd. pose proof (hr_fs _ _ _ _ H) as Hfs. apply Forall_app in Hfs as [Hf1 [Hf2 Hf3]%Forall_cons].
  eapply (used_cons _ _ _ _ _ _ H); cbn [h_mem h_freep h_brk set_h_freep set_h_mem]; try done.
  - rewrite app_comm_cons, El, <- app_assoc. cbn [app]. apply links_app. cbn [nxt links]. split_and!.
    + eapply only_header_chain; [exact Ho| |exact Cl]. apply Forall_lookup. intros i c Hi. left. by eapply (Hl1 i); [rewrite Hi|].
    + unfold m'. rewrite ld32_st32_eq. rewrite <- Cb1. apply u32_fits. apply ld32_range.
    + rewrite <- Cp2. apply ld32_st32_ne. lia.
    + eapply only_header_chain; [exact Ho| |exact C2]. apply Forall_forall. intros c Hin. right. specialize (Hl2 c Hin).
      unfold bend, HEADER in Hl2. lia.
  - by eapply sorted_remove.
  - change (base :: (g1 ++ l2).*1) with ((lst (g1 ++ l2)).*1). apply list_elem_of_fmap_2. rewrite app_comm_cons, El. set_solver.
  - rewrite <- Cb2. apply ld32_frame. intros d Hd'. apply Ho. lia.
  - apply Forall_forall. intros v Hv. rewrite Forall_forall in Hd. specialize (Hd v Hv). rewrite Forall_forall in Hd.
    specialize (Hd b ltac:(set_solver)). unfold disj in *. tauto.
  - apply Forall_forall. intros c Hin. destruct (block_apart _ _ _ _ Hs Hin); unfold disj; lia.
  - eapply Forall_impl; [exact Hd|]. simpl. intros v Hv. rewrite !Forall_app, Forall_cons in *. tauto.
  - lia.
  - apply Forall_app. done.
Qed.

(** Nothing but bytes of the block [b] changes. *)
Definition only_block (b : blk) (m m' : mem) : Prop := forall a, a < b.1 \/ bend b <= a -> ld m' a = ld m a.

Lemma only_block_chain b m m' l e :
  only_block b m m' -> Forall (fun c => c.1 + 8 <= b.1 \/ bend b <= c.1) l -> links m l e -> links m' l e.
Proof.
  intros Ho Hl. apply links_frame. intros c d Hc Hd. rewrite Forall_forall in Hl. specialize (Hl c Hc). apply Ho. lia.
Qed.

(** The tail of the block, of [n] headers, is cut off. *)
Lemma take_split fs used h g1 l1 pv b l2 n :
  hrep base fs used h -> fs = g1 ++ b :: l2 -> lst g1 = l1 ++ [pv] -> 1 <= n < b.2 ->
  let r := b.1 + HEADER * (b.2 - n) in
  exists h', take_block n pv.1 b.1 b.2 h = Ok (padd r 1) h' /\
    hrep base (g1 ++ (b.1, b.2 - n) :: l2) ((r, n) :: used) h' /\
    h_brk h' = h_brk h /\ kept used (h_mem h) (h_mem h').
Proof.
  intros H -> El Hn r. pose proof (hr_chain _ _ _ _ H) as Hc. pose proof (hr_sorted _ _ _ _ H) as Hs.
  pose proof (hr_base _ _ _ _ H) as H0. pose proof (hr_brk _ _ _ _ H) as Hbrk.
  pose proof (hr_disj _ _ _ _ H) as Hd. pose proof (hr_fs _ _ _ _ H) as Hfs. apply Forall_app in Hfs as [Hf1 [Hf2 Hf3]%Forall_cons].
  pose proof (sorted_in _ _ b Hs ltac:(set_solver)) as [Hb1 Hb2]. unfold bend, HEADER, LIMIT in *.
  rewrite app_comm_cons in Hc. pose proof Hc as Hc'. apply links_app in Hc' as [Cl (Cb1 & Cb2 & C2)]. cbn [nxt] in Cl.
  set (m' := st32 (st32 (h_mem h) (b.1 + 4) (b.2 - n)) (r + 4) n).
  assert (only_block b (h_mem h) m') as Ho.
  { intros a Ha. unfold bend, HEADER in Ha. unfold m', r. rewrite !ld_st32_ne by lia. done. }
  assert (Forall (fun v => disj v b) used) as Hdb.
  { eapply Forall_impl; [exact Hd|]. simpl. intros v Hv. rewrite Forall_forall in Hv. apply Hv. set_solver. }
  assert (kept used (h_mem h) m') as Hk.
  { intros v a Hv Ha. rewrite Forall_forall in Hdb. specialize (Hdb v Hv). apply Ho. unfold disj, bend, HEADER in *. lia. }
  assert (forall c, c ∈ g1 ++ l2 -> bend c < b.1 \/ bend b < c.1) as Hap by (intros c; by apply block_apart).
  assert (forall c, c ∈ g1 ++ l2 -> 1 <= c.2) as Hsz.
  { intros c Hin. apply (sorted_in (base + 7) (g1 ++ b :: l2)); [done|set_solver]. }
  exists (set_h_freep pv.1 (set_h_mem m' h)). split; [|split; [|done]].
  { unfold take_block. destruct (Z.eqb_spec b.2 n); [lia|]. unfold bind, set_size, modify. cbn [h_mem set_h_mem].
    rewrite (u32_fits (b.2 - n)) by lia. rewrite (u32_fits (b.1 + 4)) by lia. unfold padd at 1 2, HEADER.
    rewrite (u32_fits (b.1 + 8 * (b.2 - n))) by lia. fold r. rewrite (u32_fits (r + 4)) by (unfold r; lia). done. }
  assert (sorted (base + 7) (g1 ++ (b.1, b.2 - n) :: l2)) as Hs'.
  { apply sorted_app in Hs as [S1 (S2 & S3 & S4)]. apply sorted_app. split; [done|]. cbn [sorted fst snd].
    split_and!; [done|lia|]. eapply sorted_weaken; [done|]. unfold bend, HEADER. cbn [fst snd]. lia. }
  eapply (used_cons _ _ _ _ _ _ H); cbn [h_mem h_freep h_brk set_h_freep set_h_mem fst snd]; try done.
  - rewrite app_comm_cons. apply links_app. split; [|cbn [links fst snd]; split_and!].
    + eapply only_block_chain; [exact Ho| |exact Cl]. apply Forall_forall. intros c [->|Hin]%elem_of_cons; [left; simpl; lia|].
      specialize (Hap c ltac:(set_solver)). specialize (Hsz c ltac:(set_solver)). unfold bend, HEADER in *. lia.
    + rewrite <- Cb1. unfold m', r. rewrite !ld32_st32_ne by lia. done.
    + unfold m', r. rewrite ld32_st32_ne, ld32_st32_eq by lia. apply u32_fits. lia.
    + eapply only_block_chain; [exact Ho| |exact C2]. apply Forall_forall. intros c Hin.
      specialize (Hap c ltac:(set_solver)). specialize (Hsz c ltac:(set_solver)). unfold bend, HEADER in *. lia.
  - change (base :: (g1 ++ (b.1, b.2 - n) :: l2).*1) with ((lst (g1 ++ (b.1, b.2 - n) :: l2)).*1).
    apply list_elem_of_fmap_2. rewrite app_comm_cons, El. set_solver.
  - unfold m'. rewrite ld32_st32_eq. apply u32_fits. lia.
  - eapply Forall_impl; [exact Hdb|]. simpl. intros v Hv. unfold disj, bend, HEADER, r in *. cbn [fst snd]. lia.
  - apply Forall_forall. intros c [Hin|[->|Hin]%elem_of_cons]%elem_of_app.
    + specialize (Hap c ltac:(set_solver)). unfold disj, bend, HEADER, r in *. cbn [fst snd]. lia.
    + unfold disj, bend, HEADER, r. cbn [fst snd]. lia.
    + specialize (Hap c ltac:(set_solver)). unfold disj, bend, HEADER, r in *. cbn [fst snd]. lia.
  - apply Forall_forall. intros v Hv. rewrite Forall_forall in Hd, Hdb. specialize (Hd v Hv). specialize (Hdb v Hv).
    rewrite Forall_app, Forall_cons in *. destruct Hd as (? & ? & ?). split_and!; try done.
    unfold disj, bend, HEADER in *. cbn [fst snd]. lia.
  - unfold r. lia.
  - lia.
  - unfold bend, HEADER, r. cbn [fst snd]. lia.
  - rewrite Forall_app, Forall_cons. split_and!; try done. unfold bend, HEADER. cbn [fst snd]. lia.
Qed.

(** Both cases: the block that is taken is apart from the others, as [hrep] says. *)
Lemma take_ok fs used h j pv b n :
  hrep base fs used h -> lst fs !! j = Some pv -> lst fs !! S j = Some b -> 1 <= n <= b.2 ->
  exists fs' r h', take_block n pv.1 b.1 b.2 h = Ok (padd r 1) h' /\ hrep base fs' ((r, n) :: used) h' /\
    h_brk h' = h_brk h /\ kept used (h_mem h) (h_mem h') /\ (length fs' <= length fs)%nat /\ tot fs' + n = tot fs.
Proof.
  intros H Hj Hb Hn. simpl in Hb. pose proof (lookup_lt_Some _ _ _ Hb).
  pose proof (take_drop_middle _ _ _ Hb) as E. symmetry in E.
  assert (exists l1, lst (take j fs) = l1 ++ [pv]) as [l1 El].
  { exists (take j (lst fs)). rewrite <- (take_S_r _ _ _ Hj). done. }
  destruct (decide (n = b.2)) as [->|Hne].
  - destruct (take_exact _ _ _ _ _ _ _ _ H E El) as (h' & E1 & H1 & B1 & K1). destruct b as [a s].
    exists (take j fs ++ drop (S j) fs), a, h'. apply (f_equal length) in E as E2. apply (f_equal tot) in E as E3.
    rewrite length_app in E2. rewrite tot_app, tot_cons in E3. split_and!; try done; [rewrite length_app; simpl in E2; lia|].
    rewrite tot_app. simpl in *. lia.
  - destruct (take_split _ _ _ _ _ _ _ _ n H E El) as (h' & E1 & H1 & B1 & K1); [lia|].
    apply (f_equal length) in E as E2. apply (f_equal tot) in E as E3.
    rewrite length_app in E2. rewrite tot_app, tot_cons in E3.
    eexists _, _, h'. split_and!; try done; [rewrite length_app; simpl in *; lia|]. rewrite tot_app, tot_cons. simpl in *. lia.
Qed.

(** ** The search *)

Context (grows : Z -> Z -> bool).

(** The loop goes around the list once: it takes a block, or no block is big
    enough and it asks for more memory. *)
Lemma malloc_search fs used h n kf F :
  hrep base fs used h -> lst fs !! kf = Some F -> F.1 = h_freep h -> 1 <= n ->
  forall fuel k pv, lst fs !! k = Some pv -> (dist (lst fs) (succ (lst fs) k) kf < fuel)%nat ->
  (exists j pj b, lst fs !! j = Some pj /\ lst fs !! S j = Some b /\ n <= b.2 /\
     malloc_loop grows n pv.1 fuel h = take_block n pj.1 b.1 b.2 h) \/
  ((forall i c, lst fs !! i = Some c ->
      (dist (lst fs) (succ (lst fs) k) i <= dist (lst fs) (succ (lst fs) k) kf)%nat -> c.2 < n) /\
   exists f, (fuel = f + S (dist (lst fs) (succ (lst fs) k) kf))%nat /\
     malloc_loop grows n pv.1 fuel h =
     (p <- morecore grows n f ;; if p =? 0 then ret 0 else malloc_loop grows n p f) h).
Proof.
  intros H HF EF Hn. pose proof (hr_chain _ _ _ _ H) as Hc. pose proof (hr_brk _ _ _ _ H) as Hbrk.
  pose proof (hr_base _ _ _ _ H) as H0. pose proof (lookup_lt_Some _ _ _ HF) as Hkf.
  induction fuel as [|f IH]; intros k pv Hk Hf; [lia|].
  destruct (succ_lookup _ _ _ _ Hk) as (b & Hb & Eb). pose proof (lookup_lt_Some _ _ _ Hb) as Hsk.
  set (k' := succ (lst fs) k) in *.
  assert (0 <= b.1 < 2 ^ 31) as Hbr.
  { apply list_elem_of_lookup_2 in Hb. apply elem_of_cons in Hb as [->|Hb]; [unfold LIMIT in *; simpl; lia|].
    pose proof (sorted_in _ _ b (hr_sorted _ _ _ _ H) Hb). pose proof (hr_fs _ _ _ _ H) as Hfs. rewrite Forall_forall in Hfs.
    specialize (Hfs b Hb). unfold bend, HEADER, LIMIT in *. simpl in Hfs. lia. }
  assert (malloc_loop grows n pv.1 (S f) h =
    if n <=? b.2 then take_block n pv.1 b.1 b.2 h
    else if b.1 =? F.1 then (p <- morecore grows n f ;; if p =? 0 then ret 0 else malloc_loop grows n p f) h
    else malloc_loop grows n b.1 f h) as ->.
  { cbn [malloc_loop]. unfold bind at 1, h_ptr at 1, gets. destruct (links_lookup _ _ _ _ _ Hc Hk) as [-> _].
    fold (nexta base (lst fs) k). rewrite <- Eb. unfold bind at 1, h_size at 1, gets. rewrite (u32_fits (b.1 + 4)) by lia.
    destruct (links_lookup _ _ _ _ _ Hc Hb) as [_ ->]. destruct (n <=? b.2); [done|]. unfold bind at 1, gets. rewrite <- EF.
    by destruct (b.1 =? F.1). }
  destruct (Z.leb_spec n b.2) as [Hle|Hlt].
  { left. exists k, pv, b. split; [done|]. split; [|done]. unfold k', succ in Hb. case_decide; [done|].
    simpl in Hb. injection Hb as <-. simpl in Hle. lia. }
  assert (Heq : b.1 = F.1 <-> k' = kf).
  { split; [|intros ->; congruence]. intros E. destruct (decide (k' = kf)) as [|Hne]; [done|]. exfalso.
    destruct (decide (k' < kf)%nat);
      [pose proof (asc base fs k' kf b F (hr_sorted _ _ _ _ H) Hb HF ltac:(lia))
      |pose proof (asc base fs kf k' F b (hr_sorted _ _ _ _ H) HF Hb ltac:(lia))]; lia. }
  destruct (Z.eqb_spec b.1 F.1) as [E|E].
  - apply Heq in E. right. split.
    + intros i c Hi Hd. rewrite <- E in Hd. assert (i = k') as ->; [|congruence].
      apply lookup_lt_Some in Hi. unfold dist in Hd. repeat case_decide; lia.
    + exists f. split; [rewrite <- E; unfold dist; case_decide; lia|done].
  - assert (k' <> kf) as Hne by tauto. rewrite dist_succ in Hf by done.
    destruct (IH k' b Hb) as [Hl|(Hall & f' & Ef & El)]; [lia|left; exact Hl|]. right. split.
    + intros i c Hi Hd. destruct (decide (i = k')) as [->|Hik]; [congruence|]. apply lookup_lt_Some in Hi as Hi'.
      rewrite (dist_succ _ k' i), (dist_succ _ k' kf) in Hd by done. apply (Hall i c Hi). lia.
    + exists f'. split; [|done]. rewrite (dist_succ _ k' kf) by done. lia.
Qed.

(** From [freep] the search sees every block. *)
Lemma dist_all l k i : (k < length l)%nat -> (i < length l)%nat ->
  (dist l (succ l k) i <= dist l (succ l k) k)%nat /\ (dist l (succ l k) k < length l)%nat.
Proof. intros Hk Hi. unfold dist, succ. repeat case_decide; lia. Qed.

Lemma malloc_cycle fs used h n fuel :
  hrep base fs used h -> 1 <= n -> (length fs < fuel)%nat ->
  (exists fs' r h', malloc_loop grows n (h_freep h) fuel h = Ok (padd r 1) h' /\ hrep base fs' ((r, n) :: used) h' /\
     h_brk h' = h_brk h /\ kept used (h_mem h) (h_mem h') /\ (length fs' <= length fs)%nat /\ tot fs' + n = tot fs) \/
  (Forall (fun c => c.2 < n) fs /\ exists f, (fuel <= f + S (length fs))%nat /\
     malloc_loop grows n (h_freep h) fuel h =
     (p <- morecore grows n f ;; if p =? 0 then ret 0 else malloc_loop grows n p f) h).
Proof.
  intros H Hn Hf. destruct (freep_lookup _ _ _ _ H) as (k & b & Hk & Eb).
  pose proof (lookup_lt_Some _ _ _ Hk) as Hkl. rewrite <- Eb.
  destruct (dist_all (lst fs) k k Hkl Hkl) as [_ Hd].
  destruct (malloc_search fs used h n k b H Hk Eb Hn fuel k b Hk) as [(j & pj & c & Hj & Hc & Hnc & ->)|(Hall & f & Ef & ->)].
  - simpl in Hd. lia.
  - left. destruct (take_ok _ _ _ _ _ _ n H Hj Hc) as (fs' & r & h' & E & H' & B & K & L); [lia|]. by exists fs', r, h'.
  - right. split; [|exists f; split; [simpl in Hd; lia|done]]. apply Forall_lookup. intros i c Hi.
    apply (Hall (S i) c Hi). apply dist_all; [done|]. simpl. apply lookup_lt_Some in Hi. lia.
Qed.

(** ** More memory *)

(** The new memory as a block in use. *)
Lemma grow_inv fs used h nu :
  hrep base fs used h -> 1 <= nu -> h_brk h + HEADER * nu <= LIMIT ->
  let m' := st32 (h_mem h) (h_brk h + 4) nu in
  hrep base fs ((h_brk h, nu) :: used) (set_h_mem m' (set_h_brk (h_brk h + HEADER * nu) h)) /\ kept used (h_mem h) m'.
Proof.
  intros [Hc Hs Hf Hz Ha Hd Hu Hfs H0 Hbrk] Hnu Hb m'. unfold HEADER, LIMIT in *.
  assert (only_header (h_brk h) (h_mem h) m') as Ho by (intros a Ha'; apply ld_st32_ne; lia).
  assert (Forall (fun v => bend v <= h_brk h) used) as Hub by (eapply Forall_impl; [exact Hu|]; simpl; lia).
  assert (kept used (h_mem h) m') as Hk.
  { eapply header_kept; [exact Ho|]. eapply Forall_impl; [exact Hub|]. simpl. lia. }
  split; [|done]. split; cbn [h_mem h_freep h_brk set_h_mem set_h_brk]; try done.
  - eapply only_header_chain; [exact Ho| |exact Hc]. apply Forall_forall. intros b [->|Hb']%elem_of_cons; [simpl; lia|].
    rewrite Forall_forall in Hfs. specialize (Hfs b Hb'). destruct (sorted_in _ _ b Hs Hb'). unfold bend, HEADER in Hfs. simpl in Hfs. lia.
  - constructor; [unfold m'; cbn [fst snd]; rewrite ld32_st32_eq; apply u32_fits; lia|]. eapply kept_size; [done| |done].
    eapply Forall_impl; [exact Hu|]. simpl. lia.
  - split; [|done]. eapply Forall_impl; [exact Hub|]. simpl. intros v Hv. by right.
  - constructor; [|done]. eapply Forall_impl; [exact Hfs|]. simpl. intros v Hv. by right.
  - constructor; [unfold bend, HEADER; cbn [fst snd]; lia|]. eapply Forall_impl; [exact Hu|]. simpl. lia.
  - eapply Forall_impl; [exact Hfs|]. simpl. lia.
  - unfold LIMIT. lia.
Qed.

Lemma sbrk_eq n h :
  0 <= n < LIMIT ->
  sbrk grows n h = if grows (h_brk h) n then Ok (h_brk h) (set_h_brk (u32 (h_brk h + n)) h) else Ok (u32 (-1)) h.
Proof.
  intros Hn. unfold LIMIT in Hn. unfold sbrk, bind, gets, modify, ret.
  assert (i32 n = n) as -> by (unfold i32; rewrite Z.mod_small by lia; lia). by destruct (grows _ n).
Qed.

(** The kernel does not let the process grow over KERNBASE. *)
Context (Hgrows : forall b n, grows b n = true -> b + n <= LIMIT).

Lemma morecore_ok fs used h n fuel :
  hrep base fs used h -> 1 <= n -> n * HEADER < LIMIT -> (length fs < fuel)%nat ->
  (morecore grows n fuel h = Ok 0 h /\ grows (h_brk h) (Z.max n 4096 * HEADER) = false) \/
  exists fs' h', morecore grows n fuel h = Ok (h_freep h') h' /\ hrep base fs' used h' /\ kept used (h_mem h) (h_mem h') /\
    (length fs' <= S (length fs))%nat /\ (exists c, c ∈ fs' /\ n <= c.2) /\ h_freep h' <> 0 /\
    HEADER * tot fs' - h_brk h' = HEADER * tot fs - h_brk h.
Proof using Hgrows.
  intros H Hn Hlim Hf. unfold morecore. replace (if n <? 4096 then 4096 else n) with (Z.max n 4096) by (destruct (Z.ltb_spec n 4096); lia).
  set (nu := Z.max n 4096). assert (1 <= nu /\ n <= nu /\ nu * 8 < 2 ^ 31) as (Hnu1 & Hnu2 & Hnu3) by (unfold nu, HEADER, LIMIT in *; lia).
  pose proof (hr_brk _ _ _ _ H) as Hbrk. pose proof (hr_base _ _ _ _ H) as H0.
  rewrite (u32_fits (nu * HEADER)) by (unfold HEADER; lia).
  pose proof (sbrk_eq (nu * HEADER) h ltac:(unfold HEADER, LIMIT; lia)) as Es.
  destruct (grows (h_brk h) (nu * HEADER)) eqn:E; rewrite (bind_ok _ _ _ _ _ Es); [right|by left].
  apply Hgrows in E. unfold LIMIT, HEADER in *. rewrite (u32_fits (h_brk h + nu * 8)) by lia.
  change (u32 (-1)) with 4294967295. destruct (Z.eqb_spec (h_brk h) 4294967295); [lia|].
  unfold bind at 1, set_size at 1, modify at 1. cbn [h_mem set_h_brk]. rewrite (u32_fits (h_brk h + 4)) by lia.
  destruct (grow_inv fs used h nu H Hnu1 ltac:(unfold LIMIT, HEADER; lia)) as [H1 K1]. unfold HEADER in H1.
  rewrite (Z.mul_comm 8 nu) in H1.
  destruct (free_ok base _ _ _ _ fuel H1 Hf) as (fs' & h' & E1 & H' & B1 & K2 & L & T & c & Hc1 & Hc2). cbn [fst snd] in *.
  exists fs', h'. rewrite (bind_ok _ _ _ _ _ E1). split; [done|]. split; [done|]. split; [by eapply kept_trans|].
  split; [done|]. split; [exists c; split; [done|lia]|]. split; [|rewrite B1, T; cbn [h_brk set_h_mem set_h_brk]; lia].
  pose proof (hr_freep _ _ _ _ H') as Hfp. apply elem_of_cons in Hfp as [->|Hfp]; [lia|].
  apply list_elem_of_fmap in Hfp as (b & -> & Hb). destruct (sorted_in _ _ b (hr_sorted _ _ _ _ H') Hb). lia.
Qed.

(** The loop of [malloc] from [freep]. *)
Lemma malloc_loop_ok fs used h n fuel :
  hrep base fs used h -> 1 <= n -> n * HEADER < LIMIT -> (2 * length fs + 4 <= fuel)%nat ->
  exists fs' h', kept used (h_mem h) (h_mem h') /\ (length fs' <= S (length fs))%nat /\
    ((malloc_loop grows n (h_freep h) fuel h = Ok 0 h' /\ hrep base fs' used h' /\
      HEADER * tot fs' - h_brk h' = HEADER * tot fs - h_brk h /\ grows (h_brk h) (Z.max n 4096 * HEADER) = false) \/
     exists r, malloc_loop grows n (h_freep h) fuel h = Ok (padd r 1) h' /\ hrep base fs' ((r, n) :: used) h' /\
       HEADER * (n + tot fs') - h_brk h' = HEADER * tot fs - h_brk h).
Proof using Hgrows.
  intros H Hn Hlim Hf.
  destruct (malloc_cycle fs used h n fuel H Hn ltac:(lia)) as [(fs' & r & h' & E & H' & B & K & L & T)|(_ & f & Ef & E)].
  { exists fs', h'. split; [done|]. split; [lia|]. right. exists r. split_and!; [done|done|lia]. }
  rewrite E. destruct (morecore_ok fs used h n f H Hn Hlim ltac:(lia)) as [[E1 G]|(fs1 & h1 & E1 & H1 & K1 & L1 & (c & Hc & Hcn) & Hfp & T1)].
  { exists fs, h. rewrite (bind_ok _ _ _ _ _ E1). split; [done|]. split; [lia|]. by left. }
  rewrite (bind_ok _ _ _ _ _ E1). destruct (Z.eqb_spec (h_freep h1) 0); [done|].
  destruct (malloc_cycle fs1 used h1 n f H1 Hn ltac:(lia)) as [(fs' & r & h' & E2 & H' & B & K & L & T)|(Hall & _)].
  - exists fs', h'. split; [by eapply kept_trans|]. split; [lia|]. right. exists r. split_and!; [done|done|lia].
  - rewrite Forall_forall in Hall. specialize (Hall c Hc). simpl in Hall. lia.
Qed.
End malloc.

(** * The theorem *)

Lemma hrep_perm base fs used used' h : used ≡ₚ used' -> hrep base fs used h -> hrep base fs used' h.
Proof.
  intros HP [Hc Hs Hf Hz Ha Hd Hu Hfs H0 Hbrk].
  split; try done; [by rewrite <- HP|by eapply apart_perm|by rewrite <- HP|by rewrite <- HP].
Qed.

(** The heap of a program that has the blocks [used]: before the first [malloc], or
    with a list of [nf] free blocks.  The blocks in use and the free ones are all of
    the memory from [start], where the heap began, to its present end. *)
Definition heap_ok (base start : Z) (nf : nat) (used : list blk) (h : heap) : Prop :=
  (nf = 0%nat /\ used = [] /\ h_freep h = 0 /\ 0 < base /\ base + 8 <= h_brk h <= LIMIT /\ h_brk h = start) \/
  exists fs, length fs = nf /\ hrep base fs used h /\ HEADER * (tot fs + tot used) = h_brk h - start.

Lemma tot_perm l k : l ≡ₚ k -> tot l = tot k.
Proof. induction 1 as [|b l k _ IH|a b l|l k m _ IH1 _ IH2]; rewrite ?tot_cons; lia. Qed.

Lemma nunits_ok nbytes :
  0 <= nbytes < 2 ^ 30 ->
  1 <= nunits_of nbytes /\ nunits_of nbytes * HEADER < LIMIT /\ nbytes <= HEADER * (nunits_of nbytes - 1).
Proof.
  intros H. unfold nunits_of, HEADER, LIMIT. rewrite (u32_fits (nbytes + 8)) by lia. rewrite (u32_fits (nbytes + 8 - 1)) by lia.
  pose proof (Z.div_mod (nbytes + 8 - 1) 8 ltac:(lia)). pose proof (Z.mod_pos_bound (nbytes + 8 - 1) 8 ltac:(lia)).
  rewrite u32_fits by lia. lia.
Qed.

(** The first call makes a list of [base] alone. *)
Lemma malloc_enter base start grows nf used nbytes fuel h :
  heap_ok base start nf used h ->
  exists h1 fs, malloc base grows nbytes fuel h = malloc_loop grows (nunits_of nbytes) (h_freep h1) fuel h1 /\
    length fs = nf /\ hrep base fs used h1 /\ kept used (h_mem h) (h_mem h1) /\ h_brk h1 = h_brk h /\
    HEADER * (tot fs + tot used) = h_brk h1 - start.
Proof.
  intros [(-> & -> & E0 & Hb & Hbrk & Hs)|(fs & <- & H & T)].
  - exists (Heap (st32 (st32 (h_mem h) base base) (base + 4) 0) base (h_brk h)), []. unfold LIMIT in Hbrk. split_and!; try done.
    + unfold malloc, bind, gets. rewrite E0. cbn -[u32 st32 malloc_loop nunits_of]. rewrite u32_fits by lia. done.
    + split; cbn [h_mem h_freep h_brk]; try done; try (by constructor).
      * split_and!; [|rewrite ld32_st32_eq; done|done]. cbn [fst snd nxt]. rewrite ld32_st32_ne, ld32_st32_eq by lia. apply u32_fits. lia.
    + intros v a Hv. by apply elem_of_nil in Hv.
    + cbn [h_brk tot foldr]. lia.
  - exists h, fs. split_and!; try done. unfold malloc, bind, gets.
    destruct (Z.eqb_spec (h_freep h) 0) as [E|]; [|done]. exfalso.
    pose proof (hr_freep _ _ _ _ H) as Hf. pose proof (hr_base _ _ _ _ H). apply elem_of_cons in Hf as [Hf|Hf]; [lia|].
    apply list_elem_of_fmap in Hf as (b & Eb & Hb). destruct (sorted_in _ _ b (hr_sorted _ _ _ _ H) Hb). lia.
Qed.

(** C26. The allocator of user programs is safe.  For a program that has the blocks
    [used], [malloc] of up to 2^30 bytes returns: a null pointer when the kernel
    gives no more memory, or a block of at least as many bytes that overlaps none
    of those in use; [free] of any block in use returns, and the block is no
    longer in use.  Neither of them changes a byte of the other blocks in use, and
    both leave a heap on which this is true again, in which no two free blocks
    touch, and no memory is lost: the free blocks and those in use add up to what
    the kernel has given since the program began. *)
Theorem malloc_free (base start : Z) (grows : Z -> Z -> bool) (nf fuel : nat) (used : list (Z * Z)) (nbytes : Z) (h : heap) :
  (forall b n, grows b n = true -> b + n <= LIMIT) ->
  heap_ok base start nf used h -> 0 <= nbytes < 2 ^ 30 -> (2 * nf + 4 <= fuel)%nat ->
  (exists p h' nf', malloc base grows nbytes fuel h = Ok p h' /\ kept used (h_mem h) (h_mem h') /\ (nf' <= S nf)%nat /\
     ((p = 0 /\ heap_ok base start nf' used h' /\ exists n, grows (h_brk h) n = false) \/
      (0 < p /\ exists u, nbytes <= 8 * (u - 1) /\ Forall (disj (p - 8, u)) used /\ heap_ok base start nf' ((p - 8, u) :: used) h'))) /\
  (forall b rest, used ≡ₚ b :: rest ->
     exists h' nf', free (b.1 + 8) fuel h = Ok tt h' /\ kept rest (h_mem h) (h_mem h') /\ (nf' <= S nf)%nat /\
       heap_ok base start nf' rest h').
Proof.
  intros Hg Hok Hn Hf. destruct (nunits_ok nbytes Hn) as (N1 & N2 & N3). split.
  - destruct (malloc_enter base start grows nf used nbytes fuel h Hok) as (h1 & fs & E & L & H & K & B & T). subst nf.
    destruct (malloc_loop_ok base grows Hg fs used h1 (nunits_of nbytes) fuel H N1 N2 Hf) as (fs' & h' & K' & L' & R).
    assert (kept used (h_mem h) (h_mem h')) as K2 by (by eapply kept_trans).
    destruct R as [(E' & H' & T' & G)|(r & E' & H' & T')]; rewrite E, E'.
    + exists 0, h', (length fs'). split_and!; try done. left. split; [done|].
      split; [right; exists fs'; split_and!; [done|done|lia]|]. rewrite B in G. eauto.
    + pose proof (hr_used _ _ _ _ H') as Hu. apply Forall_cons in Hu as [(U1 & U2 & U3) _]. cbn [fst snd] in *.
      pose proof (hr_base _ _ _ _ H'). pose proof (hr_brk _ _ _ _ H'). unfold bend, HEADER, LIMIT in *. cbn [fst snd] in *.
      exists (padd r 1), h', (length fs'). split_and!; try done. right.
      assert (padd r 1 = r + 8) as -> by (unfold padd, HEADER; apply u32_fits; lia). split; [lia|].
      exists (nunits_of nbytes). replace (r + 8 - 8) with r by lia. split; [done|].
      split; [apply (hr_apart _ _ _ _ H')|].
      right. exists fs'. rewrite tot_cons. cbn [snd]. split_and!; [done|done|unfold HEADER in *; lia].
  - intros b rest HP. destruct Hok as [(_ & -> & _)|(fs & <- & H & T)]; [by apply Permutation_nil_cons in HP|].
    apply (hrep_perm _ _ _ _ _ HP) in H. apply tot_perm in HP. rewrite tot_cons in HP. pose proof (hr_used _ _ _ _ H) as Hu. apply Forall_cons in Hu as [(U1 & U2 & U3) _].
    pose proof (hr_base _ _ _ _ H). pose proof (hr_brk _ _ _ _ H). unfold bend, HEADER, LIMIT in *.
    destruct (free_ok base fs rest b h fuel H ltac:(lia)) as (fs' & h' & E & H' & B & K & L & T' & _).
    assert (padd b.1 1 = b.1 + 8) as Ep by (unfold padd, HEADER; apply u32_fits; lia). rewrite Ep in E.
    exists h', (length fs'). split_and!; try done. right. exists fs'. split_and!; [done|done|unfold HEADER in *; lia].
Qed.

(** A program whose data end at 4096, with [base] at 1000, on a kernel with room. *)
Definition demo_heap : heap := Heap ∅ 0 4096.
Definition demo_grows (b n : Z) : bool := b + n <=? LIMIT.

Lemma malloc_free_witness :
  exists p h', malloc 1000 demo_grows 100 10 demo_heap = Ok p h' /\ 0 < p /\
    exists nf u, 100 <= 8 * (u - 1) /\ heap_ok 1000 4096 nf [(p - 8, u)] h'.
Proof.
  destruct (malloc_free 1000 4096 demo_grows 0 10 [] 100 demo_heap) as [(p & h' & nf' & E & _ & _ & [(-> & _)|(Hp & u & Hu & _ & Hok)]) _].
  - intros b n H. apply Z.leb_le in H. exact H.
  - left. split_and!; try reflexivity; vm_compute; discriminate.
  - split; [discriminate|reflexivity].
  - simpl. lia.
  - exfalso. vm_compute in E. discriminate E.
  - exists p, h'. split; [exact E|]. split; [exact Hp|]. exists nf', u. split; [exact Hu|exact Hok].
Defined.

(** Near 2^32 the number of headers wraps around: the block that [malloc] takes for
    so many bytes has a header and nothing else. *)
Lemma malloc_wraps : nunits_of (2 ^ 32 - 1) = 1 /\ nunits_of (2 ^ 32 - 7) = 1 /\ nunits_of (2 ^ 32 - 8) = 2 ^ 29.
Proof. by vm_compute. Qed.
