(* ===== verification/Progs.v ===== *)
(** User programs: cat.c, wc.c, grep.c, echo.c, ls.c, ln.c, rm.c, mkdir.c, kill.c
    and init.c, as trees of system calls.  The filters are correct on every
    kernel that serves them a stream, however it cuts the stream into reads. *)
From stdpp Require Import base numbers list sets strings.
From Stdlib Require Import ZArith Lia.
From S2P Require Import Prelude Ulib.

Open Scope prog_scope.

(** [for(i = k; i < argc; i++)] over the arguments. *)
Fixpoint each (body : list Z -> prog unit) (args : list (list Z)) : prog unit :=
  match args with
  | [] => Ret tt
  | a :: rest => body a ;; each body rest
  end.

(** * cat.c *)
Module Cat.

Fixpoint cat (fd : Z) (fuel : nat) : prog unit :=
  match fuel with
  | O => NoFuel
  | S f =>
      r <- sys_data (CRead fd 512) ;;
      let n := a_val r in
      if 0 <? n then
        w <- sys (CWrite 1 (a_data r)) ;;
        if negb (w =? n) then
          printf 1 (bs "cat: write error" ++ [10]) [] ;;
          Exit 0
        else cat fd f
      else if n <? 0 then
        printf 1 (bs "cat: read error" ++ [10]) [] ;;
        Exit 0
      else Ret tt
  end.

Definition cat_main (argv : list (list Z)) (fuel : nat) : prog unit :=
  if (length argv <=? 1)%nat then cat 0 fuel ;; Exit 0 else
  each (fun a =>
    fd <- sys (COpen a 0) ;;
    if fd <? 0 then
      printf 1 (bs "cat: cannot open %s" ++ [10]) [PStr (Some a)] ;;
      Exit 0
    else
    cat fd fuel ;;
    sys (CClose fd) ;;
    Ret tt) (drop 1 argv) ;;
  Exit 0.

(** [cat] copies its input to its output. *)
Lemma cat_copies {S} `{!Kernel S} fd (rest out : S -> list Z) `{!Stdio S fd rest out} fuel s :
  (length (rest s) < fuel)%nat ->
  exists s', run (cat fd fuel) s = (Returned tt, s') /\ out s' = out s ++ rest s /\ rest s' = [].
Proof.
  revert s. induction fuel as [|f IH]; intros s Hf; [lia|]. cbn [cat]. unfold sys_data. cbn [pbind run].
  destruct (sio_read s 512 ltac:(lia)) as (k & s1 & E1 & Hk & _ & Hpos & R1 & O1). rewrite E1. cbn [a_val a_data].
  destruct (decide (rest s = [])) as [Hnil|Hne].
  - rewrite Hnil in Hk. simpl in Hk. assert (k = 0%nat) as -> by lia. exists s1. simpl.
    rewrite R1, O1, Hnil, app_nil_r. done.
  - specialize (Hpos Hne). destruct (Z.ltb_spec 0 (Z.of_nat k)); [|lia]. unfold sys. cbn [pbind run].
    destruct (sio_write s1 (take k (rest s))) as (s2 & E2 & R2 & O2). rewrite E2. cbn [a_val].
    rewrite length_take, Nat.min_l, Z.eqb_refl by lia. cbn [negb].
    destruct (IH s2) as (s3 & E3 & O3 & R3); [rewrite R2, R1, length_drop; lia|].
    exists s3. split; [done|]. split; [|done]. rewrite O3, O2, O1, R2, R1, <- app_assoc, take_drop. done.
Qed.

End Cat.

(** * wc.c *)
Module Wc.

Record counts := Counts { n_l : Z; n_w : Z; n_c : Z; n_inword : bool }.

Definition blank : list Z := [32; 13; 9; 10; 11].

(** The body of the [for] loop, on the character [buf[i]]. *)
Definition count1 (k : counts) (b : Z) : counts :=
  let c := i32 (n_c k + 1) in
  let l := if b =? 10 then i32 (n_l k + 1) else n_l k in
  match strchr blank b with
  | Some _ => Counts l (n_w k) c false
  | None => if n_inword k then Counts l (n_w k) c true else Counts l (i32 (n_w k + 1)) c true
  end.

Fixpoint wc_loop (fd : Z) (k : counts) (fuel : nat) : prog (Z * counts) :=
  match fuel with
  | O => NoFuel
  | S f =>
      r <- sys_data (CRead fd 512) ;;
      if 0 <? a_val r then wc_loop fd (fold_left count1 (a_data r) k) f
      else Ret (a_val r, k)
  end.

Definition wc (fd : Z) (name : list Z) (fuel : nat) : prog unit :=
  r <- wc_loop fd (Counts 0 0 0 false) fuel ;;
  if r.1 <? 0 then
    printf 1 (bs "wc: read error" ++ [10]) [] ;;
    Exit 0
  else
  printf 1 (bs "%d %d %d %s" ++ [10]) [PInt (n_l r.2); PInt (n_w r.2); PInt (n_c r.2); PStr (Some name)].

Definition wc_main (argv : list (list Z)) (fuel : nat) : prog unit :=
  if (length argv <=? 1)%nat then wc 0 [] fuel ;; Exit 0 else
  each (fun a =>
    fd <- sys (COpen a 0) ;;
    if fd <? 0 then
      printf 1 (bs "wc: cannot open %s" ++ [10]) [PStr (Some a)] ;;
      Exit 0
    else
    wc fd a fuel ;;
    sys (CClose fd) ;;
    Ret tt) (drop 1 argv) ;;
  Exit 0.

(** The reference: the words of a text, its longest pieces without blanks. *)
Definition is_blank (c : Z) : bool := bool_decide (c ∈ blank).

Fixpoint words (text : list Z) : list (list Z) :=
  match text with
  | [] => []
  | c :: text' =>
      let ws := words text' in
      if is_blank c then ws
      else match text', ws with
           | d :: _, w :: ws' => if is_blank d then [c] :: ws else (c :: w) :: ws'
           | _, _ => [c] :: ws
           end
  end.

Definition newlines (text : list Z) : Z := Z.of_nat (length (filter (fun c => c = 10) text)).

Lemma strchr_None l b : Forall (fun x => x <> 0) l -> strchr l b = None <-> b ∉ l.
Proof.
  induction 1 as [|x l Hx Hl IH]; simpl; [set_solver|]. rewrite (proj2 (Z.eqb_neq x 0) Hx).
  destruct (Z.eqb_spec x b) as [->|Hne]; [set_solver|]. destruct (strchr l b); simpl; set_solver.
Qed.

Lemma strchr_blank b : strchr blank b = None <-> is_blank b = false.
Proof.
  unfold is_blank. rewrite bool_decide_eq_false. apply strchr_None. repeat constructor; done.
Qed.

(** Words that begin in [text], when the text before it ends [inword]. *)
Definition new_words (inword : bool) (text : list Z) : Z :=
  Z.of_nat (length (words text)) -
  match text with c :: _ => if inword && negb (is_blank c) then 1 else 0 | [] => 0 end.

Lemma words_head c text : is_blank c = false -> exists w ws, words (c :: text) = w :: ws.
Proof.
  intros Hc. cbn [words]. rewrite Hc. destruct text as [|d text]; [eauto|]. destruct (words (d :: text)); [eauto|].
  destruct (is_blank d); eauto.
Qed.

Lemma new_words_cons inword c text :
  new_words inword (c :: text) =
  (if is_blank c then 0 else if inword then 0 else 1) + new_words (negb (is_blank c)) text.
Proof.
  unfold new_words. cbn [words]. destruct (is_blank c) eqn:Hc; cbn [negb andb].
  - rewrite andb_false_r. destruct text as [|d text]; cbn; lia.
  - rewrite andb_true_r. destruct text as [|d text]; [destruct inword; cbn; lia|].
    destruct (is_blank d) eqn:Hd; cbn [negb].
    + destruct (words (d :: text)) as [|w ws]; destruct inword; cbn [length]; lia.
    + destruct (words_head d text Hd) as (w & ws & E). rewrite E. destruct inword; cbn [length]; lia.
Qed.

Lemma new_words_bound inword text : 0 <= new_words inword text <= Z.of_nat (length text).
Proof.
  revert inword. induction text as [|c text IH]; intros inword; [unfold new_words; simpl; lia|].
  rewrite new_words_cons. specialize (IH (negb (is_blank c))). simpl. destruct (is_blank c), inword; lia.
Qed.

Lemma newlines_cons c text : newlines (c :: text) = (if c =? 10 then 1 else 0) + newlines text.
Proof.
  unfold newlines. rewrite filter_cons. destruct (Z.eqb_spec c 10); [rewrite decide_True by done|rewrite decide_False by done]; simpl; lia.
Qed.

Lemma newlines_bound text : 0 <= newlines text <= Z.of_nat (length text).
Proof. unfold newlines. pose proof (length_filter (fun c => c = 10) text). lia. Qed.

Definition last_inword (inword : bool) (text : list Z) : bool :=
  match last text with Some c => negb (is_blank c) | None => inword end.

Lemma count_small z : 0 <= z < 2 ^ 31 -> i32 z = z.
Proof. intros Hz. unfold i32. rewrite Z.mod_small; lia. Qed.

Lemma count_text text l w c inword :
  0 <= l -> 0 <= w -> 0 <= c ->
  l + Z.of_nat (length text) < 2 ^ 31 -> w + Z.of_nat (length text) < 2 ^ 31 -> c + Z.of_nat (length text) < 2 ^ 31 ->
  fold_left count1 text (Counts l w c inword) =
  Counts (l + newlines text) (w + new_words inword text) (c + Z.of_nat (length text)) (last_inword inword text).
Proof.
  revert l w c inword. induction text as [|b text IH]; intros l w c inword Hl Hw Hc Bl Bw Bc.
  { cbn. unfold new_words, newlines, last_inword. simpl. f_equal; lia. }
  cbn [fold_left]. simpl length in *. rewrite Nat2Z.inj_succ in *.
  assert (count1 (Counts l w c inword) b =
    Counts (l + (if b =? 10 then 1 else 0)) (w + (if is_blank b then 0 else if inword then 0 else 1)) (c + 1) (negb (is_blank b))) as ->.
  { unfold count1. cbn [n_l n_w n_c n_inword]. rewrite (count_small (c + 1)) by lia.
    assert ((if b =? 10 then i32 (l + 1) else l) = l + (if b =? 10 then 1 else 0)) as ->.
    { destruct (b =? 10); [apply count_small; lia|lia]. }
    pose proof (strchr_blank b) as Hb. destruct (strchr blank b).
    - destruct (is_blank b); [by rewrite Z.add_0_r|]. discriminate (proj2 Hb eq_refl).
    - rewrite (proj1 Hb eq_refl). destruct inword; [by rewrite Z.add_0_r|]. by rewrite count_small by lia. }
  rewrite IH by (destruct (b =? 10), (is_blank b), inword; lia).
  rewrite newlines_cons, new_words_cons. f_equal; [lia|lia|lia|]. unfold last_inword. rewrite last_cons. by destruct (last text).
Qed.

Lemma wc_loop_counts {S} `{!Kernel S} fd (rest out : S -> list Z) `{!Stdio S fd rest out} fuel k s :
  (length (rest s) < fuel)%nat ->
  exists s', run (wc_loop fd k fuel) s = (Returned (0, fold_left count1 (rest s) k), s') /\ out s' = out s /\ rest s' = [].
Proof.
  revert k s. induction fuel as [|f IH]; intros k s Hf; [lia|]. cbn [wc_loop]. unfold sys_data. cbn [pbind run].
  destruct (sio_read s 512 ltac:(lia)) as (j & s1 & E1 & Hj & _ & Hpos & R1 & O1). rewrite E1. cbn [a_val a_data].
  destruct (decide (rest s = [])) as [Hnil|Hne].
  - rewrite Hnil in Hj. simpl in Hj. assert (j = 0%nat) as -> by lia. exists s1. simpl. rewrite R1, O1, Hnil. done.
  - specialize (Hpos Hne). destruct (Z.ltb_spec 0 (Z.of_nat j)); [|lia].
    destruct (IH (fold_left count1 (take j (rest s)) k) s1) as (s2 & E2 & O2 & R2); [rewrite R1, length_drop; lia|].
    exists s2. rewrite E2, R1, <- fold_left_app, take_drop. by rewrite O2, O1.
Qed.

(** The decimal digits of a count. *)
Definition decimal (n : Z) : list Z := rev (int_buf digits n 10 true).

(** C27. [wc] counts: on any kernel that serves it a text, in reads of any size,
    it prints the number of newlines, of words and of characters of the text,
    and its name; a word is a longest piece without blanks.  The loop ends after
    at most one read per byte. *)
Theorem wc_counts {S} `{!Kernel S} fd (rest out : S -> list Z) `{!Stdio S fd rest out} fuel s name :
  (length (rest s) < fuel)%nat -> Z.of_nat (length (rest s)) < 2 ^ 31 -> Forall is_u8 name ->
  exists s', run (wc fd name fuel) s = (Returned tt, s') /\ rest s' = [] /\
    out s' = out s ++ decimal (newlines (rest s)) ++ [32] ++ decimal (Z.of_nat (length (words (rest s)))) ++ [32] ++
      decimal (Z.of_nat (length (rest s))) ++ [32] ++ name ++ [10].
Proof.
  intros Hf Hlen Hname. destruct (wc_loop_counts fd rest out fuel (Counts 0 0 0 false) s Hf) as (s1 & E1 & O1 & R1).
  unfold wc. rewrite run_bind, E1. cbn [fst snd Z.ltb Z.compare].
  pose proof (newlines_bound (rest s)) as Bl. pose proof (new_words_bound false (rest s)) as Bw.
  rewrite (count_text (rest s)) by lia. rewrite !Z.add_0_l. cbn [n_l n_w n_c].
  assert (new_words false (rest s) = Z.of_nat (length (words (rest s)))) as Ew.
  { unfold new_words. destruct (rest s); simpl; lia. }
  rewrite Ew in *.
  assert (forall n, 0 <= n < 2 ^ 31 -> prints rest out (printint 1 (i32 n) 10 true) (decimal n)) as Hp.
  { intros n Hn. rewrite count_small by done. apply (prints_back fd rest out). unfold int_buf.
    destruct (Z.ltb_spec n 0); [lia|]. cbn [andb]. rewrite app_nil_r.
    eapply Forall_impl; [apply (digit_loop_chars 10); [lia|unfold u32; by apply Z.mod_pos_bound]|].
    intros c [Hc _]. unfold is_u8. lia. }
  set (nl := newlines (rest s)) in *. set (nw := Z.of_nat (length (words (rest s)))) in *. set (nc := Z.of_nat (length (rest s))) in *.
  assert (prints rest out (printf 1 (bs "%d %d %d %s" ++ [10]) [PInt nl; PInt nw; PInt nc; PStr (Some name)])
    (decimal nl ++ [32] ++ decimal nw ++ [32] ++ decimal nc ++ [32] ++ name ++ [10])) as H.
  { change (bs "%d %d %d %s" ++ [10]) with [37; 100; 32; 37; 100; 32; 37; 100; 32; 37; 115; 10]. unfold printf.
    assert (is_u8 32 /\ is_u8 10) as [H32 H10] by (unfold is_u8; lia).
    repeat (apply (prints_d rest out); [apply Hp; lia|]; apply (prints_char fd rest out); [done|done|]).
    apply (prints_s fd rest out); [done|]. apply (prints_char fd rest out); [done|done|]. apply prints_end. }
  destruct (H s1) as (s2 & E2 & O2 & R2). exists s2. split; [done|]. rewrite R2, R1, O2, O1. done.
Qed.

End Wc.

(** * grep.c *)
Module Grep.

(** [matchstar(c, re, text)]: [here] is [matchhere(re, _)]. *)
Fixpoint matchstar (c : Z) (here : list Z -> bool) (text : list Z) : bool :=
  here text ||
  match text with
  | t :: text' => ((t =? c) || (c =? 46)) && matchstar c here text'
  | [] => false
  end.

Fixpoint matchhere (re text : list Z) : bool :=
  match re with
  | [] => true
  | c :: re1 =>
      match re1 with
      | s :: re2 =>
          if s =? 42 then matchstar c (matchhere re2) text
          else match text with
               | t :: text' => ((c =? 46) || (c =? t)) && matchhere re1 text'
               | [] => false
               end
      | [] =>
          if c =? 36 then match text with [] => true | _ => false end
          else match text with
               | t :: text' => ((c =? 46) || (c =? t)) && matchhere re1 text'
               | [] => false
               end
      end
  end.

(** The [do] loop of [match]. *)
Fixpoint match_from (re text : list Z) : bool :=
  matchhere re text || match text with [] => false | _ :: text' => match_from re text' end.

Definition matches (re text : list Z) : bool :=
  match re with
  | c :: re' => if c =? 94 then matchhere re' text else match_from re text
  | [] => match_from re text
  end.

(** The inner loop of [grep]: every line of [buf] that is complete; what is left
    at [p], and whether [p] has moved. *)
Fixpoint grep_lines (pattern p : list Z) (moved : bool) (fuel : nat) : prog (list Z * bool) :=
  match fuel with
  | O => NoFuel
  | S f =>
      match strchr p 10 with
      | Some q =>
          (if matches pattern (take q p) then sys (CWrite 1 (take (q + 1) p)) ;; Ret tt else Ret tt) ;;
          grep_lines pattern (drop (q + 1) p) true f
      | None => Ret (p, moved)
      end
  end.

(** [grep]; [pend] is [buf[0..m)]. *)
Fixpoint grep_loop (pattern : list Z) (fd : Z) (pend : list Z) (fuel : nat) : prog unit :=
  match fuel with
  | O => NoFuel
  | S f =>
      r <- sys_data (CRead fd (1024 - Z.of_nat (length pend) - 1)) ;;
      if 0 <? a_val r then
        let buf := pend ++ a_data r in
        x <- grep_lines pattern buf false (S (length buf)) ;;
        grep_loop pattern fd (if (x.2 : bool) then x.1 else []) f
      else Ret tt
  end.

Definition grep (pattern : list Z) (fd : Z) (fuel : nat) : prog unit := grep_loop pattern fd [] fuel.

Definition grep_main (argv : list (list Z)) (fuel : nat) : prog unit :=
  match argv with
  | _ :: pattern :: files =>
      match files with
      | [] => grep pattern 0 fuel ;; Exit 0
      | _ =>
          each (fun a =>
            fd <- sys (COpen a 0) ;;
            if fd <? 0 then
              printf 1 (bs "grep: cannot open %s" ++ [10]) [PStr (Some a)] ;;
              Exit 0
            else
            grep pattern fd fuel ;;
            sys (CClose fd) ;;
            Ret tt) files ;;
          Exit 0
      end
  | _ => printf 2 (bs "usage: grep pattern [file ...]" ++ [10]) [] ;; Exit 0
  end.

(** ** What a pattern means *)

Inductive item : Type := One (c : Z) | Star (c : Z) | Eol.

(** The pattern language: [c*], a final [$], and single characters. *)
Fixpoint items (re : list Z) : list item :=
  match re with
  | [] => []
  | c :: re1 =>
      match re1 with
      | s :: re2 => if s =? 42 then Star c :: items re2 else One c :: items re1
      | [] => if c =? 36 then [Eol] else [One c]
      end
  end.

(** Character [t] is an instance of [c]. *)
Definition inst (c t : Z) : Prop := c = 46 \/ c = t.

(** [u], followed by [v], is an instance of the pattern. *)
Fixpoint den (r : list item) (u v : list Z) : Prop :=
  match r with
  | [] => u = []
  | One c :: r' => exists t u', u = t :: u' /\ inst c t /\ den r' u' v
  | Star c :: r' => exists u1 u2, u = u1 ++ u2 /\ Forall (inst c) u1 /\ den r' u2 v
  | Eol :: r' => v = [] /\ den r' u v
  end.

Definition here (r : list item) (text : list Z) : Prop := exists u v, text = u ++ v /\ den r u v.

Lemma here_one c r text : here (One c :: r) text <-> exists t text', text = t :: text' /\ inst c t /\ here r text'.
Proof.
  split.
  - intros (u & v & -> & t & u' & -> & Hi & Hd). exists t, (u' ++ v). split; [done|]. split; [done|]. by exists u', v.
  - intros (t & text' & -> & Hi & u & v & -> & Hd). exists (t :: u), v. split; [done|]. simpl. eauto.
Qed.

Lemma here_star c r text :
  here (Star c :: r) text <-> here r text \/ exists t text', text = t :: text' /\ inst c t /\ here (Star c :: r) text'.
Proof.
  split.
  - intros (u & v & -> & u1 & u2 & -> & Hf & Hd). destruct Hf as [|t u1 Ht Hf]; [left; by exists u2, v|right].
    exists t, ((u1 ++ u2) ++ v). split; [done|]. split; [done|]. exists (u1 ++ u2), v. split; [done|]. simpl. eauto.
  - intros [(u & v & -> & Hd)|(t & text' & -> & Ht & u & v & -> & u1 & u2 & -> & Hf & Hd)].
    + exists u, v. split; [done|]. exists [], u. done.
    + exists (t :: u1 ++ u2), v. split; [done|]. exists (t :: u1), u2. split; [done|]. split; [by constructor|done].
Qed.

Lemma inst_test c t : (c =? 46) || (c =? t) = true <-> inst c t.
Proof. unfold inst. rewrite orb_true_iff, !Z.eqb_eq. done. Qed.

Lemma matchstar_here c r h text : (forall t, h t = true <-> here r t) ->
  matchstar c h text = true <-> here (Star c :: r) text.
Proof.
  intros Hh. induction text as [|t text IH]; cbn [matchstar]; rewrite here_star, orb_true_iff, Hh.
  - split; [intros [|]; [by left|done]|]. intros [|(t & text' & E & _)]; [by left|done].
  - rewrite andb_true_iff, IH. split.
    + intros [|[Hi Hs]]; [by left|right]. exists t, text. split; [done|]. split; [|done].
      apply inst_test. by rewrite orb_comm, (Z.eqb_sym c t).
    + intros [|(t' & text' & [= <- <-] & Hi & Hs)]; [by left|right]. split; [|done].
      apply inst_test in Hi. rewrite orb_comm, (Z.eqb_sym t c). done.
Qed.

Lemma match_one c r (h : list Z -> bool) text : (forall t, h t = true <-> here r t) ->
  match text with t :: text' => ((c =? 46) || (c =? t)) && h text' | [] => false end = true <-> here (One c :: r) text.
Proof.
  intros Hh. rewrite here_one. destruct text as [|t text]; [split; [done|by intros (? & ? & ? & _)]|].
  rewrite andb_true_iff, inst_test, Hh. split; [eauto|]. by intros (? & ? & [= <- <-] & ? & ?).
Qed.

Lemma matchhere_here re text : matchhere re text = true <-> here (items re) text.
Proof.
  revert text. induction re as [re IH] using (induction_ltof1 _ (@length Z)); intros text. unfold ltof in IH.
  destruct re as [|c re1]; cbn [matchhere items].
  { split; [intros _; by exists [], text|done]. }
  destruct re1 as [|s re2].
  - destruct (c =? 36).
    + destruct text; split; try done; [intros _; by exists [], []|].
      by intros (u & v & E & -> & ->).
    + apply (match_one c [] (matchhere [])). intros t. apply (IH []). simpl. lia.
  - destruct (s =? 42).
    + apply matchstar_here. intros t. apply IH. simpl. lia.
    + apply (match_one c (items (s :: re2)) (matchhere (s :: re2))). intros t. apply IH. simpl. lia.
Qed.

Lemma match_from_iff re text : match_from re text = true <-> exists w text', text = w ++ text' /\ here (items re) text'.
Proof.
  induction text as [|t text IH]; cbn [match_from]; rewrite orb_true_iff, matchhere_here.
  - split; [intros [H|]; [by exists [], []|done]|]. intros (w & text' & E & H). symmetry in E.
    apply app_eq_nil in E as [-> ->]. by left.
  - rewrite IH. split.
    + intros [H|(w & text' & -> & H)]; [by exists [], (t :: text)|]. by exists (t :: w), text'.
    + intros (w & text' & E & H). destruct w as [|x w]; [left; simpl in E; by subst|right].
      injection E as -> ->. eauto.
Qed.

(** C28. The matcher of grep.c decides what patterns mean: a pattern matches a
    line exactly when the line can be cut into a part before, an instance of the
    pattern and a part after; nothing comes before if the pattern starts with a
    caret and nothing after if it ends with a dollar. *)
Theorem match_correct re text :
  matches re text = true <->
  match re with
  | c :: re' => if c =? 94 then here (items re') text else exists w text', text = w ++ text' /\ here (items re) text'
  | [] => True
  end.
Proof.
  destruct re as [|c re]; cbn [matches].
  - split; [done|]. intros _. apply match_from_iff. exists [], text. split; [done|]. by exists [], text.
  - destruct (c =? 94); [apply matchhere_here|apply match_from_iff].
Qed.

(** ** The lines of a file *)

(** The complete lines of a text, and what follows the last newline. *)
Fixpoint split_lines (p : list Z) : list (list Z) * list Z :=
  match p with
  | [] => ([], [])
  | c :: p' =>
      let (ls, r) := split_lines p' in
      if c =? 10 then ([] :: ls, r)
      else match ls with
           | [] => ([], c :: r)
           | l :: ls' => ((c :: l) :: ls', r)
           end
  end.

(** The matching lines, as [grep] prints them. *)
Definition show (pattern : list Z) (ls : list (list Z)) : list Z :=
  concat ((fun l => if matches pattern l then l ++ [10] else []) <$> ls).

Lemma strchr_split p : Forall (fun x => x <> 0) p ->
  match strchr p 10 with
  | Some q => (q < length p)%nat /\ take (q + 1) p = take q p ++ [10] /\
      split_lines p = (take q p :: (split_lines (drop (q + 1) p)).1, (split_lines (drop (q + 1) p)).2)
  | None => split_lines p = ([], p)
  end.
Proof.
  induction 1 as [|c p Hc Hp IH]; cbn [strchr split_lines]; [done|]. rewrite (proj2 (Z.eqb_neq _ _) Hc).
  destruct (Z.eqb_spec c 10) as [->|Hne].
  - simpl. split; [lia|]. rewrite drop_0. split; [done|]. by destruct (split_lines p).
  - destruct (strchr p 10) as [q|]; simpl.
    + destruct IH as (Hq & Ht & E). split; [lia|]. rewrite Ht. split; [done|]. by rewrite E.
    + by rewrite IH.
Qed.

Lemma split_app u v : split_lines (u ++ v) =
  match (split_lines v).1, split_lines u with
  | [], (ls, r) => (ls, r ++ (split_lines v).2)
  | l :: lv, (ls, r) => (ls ++ (r ++ l) :: lv, (split_lines v).2)
  end.
Proof.
  induction u as [|c u IH]; simpl; [destruct (split_lines v) as [[|l lv] r]; done|]. rewrite IH.
  destruct (split_lines v) as [lv rv], (split_lines u) as [ls r]. simpl.
  destruct (c =? 10), ls, lv; done.
Qed.

Lemma split_rest p : split_lines (split_lines p).2 = ([], (split_lines p).2) /\ (exists w, p = w ++ (split_lines p).2) /\
  ((split_lines p).1 <> [] -> (length (split_lines p).2 < length p)%nat).
Proof.
  induction p as [|c p IH]; cbn [split_lines]; [split; [done|split; [by exists []|done]]|].
  destruct (split_lines p) as [ls r] eqn:E. cbn [fst snd] in IH. destruct IH as (I1 & (w & ->) & I3).
  destruct (c =? 10) eqn:Ec; cbn [fst snd].
  - split; [done|]. split; [by exists (c :: w)|]. intros _. simpl. rewrite length_app. lia.
  - destruct ls as [|l ls]; cbn [fst snd].
    + cbn [split_lines]. rewrite I1, Ec. split; [done|]. split; [|done].
      assert (w = []) as ->; [|by exists []]. pose proof (f_equal fst E) as E1. pose proof (f_equal snd E) as E2.
      rewrite split_app, I1 in E1, E2. cbn [fst snd] in E1, E2. destruct (split_lines w) as [lw rw] eqn:Ew. simpl in *. subst lw.
      assert (rw = []) as -> by (apply (app_inv_tail r); done).
      destruct w as [|x w]; [done|]. cbn [split_lines] in Ew. destruct (split_lines w) as [[|] ?], (x =? 10); congruence.
    + split; [done|]. split; [by exists (c :: w)|]. intros _. specialize (I3 ltac:(done)). simpl. lia.
Qed.

Lemma show_app pattern l1 l2 : show pattern (l1 ++ l2) = show pattern l1 ++ show pattern l2.
Proof. unfold show. by rewrite fmap_app, concat_app. Qed.

Section lines.
Context {S : Type} `{!Kernel S} (fd : Z) (rest out : S -> list Z) `{!Stdio S fd rest out}.
Context (pattern : list Z).

Lemma grep_lines_shows fuel p moved s : Forall (fun x => x <> 0) p -> (length p < fuel)%nat ->
  exists s', run (grep_lines pattern p moved fuel) s =
    (Returned ((split_lines p).2, moved || negb (bool_decide ((split_lines p).1 = []))), s') /\
    out s' = out s ++ show pattern (split_lines p).1 /\ rest s' = rest s.
Proof.
  revert p moved s. induction fuel as [|f IH]; intros p moved s Hp Hf; [lia|]. cbn [grep_lines].
  pose proof (strchr_split p Hp) as Hs. destruct (strchr p 10) as [q|].
  - destruct Hs as (Hq & Ht & E). rewrite E. cbn [fst snd]. rewrite run_bind.
    set (l := take q p) in *.
    assert (exists s1, run (if matches pattern l then sys (CWrite 1 (take (q + 1) p)) ;; Ret tt else Ret tt) s =
      (Returned tt, s1) /\ out s1 = out s ++ (if matches pattern l then l ++ [10] else []) /\ rest s1 = rest s) as (s1 & E1 & O1 & R1).
    { rewrite Ht. destruct (matches pattern l); [apply (prints_write fd rest out)|apply prints_ret]. }
    rewrite E1. destruct (IH (drop (q + 1) p) true s1) as (s2 & E2 & O2 & R2); [by apply Forall_drop|rewrite length_drop; lia|].
    exists s2. rewrite E2, O2, O1, R2, R1. cbn [orb]. rewrite bool_decide_eq_false_2 by done. cbn [negb]. rewrite orb_true_r.
    split; [done|]. split; [|done]. unfold show. rewrite fmap_cons. cbn [concat]. by rewrite <- app_assoc.
  - rewrite Hs. exists s. cbn. rewrite orb_false_r, app_nil_r. done.
Qed.

(** A file: a read returns all that is asked for and there. *)
Context (Hfull : forall s n a s', 0 < n -> syscall s (CRead fd n) = (a, s') -> a_val a = Z.min n (Z.of_nat (length (rest s)))).

Lemma grep_loop_shows fuel pend s :
  (length (rest s) < fuel)%nat -> Forall (fun x => x <> 0) (pend ++ rest s) -> (split_lines pend).1 = [] ->
  Forall (fun l => (length l <= 1022)%nat) (split_lines (pend ++ rest s)).1 -> (length pend <= 1022)%nat ->
  exists s', run (grep_loop pattern fd pend fuel) s = (Returned tt, s') /\ rest s' = [] /\
    out s' = out s ++ show pattern (split_lines (pend ++ rest s)).1.
Proof.
  revert pend s. induction fuel as [|f IH]; intros pend s Hf Hnz Hpend Hls Hlen; [lia|]. cbn [grep_loop].
  unfold sys_data. cbn [pbind run].
  destruct (sio_read s (1024 - Z.of_nat (length pend) - 1) ltac:(lia)) as (k & s1 & E1 & Hk & Hkn & Hpos & R1 & O1).
  pose proof (Hfull s (1024 - Z.of_nat (length pend) - 1) _ _ ltac:(lia) E1) as Hkv. rewrite E1. cbn [a_val a_data] in *.
  destruct (decide (rest s = [])) as [Hnil|Hne].
  { rewrite Hnil in Hk. simpl in Hk. assert (k = 0%nat) as -> by lia. exists s1. split; [done|]. rewrite R1, O1, Hnil, app_nil_r, Hpend.
    split; [done|]. symmetry. apply app_nil_r. }
  specialize (Hpos Hne). destruct (Z.ltb_spec 0 (Z.of_nat k)) as [_|]; [|lia]. rewrite run_bind.
  set (buf := pend ++ take k (rest s)) in *.
  assert (pend ++ rest s = buf ++ drop k (rest s)) as Esplit by (unfold buf; by rewrite <- app_assoc, take_drop).
  rewrite Esplit in Hnz, Hls |- *.
  apply Forall_app in Hnz as [Hnb Hnr].
  assert (length buf = (length pend + k)%nat) as Hlb by (unfold buf; rewrite length_app, length_take; lia).
  destruct (grep_lines_shows (Datatypes.S (length buf)) buf false s1 Hnb ltac:(lia)) as (s2 & E2 & O2 & R2).
  rewrite E2. cbn [fst snd orb]. rewrite split_app in Hls |- *.
  destruct (split_lines buf) as [ls r] eqn:Eb. cbn [fst snd] in *.
  destruct (bool_decide (ls = [])) eqn:Els; cbn [negb].
  - apply bool_decide_eq_true in Els as ->. rewrite app_nil_r in O2.
    destruct (IH [] s2) as (s3 & E3 & R3 & O3).
    + rewrite R2, R1, length_drop. lia.
    + rewrite R2, R1. done.
    + done.
    + rewrite R2, R1. simpl. destruct (split_lines (drop k (rest s))) as [[|l lv] rv]; cbn [fst snd] in *; [constructor|].
      simpl in Hls. apply Forall_cons in Hls as [Hl Hls]. constructor; [rewrite length_app in Hl; lia|done].
    + simpl. lia.
    + exists s3. rewrite E3, R3, O3, O2, O1, R2, R1. split; [done|]. split; [done|]. f_equal. simpl.
      destruct (split_lines (drop k (rest s))) as [[|l lv] rv] eqn:Er; cbn [fst snd] in *; [done|]. exfalso.
      simpl in Hls. apply Forall_cons in Hls as [Hl _]. rewrite length_app in Hl.
      assert (r = buf) as ->.
      { pose proof (strchr_split buf Hnb) as Hx. destruct (strchr buf 10); [|congruence]. rewrite Eb in Hx. by destruct Hx as (_ & _ & [=]). }
      assert (k = length (rest s)) as Ek by lia.
      rewrite Ek, drop_all in Er. done.
  - apply bool_decide_eq_false in Els. destruct (split_rest buf) as (Hr2 & (w & Hw) & Hr1).
    rewrite Eb in Hr1, Hr2, Hw. cbn [fst snd] in Hr1, Hr2, Hw. specialize (Hr1 Els).
    assert (split_lines (r ++ drop k (rest s)) =
      match (split_lines (drop k (rest s))).1 with
      | [] => ([], r ++ (split_lines (drop k (rest s))).2)
      | l :: lv => ((r ++ l) :: lv, (split_lines (drop k (rest s))).2)
      end) as Esp by (rewrite split_app, Hr2; by destruct (split_lines (drop k (rest s))).1).
    destruct (IH r s2) as (s3 & E3 & R3 & O3).
    + rewrite R2, R1, length_drop. lia.
    + rewrite R2, R1. apply Forall_app. split; [|done]. rewrite Hw in Hnb. by apply Forall_app in Hnb as [_ Hnb].
    + by rewrite Hr2.
    + rewrite R2, R1, Esp. destruct (split_lines (drop k (rest s))) as [[|l lv] rv]; cbn [fst snd] in *; [constructor|].
      by apply Forall_app in Hls as [_ Hls].
    + lia.
    + exists s3. rewrite E3, R3, O3, O2, O1, R2, R1, Esp. split; [done|]. split; [done|]. rewrite <- app_assoc. f_equal.
      rewrite <- show_app. f_equal. destruct (split_lines (drop k (rest s))) as [[|l lv] rv]; cbn [fst snd]; [apply app_nil_r|done].
Qed.
End lines.

(** C29. [grep] prints the matching lines of a text file: when reads return all
    they can, as [readi] does, the file holds no NUL byte, and no line is longer
    than the buffer (1022 characters), [grep] ends, has read the whole file, and
    has written exactly the newline-terminated lines that match, in order, each
    with its newline.  What comes after the last newline is never written, whether
    it matches or not. *)
Theorem grep_file {S} `{!Kernel S} fd (rest out : S -> list Z) `{!Stdio S fd rest out} fuel s pattern :
  (forall s n a s', 0 < n -> syscall s (CRead fd n) = (a, s') -> a_val a = Z.min n (Z.of_nat (length (rest s)))) ->
  (length (rest s) < fuel)%nat -> Forall (fun x => x <> 0) (rest s) ->
  Forall (fun l => (length l <= 1022)%nat) (split_lines (rest s)).1 ->
  exists s', run (grep pattern fd fuel) s = (Returned tt, s') /\ rest s' = [] /\
    out s' = out s ++ concat ((fun l => l ++ [10]) <$> filter (fun l => matches pattern l = true) (split_lines (rest s)).1).
Proof.
  intros Hfull Hf Hnz Hls. destruct (grep_loop_shows fd rest out pattern Hfull fuel [] s) as (s' & E & R & O); [done|done|done|done|simpl; lia|].
  exists s'. split; [done|]. split; [done|]. rewrite O. f_equal. unfold show. cbn [app].
  induction (split_lines (rest s)).1 as [|l ls IH]; [done|]. inversion_clear Hls. rewrite fmap_cons, filter_cons. cbn [concat].
  rewrite IH by done. case_decide as Em; [by rewrite Em, fmap_cons|]. by destruct (matches pattern l).
Qed.

(** Reads that cut a line, as those of a pipe do, lose it: when the buffer holds
    no newline, [grep] forgets what it has read. *)
Lemma grep_loses_line :
  (run (grep (bs "hello") 0 20) (Term (bs "hello" ++ [10]) [] 1000)).2 = Term [] (bs "hello" ++ [10]) 1000 /\
  (run (grep (bs "hello") 0 20) (Term (bs "hello" ++ [10]) [] 2)).2 = Term [] [] 2.
Proof. split; vm_compute; reflexivity. Qed.

(** A NUL byte hides the rest of the buffer, and a last line without a newline is
    not printed. *)
Lemma grep_loses_text :
  (run (grep (bs "hello") 0 20) (Term ([0; 10] ++ bs "hello" ++ [10]) [] 1000)).2 = Term [] [] 1000 /\
  (run (grep (bs "hello") 0 20) (Term (bs "hello") [] 1000)).2 = Term [] [] 1000.
Proof. split; vm_compute; reflexivity. Qed.

End Grep.

(** * echo.c *)
Module Echo.

Fixpoint echo (args : list (list Z)) : prog unit :=
  match args with
  | [] => Ret tt
  | a :: rest =>
      printf 1 (bs "%s%s") [PStr (Some a); PStr (Some (match rest with [] => [10] | _ => [32] end))] ;;
      echo rest
  end.
Definition echo_main (argv : list (list Z)) : prog unit := echo (drop 1 argv) ;; Exit 0.

Fixpoint joined (args : list (list Z)) : list Z :=
  match args with
  | [] => []
  | [a] => a ++ [10]
  | a :: rest => a ++ [32] ++ joined rest
  end.

Lemma echo_prints {S} `{!Kernel S} fd (rest out : S -> list Z) `{!Stdio S fd rest out} args :
  Forall (Forall is_u8) args -> prints rest out (echo args) (joined args).
Proof.
  induction 1 as [|a args Ha Hargs IH]; [apply prints_ret|]. cbn [echo].
  assert (forall c, is_u8 c -> prints rest out (printf 1 (bs "%s%s") [PStr (Some a); PStr (Some [c])]) (a ++ [c])) as Hp.
  { intros c Hc. change (bs "%s%s") with [37; 115; 37; 115]. unfold printf.
    apply (prints_s fd rest out); [done|]. apply (prints_s fd rest out [c] [] [] []); [by apply Forall_singleton|]. apply prints_end. }
  destruct args as [|b args].
  - cbn [joined]. rewrite <- (app_nil_r (a ++ [10])). apply (prints_bind rest out); [apply Hp; unfold is_u8; lia|done].
  - change (joined (a :: b :: args)) with (a ++ [32] ++ joined (b :: args)). rewrite app_assoc.
    apply (prints_bind rest out); [apply Hp; unfold is_u8; lia|done].
Qed.

End Echo.

(** * ls.c *)
Module Ls.

Definition LS_DIRSIZ : nat := 14.

(** The characters after the last slash; the loop runs from the end. *)
Fixpoint upto_slash (rpath : list Z) : list Z :=
  match rpath with
  | [] => []
  | c :: r => if c =? 47 then [] else c :: upto_slash r
  end.

Definition fmtname (path : list Z) : list Z :=
  let p := rev (upto_slash (rev path)) in
  if (LS_DIRSIZ <=? length p)%nat then p
  else p ++ replicate (LS_DIRSIZ - length p) 32.

(** A C string in a buffer. *)
Fixpoint cstr (l : list Z) : list Z :=
  match l with
  | [] => []
  | c :: l' => if c =? 0 then [] else c :: cstr l'
  end.

(** The fields of a [struct stat] that [fstat] fills: type, dev, ino, nlink, size. *)
Definition print_entry (name : list Z) (st : list Z) : prog unit :=
  printf 1 (bs "%s %d %d %d" ++ [10])
    [PStr (Some (fmtname name)); PInt (nth 0 st 0); PInt (nth 2 st 0); PInt (nth 4 st 0)].

(** The loop over the entries of a directory. *)
Fixpoint ls_dir (path : list Z) (fd : Z) (fuel : nat) : prog unit :=
  match fuel with
  | O => NoFuel
  | S f =>
      r <- sys_data (CRead fd 16) ;;
      if negb (a_val r =? 16) then Ret tt else
      let de := a_data r in
      if (nth 0 de 0 + 256 * nth 1 de 0 =? 0) then ls_dir path fd f else
      let buf := path ++ [47] ++ cstr (take LS_DIRSIZ (drop 2 de)) in
      st <- stat buf ;;
      (if a_val st <? 0 then printf 1 (bs "ls: cannot stat %s" ++ [10]) [PStr (Some buf)]
       else print_entry buf (a_data st)) ;;
      ls_dir path fd f
  end.

Definition ls (path : list Z) (fuel : nat) : prog unit :=
  fd <- sys (COpen path 0) ;;
  if fd <? 0 then printf 2 (bs "ls: cannot open %s" ++ [10]) [PStr (Some path)] else
  st <- sys_data (CFstat fd) ;;
  if a_val st <? 0 then
    printf 2 (bs "ls: cannot stat %s" ++ [10]) [PStr (Some path)] ;;
    sys (CClose fd) ;;
    Ret tt
  else
  let type := nth 0 (a_data st) 0 in
  (if type =? 2 then print_entry path (a_data st)
   else if type =? 1 then
     if (512 <? length path + 1 + LS_DIRSIZ + 1)%nat then printf 1 (bs "ls: path too long" ++ [10]) []
     else ls_dir path fd fuel
   else Ret tt) ;;
  sys (CClose fd) ;;
  Ret tt.

Definition ls_main (argv : list (list Z)) (fuel : nat) : prog unit :=
  if (length argv <? 2)%nat then ls (bs ".") fuel ;; Exit 0
  else each (fun a => ls a fuel) (drop 1 argv) ;; Exit 0.

(** [fmtname] fills the column: names have at least 14 characters, and a name of a
    directory entry, which has at most 14, exactly 14. *)
Lemma fmtname_width dir name : Forall (fun c => c <> 47) name -> (length name <= LS_DIRSIZ)%nat ->
  length (fmtname (dir ++ [47] ++ name)) = LS_DIRSIZ /\ take (length name) (fmtname (dir ++ [47] ++ name)) = name.
Proof.
  intros Hn Hl. assert (rev (upto_slash (rev (dir ++ [47] ++ name))) = name) as E.
  { assert (Forall (fun c => c <> 47) (rev name)) as Hr by by apply Forall_rev.
    rewrite !rev_app_distr. cbn [rev app]. rewrite <- app_assoc. cbn [app].
    assert (forall r, Forall (fun c => c <> 47) r -> upto_slash (r ++ 47 :: rev dir) = r) as ->; [|apply rev_involutive|done].
    clear. induction 1 as [|c r Hc Hr IH]; [done|]. simpl. rewrite (proj2 (Z.eqb_neq _ _) Hc). by rewrite IH. }
  unfold fmtname. rewrite E. destruct (Nat.leb_spec LS_DIRSIZ (length name)).
  - split; [lia|]. by rewrite take_ge.
  - rewrite length_app, length_replicate. split; [lia|]. by rewrite take_app_length.
Qed.

End Ls.

(** * ln.c, rm.c, mkdir.c, kill.c *)
Module Tools.

Definition ln_main (argv : list (list Z)) : prog unit :=
  match argv with
  | [_; old; new] =>
      r <- sys (CLink old new) ;;
      (if r <? 0 then printf 2 (bs "link %s %s: failed" ++ [10]) [PStr (Some old); PStr (Some new)] else Ret tt) ;;
      Exit 0
  | _ => printf 2 (bs "Usage: ln old new" ++ [10]) [] ;; Exit 0
  end.

(** The loops of [rm] and [mkdir], which stop at the first failure. *)
Fixpoint until_failure (op : list Z -> call) (msg : list Z) (args : list (list Z)) : prog unit :=
  match args with
  | [] => Ret tt
  | a :: rest =>
      r <- sys (op a) ;;
      if r <? 0 then printf 2 msg [PStr (Some a)] else until_failure op msg rest
  end.

Definition rm_main (argv : list (list Z)) : prog unit :=
  if (length argv <? 2)%nat then printf 2 (bs "Usage: rm files..." ++ [10]) [] ;; Exit 0 else
  until_failure CUnlink (bs "rm: %s failed to delete" ++ [10]) (drop 1 argv) ;;
  Exit 0.

Definition mkdir_main (argv : list (list Z)) : prog unit :=
  if (length argv <? 2)%nat then printf 2 (bs "Usage: mkdir files..." ++ [10]) [] ;; Exit 0 else
  until_failure CMkdir (bs "mkdir: %s failed to create" ++ [10]) (drop 1 argv) ;;
  Exit 0.

Definition kill_main (argv : list (list Z)) : prog unit :=
  if (length argv <? 2)%nat then printf 2 (bs "usage: kill pid..." ++ [10]) [] ;; Exit 0 else
  each (fun a => sys (CKill (atoi a)) ;; Ret tt) (drop 1 argv) ;;
  Exit 0.

End Tools.

(** * init.c *)
Module Init.

(** [while((wpid=wait(0)) >= 0 && wpid != pid)]. *)
Fixpoint init_reap (pid : Z) (fuel : nat) : prog unit :=
  match fuel with
  | O => NoFuel
  | S f =>
      wpid <- sys CWait ;;
      if (0 <=? wpid) && negb (wpid =? pid) then
        printf 1 (bs "zombie!" ++ [10]) [] ;;
        init_reap pid f
      else Ret tt
  end.

(** [for(;;)]: [fuel] shells, each with at most [fuel] waits. *)
Fixpoint shells (fuel waits : nat) : prog unit :=
  match fuel with
  | O => NoFuel
  | S f =>
      printf 1 (bs "init: starting sh" ++ [10]) [] ;;
      pid <- sys CFork ;;
      if pid <? 0 then
        printf 1 (bs "init: fork failed" ++ [10]) [] ;;
        Exit 0
      else if pid =? 0 then
        sys (CExec (bs "sh") [bs "sh"]) ;;
        printf 1 (bs "init: exec sh failed" ++ [10]) [] ;;
        Exit 0
      else
      init_reap pid waits ;;
      shells f waits
  end.

Definition init_main (fuel waits : nat) : prog unit :=
  fd <- sys (COpen (bs "console") O_RDWR) ;;
  (if fd <? 0 then
     sys (CMknod (bs "console") 1 1) ;;
     sys (COpen (bs "console") O_RDWR) ;;
     Ret tt
   else Ret tt) ;;
  sys (CDup 0) ;;
  sys (CDup 0) ;;
  shells fuel waits.

End Init.

(** * Texts to run on *)

Definition demo_text : list Z := bs "one two" ++ [10] ++ bs "three" ++ [10].

Lemma wc_counts_witness :
  exists s', run (Wc.wc 0 (bs "f") 20) (Term demo_text [] 3) = (Returned tt, s') /\ t_in s' = [] /\
    t_out s' = [] ++ Wc.decimal (Wc.newlines demo_text) ++ [32] ++ Wc.decimal (Z.of_nat (length (Wc.words demo_text))) ++ [32] ++
      Wc.decimal (Z.of_nat (length demo_text)) ++ [32] ++ bs "f" ++ [10].
Proof.
  apply (Wc.wc_counts 0 t_in t_out 20 (Term demo_text [] 3) (bs "f")).
  - vm_compute. lia.
  - vm_compute. reflexivity.
  - vm_compute. repeat constructor; congruence.
Defined.

(** A kernel whose files are read in full. *)
Record disk_file := DiskFile { df_in : list Z; df_out : list Z }.

#[local] Instance disk_kernel : Kernel disk_file := fun s c =>
  match c with
  | CRead _ n =>
      let k := Nat.min (Z.to_nat n) (length (df_in s)) in
      (Ans (Z.of_nat k) (take k (df_in s)), DiskFile (drop k (df_in s)) (df_out s))
  | CWrite 1 d => (Ans (Z.of_nat (length d)) [], DiskFile (df_in s) (df_out s ++ d))
  | _ => (Ans (-1) [], s)
  end.

#[local] Instance disk_stdio fd : Stdio disk_file fd df_in df_out.
Proof.
  split.
  - intros s n Hn. eexists _, _. split; [done|]. cbn [df_in df_out]. repeat split; try lia.
    destruct (df_in s); [done|]. simpl. lia.
  - intros s d. eexists. done.
Qed.

Lemma grep_file_witness :
  exists s', run (Grep.grep (bs "t.*o") 0 20) (DiskFile demo_text []) = (Returned tt, s') /\ df_in s' = [] /\
    df_out s' = [] ++ concat ((fun l => l ++ [10]) <$>
      filter (fun l => Grep.matches (bs "t.*o") l = true) (Grep.split_lines demo_text).1).
Proof.
  apply (Grep.grep_file 0 df_in df_out 20 (DiskFile demo_text []) (bs "t.*o")).
  - intros s n a s' Hn E. unfold syscall, disk_kernel in E. injection E as <- <-. cbn [a_val]. lia.
  - vm_compute. lia.
  - vm_compute. repeat constructor; congruence.
  - vm_compute. repeat constructor; lia.
Defined.
