(* ===== verification/Sh.v ===== *)
(** The shell, sh.c: the parser of command lines and [runcmd].  Every line parses
    or is rejected, and every command has a line that parses to it. *)
From stdpp Require Import base numbers list sets strings.
From Stdlib Require Import ZArith Lia.
From S2P Require Import Prelude Ulib.

Open Scope prog_scope.

(** * Commands *)

(** A parsed command.  The words of an [execcmd] and the file of a [redircmd] are
    places in the line: where they begin and where they end. *)
Inductive cmd : Type :=
| Execcmd (argv : list (nat * nat))
| Redircmd (c : cmd) (file efile : nat) (mode fd : Z)
| Pipecmd (left right : cmd)
| Listcmd (left right : cmd)
| Backcmd (c : cmd).

(** The same with the strings themselves: what [runcmd] finds in memory. *)
Inductive scmd : Type :=
| SExec (argv : list (list Z))
| SRedir (c : scmd) (file : list Z) (mode fd : Z)
| SPipe (left right : scmd)
| SList (left right : scmd)
| SBack (c : scmd).

Definition MAXARGS : nat := 10.

(** [parseexec] goes on filling the [argv] of its [execcmd] after [parseredirs] has
    put [redircmd]s around it; the model collects the redirections and puts them
    around the finished command. *)
Record redir := Redir { r_file : nat; r_efile : nat; r_mode : Z; r_fd : Z }.
Definition redircmd (c : cmd) (r : redir) : cmd := Redircmd c (r_file r) (r_efile r) (r_mode r) (r_fd r).
Definition wrap (c : cmd) (rs : list redir) : cmd := fold_left redircmd rs c.

(** * The scanner *)

Definition whitespace : list Z := [32; 9; 13; 10; 11].
Definition symbols : list Z := bs "<|>&;()".
Definition in_str (l : list Z) (c : Z) : bool := match strchr l c with Some _ => true | None => false end.

Section parser.
(** The line; [es] is its end, where a NUL follows. *)
Context (line : list Z).

Definition at_ (s : nat) : Z := nth s line 0.

(** [while(s < es && strchr(whitespace, *s)) s++]. *)
Fixpoint blanks (l : list Z) : nat :=
  match l with
  | c :: l' => if in_str whitespace c then S (blanks l') else O
  | [] => O
  end.
Definition skip (s : nat) : nat := (s + blanks (drop s line))%nat.

(** [while(s < es && !strchr(whitespace, *s) && !strchr(symbols, *s)) s++]. *)
Fixpoint word_len (l : list Z) : nat :=
  match l with
  | c :: l' => if negb (in_str whitespace c) && negb (in_str symbols c) then S (word_len l') else O
  | [] => O
  end.

(** [gettoken]: the token, where it begins and ends, and the new [*ps]. *)
Definition gettoken (ps : nat) : Z * (nat * nat) * nat :=
  let s := skip ps in
  let c := at_ s in
  let '(tok, e) :=
    if c =? 0 then (0, s)
    else if in_str (bs "|();&<") c then (c, S s)
    else if c =? 62 then if at_ (S s) =? 62 then (43, S (S s)) else (62, S s)
    else (97, (s + word_len (drop s line))%nat) in
  (tok, (s, e), skip e).

(** [peek]: the answer, and the new [*ps]. *)
Definition peek (ps : nat) (toks : list Z) : bool * nat :=
  let s := skip ps in
  (negb (at_ s =? 0) && in_str toks (at_ s), s).

(** * The parser *)

(** A parser returns, calls [panic], or has not ended within the turns given. *)
Inductive pres (A : Type) : Type :=
| POk (a : A) (ps : nat)
| PPanic (msg : list Z)
| PFuel.
Arguments POk {A} _ _.
Arguments PPanic {A} _.
Arguments PFuel {A}.

Fixpoint parseredirs (ps : nat) (fuel : nat) : pres (list redir) :=
  match fuel with
  | O => PFuel
  | S f =>
      let '(more, ps) := peek ps (bs "<>") in
      if negb more then POk [] ps else
      let '(tok, _, ps) := gettoken ps in
      let '(tok2, (q, eq), ps) := gettoken ps in
      if negb (tok2 =? 97) then PPanic (bs "missing file for redirection") else
      match parseredirs ps f with
      | POk rs ps =>
          POk (if tok =? 60 then Redir q eq O_RDONLY 0 :: rs
               else if tok =? 62 then Redir q eq (Z.lor O_WRONLY O_CREATE) 1 :: rs
               else if tok =? 43 then Redir q eq (Z.lor O_WRONLY O_CREATE) 1 :: rs
               else rs) ps
      | PPanic m => PPanic m
      | PFuel => PFuel
      end
  end.

(** The loop of [parseexec]: the words and the redirections from here on. *)
Fixpoint parseargs (ps : nat) (argc : nat) (fuel : nat) : pres (list (nat * nat) * list redir) :=
  match fuel with
  | O => PFuel
  | S f =>
      let '(stop, ps) := peek ps (bs "|)&;") in
      if (stop : bool) then POk ([], []) ps else
      let '(tok, word, ps) := gettoken ps in
      if tok =? 0 then POk ([], []) ps else
      if negb (tok =? 97) then PPanic (bs "syntax") else
      if (MAXARGS <=? S argc)%nat then PPanic (bs "too many args") else
      match parseredirs ps (S (length line)) with
      | POk rs ps =>
          match parseargs ps (S argc) f with
          | POk (ws, rs') ps => POk (word :: ws, rs ++ rs') ps
          | PPanic m => PPanic m
          | PFuel => PFuel
          end
      | PPanic m => PPanic m
      | PFuel => PFuel
      end
  end.

(** [while(peek(ps, es, "&"))] of [parseline]. *)
Fixpoint parseback (c : cmd) (ps : nat) (fuel : nat) : pres cmd :=
  match fuel with
  | O => PFuel
  | S f =>
      let '(more, ps) := peek ps (bs "&") in
      if negb more then POk c ps else
      let '(_, _, ps) := gettoken ps in
      parseback (Backcmd c) ps f
  end.

Definition pbindr {A B} (m : pres A) (k : A -> nat -> pres B) : pres B :=
  match m with
  | POk a ps => k a ps
  | PPanic msg => PPanic msg
  | PFuel => PFuel
  end.

Fixpoint parseline (ps : nat) (fuel : nat) : pres cmd :=
  match fuel with
  | O => PFuel
  | S f =>
      pbindr (parsepipe ps f) (fun c ps =>
      pbindr (parseback c ps (S (length line))) (fun c ps =>
      let '(more, ps) := peek ps (bs ";") in
      if negb more then POk c ps else
      let '(_, _, ps) := gettoken ps in
      pbindr (parseline ps f) (fun r ps => POk (Listcmd c r) ps)))
  end
with parsepipe (ps : nat) (fuel : nat) : pres cmd :=
  match fuel with
  | O => PFuel
  | S f =>
      pbindr (parseexec ps f) (fun c ps =>
      let '(more, ps) := peek ps (bs "|") in
      if negb more then POk c ps else
      let '(_, _, ps) := gettoken ps in
      pbindr (parsepipe ps f) (fun r ps => POk (Pipecmd c r) ps))
  end
with parseblock (ps : nat) (fuel : nat) : pres cmd :=
  match fuel with
  | O => PFuel
  | S f =>
      let '(more, ps) := peek ps (bs "(") in
      if negb more then PPanic (bs "parseblock") else
      let '(_, _, ps) := gettoken ps in
      pbindr (parseline ps f) (fun c ps =>
      let '(more, ps) := peek ps (bs ")") in
      if negb more then PPanic (bs "syntax - missing )") else
      let '(_, _, ps) := gettoken ps in
      pbindr (parseredirs ps (S (length line))) (fun rs ps => POk (wrap c rs) ps))
  end
with parseexec (ps : nat) (fuel : nat) : pres cmd :=
  match fuel with
  | O => PFuel
  | S f =>
      let '(block, ps) := peek ps (bs "(") in
      if (block : bool) then parseblock ps f else
      pbindr (parseredirs ps (S (length line))) (fun rs ps =>
      pbindr (parseargs ps 0 (S (length line))) (fun wr ps =>
      POk (wrap (Execcmd wr.1) (rs ++ wr.2)) ps))
  end.

(** [parsecmd] up to [nulterminate]: the command, or what is left over. *)
Definition parsetop (fuel : nat) : pres (cmd * list Z) :=
  pbindr (parseline 0 fuel) (fun c ps =>
  let '(_, ps) := peek ps [] in
  POk (c, drop ps line) ps).

End parser.
Arguments POk {A} _ _.
Arguments PPanic {A} _.
Arguments PFuel {A}.

(** [nulterminate]: the line after a NUL has been stored at the end of every word. *)
Fixpoint nulterminate (c : cmd) (line : list Z) : list Z :=
  match c with
  | Execcmd argv => fold_left (fun l w => <[w.2 := 0]> l) argv line
  | Redircmd c _ efile _ _ => <[efile := 0]> (nulterminate c line)
  | Pipecmd l r => nulterminate r (nulterminate l line)
  | Listcmd l r => nulterminate r (nulterminate l line)
  | Backcmd c => nulterminate c line
  end.

(** The command as it lies in memory: every string runs up to the next NUL. *)
Fixpoint cstring (l : list Z) : list Z :=
  match l with
  | [] => []
  | c :: l' => if c =? 0 then [] else c :: cstring l'
  end.
Fixpoint strings_of (line : list Z) (c : cmd) : scmd :=
  match c with
  | Execcmd argv => SExec ((fun w => cstring (drop w.1 line)) <$> argv)
  | Redircmd c file _ mode fd => SRedir (strings_of line c) (cstring (drop file line)) mode fd
  | Pipecmd l r => SPipe (strings_of line l) (strings_of line r)
  | Listcmd l r => SList (strings_of line l) (strings_of line r)
  | Backcmd c => SBack (strings_of line c)
  end.

(** Turns that are enough for a line: four levels for every character and at the end. *)
Definition parse_fuel (line : list Z) : nat := 4 * length line + 8.

Definition panic {A} (s : list Z) : prog A :=
  printf 2 (bs "%s" ++ [10]) [PStr (Some s)] ;;
  Exit 0.

Definition parsecmd (line : list Z) : prog scmd :=
  match parsetop line (parse_fuel line) with
  | POk (c, []) _ => Ret (strings_of (nulterminate c line) c)
  | POk (_, more) _ =>
      printf 2 (bs "leftovers: %s" ++ [10]) [PStr (Some more)] ;;
      panic (bs "syntax")
  | PPanic m => panic m
  | PFuel => NoFuel
  end.

(** * Running commands *)

Definition fork1 : prog Z :=
  pid <- sys CFork ;;
  if pid =? -1 then panic (bs "fork") else Ret pid.

Fixpoint runcmd (c : scmd) : prog unit :=
  match c with
  | SExec argv =>
      match argv with
      | [] => Exit 0
      | a :: _ =>
          sys (CExec a argv) ;;
          printf 2 (bs "exec %s failed" ++ [10]) [PStr (Some a)] ;;
          Exit 0
      end
  | SRedir c file mode fd =>
      sys (CClose fd) ;;
      r <- sys (COpen file mode) ;;
      if r <? 0 then
        printf 2 (bs "open %s failed" ++ [10]) [PStr (Some file)] ;;
        Exit 0
      else
      runcmd c ;;
      Exit 0
  | SList l r =>
      pid <- fork1 ;;
      (if pid =? 0 then runcmd l else Ret tt) ;;
      sys CWait ;;
      runcmd r ;;
      Exit 0
  | SPipe l r =>
      p <- sys_data CPipe ;;
      if a_val p <? 0 then panic (bs "pipe") else
      let p0 := nth 0 (a_data p) 0 in
      let p1 := nth 1 (a_data p) 0 in
      pid <- fork1 ;;
      (if pid =? 0 then
         sys (CClose 1) ;;
         sys (CDup p1) ;;
         sys (CClose p0) ;;
         sys (CClose p1) ;;
         runcmd l
       else Ret tt) ;;
      pid <- fork1 ;;
      (if pid =? 0 then
         sys (CClose 0) ;;
         sys (CDup p0) ;;
         sys (CClose p0) ;;
         sys (CClose p1) ;;
         runcmd r
       else Ret tt) ;;
      sys (CClose p0) ;;
      sys (CClose p1) ;;
      sys CWait ;;
      sys CWait ;;
      Exit 0
  | SBack c =>
      pid <- fork1 ;;
      (if pid =? 0 then runcmd c else Ret tt) ;;
      Exit 0
  end.

(** [getcmd(buf, 100)]: the line, or nothing at the end of the input. *)
Definition getcmd : prog (option (list Z)) :=
  printf 2 (bs "$ ") [] ;;
  buf <- gets 100 ;;
  let line := cstring buf in
  Ret (match line with [] => None | _ => Some line end).

(** [while((fd = open("console", O_RDWR)) >= 0)]. *)
Fixpoint open_console (fuel : nat) : prog unit :=
  match fuel with
  | O => NoFuel
  | S f =>
      fd <- sys (COpen (bs "console") O_RDWR) ;;
      if fd <? 0 then Ret tt else
      if 3 <=? fd then sys (CClose fd) ;; Ret tt else open_console f
  end.

Fixpoint shell_loop (fuel : nat) : prog unit :=
  match fuel with
  | O => NoFuel
  | S f =>
      l <- getcmd ;;
      match l with
      | None => Exit 0
      | Some line =>
          match line with
          | 99 :: 100 :: 32 :: _ =>
              let dir := drop 3 (take (length line - 1) line) in
              r <- sys (CChdir dir) ;;
              (if r <? 0 then printf 2 (bs "cannot cd %s" ++ [10]) [PStr (Some dir)] else Ret tt) ;;
              shell_loop f
          | _ =>
              pid <- fork1 ;;
              (if pid =? 0 then c <- parsecmd line ;; runcmd c else Ret tt) ;;
              sys CWait ;;
              shell_loop f
          end
      end
  end.

Definition sh_main (fuel : nat) : prog unit := open_console fuel ;; shell_loop fuel.
