(* ===== verification/ShParse.v ===== *)
(** The parser of the shell: it ends on every line, and it inverts a printer. *)
From stdpp Require Import base numbers list sets strings.
From Stdlib Require Import ZArith Lia.
From S2P Require Import Prelude Ulib Sh.

Lemma in_str_spec l c : Forall (fun x => x <> 0) l -> in_str l c = true <-> c ∈ l.
Proof.
  unfold in_str. induction 1 as [|x l Hx Hl IH]; simpl; [set_solver|]. rewrite (proj2 (Z.eqb_neq _ _) Hx).
  destruct (Z.eqb_spec x c) as [->|Hne]; [set_solver|]. destruct (strchr l c); simpl; set_solver.
Qed.

(** * Blanks *)

(** A text without its leading blanks. *)
Definition strip (l : list Z) : list Z := drop (blanks l) l.

Lemma blanks_le l : (blanks l <= length l)%nat.
Proof. induction l as [|c l IH]; simpl; [lia|]. destruct (in_str whitespace c); lia. Qed.

Lemma strip_blank c l : in_str whitespace c = true -> strip (c :: l) = strip l.
Proof. intros Hc. unfold strip. simpl. by rewrite Hc. Qed.

Lemma strip_other c l : in_str whitespace c = false -> strip (c :: l) = c :: l.
Proof. intros Hc. unfold strip. simpl. by rewrite Hc. Qed.

Lemma strip_strip l : strip (strip l) = strip l.
Proof.
  induction l as [|c l IH]; [done|]. destruct (in_str whitespace c) eqn:Hc.
  - by rewrite strip_blank.
  - by rewrite !strip_other.
Qed.

Lemma blanks_strip l : blanks (strip l) = O.
Proof.
  induction l as [|c l IH]; [done|]. destruct (in_str whitespace c) eqn:Hc.
  - by rewrite strip_blank.
  - rewrite strip_other by done. simpl. by rewrite Hc.
Qed.

Section line.
Context (line : list Z).
Implicit Types ps : nat.

(** What is left of the line, without leading blanks. *)
Definition rem (ps : nat) : list Z := strip (drop ps line).

Lemma drop_skip ps : drop (skip line ps) line = rem ps.
Proof. unfold skip, rem, strip. by rewrite drop_drop. Qed.

Lemma rem_skip ps : rem (skip line ps) = rem ps.
Proof. unfold rem at 1. rewrite drop_skip. apply strip_strip. Qed.

Lemma skip_skip ps : skip line (skip line ps) = skip line ps.
Proof. unfold skip at 1. rewrite drop_skip. unfold rem. rewrite blanks_strip. lia. Qed.

Lemma at_drop s : at_ line s = hd 0 (drop s line).
Proof.
  unfold at_. revert s. induction line as [|c l IH]; intros [|s]; simpl; done.
Qed.

Lemma skip_ge ps : (ps <= skip line ps)%nat.
Proof. unfold skip. lia. Qed.

Lemma skip_le ps : (ps <= length line)%nat -> (skip line ps <= length line)%nat.
Proof. intros H. unfold skip. pose proof (blanks_le (drop ps line)) as Hb. rewrite length_drop in Hb. lia. Qed.

Lemma at_in s : at_ line s <> 0 -> (s < length line)%nat.
Proof. intros H. destruct (Nat.lt_ge_cases s (length line)) as [|Hge]; [done|]. exfalso. apply H. unfold at_. by apply nth_overflow. Qed.

Lemma peek_rem ps toks :
  peek line ps toks = (match rem ps with c :: _ => negb (c =? 0) && in_str toks c | [] => false end, skip line ps).
Proof. unfold peek. rewrite at_drop, drop_skip. by destruct (rem ps). Qed.

(** * Progress *)

Lemma rem_not_blank ps c l : rem ps = c :: l -> in_str whitespace c = false.
Proof.
  intros E. unfold rem in E. pose proof (blanks_strip (drop ps line)) as Hb. rewrite E in Hb. simpl in Hb.
  by destruct (in_str whitespace c).
Qed.

Lemma word_len_pos l c : c <> 0 -> in_str whitespace c = false ->
  in_str (bs "|();&<") c = false -> (c =? 62) = false -> (0 < word_len (c :: l))%nat.
Proof.
  intros H0 Hw Hs Hg. simpl. rewrite Hw. simpl. destruct (in_str symbols c) eqn:E; [exfalso|simpl; lia].
  apply in_str_spec in E; [|repeat constructor; done]. apply Z.eqb_neq in Hg.
  assert (c ∉ bs "|();&<") as Hn by (rewrite <- in_str_spec by (repeat constructor; done); by rewrite Hs).
  unfold symbols in E. change (bs "<|>&;()") with [60; 124; 62; 38; 59; 40; 41] in E.
  change (bs "|();&<") with [124; 40; 41; 59; 38; 60] in Hn. set_solver.
Qed.

Lemma word_len_le l : (word_len l <= length l)%nat.
Proof. induction l as [|c l IH]; simpl; [lia|]. destruct (_ && _); lia. Qed.

Lemma gettoken_adv ps : (ps <= length line)%nat ->
  let '(t, _, ps') := gettoken line ps in
  (ps <= ps' <= length line)%nat /\ (at_ line (skip line ps) <> 0 -> (ps < ps')%nat) /\ (t <> 0 -> at_ line (skip line ps) <> 0).
Proof.
  intros Hps. unfold gettoken. pose proof (skip_le ps Hps) as Hs. pose proof (skip_ge ps) as Hg.
  set (s := skip line ps) in *.
  assert (forall e, (s <= e <= length line)%nat -> (ps <= skip line e <= length line)%nat /\ (e <= skip line e)%nat) as Hsk.
  { intros e He. pose proof (skip_ge e). pose proof (skip_le e ltac:(lia)). lia. }
  destruct (Z.eqb_spec (at_ line s) 0) as [E|E].
  { destruct (Hsk s ltac:(lia)). done. }
  pose proof (at_in s E) as Hlt.
  assert (exists l, drop s line = at_ line s :: l) as [l El].
  { rewrite at_drop in *. destruct (drop s line) as [|c l] eqn:Ed; [|by exists l].
    apply (f_equal length) in Ed. rewrite length_drop in Ed. simpl in Ed. lia. }
  assert (in_str whitespace (at_ line s) = false) as Hw.
  { apply (rem_not_blank ps _ l). rewrite <- drop_skip. exact El. }
  destruct (in_str (bs "|();&<") (at_ line s)) eqn:E1.
  { destruct (Hsk (S s) ltac:(lia)). split; [done|]. split; [lia|done]. }
  destruct (at_ line s =? 62) eqn:E2.
  { destruct (Z.eqb_spec (at_ line (S s)) 62) as [E3|E3].
    - pose proof (at_in (S s) ltac:(lia)). destruct (Hsk (S (S s)) ltac:(lia)). split; [done|]. split; [lia|done].
    - destruct (Hsk (S s) ltac:(lia)). split; [done|]. split; [lia|done]. }
  pose proof (word_len_pos l _ E Hw E1 E2) as Hpos. rewrite <- El in Hpos. pose proof (word_len_le (drop s line)) as Hl.
  rewrite length_drop in Hl. destruct (Hsk (s + word_len (drop s line))%nat ltac:(lia)). split; [done|]. split; [lia|done].
Qed.

Lemma peek_adv ps toks : (ps <= length line)%nat ->
  let '(b, ps') := peek line ps toks in
  (ps <= ps' <= length line)%nat /\ skip line ps' = ps' /\ (b = true -> at_ line ps' <> 0).
Proof.
  intros Hps. unfold peek. pose proof (skip_le ps Hps). pose proof (skip_ge ps). split; [done|]. split; [apply skip_skip|].
  intros [Hb _]%andb_true_iff. by destruct (Z.eqb_spec (at_ line (skip line ps)) 0).
Qed.

(** [r] is an answer, and the place where it leaves off is at [ps] or later. *)
Definition ends {A} (ps : nat) (r : pres A) : Prop :=
  match r with
  | POk _ ps' => (ps <= ps' <= length line)%nat
  | PPanic _ => True
  | PFuel => False
  end.

Lemma ends_bind {A B} ps (r : pres A) (k : A -> nat -> pres B) :
  ends ps r -> (forall a ps', (ps <= ps' <= length line)%nat -> ends ps (k a ps')) -> ends ps (pbindr r k).
Proof. destruct r; simpl; auto. Qed.

Lemma ends_mono {A} ps ps' (r : pres A) : (ps <= ps')%nat -> ends ps' r -> ends ps r.
Proof. destruct r; simpl; auto. lia. Qed.

Lemma parseredirs_ends fuel ps : (ps <= length line)%nat -> (length line - ps < fuel)%nat -> ends ps (parseredirs line ps fuel).
Proof.
  revert ps. induction fuel as [|f IH]; intros ps Hps Hf; [lia|]. cbn [parseredirs].
  pose proof (peek_adv ps (bs "<>") Hps) as Hp. destruct (peek line ps (bs "<>")) as [more p1].
  destruct Hp as (Hp & Hs & Hat). destruct more; simpl; [|lia].
  pose proof (gettoken_adv p1 ltac:(lia)) as Hg. destruct (gettoken line p1) as [[t w] p2].
  destruct Hg as (Hg1 & Hg2 & _). rewrite Hs in Hg2. specialize (Hg2 (Hat eq_refl)).
  pose proof (gettoken_adv p2 ltac:(lia)) as Hh. destruct (gettoken line p2) as [[t2 [q e]] p3].
  destruct Hh as (Hh & _). destruct (t2 =? 97); simpl; [|done].
  specialize (IH p3 ltac:(lia) ltac:(lia)). destruct (parseredirs line p3 f); simpl in *; [lia|done|done].
Qed.

Lemma parseargs_ends fuel ps argc : (ps <= length line)%nat -> (length line - ps < fuel)%nat -> ends ps (parseargs line ps argc fuel).
Proof.
  revert ps argc. induction fuel as [|f IH]; intros ps argc Hps Hf; [lia|]. cbn [parseargs].
  pose proof (peek_adv ps (bs "|)&;") Hps) as Hp. destruct (peek line ps (bs "|)&;")) as [stop p1].
  destruct Hp as (Hp & Hs & _). destruct stop; [simpl; lia|].
  pose proof (gettoken_adv p1 ltac:(lia)) as Hg. destruct (gettoken line p1) as [[t w] p2]. destruct Hg as (Hg1 & Hg2 & Hg3).
  destruct (Z.eqb_spec t 0) as [|Ht]; [simpl; lia|]. specialize (Hg2 (Hg3 Ht)).
  destruct (t =? 97); cbn [negb]; [|done]. destruct (MAXARGS <=? S argc)%nat; [done|].
  pose proof (parseredirs_ends (S (length line)) p2 ltac:(lia) ltac:(lia)) as Hr.
  destruct (parseredirs line p2 (S (length line))) as [rs p3| |]; try done. simpl in Hr.
  specialize (IH p3 (S argc) ltac:(lia) ltac:(lia)).
  destruct (parseargs line p3 (S argc) f) as [[ws rs'] p4| |]; simpl in *; [lia|done|done].
Qed.

Lemma parseback_ends fuel c ps : (ps <= length line)%nat -> (length line - ps < fuel)%nat -> ends ps (parseback line c ps fuel).
Proof.
  revert c ps. induction fuel as [|f IH]; intros c ps Hps Hf; [lia|]. cbn [parseback].
  pose proof (peek_adv ps (bs "&") Hps) as Hp. destruct (peek line ps (bs "&")) as [more p1].
  destruct Hp as (Hp & Hs & Hat). destruct more; simpl; [|lia].
  pose proof (gettoken_adv p1 ltac:(lia)) as Hg. destruct (gettoken line p1) as [[t w] p2].
  destruct Hg as (Hg1 & Hg2 & _). rewrite Hs in Hg2. specialize (Hg2 (Hat eq_refl)).
  eapply ends_mono; [|apply IH; lia]. lia.
Qed.

(** One token on. *)
Lemma token_ends {A} ps ps' (k : nat -> pres A) : (ps <= ps' <= length line)%nat -> skip line ps' = ps' -> at_ line ps' <> 0 ->
  (forall p, (ps' < p <= length line)%nat -> ends p (k p)) -> ends ps (let '(_, _, p) := gettoken line ps' in k p).
Proof.
  intros Hps Hs Hat Hk. pose proof (gettoken_adv ps' ltac:(lia)) as Hg. destruct (gettoken line ps') as [[t w] p].
  destruct Hg as (Hg1 & Hg2 & _). rewrite Hs in Hg2. specialize (Hg2 Hat). eapply ends_mono; [|apply Hk; lia]. lia.
Qed.

Lemma parse_ends fuel : forall ps, (ps <= length line)%nat ->
  ((4 * (length line - ps) + 4 <= fuel)%nat -> ends ps (parseline line ps fuel)) /\
  ((4 * (length line - ps) + 3 <= fuel)%nat -> ends ps (parsepipe line ps fuel)) /\
  ((4 * (length line - ps) + 2 <= fuel)%nat -> ends ps (parseexec line ps fuel)) /\
  ((4 * (length line - ps) + 1 <= fuel)%nat -> ends ps (parseblock line ps fuel)).
Proof.
  induction fuel as [|f IH]; intros ps Hps; [repeat split; lia|].
  assert (forall p, (ps < p <= length line)%nat -> (4 * (length line - p) + 4 <= 4 * (length line - ps))%nat) as Hm by (intros; lia).
  split; [|split; [|split]]; intros Hf.
  - cbn [parseline]. apply ends_bind; [apply IH; lia|]. intros c p1 H1.
    apply ends_bind; [eapply ends_mono; [|apply parseback_ends; lia]; lia|]. intros c2 p2 H2.
    pose proof (peek_adv p2 (bs ";") ltac:(lia)) as Hp. destruct (peek line p2 (bs ";")) as [more p3].
    destruct Hp as (Hp & Hs & Hat). destruct more; cbn [negb]; [|simpl; lia].
    apply (token_ends ps p3 (fun p => pbindr (parseline line p f) _)); [lia|done|auto|].
    intros p Hp4. apply ends_bind; [apply IH; [lia|specialize (Hm p); lia]|]. intros r p5 Hp5. simpl. lia.
  - cbn [parsepipe]. apply ends_bind; [apply IH; lia|]. intros c p1 H1.
    pose proof (peek_adv p1 (bs "|") ltac:(lia)) as Hp. destruct (peek line p1 (bs "|")) as [more p3].
    destruct Hp as (Hp & Hs & Hat). destruct more; cbn [negb]; [|simpl; lia].
    apply (token_ends ps p3 (fun p => pbindr (parsepipe line p f) _)); [lia|done|auto|].
    intros p Hp4. apply ends_bind; [apply IH; [lia|specialize (Hm p); lia]|]. intros r p5 Hp5. simpl. lia.
  - cbn [parseexec]. pose proof (peek_adv ps (bs "(") ltac:(lia)) as Hp. destruct (peek line ps (bs "(")) as [block p1].
    destruct Hp as (Hp & Hs & Hat). destruct block; [eapply ends_mono; [|apply IH; lia]; lia|].
    apply ends_bind; [eapply ends_mono; [|apply parseredirs_ends; lia]; lia|]. intros rs p2 H2.
    apply ends_bind; [eapply ends_mono; [|apply parseargs_ends; lia]; lia|]. intros wr p3 H3. simpl. lia.
  - cbn [parseblock]. pose proof (peek_adv ps (bs "(") ltac:(lia)) as Hp. destruct (peek line ps (bs "(")) as [more p1].
    destruct Hp as (Hp & Hs & Hat). destruct more; cbn [negb]; [|done].
    apply (token_ends ps p1 (fun p => pbindr (parseline line p f) _)); [lia|done|auto|].
    intros p Hp4. apply ends_bind; [apply IH; [lia|specialize (Hm p); lia]|]. intros c p5 Hp5.
    pose proof (peek_adv p5 (bs ")") ltac:(lia)) as Hp6. destruct (peek line p5 (bs ")")) as [more p6].
    destruct Hp6 as (Hp6 & Hs6 & Hat6). destruct more; cbn [negb]; [|done].
    apply (token_ends p p6 (fun p => pbindr (parseredirs line p (S (length line))) _)); [lia|done|auto|].
    intros p7 Hp7. apply ends_bind; [apply parseredirs_ends; lia|]. intros rs p8 Hp8. simpl. lia.
Qed.

(** * Tokens *)

Definition wordchar (c : Z) : Prop := c <> 0 /\ in_str whitespace c = false /\ in_str symbols c = false.
Definition is_word (w : list Z) : Prop := w <> [] /\ Forall wordchar w.

(** What follows a word: nothing, or a character that ends it. *)
Definition no_word (l : list Z) : Prop := match l with [] => True | c :: _ => ~ wordchar c end.

(** The word [s] lies at the place [w] of the line. *)
Definition word_at (w : nat * nat) (s : list Z) : Prop :=
  exists l, drop w.1 line = s ++ l /\ w.2 = (w.1 + length s)%nat /\ is_word s /\ no_word l.

Lemma symbols_list : symbols = [60; 124; 62; 38; 59; 40; 41].
Proof. done. Qed.

Lemma wordchar_no_symbol c : wordchar c -> in_str (bs "|();&<") c = false /\ (c =? 62) = false /\ (c =? 0) = false.
Proof.
  intros (H0 & Hw & Hs). assert (c ∉ symbols) as Hn.
  { rewrite <- in_str_spec by (repeat constructor; done). by rewrite Hs. }
  rewrite symbols_list in Hn. split; [|split; [apply Z.eqb_neq; set_solver|by apply Z.eqb_neq]].
  destruct (in_str (bs "|();&<") c) eqn:E; [|done]. apply in_str_spec in E; [|repeat constructor; done].
  change (bs "|();&<") with [124; 40; 41; 59; 38; 60] in E. set_solver.
Qed.

Lemma word_len_word w l : Forall wordchar w -> Forall (fun c => c <> 0) l -> no_word l -> word_len (w ++ l) = length w.
Proof.
  intros Hw Hl Hn. induction Hw as [|c w (H0 & H1 & H2) Hw IH]; simpl.
  - destruct l as [|c l]; [done|]. simpl in *. inversion_clear Hl. destruct (in_str whitespace c) eqn:E1; [done|].
    destruct (in_str symbols c) eqn:E2; [done|]. exfalso. by apply Hn.
  - rewrite H1, H2. simpl. by rewrite IH.
Qed.

Context (Hline : Forall (fun c => c <> 0) line).

Lemma rem_nz ps : Forall (fun c => c <> 0) (rem ps).
Proof. unfold rem, strip. by repeat apply Forall_drop. Qed.

Lemma drop_next ps w l : rem ps = w ++ l -> drop (skip line ps + length w) line = l.
Proof. intros E. rewrite <- drop_drop, drop_skip, E. by rewrite drop_app_length. Qed.

Lemma gettoken_sym ps c l : rem ps = c :: l -> in_str (bs "|();&<") c = true ->
  exists p, gettoken line ps = (c, (skip line ps, S (skip line ps)), p) /\ rem p = strip l.
Proof.
  intros E Hc. pose proof (rem_nz ps) as Hnz. rewrite E in Hnz. apply Forall_cons in Hnz as [H0 _].
  unfold gettoken. rewrite at_drop, drop_skip, E. cbn [hd]. rewrite (proj2 (Z.eqb_neq _ _) H0), Hc.
  eexists. split; [done|]. rewrite rem_skip. unfold rem. f_equal.
  replace (S (skip line ps)) with (skip line ps + 1)%nat by lia. by apply (drop_next ps [c]).
Qed.

Lemma gettoken_gt ps l : rem ps = 62 :: l -> hd 0 l <> 62 ->
  exists p, gettoken line ps = (62, (skip line ps, S (skip line ps)), p) /\ rem p = strip l.
Proof.
  intros E Hl. assert (drop (S (skip line ps)) line = l) as Ed.
  { replace (S (skip line ps)) with (skip line ps + 1)%nat by lia. by apply (drop_next ps [62]). }
  unfold gettoken. rewrite !at_drop, drop_skip, E, Ed. cbn [hd]. change (62 =? 0) with false. cbn [hd].
  change (in_str (bs "|();&<") 62) with false. change (62 =? 62) with true. cbv iota beta. rewrite (proj2 (Z.eqb_neq _ _) Hl).
  eexists. split; [done|]. rewrite rem_skip. unfold rem. by rewrite Ed.
Qed.

Lemma gettoken_word ps w l : rem ps = w ++ l -> is_word w -> no_word l ->
  exists q p, gettoken line ps = (97, q, p) /\ word_at q w /\ rem p = strip l.
Proof.
  intros E [Hne Hw] Hn. pose proof (rem_nz ps) as Hnz. rewrite E in Hnz. apply Forall_app in Hnz as [_ Hnz].
  unfold gettoken. rewrite at_drop, drop_skip, E, word_len_word by done.
  destruct w as [|c w]; [done|]. cbn [app hd]. apply Forall_cons in Hw as Hw'. destruct Hw' as [Hc _].
  destruct (wordchar_no_symbol c Hc) as (-> & -> & ->). eexists _, _. split; [done|]. split.
  - exists l. cbn [fst snd]. rewrite drop_skip, E. done.
  - rewrite rem_skip. unfold rem. f_equal. by apply drop_next.
Qed.

(** * A printer *)

Definition rspec : Type := list Z * Z * Z.

Definition pr_word (w : list Z) : list Z := 32 :: w.
Definition pr_redir (r : rspec) : list Z := [32; (if r.2 =? 0 then 60 else 62); 32] ++ r.1.1.
Definition pr_words (ws : list (list Z)) : list Z := concat (pr_word <$> ws).
Definition pr_redirs (rs : list rspec) : list Z := concat (pr_redir <$> rs).

(** The lowest level of the grammar at which a command can stand without
    parentheses: [parseexec], [parsepipe], before an ampersand, [parseline]. *)
Definition level (a : scmd) : nat :=
  match a with SExec _ | SRedir _ _ _ _ => 0 | SPipe _ _ => 1 | SBack _ => 2 | SList _ _ => 3 end.

Definition paren (k : nat) (a : scmd) (s : list Z) : list Z :=
  if (level a <=? k)%nat then s else [32; 40] ++ s ++ [32; 41].

Fixpoint pr (a : scmd) : list Z :=
  match a with
  | SExec ws => pr_words ws
  | SRedir c f m fd => paren 0 c (pr c) ++ pr_redir (f, m, fd)
  | SPipe l r => paren 0 l (pr l) ++ [32; 124] ++ paren 1 r (pr r)
  | SBack c => paren 2 c (pr c) ++ [32; 38]
  | SList l r => paren 2 l (pr l) ++ [32; 59] ++ pr r
  end.

(** Commands that can be written: words without blanks and symbols, fewer than
    [MAXARGS] of them, and the two kinds of redirection that the parser makes. *)
Definition rvalid (r : rspec) : Prop :=
  is_word r.1.1 /\ (r.1.2 = O_RDONLY /\ r.2 = 0 \/ r.1.2 = Z.lor O_WRONLY O_CREATE /\ r.2 = 1).

Fixpoint valid (a : scmd) : Prop :=
  match a with
  | SExec ws => Forall is_word ws /\ (length ws < MAXARGS)%nat
  | SRedir c f m fd => valid c /\ rvalid (f, m, fd)
  | SPipe l r => valid l /\ valid r
  | SBack c => valid c
  | SList l r => valid l /\ valid r
  end.

(** The parsed command [c] is [a]. *)
Definition redir_at (r : redir) (s : rspec) : Prop :=
  word_at (r_file r, r_efile r) s.1.1 /\ r_mode r = s.1.2 /\ r_fd r = s.2.

Fixpoint reads (c : cmd) (a : scmd) : Prop :=
  match a with
  | SExec ss => exists ws, c = Execcmd ws /\ Forall2 word_at ws ss
  | SRedir a' f m fd => exists c' r, c = redircmd c' r /\ redir_at r (f, m, fd) /\ reads c' a'
  | SPipe l r => exists cl cr, c = Pipecmd cl cr /\ reads cl l /\ reads cr r
  | SBack a' => exists c', c = Backcmd c' /\ reads c' a'
  | SList l r => exists cl cr, c = Listcmd cl cr /\ reads cl l /\ reads cr r
  end.

(** * The parser inverts the printer *)

(** What may follow: no rest of a word, and after blanks nothing or one of [l]. *)
Definition stop (l rest : list Z) : Prop :=
  no_word rest /\ match strip rest with [] => True | c :: _ => c ∈ l end.

Lemma peek_no ps toks : (forall c l, rem ps = c :: l -> in_str toks c = false) -> peek line ps toks = (false, skip line ps).
Proof. intros H. rewrite peek_rem. destruct (rem ps) as [|c l]; [done|]. rewrite (H c l eq_refl). by rewrite andb_false_r. Qed.

Lemma peek_yes ps toks c l : rem ps = c :: l -> in_str toks c = true -> peek line ps toks = (true, skip line ps).
Proof.
  intros E H. pose proof (rem_nz ps) as Hnz. rewrite E in Hnz. apply Forall_cons in Hnz as [H0 _].
  rewrite peek_rem, E, H. by rewrite (proj2 (Z.eqb_neq _ _) H0).
Qed.

Lemma strip_word w l : is_word w -> strip (w ++ l) = w ++ l.
Proof. intros [Hne Hw]. destruct w as [|c w]; [done|]. apply strip_other. inversion_clear Hw. by destruct H as (_ & ? & _). Qed.

Lemma strip_pr_word w l : is_word w -> strip (pr_word w ++ l) = w ++ l.
Proof. intros Hw. unfold pr_word. cbn [app]. rewrite strip_blank by done. by apply strip_word. Qed.

Lemma no_word_blank l : no_word (32 :: l).
Proof. intros (_ & H & _). done. Qed.

Lemma word_head w l c l' : is_word w -> w ++ l = c :: l' -> wordchar c.
Proof. intros [Hne Hw] E. destruct w as [|x w]; [done|]. injection E as -> _. by inversion_clear Hw. Qed.

Lemma wordchar_not c toks : wordchar c -> Forall (fun x => x <> 0) toks -> toks ⊆ symbols -> in_str toks c = false.
Proof.
  intros (_ & _ & Hs) Hnz Hsub. destruct (in_str toks c) eqn:E; [|done]. apply in_str_spec in E; [|done].
  assert (in_str symbols c = true) as H by (apply in_str_spec; [repeat constructor; done|set_solver]). congruence.
Qed.

Lemma parseredirs_ok fuel ps rs rest :
  rem ps = strip (pr_redirs rs ++ rest) -> Forall rvalid rs -> no_word rest ->
  (forall c l, strip rest = c :: l -> in_str (bs "<>") c = false) ->
  parseredirs line ps fuel = PFuel \/
  exists rs' p, parseredirs line ps fuel = POk rs' p /\ rem p = strip rest /\ Forall2 redir_at rs' rs.
Proof.
  revert ps rs. induction fuel as [|f IH]; intros ps rs E Hv Hn Hr; [by left|]. cbn [parseredirs].
  destruct Hv as [|[[w m] fd] rs [Hw Hk] Hv].
  { rewrite peek_no by (intros c l Ec; rewrite E in Ec; by apply (Hr c l)). cbn [negb]. right.
    exists [], (skip line ps). by rewrite rem_skip. }
  set (c0 := if fd =? 0 then 60 else 62). set (tl := pr_redirs rs ++ rest).
  assert (rem ps = c0 :: 32 :: w ++ tl) as E0.
  { rewrite E. unfold pr_redirs. rewrite fmap_cons. cbn [concat]. rewrite <- app_assoc. unfold pr_redir at 1. cbn [fst snd app].
    fold c0. rewrite strip_blank by done. rewrite strip_other; [done|]. unfold c0. by destruct (fd =? 0). }
  assert (no_word tl) as Hnt by (unfold tl; destruct rs; [done|apply no_word_blank]).
  rewrite (peek_yes ps _ _ _ E0) by (unfold c0; by destruct (fd =? 0)). cbn [negb].
  assert (exists q p, gettoken line (skip line ps) = (c0, q, p) /\ rem p = w ++ tl) as (q & p & Eg & Ep).
  { rewrite <- rem_skip in E0. cbn [fst snd] in Hw. rewrite <- (strip_word w tl Hw). unfold c0 in *. destruct (fd =? 0).
    - destruct (gettoken_sym _ _ _ E0) as (p & Eg & Ep); [done|]. eexists _, p. split; [exact Eg|].
      rewrite Ep. by rewrite strip_blank.
    - destruct (gettoken_gt _ _ E0) as (p & Eg & Ep); [done|]. eexists _, p. split; [exact Eg|].
      rewrite Ep. by rewrite strip_blank. }
  rewrite Eg. destruct (gettoken_word p w tl Ep Hw Hnt) as ([q1 e1] & p2 & Eg2 & Hat & Ep2). rewrite Eg2. cbn [negb Z.eqb Pos.eqb].
  destruct (IH p2 rs Ep2 Hv Hn Hr) as [-> | (rs' & p3 & -> & Hp3 & Hrs)]; [by left|right].
  eexists _, p3. split; [done|]. split; [done|].
  destruct Hk as [[Hm Hf]|[Hm Hf]]; cbn [fst snd] in Hm, Hf; subst fd; unfold c0; cbn; constructor; done.
Qed.

Lemma gettoken_end ps : rem ps = [] -> exists q p, gettoken line ps = (0, q, p) /\ rem p = [].
Proof.
  intros E. unfold gettoken. rewrite at_drop, drop_skip, E. cbn. eexists _, _. split; [done|]. by rewrite !rem_skip.
Qed.

Lemma parseargs_ok fuel ps argc ws rs rest :
  rem ps = strip (pr_words ws ++ pr_redirs rs ++ rest) -> Forall is_word ws -> Forall rvalid rs -> (ws = [] -> rs = []) ->
  (argc + length ws < MAXARGS)%nat -> stop [124; 41; 38; 59] rest ->
  parseargs line ps argc fuel = PFuel \/
  exists ws' rs' p, parseargs line ps argc fuel = POk (ws', rs') p /\ rem p = strip rest /\
    Forall2 word_at ws' ws /\ Forall2 redir_at rs' rs.
Proof.
  revert ps argc ws rs. induction fuel as [|f IH]; intros ps argc ws rs E Hws Hrs Hnil Hlen Hst; [by left|]. cbn [parseargs].
  pose proof Hst as [Hnw Hhd]. destruct Hws as [|w ws Hw Hws].
  { rewrite (Hnil eq_refl) in *. cbn [pr_words pr_redirs fmap list_fmap concat app] in E. right. destruct (strip rest) as [|c l] eqn:Er.
    - rewrite peek_no by (by rewrite E). rewrite <- rem_skip in E. destruct (gettoken_end _ E) as (q & p & -> & Hp).
      cbn. eexists _, _, p. done.
    - assert (in_str (bs "|)&;") c = true) as Hc by (apply in_str_spec; [repeat constructor; done|done]).
      rewrite (peek_yes ps _ c l E Hc). eexists _, _, (skip line ps). split; [done|]. rewrite rem_skip. done. }
  set (tl := pr_words ws ++ pr_redirs rs ++ rest).
  assert (rem ps = w ++ tl) as E0.
  { rewrite E. unfold pr_words. rewrite fmap_cons. cbn [concat]. rewrite <- !app_assoc. by apply strip_pr_word. }
  assert (no_word tl) as Hnt.
  { unfold tl. destruct ws; [|apply no_word_blank]. destruct rs; [done|apply no_word_blank]. }
  rewrite peek_no by (intros c l Ec; rewrite E0 in Ec; apply wordchar_not;
    [by eapply word_head|repeat constructor; done|rewrite symbols_list; change (bs "|)&;") with [124; 41; 38; 59]; set_solver]).
  rewrite <- rem_skip in E0. destruct (gettoken_word _ w tl E0 Hw Hnt) as (q & p & -> & Hat & Ep).
  cbn [negb Z.eqb Pos.eqb]. simpl length in Hlen. destruct (Nat.leb_spec MAXARGS (S argc)); [lia|].
  set (r1 := match ws with [] => rs | _ => [] end). set (r2 := match ws with [] => [] | _ => rs end).
  assert (rs = r1 ++ r2) as Ers by (unfold r1, r2; destruct ws; [by rewrite app_nil_r|done]).
  assert (Forall rvalid r1 /\ Forall rvalid r2) as [Hr1 Hr2] by (rewrite Ers in Hrs; by apply Forall_app in Hrs).
  assert (tl = pr_redirs r1 ++ pr_words ws ++ pr_redirs r2 ++ rest) as Etl by (unfold tl, r1, r2; by destruct ws).
  destruct (parseredirs_ok (S (length line)) p r1 (pr_words ws ++ pr_redirs r2 ++ rest)) as [-> | (rs1 & p3 & -> & Hp3 & Hrs1)].
  - by rewrite Ep, Etl.
  - done.
  - unfold r2. destruct ws; [done|apply no_word_blank].
  - intros c l Ec. unfold r2 in Ec. destruct Hws as [|w2 ws Hw2 Hws].
    + cbn [pr_words pr_redirs fmap list_fmap concat app] in Ec. rewrite Ec in Hhd.
      destruct (in_str (bs "<>") c) eqn:Ei; [|done]. apply in_str_spec in Ei; [|repeat constructor; done].
      change (bs "<>") with [60; 62] in Ei. set_solver.
    + unfold pr_words in Ec. rewrite fmap_cons in Ec. cbn [concat] in Ec. rewrite <- !app_assoc, strip_pr_word in Ec by done.
      apply wordchar_not; [by eapply word_head|repeat constructor; done|]. rewrite symbols_list. change (bs "<>") with [60; 62]. set_solver.
  - by left.
  - destruct (IH p3 (S argc) ws r2 Hp3 Hws Hr2) as [-> | (ws' & rs' & p4 & -> & Hp4 & Hf1 & Hf2)].
    + by intros ->.
    + lia.
    + done.
    + by left.
    + right. eexists _, _, p4. split; [done|]. split; [done|]. split; [by constructor|]. rewrite Ers. by apply Forall2_app.
Qed.

(** A command under its redirections, and one before its ampersands. *)
Fixpoint unredir (a : scmd) : scmd * list rspec :=
  match a with
  | SRedir c f m fd => ((unredir c).1, (unredir c).2 ++ [(f, m, fd)])
  | _ => (a, [])
  end.
Fixpoint unback (a : scmd) : scmd * nat :=
  match a with
  | SBack c => ((unback c).1, S (unback c).2)
  | _ => (a, O)
  end.

Definition pr_base (b : scmd) : list Z :=
  match b with SExec ws => pr_words ws | _ => [32; 40] ++ pr b ++ [32; 41] end.

Lemma paren_unredir a : paren 0 a (pr a) = pr_base (unredir a).1 ++ pr_redirs (unredir a).2.
Proof.
  induction a as [ws|c IH f m fd|l _ r _|l _ r _|c _]; cbn [unredir fst snd]; unfold paren; cbn [level Nat.leb]; unfold pr_redirs; cbn [fmap list_fmap concat]; rewrite ?app_nil_r; try done.
  cbn [pr]. rewrite IH. rewrite fmap_app, concat_app, app_assoc. f_equal. cbn. by rewrite app_nil_r.
Qed.

Lemma valid_unredir a : valid a -> valid (unredir a).1 /\ Forall rvalid (unredir a).2.
Proof.
  induction a as [ws|c IH f m fd|l _ r _|l _ r _|c _]; cbn [unredir fst snd]; try done; [].
  intros [Hc Hr]. destruct (IH Hc). split; [done|]. apply Forall_app. split; [done|]. by apply Forall_singleton.
Qed.

Lemma reads_wrap a c rs : reads c (unredir a).1 -> Forall2 redir_at rs (unredir a).2 -> reads (wrap c rs) a.
Proof.
  revert rs. induction a as [ws|a IH f m fd|l _ r _|l _ r _|a _]; intros rs; cbn [unredir fst snd];
    try (intros Hc ->%Forall2_nil_inv_r; done); [].
  intros Hc Hrs. apply Forall2_app_inv_r in Hrs as (rs1 & rs2 & H1 & H2 & ->).
  apply Forall2_cons_inv_r in H2 as (x & l & Hx & Hl & ->). apply Forall2_nil_inv_r in Hl as ->.
  unfold wrap. rewrite fold_left_app. cbn [fold_left]. exists (fold_left redircmd rs1 c), x. split; [done|]. split; [done|]. by apply IH.
Qed.

Lemma paren_unback a : paren 2 a (pr a) = paren 1 (unback a).1 (pr (unback a).1) ++ concat (replicate (unback a).2 [32; 38]).
Proof.
  induction a as [ws|c _ f m fd|l _ r _|l _ r _|c IH]; cbn [unback fst snd replicate concat]; rewrite ?app_nil_r; try done.
  unfold paren at 1. cbn [level Nat.leb pr]. rewrite IH, <- app_assoc. f_equal. clear.
  induction (unback c).2 as [|n IHn]; [done|]. cbn [replicate concat]. rewrite <- app_assoc. by rewrite IHn.
Qed.

Lemma valid_unback a : valid a -> valid (unback a).1.
Proof. induction a; cbn [unback fst]; auto. Qed.

(** [r] is an answer that reads back as [a] and leaves off at [rest]. *)
Definition good (r : pres cmd) (a : scmd) (rest : list Z) : Prop :=
  r = PFuel \/ exists c p, r = POk c p /\ reads c a /\ rem p = strip rest.

Lemma good_bind r a rest (k : cmd -> nat -> pres cmd) a' rest' :
  good r a rest -> (forall c p, reads c a -> rem p = strip rest -> good (k c p) a' rest') -> good (pbindr r k) a' rest'.
Proof. intros [-> | (c & p & -> & H1 & H2)] Hk; [by left|]. simpl. auto. Qed.

Lemma stop_mono l l' rest : l ⊆ l' -> stop l rest -> stop l' rest.
Proof. intros Hs [H1 H2]. split; [done|]. destruct (strip rest); [done|set_solver]. Qed.

Lemma stop_sym l c rest : in_str whitespace c = false -> c ∈ l -> stop l (32 :: c :: rest).
Proof. intros Hw Hc. split; [apply no_word_blank|]. rewrite strip_blank by done. by rewrite strip_other. Qed.

Lemma stop_peek l rest toks ps : stop l rest -> rem ps = strip rest -> Forall (fun c => in_str toks c = false) l ->
  peek line ps toks = (false, skip line ps).
Proof.
  intros [_ Hs] E Hl. apply peek_no. intros c r Ec. rewrite E in Ec. rewrite Ec in Hs. rewrite Forall_forall in Hl. by apply Hl.
Qed.

(** A symbol, after a blank. *)
Lemma sym_next ps c rest toks : rem ps = strip (32 :: c :: rest) -> in_str whitespace c = false ->
  in_str (bs "|();&<") c = true -> in_str toks c = true ->
  peek line ps toks = (true, skip line ps) /\ exists q p, gettoken line (skip line ps) = (c, q, p) /\ rem p = strip rest.
Proof.
  intros E Hw Hc Ht. rewrite strip_blank, strip_other in E by done. split; [by eapply peek_yes|].
  rewrite <- rem_skip in E. destruct (gettoken_sym _ _ _ E Hc) as (p & Eg & Ep). eauto.
Qed.

Lemma parseback_ok fuel c ps a n rest : reads c a -> rem ps = strip (concat (replicate n [32; 38]) ++ rest) -> stop [41; 59] rest ->
  good (parseback line c ps fuel) (Nat.iter n SBack a) rest.
Proof.
  revert c ps a n. induction fuel as [|f IH]; intros c ps a n Hc E Hst; [by left|]. cbn [parseback].
  destruct n as [|n]; cbn [replicate concat app] in E.
  - rewrite (stop_peek _ rest _ ps Hst E) by (repeat constructor; done). cbn [negb]. right. exists c, (skip line ps).
    by rewrite rem_skip.
  - destruct (sym_next ps 38 _ (bs "&") E) as (-> & q & p & -> & Ep); [done..|]. cbn [negb].
    rewrite Nat.iter_succ_r. apply IH; [|done|done]. exists c. done.
Qed.

Lemma unback_iter a : Nat.iter (unback a).2 SBack (unback a).1 = a.
Proof. induction a; cbn [unback fst snd Nat.iter nat_rect]; try done. by f_equal. Qed.

Lemma head_base b rs rest : (forall ws, b <> SExec ws) ->
  strip (pr_base b ++ pr_redirs rs ++ rest) = 40 :: pr b ++ [32; 41] ++ pr_redirs rs ++ rest.
Proof.
  intros Hb. assert (pr_base b = [32; 40] ++ pr b ++ [32; 41]) as -> by (destruct b; [by destruct (Hb argv)|done..]).
  rewrite <- !app_assoc. cbn [app]. rewrite strip_blank, strip_other by done. done.
Qed.

(** The characters that can stop a command are no redirection. *)
Lemma stop_no_redir rest : stop [124; 41; 38; 59] rest -> forall c l, strip rest = c :: l -> in_str (bs "<>") c = false.
Proof.
  intros [_ Hhd] c l Ec. rewrite Ec in Hhd. destruct (in_str (bs "<>") c) eqn:Ei; [|done].
  apply in_str_spec in Ei; [|repeat constructor; done]. change (bs "<>") with [60; 62] in Ei. set_solver.
Qed.

(** The first character of words and redirections, if there are any. *)
Lemma head_exec ws rs rest c l : Forall is_word ws -> strip (pr_words ws ++ pr_redirs rs ++ rest) = c :: l ->
  wordchar c \/ c ∈ [60; 62] \/ ws = [] /\ rs = [] /\ strip rest = c :: l.
Proof.
  intros Hws E. destruct Hws as [|w ws Hw Hws].
  - destruct rs as [|r rs]; [by right; right|]. right. left. unfold pr_redirs in E. rewrite fmap_cons in E.
    cbn [pr_words fmap list_fmap concat app pr_redir] in E. rewrite strip_blank, strip_other in E; [|by destruct (r.2 =? 0)|done].
    injection E as <- _. destruct (r.2 =? 0); set_solver.
  - left. unfold pr_words in E. rewrite fmap_cons in E. cbn [concat] in E. rewrite <- !app_assoc, strip_pr_word in E by done.
    by eapply word_head.
Qed.

Lemma exec_ok ps ws rs rest :
  rem ps = strip (pr_words ws ++ pr_redirs rs ++ rest) -> Forall is_word ws -> (length ws < MAXARGS)%nat -> Forall rvalid rs ->
  stop [124; 41; 38; 59] rest ->
  let r := pbindr (parseredirs line ps (S (length line))) (fun rs ps =>
    pbindr (parseargs line ps 0 (S (length line))) (fun wr ps => POk (wrap (Execcmd wr.1) (rs ++ wr.2)) ps)) in
  r = PFuel \/ exists ws' rs' p, r = POk (wrap (Execcmd ws') rs') p /\ Forall2 word_at ws' ws /\ Forall2 redir_at rs' rs /\
    rem p = strip rest.
Proof.
  intros E Hws Hlen Hrs Hst. cbv zeta. pose proof Hst as [Hnw Hhd].
  set (r1 := match ws with [] => rs | _ => [] end). set (r2 := match ws with [] => [] | _ => rs end).
  assert (rs = r1 ++ r2) as Ers by (unfold r1, r2; destruct ws; [by rewrite app_nil_r|done]).
  assert (Forall rvalid r1 /\ Forall rvalid r2) as [Hr1 Hr2] by (rewrite Ers in Hrs; by apply Forall_app in Hrs).
  assert (pr_words ws ++ pr_redirs rs ++ rest = pr_redirs r1 ++ pr_words ws ++ pr_redirs r2 ++ rest) as Etl
    by (unfold r1, r2; by destruct ws).
  rewrite Etl in E.
  destruct (parseredirs_ok (S (length line)) ps r1 (pr_words ws ++ pr_redirs r2 ++ rest) E Hr1) as [-> | (rs1 & p & -> & Hp & Hf1)].
  - unfold r2. destruct ws; [done|apply no_word_blank].
  - intros c l Ec. destruct (head_exec ws r2 rest c l Hws Ec) as [Hc|[Hc|(-> & _ & Hc)]].
    + apply wordchar_not; [done|repeat constructor; done|]. rewrite symbols_list. change (bs "<>") with [60; 62]. set_solver.
    + exfalso. unfold r2 in Ec. destruct Hws as [|w ws Hw Hws]; [|].
      * cbn [pr_words pr_redirs fmap list_fmap concat app] in Ec. rewrite Ec in Hhd. set_solver.
      * unfold pr_words in Ec. rewrite fmap_cons in Ec. cbn [concat] in Ec. rewrite <- !app_assoc, strip_pr_word in Ec by done.
        destruct (word_head _ _ _ _ Hw Ec) as (_ & _ & Hs).
        assert (in_str symbols c = true) as Hx by (apply in_str_spec; [repeat constructor; done|rewrite symbols_list; set_solver]). congruence.
    + by eapply stop_no_redir.
  - by left.
  - cbn [pbindr]. destruct (parseargs_ok (S (length line)) p 0 ws r2 rest Hp Hws Hr2) as [-> | (ws' & rs' & p2 & -> & Hp2 & Hf2 & Hf3)].
    + unfold r2. by intros ->.
    + done.
    + done.
    + by left.
    + right. eexists _, _, p2. split; [done|]. split; [done|]. split; [|done]. rewrite Ers. by apply Forall2_app.
Qed.

Lemma parse_ok fuel : forall ps a rest, valid a ->
  (rem ps = strip (pr a ++ rest) -> stop [41] rest -> good (parseline line ps fuel) a rest) /\
  (rem ps = strip (paren 1 a (pr a) ++ rest) -> stop [41; 38; 59] rest -> good (parsepipe line ps fuel) a rest) /\
  (rem ps = strip (paren 0 a (pr a) ++ rest) -> stop [124; 41; 38; 59] rest -> good (parseexec line ps fuel) a rest) /\
  ((forall ws, (unredir a).1 <> SExec ws) ->
   rem ps = strip (paren 0 a (pr a) ++ rest) -> stop [124; 41; 38; 59] rest -> good (parseblock line ps fuel) a rest).
Proof.
  induction fuel as [|f IH]; intros ps a rest Hv; [repeat split; by left|]. split; [|split; [|split]].
  - intros E Hst. cbn [parseline].
    set (x := match a with SList l _ => l | _ => a end).
    set (tl := match a with SList _ r => [32; 59] ++ pr r ++ rest | _ => rest end).
    assert (pr a ++ rest = paren 2 x (pr x) ++ tl) as Ea.
    { unfold x, tl. destruct a; try done. cbn [pr]. by rewrite <- !app_assoc. }
    assert (stop [41; 59] tl) as Htl.
    { unfold tl. destruct a; try (by eapply stop_mono; [|exact Hst]; set_solver). apply stop_sym; [done|set_solver]. }
    assert (valid x) as Hx by (unfold x; destruct a; simpl in *; tauto).
    rewrite Ea, paren_unback, <- app_assoc in E.
    eapply good_bind.
    { apply (proj1 (proj2 (IH ps (unback x).1 _ (valid_unback _ Hx))) E). destruct (unback x).2; cbn [replicate concat app].
      - eapply stop_mono; [|exact Htl]. set_solver.
      - apply stop_sym; [done|set_solver]. }
    intros c p Hc Hp. eapply good_bind; [by eapply (parseback_ok _ _ _ _ _ tl)|]. rewrite unback_iter. intros c2 p2 Hc2 Hp2.
    unfold x, tl in *. destruct a as [ws|? ? ? ?|? ?|l r|?].
    all: try (rewrite (stop_peek _ rest _ p2 Hst Hp2) by (repeat constructor; done); cbn [negb]; right;
      exists c2, (skip line p2); rewrite rem_skip; done).
    destruct (sym_next p2 59 _ (bs ";") Hp2) as (-> & q & p3 & -> & Hp3); [done..|]. cbn [negb]. simpl in Hv.
    eapply good_bind; [by apply (IH p3 r rest (proj2 Hv))|]. intros c4 p4 Hc4 Hp4. right.
    eexists _, p4. split; [done|]. split; [|done]. exists c2, c4. done.
  - intros E Hst. cbn [parsepipe]. assert (stop [124; 41; 38; 59] rest) as Hst0 by (eapply stop_mono; [|exact Hst]; set_solver).
    destruct a as [ws|? ? ? ?|l r|l r|?].
    3: { unfold paren at 1 in E. cbn [level Nat.leb pr] in E. rewrite <- !app_assoc in E. simpl in Hv. destruct Hv as [Hl Hr].
      eapply good_bind; [apply (IH ps l _ Hl); [exact E|apply stop_sym; [done|set_solver]]|]. intros c p Hc Hp.
      destruct (sym_next p 124 _ (bs "|") Hp) as (-> & q & p3 & -> & Hp3); [done..|]. cbn [negb].
      eapply good_bind; [by apply (IH p3 r rest Hr)|]. intros c4 p4 Hc4 Hp4. right.
      eexists _, p4. split; [done|]. split; [|done]. exists c, c4. done. }
    all: eapply good_bind; [by apply (proj1 (proj2 (proj2 (IH ps _ rest Hv))))|]; intros c p Hc Hp;
      rewrite (stop_peek _ rest _ p Hst Hp) by (repeat constructor; done); cbn [negb]; right;
      exists c, (skip line p); rewrite rem_skip; done.
  - intros E Hst. cbn [parseexec]. pose proof E as E0. rewrite paren_unredir, <- app_assoc in E.
    destruct (valid_unredir a Hv) as [Hb Hrs].
    assert ((exists ws, (unredir a).1 = SExec ws) \/ forall ws, (unredir a).1 <> SExec ws) as [[ws Eb]|Hne].
    { destruct (unredir a).1; [left; eauto|right; done..]. }
    + rewrite Eb in E, Hb. cbn [pr_base] in E. destruct Hb as [Hws Hlen].
      rewrite peek_no.
      2: { intros c l Ec. rewrite E in Ec. destruct (in_str (bs "(") c) eqn:Ei; [|done].
           apply in_str_spec in Ei; [|repeat constructor; done]. change (bs "(") with [40] in Ei.
           destruct (head_exec _ _ _ _ _ Hws Ec) as [Hc|[Hc|(_ & _ & Hc)]]; [|set_solver|].
           - destruct Hc as (_ & _ & Hs). assert (c = 40) as -> by set_solver. done.
           - destruct Hst as [_ Hhd]. rewrite Hc in Hhd. set_solver. }
      rewrite <- rem_skip in E. destruct (exec_ok _ _ _ _ E Hws Hlen Hrs Hst) as [-> | (ws' & rs' & p & -> & Hf1 & Hf2 & Hp)]; [by left|].
      right. eexists _, p. split; [done|]. split; [|done]. apply reads_wrap; [|done]. rewrite Eb. by exists ws'.
    + rewrite head_base in E by done. rewrite (peek_yes ps _ _ _ E) by done.
      apply (IH (skip line ps) a rest Hv); [done| |done]. by rewrite rem_skip.
  - intros Hne E Hst. cbn [parseblock]. rewrite paren_unredir, <- app_assoc, head_base in E by done.
    destruct (valid_unredir a Hv) as [Hb Hrs].
    assert (rem ps = strip (32 :: 40 :: pr (unredir a).1 ++ [32; 41] ++ pr_redirs (unredir a).2 ++ rest)) as E1.
    { rewrite E. by rewrite strip_blank, strip_other. }
    destruct (sym_next ps 40 _ (bs "(") E1) as (-> & q & p & -> & Hp); [done..|]. cbn [negb].
    eapply good_bind; [apply (IH p _ _ Hb); [exact Hp|apply stop_sym; [done|set_solver]]|]. intros c p2 Hc Hp2.
    destruct (sym_next p2 41 _ (bs ")") Hp2) as (-> & q3 & p3 & -> & Hp3); [done..|]. cbn [negb].
    pose proof Hst as [Hnw _].
    destruct (parseredirs_ok (S (length line)) p3 (unredir a).2 rest Hp3 Hrs Hnw) as [-> | (rs' & p4 & -> & Hp4 & Hf)].
    + by apply stop_no_redir.
    + by left.
    + right. eexists _, p4. split; [done|]. split; [|done]. by apply reads_wrap.
Qed.

(** * The strings in memory *)

Fixpoint word_ends (c : cmd) : list nat :=
  match c with
  | Execcmd argv => argv.*2
  | Redircmd c _ efile _ _ => word_ends c ++ [efile]
  | Pipecmd l r => word_ends l ++ word_ends r
  | Listcmd l r => word_ends l ++ word_ends r
  | Backcmd c => word_ends c
  end.

Definition zeroed (l : list Z) (es : list nat) : list Z := fold_left (fun l e => <[e := 0]> l) es l.

Lemma nulterminate_zeroed c l : nulterminate c l = zeroed l (word_ends c).
Proof.
  unfold zeroed. revert l. induction c as [argv|c IH q e m fd|c1 IH1 c2 IH2|c1 IH1 c2 IH2|c IH]; intros l; cbn [nulterminate word_ends].
  - revert l. induction argv as [|w argv IH]; intros l; [done|]. cbn. apply IH.
  - by rewrite IH, fold_left_app.
  - by rewrite IH2, IH1, fold_left_app.
  - by rewrite IH2, IH1, fold_left_app.
  - apply IH.
Qed.

Lemma lookup_zeroed l es k : zeroed l es !! k = if decide (k ∈ es) then (fun _ => 0) <$> l !! k else l !! k.
Proof.
  unfold zeroed. revert l. induction es as [|e es IH]; intros l; [done|]. cbn [fold_left]. rewrite IH.
  destruct (decide (e = k)) as [->|Hne].
  - rewrite (decide_True (P := k ∈ k :: es)) by set_solver. destruct (decide (k < length l)%nat) as [Hk|Hk].
    + rewrite list_lookup_insert_eq by done. destruct (lookup_lt_is_Some_2 l k Hk) as [x ->]. by destruct (decide _).
    + rewrite list_insert_ge by lia. rewrite lookup_ge_None_2 by lia. by destruct (decide _).
  - rewrite list_lookup_insert_ne by done. destruct (decide (k ∈ es)), (decide (k ∈ e :: es)); set_solver.
Qed.

(** A word ends where a NUL has been stored, and no NUL has been stored in it. *)
Lemma cstring_word es s q l : drop q line = s ++ l -> Forall wordchar s ->
  (forall e, e ∈ es -> no_word (drop e line)) -> (q + length s)%nat ∈ es -> cstring (drop q (zeroed line es)) = s.
Proof.
  revert q. induction s as [|c s IH]; intros q E Hs Hes Hin.
  - simpl in Hin. rewrite Nat.add_0_r in Hin. destruct (drop q (zeroed line es)) as [|x r] eqn:Ed; [done|].
    assert (zeroed line es !! q = Some x) as Hx by (rewrite <- (Nat.add_0_r q), <- lookup_drop, Ed; done).
    rewrite lookup_zeroed, decide_True in Hx by done. destruct (line !! q); simpl in Hx; [|done]. by injection Hx as <-.
  - apply Forall_cons in Hs as [Hc Hs].
    assert (line !! q = Some c) as Hq by (rewrite <- (Nat.add_0_r q), <- lookup_drop, E; done).
    assert (q ∉ es) as Hnq by (intros Hqe; specialize (Hes q Hqe); rewrite E in Hes; by apply Hes).
    assert (zeroed line es !! q = Some c) as Hx by (rewrite lookup_zeroed, decide_False by done; done).
    rewrite (drop_S _ _ _ Hx). cbn [cstring]. destruct Hc as (H0 & _). rewrite (proj2 (Z.eqb_neq _ _) H0). f_equal.
    apply IH; [|done|done|by replace (S q + length s)%nat with (q + length (c :: s))%nat by (simpl; lia)].
    replace (S q) with (q + 1)%nat by lia. rewrite <- drop_drop, E. done.
Qed.

Lemma reads_ends c a : reads c a -> forall e, e ∈ word_ends c -> no_word (drop e line).
Proof.
  assert (forall w s, word_at w s -> no_word (drop w.2 line)) as Hw.
  { intros w s (l & E & -> & _ & Hn). rewrite <- drop_drop, E, drop_app_length. done. }
  revert c. induction a as [ss|a IH f m fd|l IHl r IHr|l IHl r IHr|a IH]; intros c; cbn [reads].
  - intros (ws & -> & Hf) e He. cbn [word_ends] in He. apply list_elem_of_fmap in He as (w & -> & Hin).
    apply list_elem_of_lookup in Hin as [k Hk]. destruct (Forall2_lookup_l _ _ _ _ _ Hf Hk) as (s & _ & Hs). by eapply Hw.
  - intros (c' & r & -> & (Hr & _) & Hc) e He. cbn [redircmd word_ends] in He. apply elem_of_app in He as [He|He]; [by eapply IH|].
    apply list_elem_of_singleton in He as ->. by apply (Hw _ _ Hr).
  - intros (cl & cr & -> & Hl & Hr) e He. cbn [word_ends] in He. apply elem_of_app in He as [He|He]; [by eapply IHl|by eapply IHr].
  - intros (cl & cr & -> & Hl & Hr) e He. cbn [word_ends] in He. apply elem_of_app in He as [He|He]; [by eapply IHl|by eapply IHr].
  - intros (c' & -> & Hc) e He. by eapply IH.
Qed.

Lemma word_string w s es : word_at w s -> (forall e, e ∈ es -> no_word (drop e line)) -> w.2 ∈ es ->
  cstring (drop w.1 (zeroed line es)) = s.
Proof. intros (l & E & He & [_ Hs] & _) Hes Hin. rewrite He in Hin. by eapply cstring_word. Qed.

Lemma reads_strings es c a : reads c a -> (forall e, e ∈ es -> no_word (drop e line)) -> word_ends c ⊆ es ->
  strings_of (zeroed line es) c = a.
Proof.
  intros Hr Hes. revert c Hr. induction a as [ss|a IH f m fd|l IHl r IHr|l IHl r IHr|a IH]; intros c; cbn [reads].
  - intros (ws & -> & Hf) Hsub. cbn [strings_of word_ends] in *. f_equal.
    induction Hf as [|w s ws ss Hw Hf IH]; [done|]. rewrite fmap_cons. f_equal; [apply word_string; [done|done|set_solver]|apply IH; set_solver].
  - intros (c' & r & -> & (Hr & Em & Ef) & Hc) Hsub. cbn [redircmd strings_of word_ends fst snd] in *. subst m fd. f_equal.
    + apply IH; [done|set_solver].
    + apply (word_string (r_file r, r_efile r)); [done|done|set_solver].
  - intros (cl & cr & -> & Hl & Hr) Hsub. cbn [strings_of word_ends] in *. f_equal; [apply IHl|apply IHr]; try done; set_solver.
  - intros (cl & cr & -> & Hl & Hr) Hsub. cbn [strings_of word_ends] in *. f_equal; [apply IHl|apply IHr]; try done; set_solver.
  - intros (c' & -> & Hc) Hsub. cbn [strings_of word_ends] in *. f_equal. by apply IH.
Qed.
End line.

Lemma word_nz w : is_word w -> Forall (fun c => c <> 0) w.
Proof. intros [_ Hw]. eapply Forall_impl; [exact Hw|]. by intros c [H _]. Qed.

Lemma pr_nz a : valid a -> Forall (fun c => c <> 0) (pr a).
Proof.
  assert (forall k a, Forall (fun c => c <> 0) (pr a) -> Forall (fun c => c <> 0) (paren k a (pr a))) as Hp.
  { intros k b Hb. unfold paren. destruct (_ <=? k)%nat; [done|]. repeat constructor; [done..|]. apply Forall_app. split; [done|].
    by repeat constructor. }
  induction a as [ws|c IH f m fd|l IHl r IHr|l IHl r IHr|c IH]; cbn [pr valid].
  - intros [Hws _]. unfold pr_words. induction Hws as [|w ws Hw Hws IH]; [constructor|]. rewrite fmap_cons. cbn [concat].
    apply Forall_app. split; [|done]. constructor; [done|by apply word_nz].
  - intros [Hc [Hf _]]. apply Forall_app. split; [auto|]. unfold pr_redir. cbn [fst snd app].
    repeat constructor; [done|by destruct (fd =? 0)|done|by apply word_nz].
  - intros [Hl Hr]. apply Forall_app. split; [auto|]. repeat constructor; [done..|auto].
  - intros [Hl Hr]. apply Forall_app. split; [auto|]. repeat constructor; [done..|auto].
  - intros Hc. apply Forall_app. split; [auto|]. by repeat constructor.
Qed.

(** C30. The parser ends on every line: [parsecmd] returns a command, or [panic]s
    with a message, or prints what it could not parse and then [panic]s; its
    loops and its recursion, through any number of nested blocks, never run on. *)
Theorem parse_total line :
  (exists c, parsecmd line = Ret c) \/ (exists m, parsecmd line = panic m) \/
  (exists l, parsecmd line = pbind (printf 2 (bs "leftovers: %s" ++ [10]) [PStr (Some l)]) (fun _ => panic (bs "syntax"))).
Proof.
  unfold parsecmd, parsetop. destruct (parse_ends line (parse_fuel line) 0 ltac:(lia)) as [H _].
  specialize (H ltac:(unfold parse_fuel; lia)). destruct (parseline line 0 (parse_fuel line)) as [c p|m|]; simpl in H; [|eauto|done].
  cbn [pbindr]. destruct (peek line p []) as [b p2]. destruct (drop p2 line); eauto.
Qed.

(** C31. The parser inverts a printer: every command whose words are words, with
    lists, pipes, blocks, background commands and redirections nested in any
    way, has a line, parentheses where they are needed, that [parsecmd] parses
    to the very same command; [nulterminate] leaves every word and file name
    intact in the line. *)
Theorem parse_print a : valid a -> parsecmd (pr a) = Ret a.
Proof.
  intros Hv. pose proof (pr_nz a Hv) as Hnz. unfold parsecmd, parsetop. set (line := pr a) in *.
  destruct (parse_ends line (parse_fuel line) 0 ltac:(lia)) as [Ht _]. specialize (Ht ltac:(unfold parse_fuel; lia)).
  destruct (parse_ok line Hnz (parse_fuel line) 0 a [] Hv) as [Hg _].
  destruct Hg as [E | (c & p & E & Hc & Hp)].
  - unfold rem. by rewrite drop_0, app_nil_r.
  - done.
  - rewrite E in Ht. done.
  - rewrite E. cbn [pbindr]. rewrite peek_rem. cbv beta iota. rewrite drop_skip, Hp. cbn. f_equal.
    rewrite nulterminate_zeroed. by eapply reads_strings; [exact Hnz|exact Hc|eapply reads_ends; eassumption|].
Qed.

Definition demo_cmd : scmd :=
  SList (SBack (SPipe (SExec [bs "cat"; bs "f"]) (SList (SExec [bs "wc"]) (SExec []))))
    (SRedir (SRedir (SExec [bs "ls"]) (bs "a") O_RDONLY 0) (bs "b") (Z.lor O_WRONLY O_CREATE) 1).

Definition word_test (w : list Z) : bool :=
  match w with [] => false | _ => true end &&
  forallb (fun c => negb (c =? 0) && negb (in_str whitespace c) && negb (in_str symbols c)) w.

Lemma word_test_ok w : word_test w = true -> is_word w.
Proof.
  unfold word_test. rewrite andb_true_iff, forallb_forall. intros [Hn Hw]. split; [by destruct w|].
  apply Forall_forall. intros c Hc%list_elem_of_In. specialize (Hw c Hc). rewrite !andb_true_iff, !negb_true_iff in Hw.
  destruct Hw as [[H0 H1] H2]. split; [by apply Z.eqb_neq|done].
Qed.

Lemma parse_print_witness : parsecmd (bs " cat f | ( wc ; ) & ; ls < a > b") = Ret demo_cmd.
Proof.
  apply (parse_print demo_cmd). cbn [demo_cmd valid]. unfold rvalid. cbn [fst snd].
  repeat match goal with
  | |- _ /\ _ => split
  | |- is_word _ => apply word_test_ok; reflexivity
  | |- Forall _ (_ :: _) => apply Forall_cons
  | |- Forall _ [] => apply Forall_nil; exact I
  | |- (_ < _)%nat => vm_compute; lia
  | |- _ \/ _ => first [left; split; reflexivity | right; split; reflexivity]
  end.
Defined.

(** A later redirection is applied first: with two of the same kind the first one
    written wins, and a double [>] does not append. *)
Lemma redirection_order :
  parsecmd (bs "echo x > a >> b") =
  Ret (SRedir (SRedir (SExec [bs "echo"; bs "x"]) (bs "a") (Z.lor O_WRONLY O_CREATE) 1) (bs "b") (Z.lor O_WRONLY O_CREATE) 1).
Proof. vm_compute. reflexivity. Qed.
