(* ===== verification/Vm.v ===== *)
(** Page tables, vm.c: two-level tables that live in pages of the allocator.  The
    functions work on the memory of Kalloc.v, entry by entry, as the code does;
    [xlate] is what the hardware makes of the tables. *)
From stdpp Require Import base numbers list gmap sets strings.
From Stdlib Require Import ZArith Lia.
From S2P Require Import Prelude Bytes Mem Kalloc.

(** * mmu.h and memlayout.h *)

Definition PDX (va : Z) : Z := Z.land (Z.shiftr va 22) 0x3FF.
Definition PTX (va : Z) : Z := Z.land (Z.shiftr va 12) 0x3FF.
Definition PGADDR (d t o : Z) : Z := u32 (Z.lor (Z.lor (Z.shiftl d 22) (Z.shiftl t 12)) o).
Definition NPDENTRIES : nat := 1024.
Definition PTE_P : Z := 0x001.
Definition PTE_W : Z := 0x002.
Definition PTE_U : Z := 0x004.
Definition PTE_ADDR (pte : Z) : Z := Z.land pte 0xFFFFF000.
Definition PTE_FLAGS (pte : Z) : Z := Z.land pte 0xFFF.
Definition EXTMEM : Z := 0x100000.
Definition DEVSPACE : Z := 0xFE000000.
Definition KERNLINK : Z := KERNBASE + EXTMEM.

(** [*p & bit], for one of the flags. *)
Definition has (pte bit : Z) : bool := negb (Z.land pte bit =? 0).

Definition peek32 (a : Z) : M kmem Z := gets (fun k => ld32 (km_mem k) a).
Definition poke32 (a v : Z) : M kmem unit := modify (fun k => set_km_mem (st32 (km_mem k) a v) k).
Definition zero_page (a : Z) : M kmem unit := modify (fun k => set_km_mem (memset (km_mem k) a 0 PGSIZE) k).

(** * vm.c *)

Section vm.
(** [end] and [data], from the linker script. *)
Context (kend kdata : Z).

(** [walkpgdir]: the address of the entry, 0 if there is none. *)
Definition walkpgdir (pgdir va : Z) (alloc : bool) : M kmem Z :=
  let pde := u32 (pgdir + 4 * PDX va) in
  e <- peek32 pde ;;
  if has e PTE_P then ret (u32 (P2V (PTE_ADDR e) + 4 * PTX va))
  else if negb alloc then ret 0
  else
  pgtab <- kalloc ;;
  if pgtab =? 0 then ret 0 else
  zero_page pgtab ;;
  poke32 pde (Z.lor (Z.lor (Z.lor (V2P pgtab) PTE_P) PTE_W) PTE_U) ;;
  ret (u32 (pgtab + 4 * PTX va)).

Fixpoint mappages_loop (pgdir a last pa perm : Z) (fuel : nat) : M kmem Z :=
  match fuel with
  | O => diverge
  | S f =>
      pte <- walkpgdir pgdir a true ;;
      if pte =? 0 then ret (-1) else
      e <- peek32 pte ;;
      if has e PTE_P then panic "remap" else
      poke32 pte (Z.lor (Z.lor pa perm) PTE_P) ;;
      if a =? last then ret 0
      else mappages_loop pgdir (u32 (a + PGSIZE)) last (u32 (pa + PGSIZE)) perm f
  end.

(** [a] steps from page to page and meets [last] after as many turns as there are
    pages between them. *)
Definition mappages (pgdir va size pa perm : Z) : M kmem Z :=
  let a := PGROUNDDOWN va in
  let last := PGROUNDDOWN (u32 (va + size - 1)) in
  mappages_loop pgdir a last pa perm (S (Z.to_nat (u32 (last - a) / PGSIZE))).

(** [kmap]: virt, phys_start, phys_end, perm. *)
Definition kmap : list (Z * Z * Z * Z) :=
  [(KERNBASE, 0, EXTMEM, PTE_W);
   (KERNLINK, V2P KERNLINK, V2P kdata, 0);
   (kdata, V2P kdata, PHYSTOP, PTE_W);
   (DEVSPACE, DEVSPACE, 0, PTE_W)].

Fixpoint map_all (pgdir : Z) (l : list (Z * Z * Z * Z)) : M kmem Z :=
  match l with
  | [] => ret pgdir
  | (virt, pstart, pend, perm) :: l' =>
      r <- mappages pgdir virt (u32 (pend - pstart)) pstart perm ;;
      if r <? 0 then ret 0 else map_all pgdir l'
  end.

Definition setupkvm : M kmem Z :=
  pgdir <- kalloc ;;
  if pgdir =? 0 then ret 0 else
  zero_page pgdir ;;
  if DEVSPACE <? P2V PHYSTOP then panic "PHYSTOP too high" else
  map_all pgdir kmap.

Definition inituvm (pgdir : Z) (init : list Z) : M kmem unit :=
  if PGSIZE <=? Z.of_nat (length init) then panic "inituvm: more than a page" else
  mem <- kalloc ;;
  zero_page mem ;;
  mappages pgdir 0 PGSIZE (V2P mem) (Z.lor PTE_W PTE_U) ;;
  modify (fun k => set_km_mem (store (km_mem k) mem init) k).

Fixpoint deallocuvm_loop (pgdir a oldsz : Z) (fuel : nat) : M kmem unit :=
  match fuel with
  | O => diverge
  | S f =>
      if negb (a <? oldsz) then ret tt else
      pte <- walkpgdir pgdir a false ;;
      if pte =? 0 then
        deallocuvm_loop pgdir (u32 (u32 (PGADDR (PDX a + 1) 0 0 - PGSIZE) + PGSIZE)) oldsz f
      else
      e <- peek32 pte ;;
      when (has e PTE_P)
        (let pa := PTE_ADDR e in
         if pa =? 0 then panic "kfree" else
         kfree kend (P2V pa) ;;
         poke32 pte 0) ;;
      deallocuvm_loop pgdir (u32 (a + PGSIZE)) oldsz f
  end.

Definition deallocuvm (pgdir oldsz newsz : Z) : M kmem Z :=
  if oldsz <=? newsz then ret oldsz else
  let a := PGROUNDUP newsz in
  deallocuvm_loop pgdir a oldsz (S (Z.to_nat (oldsz / PGSIZE + 1))) ;;
  ret newsz.

Fixpoint allocuvm_loop (pgdir a oldsz newsz : Z) (fuel : nat) : M kmem Z :=
  match fuel with
  | O => diverge
  | S f =>
      if negb (a <? newsz) then ret newsz else
      mem <- kalloc ;;
      if mem =? 0 then
        deallocuvm pgdir newsz oldsz ;;
        ret 0
      else
      zero_page mem ;;
      r <- mappages pgdir a PGSIZE (V2P mem) (Z.lor PTE_W PTE_U) ;;
      if r <? 0 then
        deallocuvm pgdir newsz oldsz ;;
        kfree kend mem ;;
        ret 0
      else allocuvm_loop pgdir (u32 (a + PGSIZE)) oldsz newsz f
  end.

Definition allocuvm (pgdir oldsz newsz : Z) : M kmem Z :=
  if KERNBASE <=? newsz then ret 0 else
  if newsz <? oldsz then ret oldsz else
  allocuvm_loop pgdir (PGROUNDUP oldsz) oldsz newsz (S (Z.to_nat (newsz / PGSIZE + 1))).

Definition freevm (pgdir : Z) : M kmem unit :=
  if pgdir =? 0 then panic "freevm: no pgdir" else
  deallocuvm pgdir KERNBASE 0 ;;
  mfor NPDENTRIES 0 (fun i =>
    e <- peek32 (u32 (pgdir + 4 * i)) ;;
    when (has e PTE_P) (kfree kend (P2V (PTE_ADDR e)))) ;;
  kfree kend pgdir.

Definition clearpteu (pgdir uva : Z) : M kmem unit :=
  pte <- walkpgdir pgdir uva false ;;
  if pte =? 0 then panic "clearpteu" else
  e <- peek32 pte ;;
  poke32 pte (Z.land e (u32 (Z.lnot PTE_U))).

(** The loop of [copyuvm]: false is the jump to [bad]. *)
Fixpoint copyuvm_loop (pgdir d i sz : Z) (fuel : nat) : M kmem bool :=
  match fuel with
  | O => diverge
  | S f =>
      if negb (i <? sz) then ret true else
      pte <- walkpgdir pgdir i false ;;
      if pte =? 0 then panic "copyuvm: pte should exist" else
      e <- peek32 pte ;;
      if negb (has e PTE_P) then panic "copyuvm: page not present" else
      mem <- kalloc ;;
      if mem =? 0 then ret false else
      modify (fun k => set_km_mem (memmove (km_mem k) mem (P2V (PTE_ADDR e)) PGSIZE) k) ;;
      r <- mappages d i PGSIZE (V2P mem) (PTE_FLAGS e) ;;
      if r <? 0 then ret false else
      copyuvm_loop pgdir d (u32 (i + PGSIZE)) sz f
  end.

Definition copyuvm (pgdir sz : Z) : M kmem Z :=
  d <- setupkvm ;;
  if d =? 0 then ret 0 else
  ok <- copyuvm_loop pgdir d 0 sz (S (Z.to_nat (sz / PGSIZE + 1))) ;;
  if (ok : bool) then ret d else
  freevm d ;;
  ret 0.

(** [uva2ka]; it does not look whether [walkpgdir] has found an entry.  [null] is
    the word that a null pointer reads, as a function of the memory: the CPU finds
    it through the page table it is using, in the first page of the running
    process. *)
Definition uva2ka (null : mem -> Z) (pgdir uva : Z) : M kmem Z :=
  pte <- walkpgdir pgdir uva false ;;
  e <- (if pte =? 0 then gets (fun k => null (km_mem k)) else peek32 pte) ;;
  if negb (has e PTE_P) then ret 0 else
  if negb (has e PTE_U) then ret 0 else
  ret (P2V (PTE_ADDR e)).

(** [copyout] of the bytes [buf]. *)
Fixpoint copyout (null : mem -> Z) (pgdir va : Z) (buf : list Z) (fuel : nat) : M kmem Z :=
  match fuel with
  | O => diverge
  | S f =>
      match buf with
      | [] => ret 0
      | _ =>
          let va0 := PGROUNDDOWN va in
          pa0 <- uva2ka null pgdir va0 ;;
          if pa0 =? 0 then ret (-1) else
          let n := Z.to_nat (Z.min (PGSIZE - (va - va0)) (Z.of_nat (length buf))) in
          modify (fun k => set_km_mem (store (km_mem k) (u32 (pa0 + (va - va0))) (take n buf)) k) ;;
          copyout null pgdir (u32 (va0 + PGSIZE)) (drop n buf) f
      end
  end.
End vm.

(** * What the hardware makes of the tables *)

(** The entry for [va], if both levels are present. *)
Definition xlate (m : mem) (pgdir va : Z) : option Z :=
  let e := ld32 m (pgdir + 4 * PDX va) in
  if has e PTE_P then
    let f := ld32 m (P2V (PTE_ADDR e) + 4 * PTX va) in
    if has f PTE_P then Some f else None
  else None.
