(* ===== verification/VmProps.v ===== *)
(** Page tables: [mappages] maps what it is asked to map and nothing else, and
    [copyout] stores into user pages only. *)
From stdpp Require Import base numbers list gmap sets strings.
From Stdlib Require Import ZArith Lia.
From S2P Require Import Prelude Bytes Mem Kalloc Vm.

(** * Entries *)

Lemma land_high x : 0 <= x < 2 ^ 32 -> PTE_ADDR x = x - x mod 4096.
Proof.
  intros Hx. unfold PTE_ADDR. change 0xFFFFF000 with (Z.ones 32 - Z.ones 12).
  replace (Z.ones 32 - Z.ones 12) with (Z.ldiff (Z.ones 32) (Z.ones 12)) by reflexivity.
  rewrite Z.ldiff_land, Z.land_assoc, Z.land_ones, Z.mod_small by lia.
  rewrite <- Z.ldiff_land, Z.ldiff_ones_r, Z.shiftl_mul_pow2, Z.shiftr_div_pow2 by lia.
  change (2 ^ 12) with 4096. pose proof (Z.div_mod x 4096). lia.
Qed.

Lemma or_flags x f : x mod 4096 = 0 -> 0 <= f < 4096 -> Z.lor x f = x + f.
Proof. by apply (lor_add 12). Qed.

Lemma pte_addr_or x f : x mod 4096 = 0 -> 0 <= x < 2 ^ 32 -> 0 <= f < 4096 -> PTE_ADDR (Z.lor x f) = x.
Proof.
  intros Hm Hx Hf. rewrite or_flags by done. pose proof (Z.div_mod x 4096 ltac:(lia)) as Hd.
  rewrite land_high by lia. rewrite Zplus_mod, Hm, Z.add_0_l, Zmod_mod, (Z.mod_small f) by lia. lia.
Qed.

Lemma has_or x f b : x mod 4096 = 0 -> 0 <= f < 4096 -> 0 <= b < 4096 -> has (Z.lor x f) b = has f b.
Proof.
  intros Hm Hf Hb. unfold has. do 2 f_equal. rewrite Z.land_comm, Z.land_lor_distr_r.
  assert (Z.land b x = 0) as ->; [|by rewrite Z.lor_0_l, Z.land_comm].
  pose proof (or_flags x b Hm Hb) as H1. pose proof (Z.add_lor_land b x) as H2. rewrite Z.lor_comm, H1 in H2. lia.
Qed.

(** The page number of an address, and its two indexes. *)
Lemma PDX_eq va : 0 <= va < 2 ^ 32 -> PDX va = va / 4096 / 1024 /\ 0 <= PDX va < 1024.
Proof.
  intros Hv. unfold PDX. change 0x3FF with (Z.ones 10). rewrite Z.land_ones, Z.shiftr_div_pow2 by lia.
  change (2 ^ 10) with 1024. change (2 ^ 22) with (4096 * 1024). rewrite Z.div_div by lia.
  assert (0 <= va / (4096 * 1024) < 1024) by (split; [apply Z.div_pos; lia|apply Z.div_lt_upper_bound; lia]).
  rewrite Z.mod_small by lia. lia.
Qed.

Lemma PTX_eq va : PTX va = (va / 4096) mod 1024 /\ 0 <= PTX va < 1024.
Proof.
  unfold PTX. change 0x3FF with (Z.ones 10). rewrite Z.land_ones, Z.shiftr_div_pow2 by lia.
  change (2 ^ 10) with 1024. change (2 ^ 12) with 4096. split; [done|]. apply Z.mod_pos_bound. lia.
Qed.

Lemma same_page va vb : 0 <= va < 2 ^ 32 -> 0 <= vb < 2 ^ 32 ->
  (PDX va = PDX vb /\ PTX va = PTX vb) <-> va / 4096 = vb / 4096.
Proof.
  intros Ha Hb. destruct (PDX_eq va Ha) as [-> _], (PDX_eq vb Hb) as [-> _], (PTX_eq va) as [-> _], (PTX_eq vb) as [-> _].
  split; [|by intros ->]. intros [H1 H2]. pose proof (Z.div_mod (va / 4096) 1024). pose proof (Z.div_mod (vb / 4096) 1024). lia.
Qed.

Section vm.
Context (kend : Z) (Hend : KERNBASE <= kend).

Lemma V2P_page t : is_page kend t -> V2P t mod 4096 = 0 /\ 0 <= V2P t < 2 ^ 32 /\ P2V (V2P t) = t.
Proof.
  intros [Hm Hr]. unfold V2P, P2V, KERNBASE, PHYSTOP, PGSIZE in *. rewrite (u32_small (t - _)) by lia. split; [|split].
  - rewrite Zminus_mod, Hm. done.
  - lia.
  - rewrite u32_small; lia.
Qed.

(** * Page tables in memory *)

Definition pde (m : mem) (pgdir i : Z) : Z := ld32 m (pgdir + 4 * i).
Definition table (m : mem) (pgdir i : Z) : Z := P2V (PTE_ADDR (pde m pgdir i)).
Definition present (m : mem) (pgdir i : Z) : Prop := has (pde m pgdir i) PTE_P = true.

(** The directory and the tables are pages of their own, none of them free. *)
Record pgtree (m : mem) (l : list Z) (pgdir : Z) : Prop := PgTree {
  pg_dir : is_page kend pgdir /\ pgdir ∉ l;
  pg_table : forall i, 0 <= i < 1024 -> present m pgdir i ->
    is_page kend (table m pgdir i) /\ table m pgdir i ∉ l /\ table m pgdir i <> pgdir;
  pg_inj : forall i j, 0 <= i < 1024 -> 0 <= j < 1024 -> present m pgdir i -> present m pgdir j ->
    table m pgdir i = table m pgdir j -> i = j
}.

(** Pages that hold [a] and that are aligned are the same. *)
Lemma page_ne v w a b : is_page kend v -> is_page kend w -> v <> w -> in_page v a -> in_page w b -> a <> b.
Proof. intros Hv Hw Hne Ha Hb ->. apply Hne. eapply pages_apart; [apply Hv|apply Hw|done|done]. Qed.

Lemma word_in_page v i : 0 <= i < 1024 -> forall d, 0 <= d < 4 -> in_page v (v + 4 * i + d).
Proof. intros Hi d Hd. unfold in_page, PGSIZE. lia. Qed.

Lemma word_range v i : is_page kend v -> 0 <= i < 1024 -> u32 (v + 4 * i) = v + 4 * i.
Proof. intros [_ Hr] Hi. apply u32_small. unfold KERNBASE, PHYSTOP in *. lia. Qed.

Lemma ld32_ext m m' a : (forall d, 0 <= d < 4 -> ld m' (a + d) = ld m (a + d)) -> ld32 m' a = ld32 m a.
Proof.
  intros H. unfold ld32. pose proof (H 0 ltac:(lia)) as H0. rewrite Z.add_0_r in H0. rewrite H0, !H by lia. done.
Qed.

(** A word of one page is not touched by a store into another word. *)
Lemma word_apart v i w j : is_page kend v -> is_page kend w -> 0 <= i < 1024 -> 0 <= j < 1024 -> (v, i) <> (w, j) ->
  v + 4 * i + 4 <= w + 4 * j \/ w + 4 * j + 4 <= v + 4 * i.
Proof.
  intros [Hv _] [Hw _] Hi Hj Hne. unfold PGSIZE in *. pose proof (Z.div_mod v 4096 ltac:(lia)). pose proof (Z.div_mod w 4096 ltac:(lia)).
  destruct (decide (v = w)) as [->|]; [|lia]. assert (i <> j) by congruence. lia.
Qed.

(** What [walkpgdir] returns when the table is there. *)
Lemma walk_present k pgdir va alloc l : pgtree (km_mem k) l pgdir -> 0 <= va < 2 ^ 32 -> present (km_mem k) pgdir (PDX va) ->
  walkpgdir pgdir va alloc k = Ok (table (km_mem k) pgdir (PDX va) + 4 * PTX va) k.
Proof.
  intros [[Hd _] Ht _] Hva Hp. destruct (PDX_eq va Hva) as [_ Hi]. destruct (PTX_eq va) as [_ Hj].
  destruct (Ht _ Hi Hp) as (Htp & _). unfold walkpgdir, peek32, bind, gets. rewrite (word_range pgdir) by done.
  unfold present, pde in Hp. rewrite Hp. unfold ret. f_equal. unfold table, pde in *. by apply word_range.
Qed.

Lemma walk_absent k pgdir va l : pgtree (km_mem k) l pgdir -> 0 <= va < 2 ^ 32 -> ~ present (km_mem k) pgdir (PDX va) ->
  walkpgdir pgdir va false k = Ok 0 k.
Proof.
  intros [[Hd _] _ _] Hva Hp. destruct (PDX_eq va Hva) as [_ Hi]. unfold walkpgdir, peek32, bind, gets. rewrite (word_range pgdir) by done.
  unfold present, pde in Hp. destruct (has _ PTE_P); [done|]. done.
Qed.

(** [xlate] by indexes. *)
Definition entry (m : mem) (pgdir i j : Z) : option Z :=
  if has (pde m pgdir i) PTE_P then
    let f := ld32 m (table m pgdir i + 4 * j) in if has f PTE_P then Some f else None
  else None.

Lemma xlate_entry m pgdir va : xlate m pgdir va = entry m pgdir (PDX va) (PTX va).
Proof. done. Qed.

(** The pages that mapping may write to: the directory, its tables, and free ones. *)
Definition tree_page (m : mem) (l : list Z) (pgdir v : Z) : Prop :=
  v = pgdir \/ v ∈ l \/ exists i, 0 <= i < 1024 /\ present m pgdir i /\ v = table m pgdir i.

(** A new, empty table. *)
Lemma pgtree_table k l t pgdir i :
  pgtree (km_mem k) (t :: l) pgdir -> NoDup (t :: l) -> is_page kend t -> 0 <= i < 1024 -> ~ present (km_mem k) pgdir i ->
  let m' := st32 (memset (km_mem k) t 0 PGSIZE) (pgdir + 4 * i) (Z.lor (Z.lor (Z.lor (V2P t) PTE_P) PTE_W) PTE_U) in
  pgtree m' l pgdir /\ present m' pgdir i /\ table m' pgdir i = t /\
  (forall i' j', 0 <= i' < 1024 -> 0 <= j' < 1024 -> entry m' pgdir i' j' = entry (km_mem k) pgdir i' j') /\
  (forall v, tree_page m' l pgdir v -> tree_page (km_mem k) (t :: l) pgdir v) /\
  (forall a, ~ in_page pgdir a -> ~ in_page t a -> ld m' a = ld (km_mem k) a).
Proof.
  intros [[Hd Hdl] Ht Hinj] Hnd Hpt Hi Hnp m'. apply not_elem_of_cons in Hdl as [Hdt Hdl]. apply NoDup_cons in Hnd as [Htl _].
  destruct (page_range kend Hend t Hpt) as [Ht0 Ht1]. destruct (V2P_page t Hpt) as (V1 & V2 & V3).
  assert (Z.lor (Z.lor (Z.lor (V2P t) PTE_P) PTE_W) PTE_U = Z.lor (V2P t) 7) as Ev by (rewrite <- !Z.lor_assoc; done).
  assert (forall a, ~ in_page pgdir a -> ~ in_page t a -> ld m' a = ld (km_mem k) a) as Hfr.
  { intros a Ha Hb. unfold m'. rewrite ld_st32_ne by (unfold in_page, PGSIZE in *; lia).
    rewrite ld_memset by (unfold PGSIZE in *; lia). by rewrite decide_False. }
  assert (forall a, in_page t a -> ld m' a = 0) as Hz.
  { intros a Ha. unfold m'. rewrite ld_st32_ne.
    - rewrite ld_memset by (unfold PGSIZE in *; lia). by rewrite decide_True.
    - intros Hx. refine (page_ne t pgdir a a Hpt Hd _ Ha _ eq_refl); [done|]. unfold in_page, PGSIZE in *. lia. }
  assert (pde m' pgdir i = Z.lor (V2P t) 7) as Ei.
  { unfold pde, m'. rewrite ld32_st32_eq, Ev. rewrite u32_small; [done|]. rewrite or_flags by (done || lia).
    pose proof (Z.div_mod (V2P t) 4096 ltac:(lia)). lia. }
  assert (forall i', 0 <= i' < 1024 -> i' <> i -> pde m' pgdir i' = pde (km_mem k) pgdir i') as Eo.
  { intros i' Hi' Hne. unfold pde, m'. rewrite ld32_st32_ne by lia. apply ld32_ext. intros d Hd4.
    rewrite ld_memset by (unfold PGSIZE in *; lia). rewrite decide_False; [done|]. intros Hx.
    refine (page_ne t pgdir _ _ Hpt Hd _ Hx (word_in_page pgdir i' Hi' d Hd4) eq_refl). done. }
  assert (present m' pgdir i) as Hpi by (unfold present; rewrite Ei, has_or by (done || lia); done).
  assert (table m' pgdir i = t) as Eti by (unfold table; rewrite Ei, pte_addr_or by (done || lia); done).
  assert (forall i', 0 <= i' < 1024 -> i' <> i -> present m' pgdir i' <-> present (km_mem k) pgdir i') as Hpo
    by (intros i' Hi' Hne; unfold present; by rewrite Eo).
  assert (forall i', 0 <= i' < 1024 -> i' <> i -> table m' pgdir i' = table (km_mem k) pgdir i') as Hto
    by (intros i' Hi' Hne; unfold table; by rewrite Eo).
  split; [|split; [done|split; [done|split; [|split; [|done]]]]].
  - split.
    + done.
    + intros i' Hi' Hp'. destruct (decide (i' = i)) as [->|Hne]; [rewrite Eti; done|].
      rewrite Hpo in Hp' by done. rewrite Hto by done. destruct (Ht i' Hi' Hp') as (T1 & T2 & T3). set_solver.
    + intros i1 i2 H1 H2 P1 P2 Ett. destruct (decide (i1 = i)) as [->|N1], (decide (i2 = i)) as [->|N2]; [done| | |].
      * rewrite Eti, Hto in Ett by done. rewrite Hpo in P2 by done. destruct (Ht i2 H2 P2) as (_ & T2 & _). set_solver.
      * rewrite Eti, Hto in Ett by done. rewrite Hpo in P1 by done. destruct (Ht i1 H1 P1) as (_ & T2 & _). set_solver.
      * rewrite !Hto in Ett by done. rewrite Hpo in P1, P2 by done. by apply Hinj.
  - intros i' j' Hi' Hj'. unfold entry. destruct (decide (i' = i)) as [->|Hne].
    + unfold present in Hpi. rewrite Hpi. unfold present in Hnp. destruct (has (pde (km_mem k) pgdir i) PTE_P); [done|].
      rewrite Eti. assert (ld32 m' (t + 4 * j') = 0) as ->; [|done].
      unfold ld32. pose proof (word_in_page t j' Hj') as Hw. pose proof (Hw 0 ltac:(lia)) as Hw0. rewrite Z.add_0_r in Hw0.
      rewrite !Hz by (done || (apply Hw; lia)). done.
    + rewrite Eo, Hto by done. destruct (has (pde (km_mem k) pgdir i') PTE_P) eqn:Ep; [|done].
      destruct (Ht i' Hi' Ep) as (T1 & T2 & T3). apply not_elem_of_cons in T2 as [T2 _].
      assert (ld32 m' (table (km_mem k) pgdir i' + 4 * j') = ld32 (km_mem k) (table (km_mem k) pgdir i' + 4 * j')) as ->; [|done].
      apply ld32_ext. intros d Hd4. pose proof (word_in_page (table (km_mem k) pgdir i') j' Hj' d Hd4) as Hw. apply Hfr.
      * intros Hx. by apply (page_ne _ _ _ _ T1 Hd T3 Hw Hx).
      * intros Hx. by apply (page_ne _ _ _ _ T1 Hpt T2 Hw Hx).
  - intros v [-> | [Hv | (i' & Hi' & Hp' & ->)]]; [by left|right; left; set_solver|].
    destruct (decide (i' = i)) as [->|Hne]; [right; left; rewrite Eti; set_solver|]. right. right. exists i'.
    rewrite Hpo in Hp' by done. by rewrite Hto.
Qed.

(** [walkpgdir] with [alloc]: the entry's place, and no translation changes; the
    only page that it writes to, besides the directory, was free. *)
Lemma walk_alloc k l pgdir va :
  kfree_list kend k l -> pgtree (km_mem k) l pgdir -> 0 <= va < 2 ^ 32 ->
  exists p k' l', walkpgdir pgdir va true k = Ok p k' /\ kfree_list kend k' l' /\ pgtree (km_mem k') l' pgdir /\
    (p = 0 -> l' = [] /\ km_mem k' = km_mem k) /\
    (p <> 0 -> present (km_mem k') pgdir (PDX va) /\ p = table (km_mem k') pgdir (PDX va) + 4 * PTX va) /\
    (forall va', 0 <= va' < 2 ^ 32 -> xlate (km_mem k') pgdir va' = xlate (km_mem k) pgdir va') /\
    (forall v, tree_page (km_mem k') l' pgdir v -> tree_page (km_mem k) l pgdir v) /\
    (forall a, ~ in_page pgdir a -> (forall v, v ∈ l -> ~ in_page v a) -> ld (km_mem k') a = ld (km_mem k) a).
Proof.
  intros Hk Hp Hva. destruct (PDX_eq va Hva) as [_ Hi]. destruct (PTX_eq va) as [_ Hj].
  destruct (has (pde (km_mem k) pgdir (PDX va)) PTE_P) eqn:Epr.
  { pose proof (walk_present k pgdir va true l Hp Hva Epr) as E. eexists _, k, l. split; [exact E|]. split; [done|]. split; [done|].
    destruct (pg_table _ _ _ Hp _ Hi Epr) as (Ht & _). destruct (page_range kend Hend _ Ht) as [Ht0 _].
    split; [lia|]. done. }
  unfold walkpgdir, peek32, bind at 1, gets. rewrite (word_range pgdir) by (done || apply Hp).
  unfold pde in Epr. rewrite Epr. cbn [negb].
  destruct (kalloc_ok kend Hend k l Hk) as (k1 & E1 & Hk1 & Hu1 & Hm1). rewrite (bind_ok _ _ _ _ _ E1).
  destruct l as [|t l]; cbn [head default from_option tail id] in *; unfold id in *.
  - eexists 0, k1, []. split; [done|]. rewrite Hm1. split; [done|]. split; [done|]. done.
  - pose proof (kf_pages _ _ _ Hk t ltac:(set_solver)) as Hpt.
    destruct (page_range kend Hend t Hpt) as [Ht0 _]. rewrite (proj2 (Z.eqb_neq t 0)) by lia.
    pose proof (kf_nodup _ _ _ Hk) as Hnd.
    assert (~ present (km_mem k1) pgdir (PDX va)) as Hnp by (rewrite Hm1; unfold present, pde; rewrite Epr; done).
    rewrite <- Hm1 in Hp. destruct (pgtree_table k1 l t pgdir (PDX va) Hp Hnd Hpt Hi Hnp) as (P1 & P2 & P3 & P4 & P6 & P5).
    unfold zero_page, poke32, bind, modify, ret. cbn [km_mem set_km_mem].
    eexists _, _, l. split; [reflexivity|]. cbn [km_mem set_km_mem]. set (m' := st32 _ _ _) in *.
    assert (kfree_list kend (set_km_mem m' (set_km_mem (memset (km_mem k1) t 0 PGSIZE) k1)) l) as Hkf.
    { destruct Hk1 as [K1 K2 K3 K4]. split; try done. cbn. eapply chain_frame; [|exact K2]. intros v a Hv Ha.
      apply NoDup_cons in Hnd as [Hnt _]. pose proof (pg_dir _ _ _ Hp) as [Hd Hdl]. apply P5.
      - intros Hx. refine (page_ne v pgdir a a (K4 v Hv) Hd _ Ha Hx eq_refl). set_solver.
      - intros Hx. refine (page_ne v t a a (K4 v Hv) Hpt _ Ha Hx eq_refl). set_solver. }
    split; [exact Hkf|]. split; [done|]. rewrite (word_range t) by done.
    split; [lia|]. split; [intros _; split; [done|by rewrite P3]|]. split; [|split; [rewrite <- Hm1; exact P6|]].
    + intros va' Hva'. rewrite !xlate_entry, <- Hm1. apply P4; [by apply PDX_eq|by apply PTX_eq].
    + intros a Ha Hl. rewrite <- Hm1. apply P5; [done|]. apply Hl. set_solver.
Qed.

(** A store into an entry. *)
Lemma poke_entry k l pgdir va v :
  kfree_list kend k l -> pgtree (km_mem k) l pgdir -> 0 <= va < 2 ^ 32 -> present (km_mem k) pgdir (PDX va) -> is_u32 v ->
  let k' := set_km_mem (st32 (km_mem k) (table (km_mem k) pgdir (PDX va) + 4 * PTX va) v) k in
  kfree_list kend k' l /\ pgtree (km_mem k') l pgdir /\
  (forall va', 0 <= va' < 2 ^ 32 -> xlate (km_mem k') pgdir va' =
     if decide (va' / 4096 = va / 4096) then if has v PTE_P then Some v else None else xlate (km_mem k) pgdir va') /\
  (forall v, tree_page (km_mem k') l pgdir v -> tree_page (km_mem k) l pgdir v) /\
  (forall a, ~ in_page (table (km_mem k) pgdir (PDX va)) a -> ld (km_mem k') a = ld (km_mem k) a).
Proof.
  intros Hk Hp Hva Hpr Hv k'. destruct (PDX_eq va Hva) as [_ Hi]. destruct (PTX_eq va) as [_ Hj].
  destruct (pg_table _ _ _ Hp _ Hi Hpr) as (Ht & Htl & Htd). pose proof (pg_dir _ _ _ Hp) as [Hd Hdl].
  set (t := table (km_mem k) pgdir (PDX va)) in *. set (m := km_mem k) in *.
  assert (forall a, ~ in_page t a -> ld (km_mem k') a = ld m a) as Hfr.
  { intros a Ha. cbn. apply ld_st32_ne. unfold in_page, PGSIZE in Ha. lia. }
  assert (forall i, 0 <= i < 1024 -> pde (km_mem k') pgdir i = pde m pgdir i) as Epde.
  { intros i Hi'. apply ld32_ext. intros d Hd4. apply Hfr. intros Hx.
    refine (page_ne t pgdir _ _ Ht Hd _ Hx (word_in_page pgdir i Hi' d Hd4) eq_refl). done. }
  split; [|split; [|split; [|split; [|done]]]].
  - destruct Hk as [K1 K2 K3 K4]. split; try done. cbn. eapply chain_frame; [|exact K2]. intros w a Hw Ha. apply Hfr. intros Hx.
    refine (page_ne w t a a (K4 w Hw) Ht _ Ha Hx eq_refl). set_solver.
  - assert (forall i, 0 <= i < 1024 -> table (km_mem k') pgdir i = table m pgdir i) as Etab by (intros i Hi'; unfold table; by rewrite Epde).
    destruct Hp as [P1 P2 P3]. split; [done| |].
    + intros i Hi' Hpi. rewrite Etab by done. unfold present in Hpi. rewrite Epde in Hpi by done. by apply P2.
    + intros i j Hi' Hj' Hpi Hpj. rewrite !Etab by done. unfold present in Hpi, Hpj. rewrite Epde in Hpi, Hpj by done. by apply P3.
  - intros va' Hva'. destruct (PDX_eq va' Hva') as [_ Hi']. destruct (PTX_eq va') as [_ Hj'].
    rewrite !xlate_entry. unfold entry. rewrite Epde by done.
    assert (table (km_mem k') pgdir (PDX va') = table m pgdir (PDX va')) as -> by (unfold table; by rewrite Epde).
    fold m. destruct (decide (va' / 4096 = va / 4096)) as [E|E].
    + apply (same_page va' va Hva' Hva) in E as [-> ->]. unfold present in Hpr. fold m in Hpr. rewrite Hpr. fold t. cbn.
      rewrite ld32_st32_eq. rewrite u32_small; [done|]. exact Hv.
    + destruct (has (pde m pgdir (PDX va')) PTE_P) eqn:Ep; [|done].
      destruct (pg_table _ _ _ Hp _ Hi' Ep) as (Ht' & _).
      assert (ld32 (km_mem k') (table m pgdir (PDX va') + 4 * PTX va') = ld32 m (table m pgdir (PDX va') + 4 * PTX va')) as ->; [|done].
      cbn. apply ld32_st32_ne. apply word_apart; try done. intros [= Et Ej]. apply E.
      apply (same_page va' va Hva' Hva). split; [|done]. by apply (pg_inj _ _ _ Hp).
  - intros w [-> | [Hw | (i' & Hi' & Hp' & ->)]]; [by left|right; by left|]. right. right. exists i'.
    unfold present, table in *. rewrite Epde in * by done. done.
Qed.

(** * [mappages] *)

(** The entries after the first [n] pages from [a] on have been mapped to [pa]. *)
Definition mapped (m m' : mem) (pgdir a pa perm : Z) (n : nat) : Prop :=
  forall va, 0 <= va < 2 ^ 32 ->
    xlate m' pgdir va =
    if decide (a / 4096 <= va / 4096 < a / 4096 + Z.of_nat n)
    then Some (Z.lor (Z.lor (pa + (va / 4096 - a / 4096) * 4096) perm) PTE_P)
    else xlate m pgdir va.

Lemma flags_u32 pa perm : pa mod 4096 = 0 -> 0 <= pa < 2 ^ 32 -> 0 <= perm < 4096 ->
  is_u32 (Z.lor (Z.lor pa perm) PTE_P) /\ has (Z.lor (Z.lor pa perm) PTE_P) PTE_P = true.
Proof.
  intros Hm Hpa Hperm. rewrite <- Z.lor_assoc.
  assert (0 <= Z.lor perm PTE_P < 4096) as Hf.
  { split; [apply Z.lor_nonneg; unfold PTE_P; lia|]. destruct (decide (Z.lor perm PTE_P = 0)); [lia|].
    change 4096 with (2 ^ 12). apply Z.log2_lt_pow2; [pose proof (Z.lor_nonneg perm PTE_P); unfold PTE_P in *; lia|].
    rewrite Z.log2_lor by (unfold PTE_P; lia). apply Z.max_lub_lt; [|unfold PTE_P; cbn; lia].
    destruct (decide (perm = 0)) as [->|]; [cbn; lia|]. apply Z.log2_lt_pow2; [lia|]. change (2 ^ 12) with 4096. lia. }
  split.
  - rewrite or_flags by done. unfold is_u32. pose proof (Z.div_mod pa 4096 ltac:(lia)). lia.
  - rewrite has_or by (done || (unfold PTE_P; lia)). unfold has. apply negb_true_iff, Z.eqb_neq. intros E.
    assert (Z.testbit (Z.land (Z.lor perm PTE_P) PTE_P) 0 = false) as H by (rewrite E; done).
    rewrite Z.land_spec, Z.lor_spec in H. unfold PTE_P in H. change (Z.testbit 1 0) with true in H. by rewrite orb_true_r in H.
Qed.

(** One turn of the loop. *)
Lemma map_one k l pgdir a v :
  kfree_list kend k l -> pgtree (km_mem k) l pgdir -> 0 <= a < 2 ^ 32 -> xlate (km_mem k) pgdir a = None ->
  is_u32 v -> has v PTE_P = true ->
  exists p k1 l1, walkpgdir pgdir a true k = Ok p k1 /\ (p = 0 -> l1 = []) /\ (p <> 0 -> has (ld32 (km_mem k1) p) PTE_P = false) /\
    let k2 := if p =? 0 then k1 else set_km_mem (st32 (km_mem k1) p v) k1 in
    kfree_list kend k2 l1 /\ pgtree (km_mem k2) l1 pgdir /\
    (forall va, 0 <= va < 2 ^ 32 -> xlate (km_mem k2) pgdir va =
      if decide (p <> 0 /\ va / 4096 = a / 4096) then Some v else xlate (km_mem k) pgdir va) /\
    (forall w, tree_page (km_mem k2) l1 pgdir w -> tree_page (km_mem k) l pgdir w) /\
    (forall b, (forall w, tree_page (km_mem k) l pgdir w -> ~ in_page w b) -> ld (km_mem k2) b = ld (km_mem k) b).
Proof.
  intros Hk Hp Ha Hn Hv Hh. destruct (walk_alloc k l pgdir a Hk Hp Ha) as (p & k1 & l1 & E1 & Hk1 & Hp1 & Hz1 & Hnz1 & Hx1 & Ht1 & Hf1).
  exists p, k1, l1. split; [done|]. split; [intros E; by apply Hz1|].
  destruct (Z.eqb_spec p 0) as [Ep|Ep].
  - split; [done|]. cbv zeta. split; [done|]. split; [done|]. split; [intros va Hva; rewrite decide_False by tauto; by apply Hx1|].
    split; [done|]. intros b _. destruct (Hz1 Ep) as [_ ->]. done.
  - destruct (Hnz1 Ep) as [Hpr ->]. split.
    { intros _. pose proof (Hx1 a Ha) as Hxa. rewrite Hn, xlate_entry in Hxa. unfold entry in Hxa. unfold present in Hpr.
      rewrite Hpr in Hxa. cbv zeta in Hxa. by destruct (has (ld32 _ _) PTE_P). }
    destruct (poke_entry k1 l1 pgdir a v Hk1 Hp1 Ha Hpr Hv) as (Hk2 & Hp2 & Hx2 & Ht2 & Hf2). cbv zeta.
    split; [done|]. split; [done|]. split; [|split; [auto|]].
    + intros va Hva. rewrite Hx2 by done. rewrite Hh. destruct (decide (va / 4096 = a / 4096)).
      * by rewrite decide_True.
      * rewrite decide_False by tauto. by apply Hx1.
    + intros b Hb. rewrite Hf2; [apply Hf1; [apply Hb; by left|intros w Hw; apply Hb; right; by left]|].
      apply Hb, Ht1. right. right. exists (PDX a). split; [by apply PDX_eq|done].
Qed.

Lemma mappages_loop_ok n : forall k l pgdir a pa perm fuel,
  kfree_list kend k l -> pgtree (km_mem k) l pgdir -> (n < fuel)%nat ->
  a mod 4096 = 0 -> 0 <= a -> a + (Z.of_nat n + 1) * 4096 <= 2 ^ 32 ->
  pa mod 4096 = 0 -> 0 <= pa -> pa + (Z.of_nat n + 1) * 4096 <= 2 ^ 32 -> 0 <= perm < 4096 ->
  (forall va, 0 <= va < 2 ^ 32 -> a / 4096 <= va / 4096 <= a / 4096 + Z.of_nat n -> xlate (km_mem k) pgdir va = None) ->
  exists r k' l' j, mappages_loop pgdir a (a + Z.of_nat n * 4096) pa perm fuel k = Ok r k' /\
    kfree_list kend k' l' /\ pgtree (km_mem k') l' pgdir /\
    mapped (km_mem k) (km_mem k') pgdir a pa perm j /\
    (r = 0 /\ j = S n \/ r = -1 /\ (j <= n)%nat /\ l' = []) /\
    (forall w, tree_page (km_mem k') l' pgdir w -> tree_page (km_mem k) l pgdir w) /\
    (forall b, (forall v, tree_page (km_mem k) l pgdir v -> ~ in_page v b) -> ld (km_mem k') b = ld (km_mem k) b).
Proof.
  induction n as [|n IH]; intros k l pgdir a pa perm fuel Hk Hp Hfu Ha Ha0 Ha1 Hpa Hpa0 Hpa1 Hperm Hun;
    (destruct fuel as [|fuel]; [lia|]); cbn [mappages_loop].
  all: assert (0 <= a < 2 ^ 32) as Har by lia; destruct (flags_u32 pa perm Hpa ltac:(lia) Hperm) as [Hu Hh].
  all: destruct (map_one k l pgdir a _ Hk Hp Har (Hun a Har ltac:(lia)) Hu Hh) as (p & k1 & l1 & E1 & Hz & Hnz & Hk2 & Hp2 & Hx2 & Ht2 & Hf2);
    rewrite (bind_ok _ _ _ _ _ E1).
  all: destruct (Z.eqb_spec p 0) as [Ep|Ep];
    [exists (-1), k1, l1, O; split; [done|]; split; [done|]; split; [done|]; split;
       [intros va Hva; rewrite decide_False by lia; rewrite Hx2 by done; by rewrite decide_False by tauto|];
       split; [right; split; [done|]; split; [lia|by apply Hz]|]; done|].
  all: unfold peek32, bind at 1, gets; rewrite (Hnz Ep); unfold poke32, bind at 1, modify; set (k2 := set_km_mem _ k1) in *.
  - rewrite Z.add_0_r, Z.eqb_refl. exists 0, k2, l1, 1%nat. split; [done|]. split; [done|]. split; [done|]. split; [|split; [by left|done]].
    intros va Hva. rewrite Hx2 by done. destruct (decide (va / 4096 = a / 4096)) as [E|E].
    + rewrite decide_True, decide_True by (done || lia). rewrite E, Z.sub_diag, Z.mul_0_l, Z.add_0_r. done.
    + rewrite decide_False, decide_False by (tauto || lia). done.
  - destruct (Z.eqb_spec a (a + Z.of_nat (S n) * 4096)); [lia|].
    rewrite (u32_small (a + PGSIZE)), (u32_small (pa + PGSIZE)) by (unfold PGSIZE; lia). unfold PGSIZE.
    assert ((a + 4096) / 4096 = a / 4096 + 1) as Ea1 by (replace (a + 4096) with (a + 1 * 4096) by lia; by rewrite Z.div_add by lia).
    replace (a + Z.of_nat (S n) * 4096) with ((a + 4096) + Z.of_nat n * 4096) by lia.
    destruct (IH k2 l1 pgdir (a + 4096) (pa + 4096) perm fuel Hk2 Hp2) as (r & k3 & l3 & j & E3 & Hk3 & Hp3 & Hm3 & Hr3 & Ht3 & Hf3);
      try lia.
    + rewrite <- Zplus_mod_idemp_r. change (4096 mod 4096) with 0. by rewrite Z.add_0_r.
    + rewrite <- Zplus_mod_idemp_r. change (4096 mod 4096) with 0. by rewrite Z.add_0_r.
    + intros va Hva Hin. rewrite Hx2 by done. rewrite decide_False by lia. apply Hun; [done|lia].
    + exists r, k3, l3, (S j). split; [done|]. split; [done|]. split; [done|]. split; [|split; [|split; [auto|]]].
      * intros va Hva. rewrite Hm3 by done. rewrite Ea1.
        destruct (decide (a / 4096 + 1 <= va / 4096 < a / 4096 + 1 + Z.of_nat j)).
        -- rewrite decide_True by lia. do 3 f_equal. lia.
        -- rewrite Hx2 by done. destruct (decide (va / 4096 = a / 4096)) as [E|E].
           ++ rewrite decide_True, decide_True by (done || lia). rewrite E, Z.sub_diag, Z.mul_0_l, Z.add_0_r. done.
           ++ rewrite decide_False, decide_False by (tauto || lia). done.
      * destruct Hr3 as [[-> ->]|(-> & Hj & ->)]; [by left|right]. split; [done|]. split; [lia|done].
      * intros b Hb. rewrite Hf3, Hf2 by (auto). done.
Qed.

Lemma PGROUNDDOWN_eq x : 0 <= x -> PGROUNDDOWN x = x - x mod 4096.
Proof.
  intros Hx. unfold PGROUNDDOWN. change (Z.lnot (PGSIZE - 1)) with (Z.lnot (Z.ones 12)).
  rewrite <- Z.ldiff_land, Z.ldiff_ones_r, Z.shiftl_mul_pow2, Z.shiftr_div_pow2 by lia.
  change (2 ^ 12) with 4096. pose proof (Z.div_mod x 4096). lia.
Qed.

(** A store outside the page tables and the free pages. *)
Lemma tree_frame k l pgdir m' :
  kfree_list kend k l -> pgtree (km_mem k) l pgdir ->
  (forall a, (exists v, tree_page (km_mem k) l pgdir v /\ in_page v a) -> ld m' a = ld (km_mem k) a) ->
  kfree_list kend (set_km_mem m' k) l /\ pgtree m' l pgdir /\
  (forall v, tree_page m' l pgdir v <-> tree_page (km_mem k) l pgdir v) /\
  (forall va, 0 <= va < 2 ^ 32 -> xlate m' pgdir va = xlate (km_mem k) pgdir va) /\
  (forall i, 0 <= i < 1024 -> present m' pgdir i <-> present (km_mem k) pgdir i).
Proof.
  intros [K1 K2 K3 K4] Hp Hfr. set (m := km_mem k) in *.
  assert (forall i, 0 <= i < 1024 -> pde m' pgdir i = pde m pgdir i) as Epde.
  { intros i Hi. apply ld32_ext. intros d Hd. apply Hfr. exists pgdir. split; [by left|by apply word_in_page]. }
  assert (forall i, 0 <= i < 1024 -> table m' pgdir i = table m pgdir i) as Etab by (intros i Hi; unfold table; by rewrite Epde).
  assert (forall i, 0 <= i < 1024 -> present m' pgdir i <-> present m pgdir i) as Epr by (intros i Hi; unfold present; by rewrite Epde).
  split; [|split; [|split; [|split; [|done]]]].
  - split; try done. cbn. eapply chain_frame; [|exact K2]. intros v a Hv Ha. apply Hfr. exists v. split; [right; by left|done].
  - destruct Hp as [P1 P2 P3]. split; [done| |].
    + intros i Hi Hpi. rewrite Etab by done. by apply P2, Epr.
    + intros i j Hi Hj Hpi Hpj. rewrite !Etab by done. apply P3; try done; by apply Epr.
  - intros v. unfold tree_page. split; (intros [?|[?|(i & Hi & Hpi & ->)]]; [by left|right; by left|right; right; exists i]).
    + rewrite Epr in Hpi by done. by rewrite Etab.
    + rewrite Epr by done. by rewrite Etab.
  - intros va Hva. destruct (PDX_eq va Hva) as [_ Hi]. destruct (PTX_eq va) as [_ Hj]. rewrite !xlate_entry. unfold entry.
    rewrite Epde, Etab by done. destruct (has (pde m pgdir (PDX va)) PTE_P) eqn:Ep; [|done].
    assert (ld32 m' (table m pgdir (PDX va) + 4 * PTX va) = ld32 m (table m pgdir (PDX va) + 4 * PTX va)) as ->; [|done].
    apply ld32_ext. intros d Hd. apply Hfr. exists (table m pgdir (PDX va)). split; [|by apply word_in_page].
    right. right. by exists (PDX va).
Qed.

(** * User memory *)

(** The page behind a user address, and the byte that a user reads there. *)
Definition upage (m : mem) (pgdir va : Z) : option Z :=
  match xlate m pgdir va with
  | Some e => if has e PTE_U then Some (P2V (PTE_ADDR e)) else None
  | None => None
  end.
Definition uread (m : mem) (pgdir va : Z) : option Z :=
  match upage m pgdir va with
  | Some f => Some (ld m (f + va mod 4096))
  | None => None
  end.

(** User pages are pages of their own: not the tables, not free, each mapped once. *)
Record uspace (m : mem) (l : list Z) (pgdir : Z) : Prop := USpace {
  us_page : forall va f, 0 <= va < 2 ^ 32 -> upage m pgdir va = Some f -> is_page kend f /\ ~ tree_page m l pgdir f;
  us_inj : forall va vb f, 0 <= va < 2 ^ 32 -> 0 <= vb < 2 ^ 32 -> upage m pgdir va = Some f -> upage m pgdir vb = Some f ->
    va / 4096 = vb / 4096
}.

Lemma xlate_page m pgdir va vb : 0 <= va < 2 ^ 32 -> 0 <= vb < 2 ^ 32 -> va / 4096 = vb / 4096 -> xlate m pgdir va = xlate m pgdir vb.
Proof. intros Ha Hb E. apply (same_page va vb Ha Hb) in E as [E1 E2]. rewrite !xlate_entry. by rewrite E1, E2. Qed.

(** A null entry is not followed at [va]: there is a page table, or the word at
    address 0 is no present entry. *)
Definition no_null (null : mem -> Z) (m : mem) (pgdir va : Z) : Prop :=
  present m pgdir (PDX va) \/ forall m', has (null m') PTE_P = false.

Lemma uva2ka_ok k l pgdir null va : pgtree (km_mem k) l pgdir -> uspace (km_mem k) l pgdir -> 0 <= va < 2 ^ 32 ->
  no_null null (km_mem k) pgdir va ->
  uva2ka null pgdir va k = Ok (default 0 (upage (km_mem k) pgdir va)) k.
Proof.
  intros Hp Hu Hva Hn. unfold uva2ka. unfold upage. rewrite xlate_entry. unfold entry. destruct (has (pde (km_mem k) pgdir (PDX va)) PTE_P) eqn:Ep.
  - rewrite (bind_ok _ _ _ _ _ (walk_present k pgdir va false l Hp Hva Ep)).
    destruct (PDX_eq va Hva) as [_ Hi]. destruct (PTX_eq va) as [_ Hj].
    destruct (pg_table _ _ _ Hp _ Hi Ep) as (Ht & _). destruct (page_range kend Hend _ Ht) as [Ht0 _].
    rewrite (proj2 (Z.eqb_neq _ 0)) by lia. unfold peek32, bind, gets. cbv zeta.
    destruct (has (ld32 _ _) PTE_P); [|done]. by destruct (has (ld32 _ _) PTE_U).
  - assert (~ present (km_mem k) pgdir (PDX va)) as Hnp by (unfold present; by rewrite Ep).
    rewrite (bind_ok _ _ _ _ _ (walk_absent k pgdir va l Hp Hva Hnp)). destruct Hn as [Hn|Hn]; [done|]. unfold bind, gets. cbn. by rewrite Hn.
Qed.

Lemma page_offset va j : 0 <= va -> 0 <= j -> va mod 4096 + j < 4096 ->
  (va + j) / 4096 = va / 4096 /\ (va + j) mod 4096 = va mod 4096 + j.
Proof.
  intros Hv Hj Hb. pose proof (Z.div_mod va 4096 ltac:(lia)) as Hd. pose proof (Z.mod_pos_bound va 4096 ltac:(lia)).
  assert (va + j = 4096 * (va / 4096) + (va mod 4096 + j)) as E by lia. split.
  - symmetry. eapply Z.div_unique; [|exact E]. lia.
  - symmetry. eapply Z.mod_unique; [|exact E]. lia.
Qed.

(** One page of [copyout]. *)
Lemma store_user k l pgdir va f s :
  kfree_list kend k l -> pgtree (km_mem k) l pgdir -> uspace (km_mem k) l pgdir ->
  0 <= va -> va + Z.of_nat (length s) <= 2 ^ 32 -> va mod 4096 + Z.of_nat (length s) <= 4096 -> (0 < length s)%nat ->
  Forall is_u8 s -> upage (km_mem k) pgdir va = Some f ->
  let m' := store (km_mem k) (f + va mod 4096) s in
  kfree_list kend (set_km_mem m' k) l /\ pgtree m' l pgdir /\ uspace m' l pgdir /\
  (forall x, 0 <= x < 2 ^ 32 -> upage m' pgdir x = upage (km_mem k) pgdir x) /\
  (forall i, 0 <= i < 1024 -> present m' pgdir i <-> present (km_mem k) pgdir i) /\
  (forall i : nat, (i < length s)%nat -> uread m' pgdir (va + Z.of_nat i) = s !! i) /\
  (forall x, 0 <= x < 2 ^ 32 -> x < va \/ va + Z.of_nat (length s) <= x -> uread m' pgdir x = uread (km_mem k) pgdir x) /\
  (forall b, ~ (f + va mod 4096 <= b < f + va mod 4096 + Z.of_nat (length s)) -> ld m' b = ld (km_mem k) b).
Proof.
  intros Hk Hp Hu Hva Hmax Hfit Hlen Hs Hf m'. pose proof (Z.mod_pos_bound va 4096 ltac:(lia)) as Hmod.
  destruct (us_page _ _ _ Hu va f ltac:(lia) Hf) as [Hfp Hft].
  assert (forall b, ~ (f + va mod 4096 <= b < f + va mod 4096 + Z.of_nat (length s)) -> ld m' b = ld (km_mem k) b) as Hfr.
  { intros b Hb. unfold m'. rewrite ld_store. by rewrite decide_False. }
  destruct (tree_frame k l pgdir m' Hk Hp) as (T1 & T2 & T3 & T4 & T5).
  { intros a (v & Hv & Ha). apply Hfr. intros Hb. apply Hft.
    assert (v = f) as <-; [|done]. eapply (pages_apart v f a); [|apply Hfp|done|unfold in_page, PGSIZE; lia].
    destruct Hv as [->|[Hv|(i & Hi & Hpi & ->)]]; [apply Hp|by apply (kf_pages _ _ _ Hk)|by apply (pg_table _ _ _ Hp)]. }
  assert (forall x, 0 <= x < 2 ^ 32 -> upage m' pgdir x = upage (km_mem k) pgdir x) as Hup by (intros x Hx; unfold upage; by rewrite T4).
  split; [done|]. split; [done|]. split; [|split; [done|split; [done|split; [|split; [|done]]]]].
  - split; [intros x g Hx Hg; rewrite Hup in Hg by done; rewrite T3; by apply (us_page _ _ _ Hu x)|].
    intros x y g Hx Hy Hg Hh. rewrite Hup in Hg, Hh by done. by apply (us_inj _ _ _ Hu x y g).
  - intros i Hi. destruct (page_offset va (Z.of_nat i) Hva ltac:(lia) ltac:(lia)) as [E1 E2].
    assert (upage m' pgdir (va + Z.of_nat i) = Some f) as E.
    { rewrite Hup by lia. rewrite <- Hf. unfold upage. by rewrite (xlate_page _ _ (va + Z.of_nat i) va) by (done || lia). }
    unfold uread. rewrite E, E2. unfold m'. rewrite ld_store, decide_True by lia.
    destruct (lookup_lt_is_Some_2 s i Hi) as [c Hc]. rewrite Hc. f_equal.
    replace (Z.to_nat _) with i by lia. rewrite (nth_lookup_Some _ _ _ _ Hc). apply u8_small.
    eapply (Forall_lookup_1 _ _ _ _ Hs Hc).
  - intros x Hx Hout. unfold uread. rewrite Hup by done. destruct (upage (km_mem k) pgdir x) as [g|] eqn:Eg; [|done].
    f_equal. apply Hfr. intros Hb. pose proof (Z.mod_pos_bound x 4096 ltac:(lia)).
    destruct (us_page _ _ _ Hu x g Hx Eg) as [Hgp _].
    assert (g = f) as -> by (eapply (pages_apart g f (g + x mod 4096)); [apply Hgp|apply Hfp|unfold in_page, PGSIZE; lia..]).
    pose proof (us_inj _ _ _ Hu x va f Hx ltac:(lia) Eg Hf) as Ep.
    pose proof (Z.div_mod x 4096 ltac:(lia)). pose proof (Z.div_mod va 4096 ltac:(lia)). lia.
Qed.

(** [copyout] within one page whose page table is missing. *)
Lemma copyout_missing k l pgdir null va buf :
  pgtree (km_mem k) l pgdir -> 0 <= va -> va + Z.of_nat (length buf) <= 2 ^ 32 ->
  let e := null (km_mem k) in
  let f := P2V (PTE_ADDR e) in
  buf <> [] -> va mod 4096 + Z.of_nat (length buf) <= 4096 -> ~ present (km_mem k) pgdir (PDX va) ->
  has e PTE_P = true -> has e PTE_U = true -> f <> 0 ->
  copyout null pgdir va buf (S (length buf)) k =
  Ok 0 (set_km_mem (store (km_mem k) (u32 (f + va mod 4096)) buf) k).
Proof.
  intros Hp Hva Hmax e f Hne Hfit Hnp HP HU Hf. destruct buf as [|c0 buf0]; [done|]. cbn [copyout].
  set (buf := c0 :: buf0) in *. assert (0 < length buf)%nat as Hlen by (simpl; lia). clearbody buf. cbv zeta.
  pose proof (Z.mod_pos_bound va 4096 ltac:(lia)) as Hmod. pose proof (Z.div_mod va 4096 ltac:(lia)) as Hdm.
  set (va0 := PGROUNDDOWN va). assert (va0 = va - va mod 4096) as E0 by (by apply PGROUNDDOWN_eq).
  assert (va0 / 4096 = va / 4096) as Epg.
  { rewrite E0. replace (va - va mod 4096) with (va / 4096 * 4096) by lia. by apply Z.div_mul. }
  destruct (proj2 (same_page va0 va ltac:(lia) ltac:(lia)) Epg) as [Epdx _].
  assert (uva2ka null pgdir va0 k = Ok f k) as Eu.
  { unfold uva2ka. rewrite (bind_ok _ _ _ _ _ (walk_absent k pgdir va0 l Hp ltac:(lia) ltac:(by rewrite Epdx))).
    unfold bind, gets. cbn. fold e. by rewrite HP, HU. }
  rewrite (bind_ok _ _ _ _ _ Eu). rewrite (proj2 (Z.eqb_neq f 0)) by done. replace (va - va0) with (va mod 4096) by lia.
  unfold PGSIZE. replace (Z.to_nat (Z.min (4096 - va mod 4096) (Z.of_nat (length buf)))) with (length buf) by lia.
  rewrite take_ge, drop_ge by lia. unfold bind, modify. destruct (length buf) eqn:El; [lia|]. done.
Qed.

(** What [copyout] of [buf] to [va] leaves behind. *)
Record copied (k : kmem) (pgdir va : Z) (buf : list Z) (r : Z) (k' : kmem) : Prop := Copied {
  co_map : forall x, 0 <= x < 2 ^ 32 -> upage (km_mem k') pgdir x = upage (km_mem k) pgdir x;
  co_in : r = 0 -> forall i : nat, (i < length buf)%nat -> uread (km_mem k') pgdir (va + Z.of_nat i) = buf !! i;
  co_err : r <> 0 -> r = -1 /\ exists i : nat, (i < length buf)%nat /\ upage (km_mem k) pgdir (va + Z.of_nat i) = None;
  co_out : forall x, 0 <= x < 2 ^ 32 -> x < va \/ va + Z.of_nat (length buf) <= x ->
    uread (km_mem k') pgdir x = uread (km_mem k) pgdir x;
  co_frame : forall b, (forall x f, va <= x < va + Z.of_nat (length buf) -> upage (km_mem k) pgdir x = Some f -> b <> f + x mod 4096) ->
    ld (km_mem k') b = ld (km_mem k) b
}.

Lemma copyout_loop_ok null pgdir l fuel : forall k va buf,
  kfree_list kend k l -> pgtree (km_mem k) l pgdir -> uspace (km_mem k) l pgdir ->
  (forall x, va <= x < va + Z.of_nat (length buf) -> no_null null (km_mem k) pgdir x) ->
  0 <= va -> va + Z.of_nat (length buf) <= 2 ^ 32 -> Forall is_u8 buf -> (length buf < fuel)%nat ->
  exists r k', copyout null pgdir va buf fuel k = Ok r k' /\
    kfree_list kend k' l /\ pgtree (km_mem k') l pgdir /\ uspace (km_mem k') l pgdir /\ copied k pgdir va buf r k'.
Proof.
  induction fuel as [|fuel IH]; intros k va buf Hk Hp Hu Hn Hva Hmax Hb Hf; [lia|].
  destruct buf as [|c0 buf0]; cbn [copyout].
  { exists 0, k. split; [done|]. split; [done|]. split; [done|]. split; [done|]. split; try done. simpl. intros. lia. }
  set (buf := c0 :: buf0) in *. assert (0 < length buf)%nat as Hlen by (simpl; lia). clearbody buf. cbv zeta.
  pose proof (Z.mod_pos_bound va 4096 ltac:(lia)) as Hmod. pose proof (Z.div_mod va 4096 ltac:(lia)) as Hdm.
  set (va0 := PGROUNDDOWN va). assert (va0 = va - va mod 4096) as E0 by (by apply PGROUNDDOWN_eq).
  assert (va0 / 4096 = va / 4096) as Epg.
  { rewrite E0. replace (va - va mod 4096) with (va / 4096 * 4096) by lia. by apply Z.div_mul. }
  assert (upage (km_mem k) pgdir va0 = upage (km_mem k) pgdir va) as Eup.
  { unfold upage. by rewrite (xlate_page _ _ va0 va) by (done || lia). }
  assert (no_null null (km_mem k) pgdir va0) as Hn0.
  { unfold no_null. destruct (proj2 (same_page va0 va ltac:(lia) ltac:(lia)) Epg) as [-> _]. apply Hn. lia. }
  rewrite (bind_ok _ _ _ _ _ (uva2ka_ok k l pgdir null va0 Hp Hu ltac:(lia) Hn0)). rewrite Eup.
  destruct (upage (km_mem k) pgdir va) as [f|] eqn:Ef; cbn [default from_option]; unfold id.
  2: { exists (-1), k. split; [done|]. split; [done|]. split; [done|]. split; [done|]. split; try done.
       intros _. split; [done|]. exists O. rewrite Z.add_0_r. done. }
  destruct (us_page _ _ _ Hu va f ltac:(lia) Ef) as [Hfp _]. destruct (page_range kend Hend _ Hfp) as [Hf0 Hf1].
  rewrite (proj2 (Z.eqb_neq f 0)) by lia. replace (va - va0) with (va mod 4096) by lia. unfold PGSIZE in Hf1 |- *.
  set (n := Z.to_nat (Z.min (4096 - va mod 4096) (Z.of_nat (length buf)))).
  assert (length (take n buf) = n) as Htk by (rewrite length_take; lia).
  rewrite u32_small by lia.
  destruct (store_user k l pgdir va f (take n buf) Hk Hp Hu Hva ltac:(lia) ltac:(lia) ltac:(lia) ltac:(by apply Forall_take) Ef)
    as (S1 & S2 & S3 & S4 & S8 & S5 & S6 & S7).
  unfold bind at 1, modify. set (k1 := set_km_mem _ k) in *.
  assert (exists va1, u32 (va0 + 4096) = va1 /\ 0 <= va1 /\ va1 + Z.of_nat (length (drop n buf)) <= 2 ^ 32 /\
    (drop n buf <> [] -> va1 = va + Z.of_nat n)) as (va1 & Ev & Hv0 & Hv1 & Hv2).
  { rewrite length_drop. destruct (decide (drop n buf = [])) as [Ed|Ed].
    - eexists. split; [done|]. pose proof (Z.mod_pos_bound (va0 + 4096) (2 ^ 32) ltac:(lia)) as Hx. unfold u32.
      pose proof (f_equal length Ed) as Ed'. rewrite length_drop in Ed'. simpl in Ed'. split; [lia|]. split; [lia|]. done.
    - assert (n < length buf)%nat as Hlt.
      { destruct (Nat.lt_ge_cases n (length buf)) as [|Hge]; [done|]. exfalso. apply Ed. by apply drop_ge. }
      exists (va + Z.of_nat n). rewrite u32_small by lia. split; [lia|]. split; [lia|]. split; [lia|]. done. }
  assert (forall x, va1 <= x < va1 + Z.of_nat (length (drop n buf)) -> no_null null (km_mem k1) pgdir x) as Hn1.
  { intros x Hx. assert (drop n buf <> []) as Hd by (intros E; rewrite E in Hx; simpl in Hx; lia).
    specialize (Hv2 Hd). rewrite length_drop in Hx. destruct (Hn x ltac:(lia)) as [Hn'|Hn']; [left|by right].
    destruct (PDX_eq x ltac:(lia)) as [_ Hi]. by apply S8. }
  rewrite Ev. destruct (IH k1 va1 (drop n buf) S1 S2 S3 Hn1 Hv0 Hv1 ltac:(by apply Forall_drop)) as (r & k2 & E2 & Hk2 & Hp2 & Hu2 & C).
  { rewrite length_drop. lia. }
  exists r, k2. split; [done|]. split; [done|]. split; [done|]. split; [done|]. destruct C as [C1 C2 C3 C4 C5].
  assert (length (drop n buf) = (length buf - n)%nat) as Hld by (by rewrite length_drop).
  assert (forall x, ~ (va1 <= x < va1 + Z.of_nat (length (drop n buf))) \/ drop n buf <> []) as Hcase.
  { intros x. destruct (decide (drop n buf = [])) as [Ed|Ed]; [left; rewrite Ed; simpl; lia|by right]. }
  split.
  - intros x Hx. rewrite C1 by done. by apply S4.
  - intros Hr i Hi. destruct (decide (i < n)%nat) as [Hin|Hin].
    + rewrite C4; [rewrite S5 by lia; by rewrite lookup_take_lt|lia|]. destruct (Hcase (va + Z.of_nat i)) as [|Hd]; [lia|].
      specialize (Hv2 Hd). lia.
    + assert (drop n buf <> []) as Hd by (intros E; rewrite E in Hld; simpl in Hld; lia). specialize (Hv2 Hd).
      specialize (C2 Hr (i - n)%nat ltac:(lia)). rewrite lookup_drop in C2.
      replace (va1 + Z.of_nat (i - n)) with (va + Z.of_nat i) in C2 by lia. by replace (n + (i - n))%nat with i in C2 by lia.
  - intros Hr. destruct (C3 Hr) as (-> & i & Hi & Hnone). split; [done|]. exists (n + i)%nat.
    assert (drop n buf <> []) as Hd by (intros E; rewrite E in Hi; simpl in Hi; lia). specialize (Hv2 Hd).
    split; [lia|]. rewrite <- S4 by lia. by replace (va + Z.of_nat (n + i)) with (va1 + Z.of_nat i) by lia.
  - intros x Hx Hout. rewrite C4; [apply S6; [done|lia]|done|]. destruct (Hcase x) as [|Hd]; [lia|]. specialize (Hv2 Hd). lia.
  - intros b Hb'. rewrite C5, S7; [done| |].
    + intros Hx. assert (0 <= b - f - va mod 4096) as Hj by lia.
      destruct (page_offset va (b - f - va mod 4096) Hva ltac:(lia) ltac:(lia)) as [P1 P2].
      apply (Hb' (va + (b - f - va mod 4096)) f); [lia| |lia].
      rewrite <- Ef. unfold upage. by rewrite (xlate_page _ _ _ va) by (done || lia).
    + intros x g Hx Hg. destruct (Hcase x) as [|Hd]; [lia|]. specialize (Hv2 Hd). apply Hb'; [lia|].
      rewrite <- S4 by lia. done.
Qed.
End vm.

(** C32. [mappages] maps what it is asked to map and nothing else: over a page table
    whose pages are in place, and addresses that are not mapped yet, it returns 0
    with each page mapped to its frame with the permissions asked for, or -1 when
    the allocator has run out of pages, after a first part of them; every other
    address is translated as before, and only the directory, its tables and pages
    that were free are written.  An address that is mapped already is a panic. *)
Theorem mappages_correct kend k l pgdir va size pa perm :
  KERNBASE <= kend -> kfree_list kend k l -> pgtree kend (km_mem k) l pgdir ->
  0 <= va -> 0 < size -> va + size <= 2 ^ 32 -> pa mod 4096 = 0 -> 0 <= pa -> 0 <= perm < 4096 ->
  let first := va / 4096 in
  let last := (va + size - 1) / 4096 in
  pa + (last - first + 1) * 4096 <= 2 ^ 32 ->
  (forall x, 0 <= x < 2 ^ 32 -> first <= x / 4096 <= last -> xlate (km_mem k) pgdir x = None) ->
  (exists r k' l' j, mappages pgdir va size pa perm k = Ok r k' /\ kfree_list kend k' l' /\ pgtree kend (km_mem k') l' pgdir /\
     (r = 0 /\ Z.of_nat j = last - first + 1 \/ r = -1 /\ Z.of_nat j <= last - first /\ l' = []) /\
     (forall x, 0 <= x < 2 ^ 32 -> xlate (km_mem k') pgdir x =
        if decide (first <= x / 4096 < first + Z.of_nat j)
        then Some (Z.lor (Z.lor (pa + (x / 4096 - first) * 4096) perm) PTE_P) else xlate (km_mem k) pgdir x) /\
     (forall b, (forall v, tree_page (km_mem k) l pgdir v -> ~ in_page v b) -> ld (km_mem k') b = ld (km_mem k) b)) /\
  (forall k1 l1 e, kfree_list kend k1 l1 -> pgtree kend (km_mem k1) l1 pgdir -> xlate (km_mem k1) pgdir va = Some e ->
     mappages pgdir va size pa perm k1 = Panic "remap").
Proof.
  intros Hend Hk Hp Hva Hsz Hmax Hpa Hpa0 Hperm first last Hpa1 Hun.
  pose proof (Z.div_mod va 4096 ltac:(lia)) as D1. pose proof (Z.mod_pos_bound va 4096 ltac:(lia)) as M1.
  pose proof (Z.div_mod (va + size - 1) 4096 ltac:(lia)) as D2. pose proof (Z.mod_pos_bound (va + size - 1) 4096 ltac:(lia)) as M2.
  assert (first <= last) as Hfl by (apply Z.div_le_mono; lia).
  assert (PGROUNDDOWN va = first * 4096) as Ea by (rewrite PGROUNDDOWN_eq by lia; unfold first; lia).
  assert (PGROUNDDOWN (u32 (va + size - 1)) = last * 4096) as El.
  { rewrite u32_small by lia. rewrite PGROUNDDOWN_eq by lia. unfold last. lia. }
  assert (0 <= first) as Hf0 by (apply Z.div_pos; lia). set (n := Z.to_nat (last - first)).
  assert (last * 4096 = first * 4096 + Z.of_nat n * 4096) as Eln by lia.
  unfold mappages. rewrite Ea, El, u32_small by lia.
  replace ((last * 4096 - first * 4096) / PGSIZE) with (last - first)
    by (unfold PGSIZE; rewrite <- Z.mul_sub_distr_r, Z.div_mul by lia; done).
  fold n. split.
  - rewrite Eln. destruct (mappages_loop_ok kend Hend n k l pgdir (first * 4096) pa perm (S n) Hk Hp) as
      (r & k' & l' & j & E & Hk' & Hp' & Hm & Hr & _ & Hfr); [lia|by apply Z.mod_mul|lia|lia|done|done|lia|done| |].
    + intros x Hx Hin. rewrite Z.div_mul in Hin by lia. apply Hun; [done|lia].
    + exists r, k', l', j. split; [done|]. split; [done|]. split; [done|].
      split; [destruct Hr as [[-> ->]|(-> & Hj & ->)]; [left|right]; repeat split; lia|].
      split; [|done]. intros x Hx. rewrite Hm by done. by rewrite Z.div_mul by lia.
  - intros k1 l1 e Hk1 Hp1 He. cbn [mappages_loop].
    assert (xlate (km_mem k1) pgdir (first * 4096) = Some e) as He'.
    { rewrite <- He. apply xlate_page; [lia|lia|]. by rewrite Z.div_mul. }
    assert (0 <= first * 4096 < 2 ^ 32) as Hr by lia. rewrite xlate_entry in He'. unfold entry in He'.
    destruct (has (pde (km_mem k1) pgdir (PDX (first * 4096))) PTE_P) eqn:Ep; [|done].
    rewrite (bind_ok _ _ _ _ _ (walk_present kend Hend k1 pgdir (first * 4096) true l1 Hp1 Hr Ep)).
    destruct (PDX_eq _ Hr) as [_ Hi]. destruct (PTX_eq (first * 4096)) as [_ Hj].
    destruct (pg_table _ _ _ _ Hp1 _ Hi Ep) as (Ht & _). destruct (page_range kend Hend _ Ht) as [Ht0 _].
    rewrite (proj2 (Z.eqb_neq _ 0)) by lia. unfold peek32, bind, gets. cbv zeta in He'.
    by destruct (has (ld32 _ _) PTE_P).
Qed.

(** C33. [copyout] stays inside user memory where page tables are: if every address
    of the range has a page table in the directory, or the word that a null
    pointer reads is no present entry, it returns 0 with the bytes in place for
    the user to read, or -1 if an address of the range is not a user address;
    every byte of memory that it changes lies in a page that the table maps for
    the user, at the address asked for, and no translation changes.  Without that
    condition it does not: for bytes within one page whose page table is missing,
    [uva2ka] takes the word at address 0, which belongs to the running process,
    for the entry, and if that word has the present and the user bit set,
    [copyout] returns 0 and has stored the bytes at the physical address that the
    word names, whatever memory that is. *)
Theorem copyout_safe kend k l pgdir null va buf :
  KERNBASE <= kend -> kfree_list kend k l -> pgtree kend (km_mem k) l pgdir -> uspace kend (km_mem k) l pgdir ->
  0 <= va -> va + Z.of_nat (length buf) <= 2 ^ 32 -> Forall is_u8 buf ->
  ((forall x, va <= x < va + Z.of_nat (length buf) -> present (km_mem k) pgdir (PDX x)) \/
   (forall m, has (null m) PTE_P = false) ->
   exists r k', copyout null pgdir va buf (S (length buf)) k = Ok r k' /\ copied k pgdir va buf r k') /\
  (let e := null (km_mem k) in
   let f := P2V (PTE_ADDR e) in
   buf <> [] -> va mod 4096 + Z.of_nat (length buf) <= 4096 -> ~ present (km_mem k) pgdir (PDX va) ->
   has e PTE_P = true -> has e PTE_U = true -> f <> 0 ->
   copyout null pgdir va buf (S (length buf)) k =
   Ok 0 (set_km_mem (store (km_mem k) (u32 (f + va mod 4096)) buf) k)).
Proof.
  intros Hend Hk Hp Hu Hva Hmax Hb. split.
  - intros Hn. destruct (copyout_loop_ok kend Hend null pgdir l (S (length buf)) k va buf Hk Hp Hu) as (r & k' & E & _ & _ & _ & C);
      [|done|done|done|lia|by eauto]. intros x Hx. destruct Hn as [Hn|Hn]; [left; by apply Hn|by right].
  - intros e f Hne Hfit Hnp HP HU Hf. by eapply copyout_missing.
Qed.

(** * A page table to run on: an empty directory, one free page, one user page *)

Definition demo_dir : Z := KERNBASE + 0x2000.
Definition demo_free : Z := KERNBASE + 0x3000.
Definition demo_user : Z := KERNBASE + 0x5000.
Definition demo_vm : kmem := Kmem false false demo_free ∅.

Lemma demo_page v : v ∈ [demo_dir; demo_free; demo_user] -> is_page KERNBASE v.
Proof.
  intros Hv. repeat (apply elem_of_cons in Hv as [->|Hv]); [..|by apply elem_of_nil in Hv];
    (split; [vm_compute; reflexivity|split; vm_compute; (discriminate || reflexivity)]).
Qed.

Lemma demo_free_list : kfree_list KERNBASE demo_vm [demo_free].
Proof.
  split; [done| |apply NoDup_singleton|intros v ->%list_elem_of_singleton; apply demo_page; set_solver].
  cbn. split; [done|]. split; [done|]. unfold ld32, ld. rewrite !lookup_empty. done.
Qed.

Lemma demo_absent i : ~ present (km_mem demo_vm) demo_dir i.
Proof. unfold present, pde, ld32, ld. cbn [km_mem demo_vm]. rewrite !lookup_empty. done. Qed.

Lemma demo_tree : pgtree KERNBASE (km_mem demo_vm) [demo_free] demo_dir.
Proof.
  split.
  - split; [apply demo_page; set_solver|]. rewrite list_elem_of_singleton. done.
  - intros i _ Hp. by destruct (demo_absent i).
  - intros i j _ _ Hp. by destruct (demo_absent i).
Qed.

Lemma demo_unmapped va : xlate (km_mem demo_vm) demo_dir va = None.
Proof. rewrite xlate_entry. unfold entry. pose proof (demo_absent (PDX va)) as H. unfold present in H. by destruct (has _ PTE_P). Qed.

Lemma mappages_correct_witness :
  exists r k' l' j, mappages demo_dir 0x400000 4096 0x5000 6 demo_vm = Ok r k' /\ kfree_list KERNBASE k' l' /\
     pgtree KERNBASE (km_mem k') l' demo_dir /\
     (r = 0 /\ Z.of_nat j = (0x400000 + 4096 - 1) / 4096 - 0x400000 / 4096 + 1 \/
      r = -1 /\ Z.of_nat j <= (0x400000 + 4096 - 1) / 4096 - 0x400000 / 4096 /\ l' = []) /\
     (forall x, 0 <= x < 2 ^ 32 -> xlate (km_mem k') demo_dir x =
        if decide (0x400000 / 4096 <= x / 4096 < 0x400000 / 4096 + Z.of_nat j)
        then Some (Z.lor (Z.lor (0x5000 + (x / 4096 - 0x400000 / 4096) * 4096) 6) PTE_P) else xlate (km_mem demo_vm) demo_dir x) /\
     (forall b, (forall v, tree_page (km_mem demo_vm) [demo_free] demo_dir v -> ~ in_page v b) ->
        ld (km_mem k') b = ld (km_mem demo_vm) b).
Proof.
  apply (mappages_correct KERNBASE demo_vm [demo_free] demo_dir 0x400000 4096 0x5000 6).
  - reflexivity.
  - exact demo_free_list.
  - exact demo_tree.
  - lia.
  - lia.
  - lia.
  - reflexivity.
  - lia.
  - lia.
  - vm_compute. discriminate.
  - intros x _ _. apply demo_unmapped.
Defined.

(** The user page mapped at 4 MB. *)
Definition demo_va : Z := 0x400000.
Definition demo_pte : Z := Z.lor (V2P demo_user) 7.

Lemma demo_mapped :
  exists k l, kfree_list KERNBASE k l /\ pgtree KERNBASE (km_mem k) l demo_dir /\ uspace KERNBASE (km_mem k) l demo_dir /\
    (upage (km_mem k) demo_dir demo_va = Some demo_user \/ l = []).
Proof.
  destruct (map_one KERNBASE ltac:(done) demo_vm [demo_free] demo_dir demo_va demo_pte demo_free_list demo_tree) as
    (p & k1 & l1 & _ & Hz & _ & Hk & Hp & Hx & Ht & _); [done|apply demo_unmapped|vm_compute; split; [discriminate|reflexivity]|done|].
  set (k2 := if p =? 0 then k1 else _) in *. exists k2, l1. split; [done|]. split; [done|].
  assert (forall x f, 0 <= x < 2 ^ 32 -> upage (km_mem k2) demo_dir x = Some f -> f = demo_user /\ x / 4096 = demo_va / 4096) as Hup.
  { intros x f Hr Hf. unfold upage in Hf. rewrite Hx in Hf by done. rewrite demo_unmapped in Hf.
    destruct (decide _) as [[_ E]|]; [|done]. change (has demo_pte PTE_U) with true in Hf. injection Hf as <-. done. }
  split; [split|].
  - intros x f Hr Hf. destruct (Hup x f Hr Hf) as [-> _]. split; [apply demo_page; set_solver|]. intros Htp.
    destruct (Ht _ Htp) as [H|[H%list_elem_of_singleton|(i & _ & H & _)]]; [done|done|by destruct (demo_absent i)].
  - intros x y f Hrx Hry Hfx Hfy. destruct (Hup x f Hrx Hfx) as [_ ->], (Hup y f Hry Hfy) as [_ ->]. done.
  - destruct (decide (p = 0)) as [E|E]; [right; by apply Hz|left]. unfold upage. rewrite Hx by done. by rewrite decide_True.
Qed.

Lemma copyout_safe_witness :
  (exists k, exists r k', copyout (fun _ => 0) demo_dir demo_va [104; 105] 3 k = Ok r k' /\ copied k demo_dir demo_va [104; 105] r k') /\
  copyout (fun _ => 0x100000 + 7) demo_dir demo_va [42] 2 demo_vm =
    Ok 0 (set_km_mem (store (km_mem demo_vm) (KERNBASE + 0x100000) [42]) demo_vm).
Proof.
  split.
  - destruct demo_mapped as (k & l & Hk & Hp & Hu & _). exists k.
    refine (proj1 (copyout_safe KERNBASE k l demo_dir (fun _ => 0) demo_va [104; 105] _ Hk Hp Hu _ _ _) _);
      [reflexivity|vm_compute; discriminate|vm_compute; discriminate|repeat constructor; unfold is_u8; lia|by right].
  - refine (proj2 (copyout_safe KERNBASE demo_vm [demo_free] demo_dir (fun _ => 0x100000 + 7) demo_va [42] _ demo_free_list demo_tree _ _ _ _)
      _ _ _ _ _ _); try reflexivity; try (vm_compute; discriminate).
    + split; intros x; intros; exfalso; unfold upage in *; rewrite demo_unmapped in *; done.
    + repeat constructor; unfold is_u8; lia.
Defined.
