(* ===== verification/Console.v ===== *)
(** The console (console.c), the serial port it copies its output to (uart.c) and
    the keyboard decoder (kbd.c, kbd.h).

    [consoleintr] and [consoleread] run with [cons.lock] held from one [sleep] to
    the next, so each such stretch is one step.  The line editor of the console is
    shown to implement [tty]: a queue of committed bytes and a line being edited. *)
From stdpp Require Import base numbers list gmap strings.
From Stdlib Require Import ZArith Lia.
From S2P Require Import Mem Spinlock Proc Kalloc Ulib Prelude Bytes Ring.

Open Scope kernel_scope.

Definition INPUT_BUF : Z := 128.
Definition BACKSPACE : Z := 0x100.

(** [struct input]. *)
Record input := Input { in_buf : list Z; in_r : Z; in_w : Z; in_e : Z }.

(** The CGA text screen: the cursor registers 14 and 15 of the controller, and
    the cells at [crt]. *)
Record cga := Cga { cga_hi : Z; cga_lo : Z; crt : list Z }.

(** The console; [uart] is the flag of uart.c and [cn_sent] what was written to
    the serial port, [cn_ip] tells whether the caller holds [ip->lock], and
    [cn_woken] is the list of the channels that [wakeup] has been called on. *)
Record console := Console {
  cn_lock : bool;
  cn_locking : bool;
  cn_panicked : bool;
  cn_input : input;
  cn_cga : cga;
  cn_uart : bool;
  cn_sent : list Z;
  cn_ip : bool;
  cn_woken : list chan
}.

Definition set_cn_lock (b : bool) (s : console) : console :=
  Console b (cn_locking s) (cn_panicked s) (cn_input s) (cn_cga s) (cn_uart s) (cn_sent s) (cn_ip s) (cn_woken s).
Definition set_cn_input (i : input) (s : console) : console :=
  Console (cn_lock s) (cn_locking s) (cn_panicked s) i (cn_cga s) (cn_uart s) (cn_sent s) (cn_ip s) (cn_woken s).
Definition set_cn_cga (g : cga) (s : console) : console :=
  Console (cn_lock s) (cn_locking s) (cn_panicked s) (cn_input s) g (cn_uart s) (cn_sent s) (cn_ip s) (cn_woken s).
Definition set_cn_sent (l : list Z) (s : console) : console :=
  Console (cn_lock s) (cn_locking s) (cn_panicked s) (cn_input s) (cn_cga s) (cn_uart s) l (cn_ip s) (cn_woken s).
Definition set_cn_ip (b : bool) (s : console) : console :=
  Console (cn_lock s) (cn_locking s) (cn_panicked s) (cn_input s) (cn_cga s) (cn_uart s) (cn_sent s) b (cn_woken s).
Definition set_cn_woken (l : list chan) (s : console) : console :=
  Console (cn_lock s) (cn_locking s) (cn_panicked s) (cn_input s) (cn_cga s) (cn_uart s) (cn_sent s) (cn_ip s) l.
Definition set_cn_modes (locking panicked : bool) (s : console) : console :=
  Console (cn_lock s) locking panicked (cn_input s) (cn_cga s) (cn_uart s) (cn_sent s) (cn_ip s) (cn_woken s).

Definition acquire_cons : M console unit := acquire cn_lock set_cn_lock.
Definition release_cons : M console unit := release cn_lock set_cn_lock.
Definition wakeup_cons (c : chan) : M console unit := modify (fun s => set_cn_woken (cn_woken s ++ [c]) s).

(** * Output *)

(** [uartputc]: the wait for the transmitter is bounded, and the byte is written
    after it in any case. *)
Definition uartputc (c : Z) : M console unit :=
  s <- mget ;;
  if cn_uart s then modify (set_cn_sent (cn_sent s ++ [u8 c])) else ret tt.

(** [cgaputc]. *)
Definition cga_move (g : cga) (c : Z) : Z * list Z :=
  let pos := Z.lor (Z.shiftl (cga_hi g) 8) (cga_lo g) in
  if c =? 10 then (pos + (80 - pos mod 80), crt g)
  else if c =? BACKSPACE then (if 0 <? pos then pos - 1 else pos, crt g)
  else (pos + 1, <[Z.to_nat pos := Z.lor (Z.land c 0xff) 0x0700]> (crt g)).

(** [memmove(crt, crt+80, sizeof(crt[0])*23*80)] and the [memset] of the rest of
    the last line, with the cursor moved up. *)
Definition cga_scroll (pos : Z) (cells : list Z) : Z * list Z :=
  let cells := splice cells 0 (slice cells 80 (23 * 80)) in
  let pos := pos - 80 in
  (pos, splice cells pos (replicate (Z.to_nat (24 * 80 - pos)) 0)).

Definition cgaputc (c : Z) : M console unit :=
  s <- mget ;;
  let '(pos, cells) := cga_move (cn_cga s) c in
  if (pos <? 0) || (25 * 80 <? pos) then panic "pos under/overflow" else
  let '(pos, cells) := if 24 <=? pos / 80 then cga_scroll pos cells else (pos, cells) in
  modify (set_cn_cga (Cga (u8 (Z.shiftr pos 8)) (u8 pos) (<[Z.to_nat pos := Z.lor 32 0x0700]> cells))).

(** [consputc]: a CPU that comes here after a panic spins with interrupts off. *)
Definition consputc (c : Z) : M console unit :=
  s <- mget ;;
  if cn_panicked s then diverge else
  (if c =? BACKSPACE then
     uartputc 8 ;;
     uartputc 32 ;;
     uartputc 8
   else uartputc c) ;;
  cgaputc c.

Fixpoint consputs (l : list Z) : M console unit :=
  match l with
  | [] => ret tt
  | c :: l' => consputc c ;; consputs l'
  end.

(** [printint]: [buf] is filled as the [printint] of printf.c fills it, from a
    table in lower case, and written backwards. *)
Definition cdigits : list Z := bs "0123456789abcdef".

Definition cprintint (xx base : Z) (sgn : bool) : M console unit :=
  consputs (rev (int_buf cdigits xx base sgn)).

(** The arguments of [cprintf]: a word, or a pointer to a string that may be
    null. *)
Inductive carg : Type :=
| CInt (v : Z)
| CStr (s : option (list Z)).

Definition carg_word (a : list carg) : Z := match a with CInt v :: _ => v | _ => 0 end.
Definition carg_str (a : list carg) : list Z :=
  match a with CStr (Some s) :: _ => s | _ => bs "(null)" end.

Fixpoint cprintf_loop (fmt : list Z) (args : list carg) : M console unit :=
  match fmt with
  | [] => ret tt
  | c :: fmt =>
      if c =? 0 then ret tt else
      if negb (c =? 37) then consputc c ;; cprintf_loop fmt args else
      match fmt with
      | [] => ret tt
      | c :: fmt =>
          if c =? 0 then ret tt
          else if c =? 100 then cprintint (i32 (carg_word args)) 10 true ;; cprintf_loop fmt (tail args)
          else if (c =? 120) || (c =? 112) then
            cprintint (i32 (carg_word args)) 16 false ;; cprintf_loop fmt (tail args)
          else if c =? 115 then consputs (carg_str args) ;; cprintf_loop fmt (tail args)
          else if c =? 37 then consputc 37 ;; cprintf_loop fmt args
          else consputc 37 ;; consputc c ;; cprintf_loop fmt args
      end
  end.

Definition cprintf (fmt : list Z) (args : list carg) : M console unit :=
  s <- mget ;;
  let locking := cn_locking s in
  when locking acquire_cons ;;
  cprintf_loop fmt args ;;
  when locking release_cons.

(** What [panic] prints before it stops the machine: [pcs] are the callers that
    [getcallerpcs] found. *)
Definition cpanic (apicid : Z) (msg : list Z) (pcs : list Z) : M console unit :=
  modify (fun s => set_cn_modes false (cn_panicked s) s) ;;
  cprintf (bs "cpu with apicid %d: panic: ") [CInt apicid] ;;
  cprintf msg [] ;;
  cprintf [10] [] ;;
  mfor 10 0 (fun i => cprintf (bs " %p") [CInt (nth (Z.to_nat i) pcs 0)]) ;;
  modify (fun s => set_cn_modes (cn_locking s) true s) ;;
  diverge.

(** [getcallerpcs] (spinlock.c): the return addresses along the chain of saved
    %ebp, ten of them, zero after the end of the chain. *)
Fixpoint callers (m : mem) (ebp : Z) (k : nat) : list Z :=
  match k with
  | O => []
  | S k' =>
      if (ebp =? 0) || (ebp <? KERNBASE) || (ebp =? 0xffffffff) then replicate k 0
      else ld32 m (u32 (ebp + 4)) :: callers m (ld32 m ebp) k'
  end.
Definition getcallerpcs (m : mem) (v : Z) : list Z := callers m (u32 (v - 8)) 10.

(** [procdump] (proc.c); [ebp] gives the %ebp in the context of each slot. *)
Definition state_name (st : procstate) : list Z :=
  match st with
  | UNUSED => bs "unused"
  | EMBRYO => bs "embryo"
  | SLEEPING => bs "sleep "
  | RUNNABLE => bs "runble"
  | RUNNING => bs "run   "
  | ZOMBIE => bs "zombie"
  end.

Fixpoint dump_pcs (pc : list Z) : M console unit :=
  match pc with
  | [] => ret tt
  | x :: pc' => if x =? 0 then ret tt else cprintf (bs " %p") [CInt x] ;; dump_pcs pc'
  end.

Fixpoint procdump (m : mem) (ebp : nat -> Z) (k : nat) (ps : list proc) : M console unit :=
  match ps with
  | [] => ret tt
  | p :: ps' =>
      (if bool_decide (p_state p = UNUSED) then ret tt else
       cprintf (bs "%d %s %s") [CInt (p_pid p); CStr (Some (state_name (p_state p))); CStr (Some (bs (p_name p)))] ;;
       (if bool_decide (p_state p = SLEEPING) then dump_pcs (getcallerpcs m (u32 (ebp k + 8))) else ret tt) ;;
       cprintf [10] []) ;;
      procdump m ebp (S k) ps'
  end.

(** [hello], the added system call's message. *)
Definition hello : M console unit := cprintf ([10] ++ bs "Hello!!!!!!! " ++ [10]) [].

(** * Input *)

Definition ctl (x : Z) : Z := x - 64.

(** [input.buf[i % INPUT_BUF]]. *)
Definition in_at (i : input) (k : Z) : Z := nth (Z.to_nat (k mod INPUT_BUF)) (in_buf i) 0.
Definition set_in_r (k : Z) (i : input) : input := Input (in_buf i) k (in_w i) (in_e i).
Definition set_in_w (k : Z) (i : input) : input := Input (in_buf i) (in_r i) k (in_e i).
Definition set_in_e (k : Z) (i : input) : input := Input (in_buf i) (in_r i) (in_w i) k.

(** The loop of Control-U; it ends after at most [INPUT_BUF] turns when the
    counters are in order, and after 2^32 in any case. *)
Fixpoint kill_line (fuel : nat) : M console unit :=
  match fuel with
  | O => diverge
  | S f =>
      s <- mget ;;
      let i := cn_input s in
      if negb (in_e i =? in_w i) && negb (in_at i (u32 (in_e i - 1)) =? 10) then
        modify (set_cn_input (set_in_e (u32 (in_e i - 1)) i)) ;;
        consputc BACKSPACE ;;
        kill_line f
      else ret tt
  end.

(** One turn of the loop of [consoleintr] on a character of [getc]; the result
    tells whether [doprocdump] is set. *)
Definition console_key (c : Z) : M console bool :=
  s <- mget ;;
  let i := cn_input s in
  if c =? ctl 80 then ret true
  else if c =? ctl 85 then kill_line (Z.to_nat (INPUT_BUF + 1)) ;; ret false
  else if (c =? ctl 72) || (c =? 127) then
    (if negb (in_e i =? in_w i) then
       modify (set_cn_input (set_in_e (u32 (in_e i - 1)) i)) ;;
       consputc BACKSPACE
     else ret tt) ;;
    ret false
  else if negb (c =? 0) && (u32 (in_e i - in_r i) <? INPUT_BUF) then
    let c := if c =? 13 then 10 else c in
    let i := Input (<[Z.to_nat (in_e i mod INPUT_BUF) := u8 c]> (in_buf i)) (in_r i) (in_w i) (u32 (in_e i + 1)) in
    modify (set_cn_input i) ;;
    consputc c ;;
    (if (c =? 10) || (c =? ctl 68) || (in_e i =? u32 (in_r i + INPUT_BUF)) then
       modify (set_cn_input (set_in_w (in_e i) i)) ;;
       wakeup_cons CInput
     else ret tt) ;;
    ret false
  else ret false.

(** The characters that [getc] returns before its first negative result. *)
Fixpoint console_keys (cs : list Z) (dump : bool) : M console bool :=
  match cs with
  | [] => ret dump
  | c :: cs' => if c <? 0 then ret dump else d <- console_key c ;; console_keys cs' (dump || d)
  end.

Definition consoleintr (procdump : M console unit) (cs : list Z) : M console unit :=
  acquire_cons ;;
  d <- console_keys cs false ;;
  release_cons ;;
  when d procdump.

(** [iunlock(ip)] and [ilock(ip)] of the two device routines. *)
Definition iunlock_cons : M console unit :=
  s <- mget ;; if cn_ip s then modify (set_cn_ip false) else panic "iunlock".
Definition ilock_cons : M console unit := modify (set_cn_ip true).

(** How a stretch of [consoleread] ends: [return r] with the bytes stored at
    [dst], or [sleep(&input.r, &cons.lock)] with [n] bytes still to come. *)
Inductive cread : Type :=
| CDone (r : Z) (bytes : list Z)
| CWait (n : Z) (bytes : list Z).

Definition read_done (target n : Z) (bytes : list Z) : M console cread :=
  release_cons ;; ilock_cons ;; ret (CDone (i32 (target - n)) bytes).

Fixpoint consoleread_loop (killed : bool) (target n : Z) (bytes : list Z) (k : nat) : M console cread :=
  match k with
  | O => read_done target n bytes
  | S k' =>
      s <- mget ;;
      let i := cn_input s in
      if in_r i =? in_w i then
        if killed then release_cons ;; ilock_cons ;; ret (CDone (-1) bytes)
        else release_cons ;; ret (CWait n bytes)
      else
        let c := in_at i (in_r i) in
        modify (set_cn_input (set_in_r (u32 (in_r i + 1)) i)) ;;
        if c =? ctl 68 then
          (if u32 n <? target then
             modify (fun s => set_cn_input (set_in_r (u32 (in_r (cn_input s) - 1)) (cn_input s)) s)
           else ret tt) ;;
          read_done target n bytes
        else if c =? 10 then read_done target (n - 1) (bytes ++ [c])
        else consoleread_loop killed target (n - 1) (bytes ++ [c]) k'
  end.

(** From the start, and from the return of [sleep]: [while(n > 0)] has [n] turns
    at most. *)
Definition consoleread (killed : bool) (n : Z) : M console cread :=
  iunlock_cons ;;
  acquire_cons ;;
  consoleread_loop killed (u32 n) n [] (Z.to_nat n).

Definition consoleread_resume (killed : bool) (target n : Z) (bytes : list Z) : M console cread :=
  acquire_cons ;;
  consoleread_loop killed target n bytes (Z.to_nat n).

Definition consolewrite (buf : list Z) (n : Z) : M console Z :=
  iunlock_cons ;;
  acquire_cons ;;
  mfor (Z.to_nat n) 0 (fun i => consputc (Z.land (nth (Z.to_nat i) buf 0) 0xff)) ;;
  release_cons ;;
  ilock_cons ;;
  ret n.

Definition consoleinit : M console unit :=
  modify (fun s => set_cn_modes true (cn_panicked s) (set_cn_lock false s)).

(** * The keyboard (kbd.c, kbd.h) *)

Definition SHIFT : Z := 1.
Definition CTL : Z := 2.
Definition ALT : Z := 4.
Definition CAPSLOCK : Z := 8.
Definition NUMLOCK : Z := 16.
Definition SCROLLLOCK : Z := 32.
Definition E0ESC : Z := 64.

(** An array of 256 bytes with designated initializers after the first ones. *)
Definition table (l : list Z) (des : list (nat * Z)) : list Z :=
  fold_left (fun t kv => <[kv.1 := u8 kv.2]> t) des ((u8 <$> l) ++ replicate (256 - length l) 0).

Definition shiftcode : list Z :=
  table [] [(0x1D%nat, CTL); (0x2A%nat, SHIFT); (0x36%nat, SHIFT); (0x38%nat, ALT); (0x9D%nat, CTL); (0xB8%nat, ALT)].
Definition togglecode : list Z :=
  table [] [(0x3A%nat, CAPSLOCK); (0x45%nat, NUMLOCK); (0x46%nat, SCROLLLOCK)].

(** The keys that send a code after 0xE0, with the code for Enter and for the
    slash of the key pad. *)
Definition e0keys (enter slash : Z) : list (nat * Z) :=
  [(0x9C%nat, enter); (0xB5%nat, slash); (0xC8%nat, 0xE2); (0xD0%nat, 0xE3); (0xC9%nat, 0xE6); (0xD1%nat, 0xE7);
   (0xCB%nat, 0xE4); (0xCD%nat, 0xE5); (0x97%nat, 0xE0); (0xCF%nat, 0xE1); (0xD2%nat, 0xE8); (0xD3%nat, 0xE9)].

Definition NO : Z := 0.

Definition normalmap : list Z :=
  table ([NO; 0x1B] ++ bs "1234567890-=" ++ [8; 9] ++
         bs "qwertyuiop[]" ++ [10; NO] ++ bs "asdfghjkl;'`" ++ [NO; 92] ++ bs "zxcvbnm,./" ++
         [NO; 42; NO; 32] ++ replicate 13 NO ++ bs "789-456+1230." ++ replicate 4 NO)
    (e0keys 10 47).

Definition shiftmap : list Z :=
  table ([NO; 27] ++ bs "!@#$%^&*()_+" ++ [8; 9] ++
         bs "QWERTYUIOP{}" ++ [10; NO] ++ bs "ASDFGHJKL:" ++ [34; 126; NO; 124] ++ bs "ZXCVBNM<>?" ++
         [NO; 42; NO; 32] ++ replicate 13 NO ++ bs "789-456+1230." ++ replicate 4 NO)
    (e0keys 10 47).

Definition ctlmap : list Z :=
  table (replicate 16 NO ++ (ctl <$> bs "QWERTYUIOP") ++ [NO; NO; 13; NO] ++ (ctl <$> bs "ASDFGHJKL") ++
         [NO; NO; NO; NO; ctl 92] ++ (ctl <$> bs "ZXCVBNM") ++ [NO; NO; ctl 47; NO; NO])
    (e0keys 13 (ctl 47)).

(** The controller: the scan codes that wait in it, and [shift], the static
    variable of [kbdgetc]. *)
Record kbd := Kbd { kb_shift : Z; kb_pending : list Z }.

Definition at_code (t : list Z) (d : Z) : Z := nth (Z.to_nat d) t 0.

(** [kbdgetc] on the scan code [data]: the result, and [shift] after it. *)
Definition kbd_data (shift data : Z) : Z * Z :=
  if data =? 0xE0 then (0, Z.lor shift E0ESC)
  else if negb (Z.land data 0x80 =? 0) then
    let data := if negb (Z.land shift E0ESC =? 0) then data else Z.land data 0x7F in
    (0, Z.ldiff shift (Z.lor (at_code shiftcode data) E0ESC))
  else
    let esc := negb (Z.land shift E0ESC =? 0) in
    let data := if esc then Z.lor data 0x80 else data in
    let shift := if esc then Z.ldiff shift E0ESC else shift in
    let shift := Z.lor shift (at_code shiftcode data) in
    let shift := Z.lxor shift (at_code togglecode data) in
    let c := at_code (nth (Z.to_nat (Z.land shift (Z.lor CTL SHIFT))) [normalmap; shiftmap; ctlmap; ctlmap] []) data in
    let c :=
      if negb (Z.land shift CAPSLOCK =? 0) then
        if (97 <=? c) && (c <=? 122) then u32 (c + (65 - 97))
        else if (65 <=? c) && (c <=? 90) then u32 (c + (97 - 65))
        else c
      else c in
    (c, shift).

Definition kbdgetc (k : kbd) : Z * kbd :=
  match kb_pending k with
  | [] => (-1, k)
  | data :: rest => let '(c, shift) := kbd_data (kb_shift k) data in (c, Kbd shift rest)
  end.

(** [consoleintr(kbdgetc)]: [getc] is called until its result is negative, at most
    once for each scan code and once more. *)
Fixpoint getc_all (fuel : nat) (k : kbd) : list Z * kbd :=
  match fuel with
  | O => ([], k)
  | S f =>
      let '(c, k1) := kbdgetc k in
      if c <? 0 then ([], k1) else let '(cs, k2) := getc_all f k1 in (c :: cs, k2)
  end.

Definition kbdintr (procdump : M console unit) (k : kbd) : M console kbd :=
  let '(cs, k') := getc_all (S (length (kb_pending k))) k in
  consoleintr procdump cs ;;
  ret k'.

(** * The line editor as a pair of lists *)

Record tty := Tty { ready : list Z; edit : list Z }.

Definition tty_room (t : tty) : bool := Z.of_nat (length (ready t ++ edit t)) <? INPUT_BUF.

Definition tty_key (c : Z) (t : tty) : tty :=
  if c =? ctl 80 then t
  else if c =? ctl 85 then Tty (ready t) []
  else if (c =? ctl 72) || (c =? 127) then Tty (ready t) (removelast (edit t))
  else if negb (c =? 0) && tty_room t then
    let c := if c =? 13 then 10 else c in
    let t' := Tty (ready t) (edit t ++ [c]) in
    if (c =? 10) || (c =? ctl 68) || negb (tty_room t') then Tty (ready t ++ edit t ++ [c]) [] else t'
  else t.

(** A reader that has [n] bytes of [target] to go takes bytes up to the end of a
    line; Control-D ends the read and stays for the next one unless nothing was
    read. *)
Fixpoint tty_read (killed : bool) (target : Z) (n : nat) (bytes l : list Z) : cread * list Z :=
  match n, l with
  | O, _ => (CDone target bytes, l)
  | S _, [] => (if killed then CDone (-1) bytes else CWait (Z.of_nat n) bytes, [])
  | S n', c :: l' =>
      if c =? ctl 68 then (CDone (target - Z.of_nat n) bytes, if Z.of_nat n <? target then l else l')
      else if c =? 10 then (CDone (target - Z.of_nat n') (bytes ++ [c]), l')
      else tty_read killed target n' (bytes ++ [c]) l'
  end.

(** * The screen *)

Definition cursor (g : cga) : Z := cga_hi g * 256 + cga_lo g.

(** The cursor is on one of the 24 lines that the code uses. *)
Record screen_ok (g : cga) : Prop := ScreenOk {
  sc_hi : is_u8 (cga_hi g);
  sc_lo : is_u8 (cga_lo g);
  sc_cursor : cursor g < 24 * 80;
  sc_cells : (25 * 80 <= length (crt g))%nat
}.

Lemma cursor_lor g : screen_ok g -> Z.lor (Z.shiftl (cga_hi g) 8) (cga_lo g) = cursor g.
Proof.
  intros [_ Hlo _ _]. rewrite Z.shiftl_mul_pow2 by lia. apply (lor_add 8); [lia| |exact Hlo].
  by apply Z.mod_mul.
Qed.

Lemma cursor_back pos : 0 <= pos < 2 ^ 16 -> u8 (Z.shiftr pos 8) * 256 + u8 pos = pos.
Proof.
  intros H. unfold u8. rewrite Z.shiftr_div_pow2 by lia. change (2 ^ 8) with 256.
  rewrite (Z.mod_small (pos / 256)) by (split; [apply Z.div_pos; lia|apply Z.div_lt_upper_bound; lia]).
  pose proof (Z.div_mod pos 256). lia.
Qed.

Lemma screen_new pos cells :
  0 <= pos < 24 * 80 -> (25 * 80 <= length cells)%nat -> screen_ok (Cga (u8 (Z.shiftr pos 8)) (u8 pos) cells).
Proof.
  intros Hp Hc. split; cbn [cga_hi cga_lo crt]; [by apply Z.mod_pos_bound..| |done]. unfold cursor; cbn [cga_hi cga_lo]; rewrite cursor_back; lia.
Qed.

Lemma length_scroll pos cells : 24 * 80 <= pos <= 25 * 80 -> (25 * 80 <= length cells)%nat ->
  length (cga_scroll pos cells).2 = length cells.
Proof.
  intros Hp Hc. unfold cga_scroll. cbn [snd].
  assert (length (splice cells 0 (slice cells 80 (23 * 80))) = length cells) as E.
  { apply length_splice; [lia|]. rewrite length_slice; lia. }
  rewrite length_splice; [done|lia|]. rewrite E, length_replicate. lia.
Qed.

(** What [consputc] writes to the serial port. *)
Definition echo (c : Z) : list Z := if c =? BACKSPACE then [8; 32; 8] else [u8 c].

(** [s'] is [s] after output [out] and the wakeups [ws], but for the input. *)
Record put_out (s s' : console) (out : list Z) (ws : list chan) : Prop := PutOut {
  po_lock : cn_lock s' = cn_lock s;
  po_locking : cn_locking s' = cn_locking s;
  po_panicked : cn_panicked s' = false;
  po_screen : screen_ok (cn_cga s');
  po_uart : cn_uart s' = cn_uart s;
  po_sent : cn_sent s' = if cn_uart s then cn_sent s ++ out else cn_sent s;
  po_ip : cn_ip s' = cn_ip s;
  po_woken : cn_woken s' = cn_woken s ++ ws
}.

Lemma put_out_trans s1 s2 s3 o1 o2 w1 w2 :
  put_out s1 s2 o1 w1 -> put_out s2 s3 o2 w2 -> put_out s1 s3 (o1 ++ o2) (w1 ++ w2).
Proof.
  intros [? ? ? ? U1 S1 ? W1] [? ? ? ? U2 S2 ? W2]. split; try congruence.
  - rewrite S2, U1, S1. destruct (cn_uart s1); [by rewrite app_assoc|done].
  - by rewrite W2, W1, app_assoc.
Qed.

Lemma cgaputc_ok c s : screen_ok (cn_cga s) ->
  exists g, cgaputc c s = Ok tt (set_cn_cga g s) /\ screen_ok g.
Proof.
  intros Hg. unfold cgaputc, bind at 1, mget. destruct (cga_move (cn_cga s) c) as [pos cells] eqn:E.
  assert (0 <= pos <= 24 * 80 /\ length cells = length (crt (cn_cga s))) as [Hp Hl].
  { revert E. unfold cga_move. rewrite (cursor_lor _ Hg). destruct Hg as [Hh Hlo Hc _]. unfold cursor, is_u8 in *.
    set (p := _ * 256 + _) in *. pose proof (Z.mod_pos_bound p 80 ltac:(lia)). pose proof (Z.div_mod p 80 ltac:(lia)).
    destruct (c =? 10); [intros [= <- <-]; split; [nia|done]|].
    destruct (c =? BACKSPACE); [intros [= <- <-]; split; [destruct (Z.ltb_spec 0 p); lia|done]|].
    intros [= <- <-]. split; [lia|]. apply length_insert. }
  rewrite (proj2 (Z.ltb_ge _ _)), (proj2 (Z.ltb_ge _ _)) by lia. cbn [orb].
  destruct Hg as [_ _ _ Hcells]. destruct (Z.leb_spec 24 (pos / 80)) as [Hs|Hs].
  - assert (pos = 24 * 80) as ->.
    { pose proof (Z.div_mod pos 80 ltac:(lia)). pose proof (Z.mod_pos_bound pos 80 ltac:(lia)). lia. }
    pose proof (length_scroll (24 * 80) cells ltac:(lia) ltac:(lia)) as Hlen.
    destruct (cga_scroll (24 * 80) cells) as [pos' cells'] eqn:E'. injection E' as <- _.
    eexists. split; [reflexivity|]. apply screen_new; [lia|]. cbn [snd] in Hlen. rewrite length_insert. lia.
  - eexists. split; [reflexivity|]. apply screen_new; [|rewrite length_insert; lia].
    split; [lia|]. pose proof (Z.div_mod pos 80 ltac:(lia)). pose proof (Z.mod_pos_bound pos 80 ltac:(lia)). lia.
Qed.

Lemma uartputc_ok c s : uartputc c s = Ok tt (set_cn_sent (if cn_uart s then cn_sent s ++ [u8 c] else cn_sent s) s).
Proof. unfold uartputc, bind, mget. destruct s as [? ? ? ? ? [] ? ? ?]; reflexivity. Qed.

(** The output of [consputc]; the input is as it was. *)
Definition outputs (s s' : console) (out : list Z) (ws : list chan) : Prop :=
  put_out s s' out ws /\ cn_input s' = cn_input s.

Definition calm (s : console) : Prop := cn_panicked s = false /\ screen_ok (cn_cga s).

Lemma put_out_calm s s' o w : put_out s s' o w -> calm s'.
Proof. by intros []. Qed.

Lemma wp_consputc c s (Q : unit -> console -> Prop) : calm s ->
  (forall s', outputs s s' (echo c) [] -> Q tt s') -> wp (consputc c) Q s.
Proof.
  intros [Hp Hg] HQ. unfold consputc, wp, bind at 1, mget. rewrite Hp.
  set (m := if c =? BACKSPACE then _ else _).
  assert (m s = Ok tt (set_cn_sent (if cn_uart s then cn_sent s ++ echo c else cn_sent s) s)) as Em.
  { unfold m, echo. destruct (c =? BACKSPACE); [|apply uartputc_ok].
    rewrite (bind_ok _ _ _ _ _ (uartputc_ok _ _)), (bind_ok _ _ _ _ _ (uartputc_ok _ _)), uartputc_ok.
    destruct s as [? ? ? ? ? [] ? ? ?]; cbn; [|done]. by rewrite <- !app_assoc. }
  rewrite (bind_ok _ _ _ _ _ Em).
  match goal with |- context [cgaputc c ?t] => destruct (cgaputc_ok c t) as (g & E & Hg'); [done|] end.
  eexists tt, _. split; [exact E|]. apply HQ. split; [|done]. split; try done. cbn. by rewrite app_nil_r.
Qed.

(** * The line editor implements [tty] *)

Record shows (i : input) (t : tty) : Prop := Shows {
  sh_buf : length (in_buf i) = Z.to_nat INPUT_BUF;
  sh_r : is_u32 (in_r i);
  sh_w : in_w i = u32 (in_r i + Z.of_nat (length (ready t)));
  sh_e : in_e i = u32 (in_r i + Z.of_nat (length (ready t ++ edit t)));
  sh_len : Z.of_nat (length (ready t ++ edit t)) <= INPUT_BUF;
  sh_at : ring_at INPUT_BUF (in_r i) (in_buf i) (ready t ++ edit t);
  sh_line : Forall (fun c => c <> 10) (edit t)
}.

Lemma input_div : (INPUT_BUF | 2 ^ 32).
Proof. exists (2 ^ 25). reflexivity. Qed.

Lemma shows_empty i t : shows i t -> (in_r i =? in_w i) = bool_decide (ready t = []).
Proof.
  intros [_ Hr -> _ Hl _ _]. rewrite <- (u32_same (in_r i)) at 1 by done. rewrite <- (Z.add_0_r (in_r i)) at 1.
  rewrite length_app in Hl. rewrite ring_eqb by (unfold INPUT_BUF in *; lia).
  destruct (ready t); [done|]. by rewrite bool_decide_false by done.
Qed.

Lemma shows_noedit i t : shows i t -> (in_e i =? in_w i) = bool_decide (edit t = []).
Proof.
  intros [_ Hr -> -> Hl _ _]. rewrite length_app in *. rewrite ring_eqb by (unfold INPUT_BUF in *; lia).
  destruct (edit t) as [|c l]; [rewrite bool_decide_true by done; apply Z.eqb_eq; cbn; lia|].
  rewrite bool_decide_false by done. apply Z.eqb_neq. cbn. lia.
Qed.

Lemma shows_room i t : shows i t -> (u32 (in_e i - in_r i) <? INPUT_BUF) = tty_room t.
Proof.
  intros [_ Hr _ -> Hl _ _]. unfold tty_room. f_equal.
  rewrite <- (u32_same (in_r i)) at 2 by done. rewrite <- (Z.add_0_r (in_r i)) at 2.
  rewrite u32_sub by (unfold INPUT_BUF in *; lia). lia.
Qed.

(** Taking back the last character of the line. *)
Lemma shows_back i t l c : shows i t -> edit t = l ++ [c] ->
  shows (set_in_e (u32 (in_e i - 1)) i) (Tty (ready t) l) /\ in_at i (u32 (in_e i - 1)) = c /\ c <> 10.
Proof.
  intros [Hb Hr Hw He Hl Hat Hln] E. rewrite E in *. rewrite app_assoc in *.
  assert (u32 (in_e i - 1) = u32 (in_r i + Z.of_nat (length (ready t ++ l)))) as He'.
  { rewrite He, length_app. cbn [length]. rewrite <- Z.add_opp_r, u32_add. f_equal. lia. }
  apply Forall_app in Hln as [Hl1 Hl2]. rewrite length_app in Hl. cbn [length] in Hl. split; [split|]; cbn; try done; [lia| |].
  - eapply ring_unpush, Hat.
  - split; [|by inversion Hl2]. unfold in_at. rewrite He'. by apply (ring_back INPUT_BUF eq_refl input_div).
Qed.

(** Adding a character to the line. *)
Lemma shows_add i t c : shows i t -> tty_room t = true -> c <> 10 ->
  shows (Input (<[Z.to_nat (in_e i mod INPUT_BUF) := c]> (in_buf i)) (in_r i) (in_w i) (u32 (in_e i + 1)))
    (Tty (ready t) (edit t ++ [c])).
Proof.
  intros [Hb Hr Hw He Hl Hat Hln] Hroom%Z.ltb_lt Hc. split; cbn [in_buf in_r in_w in_e ready edit]; try done.
  - by rewrite length_insert.
  - rewrite He, u32_add, app_assoc, (length_app _ [c]). cbn [length]. f_equal. lia.
  - rewrite app_assoc, length_app. cbn [length]. lia.
  - rewrite app_assoc, He. by apply (ring_push INPUT_BUF eq_refl input_div).
  - apply Forall_app. split; [done|]. by constructor.
Qed.

(** Adding a character and committing the line. *)
Lemma shows_commit i t c : shows i t -> tty_room t = true ->
  shows (set_in_w (u32 (in_e i + 1)) (Input (<[Z.to_nat (in_e i mod INPUT_BUF) := c]> (in_buf i)) (in_r i) (in_w i) (u32 (in_e i + 1))))
    (Tty (ready t ++ edit t ++ [c]) []).
Proof.
  intros [Hb Hr Hw He Hl Hat Hln] Hroom%Z.ltb_lt.
  assert (u32 (in_e i + 1) = u32 (in_r i + Z.of_nat (length (ready t ++ edit t ++ [c])))) as E.
  { rewrite He, u32_add, app_assoc, (length_app _ [c]). cbn [length]. f_equal. lia. }
  split; cbn [set_in_w in_buf in_r in_w in_e ready edit]; rewrite ?app_nil_r; try done.
  - by rewrite length_insert.
  - rewrite app_assoc, length_app. cbn [length]. lia.
  - rewrite app_assoc, He. by apply (ring_push INPUT_BUF eq_refl input_div).
Qed.

(** What a key shows on the terminal. *)
Definition tty_echo (c : Z) (t : tty) : list Z :=
  if c =? ctl 80 then []
  else if c =? ctl 85 then concat (replicate (length (edit t)) (echo BACKSPACE))
  else if (c =? ctl 72) || (c =? 127) then (if bool_decide (edit t = []) then [] else echo BACKSPACE)
  else if negb (c =? 0) && tty_room t then echo (if c =? 13 then 10 else c)
  else [].

(** The sleepers are woken exactly when something is committed. *)
Definition tty_wakes (t t' : tty) : list chan :=
  if (length (ready t) <? length (ready t'))%nat then [CInput] else [].

Lemma put_out_input s j : calm s -> put_out s (set_cn_input j s) [] [].
Proof. intros []. split; try done; cbn; rewrite app_nil_r; [by destruct (cn_uart s)|done]. Qed.

Lemma put_out_refl s : calm s -> put_out s s [] [].
Proof. intros []. split; try done; rewrite app_nil_r; [by destruct (cn_uart s)|done]. Qed.

Lemma put_out_woken s c : calm s -> put_out s (set_cn_woken (cn_woken s ++ [c]) s) [] [c].
Proof. intros []. split; try done; cbn. rewrite app_nil_r. by destruct (cn_uart s). Qed.

(** Moving the input counters, then echoing. *)
Lemma wp_input_echo j c s (Q : unit -> console -> Prop) : calm s ->
  (forall s', put_out s s' (echo c) [] -> cn_input s' = j -> Q tt s') ->
  wp (modify (set_cn_input j) ;; consputc c) Q s.
Proof.
  intros Hs HQ. wp_step. wp_step. pose proof (put_out_input s j Hs) as H0.
  apply wp_consputc; [by eapply put_out_calm|]. intros s' [H1 E]. apply HQ; [|by rewrite E].
  exact (put_out_trans _ _ _ _ _ _ _ H0 H1).
Qed.

Lemma wp_ext {S A} (m m' : M S A) (Q : A -> S -> Prop) s : m s = m' s -> wp m Q s -> wp m' Q s.
Proof. unfold wp. by intros ->. Qed.

Lemma wp_kill_line fuel t s (Q : unit -> console -> Prop) : calm s -> shows (cn_input s) t ->
  (length (edit t) < fuel)%nat ->
  (forall s', put_out s s' (concat (replicate (length (edit t)) (echo BACKSPACE))) [] ->
     shows (cn_input s') (Tty (ready t) []) -> Q tt s') ->
  wp (kill_line fuel) Q s.
Proof.
  revert t s Q. induction fuel as [|f IH]; intros t s Q Hs Hsh Hf HQ; [lia|]. cbn [kill_line].
  wp_step. exists s, s. split; [done|]. rewrite (shows_noedit _ _ Hsh).
  destruct (decide (edit t = [])) as [E|E].
  - rewrite bool_decide_true by done. cbn [negb andb]. wp_step. rewrite E in HQ. apply HQ; [by apply put_out_refl|].
    destruct t as [r e]. cbn in E. by subst.
  - rewrite bool_decide_false by done. destruct (exists_last E) as (l & c & E').
    destruct (shows_back _ _ _ _ Hsh E') as (Hsh' & -> & Hc). rewrite (proj2 (Z.eqb_neq _ _) Hc). cbn [negb andb].
    rewrite E', length_app in *. cbn [length] in *.
    eapply wp_ext; [apply bind_assoc|]. wp_step. apply wp_input_echo; [done|]. intros s' H1 E1.
    apply (IH (Tty (ready t) l)); [by eapply put_out_calm|by rewrite E1|cbn; lia|].
    intros s2 H2 Hsh2. apply HQ; [|done]. rewrite Nat.add_comm. exact (put_out_trans _ _ _ _ _ _ _ H1 H2).
Qed.

Lemma tty_wakes_same t e : tty_wakes t (Tty (ready t) e) = [].
Proof. unfold tty_wakes. cbn [ready]. by rewrite Nat.ltb_irrefl. Qed.

Lemma tty_wakes_commit t c : tty_wakes t (Tty (ready t ++ edit t ++ [c]) []) = [CInput].
Proof. unfold tty_wakes. cbn [ready]. rewrite !length_app. cbn [length]. by rewrite (proj2 (Nat.ltb_lt _ _)) by lia. Qed.

Lemma tty_wakes_refl t : tty_wakes t t = [].
Proof. unfold tty_wakes. by rewrite Nat.ltb_irrefl. Qed.

Lemma tty_eta t : t = Tty (ready t) (edit t).
Proof. by destruct t. Qed.

(** The default case of [consoleintr]: an ordinary character. *)
Lemma wp_key_char c t s (Q : bool -> console -> Prop) : calm s -> shows (cn_input s) t -> is_u8 c ->
  tty_room t = true ->
  let i := cn_input s in
  let i' := Input (<[Z.to_nat (in_e i mod INPUT_BUF) := u8 c]> (in_buf i)) (in_r i) (in_w i) (u32 (in_e i + 1)) in
  let t' := if (c =? 10) || (c =? ctl 68) || negb (tty_room (Tty (ready t) (edit t ++ [c])))
            then Tty (ready t ++ edit t ++ [c]) [] else Tty (ready t) (edit t ++ [c]) in
  (forall s', put_out s s' (echo c) (tty_wakes t t') -> shows (cn_input s') t' -> Q false s') ->
  wp (modify (set_cn_input i') ;; consputc c ;;
      (if (c =? 10) || (c =? ctl 68) || (in_e i' =? u32 (in_r i' + INPUT_BUF)) then
         modify (set_cn_input (set_in_w (in_e i') i')) ;; wakeup_cons CInput else ret tt) ;;
      ret false) Q s.
Proof.
  intros Hs Hsh Hc Hroom i i' t' HQ. eapply wp_ext; [apply bind_assoc|]. wp_step.
  apply wp_input_echo; [done|]. intros s1 H1 E1. pose proof (put_out_calm _ _ _ _ H1) as Hs1.
  assert (u8 c = c) as Eu by (by apply Z.mod_small).
  assert ((in_e i' =? u32 (in_r i' + INPUT_BUF)) = negb (tty_room (Tty (ready t) (edit t ++ [c])))) as ->.
  { destruct Hsh as [_ _ _ He Hl _ _]. apply Z.ltb_lt in Hroom. unfold i'. cbn [in_e in_r]. fold i in He. rewrite He, u32_add, <- Z.add_assoc.
    rewrite ring_eqb by (unfold INPUT_BUF in *; lia). unfold tty_room. cbn [ready edit]. rewrite app_assoc, (length_app _ [c]). cbn [length].
    destruct (Z.eqb_spec (Z.of_nat (length (ready t ++ edit t)) + 1) INPUT_BUF); symmetry;
      [apply negb_true_iff, Z.ltb_ge|apply negb_false_iff, Z.ltb_lt]; lia. }
  wp_step. unfold t' in HQ. destruct ((c =? 10) || (c =? ctl 68) || _) eqn:Ec.
  - wp_step. wp_step. unfold wakeup_cons. wp_step. wp_step. pose proof (put_out_input s1 (set_in_w (in_e i') i') Hs1) as H2.
    pose proof (put_out_woken _ CInput (put_out_calm _ _ _ _ H2)) as H3. apply HQ.
    + rewrite tty_wakes_commit. pose proof (put_out_trans _ _ _ _ _ _ _ H1 (put_out_trans _ _ _ _ _ _ _ H2 H3)) as H.
      cbn [app] in H. by rewrite app_nil_r in H.
    + cbn. unfold i'. cbn [in_e]. rewrite Eu. by apply shows_commit.
  - wp_step. wp_step. apply HQ.
    + by rewrite tty_wakes_same.
    + rewrite E1. unfold i'. rewrite Eu. apply shows_add; [done..|]. intros ->. discriminate.
Qed.

Lemma wp_console_key c t s (Q : bool -> console -> Prop) : calm s -> shows (cn_input s) t -> is_u8 c ->
  (forall s', put_out s s' (tty_echo c t) (tty_wakes t (tty_key c t)) ->
     shows (cn_input s') (tty_key c t) -> Q (c =? ctl 80) s') ->
  wp (console_key c) Q s.
Proof.
  intros Hs Hsh Hc. unfold console_key, tty_echo, tty_key.
  destruct (c =? ctl 80) eqn:EP; intros HQ; wp_step; exists s, s; (split; [done|]).
  { wp_step. apply HQ; [|done]. rewrite tty_wakes_refl. by apply put_out_refl. }
  destruct (c =? ctl 85).
  { wp_step. eapply wp_kill_line; [done..| |].
    - destruct Hsh as [_ _ _ _ Hl _ _]. rewrite length_app in Hl. unfold INPUT_BUF in *. lia.
    - intros s' H1 H2. wp_step. rewrite tty_wakes_same in HQ. by apply HQ. }
  destruct ((c =? ctl 72) || (c =? 127)).
  { rewrite (shows_noedit _ _ Hsh). wp_step. rewrite tty_wakes_same in HQ. destruct (decide (edit t = [])) as [E|E].
    - rewrite bool_decide_true in * by done. cbn [negb]. wp_step. wp_step. apply HQ; [by apply put_out_refl|].
      rewrite E. cbn [removelast]. by rewrite <- E, <- tty_eta.
    - rewrite bool_decide_false in * by done. cbn [negb]. destruct (exists_last E) as (l & x & E').
      destruct (shows_back _ _ _ _ Hsh E') as (Hsh' & _ & _). apply wp_input_echo; [done|]. intros s' H1 E1. wp_step.
      apply HQ; [done|]. by rewrite E1, E', removelast_last. }
  rewrite (shows_room _ _ Hsh). destruct (negb (c =? 0) && tty_room t) eqn:Er.
  - apply andb_true_iff in Er as [_ Hroom]. apply (wp_key_char _ t); [done..| |done|exact HQ].
    destruct (c =? 13); [done|done].
  - wp_step. rewrite tty_wakes_refl in HQ. apply HQ; [by apply put_out_refl|done].
Qed.

(** Typing a sequence of characters: the lists, what the terminal shows, and the
    wakeups. *)
Fixpoint tty_type (cs : list Z) (t : tty) : tty * list Z * list chan :=
  match cs with
  | [] => (t, [], [])
  | c :: cs' =>
      let t1 := tty_key c t in
      let '(t2, out, ws) := tty_type cs' t1 in
      (t2, tty_echo c t ++ out, tty_wakes t t1 ++ ws)
  end.

Lemma wp_console_keys cs d t s (Q : bool -> console -> Prop) : calm s -> shows (cn_input s) t -> Forall is_u8 cs ->
  (forall s', put_out s s' (tty_type cs t).1.2 (tty_type cs t).2 -> shows (cn_input s') (tty_type cs t).1.1 ->
     Q (d || existsb (fun c => c =? ctl 80) cs) s') ->
  wp (console_keys cs d) Q s.
Proof.
  revert d t s. induction cs as [|c cs IH]; intros d t s Hs Hsh Hcs HQ; cbn [console_keys tty_type existsb] in *.
  - wp_step. rewrite orb_false_r in HQ. apply HQ; [by apply put_out_refl|done].
  - apply Forall_cons in Hcs as [Hc Hcs]. unfold is_u8 in Hc. rewrite (proj2 (Z.ltb_ge _ _)) by lia.
    wp_step. apply (wp_console_key _ t); [done..|]. intros s1 H1 Hsh1.
    destruct (tty_type cs (tty_key c t)) as [[t2 out] ws] eqn:E.
    apply (IH _ (tty_key c t)); [by eapply put_out_calm|done|done|]. rewrite E. intros s2 H2 Hsh2.
    rewrite <- orb_assoc. apply HQ; [|done]. exact (put_out_trans _ _ _ _ _ _ _ H1 H2).
Qed.

(** [cprintf] writes something and leaves the input alone. *)
Definition writes (m : M console unit) : Prop :=
  forall s, calm s -> wp m (fun _ s' => exists out, outputs s s' out []) s.

Lemma writes_ret : writes (ret tt).
Proof. intros s Hs. wp_step. exists []. split; [by apply put_out_refl|done]. Qed.

Lemma writes_bind m k : writes m -> writes k -> writes (m ;; k).
Proof.
  intros Hm Hk s Hs. wp_step. eapply wp_mono; [by apply Hm|]. intros [] s1 (o1 & H1 & E1).
  eapply wp_mono; [apply Hk; by eapply put_out_calm|]. intros [] s2 (o2 & H2 & E2).
  exists (o1 ++ o2). split; [exact (put_out_trans _ _ _ _ _ _ _ H1 H2)|congruence].
Qed.

Lemma writes_putc c : writes (consputc c).
Proof. intros s Hs. apply wp_consputc; [done|]. eauto. Qed.

Lemma writes_puts l : writes (consputs l).
Proof. induction l; [apply writes_ret|]. by apply writes_bind; [apply writes_putc|]. Qed.

Lemma writes_loop fmt args : writes (cprintf_loop fmt args).
Proof.
  revert args. induction fmt as [fmt IH] using (induction_ltof1 _ (@length Z)). unfold ltof in IH. intros args.
  destruct fmt as [|c fmt]; cbn [cprintf_loop]; [apply writes_ret|].
  repeat case_match; auto using writes_ret, writes_bind, writes_putc, writes_puts;
    repeat (apply writes_bind; [first [apply writes_putc|apply writes_puts]|]); apply IH; subst; simpl; lia.
Qed.

(** Code that runs with [cons.lock] free. *)
Definition prints_free (m : M console unit) : Prop :=
  forall s, calm s -> cn_lock s = false -> wp m (fun _ s' => exists out, outputs s s' out []) s.

Lemma free_bind m k : prints_free m -> prints_free k -> prints_free (m ;; k).
Proof.
  intros Hm Hk s Hs Hl. wp_step. eapply wp_mono; [by apply Hm|]. intros [] s1 (o1 & H1 & E1).
  eapply wp_mono; [apply Hk; [by eapply put_out_calm|by rewrite (po_lock _ _ _ _ H1)]|]. intros [] s2 (o2 & H2 & E2).
  exists (o1 ++ o2). split; [exact (put_out_trans _ _ _ _ _ _ _ H1 H2)|congruence].
Qed.

Lemma free_ret : prints_free (ret tt).
Proof. intros s Hs _. by apply writes_ret. Qed.

Lemma wp_acquire_cons (Q : unit -> console -> Prop) s :
  cn_lock s = false -> Q tt (set_cn_lock true s) -> wp acquire_cons Q s.
Proof. intros Hl HQ. exists tt, (set_cn_lock true s). split; [|done]. unfold acquire_cons, acquire. by rewrite Hl. Qed.

Lemma wp_release_cons (Q : unit -> console -> Prop) s :
  cn_lock s = true -> Q tt (set_cn_lock false s) -> wp release_cons Q s.
Proof. intros Hl HQ. exists tt, (set_cn_lock false s). split; [|done]. unfold release_cons, release. by rewrite Hl. Qed.

(** A stretch of output with the lock held. *)
Lemma put_out_locked s s' out ws : cn_lock s = false -> put_out (set_cn_lock true s) s' out ws ->
  cn_lock s' = true /\ put_out s (set_cn_lock false s') out ws.
Proof. intros Hl []. split; [done|]. by split. Qed.

Lemma free_cprintf fmt args : prints_free (cprintf fmt args).
Proof.
  intros s Hs Hl. unfold cprintf. wp_step. exists s, s. split; [done|]. destruct (cn_locking s).
  - wp_step. apply wp_acquire_cons; [done|]. wp_step. eapply wp_mono; [by apply writes_loop|].
    intros [] s1 (out & H1 & E1). destruct (put_out_locked _ _ _ _ Hl H1) as [Hl1 H2].
    apply wp_release_cons; [done|]. by exists out.
  - cbn [when]. wp_step. wp_step. wp_step. eapply wp_mono; [by apply writes_loop|]. intros [] s1 H1. by wp_step.
Qed.

Lemma free_procdump m ebp k ps : prints_free (procdump m ebp k ps).
Proof.
  revert k. induction ps as [|p ps IH]; intros k; cbn [procdump]; [apply free_ret|]. apply free_bind; [|done].
  case_match; [apply free_ret|]. apply free_bind; [apply free_cprintf|]. apply free_bind; [|apply free_cprintf].
  case_match; [|apply free_ret]. induction (getcallerpcs _ _) as [|x pc IHpc]; cbn [dump_pcs]; [apply free_ret|].
  case_match; [apply free_ret|]. by apply free_bind; [apply free_cprintf|].
Qed.

(** [consoleintr]: the terminal shows the echo, and the process listing after it
    if Control-P was among the keys. *)
Lemma wp_consoleintr pd cs t s (Q : unit -> console -> Prop) : prints_free pd ->
  calm s -> cn_lock s = false -> shows (cn_input s) t -> Forall is_u8 cs ->
  (forall s' dump, put_out s s' ((tty_type cs t).1.2 ++ dump) (tty_type cs t).2 ->
     (existsb (fun c => c =? ctl 80) cs = false -> dump = []) ->
     shows (cn_input s') (tty_type cs t).1.1 -> Q tt s') ->
  wp (consoleintr pd cs) Q s.
Proof.
  intros Hpd Hs Hl Hsh Hcs HQ. unfold consoleintr. wp_step. apply wp_acquire_cons; [done|]. wp_step.
  apply (wp_console_keys _ _ t); [done..|]. intros s1 H1 Hsh1. destruct (put_out_locked _ _ _ _ Hl H1) as [Hl1 H2].
  wp_step. apply wp_release_cons; [done|]. apply wp_when; cbn [orb]; intros Hd.
  - eapply wp_mono; [apply Hpd; [by eapply put_out_calm|done]|]. intros [] s2 (out & H3 & E3).
    apply (HQ s2 out); [|congruence|by rewrite E3]. pose proof (put_out_trans _ _ _ _ _ _ _ H2 H3) as H.
    by rewrite app_nil_r in H.
  - apply (HQ _ []); [by rewrite app_nil_r|done|done].
Qed.

(** * Reading *)

Lemma shows_take i c l e : shows i (Tty (c :: l) e) ->
  in_at i (in_r i) = c /\ shows (set_in_r (u32 (in_r i + 1)) i) (Tty l e) /\ u32 (u32 (in_r i + 1) - 1) = in_r i.
Proof.
  intros [Hb Hr Hw He Hl Hat Hln]. cbn [ready edit app length] in *. split; [by eapply ring_front|]. split.
  - split; cbn [set_in_r in_buf in_r in_w in_e ready edit]; try done.
    + by apply Z.mod_pos_bound.
    + rewrite Hw, u32_add. f_equal. lia.
    + rewrite He, u32_add. f_equal. lia.
    + lia.
    + by apply (ring_pop INPUT_BUF eq_refl input_div _ _ c).
  - rewrite <- Z.add_opp_r, u32_add. rewrite <- Z.add_assoc, Z.add_0_r. by apply u32_same.
Qed.

Lemma wp_read_done target n bytes s (Q : cread -> console -> Prop) : cn_lock s = true ->
  Q (CDone (i32 (target - n)) bytes) (set_cn_ip true (set_cn_lock false s)) -> wp (read_done target n bytes) Q s.
Proof. intros Hl HQ. unfold read_done, ilock_cons. wp_step. apply wp_release_cons; [done|]. wp_step. wp_step. by wp_step. Qed.

(** Whether a stretch of a read has returned. *)
Definition done_read (r : cread) : bool := match r with CDone _ _ => true | CWait _ _ => false end.

Lemma wp_consoleread_loop killed target k bytes l e s (Q : cread -> console -> Prop) :
  cn_lock s = true -> cn_ip s = false -> shows (cn_input s) (Tty l e) ->
  Z.of_nat k <= target < 2 ^ 31 ->
  (forall i, shows i (Tty (tty_read killed target k bytes l).2 e) ->
     Q (tty_read killed target k bytes l).1
       (set_cn_ip (done_read (tty_read killed target k bytes l).1) (set_cn_lock false (set_cn_input i s)))) ->
  wp (consoleread_loop killed target (Z.of_nat k) bytes k) Q s.
Proof.
  revert bytes l s. induction k as [|k IH]; intros bytes l s Hl Hip Hsh Ht HQ; cbn [consoleread_loop].
  - apply wp_read_done; [done|].
    assert (i32 (target - Z.of_nat 0) = target) as -> by (unfold i32; rewrite Z.mod_small; lia).
    specialize (HQ (cn_input s)). cbn [tty_read fst snd done_read] in HQ. destruct s. apply HQ. done.
  - wp_step. exists s, s. split; [done|]. rewrite (shows_empty _ _ Hsh). cbn [ready]. destruct l as [|c l].
    + rewrite bool_decide_true by done. specialize (HQ (cn_input s)). cbn [tty_read fst snd] in HQ. specialize (HQ Hsh).
      destruct killed; wp_step; (apply wp_release_cons; [done|]); unfold ilock_cons; repeat wp_step; destruct s; try done.
      cbn in Hip. by subst.
    + rewrite bool_decide_false by done. destruct (shows_take _ _ _ _ Hsh) as (-> & Hsh1 & Er). wp_step. wp_step.
      assert (forall z, 0 <= z < 2 ^ 31 -> i32 z = z) as Hi by (intros; unfold i32; rewrite Z.mod_small; lia).
      cbn [tty_read] in HQ. destruct (c =? ctl 68).
      * rewrite u32_same by (unfold is_u32; lia). cbn [fst snd done_read] in HQ. wp_step.
        destruct (Z.of_nat (S k) <? target); [wp_step|wp_step]; (apply wp_read_done; [done|]); rewrite Hi by lia;
          [specialize (HQ (cn_input s) Hsh)|specialize (HQ _ Hsh1)]; destruct s as [? ? ? [] ? ? ? ? ?]; cbn in *;
          rewrite ?Er; done.
      * replace (Z.of_nat (S k) - 1) with (Z.of_nat k) by lia. destruct (c =? 10).
        -- apply wp_read_done; [done|]. rewrite Hi by lia. specialize (HQ _ Hsh1). by destruct s.
        -- apply (IH _ l); [done|done|done|lia|]. intros i Hi'. specialize (HQ i Hi'). by destruct s.
Qed.

(** * From the keyboard to the reader *)

(** What [kbdgetc] returns for the waiting scan codes. *)
Fixpoint kbd_codes (shift : Z) (ds : list Z) : list Z * Z :=
  match ds with
  | [] => ([], shift)
  | d :: ds' => let '(c, sh) := kbd_data shift d in let '(cs, sh') := kbd_codes sh ds' in (c :: cs, sh')
  end.

Lemma kbd_codes_app shift ds1 ds2 :
  kbd_codes shift (ds1 ++ ds2) =
  let '(cs1, sh) := kbd_codes shift ds1 in let '(cs2, sh') := kbd_codes sh ds2 in (cs1 ++ cs2, sh').
Proof.
  revert shift. induction ds1 as [|d ds1 IH]; intros shift; cbn [app kbd_codes]; [by destruct (kbd_codes shift ds2)|].
  destruct (kbd_data shift d) as [c sh]. rewrite IH. destruct (kbd_codes sh ds1) as [cs1 sh1].
  by destruct (kbd_codes sh1 ds2).
Qed.

Lemma tables_u8 : Forall (Forall is_u8) [normalmap; shiftmap; ctlmap; ctlmap].
Proof.
  assert (forallb (forallb (fun c => (0 <=? c) && (c <? 256))) [normalmap; shiftmap; ctlmap; ctlmap] = true) as H by (vm_compute; reflexivity).
  rewrite forallb_forall in H. apply Forall_forall. intros t Ht. apply Forall_forall. intros c Hc.
  specialize (H t ltac:(by apply list_elem_of_In)). rewrite forallb_forall in H.
  specialize (H c ltac:(by apply list_elem_of_In)). unfold is_u8. lia.
Qed.

Lemma nth_Forall {A} (P : A -> Prop) (l : list A) d n : Forall P l -> P d -> P (nth n l d).
Proof. intros Hl Hd. revert n. induction Hl; intros [|n]; cbn; auto. Qed.

Lemma kbd_data_u8 shift d : is_u8 (kbd_data shift d).1.
Proof.
  unfold kbd_data. case_match; [done|]. case_match; [done|]. cbv zeta. cbn [fst].
  set (c := at_code (nth _ _ _) _). assert (is_u8 c) as Hc.
  { unfold c, at_code. apply nth_Forall; [|done]. apply nth_Forall; [apply tables_u8|constructor]. }
  clearbody c. unfold is_u8, u32 in *. repeat case_match; try done; rewrite Z.mod_small; lia.
Qed.

Lemma kbd_codes_u8 shift ds : Forall is_u8 (kbd_codes shift ds).1.
Proof.
  revert shift. induction ds as [|d ds IH]; intros shift; cbn [kbd_codes]; [constructor|].
  pose proof (kbd_data_u8 shift d) as Hd. destruct (kbd_data shift d) as [c sh]. specialize (IH sh).
  destruct (kbd_codes sh ds) as [cs sh']. by constructor.
Qed.

(** [getc] has been called enough. *)
Lemma getc_all_codes k fuel : (length (kb_pending k) < fuel)%nat ->
  getc_all fuel k = ((kbd_codes (kb_shift k) (kb_pending k)).1, Kbd (kbd_codes (kb_shift k) (kb_pending k)).2 []).
Proof.
  destruct k as [shift ds]. cbn [kb_pending kb_shift]. revert shift ds.
  induction fuel as [|f IH]; intros shift ds Hf; [lia|]. cbn [getc_all]. unfold kbdgetc. cbn [kb_pending kb_shift].
  destruct ds as [|d ds]; [done|]. cbn [kbd_codes]. pose proof (kbd_data_u8 shift d) as Hd.
  destruct (kbd_data shift d) as [c sh]. cbn [fst] in Hd. unfold is_u8 in Hd. rewrite (proj2 (Z.ltb_ge _ _)) by lia.
  rewrite IH by (cbn in Hf; lia). by destruct (kbd_codes sh ds).
Qed.

(** A character, a correction of the last one, or of the whole line. *)
Inductive stroke : Type :=
| Ch (c : Z)
| Bs
| Kill.

(** The first key of the main block that gives [c] in a table. *)
Definition key_of (t : list Z) (c : Z) : option Z :=
  (fun p => Z.of_nat p.1) <$> list_find (fun x => x = c) (take 128 t).

(** The scan codes of pressing and releasing a key, with Shift held for the
    characters of the second table, and Control for Control-U. *)
Definition scan_char (c : Z) : list Z :=
  match key_of normalmap c, key_of shiftmap c with
  | Some d, _ => [d; d + 128]
  | None, Some d => [0x2A; d; d + 128; 0xAA]
  | None, None => []
  end.

Definition scan (e : stroke) : list Z :=
  match e with
  | Ch c => scan_char c
  | Bs => scan_char 8
  | Kill => [0x1D; 0x16; 0x96; 0x9D]
  end.

Definition stroke_code (e : stroke) : Z := match e with Ch c => c | Bs => 8 | Kill => 21 end.

Definition printable (e : stroke) : Prop := match e with Ch c => 32 <= c <= 126 | _ => True end.

(** The line after a stroke. *)
Definition edit1 (l : list Z) (e : stroke) : list Z :=
  match e with Ch c => l ++ [c] | Bs => removelast l | Kill => [] end.

Definition nonzero (l : list Z) : list Z := filter (fun c => c <> 0) l.

(** Every printable character has a key; its scan codes give that character and
    nothing else, and leave no modifier behind. *)
Lemma scan_stroke e : printable e ->
  nonzero (kbd_codes 0 (scan e)).1 = [stroke_code e] /\ (kbd_codes 0 (scan e)).2 = 0.
Proof.
  destruct e as [c| |]; cbn [printable scan stroke_code]; [|intros _; vm_compute; done..]. intros Hc.
  assert (forall k : nat, (k < 95)%nat -> let c := 32 + Z.of_nat k in
    bool_decide (nonzero (kbd_codes 0 (scan_char c)).1 = [c]) && ((kbd_codes 0 (scan_char c)).2 =? 0) = true) as H.
  { assert (forallb (fun k : nat => let c := 32 + Z.of_nat k in
      bool_decide (nonzero (kbd_codes 0 (scan_char c)).1 = [c]) && ((kbd_codes 0 (scan_char c)).2 =? 0)) (seq 0 95) = true) as H
      by (vm_compute; reflexivity).
    rewrite forallb_forall in H. intros k Hk. apply H. apply in_seq. lia. }
  specialize (H (Z.to_nat (c - 32)) ltac:(lia)). cbv zeta in H. rewrite Z2Nat.id in H by lia.
  replace (32 + (c - 32)) with c in H by lia. apply andb_true_iff in H as [H1%bool_decide_eq_true H2%Z.eqb_eq]. done.
Qed.

Lemma scan_strokes es : Forall printable es ->
  nonzero (kbd_codes 0 (concat (scan <$> es))).1 = stroke_code <$> es /\ (kbd_codes 0 (concat (scan <$> es))).2 = 0.
Proof.
  induction 1 as [|e es He Hes [IH1 IH2]]; [done|]. cbn [fmap list_fmap concat]. rewrite kbd_codes_app.
  destruct (scan_stroke e He) as [H1 H2]. destruct (kbd_codes 0 (scan e)) as [cs1 sh]. cbn [fst snd] in *. subst sh.
  destruct (kbd_codes 0 (concat (scan <$> es))) as [cs2 sh']. cbn [fst snd] in *. split; [|done].
  unfold nonzero in *. by rewrite filter_app, H1, IH1.
Qed.

Lemma tty_type_app cs1 cs2 t :
  (tty_type (cs1 ++ cs2) t).1.1 = (tty_type cs2 (tty_type cs1 t).1.1).1.1 /\
  (tty_type (cs1 ++ cs2) t).2 = (tty_type cs1 t).2 ++ (tty_type cs2 (tty_type cs1 t).1.1).2.
Proof.
  revert t. induction cs1 as [|c cs1 IH]; intros t; cbn [app tty_type]; [done|]. specialize (IH (tty_key c t)).
  destruct (tty_type (cs1 ++ cs2) (tty_key c t)) as [[t2 o2] w2]. destruct (tty_type cs1 (tty_key c t)) as [[t1 o1] w1].
  cbn [fst snd] in *. destruct IH as [-> ->]. by rewrite app_assoc.
Qed.

(** A zero from [getc] is ignored. *)
Lemma tty_type_nonzero cs t :
  (tty_type cs t).1.1 = (tty_type (nonzero cs) t).1.1 /\ (tty_type cs t).2 = (tty_type (nonzero cs) t).2.
Proof.
  revert t. induction cs as [|c cs IH]; intros t; [done|]. cbn [tty_type]. unfold nonzero in *.
  destruct (decide (c = 0)) as [->|Hc].
  - rewrite filter_cons_False by (intros H; by apply H). change (tty_key 0 t) with t. rewrite tty_wakes_refl.
    specialize (IH t). by destruct (tty_type cs t) as [[t2 o2] w2].
  - rewrite filter_cons_True by done. cbn [tty_type]. specialize (IH (tty_key c t)).
    destruct (tty_type cs (tty_key c t)) as [[t2 o2] w2]. destruct (tty_type (filter _ cs) (tty_key c t)) as [[t3 o3] w3].
    cbn [fst snd] in *. by destruct IH as [-> ->].
Qed.

Lemma tty_key_stroke e t : printable e -> (length (ready t ++ edit1 (edit t) e) <= 127)%nat ->
  tty_key (stroke_code e) t = Tty (ready t) (edit1 (edit t) e).
Proof.
  destruct e as [c| |]; cbn [printable stroke_code edit1]; [|done..]. intros Hc Hl. unfold tty_key, tty_room.
  rewrite app_assoc, length_app in Hl. cbn [length] in Hl. cbn [ready edit].
  repeat (rewrite (proj2 (Z.eqb_neq c _)) by (unfold ctl; lia); cbn [orb negb andb]).
  rewrite (proj2 (Z.ltb_lt _ _)) by (unfold INPUT_BUF; lia). cbn [orb negb andb].
  repeat (rewrite (proj2 (Z.eqb_neq c _)) by (unfold ctl; lia); cbn [orb negb andb]).
  rewrite (proj2 (Z.ltb_lt _ _)); [done|]. rewrite app_assoc, length_app. cbn [length]. unfold INPUT_BUF. lia.
Qed.

Lemma tty_type_strokes es t : Forall printable es ->
  (forall k, (length (ready t ++ fold_left edit1 (take k es) (edit t)) <= 127)%nat) ->
  (tty_type (stroke_code <$> es) t).1.1 = Tty (ready t) (fold_left edit1 es (edit t)) /\
  (tty_type (stroke_code <$> es) t).2 = [].
Proof.
  intros Hes. revert t. induction Hes as [|e es He Hes IH]; intros t Hl; cbn [fmap list_fmap tty_type fold_left].
  { split; [apply tty_eta|done]. }
  rewrite (tty_key_stroke e t He (Hl 1%nat)), tty_wakes_same.
  destruct (IH (Tty (ready t) (edit1 (edit t) e))) as [H1 H2]; [intros k; exact (Hl (S k))|].
  destruct (tty_type (stroke_code <$> es) (Tty (ready t) (edit1 (edit t) e))) as [[t2 o] w]. cbn [fst snd] in *. by subst.
Qed.

(** A whole line is read in one piece. *)
Lemma tty_read_line l bytes n target : Forall (fun c => c <> 10 /\ c <> 4) l -> (length l < n)%nat ->
  tty_read false target n bytes (l ++ [10]) = (CDone (target - Z.of_nat n + Z.of_nat (length l) + 1) (bytes ++ l ++ [10]), []).
Proof.
  intros Hl. revert n bytes. induction Hl as [|c l [Hc1 Hc2] Hl IH]; intros n bytes Hn; (destruct n as [|n]; [lia|]); cbn [app tty_read].
  - cbn. do 3 f_equal. lia.
  - rewrite !(proj2 (Z.eqb_neq c _)) by done. rewrite IH by (cbn in Hn; lia). rewrite <- app_assoc. cbn [app length]. do 3 f_equal. lia.
Qed.

Lemma line_chars es l : Forall printable es -> Forall (fun c => c <> 10 /\ c <> 4) l ->
  Forall (fun c => c <> 10 /\ c <> 4) (fold_left edit1 es l).
Proof.
  intros Hes. revert l. induction Hes as [|e es He Hes IH]; intros l Hl; [done|]. cbn [fold_left]. apply IH.
  destruct e as [c| |]; cbn [edit1 printable] in *; [|  |constructor].
  - apply Forall_app. split; [done|]. repeat constructor; lia.
  - destruct (decide (l = [])) as [->|Hne]; [constructor|]. destruct (exists_last Hne) as (l' & x & ->).
    rewrite removelast_last. by apply Forall_app in Hl as [Hl _].
Qed.

(** * The console as a whole *)

(** One step of the console: an interrupt with some characters, a read of [n]
    bytes by a process that [fileread] has given the inode lock to, or the end of
    the [sleep] of such a read. *)
Inductive cop : Type :=
| OKeys (cs : list Z)
| ORead (killed : bool) (n : Z)
| OResume (killed : bool) (target n : Z) (bytes : list Z).

Definition cop_ok (o : cop) : Prop :=
  match o with
  | OKeys cs => Forall is_u8 cs
  | ORead _ n => n < 2 ^ 31
  | OResume _ target n _ => 0 <= n <= target /\ target < 2 ^ 31
  end.

(** [fileread] unlocks the inode when the read has returned. *)
Definition cunlock (r : cread) : M console unit := if done_read r then iunlock_cons else ret tt.

Definition cop_run (pd : M console unit) (o : cop) : M console (option cread * list chan) :=
  modify (set_cn_woken []) ;;
  r <- match o with
       | OKeys cs => consoleintr pd cs ;; ret None
       | ORead killed n => ilock_cons ;; r <- consoleread killed n ;; cunlock r ;; ret (Some r)
       | OResume killed target n bytes => r <- consoleread_resume killed target n bytes ;; cunlock r ;; ret (Some r)
       end ;;
  s <- mget ;;
  ret (r, cn_woken s).

Fixpoint cops_run (pd : M console unit) (os : list cop) : M console (list (option cread * list chan)) :=
  match os with
  | [] => ret []
  | o :: os' => x <- cop_run pd o ;; xs <- cops_run pd os' ;; ret (x :: xs)
  end.

(** The same steps of the pair of lists. *)
Definition tty_op (o : cop) (t : tty) : (option cread * list chan) * tty :=
  match o with
  | OKeys cs => ((None, (tty_type cs t).2), (tty_type cs t).1.1)
  | ORead killed n =>
      let '(r, l) := tty_read killed (Z.max 0 n) (Z.to_nat n) [] (ready t) in ((Some r, []), Tty l (edit t))
  | OResume killed target n bytes =>
      let '(r, l) := tty_read killed target (Z.to_nat n) bytes (ready t) in ((Some r, []), Tty l (edit t))
  end.

Fixpoint tty_ops (os : list cop) (t : tty) : list (option cread * list chan) * tty :=
  match os with
  | [] => ([], t)
  | o :: os' => let '(x, t1) := tty_op o t in let '(xs, t2) := tty_ops os' t1 in (x :: xs, t2)
  end.

(** The console between two steps shows the lists of [t]. *)
Record console_rel (s : console) (t : tty) : Prop := ConsoleRel {
  cr_calm : calm s;
  cr_lock : cn_lock s = false;
  cr_ip : cn_ip s = false;
  cr_shows : shows (cn_input s) t
}.

Lemma wp_cread_op killed target n bytes t s (Q : cread -> console -> Prop) :
  calm s -> cn_lock s = true -> cn_ip s = false -> shows (cn_input s) t -> 0 <= n <= target -> target < 2 ^ 31 ->
  (forall s', console_rel s' (Tty (tty_read killed target (Z.to_nat n) bytes (ready t)).2 (edit t)) ->
     cn_woken s' = cn_woken s -> Q (tty_read killed target (Z.to_nat n) bytes (ready t)).1 s') ->
  wp (consoleread_loop killed target n bytes (Z.to_nat n)) (fun r s' => wp (cunlock r) (fun _ => Q r) s') s.
Proof.
  intros [Hp Hg] Hl Hip Hsh Hn Ht HQ. rewrite <- (Z2Nat.id n) at 1 by lia.
  apply (wp_consoleread_loop _ _ _ _ (ready t) (edit t)); [done|done|by rewrite <- tty_eta|lia|].
  destruct (tty_read killed target (Z.to_nat n) bytes (ready t)) as [r l]. cbn [fst snd] in *. intros i Hi.
  unfold cunlock, iunlock_cons. destruct (done_read r); wp_step.
  - eexists _, _. split; [reflexivity|]. cbn [cn_ip set_cn_ip]. wp_step. by apply HQ.
  - by apply HQ.
Qed.

(** A read of no bytes, or of a negative number of them. *)
Lemma wp_cread_none killed n t s (Q : cread -> console -> Prop) :
  calm s -> cn_lock s = true -> shows (cn_input s) t -> n <= 0 ->
  (forall s', console_rel s' t -> cn_woken s' = cn_woken s -> Q (CDone 0 []) s') ->
  wp (consoleread_loop killed (u32 n) n [] (Z.to_nat n)) (fun r s' => wp (cunlock r) (fun _ => Q r) s') s.
Proof.
  intros [Hp Hg] Hl Hsh Hn HQ. replace (Z.to_nat n) with 0%nat by lia. cbn [consoleread_loop].
  apply wp_read_done; [done|]. unfold cunlock, iunlock_cons. cbn [done_read]. wp_step.
  eexists _, _. split; [reflexivity|]. cbn [cn_ip set_cn_ip]. wp_step.
  assert (i32 (u32 n - n) = 0) as ->; [|by apply HQ].
  unfold i32, u32. pose proof (Z.div_mod n (2 ^ 32) ltac:(lia)).
  replace (n mod 2 ^ 32 - n + 2 ^ 31) with (2 ^ 31 + (- (n / 2 ^ 32)) * 2 ^ 32) by lia.
  by rewrite Z.mod_add by lia.
Qed.

Lemma wp_cop pd o t s (Q : option cread * list chan -> console -> Prop) : prints_free pd -> cop_ok o ->
  console_rel s t -> (forall s', console_rel s' (tty_op o t).2 -> Q (tty_op o t).1 s') -> wp (cop_run pd o) Q s.
Proof.
  intros Hpd Ho [Hc Hl Hip Hsh] HQ. unfold cop_run. wp_step. wp_step. wp_step.
  assert (forall r s', console_rel s' (tty_op o t).2 -> (r, cn_woken s') = (tty_op o t).1 ->
    wp (s0 <- mget ;; ret (r, cn_woken s0)) Q s') as Hend.
  { intros r s' Hs' E. wp_step. exists s', s'. split; [done|]. wp_step. rewrite E. by apply HQ. }
  destruct o as [cs|killed n|killed target n bytes]; cbn [cop_ok tty_op] in *.
  - wp_step. apply (wp_consoleintr _ _ t); [done..|]. intros s' dump H1 _ H2. wp_step. apply Hend.
    + split; [by eapply put_out_calm|by rewrite (po_lock _ _ _ _ H1)|by rewrite (po_ip _ _ _ _ H1)|done].
    + by rewrite (po_woken _ _ _ _ H1).
  - wp_step. unfold ilock_cons. wp_step. wp_step. unfold consoleread. wp_step. unfold iunlock_cons. wp_step.
    eexists _, _. split; [reflexivity|]. cbn [cn_ip set_cn_ip]. wp_step. wp_step. apply wp_acquire_cons; [done|].
    destruct (Z.le_gt_cases n 0) as [Hn|Hn].
    + eapply wp_mono; [apply (wp_cread_none _ _ t); [done..|]|].
      2: { intros r s' H. wp_step. eapply wp_mono; [exact H|]. intros [] s2 H2. wp_step. exact H2. }
      intros s' Hs' Hw. cbn beta. replace (Z.to_nat n) with 0%nat in * by lia. rewrite Z.max_l in * by lia. apply Hend; cbn [tty_read fst snd]; [by rewrite <- tty_eta|by rewrite Hw].
    + rewrite Z.max_r in * by lia. rewrite u32_same by (unfold is_u32; lia).
      eapply wp_mono; [apply (wp_cread_op _ _ _ _ t); [done..|lia|lia|]|].
      2: { intros r s' H. wp_step. eapply wp_mono; [exact H|]. intros [] s2 H2. wp_step. exact H2. }
      intros s' Hs' Hw. destruct (tty_read _ _ _ _ _) as [r l]. apply Hend; [done|by rewrite Hw].
  - wp_step. unfold consoleread_resume. wp_step. apply wp_acquire_cons; [done|].
    eapply wp_mono; [apply (wp_cread_op _ _ _ _ t); [done..|lia|lia|]|].
    2: { intros r s' H. wp_step. eapply wp_mono; [exact H|]. intros [] s2 H2. wp_step. exact H2. }
    intros s' Hs' Hw. destruct (tty_read _ _ _ _ _) as [r l]. apply Hend; [done|by rewrite Hw].
Qed.

Lemma wp_cops pd os t s (Q : list (option cread * list chan) -> console -> Prop) : prints_free pd -> Forall cop_ok os ->
  console_rel s t -> (forall s', console_rel s' (tty_ops os t).2 -> Q (tty_ops os t).1 s') -> wp (cops_run pd os) Q s.
Proof.
  intros Hpd Hos. revert t s Q. induction Hos as [|o os Ho Hos IH]; intros t s Q Hs HQ; cbn [cops_run tty_ops] in *.
  - wp_step. by apply HQ.
  - wp_step. apply (wp_cop _ _ t); [done..|]. intros s1 H1. wp_step. destruct (tty_op o t) as [x t1]. cbn [fst snd] in *.
    apply (IH t1); [done|]. intros s2 H2. wp_step. destruct (tty_ops os t1) as [xs t2]. by apply HQ.
Qed.

(** The console after boot: no input, the cursor on the screen. *)
Definition booted (s : console) : Prop :=
  calm s /\ cn_ip s = false /\ length (in_buf (cn_input s)) = Z.to_nat INPUT_BUF /\
  in_r (cn_input s) = 0 /\ in_w (cn_input s) = 0 /\ in_e (cn_input s) = 0.

Lemma booted_rel s : booted s ->
  exists s', consoleinit s = Ok tt s' /\ console_rel s' (Tty [] []).
Proof.
  intros ([Hp Hg] & Hip & Hb & Hr & Hw & He). eexists. split; [reflexivity|]. split; [done|done|done|].
  cbn. split; cbn; rewrite ?Hr, ?Hw, ?He; try done; constructor.
Qed.

(** C35. The line editor is right.  From boot, every sequence of keyboard and
    serial interrupts, reads and ends of sleeps runs without a panic, a deadlock
    on [cons.lock] or a wrapped counter going wrong, and each step gives exactly
    the result, and makes exactly the wakeups, of the pair of lists [tty]: a
    queue of committed bytes and the line being edited.  (The process listing of
    Control-P only writes to the terminal.) *)
Theorem console_implements_tty (m : mem) (ebp : nat -> Z) (ps : list proc) (s : console) (os : list cop) :
  booted s -> Forall cop_ok os ->
  exists s', (consoleinit ;; cops_run (procdump m ebp 0 ps) os) s = Ok (tty_ops os (Tty [] [])).1 s' /\
    console_rel s' (tty_ops os (Tty [] [])).2.
Proof.
  intros (s1 & E & Hs1)%booted_rel Hos. rewrite (bind_ok _ _ _ _ _ E).
  destruct (wp_cops (procdump m ebp 0 ps) os _ s1 (fun xs s' => xs = (tty_ops os (Tty [] [])).1 /\
    console_rel s' (tty_ops os (Tty [] [])).2) (free_procdump _ _ _ _) Hos Hs1) as (xs & s' & E' & -> & H); eauto.
Qed.

Definition demo_console : console :=
  Console false false false (Input (replicate 128 0) 0 0 0) (Cga 7 80 (replicate 2000 0)) true [] false [].

Lemma demo_booted : booted demo_console.
Proof. repeat split; try done; unfold is_u8; cbn; lia. Qed.

(** A line is typed and read; a read of a second one sleeps, is woken by
    Control-D, and returns no bytes. *)
Definition demo_ops : list cop :=
  [OKeys [104; 120; 8; 105; 13]; ORead false 10; ORead false 10; OKeys [4]; OResume false 10 10 []].

Lemma console_implements_tty_witness :
  (exists s', (consoleinit ;; cops_run (procdump ∅ (fun _ => 0) 0 []) demo_ops) demo_console =
     Ok (tty_ops demo_ops (Tty [] [])).1 s' /\ console_rel s' (tty_ops demo_ops (Tty [] [])).2) /\
  (tty_ops demo_ops (Tty [] [])).1 =
    [(None, [CInput]); (Some (CDone 3 [104; 105; 10]), []); (Some (CWait 10 []), []);
     (None, [CInput]); (Some (CDone 0 []), [])].
Proof.
  split; [|vm_compute; reflexivity]. apply (console_implements_tty ∅ (fun _ => 0) [] demo_console demo_ops demo_booted).
  repeat constructor; unfold is_u8; cbn; lia.
Defined.

(** The codes of a typed line commit it. *)
Lemma typed_line es : Forall printable es -> (forall k, (length (fold_left edit1 (take k es) []) <= 127)%nat) ->
  (kbd_codes 0 (concat (scan <$> es) ++ scan_char 10)).2 = 0 /\
  (tty_type (kbd_codes 0 (concat (scan <$> es) ++ scan_char 10)).1 (Tty [] [])).1.1 = Tty (fold_left edit1 es [] ++ [10]) [].
Proof.
  intros Hes Hfit. destruct (scan_strokes es Hes) as [H1 H2]. rewrite kbd_codes_app.
  destruct (kbd_codes 0 (concat (scan <$> es))) as [cs sh]. cbn [fst snd] in *. subst sh.
  destruct (kbd_codes 0 (scan_char 10)) as [cs' sh'] eqn:E. vm_compute in E. injection E as <- <-. cbn [fst snd]. split; [done|].
  rewrite (proj1 (tty_type_app cs [10; 0] _)), (proj1 (tty_type_nonzero cs _)), H1.
  rewrite (proj1 (tty_type_strokes es (Tty [] []) Hes Hfit)). cbn [ready edit].
  pose proof (Hfit (length es)) as Hl. rewrite take_ge in Hl by lia. set (l := fold_left edit1 es []) in *.
  assert (tty_key 10 (Tty [] l) = Tty (l ++ [10]) []) as E; [|cbn [tty_type]; by rewrite E].
  unfold tty_key, tty_room. cbn [ready edit app]. rewrite (proj2 (Z.ltb_lt _ _)) by (unfold INPUT_BUF; lia). done.
Qed.

(** What is typed is what is read.  For every sequence of printable
    characters, backspaces and line kills on the keyboard, ended by Enter, whose
    line never grows beyond 127 characters, the scan codes go through [kbdgetc]
    and [consoleintr], and a reader with room for the line then gets the edited
    line with its newline, in one piece; nothing is left behind. *)
Theorem keyboard_line (pd : M console unit) (s : console) (es : list stroke) (n : Z) :
  prints_free pd -> console_rel s (Tty [] []) -> Forall printable es ->
  (forall k, (length (fold_left edit1 (take k es) []) <= 127)%nat) ->
  let line := fold_left edit1 es [] in
  Z.of_nat (length line) < n < 2 ^ 31 ->
  exists k' s1 s2, kbdintr pd (Kbd 0 (concat (scan <$> es) ++ scan_char 10)) s = Ok k' s1 /\ k' = Kbd 0 [] /\
    cop_run pd (ORead false n) s1 = Ok (Some (CDone (Z.of_nat (length line) + 1) (line ++ [10])), []) s2 /\
    console_rel s2 (Tty [] []).
Proof.
  intros Hpd [Hc Hl Hip Hsh] Hes Hfit line Hn. destruct (typed_line es Hes Hfit) as [Hsh0 Ht]. fold line in Ht.
  unfold kbdintr. rewrite getc_all_codes by (cbn [kb_pending]; lia). cbn [kb_shift kb_pending]. rewrite Hsh0.
  set (cs := (kbd_codes 0 _).1) in *.
  destruct (wp_consoleintr pd cs (Tty [] []) s (fun _ s1 => console_rel s1 (Tty (line ++ [10]) []))) as ([] & s1 & E1 & H1);
    [done|done|done|done|apply kbd_codes_u8| |].
  { rewrite Ht. intros s1 dump H1 _ H2. split; [by eapply put_out_calm|by rewrite (po_lock _ _ _ _ H1)|by rewrite (po_ip _ _ _ _ H1)|done]. }
  destruct (wp_cop pd (ORead false n) (Tty (line ++ [10]) []) s1 (fun x s2 => x = (Some (CDone (Z.of_nat (length line) + 1) (line ++ [10])), []) /\
    console_rel s2 (Tty [] []))) as (x & s2 & E2 & -> & H2); [done|cbn; lia|done| |].
  { cbn [tty_op ready]. rewrite tty_read_line; [|apply line_chars; [done|constructor]|fold line; lia]. cbn [app fst snd edit].
    intros s2 H2. rewrite Z.max_r, Z2Nat.id by lia. split; [|done]. do 3 f_equal. lia. }
  exists (Kbd 0 []), s1, s2. by rewrite (bind_ok _ _ _ _ _ E1).
Qed.

Lemma keyboard_line_witness :
  exists k' s1 s2,
    kbdintr (ret tt) (Kbd 0 (concat (scan <$> [Ch 108; Ch 122; Bs; Ch 115; Ch 63]) ++ scan_char 10)) demo_console = Ok k' s1 /\
    k' = Kbd 0 [] /\ cop_run (ret tt) (ORead false 100) s1 = Ok (Some (CDone 4 [108; 115; 63; 10]), []) s2 /\
    console_rel s2 (Tty [] []).
Proof.
  apply (keyboard_line (ret tt) demo_console [Ch 108; Ch 122; Bs; Ch 115; Ch 63] 100).
  - exact free_ret.
  - destruct demo_booted as (Hc & Hip & Hb & Hr & Hw & He). split; [done..|]. split; try done; constructor.
  - repeat constructor; cbn; lia.
  - intros k. do 6 (destruct k as [|k]; [cbn; lia|]). cbn. lia.
  - cbn. lia.
Defined.
