(* ===== verification/Syscall.v ===== *)
(** System calls and traps: the fetching and checking of arguments (syscall.c), the
    system calls on processes and time (sysproc.c), the system call table, the
    interrupt descriptors and the trap handler (trap.c), and the interrupt side of
    the serial port (uart.c).

    The state is that of the process table together with the clock, the memory of
    the running process, the console and the devices that interrupt. *)
From stdpp Require Import base numbers list gmap strings.
From Stdlib Require Import ZArith Lia.
From S2P Require Import Mem Spinlock Console Proc Prelude.

Open Scope kernel_scope.

(** * Arguments *)

(** What the checks look at: the memory of the process, [proc->sz], and the user
    stack pointer in its trap frame. *)
Record uenv := UEnv { u_mem : mem; u_sz : Z; u_esp : Z }.

Definition fetchint (e : uenv) (addr : Z) : option Z :=
  if (u_sz e <=? addr) || (u_sz e <? u32 (addr + 4)) then None else Some (i32 (ld32 (u_mem e) addr)).

(** The loop of [fetchstr] over the bytes below [ep], with [k] of them to go. *)
Fixpoint strscan (m : mem) (s n : Z) (k : nat) : option Z :=
  match k with
  | O => None
  | S k' => if ld m s =? 0 then Some n else strscan m (s + 1) (n + 1) k'
  end.

(** The length; [*pp] is [addr]. *)
Definition fetchstr (e : uenv) (addr : Z) : option Z :=
  if u_sz e <=? addr then None else strscan (u_mem e) addr 0 (Z.to_nat (u_sz e - addr)).

Definition argint (e : uenv) (n : Z) : option Z := fetchint e (u32 (u_esp e + 4 + 4 * n)).

Definition argptr (e : uenv) (n size : Z) : option Z :=
  match argint e n with
  | None => None
  | Some i =>
      if (size <? 0) || (u_sz e <=? u32 i) || (u_sz e <? u32 (u32 i + size)) then None else Some (u32 i)
  end.

(** The pointer and the length. *)
Definition argstr (e : uenv) (n : Z) : option (Z * Z) :=
  match argint e n with
  | None => None
  | Some addr => (fun len => (u32 addr, len)) <$> fetchstr e (u32 addr)
  end.

(** * The system call table *)

Inductive sysno : Type :=
| SYS_fork | SYS_exit | SYS_wait | SYS_pipe | SYS_read | SYS_kill | SYS_exec | SYS_fstat
| SYS_chdir | SYS_dup | SYS_getpid | SYS_sbrk | SYS_sleep | SYS_uptime | SYS_open | SYS_write
| SYS_mknod | SYS_unlink | SYS_link | SYS_mkdir | SYS_close | SYS_hello.

(** The numbers of syscall.h, which the stubs of usys.S put into %eax. *)
Definition sys_num (n : sysno) : Z :=
  match n with
  | SYS_fork => 1 | SYS_exit => 2 | SYS_wait => 3 | SYS_pipe => 4 | SYS_read => 5 | SYS_kill => 6
  | SYS_exec => 7 | SYS_fstat => 8 | SYS_chdir => 9 | SYS_dup => 10 | SYS_getpid => 11 | SYS_sbrk => 12
  | SYS_sleep => 13 | SYS_uptime => 14 | SYS_open => 15 | SYS_write => 16 | SYS_mknod => 17
  | SYS_unlink => 18 | SYS_link => 19 | SYS_mkdir => 20 | SYS_close => 21 | SYS_hello => 22
  end.

(** [syscalls[]], with its handlers by name; entry 0 is empty. *)
Definition syscalls : list (option sysno) :=
  None :: (Some <$>
    [SYS_fork; SYS_exit; SYS_wait; SYS_pipe; SYS_read; SYS_kill; SYS_exec; SYS_fstat; SYS_chdir; SYS_dup;
     SYS_getpid; SYS_sbrk; SYS_sleep; SYS_uptime; SYS_open; SYS_write; SYS_mknod; SYS_unlink; SYS_link;
     SYS_mkdir; SYS_close; SYS_hello]).

(** [num > 0 && num < NELEM(syscalls) && syscalls[num]]. *)
Definition sys_lookup (num : Z) : option sysno :=
  if (0 <? num) && (num <? Z.of_nat (length syscalls)) then mjoin (syscalls !! Z.to_nat num) else None.

(** * Interrupt descriptors *)

(** [struct gatedesc], as the fields of its two words. *)
Record gatedesc := Gate {
  off_15_0 : Z; g_cs : Z; g_args : Z; g_rsv1 : Z; g_type : Z; g_s : Z; g_dpl : Z; g_p : Z; off_31_16 : Z
}.

Definition STS_IG32 : Z := 0xE.
Definition STS_TG32 : Z := 0xF.
Definition SEG_KCODE : Z := 1.
Definition T_SYSCALL : Z := 64.
Definition T_IRQ0 : Z := 32.
Definition IRQ_TIMER : Z := 0.
Definition IRQ_KBD : Z := 1.
Definition IRQ_COM1 : Z := 4.
Definition IRQ_IDE : Z := 14.
Definition IRQ_SPURIOUS : Z := 31.

Definition SETGATE (istrap : bool) (sel off d : Z) : gatedesc :=
  Gate (Z.land (u32 off) 0xffff) (u16 sel) 0 0 (if istrap then STS_TG32 else STS_IG32) 0 (d mod 4) 1
    (Z.shiftr (u32 off) 16).

(** [tvinit], with [vectors] the addresses of the entry points in vectors.S. *)
Definition tvinit (vectors : Z -> Z) : list gatedesc :=
  let idt := (fun i => SETGATE false (Z.shiftl SEG_KCODE 3) (vectors (Z.of_nat i)) 0) <$> seq 0 256 in
  <[Z.to_nat T_SYSCALL := SETGATE true (Z.shiftl SEG_KCODE 3) (vectors T_SYSCALL) DPL_USER]> idt.

(** * The state of a trap *)

Record sstate (W : Type) := SState {
  ss_proc : pstate W;
  ss_ticks : Z;
  ss_mem : mem;
  ss_cons : console;
  ss_kbd : kbd;
  ss_serial : list Z;
  ss_eoi : nat
}.
Arguments SState {W} _ _ _ _ _ _ _.
Arguments ss_proc {W} _.
Arguments ss_ticks {W} _.
Arguments ss_mem {W} _.
Arguments ss_cons {W} _.
Arguments ss_kbd {W} _.
Arguments ss_serial {W} _.
Arguments ss_eoi {W} _.

Definition TICKS_LOCK : nat := 1.

Section calls.
Context {W : Type} `{!Kernel W}.
Notation S := (sstate W).

Definition set_ss_proc (p : pstate W) (s : S) : S :=
  SState p (ss_ticks s) (ss_mem s) (ss_cons s) (ss_kbd s) (ss_serial s) (ss_eoi s).
Definition set_ss_ticks (t : Z) (s : S) : S :=
  SState (ss_proc s) t (ss_mem s) (ss_cons s) (ss_kbd s) (ss_serial s) (ss_eoi s).
Definition set_ss_cons (k : console) (s : S) : S :=
  SState (ss_proc s) (ss_ticks s) (ss_mem s) k (ss_kbd s) (ss_serial s) (ss_eoi s).
Definition set_ss_kbd (k : kbd) (s : S) : S :=
  SState (ss_proc s) (ss_ticks s) (ss_mem s) (ss_cons s) k (ss_serial s) (ss_eoi s).
Definition set_ss_serial (l : list Z) (s : S) : S :=
  SState (ss_proc s) (ss_ticks s) (ss_mem s) (ss_cons s) (ss_kbd s) l (ss_eoi s).
Definition set_ss_eoi (n : nat) (s : S) : S :=
  SState (ss_proc s) (ss_ticks s) (ss_mem s) (ss_cons s) (ss_kbd s) (ss_serial s) n.

Definition on_proc {A} (m : M (pstate W) A) : M S A := zoom ss_proc set_ss_proc m.
Definition on_cons {A} (m : M console A) : M S A := zoom ss_cons set_ss_cons m.

(** The running process. *)
Definition curproc (c : nat) : M S proc := on_proc (me <- myproc c ;; pfield me id).

Definition env (c : nat) : M S uenv :=
  p <- curproc c ;;
  m <- gets ss_mem ;;
  ret (UEnv m (p_sz p) (default 0 (tf_esp <$> p_tf p))).

(** * sysproc.c *)

Definition sys_fork (c : nat) : M S Z := on_proc (fork c).

(** [argint] is not checked: [junk] is what the variable holds when the argument
    cannot be fetched. *)
Definition sys_exit (c : nat) (junk : Z) : M S unit :=
  e <- env c ;;
  on_proc (exit c (default junk (argint e 0))).

(** The user's argument goes into the local [waitStatus], whose address [wait]
    gets; the user's memory is not written. *)
Definition sys_wait (c : nat) (junk : Z) : M S Z :=
  e <- env c ;;
  r <- on_proc (wait c Caller (default junk (argint e 0))) ;;
  ret r.1.

Definition sys_kill (c : nat) : M S Z :=
  e <- env c ;;
  match argint e 0 with
  | None => ret (-1)
  | Some pid => on_proc (kill c pid)
  end.

Definition sys_getpid (c : nat) : M S Z := p <- curproc c ;; ret (p_pid p).

Definition sys_sbrk (c : nat) : M S Z :=
  e <- env c ;;
  match argint e 0 with
  | None => ret (-1)
  | Some n =>
      p <- curproc c ;;
      let addr := i32 (p_sz p) in
      r <- on_proc (growproc c n) ;;
      if r <? 0 then ret (-1) else ret addr
  end.

(** The loop of [sys_sleep], with [tickslock] held: each turn returns or sleeps. *)
Definition sys_sleep_loop (c : nat) (n ticks0 : Z) : M S Z :=
  ticks <- gets ss_ticks ;;
  if u32 (ticks - ticks0) <? u32 n then
    p <- curproc c ;;
    if p_killed p then
      on_proc (release_lk c TICKS_LOCK) ;;
      ret (-1)
    else on_proc (sleep c CTicks (Some TICKS_LOCK))
  else
    on_proc (release_lk c TICKS_LOCK) ;;
    ret 0.

Definition sys_sleep (c : nat) : M S Z :=
  e <- env c ;;
  match argint e 0 with
  | None => ret (-1)
  | Some n =>
      on_proc (acquire_lk c TICKS_LOCK) ;;
      ticks0 <- gets ss_ticks ;;
      sys_sleep_loop c n ticks0
  end.

(** From the return of its [sleep]. *)
Definition sys_sleep_resume (c : nat) (intena : bool) (n ticks0 : Z) : M S Z :=
  on_proc (sleep_tail c TICKS_LOCK intena) ;;
  sys_sleep_loop c n ticks0.

Definition sys_uptime (c : nat) : M S Z :=
  on_proc (acquire_lk c TICKS_LOCK) ;;
  xticks <- gets ss_ticks ;;
  on_proc (release_lk c TICKS_LOCK) ;;
  ret (i32 xticks).

Definition sys_hello : M S Z := on_cons hello ;; ret 0.

(** * syscall *)

Definition result (m : M S Z) : M S (option Z) := r <- m ;; ret (Some r).

(** A call through the table; [None] is a call that does not return.  The calls
    of sysfile.c are given by [sysfile]. *)
Definition sys_call (sysfile : sysno -> M S Z) (c : nat) (junk : Z) (n : sysno) : M S (option Z) :=
  match n with
  | SYS_fork => result (sys_fork c)
  | SYS_exit => sys_exit c junk ;; ret None
  | SYS_wait => result (sys_wait c junk)
  | SYS_kill => result (sys_kill c)
  | SYS_getpid => result (sys_getpid c)
  | SYS_sbrk => result (sys_sbrk c)
  | SYS_sleep => result (sys_sleep c)
  | SYS_uptime => result (sys_uptime c)
  | SYS_hello => result sys_hello
  | n => result (sysfile n)
  end.

Definition set_result (c : nat) (v : Z) : M S unit :=
  on_proc (me <- myproc c ;; upd me (fun p => set_tf (set_eax (u32 v) <$> p_tf p) p)).

(** The result tells whether the process is still there. *)
Definition syscall (sysfile : sysno -> M S Z) (c : nat) (junk : Z) : M S bool :=
  p <- curproc c ;;
  let num := i32 (default 0 (tf_eax <$> p_tf p)) in
  match sys_lookup num with
  | Some n =>
      r <- sys_call sysfile c junk n ;;
      match r with
      | Some r => set_result c r ;; ret true
      | None => ret false
      end
  | None =>
      on_cons (cprintf (Ulib.bs "%d %s: unknown sys call %d" ++ [10])
        [CInt (p_pid p); CStr (Some (Ulib.bs (p_name p))); CInt num]) ;;
      set_result c (-1) ;;
      ret true
  end.

(** * trap *)

(** [ideintr], [kbdintr] and [uartintr]; the wakeups of the console's handler go
    to the process table. *)
Definition wake_all (c : nat) (chs : list chan) : M S unit :=
  foldr (fun ch k => on_proc (Proc.wakeup c ch) ;; k) (ret tt) chs.

Definition console_intr {A} (c : nat) (m : M console A) : M S A :=
  on_cons (modify (set_cn_woken [])) ;;
  a <- on_cons m ;;
  k <- gets ss_cons ;;
  wake_all c (cn_woken k) ;;
  ret a.

(** [procdump()] with the process table as it is; [ebp] are the saved %ebp. *)
Definition dump (ebp : nat -> Z) (s : S) : M console unit :=
  procdump (ss_mem s) ebp 0 (ptable (ss_proc s)).

Definition do_kbdintr (ebp : nat -> Z) (c : nat) : M S unit :=
  s <- mget ;;
  k <- console_intr c (kbdintr (dump ebp s) (ss_kbd s)) ;;
  modify (set_ss_kbd k).

(** [uartgetc] returns the received bytes and then -1, or only -1 without a
    serial port. *)
Definition uartintr (ebp : nat -> Z) (c : nat) : M S unit :=
  s <- mget ;;
  if cn_uart (ss_cons s) then
    console_intr c (consoleintr (dump ebp s) (u8 <$> ss_serial s)) ;;
    modify (set_ss_serial [])
  else console_intr c (consoleintr (dump ebp s) []).

Definition lapiceoi : M S unit := modify (fun s => set_ss_eoi (Datatypes.S (ss_eoi s)) s).

(** [acquire(&tickslock); ticks++; wakeup(&ticks); release(&tickslock);] *)
Definition timer_tick (c : nat) : M S unit :=
  on_proc (acquire_lk c TICKS_LOCK) ;;
  modify (fun s => set_ss_ticks (u32 (ss_ticks s + 1)) s) ;;
  on_proc (Proc.wakeup c CTicks) ;;
  on_proc (release_lk c TICKS_LOCK).

(** How a stretch of [trap] ends: back to the interrupted code, in [exit], or in
    the switch of [yield]. *)
Inductive trapped : Type := Back | Gone | Yields.

(** The two lines at the end, and after [yield]: [exit] if the process was killed
    and was in user space. *)
Definition killed_user (tf : trapframe) (p : proc) : bool := p_killed p && (Z.land (tf_cs tf) 3 =? DPL_USER).

Definition trap_tail (c : nat) (tf : trapframe) : M S trapped :=
  q <- gets (fun s => cpu_proc c (ss_proc s)) ;;
  match q with
  | None => ret Back
  | Some _ =>
      p <- curproc c ;;
      if killed_user tf p then on_proc (exit c 0) ;; ret Gone else ret Back
  end.

Definition set_tf_of (c : nat) (tf : trapframe) : M S unit :=
  on_proc (me <- myproc c ;; upd me (set_tf (Some tf))).

(** The [switch] on the trap number; [ideintr] is the handler of the disk driver. *)
Definition trap_switch (ideintr : M S unit) (ebp : nat -> Z) (c : nat) (cr2 : Z) (tf : trapframe) : M S unit :=
  let no := tf_trapno tf in
  if no =? T_IRQ0 + IRQ_TIMER then
    (if (c =? 0)%nat then timer_tick c else ret tt) ;;
    lapiceoi
  else if no =? T_IRQ0 + IRQ_IDE then ideintr ;; lapiceoi
  else if no =? T_IRQ0 + IRQ_IDE + 1 then ret tt
  else if no =? T_IRQ0 + IRQ_KBD then do_kbdintr ebp c ;; lapiceoi
  else if no =? T_IRQ0 + IRQ_COM1 then uartintr ebp c ;; lapiceoi
  else if (no =? T_IRQ0 + 7) || (no =? T_IRQ0 + IRQ_SPURIOUS) then
    on_cons (cprintf (Ulib.bs "cpu%d: spurious interrupt at %x:%x" ++ [10])
      [CInt (Z.of_nat c); CInt (tf_cs tf); CInt (tf_eip tf)]) ;;
    lapiceoi
  else
    q <- gets (fun s => cpu_proc c (ss_proc s)) ;;
    let unexpected :=
      on_cons (cprintf (Ulib.bs "unexpected trap %d from cpu %d eip %x (cr2=0x%x)" ++ [10])
        [CInt no; CInt (Z.of_nat c); CInt (tf_eip tf); CInt cr2]) ;;
      panic "trap" in
    match q with
    | None => unexpected
    | Some me =>
        if Z.land (tf_cs tf) 3 =? 0 then unexpected else
        p <- curproc c ;;
        on_cons (cprintf (Ulib.bs "pid %d %s: trap %d err %d on cpu %d eip 0x%x addr 0x%x--kill proc" ++ [10])
          [CInt (p_pid p); CStr (Some (Ulib.bs (p_name p))); CInt no; CInt (tf_err tf); CInt (Z.of_nat c);
           CInt (tf_eip tf); CInt cr2]) ;;
        on_proc (upd me (set_killed true))
    end.

(** After the system call: the lines of [trap] from the return of [syscall], which
    has told whether the process is still there. *)
Definition trap_call_tail (c : nat) (there : bool) : M S trapped :=
  if negb there then ret Gone else
  p <- curproc c ;;
  if p_killed p then on_proc (exit c 0) ;; ret Gone else ret Back.

Definition trap (sysfile : sysno -> M S Z) (ideintr : M S unit) (ebp : nat -> Z) (c : nat) (junk cr2 : Z)
    (tf : trapframe) : M S trapped :=
  if tf_trapno tf =? T_SYSCALL then
    p <- curproc c ;;
    if p_killed p then on_proc (exit c 0) ;; ret Gone else
    set_tf_of c tf ;;
    there <- syscall sysfile c junk ;;
    trap_call_tail c there
  else
    trap_switch ideintr ebp c cr2 tf ;;
    r <- trap_tail c tf ;;
    match r with
    | Gone => ret Gone
    | _ =>
        q <- gets (fun s => cpu_proc c (ss_proc s)) ;;
        match q with
        | None => ret Back
        | Some _ =>
            p <- curproc c ;;
            if bool_decide (p_state p = RUNNING) && (tf_trapno tf =? T_IRQ0 + IRQ_TIMER) then
              on_proc (yield c) ;; ret Yields
            else trap_tail c tf
        end
    end.

(** After the switch back from the scheduler to a process in [yield]. *)
Definition trap_resume (c : nat) (intena : bool) (tf : trapframe) : M S trapped :=
  on_proc (yield_tail c intena) ;;
  trap_tail c tf.

(** A process asleep in a system call: in [wait], with what its variable holds; in
    [sys_sleep], with [n] and [ticks0]; or in a call of sysfile.c. *)
Inductive asleep : Type :=
| InWait (v : Z)
| InSleep (n ticks0 : Z)
| InFile (n : sysno).

(** The rest of such a call from the return of its [sleep]; [filerest] is that of
    the calls of sysfile.c. *)
Definition call_rest (filerest : sysno -> M S Z) (c : nat) (intena : bool) (a : asleep) : M S Z :=
  match a with
  | InWait v => r <- on_proc (sleep_tail c PTABLE_LOCK intena ;; wait_loop c Caller v) ;; ret r.1
  | InSleep n ticks0 => sys_sleep_resume c intena n ticks0
  | InFile n => filerest n
  end.

(** After the switch back from the scheduler to a process asleep in a system call:
    the rest of the call (which may sleep again), of [syscall] and of [trap]. *)
Definition trap_call_resume (filerest : sysno -> M S Z) (c : nat) (intena : bool) (a : asleep) : M S trapped :=
  r <- call_rest filerest c intena a ;;
  set_result c r ;;
  trap_call_tail c true.
End calls.

(** * What the checks guarantee *)

Lemma strscan_some m s n k len : strscan m s n k = Some len <->
  n <= len < n + Z.of_nat k /\ ld m (s + (len - n)) = 0 /\ forall i, 0 <= i < len - n -> ld m (s + i) <> 0.
Proof.
  revert s n. induction k as [|k IH]; intros s n; cbn [strscan]; [split; [done|lia]|].
  destruct (Z.eqb_spec (ld m s) 0) as [E|E].
  - split.
    + intros [= <-]. rewrite Z.sub_diag, Z.add_0_r. split; [lia|]. split; [done|]. lia.
    + intros (Hl & H0 & Hall). destruct (Z.eq_dec len n) as [->|Hne]; [done|].
      destruct (Hall 0); [lia|]. by rewrite Z.add_0_r.
  - rewrite IH. split; intros (Hl & H0 & Hall).
    + split; [lia|]. split; [by replace (s + (len - n)) with (s + 1 + (len - (n + 1))) by lia|].
      intros i Hi. destruct (Z.eq_dec i 0) as [->|Hne]; [by rewrite Z.add_0_r|].
      replace (s + i) with (s + 1 + (i - 1)) by lia. apply Hall. lia.
    + destruct (Z.eq_dec len n) as [->|Hne]; [by rewrite Z.sub_diag, Z.add_0_r in H0|].
      split; [lia|]. split; [by replace (s + 1 + (len - (n + 1))) with (s + (len - n)) by lia|].
      intros i Hi. replace (s + 1 + i) with (s + (i + 1)) by lia. apply Hall. lia.
Qed.

Lemma strscan_ext m m' s n k : (forall i, s <= i < s + Z.of_nat k -> ld m i = ld m' i) ->
  strscan m s n k = strscan m' s n k.
Proof.
  revert s n. induction k as [|k IH]; intros s n Hm; cbn [strscan]; [done|]. rewrite (Hm s) by lia.
  rewrite (IH (s + 1)); [done|]. intros i Hi. apply Hm. lia.
Qed.

(** A word of the process: the kernel half is out of reach, and the sum does not
    wrap. *)
Definition word_ok (e : uenv) (a : Z) : Prop := 0 <= a /\ a + 4 <= u_sz e.

Section checks.
Context (e : uenv) (Hsz : 0 <= u_sz e <= Kalloc.KERNBASE).

Lemma fetchint_spec a v : is_u32 a -> fetchint e a = Some v <-> word_ok e a /\ v = i32 (ld32 (u_mem e) a).
Proof using Hsz.
  unfold is_u32, fetchint, word_ok, Kalloc.KERNBASE in *. intros Ha.
  destruct (Z.leb_spec (u_sz e) a); cbn [orb]; [split; [done|lia]|].
  assert (u32 (a + 4) = a + 4) as -> by (apply Z.mod_small; lia).
  destruct (Z.ltb_spec (u_sz e) (a + 4)); [split; [done|lia]|]. split; [intros [= <-]; split; [lia|done]|].
  by intros [_ ->].
Qed.

Lemma fetchint_ext m a : is_u32 a -> (forall i, 0 <= i < u_sz e -> ld m i = ld (u_mem e) i) ->
  fetchint (UEnv m (u_sz e) (u_esp e)) a = fetchint e a.
Proof using Hsz.
  unfold is_u32, fetchint, Kalloc.KERNBASE in *. cbn [u_sz u_mem]. intros Ha Hm.
  destruct (Z.leb_spec (u_sz e) a); cbn [orb]; [done|].
  assert (u32 (a + 4) = a + 4) as -> by (apply Z.mod_small; lia).
  destruct (Z.ltb_spec (u_sz e) (a + 4)); [done|]. unfold ld32. by rewrite !Hm by lia.
Qed.

Lemma fetchstr_spec a len : 0 <= a -> fetchstr e a = Some len <->
  0 <= len /\ a + len < u_sz e /\ ld (u_mem e) (a + len) = 0 /\ forall i, 0 <= i < len -> ld (u_mem e) (a + i) <> 0.
Proof using Hsz.
  intros Ha. unfold fetchstr. destruct (Z.leb_spec (u_sz e) a); [split; [done|lia]|].
  rewrite strscan_some. rewrite Z.sub_0_r. rewrite Z2Nat.id by lia. split; intros H'; repeat split; try apply H'; lia.
Qed.

Lemma fetchstr_ext m a : 0 <= a -> (forall i, 0 <= i < u_sz e -> ld m i = ld (u_mem e) i) ->
  fetchstr (UEnv m (u_sz e) (u_esp e)) a = fetchstr e a.
Proof using.
  intros Ha Hm. unfold fetchstr. cbn [u_sz u_mem]. destruct (u_sz e <=? a) eqn:E; [done|]. apply Z.leb_gt in E.
  apply strscan_ext. intros i Hi. apply Hm. lia.
Qed.
End checks.

Lemma u32_is z : is_u32 (u32 z).
Proof. unfold is_u32, u32. apply Z.mod_pos_bound. lia. Qed.

Lemma u32_i32 z : is_u32 z -> u32 (i32 z) = z.
Proof.
  unfold is_u32, u32, i32. intros Hz. rewrite Zminus_mod_idemp_l. replace (z + 2 ^ 31 - 2 ^ 31) with z by lia.
  by apply Z.mod_small.
Qed.

(** C36. System calls cannot be tricked out of user memory.  With the size of the
    process at most KERNBASE, as [allocuvm] keeps it, [argint], [argptr] and
    [argstr] accept an argument exactly when its word on the user stack lies below
    [proc->sz] and, for a block, when its [size] bytes all do, and, for a string,
    when a NUL comes before [proc->sz]; no sum wraps around.  No byte outside of
    the process is read: the results depend on the bytes below [proc->sz] only. *)
Theorem argument_checks (e : uenv) (n size : Z) :
  0 <= u_sz e <= Kalloc.KERNBASE -> size < 2 ^ 31 ->
  let a := u32 (u_esp e + 4 + 4 * n) in
  let v := ld32 (u_mem e) a in
  (forall x, argint e n = Some x <-> word_ok e a /\ x = i32 v) /\
  (forall p, argptr e n size = Some p <->
     word_ok e a /\ p = v /\ 0 <= p < u_sz e /\ 0 <= size /\ p + size <= u_sz e) /\
  (forall p len, argstr e n = Some (p, len) <->
     word_ok e a /\ p = v /\ 0 <= p /\ 0 <= len /\ p + len < u_sz e /\ ld (u_mem e) (p + len) = 0 /\
     forall i, 0 <= i < len -> ld (u_mem e) (p + i) <> 0) /\
  (forall m, (forall i, 0 <= i < u_sz e -> ld m i = ld (u_mem e) i) ->
     let e' := UEnv m (u_sz e) (u_esp e) in
     argint e' n = argint e n /\ argptr e' n size = argptr e n size /\ argstr e' n = argstr e n).
Proof.
  intros Hsz Hsize a v. pose proof (u32_is (u_esp e + 4 + 4 * n)) as Ha. fold a in Ha.
  pose proof (ld32_range (u_mem e) a) as Hv. fold v in Hv. unfold is_u32, Kalloc.KERNBASE in *.
  assert (forall x, argint e n = Some x <-> word_ok e a /\ x = i32 v) as Hint by (intros x; by apply fetchint_spec).
  split; [done|]. split; [|split].
  - intros p. unfold argptr. destruct (argint e n) as [i|] eqn:E.
    + destruct (proj1 (Hint i) eq_refl) as [Hok ->]. rewrite u32_i32 by done. destruct (Z.ltb_spec size 0); cbn [orb]; [split; [done|lia]|].
      destruct (Z.leb_spec (u_sz e) v); cbn [orb]; [split; [done|lia]|].
      assert (u32 (v + size) = v + size) as -> by (apply Z.mod_small; lia).
      destruct (Z.ltb_spec (u_sz e) (v + size)); [split; [done|lia]|].
      split; [intros [= <-]; repeat split; try apply Hok; lia|by intros (_ & -> & _)].
    + split; [done|]. intros (Hok & _). discriminate (proj2 (Hint (i32 v)) (conj Hok eq_refl)).
  - intros p len. unfold argstr. destruct (argint e n) as [i|] eqn:E.
    + destruct (proj1 (Hint i) eq_refl) as [Hok ->]. rewrite u32_i32 by done. rewrite fmap_Some. split.
      * intros (len' & Hl & [= -> ->]). apply fetchstr_spec in Hl; [|done|lia]. repeat split; try apply Hok; try apply Hl. lia.
      * intros (_ & -> & Hp & H'). exists len. split; [|done]. apply fetchstr_spec; [done|lia|done].
    + split; [done|]. intros (Hok & _). discriminate (proj2 (Hint (i32 v)) (conj Hok eq_refl)).
  - intros m Hm. set (e' := UEnv m _ _). assert (argint e' n = argint e n) as E by (by apply fetchint_ext).
    split; [done|]. unfold argptr, argstr. rewrite E. split; [done|]. destruct (argint e n) as [i|]; [|done].
    unfold e'. rewrite fetchstr_ext; [done|apply u32_is|done].
Qed.

Definition demo_env : uenv := UEnv (store ∅ 4080 [0; 0; 0; 0; 0; 16; 0; 0]) 8192 4080.

Lemma argument_checks_witness :
  argptr demo_env 0 16 = Some 4096 /\ argptr demo_env 0 5000 = None /\
  (forall p, argptr demo_env 0 16 = Some p <->
     word_ok demo_env (u32 (4080 + 4 + 4 * 0)) /\ p = ld32 (u_mem demo_env) (u32 (4080 + 4 + 4 * 0)) /\
     0 <= p < 8192 /\ 0 <= 16 /\ p + 16 <= 8192).
Proof.
  split; [vm_compute; reflexivity|]. split; [vm_compute; reflexivity|].
  apply (argument_checks demo_env 0 16); [cbn; unfold Kalloc.KERNBASE; lia|lia].
Defined.

(** Each number of syscall.h reaches its own handler, and no other number does. *)
Lemma sys_lookup_spec num n : sys_lookup num = Some n <-> num = sys_num n.
Proof.
  unfold sys_lookup. split.
  - change (Z.of_nat (length syscalls)) with 23. destruct (Z.ltb_spec 0 num); [|done].
    destruct (Z.ltb_spec num 23); [|done]. cbn [andb].
    assert (forall k : nat, (k < 23)%nat -> forall n, mjoin (syscalls !! k) = Some n -> Z.of_nat k = sys_num n) as Hk.
    { intros k Hk m. do 23 (destruct k as [|k]; [cbn; intros [= <-]; reflexivity|]). lia. }
    intros Hn. rewrite <- (Hk (Z.to_nat num) ltac:(lia) _ Hn). by rewrite Z2Nat.id by lia.
  - intros ->. by destruct n.
Qed.

(** Only the system call gate can be entered with an [int] instruction of user
    code; every other gate is an interrupt gate of the kernel. *)
Lemma idt_gates (vectors : Z -> Z) i g : tvinit vectors !! i = Some g ->
  (i < 256)%nat /\ g_p g = 1 /\ g_cs g = 8 /\
  (g_dpl g = DPL_USER <-> i = Z.to_nat T_SYSCALL) /\ (g_dpl g <> DPL_USER -> g_dpl g = 0 /\ g_type g = STS_IG32) /\
  (is_u32 (vectors (Z.of_nat i)) -> Z.lor (off_15_0 g) (Z.shiftl (off_31_16 g) 16) = vectors (Z.of_nat i)).
Proof.
  unfold tvinit. intros Hg. assert (forall b d off, 0 <= d < 4 -> is_u32 off ->
    Z.lor (off_15_0 (SETGATE b 8 off d)) (Z.shiftl (off_31_16 (SETGATE b 8 off d)) 16) = off) as Hoff.
  { intros b d off _ Ho. cbn [off_15_0 off_31_16 SETGATE]. unfold is_u32 in Ho.
    assert (u32 off = off) as -> by (by apply Z.mod_small). change 0xffff with (Z.ones 16).
    rewrite Z.land_ones, Z.shiftr_div_pow2, Z.shiftl_mul_pow2 by lia. rewrite Z.lor_comm.
    rewrite (Bytes.lor_add 16); [pose proof (Z.div_mod off (2 ^ 16)); lia|lia|by apply Z.mod_mul|apply Z.mod_pos_bound; lia]. }
  destruct (decide (i = Z.to_nat T_SYSCALL)) as [->|Hne].
  - rewrite list_lookup_insert_eq in Hg by (rewrite length_fmap, length_seq; unfold T_SYSCALL; lia).
    injection Hg as <-. repeat split; try done; try (unfold T_SYSCALL; lia). intros Hv. by apply Hoff.
  - rewrite list_lookup_insert_ne in Hg by done. apply list_lookup_fmap_Some in Hg as (k & -> & Hk).
    apply lookup_seq in Hk as [-> Hlt]. repeat split; try done; try lia. intros Hv. by apply Hoff.
Qed.
