(* ===== verification/SyscallProps.v ===== *)
(** What the trap handler and the sleeping system calls guarantee: a killed process
    never returns to user space, and [sys_sleep] lasts as long as it was asked to,
    whatever the wrapping clock shows. *)
From stdpp Require Import base numbers list gmap strings.
From Stdlib Require Import ZArith Lia.
From S2P Require Import Mem Spinlock Console Proc Prelude Ring ProcInv ProcSys ProcProps Syscall.

Open Scope kernel_scope.

Section traps.
Context {W : Type} `{!Kernel W}.
Implicit Types s : sstate W.

(** The running process of the CPU, if there is one, is marked killed. *)
Definition killed_at (c : nat) (s : sstate W) : bool :=
  match cpu_proc c (ss_proc s) with Some i => p_killed (proc_at i (ss_proc s)) | None => false end.

Lemma curproc_eq c s i : cpu_proc c (ss_proc s) = Some i -> curproc c s = Ok (proc_at i (ss_proc s)) s.
Proof.
  intros E. unfold curproc, on_proc, zoom, bind, myproc. rewrite E. unfold pfield, gets. by destruct s.
Qed.

Lemma curproc_inv c s p s' : curproc c s = Ok p s' ->
  exists i, cpu_proc c (ss_proc s) = Some i /\ p = proc_at i (ss_proc s) /\ s' = s.
Proof.
  destruct (cpu_proc c (ss_proc s)) as [i|] eqn:E.
  - rewrite (curproc_eq _ _ _ E). intros [= <- <-]. eauto.
  - unfold curproc, on_proc, zoom, bind, myproc. by rewrite E.
Qed.

(** The last lines of [trap]. *)
Lemma trap_tail_eq c tf s : Z.land (tf_cs tf) 3 = DPL_USER ->
  trap_tail c tf s = if killed_at c s then (on_proc (exit c 0) ;; ret Gone) s else Ok Back s.
Proof.
  intros Hu. unfold trap_tail, killed_at, bind at 1, gets. destruct (cpu_proc c (ss_proc s)) as [i|] eqn:E; [|done].
  rewrite (bind_ok _ _ _ _ _ (curproc_eq _ _ _ E)). unfold killed_user. rewrite Hu. cbn [andb Z.eqb].
  rewrite andb_true_r. by destruct (p_killed _).
Qed.

Lemma exit_gone c s s' : (on_proc (exit c 0) ;; ret Gone) s <> Ok Back s'.
Proof. unfold bind. by destruct (on_proc (exit c 0) s). Qed.

Lemma trap_tail_back c tf s s' : Z.land (tf_cs tf) 3 = DPL_USER -> trap_tail c tf s = Ok Back s' -> killed_at c s' = false.
Proof.
  intros Hu. rewrite (trap_tail_eq _ _ _ Hu). destruct (killed_at c s) eqn:E; [by intros ?%exit_gone|by intros [= <-]].
Qed.

Lemma call_tail_back c there s s' : trap_call_tail c there s = Ok Back s' -> killed_at c s' = false.
Proof.
  unfold trap_call_tail. destruct there; [|done]. cbn [negb].
  intros (q & s3 & (i & Ei & -> & ->)%curproc_inv & H3)%bind_inv. destruct (p_killed _) eqn:Ek; [by apply exit_gone in H3|].
  injection H3 as <-. unfold killed_at. by rewrite Ei.
Qed.

(** [set_result] leaves the mark. *)
Lemma set_result_killed c r s : killed_at c s = true ->
  exists s2, set_result c r s = Ok tt s2 /\ killed_at c s2 = true.
Proof.
  unfold killed_at, set_result, on_proc, zoom, bind, myproc. destruct (cpu_proc c (ss_proc s)) as [i|] eqn:Ei; [|done].
  intros Hk. eexists. split; [reflexivity|]. cbn [ss_proc set_ss_proc].
  change (cpu_proc c (set_ptable _ (ss_proc s))) with (cpu_proc c (ss_proc s)). rewrite Ei.
  unfold proc_at in *. cbn [ptable set_ptable]. rewrite list_lookup_alter, decide_True by done.
  by destruct (ptable (ss_proc s) !! i).
Qed.

Lemma call_tail_gone c s : killed_at c s = true -> trap_call_tail c true s = (on_proc (exit c 0) ;; ret Gone) s.
Proof.
  unfold killed_at, trap_call_tail. intros Hk. destruct (cpu_proc c (ss_proc s)) as [i|] eqn:Ei; [|done].
  cbn [negb]. rewrite (bind_ok _ _ _ _ _ (curproc_eq _ _ _ Ei)). by rewrite Hk.
Qed.

(** C37. A killed process does not come back to user space.  Whatever the system
    call or the interrupt did, when [trap] returns to user code the process of the
    CPU is not marked killed: after a call that did not sleep, after the rest of
    one that did (in [wait], in [sleep] or in a call of sysfile.c, each time it is
    resumed), after an interrupt, and after a [yield].  A process that is killed
    when it makes a system call goes to [exit] without the call being made; one
    that is killed while it is asleep in a call, or during it, goes to [exit] when
    the call has returned; one that is killed in user space goes to [exit] at its
    next interrupt.  The handler of the disk and the calls of sysfile.c may be
    anything. *)
Theorem killed_never_returns (sysfile filerest : sysno -> M (sstate W) Z) (ideintr : M (sstate W) unit)
    (ebp : nat -> Z) (c : nat) (junk cr2 : Z) (tf : trapframe) (intena : bool) (a : asleep) (s : sstate W) :
  Z.land (tf_cs tf) 3 = DPL_USER ->
  (forall s', trap sysfile ideintr ebp c junk cr2 tf s = Ok Back s' -> killed_at c s' = false) /\
  (forall s', trap_call_resume filerest c intena a s = Ok Back s' -> killed_at c s' = false) /\
  (forall s', trap_resume c intena tf s = Ok Back s' -> killed_at c s' = false) /\
  (killed_at c s = true -> tf_trapno tf = T_SYSCALL ->
     trap sysfile ideintr ebp c junk cr2 tf s = (on_proc (exit c 0) ;; ret Gone) s) /\
  (forall r s1, call_rest filerest c intena a s = Ok r s1 -> killed_at c s1 = true ->
     exists s2, set_result c r s1 = Ok tt s2 /\
       trap_call_resume filerest c intena a s = (on_proc (exit c 0) ;; ret Gone) s2) /\
  (forall s1, tf_trapno tf <> T_SYSCALL -> trap_switch ideintr ebp c cr2 tf s = Ok tt s1 -> killed_at c s1 = true ->
     trap sysfile ideintr ebp c junk cr2 tf s = (on_proc (exit c 0) ;; ret Gone) s1).
Proof.
  intros Hu. split_and!.
  - intros s'. unfold trap. destruct (tf_trapno tf =? T_SYSCALL).
    + intros (p & s0 & _ & H0)%bind_inv. destruct (p_killed p); [by apply exit_gone in H0|].
      apply bind_inv in H0 as ([] & s1 & _ & (there & s2 & _ & H2)%bind_inv). by eapply call_tail_back.
    + intros ([] & s1 & _ & (r & s2 & Hr & H2)%bind_inv)%bind_inv. rewrite (trap_tail_eq _ _ _ Hu) in Hr.
      destruct r; [|done|by destruct (killed_at c s1); [unfold bind in Hr; destruct (on_proc _ s1)|]].
      apply bind_inv in H2 as (q & s3 & [= <- <-] & H3).
      destruct (cpu_proc c (ss_proc s2)) as [i|] eqn:Ei; [|injection H3 as <-; unfold killed_at; by rewrite Ei].
      rewrite (bind_ok _ _ _ _ _ (curproc_eq _ _ _ Ei)) in H3. case_match; [|by eapply trap_tail_back].
      by apply bind_inv in H3 as ([] & s4 & _ & H4).
  - intros s' (r & s1 & _ & ([] & s2 & _ & H2)%bind_inv)%bind_inv. by eapply call_tail_back.
  - intros s' ([] & s1 & _ & H1)%bind_inv. by eapply trap_tail_back.
  - unfold killed_at, trap. intros Hk ->. destruct (cpu_proc c (ss_proc s)) as [i|] eqn:Ei; [|done].
    rewrite Z.eqb_refl, (bind_ok _ _ _ _ _ (curproc_eq _ _ _ Ei)). by rewrite Hk.
  - intros r s1 Hr Hk. destruct (set_result_killed c r s1 Hk) as (s2 & E & Hk2). exists s2. split; [done|].
    unfold trap_call_resume. rewrite (bind_ok _ _ _ _ _ Hr), (bind_ok _ _ _ _ _ E). by apply call_tail_gone.
  - intros s1 Hn Hs Hk. unfold trap. rewrite (proj2 (Z.eqb_neq _ _) Hn), (bind_ok _ _ _ _ _ Hs).
    unfold bind at 1. rewrite (trap_tail_eq _ _ _ Hu), Hk. unfold bind. by destruct (on_proc (exit c 0) s1).
Qed.

(** * Time *)

(** [timer_tick] on a CPU outside of any critical section. *)
Lemma timer_tick_eq c k L T n ip f C Q (w : W) s :
  ss_proc s = PState L T n ip f C Q w -> ProcInv.calm c k L C -> L !! TICKS_LOCK = Some free_lock -> length T = NPROC ->
  timer_tick c s =
  Ok tt (set_ss_proc (PState L (wake (Some CTicks) <$> T) n ip f (<[c := settle k]> C) Q w)
           (set_ss_ticks (u32 (ss_ticks s + 1)) s)).
Proof.
  intros Hs (Hl & Hc & Hn) Ht Hlen. destruct s as [ps t m con kb ser eoi]. cbn in Hs. subst ps.
  pose proof (lookup_lt_Some _ _ _ Hl) as Hl0. pose proof (lookup_lt_Some _ _ _ Hc) as Hc0.
  pose proof (lookup_lt_Some _ _ _ Ht) as Ht0. assert (cpu_ok k) as Hk by (split; lia).
  assert (popped (pushed (pushed k)) = pushed k /\ popped (pushed k) = settle k) as [Epp Ep].
  { destruct k as [nc ie fl pr]. cbn in Hn. subst nc. by destruct ie, fl. }
  unfold timer_tick, on_proc, bind, zoom. cbn [ss_proc].
  rewrite (acquire_lk_ok c TICKS_LOCK _ k) by done. cbn [modify set_ss_ticks set_ss_proc ss_proc ss_ticks].
  unfold Proc.wakeup, bind. unfold set_cpus, set_locks. cbn [locks cpus ptable nextpid initproc first sched_pos world].
  rewrite (acquire_lk_ok c PTABLE_LOCK _ (pushed k)); cbn [locks cpus];
    [|by rewrite list_lookup_insert_ne by done|by rewrite list_lookup_insert_eq].
  unfold set_cpus, set_locks. cbn [locks cpus ptable nextpid initproc first sched_pos world].
  rewrite wakeup1_ok by done. unfold set_ptable. cbn [locks cpus ptable nextpid initproc first sched_pos world].
  rewrite (release_lk_ok c PTABLE_LOCK _ (pushed (pushed k))); cbn [locks cpus];
    [|by rewrite list_lookup_insert_eq by (by rewrite length_insert)|by rewrite list_lookup_insert_eq by (by rewrite length_insert)
     |by apply pushed_ok, pushed_ok|cbn; lia].
  unfold set_cpus, set_locks. cbn [locks cpus ptable nextpid initproc first sched_pos world ss_proc set_ss_proc].
  rewrite (release_lk_ok c TICKS_LOCK _ (pushed k)); cbn [locks cpus];
    [|by rewrite !list_lookup_insert_ne, list_lookup_insert_eq by done
     |by rewrite list_lookup_insert_eq, Epp by (by rewrite !length_insert)
     |by apply pushed_ok|cbn; lia].
  unfold set_cpus, set_locks. cbn [locks cpus ptable nextpid initproc first sched_pos world ss_proc set_ss_proc].
  rewrite Ep. unfold set_ss_proc, set_ss_ticks. cbn [ss_proc ss_ticks ss_mem ss_cons ss_kbd ss_serial ss_eoi]. do 3 f_equal.
  - rewrite list_insert_insert_eq, (list_insert_insert_ne _ PTABLE_LOCK TICKS_LOCK), list_insert_insert_eq by done.
    by rewrite (list_insert_id L), list_insert_id.
  - by rewrite !list_insert_insert_eq.
Qed.
(** The state in which the scheduler has just switched to process [i], which is
    inside the [sleep] of [sys_sleep]. *)
Record woken (c i : nat) (p : proc) (s : sstate W) : Prop := Woken {
  wk_table : ptable (ss_proc s) !! i = Some p;
  wk_cpu : exists b, cpus (ss_proc s) !! c = Some (Cpu 1 b false (Some i));
  wk_lock : locks (ss_proc s) !! PTABLE_LOCK = Some (Spinlock true (Some c));
  wk_free : locks (ss_proc s) !! TICKS_LOCK = Some free_lock
}.

(** The way of such a process to the head of the loop. *)
Lemma woken_loop c i p intena nn t0 s : woken c i p s ->
  exists L T n ip f C Q w k, ProcInv.calm c k L C /\ c_proc k = Some i /\ L !! TICKS_LOCK = Some free_lock /\
    T !! i = Some (set_chan None p) /\
    sys_sleep_resume c intena nn t0 s =
    (on_proc (acquire_lk c TICKS_LOCK) ;; sys_sleep_loop c nn t0) (set_ss_proc (PState L T n ip f C Q w) s).
Proof.
  intros [Hi [b Hc] Hl Ht]. destruct s as [[L T n ip f C Q w] t m con kb ser eoi]. cbn in *.
  pose proof (lookup_lt_Some _ _ _ Hl). pose proof (lookup_lt_Some _ _ _ Hc) as Hc0. pose proof (lookup_lt_Some _ _ _ Hi).
  exists (<[PTABLE_LOCK := free_lock]> L), (<[i := set_chan None p]> T), n, ip, f,
    (<[c := Cpu 0 intena intena (Some i)]> C), Q, w, (Cpu 0 intena intena (Some i)).
  split; [by split; [rewrite list_lookup_insert_eq|split; [rewrite list_lookup_insert_eq|]]|]. split; [done|].
  split; [by rewrite list_lookup_insert_ne|]. split; [by rewrite list_lookup_insert_eq|].
  unfold sys_sleep_resume, on_proc, bind at 1, zoom at 1. cbn [ss_proc].
  rewrite (sleep_tail_eq c i p TICKS_LOCK intena b) by done. cbn [Nat.eqb PTABLE_LOCK TICKS_LOCK negb when].
  unfold bind at 1. rewrite (release_held c intena (Some i)); [|done|by rewrite list_lookup_insert_eq].
  rewrite list_insert_insert_eq. unfold bind, zoom. cbn [ss_proc set_ss_proc]. by destruct (acquire_lk _ _ _).
Qed.

Lemma sleep_turn c i p k nn t0 L T n ip f C Q (w : W) s :
  ProcInv.calm c k L C -> c_proc k = Some i -> L !! TICKS_LOCK = Some free_lock -> T !! i = Some p ->
  let s0 := set_ss_proc (PState L T n ip f C Q w) s in
  let again := u32 (ss_ticks s - t0) <? u32 nn in
  if again && negb (p_killed p) then
    exists s', (on_proc (acquire_lk c TICKS_LOCK) ;; sys_sleep_loop c nn t0) s0 = Sleep CTicks s' /\
      exists p', ptable (ss_proc s') !! i = Some p' /\ p_state p' = SLEEPING /\ p_chan p' = Some CTicks
  else exists s', (on_proc (acquire_lk c TICKS_LOCK) ;; sys_sleep_loop c nn t0) s0 = Ok (if again then -1 else 0) s'.
Proof.
  intros Hcalm Hk Ht Hi s0 again. pose proof Hcalm as (Hl & Hc & Hn). assert (cpu_ok k) as Hok by (split; lia).
  pose proof (lookup_lt_Some _ _ _ Hi). pose proof (lookup_lt_Some _ _ _ Ht). pose proof (lookup_lt_Some _ _ _ Hc).
  pose proof (acquire_lk_ok c TICKS_LOCK (PState L T n ip f C Q w) k Ht Hc) as Ea.
  set (p1 := set_cpus _ _) in Ea. set (s1 := set_ss_proc p1 s).
  assert (on_proc (acquire_lk c TICKS_LOCK) s0 = Ok tt s1) as Ea1.
  { unfold on_proc, zoom, s0. cbn [ss_proc set_ss_proc]. by rewrite Ea. }
  assert (forall r : Z, exists s', (on_proc (release_lk c TICKS_LOCK) ;; ret r) s1 = Ok r s') as Hrel.
  { intros r. unfold on_proc, bind, zoom, s1. cbn [ss_proc set_ss_proc].
    rewrite (release_lk_ok c TICKS_LOCK p1 (pushed k)); [by eexists|by apply list_lookup_insert_eq..|by apply pushed_ok|cbn; lia]. }
  assert (cpu_proc c p1 = Some i) as Ei.
  { unfold cpu_proc, p1. cbn [set_cpus cpus]. by rewrite list_lookup_insert_eq by done. }
  unfold sys_sleep_loop. rewrite (bind_ok _ _ _ _ _ Ea1). erewrite bind_ok by reflexivity.
  change (ss_ticks s1) with (ss_ticks s). fold again. destruct again; cbn [andb].
  - rewrite (bind_ok _ _ _ _ _ (curproc_eq c s1 i Ei)).
    assert (proc_at i (ss_proc s1) = p) as -> by (unfold proc_at, s1, p1; cbn; by rewrite Hi).
    destruct (p_killed p); cbn [negb]; [apply Hrel|].
    pose proof (sleep_eq (A:=Z) c k i p TICKS_LOCK CTicks L T n ip f C Q w Hcalm Hk Hi ltac:(done) Ht) as Es.
    rewrite (bind_ok _ _ _ _ _ Ea) in Es. unfold on_proc, zoom, s1. cbn [ss_proc set_ss_proc]. rewrite Es.
    eexists. split; [reflexivity|]. cbn [ss_proc set_ss_proc ptable]. rewrite list_lookup_insert_eq by done.
    by eexists.
  - apply Hrel.
Qed.

(** [sys_sleep(n)] lasts [n] ticks.  A timer interrupt on CPU 0 advances the
    clock by one, modulo 2^32, and makes every process that sleeps on it
    runnable.  A process in [sys_sleep(n)] that gets to run when [el] ticks have
    gone by since its start, [el] below 2^32, returns 0 if [el] has reached [n]
    and goes back to sleep otherwise, or returns -1 if it has been killed; the
    clock may have wrapped around in between. *)
Theorem sleep_duration (c i : nat) (k : cpu) (p : proc) (intena : bool) (nn t0 el : Z) (s s1 : sstate W) :
  ProcInv.calm 0 k (locks (ss_proc s)) (cpus (ss_proc s)) -> locks (ss_proc s) !! TICKS_LOCK = Some free_lock ->
  length (ptable (ss_proc s)) = NPROC ->
  woken c i p s1 -> 0 <= nn < 2 ^ 31 -> 0 <= el < 2 ^ 32 -> is_u32 t0 -> ss_ticks s1 = u32 (t0 + el) ->
  (exists s', timer_tick 0 s = Ok tt s' /\ ss_ticks s' = u32 (ss_ticks s + 1) /\
     forall j q, ptable (ss_proc s) !! j = Some q -> exists q', ptable (ss_proc s') !! j = Some q' /\
       (p_state q = SLEEPING -> p_chan q = Some CTicks -> p_state q' = RUNNABLE)) /\
  (nn <= el -> exists s', sys_sleep_resume c intena nn t0 s1 = Ok 0 s') /\
  (el < nn -> p_killed p = true -> exists s', sys_sleep_resume c intena nn t0 s1 = Ok (-1) s') /\
  (el < nn -> p_killed p = false -> exists s' p', sys_sleep_resume c intena nn t0 s1 = Sleep CTicks s' /\
     ptable (ss_proc s') !! i = Some p' /\ p_state p' = SLEEPING /\ p_chan p' = Some CTicks).
Proof.
  intros Hcalm Hfree Hlen Hw Hnn Hel Ht0 Hticks. split.
  - destruct (ss_proc s) as [L T n ip f C Q w] eqn:Es. cbn in Hcalm, Hfree, Hlen.
    eexists. split; [by eapply timer_tick_eq|]. split; [done|]. cbn. intros j q Hq.
    exists (wake (Some CTicks) q). split; [by rewrite list_lookup_fmap, Hq|]. intros H1 H2. unfold wake.
    by rewrite !bool_decide_true by done.
  - assert ((u32 (ss_ticks s1 - t0) <? u32 nn) = (el <? nn)) as Ela.
    { rewrite Hticks, (u32_same nn) by (unfold is_u32; lia). f_equal. rewrite <- (u32_same t0) at 2 by done.
      rewrite <- (Z.add_0_r t0) at 2. rewrite u32_sub; lia. }
    destruct (woken_loop c i p intena nn t0 s1 Hw) as (L & T & n & ip & f & C & Q & w & k' & Hc' & Hk' & Hf' & Hi' & ->).
    pose proof (sleep_turn c i _ k' nn t0 L T n ip f C Q w s1 Hc' Hk' Hf' Hi') as Hturn. cbv zeta in Hturn.
    rewrite Ela in Hturn. cbn [set_chan p_killed] in Hturn.
    split; [|split]; intros Hcmp; [rewrite (proj2 (Z.ltb_ge _ _) Hcmp) in Hturn|intros Hkl; rewrite (proj2 (Z.ltb_lt _ _) Hcmp), Hkl in Hturn..];
      cbn [andb negb] in Hturn; [done|done|]. destruct Hturn as (s' & E & p' & H). by exists s', p'.
Qed.
End traps.

(** A negative argument is taken as a large unsigned one: [sleep(-1)] does not
    return at once. *)
Lemma negative_sleep {W : Type} `{!Kernel W} c i p k L T n ip f C Q (w : W) s :
  ProcInv.calm c k L C -> c_proc k = Some i -> L !! TICKS_LOCK = Some free_lock -> T !! i = Some p ->
  p_killed p = false ->
  exists s', (on_proc (acquire_lk c TICKS_LOCK) ;; sys_sleep_loop c (-1) (ss_ticks s))
    (set_ss_proc (PState L T n ip f C Q w) s) = Sleep CTicks s'.
Proof.
  intros Hc Hk Hf Hi Hkl. pose proof (sleep_turn c i p k (-1) (ss_ticks s) L T n ip f C Q w s Hc Hk Hf Hi) as H.
  cbv zeta in H. rewrite Z.sub_diag, Hkl in H. destruct H as (s' & E & _). by exists s'.
Qed.

(** * Runs *)

(** The first process makes the system call [getpid]. *)
Definition demo_tf : trapframe := Trapframe 0 0 0 0 0 0 0 11 0 0 35 35 T_SYSCALL 0 0 35 512 4000 35.
Definition demo_trap : sstate Z := SState demo_init 0 ∅ demo_console (Kbd 0 []) [] 0.
Definition demo_sysfile (_ : sysno) : M (sstate Z) Z := ret (-1).
Definition demo_ebp (_ : nat) : Z := 0.
Definition demo_ide : M (sstate Z) unit := ret tt.
Definition demo_trap_end : sstate Z :=
  match trap demo_sysfile demo_ide demo_ebp 0 0 0 demo_tf demo_trap with Ok _ s => s | _ => demo_trap end.

Lemma demo_trap_back : trap demo_sysfile demo_ide demo_ebp 0 0 0 demo_tf demo_trap = Ok Back demo_trap_end.
Proof. vm_compute. reflexivity. Qed.

Lemma demo_trap_pid : (tf_eax <$> p_tf (proc_at 0 (ss_proc demo_trap_end))) = Some 1.
Proof. vm_compute. reflexivity. Qed.

(** A process that has slept through the wrap of the clock. *)
Definition demo_sleeper : proc := set_state RUNNING (set_chan (Some CTicks) proc0).
Definition demo_woken : sstate Z :=
  SState (PState [Spinlock true (Some 0%nat); free_lock] (demo_sleeper :: replicate 63 proc0) 2 None false
            [Cpu 1 true false (Some 0%nat)] [None] 0)
    3 ∅ demo_console (Kbd 0 []) [] 0.

(** The same process, asleep in [sleep(10)] and killed there. *)
Definition demo_killed : sstate Z :=
  SState (PState [Spinlock true (Some 0%nat); free_lock] (set_killed true demo_sleeper :: replicate 63 proc0) 2 None false
            [Cpu 1 true false (Some 0%nat)] [None] 0)
    3 ∅ demo_console (Kbd 0 []) [] 0.

Definition demo_killed_end : sstate Z :=
  match call_rest demo_sysfile 0 true (InSleep 10 0) demo_killed with Ok _ s => s | _ => demo_killed end.

Lemma killed_never_returns_witness :
  (killed_at 0 demo_trap_end = false /\ (tf_eax <$> p_tf (proc_at 0 (ss_proc demo_trap_end))) = Some 1) /\
  exists s2, set_result 0 (-1) demo_killed_end = Ok tt s2 /\
    trap_call_resume demo_sysfile 0 true (InSleep 10 0) demo_killed = (on_proc (exit 0 0) ;; ret Gone) s2.
Proof.
  split; [split; [|exact demo_trap_pid]|].
  - apply (proj1 (killed_never_returns demo_sysfile demo_sysfile demo_ide demo_ebp 0 0 0 demo_tf true (InWait 0) demo_trap eq_refl)).
    exact demo_trap_back.
  - destruct (killed_never_returns demo_sysfile demo_sysfile demo_ide demo_ebp 0 0 0 demo_tf true (InSleep 10 0) demo_killed eq_refl)
      as (_ & _ & _ & _ & H & _).
    apply H; vm_compute; reflexivity.
Defined.

Lemma sleep_duration_witness :
  (exists s', timer_tick 0 demo_trap = Ok tt s' /\ ss_ticks s' = u32 (0 + 1) /\
     forall j q, ptable (ss_proc demo_trap) !! j = Some q -> exists q', ptable (ss_proc s') !! j = Some q' /\
       (p_state q = SLEEPING -> p_chan q = Some CTicks -> p_state q' = RUNNABLE)) /\
  (10 <= 5 -> exists s', sys_sleep_resume 0 true 10 (2 ^ 32 - 2) demo_woken = Ok 0 s') /\
  (5 < 10 -> p_killed demo_sleeper = true -> exists s', sys_sleep_resume 0 true 10 (2 ^ 32 - 2) demo_woken = Ok (-1) s') /\
  (5 < 10 -> p_killed demo_sleeper = false ->
     exists s' p', sys_sleep_resume 0 true 10 (2 ^ 32 - 2) demo_woken = Sleep CTicks s' /\
     ptable (ss_proc s') !! 0%nat = Some p' /\ p_state p' = SLEEPING /\ p_chan p' = Some CTicks).
Proof.
  apply (sleep_duration 0 0 (default (Cpu 0 false false None) (cpus demo_init !! 0%nat)) demo_sleeper true 10 (2 ^ 32 - 2) 5
           demo_trap demo_woken).
  - split; [|split]; vm_compute; reflexivity.
  - vm_compute; reflexivity.
  - vm_compute; reflexivity.
  - split; [reflexivity|exists true; reflexivity|reflexivity|reflexivity].
  - lia.
  - lia.
  - unfold is_u32. lia.
  - reflexivity.
Defined.
