(* ===== verification/Machine.v ===== *)
(** The hardware as the kernel sees it, and the code that programs its interrupt
    controllers, timers and clock: picirq.c, ioapic.c, timer.c, lapic.c and uart.c
    ([uartinit]), and [consoleinit] of console.c. *)
From stdpp Require Import base numbers list gmap strings.
From Stdlib Require Import ZArith Lia.
From S2P Require Import Proc Ulib Mem Prelude Bytes Kalloc Console Syscall.

Open Scope kernel_scope.

(** * The hardware *)

(** Input and output instructions (x86.h), and loads and stores of [volatile]
    words at the addresses of device registers. *)
Class Machine (H : Type) := {
  inb : Z -> H -> Z * H;
  outb : Z -> Z -> H -> H;
  insl : Z -> Z -> H -> list Z * H;
  outsl : Z -> list Z -> H -> H;
  vload : Z -> H -> Z * H;
  vstore : Z -> Z -> H -> H
}.

(** The variables of these files, the memory that they read and write, and the
    console.  [m_apicid] are the [apicid] fields of [cpus], [m_lapic] is 0 where
    the pointer is null, and [m_nocli] is the static variable of [cpunum]. *)
Record mach (H : Type) := Mach {
  m_irqmask : Z;
  m_ioapic : Z;
  m_ioapicid : Z;
  m_ismp : bool;
  m_ncpu : Z;
  m_apicid : list Z;
  m_lapic : Z;
  m_nocli : Z;
  m_mem : mem;
  m_con : console;
  m_hw : H
}.
Arguments Mach {H} _ _ _ _ _ _ _ _ _ _ _.
Arguments m_irqmask {H} _.
Arguments m_ioapic {H} _.
Arguments m_ioapicid {H} _.
Arguments m_ismp {H} _.
Arguments m_ncpu {H} _.
Arguments m_apicid {H} _.
Arguments m_lapic {H} _.
Arguments m_nocli {H} _.
Arguments m_mem {H} _.
Arguments m_con {H} _.
Arguments m_hw {H} _.

Section machine.
Context {H : Type}.

Definition set_irqmask (v : Z) (s : mach H) : mach H :=
  Mach v (m_ioapic s) (m_ioapicid s) (m_ismp s) (m_ncpu s) (m_apicid s) (m_lapic s) (m_nocli s) (m_mem s) (m_con s) (m_hw s).
Definition set_ioapic (v : Z) (s : mach H) : mach H :=
  Mach (m_irqmask s) v (m_ioapicid s) (m_ismp s) (m_ncpu s) (m_apicid s) (m_lapic s) (m_nocli s) (m_mem s) (m_con s) (m_hw s).
Definition set_ioapicid (v : Z) (s : mach H) : mach H :=
  Mach (m_irqmask s) (m_ioapic s) v (m_ismp s) (m_ncpu s) (m_apicid s) (m_lapic s) (m_nocli s) (m_mem s) (m_con s) (m_hw s).
Definition set_ismp (v : bool) (s : mach H) : mach H :=
  Mach (m_irqmask s) (m_ioapic s) (m_ioapicid s) v (m_ncpu s) (m_apicid s) (m_lapic s) (m_nocli s) (m_mem s) (m_con s) (m_hw s).
Definition set_ncpu (v : Z) (s : mach H) : mach H :=
  Mach (m_irqmask s) (m_ioapic s) (m_ioapicid s) (m_ismp s) v (m_apicid s) (m_lapic s) (m_nocli s) (m_mem s) (m_con s) (m_hw s).
Definition set_apicid (v : list Z) (s : mach H) : mach H :=
  Mach (m_irqmask s) (m_ioapic s) (m_ioapicid s) (m_ismp s) (m_ncpu s) v (m_lapic s) (m_nocli s) (m_mem s) (m_con s) (m_hw s).
Definition set_lapic (v : Z) (s : mach H) : mach H :=
  Mach (m_irqmask s) (m_ioapic s) (m_ioapicid s) (m_ismp s) (m_ncpu s) (m_apicid s) v (m_nocli s) (m_mem s) (m_con s) (m_hw s).
Definition set_nocli (v : Z) (s : mach H) : mach H :=
  Mach (m_irqmask s) (m_ioapic s) (m_ioapicid s) (m_ismp s) (m_ncpu s) (m_apicid s) (m_lapic s) v (m_mem s) (m_con s) (m_hw s).
Definition set_m_mem (v : mem) (s : mach H) : mach H :=
  Mach (m_irqmask s) (m_ioapic s) (m_ioapicid s) (m_ismp s) (m_ncpu s) (m_apicid s) (m_lapic s) (m_nocli s) v (m_con s) (m_hw s).
Definition set_con (v : console) (s : mach H) : mach H :=
  Mach (m_irqmask s) (m_ioapic s) (m_ioapicid s) (m_ismp s) (m_ncpu s) (m_apicid s) (m_lapic s) (m_nocli s) (m_mem s) v (m_hw s).
Definition set_hw (v : H) (s : mach H) : mach H :=
  Mach (m_irqmask s) (m_ioapic s) (m_ioapicid s) (m_ismp s) (m_ncpu s) (m_apicid s) (m_lapic s) (m_nocli s) (m_mem s) (m_con s) v.

Context `{!Machine H}.

(** The instructions as kernel code; a port takes a byte. *)
Definition pin (port : Z) : M (mach H) Z := fun s => let r := inb port (m_hw s) in Ok r.1 (set_hw r.2 s).
Definition pout (port v : Z) : M (mach H) unit := modify (fun s => set_hw (outb port (u8 v) (m_hw s)) s).
Definition pins (port cnt : Z) : M (mach H) (list Z) :=
  fun s => let r := insl port cnt (m_hw s) in Ok r.1 (set_hw r.2 s).
Definition pouts (port : Z) (data : list Z) : M (mach H) unit :=
  modify (fun s => set_hw (outsl port data (m_hw s)) s).
Definition vget (a : Z) : M (mach H) Z := fun s => let r := vload a (m_hw s) in Ok r.1 (set_hw r.2 s).
Definition vput (a v : Z) : M (mach H) unit := modify (fun s => set_hw (vstore a (u32 v) (m_hw s)) s).
Definition mcprintf (fmt : list Z) (args : list carg) : M (mach H) unit := zoom m_con set_con (cprintf fmt args).

(** * picirq.c *)

Definition IO_PIC1 : Z := 0x20.
Definition IO_PIC2 : Z := 0xA0.
Definition IRQ_SLAVE : Z := 2.
Definition irqmask0 : Z := Z.land 0xFFFF (Z.lnot (Z.shiftl 1 IRQ_SLAVE)).

Definition picsetmask (mask : Z) : M (mach H) unit :=
  modify (set_irqmask mask) ;;
  pout (IO_PIC1 + 1) mask ;;
  pout (IO_PIC2 + 1) (Z.shiftr mask 8).

Definition picenable (irq : Z) : M (mach H) unit :=
  m <- gets m_irqmask ;;
  picsetmask (u16 (Z.land m (Z.lnot (Z.shiftl 1 irq)))).

Definition picinit : M (mach H) unit :=
  pout (IO_PIC1 + 1) 0xFF ;;
  pout (IO_PIC2 + 1) 0xFF ;;
  pout IO_PIC1 0x11 ;;
  pout (IO_PIC1 + 1) T_IRQ0 ;;
  pout (IO_PIC1 + 1) (Z.shiftl 1 IRQ_SLAVE) ;;
  pout (IO_PIC1 + 1) 0x3 ;;
  pout IO_PIC2 0x11 ;;
  pout (IO_PIC2 + 1) (T_IRQ0 + 8) ;;
  pout (IO_PIC2 + 1) IRQ_SLAVE ;;
  pout (IO_PIC2 + 1) 0x3 ;;
  pout IO_PIC1 0x68 ;;
  pout IO_PIC1 0x0a ;;
  pout IO_PIC2 0x68 ;;
  pout IO_PIC2 0x0a ;;
  m <- gets m_irqmask ;;
  when (negb (m =? 0xFFFF)) (picsetmask m).

(** * ioapic.c *)

Definition IOAPIC : Z := 0xFEC00000.
Definition REG_ID : Z := 0x00.
Definition REG_VER : Z := 0x01.
Definition REG_TABLE : Z := 0x10.
Definition INT_DISABLED : Z := 0x00010000.

(** [struct ioapic]: [reg] at offset 0, [data] at offset 16. *)
Definition ioapicread (reg : Z) : M (mach H) Z :=
  a <- gets m_ioapic ;;
  vput a reg ;;
  vget (a + 16).

Definition ioapicwrite (reg data : Z) : M (mach H) unit :=
  a <- gets m_ioapic ;;
  vput a reg ;;
  vput (a + 16) data.

Definition ioapicinit : M (mach H) unit :=
  mp <- gets m_ismp ;;
  if negb mp then ret tt else
  modify (set_ioapic IOAPIC) ;;
  v <- ioapicread REG_VER ;;
  let maxintr := Z.land (Z.shiftr v 16) 0xFF in
  i <- ioapicread REG_ID ;;
  n <- gets m_ioapicid ;;
  when (negb (Z.shiftr i 24 =? n))
    (mcprintf (bs "ioapicinit: id isn't equal to ioapicid; not a MP" ++ [10]) []) ;;
  mfor (Z.to_nat (maxintr + 1)) 0 (fun i =>
    ioapicwrite (REG_TABLE + 2 * i) (Z.lor INT_DISABLED (T_IRQ0 + i)) ;;
    ioapicwrite (REG_TABLE + 2 * i + 1) 0).

Definition ioapicenable (irq cpunum : Z) : M (mach H) unit :=
  mp <- gets m_ismp ;;
  if negb mp then ret tt else
  ioapicwrite (REG_TABLE + 2 * irq) (T_IRQ0 + irq) ;;
  ioapicwrite (REG_TABLE + 2 * irq + 1) (Z.shiftl cpunum 24).

(** * timer.c *)

Definition IO_TIMER1 : Z := 0x040.
Definition TIMER_FREQ : Z := 1193182.
Definition TIMER_DIV (x : Z) : Z := (TIMER_FREQ + x / 2) / x.
Definition TIMER_MODE : Z := IO_TIMER1 + 3.
Definition TIMER_SEL0 : Z := 0x00.
Definition TIMER_RATEGEN : Z := 0x04.
Definition TIMER_16BIT : Z := 0x30.

Definition timerinit : M (mach H) unit :=
  pout TIMER_MODE (Z.lor (Z.lor TIMER_SEL0 TIMER_RATEGEN) TIMER_16BIT) ;;
  pout IO_TIMER1 (TIMER_DIV 100 mod 256) ;;
  pout IO_TIMER1 (TIMER_DIV 100 / 256) ;;
  picenable IRQ_TIMER.

(** * lapic.c *)

Definition ID : Z := 0x0020 / 4.
Definition VER : Z := 0x0030 / 4.
Definition TPR : Z := 0x0080 / 4.
Definition EOI : Z := 0x00B0 / 4.
Definition SVR : Z := 0x00F0 / 4.
Definition ENABLE : Z := 0x00000100.
Definition ESR : Z := 0x0280 / 4.
Definition ICRLO : Z := 0x0300 / 4.
Definition INIT : Z := 0x00000500.
Definition STARTUP : Z := 0x00000600.
Definition DELIVS : Z := 0x00001000.
Definition ASSERT : Z := 0x00004000.
Definition LEVEL : Z := 0x00008000.
Definition BCAST : Z := 0x00080000.
Definition ICRHI : Z := 0x0310 / 4.
Definition TIMER : Z := 0x0320 / 4.
Definition X1 : Z := 0x0000000B.
Definition PERIODIC : Z := 0x00020000.
Definition PCINT : Z := 0x0340 / 4.
Definition LINT0 : Z := 0x0350 / 4.
Definition LINT1 : Z := 0x0360 / 4.
Definition ERROR : Z := 0x0370 / 4.
Definition MASKED : Z := 0x00010000.
Definition TICR : Z := 0x0380 / 4.
Definition TDCR : Z := 0x03E0 / 4.
Definition IRQ_ERROR : Z := 19.

(** [lapic[index]]. *)
Definition lapicr (index : Z) : M (mach H) Z :=
  a <- gets m_lapic ;;
  vget (u32 (a + 4 * index)).

Definition lapicw (index value : Z) : M (mach H) unit :=
  a <- gets m_lapic ;;
  vput (u32 (a + 4 * index)) value ;;
  lapicr ID ;;
  ret tt.

(** [while(lapic[ICRLO] & DELIVS)]. *)
Fixpoint lapic_delivs (fuel : nat) : M (mach H) unit :=
  match fuel with
  | O => diverge
  | S fl =>
      v <- lapicr ICRLO ;;
      if negb (Z.land v DELIVS =? 0) then lapic_delivs fl else ret tt
  end.

Definition lapicinit (fuel : nat) : M (mach H) unit :=
  a <- gets m_lapic ;;
  if a =? 0 then ret tt else
  lapicw SVR (Z.lor ENABLE (T_IRQ0 + IRQ_SPURIOUS)) ;;
  lapicw TDCR X1 ;;
  lapicw TIMER (Z.lor PERIODIC (T_IRQ0 + IRQ_TIMER)) ;;
  lapicw TICR 10000000 ;;
  lapicw LINT0 MASKED ;;
  lapicw LINT1 MASKED ;;
  v <- lapicr VER ;;
  when (4 <=? Z.land (Z.shiftr v 16) 0xFF) (lapicw PCINT MASKED) ;;
  lapicw ERROR (T_IRQ0 + IRQ_ERROR) ;;
  lapicw ESR 0 ;;
  lapicw ESR 0 ;;
  lapicw EOI 0 ;;
  lapicw ICRHI 0 ;;
  lapicw ICRLO (Z.lor (Z.lor BCAST INIT) LEVEL) ;;
  lapic_delivs fuel ;;
  lapicw TPR 0.

(** [cpunum]: [ifl] tells whether interrupts are enabled, [ra] is the address of
    the caller. *)
Definition cpunum (ifl : bool) (ra : Z) : M (mach H) Z :=
  when ifl
    (n <- gets m_nocli ;;
     modify (set_nocli (i32 (n + 1))) ;;
     when (n =? 0)
       (mcprintf (bs "cpu called from %x with interrupts enabled" ++ [10]) [CInt ra])) ;;
  a <- gets m_lapic ;;
  if a =? 0 then ret 0 else
  v <- lapicr ID ;;
  let apicid := Z.shiftr v 24 in
  n <- gets m_ncpu ;;
  r <- mfind (Z.to_nat n) 0 (fun i =>
    ids <- gets m_apicid ;;
    ret (if nth (Z.to_nat i) ids 0 =? apicid then Some i else None)) ;;
  match r with
  | Some i => ret i
  | None => panic (String.append "unknown apicid" (String (Ascii.ascii_of_nat 10) EmptyString))
  end.

Definition lapiceoi : M (mach H) unit :=
  a <- gets m_lapic ;;
  when (negb (a =? 0)) (lapicw EOI 0).

Definition microdelay (us : Z) : M (mach H) unit := ret tt.

Definition CMOS_PORT : Z := 0x70.
Definition CMOS_RETURN : Z := 0x71.

(** [wrv] points at 16-bit words. *)
Definition put16 (a v : Z) : M (mach H) unit :=
  modify (fun s => set_m_mem (st (st (m_mem s) a (u8 v)) (a + 1) (u8 (Z.shiftr v 8))) s).

Definition lapicstartap (apicid addr : Z) : M (mach H) unit :=
  pout CMOS_PORT 0xF ;;
  pout (CMOS_PORT + 1) 0x0A ;;
  let wrv := P2V (Z.lor (Z.shiftl 0x40 4) 0x67) in
  put16 wrv 0 ;;
  put16 (wrv + 2) (Z.shiftr addr 4) ;;
  lapicw ICRHI (Z.shiftl apicid 24) ;;
  lapicw ICRLO (Z.lor (Z.lor INIT LEVEL) ASSERT) ;;
  microdelay 200 ;;
  lapicw ICRLO (Z.lor INIT LEVEL) ;;
  microdelay 100 ;;
  mfor 2 0 (fun _ =>
    lapicw ICRHI (Z.shiftl apicid 24) ;;
    lapicw ICRLO (Z.lor STARTUP (Z.shiftr addr 12)) ;;
    microdelay 200).

(** ** The clock *)

Definition CMOS_STATA : Z := 0x0a.
Definition CMOS_STATB : Z := 0x0b.
Definition CMOS_UIP : Z := Z.shiftl 1 7.
Definition SECS : Z := 0x00.
Definition MINS : Z := 0x02.
Definition HOURS : Z := 0x04.
Definition DAY : Z := 0x07.
Definition MONTH : Z := 0x08.
Definition YEAR : Z := 0x09.

(** [struct rtcdate]. *)
Record rtcdate := Rtcdate { second : Z; minute : Z; hour : Z; day : Z; month : Z; year : Z }.

#[export] Instance rtcdate_eq_dec : EqDecision rtcdate.
Proof. solve_decision. Defined.

Definition cmos_read (reg : Z) : M (mach H) Z :=
  pout CMOS_PORT reg ;;
  microdelay 200 ;;
  pin CMOS_RETURN.

Definition fill_rtcdate : M (mach H) rtcdate :=
  s <- cmos_read SECS ;;
  m <- cmos_read MINS ;;
  h <- cmos_read HOURS ;;
  d <- cmos_read DAY ;;
  mo <- cmos_read MONTH ;;
  y <- cmos_read YEAR ;;
  ret (Rtcdate s m h d mo y).

(** The loop of [cmostime]. *)
Fixpoint cmos_stable (fuel : nat) : M (mach H) rtcdate :=
  match fuel with
  | O => diverge
  | S fl =>
      t1 <- fill_rtcdate ;;
      a <- cmos_read CMOS_STATA ;;
      if negb (Z.land a CMOS_UIP =? 0) then cmos_stable fl else
      t2 <- fill_rtcdate ;;
      if decide (t1 = t2) then ret t1 else cmos_stable fl
  end.

Definition CONV (x : Z) : Z := Z.shiftr x 4 * 10 + Z.land x 0xf.

Definition cmostime (fuel : nat) : M (mach H) rtcdate :=
  sb <- cmos_read CMOS_STATB ;;
  let bcd := Z.land sb (Z.shiftl 1 2) =? 0 in
  t1 <- cmos_stable fuel ;;
  let t1 :=
    if bcd then
      Rtcdate (CONV (second t1)) (CONV (minute t1)) (CONV (hour t1)) (CONV (day t1)) (CONV (month t1)) (CONV (year t1))
    else t1 in
  ret (Rtcdate (second t1) (minute t1) (hour t1) (day t1) (month t1) (year t1 + 2000)).

(** * uart.c: [uartinit] *)

Definition COM1 : Z := 0x3f8.

Definition set_cn_uart (b : bool) (s : console) : console :=
  Console (cn_lock s) (cn_locking s) (cn_panicked s) (cn_input s) (cn_cga s) b (cn_sent s) (cn_ip s) (cn_woken s).

Fixpoint uartputs (l : list Z) : M console unit :=
  match l with
  | [] => ret tt
  | c :: l' => uartputc c ;; uartputs l'
  end.

Definition uartinit : M (mach H) unit :=
  pout (COM1 + 2) 0 ;;
  pout (COM1 + 3) 0x80 ;;
  pout (COM1 + 0) (115200 / 9600) ;;
  pout (COM1 + 1) 0 ;;
  pout (COM1 + 3) 0x03 ;;
  pout (COM1 + 4) 0 ;;
  pout (COM1 + 1) 0x01 ;;
  st <- pin (COM1 + 5) ;;
  if st =? 0xFF then ret tt else
  modify (fun s => set_con (set_cn_uart true (m_con s)) s) ;;
  pin (COM1 + 2) ;;
  pin (COM1 + 0) ;;
  picenable IRQ_COM1 ;;
  ioapicenable IRQ_COM1 0 ;;
  zoom m_con set_con (uartputs (bs "xv6..." ++ [10])).

(** * console.c: [consoleinit] *)

(** The variables of the console, and the interrupt of the keyboard. *)
Definition consoleinit : M (mach H) unit :=
  zoom m_con set_con Console.consoleinit ;;
  picenable IRQ_KBD ;;
  ioapicenable IRQ_KBD 0.
End machine.
