(* ===== verification/Irq.v ===== *)
(** What the interrupt controllers and the clock do after the kernel has programmed
    them: the routing of interrupts (ioapic.c, picirq.c), the processor that the
    kernel runs on, and the time of day (lapic.c). *)
From stdpp Require Import base numbers list gmap strings.
From Stdlib Require Import ZArith Lia.
From S2P Require Import Mem Console Syscall Prelude Bytes Machine.

Open Scope kernel_scope.

(** * The I/O APIC *)

(** The controller as its data sheet describes it: a store to the first word selects
    a register, and the word at 16 is a window on that register.  [io_max] is the
    number of the last interrupt line. *)
Class IoApic (H : Type) `{!Machine H} := {
  io_sel : H -> Z;
  io_regs : H -> gmap Z Z;
  io_max : Z;
  io_select : forall v h, io_sel (vstore IOAPIC v h) = v /\ io_regs (vstore IOAPIC v h) = io_regs h;
  io_store : forall v h, REG_TABLE <= io_sel h < REG_TABLE + 2 * (io_max + 1) ->
    io_sel (vstore (IOAPIC + 16) v h) = io_sel h /\ io_regs (vstore (IOAPIC + 16) v h) = <[io_sel h := v]> (io_regs h);
  io_load : forall h, exists h', vload (IOAPIC + 16) h = (default 0 (io_regs h !! io_sel h), h') /\ io_regs h' = io_regs h;
  io_version : forall h, Z.land (Z.shiftr (default 0 (io_regs h !! REG_VER)) 16) 0xFF = io_max
}.

Section ioapic.
Context {H : Type} `{!Machine H, !IoApic H}.
Implicit Types m : mach H.

(** What both keep of the machine. *)
Definition same_mp (m m' : mach H) : Prop :=
  m_ismp m' = m_ismp m /\ m_ioapic m' = m_ioapic m /\ m_ioapicid m' = m_ioapicid m.

Lemma ioapicread_ok r m : m_ioapic m = IOAPIC -> is_u32 r ->
  exists m', ioapicread r m = Ok (default 0 (io_regs (m_hw m) !! r)) m' /\ io_regs (m_hw m') = io_regs (m_hw m) /\ same_mp m m'.
Proof.
  intros Hi Hr. unfold ioapicread, bind, gets, vput, modify, vget. rewrite Hi. cbn [m_hw set_hw].
  destruct (io_select (u32 r) (m_hw m)) as [E1 E2]. destruct (io_load (vstore IOAPIC (u32 r) (m_hw m))) as (h' & -> & E3).
  rewrite E1, E2, u32_small by exact Hr. eexists. split; [done|]. split; [|done]. cbn [m_hw set_hw snd]. by rewrite E3, E2.
Qed.

Lemma ioapicwrite_ok r v m : m_ioapic m = IOAPIC -> is_u32 r -> is_u32 v -> REG_TABLE <= r < REG_TABLE + 2 * (io_max + 1) ->
  exists m', ioapicwrite r v m = Ok tt m' /\ io_regs (m_hw m') = <[r := v]> (io_regs (m_hw m)) /\ same_mp m m'.
Proof.
  intros Hi Hr Hv Ht. unfold ioapicwrite, bind, gets, vput, modify. rewrite Hi. cbn [m_hw set_hw].
  destruct (io_select (u32 r) (m_hw m)) as [E1 E2]. rewrite (u32_small v) by exact Hv. rewrite (u32_small r) in * by exact Hr.
  destruct (io_store v (vstore IOAPIC r (m_hw m))) as [E3 E4]; [by rewrite E1|].
  eexists. split; [done|]. split; [|done]. cbn [m_hw set_hw]. by rewrite E4, E1, E2.
Qed.

(** The redirection entry of line [i]: its two registers. *)
Definition io_entry (h : H) (i : Z) : option Z * option Z := (io_regs h !! (REG_TABLE + 2 * i), io_regs h !! (REG_TABLE + 2 * i + 1)).

(** Both registers of a line are written. *)
Lemma entry_ok i lo hi m : m_ioapic m = IOAPIC -> 0 <= i <= io_max -> i < 256 -> is_u32 lo -> is_u32 hi ->
  exists m', (ioapicwrite (REG_TABLE + 2 * i) lo ;; ioapicwrite (REG_TABLE + 2 * i + 1) hi) m = Ok tt m' /\ same_mp m m' /\
    forall j, io_entry (m_hw m') j = if decide (j = i) then (Some lo, Some hi) else io_entry (m_hw m) j.
Proof.
  intros Hi Hr H256 Hlo Hhi. unfold REG_TABLE in *. assert (is_u32 (0x10 + 2 * i) /\ is_u32 (0x10 + 2 * i + 1)) as [U1 U2] by (unfold is_u32; lia).
  destruct (ioapicwrite_ok (0x10 + 2 * i) lo m Hi U1 Hlo ltac:(unfold REG_TABLE; lia)) as (m1 & E1 & R1 & S1 & S2 & S3).
  destruct (ioapicwrite_ok (0x10 + 2 * i + 1) hi m1 ltac:(congruence) U2 Hhi ltac:(unfold REG_TABLE; lia)) as (m2 & E2 & R2 & T1 & T2 & T3).
  exists m2. rewrite (bind_ok _ _ _ _ _ E1). split; [done|]. split; [unfold same_mp; split_and!; congruence|].
  intros j. unfold io_entry, REG_TABLE. rewrite R2, R1. destruct (decide (j = i)) as [->|Hne].
  - rewrite lookup_insert_ne, !lookup_insert_eq by lia. done.
  - by rewrite !lookup_insert_ne by lia.
Qed.

(** The requests of the drivers, each [(irq, cpu)], and the last one for a line. *)
Fixpoint enable_all (reqs : list (Z * Z)) : M (mach H) unit :=
  match reqs with
  | [] => ret tt
  | (irq, cpu) :: reqs => ioapicenable irq cpu ;; enable_all reqs
  end.
Fixpoint route (reqs : list (Z * Z)) (i : Z) : option Z :=
  match reqs with
  | [] => None
  | (irq, cpu) :: reqs => match route reqs i with Some c => Some c | None => if irq =? i then Some cpu else None end
  end.

Lemma init_loop_ok n i m : m_ioapic m = IOAPIC -> 0 <= i -> i + Z.of_nat n <= io_max + 1 -> i + Z.of_nat n <= 256 ->
  exists m', mfor n i (fun i => ioapicwrite (REG_TABLE + 2 * i) (Z.lor INT_DISABLED (T_IRQ0 + i)) ;; ioapicwrite (REG_TABLE + 2 * i + 1) 0) m = Ok tt m' /\
    same_mp m m' /\ forall j, io_entry (m_hw m') j =
      if decide (i <= j < i + Z.of_nat n) then (Some (Z.lor INT_DISABLED (T_IRQ0 + j)), Some 0) else io_entry (m_hw m) j.
Proof.
  revert i m. induction n as [|n IH]; intros i m Hm Hi H1 H2; cbn [mfor].
  - exists m. split; [done|]. split; [done|]. intros j. by rewrite decide_False by lia.
  - assert (is_u32 (Z.lor INT_DISABLED (T_IRQ0 + i))) as U.
    { unfold INT_DISABLED, T_IRQ0, is_u32. split; [apply Z.lor_nonneg; lia|]. apply Z.log2_lt_pow2.
      - assert (Z.lor 0x10000 (32 + i) <> 0) by (rewrite Z.lor_eq_0_iff; lia). pose proof (proj2 (Z.lor_nonneg 0x10000 (32 + i)) ltac:(lia)). lia.
      - rewrite Z.log2_lor by lia. apply Z.max_lub_lt; [done|]. apply Z.log2_lt_pow2; lia. }
    destruct (entry_ok i _ 0 m Hm ltac:(lia) ltac:(lia) U ltac:(unfold is_u32; lia)) as (m1 & E1 & (S1 & S2 & S3) & R1).
    rewrite (bind_ok _ _ _ _ _ E1).
    destruct (IH (i + 1) m1 ltac:(congruence) ltac:(lia) ltac:(lia) ltac:(lia)) as (m2 & E2 & (T1 & T2 & T3) & R2).
    exists m2. split; [done|]. split; [unfold same_mp; split_and!; congruence|]. intros j. rewrite R2, R1.
    destruct (decide (i + 1 <= j < i + 1 + Z.of_nat n)); [by rewrite decide_True by lia|].
    destruct (decide (j = i)) as [->|]; [by rewrite decide_True by lia|by rewrite decide_False by lia].
Qed.

Lemma enable_all_ok reqs m : m_ioapic m = IOAPIC -> m_ismp m = true -> io_max < 256 ->
  Forall (fun r => 0 <= r.1 <= io_max /\ 0 <= r.2 < 256) reqs ->
  exists m', enable_all reqs m = Ok tt m' /\ forall j, io_entry (m_hw m') j =
    match route reqs j with Some cpu => (Some (T_IRQ0 + j), Some (cpu * 2 ^ 24)) | None => io_entry (m_hw m) j end.
Proof.
  intros Hm Hmp Hmax Hr. revert m Hm Hmp. induction Hr as [|[irq cpu] reqs [Hi Hc] _ IH]; intros m Hm Hmp; cbn [enable_all route fst snd] in *.
  - exists m. done.
  - destruct (entry_ok irq (T_IRQ0 + irq) (Z.shiftl cpu 24) m Hm Hi ltac:(lia)) as (m1 & E1 & (S1 & S2 & S3) & R1).
    { unfold T_IRQ0, is_u32. lia. }
    { rewrite Z.shiftl_mul_pow2 by lia. unfold is_u32. lia. }
    assert (ioapicenable irq cpu m = Ok tt m1) as E1'.
    { unfold ioapicenable, bind at 1, gets at 1. rewrite Hmp. exact E1. }
    rewrite (bind_ok _ _ _ _ _ E1'). destruct (IH m1 ltac:(congruence) ltac:(congruence)) as (m2 & E2 & R2).
    exists m2. split; [done|]. intros j. rewrite R2, R1. destruct (route reqs j); [done|]. rewrite Z.shiftl_mul_pow2 by lia.
    destruct (decide (j = irq)) as [->|Hne]; [by rewrite Z.eqb_refl|]. by destruct (Z.eqb_spec irq j); [lia|].
Qed.

(** C40. Interrupt routing.  On a multiprocessor whose I/O APIC has the number that the
    MP table gives it, after [ioapicinit] and any calls of [ioapicenable] a line of the
    controller delivers the vector [T_IRQ0] plus its number to the processor that was
    asked for last, and every line that no driver has enabled is disabled. *)
Theorem interrupt_routing reqs m :
  m_ismp m = true -> Z.shiftr (default 0 (io_regs (m_hw m) !! REG_ID)) 24 = m_ioapicid m ->
  Forall (fun r => 0 <= r.1 <= io_max /\ 0 <= r.2 < 256) reqs ->
  exists m', (ioapicinit ;; enable_all reqs) m = Ok tt m' /\ forall i, 0 <= i <= io_max ->
    io_entry (m_hw m') i =
    match route reqs i with
    | Some cpu => (Some (T_IRQ0 + i), Some (cpu * 2 ^ 24))
    | None => (Some (Z.lor INT_DISABLED (T_IRQ0 + i)), Some 0)
    end.
Proof.
  intros Hmp Hid Hr. unfold ioapicinit.
  assert (0 <= io_max < 256) as Hmax.
  { rewrite <- (io_version (m_hw m)). change 0xFF with (Z.ones 8). rewrite Z.land_ones by lia. by apply Z.mod_pos_bound. }
  rewrite bind_assoc. unfold bind at 1, gets at 1. rewrite Hmp. cbn [negb].
  rewrite bind_assoc. rewrite (bind_ok _ _ _ tt (set_ioapic IOAPIC m)) by reflexivity. set (m0 := set_ioapic IOAPIC m).
  destruct (ioapicread_ok REG_VER m0 eq_refl ltac:(done)) as (m1 & E1 & R1 & S1 & S2 & S3).
  rewrite bind_assoc, (bind_ok _ _ _ _ _ E1). rewrite io_version.
  destruct (ioapicread_ok REG_ID m1 ltac:(by rewrite S2) ltac:(done)) as (m2 & E2 & R2 & T1 & T2 & T3).
  rewrite bind_assoc, (bind_ok _ _ _ _ _ E2), R1. rewrite bind_assoc. unfold bind at 1, gets at 1.
  rewrite T3, S3. cbn [m_ioapicid m0 set_ioapic m_hw]. rewrite Hid, Z.eqb_refl. cbn [negb when].
  rewrite bind_assoc. rewrite (bind_ok _ _ _ tt m2) by reflexivity.
  destruct (init_loop_ok (Z.to_nat (io_max + 1)) 0 m2) as (m3 & E3 & (U1 & U2 & U3) & R3); [by rewrite T2, S2|lia|lia|lia|].
  rewrite (bind_ok _ _ _ _ _ E3).
  destruct (enable_all_ok reqs m3) as (m4 & E4 & R4); [by rewrite U2, T2, S2|by rewrite U1, T1, S1|lia|done|].
  exists m4. split; [done|]. intros i Hi. rewrite R4. destruct (route reqs i); [done|]. by rewrite R3, decide_True by lia.
Qed.
End ioapic.

(** A controller with 24 lines. *)
Record demo_apic := DemoApic { da_sel : Z; da_regs : gmap Z Z }.

#[export] Instance demo_apic_machine : Machine demo_apic := {
  inb := fun _ h => (0, h);
  outb := fun _ _ h => h;
  insl := fun _ _ h => ([], h);
  outsl := fun _ _ h => h;
  vload := fun _ h => (default 0 (<[REG_VER := 23 * 2 ^ 16]> (da_regs h) !! da_sel h), h);
  vstore := fun a v h => if a =? IOAPIC then DemoApic v (da_regs h) else DemoApic (da_sel h) (<[da_sel h := v]> (da_regs h))
}.

#[export, program] Instance demo_apic_ioapic : IoApic demo_apic := {
  io_sel := da_sel;
  io_regs := fun h => <[REG_VER := 23 * 2 ^ 16]> (da_regs h);
  io_max := 23
}.
Next Obligation. done. Qed.
Next Obligation.
  intros v h Hs. unfold REG_TABLE in Hs. split; [done|]. cbn. unfold REG_VER. rewrite insert_insert_ne by lia. done.
Qed.
Next Obligation. intros h. by exists h. Qed.
Next Obligation. intros h. cbv beta. by rewrite lookup_insert_eq. Qed.

Lemma interrupt_routing_witness :
  let m := Mach irqmask0 0 0 true 2 [0; 1] 0 0 ∅ Console.demo_console (DemoApic 0 ∅) in
  exists m', (ioapicinit ;; enable_all [(IRQ_KBD, 0); (IRQ_COM1, 0); (IRQ_IDE, 1)]) m = Ok tt m' /\ forall i, 0 <= i <= io_max ->
    io_entry (m_hw m') i =
    match route [(IRQ_KBD, 0); (IRQ_COM1, 0); (IRQ_IDE, 1)] i with
    | Some cpu => (Some (T_IRQ0 + i), Some (cpu * 2 ^ 24))
    | None => (Some (Z.lor INT_DISABLED (T_IRQ0 + i)), Some 0)
    end.
Proof.
  intros m. apply (interrupt_routing [(IRQ_KBD, 0); (IRQ_COM1, 0); (IRQ_IDE, 1)] m); [reflexivity|vm_compute; reflexivity|].
  repeat constructor; vm_compute; discriminate.
Defined.

(** * The 8259A *)

(** [picenable] opens one line and leaves the others as they are. *)
Lemma picenable_mask {H} `{!Machine H} irq (m : mach H) :
  0 <= irq < 16 -> 0 <= m_irqmask m < 2 ^ 16 ->
  exists m', picenable irq m = Ok tt m' /\ 0 <= m_irqmask m' < 2 ^ 16 /\
    m_hw m' = outb (IO_PIC2 + 1) (u8 (Z.shiftr (m_irqmask m') 8)) (outb (IO_PIC1 + 1) (u8 (m_irqmask m')) (m_hw m)) /\
    forall i, 0 <= i < 16 -> Z.testbit (m_irqmask m') i = negb (i =? irq) && Z.testbit (m_irqmask m) i.
Proof.
  intros Hi Hm. eexists. split; [reflexivity|]. cbn [m_irqmask m_hw set_hw set_irqmask]. split; [by apply Z.mod_pos_bound|].
  split; [done|]. intros i Hr. unfold u16. rewrite Z.mod_pow2_bits_low, Z.land_spec, Z.lnot_spec, Z.shiftl_1_l by lia.
  destruct (Z.eqb_spec i irq) as [->|Hne]; [rewrite Z.pow2_bits_true by lia; apply andb_false_r|].
  rewrite Z.pow2_bits_false by lia. apply andb_true_r.
Qed.

(** * The processor *)

(** [cpunum] is the index of the processor whose number the local APIC reports. *)
Lemma cpunum_ok {H} `{!Machine H} ra i id h' (m : mach H) :
  m_lapic m <> 0 -> 0 <= id < 256 -> vload (u32 (m_lapic m + 4 * ID)) (m_hw m) = (id * 2 ^ 24, h') ->
  NoDup (m_apicid m) -> m_ncpu m = Z.of_nat (length (m_apicid m)) -> m_apicid m !! i = Some id ->
  cpunum false ra m = Ok (Z.of_nat i) (set_hw h' m).
Proof.
  intros Hl Hid Hv Hnd Hn Hi. unfold cpunum, when. rewrite (bind_ok _ _ _ tt m) by reflexivity. unfold bind at 1, gets at 1.
  rewrite (proj2 (Z.eqb_neq _ _) Hl). unfold bind at 1, lapicr, bind at 1, gets at 1, vget. rewrite Hv. cbn [fst snd].
  unfold bind at 1, gets at 1. cbn [m_ncpu set_hw]. rewrite Hn, Nat2Z.id, Z.shiftr_div_pow2, Z.div_mul by lia.
  enough (forall k j, (k + j = length (m_apicid m))%nat -> (j <= i)%nat -> (i < k + j)%nat ->
    mfind k (Z.of_nat j) (fun i0 => ids <- gets m_apicid ;; ret (if nth (Z.to_nat i0) ids 0 =? id then Some i0 else None)) (set_hw h' m) =
    Ok (Some (Z.of_nat i)) (set_hw h' m)) as E.
  { pose proof (lookup_lt_Some _ _ _ Hi). by rewrite (bind_ok _ _ _ _ _ (E (length (m_apicid m)) 0%nat ltac:(lia) ltac:(lia) ltac:(lia))). }
  induction k as [|k IH]; intros j Hk Hj Hik; [lia|]. cbn [mfind]. unfold bind, gets, ret. cbn [m_apicid set_hw]. rewrite Nat2Z.id.
  destruct (lookup_lt_is_Some_2 (m_apicid m) j ltac:(lia)) as [x Hx]. rewrite (nth_lookup_Some _ _ _ _ Hx).
  destruct (Z.eqb_spec x id) as [->|Hne].
  - by rewrite (NoDup_lookup _ _ _ _ Hnd Hx Hi).
  - assert (j <> i) by congruence. replace (Z.of_nat j + 1) with (Z.of_nat (S j)) by lia. apply IH; lia.
Qed.

(** * The clock *)

(** A clock that does not advance while it is read: [rtc] are its registers. *)
Class Rtc (H : Type) `{!Machine H} := {
  rtc : Z -> H -> Z;
  rtc_read : forall r h, 0 <= r < 128 -> exists h', inb CMOS_RETURN (outb CMOS_PORT r h) = (rtc r h, h') /\ forall r', rtc r' h' = rtc r' h
}.

(** Two decimal digits in a byte. *)
Definition bcd (d : Z) : Z := d / 10 * 16 + d mod 10.

Lemma conv_bcd d : 0 <= d < 100 -> CONV (bcd d) = d.
Proof.
  intros Hd. unfold CONV, bcd. change 0xf with (Z.ones 4). rewrite Z.land_ones, Z.shiftr_div_pow2 by lia.
  change (2 ^ 4) with 16. pose proof (Z.div_mod d 10 ltac:(lia)). pose proof (Z.mod_pos_bound d 10 ltac:(lia)).
  rewrite Z.div_add_l, (Z.div_small (d mod 10)) by lia. replace ((d / 10 * 16 + d mod 10) mod 16) with (d mod 10) by (apply (Z.mod_unique _ _ (d / 10)); lia). lia.
Qed.

Section clock.
Context {H : Type} `{!Machine H, !Rtc H}.

Definition same_clock (h h' : H) : Prop := forall r, rtc r h' = rtc r h.

Lemma cmos_read_ok r m : 0 <= r < 128 ->
  exists m', cmos_read r m = Ok (rtc r (m_hw m)) m' /\ same_clock (m_hw m) (m_hw m').
Proof.
  intros Hr. destruct (rtc_read r (m_hw m) Hr) as (h' & E & Hs). exists (set_hw h' (set_hw (outb CMOS_PORT r (m_hw m)) m)).
  split; [|done]. unfold cmos_read, bind, pout, modify, microdelay, ret, pin. cbn [m_hw set_hw].
  rewrite u8_small by lia. by rewrite E.
Qed.

Definition date_of (h : H) : rtcdate := Rtcdate (rtc SECS h) (rtc MINS h) (rtc HOURS h) (rtc DAY h) (rtc MONTH h) (rtc YEAR h).

Lemma fill_rtcdate_ok m : exists m', fill_rtcdate m = Ok (date_of (m_hw m)) m' /\ same_clock (m_hw m) (m_hw m').
Proof.
  unfold fill_rtcdate, date_of.
  destruct (cmos_read_ok SECS m ltac:(done)) as (m1 & E1 & S1). rewrite (bind_ok _ _ _ _ _ E1).
  destruct (cmos_read_ok MINS m1 ltac:(done)) as (m2 & E2 & S2). rewrite (bind_ok _ _ _ _ _ E2).
  destruct (cmos_read_ok HOURS m2 ltac:(done)) as (m3 & E3 & S3). rewrite (bind_ok _ _ _ _ _ E3).
  destruct (cmos_read_ok DAY m3 ltac:(done)) as (m4 & E4 & S4). rewrite (bind_ok _ _ _ _ _ E4).
  destruct (cmos_read_ok MONTH m4 ltac:(done)) as (m5 & E5 & S5). rewrite (bind_ok _ _ _ _ _ E5).
  destruct (cmos_read_ok YEAR m5 ltac:(done)) as (m6 & E6 & S6). rewrite (bind_ok _ _ _ _ _ E6).
  exists m6. unfold ret, same_clock in *. split; [|congruence]. f_equal. f_equal; congruence.
Qed.

(** [cmostime] gives the date of a clock that counts in decimal digits, as the year
    after 2000. *)
Lemma cmostime_ok fuel m s mi ho d mo y :
  (0 < fuel)%nat -> Z.land (rtc CMOS_STATA (m_hw m)) CMOS_UIP = 0 -> Z.land (rtc CMOS_STATB (m_hw m)) (Z.shiftl 1 2) = 0 ->
  date_of (m_hw m) = Rtcdate (bcd s) (bcd mi) (bcd ho) (bcd d) (bcd mo) (bcd y) ->
  Forall (fun x => 0 <= x < 100) [s; mi; ho; d; mo; y] ->
  exists m', cmostime fuel m = Ok (Rtcdate s mi ho d mo (y + 2000)) m'.
Proof.
  intros Hf Ha Hb Hd Hr. unfold cmostime.
  destruct (cmos_read_ok CMOS_STATB m ltac:(done)) as (m1 & E1 & S1). rewrite (bind_ok _ _ _ _ _ E1), Hb. cbn [Z.eqb].
  destruct fuel as [|fl]; [lia|]. cbn [cmos_stable]. rewrite bind_assoc.
  destruct (fill_rtcdate_ok m1) as (m2 & E2 & S2). rewrite (bind_ok _ _ _ _ _ E2), bind_assoc.
  destruct (cmos_read_ok CMOS_STATA m2 ltac:(done)) as (m3 & E3 & S3). rewrite (bind_ok _ _ _ _ _ E3), S2, S1, Ha. cbn [Z.eqb negb].
  rewrite bind_assoc. destruct (fill_rtcdate_ok m3) as (m4 & E4 & S4). rewrite (bind_ok _ _ _ _ _ E4).
  assert (date_of (m_hw m1) = date_of (m_hw m) /\ date_of (m_hw m3) = date_of (m_hw m)) as [-> ->]
    by (unfold date_of, same_clock in *; split; f_equal; congruence).
  rewrite decide_True by done. rewrite (bind_ok _ _ _ (date_of (m_hw m)) m4) by reflexivity. exists m4. unfold ret. rewrite Hd.
  cbn [second minute hour day month year]. rewrite !Forall_cons in Hr. destruct Hr as (? & ? & ? & ? & ? & ? & _). by rewrite !conv_bcd.
Qed.
End clock.
