(* ===== verification/Mp.v ===== *)
(** mp.c: the search for the tables in which the BIOS describes the processors, and
    what [mpinit] makes of them.  An entry of an unknown type stops the kernel. *)
From stdpp Require Import base numbers list gmap strings.
From Stdlib Require Import ZArith Lia.
From S2P Require Import Ulib Mem Console Prelude Bytes Kalloc Machine.

Open Scope kernel_scope.

Definition NCPU : Z := 8.
Definition MPPROC : Z := 0x00.
Definition MPBUS : Z := 0x01.
Definition MPIOAPIC : Z := 0x02.
Definition MPIOINTR : Z := 0x03.
Definition MPLINTR : Z := 0x04.

(** The sizes of [struct mp], [mpconf], [mpproc] and [mpioapic], and their fields
    in memory (mp.h). *)
Definition SIZE_MP : Z := 16.
Definition SIZE_MPCONF : Z := 44.
Definition SIZE_MPPROC : Z := 20.
Definition SIZE_MPIOAPIC : Z := 8.

Definition ld16 (m : mem) (a : Z) : Z := ld m a + 2 ^ 8 * ld m (a + 1).
Definition mp_physaddr (m : mem) (p : Z) : Z := ld32 m (p + 4).
Definition mp_imcrp (m : mem) (p : Z) : Z := ld m (p + 12).
Definition conf_length (m : mem) (p : Z) : Z := ld16 m (p + 4).
Definition conf_version (m : mem) (p : Z) : Z := ld m (p + 6).
Definition conf_lapicaddr (m : mem) (p : Z) : Z := ld32 m (p + 36).
Definition proc_apicid (m : mem) (p : Z) : Z := ld m (p + 1).
Definition ioapic_apicno (m : mem) (p : Z) : Z := ld m (p + 1).

(** [sum]: an [int] that is cut to a [uchar] at the end. *)
Fixpoint sum_loop (m : mem) (addr i acc : Z) (n : nat) : Z :=
  match n with
  | O => acc
  | S k => sum_loop m addr (i + 1) (i32 (acc + ld m (u32 (addr + i)))) k
  end.
Definition sum (m : mem) (addr len : Z) : Z := u8 (sum_loop m addr 0 0 (Z.to_nat len)).

(** [memcmp(p, s, 4) == 0] with a string constant. *)
Definition signed (m : mem) (p : Z) (s : string) : bool :=
  memcmp (fun i => ld m (u32 (p + i))) (fun i => nth (Z.to_nat i) (bs s) 0) 0 4 =? 0.

Section mp.
Context {H : Type} `{!Machine H}.

(** The loop of [mpsearch1]; the null pointer is 0. *)
Fixpoint mpsearch1_loop (p e : Z) (fuel : nat) : M (mach H) Z :=
  match fuel with
  | O => diverge
  | S fl =>
      if negb (p <? e) then ret 0 else
      m <- gets m_mem ;;
      if signed m p "_MP_" && (sum m p SIZE_MP =? 0) then ret p else
      mpsearch1_loop (u32 (p + SIZE_MP)) e fl
  end.

Definition mpsearch1 (a len : Z) : M (mach H) Z :=
  let addr := P2V a in
  mpsearch1_loop addr (u32 (addr + len)) (S (Z.to_nat len)).

Definition mpsearch : M (mach H) Z :=
  m <- gets m_mem ;;
  let bda := P2V 0x400 in
  let p := Z.shiftl (Z.lor (Z.shiftl (ld m (bda + 0x0F)) 8) (ld m (bda + 0x0E))) 4 in
  mp <- (if negb (p =? 0) then mpsearch1 p 1024
         else
           let p := Z.lor (Z.shiftl (ld m (bda + 0x14)) 8) (ld m (bda + 0x13)) * 1024 in
           mpsearch1 (u32 (p - 1024)) 1024) ;;
  if negb (mp =? 0) then ret mp else mpsearch1 0xF0000 0x10000.

(** [mpconfig]: the addresses of the two structures. *)
Definition mpconfig : M (mach H) (option (Z * Z)) :=
  mp <- mpsearch ;;
  m <- gets m_mem ;;
  if (mp =? 0) || (mp_physaddr m mp =? 0) then ret None else
  let conf := P2V (mp_physaddr m mp) in
  if negb (signed m conf "PCMP") then ret None else
  if negb (conf_version m conf =? 1) && negb (conf_version m conf =? 4) then ret None else
  if negb (sum m conf (conf_length m conf) =? 0) then ret None else
  ret (Some (mp, conf)).

(** The loop of [mpinit].  The [break] of its [default] case leaves the [switch],
    not the loop, and [p] stays where it is. *)
Fixpoint mpinit_loop (p e : Z) (fuel : nat) : M (mach H) unit :=
  match fuel with
  | O => diverge
  | S fl =>
      if negb (p <? e) then ret tt else
      m <- gets m_mem ;;
      let t := ld m p in
      if t =? MPPROC then
        n <- gets m_ncpu ;;
        when (n <? NCPU)
          (modify (fun s => set_apicid (<[Z.to_nat n := proc_apicid m p]> (m_apicid s)) s) ;;
           modify (set_ncpu (n + 1))) ;;
        mpinit_loop (u32 (p + SIZE_MPPROC)) e fl
      else if t =? MPIOAPIC then
        modify (set_ioapicid (ioapic_apicno m p)) ;;
        mpinit_loop (u32 (p + SIZE_MPIOAPIC)) e fl
      else if (t =? MPBUS) || (t =? MPIOINTR) || (t =? MPLINTR) then
        mpinit_loop (u32 (p + 8)) e fl
      else
        modify (set_ismp false) ;;
        mpinit_loop p e fl
  end.

Definition mpinit (fuel : nat) : M (mach H) unit :=
  c <- mpconfig ;;
  match c with
  | None => ret tt
  | Some (mp, conf) =>
      modify (set_ismp true) ;;
      m <- gets m_mem ;;
      modify (set_lapic (conf_lapicaddr m conf)) ;;
      mpinit_loop (u32 (conf + SIZE_MPCONF)) (u32 (conf + conf_length m conf)) fuel ;;
      ok <- gets m_ismp ;;
      if negb ok then
        modify (set_ncpu 1) ;;
        modify (set_lapic 0) ;;
        modify (set_ioapicid 0)
      else
        m <- gets m_mem ;;
        if negb (mp_imcrp m mp =? 0) then
          pout 0x22 0x70 ;;
          v <- pin 0x23 ;;
          pout 0x23 (Z.lor v 1)
        else ret tt
  end.
End mp.

(** * The tables *)

(** The entries of a configuration table. *)
Inductive entry : Type :=
| EProc (apicid : Z)
| EIoapic (apicno : Z)
| EOther.

(** [table m p e es]: the bytes from [p] to [e] are the entries [es]. *)
Inductive table (m : mem) : Z -> Z -> list entry -> Prop :=
| table_end e : table m e e []
| table_proc p e id es :
    ld m p = MPPROC -> ld m (p + 1) = id -> p + SIZE_MPPROC <= e ->
    table m (p + SIZE_MPPROC) e es -> table m p e (EProc id :: es)
| table_ioapic p e id es :
    ld m p = MPIOAPIC -> ld m (p + 1) = id -> p + SIZE_MPIOAPIC <= e ->
    table m (p + SIZE_MPIOAPIC) e es -> table m p e (EIoapic id :: es)
| table_other p e es :
    ld m p = MPBUS \/ ld m p = MPIOINTR \/ ld m p = MPLINTR -> p + 8 <= e ->
    table m (p + 8) e es -> table m p e (EOther :: es).

(** What the tables say: the processors in their order, and the last I/O APIC. *)
Fixpoint cpu_ids (es : list entry) : list Z :=
  match es with
  | [] => []
  | EProc id :: es => id :: cpu_ids es
  | _ :: es => cpu_ids es
  end.
Fixpoint last_ioapic (d : Z) (es : list entry) : Z :=
  match es with
  | [] => d
  | EIoapic id :: es => last_ioapic id es
  | _ :: es => last_ioapic d es
  end.

(** The sum of a list of bytes. *)
Definition zsum (l : list Z) : Z := foldr Z.add 0 l.

Lemma sum_loop_ok m addr n i acc :
  0 <= acc -> acc + 255 * Z.of_nat n < 2 ^ 31 ->
  sum_loop m addr i acc n = acc + zsum ((fun k => ld m (u32 (addr + k))) <$> seqZ i (Z.of_nat n)).
Proof.
  revert i acc. induction n as [|n IH]; intros i acc H0 Hb; [simpl; lia|]. cbn [sum_loop].
  pose proof (Z.mod_pos_bound (default 0 (m !! u32 (addr + i))) (2 ^ 8) ltac:(lia)) as B. fold (u8 (default 0 (m !! u32 (addr + i)))) in B.
  change (u8 (default 0 (m !! u32 (addr + i)))) with (ld m (u32 (addr + i))) in B.
  assert (i32 (acc + ld m (u32 (addr + i))) = acc + ld m (u32 (addr + i))) as -> by (unfold i32; rewrite Z.mod_small; lia).
  rewrite IH by lia. rewrite (seqZ_cons i (Z.of_nat (S n))) by lia.
  replace (Z.pred (Z.of_nat (S n))) with (Z.of_nat n) by lia.
  rewrite fmap_cons. unfold zsum at 2. cbn [foldr]. fold (zsum ((fun k => ld m (u32 (addr + k))) <$> seqZ (Z.succ i) (Z.of_nat n))).
  unfold Z.succ. lia.
Qed.

(** The checksum is the sum of the bytes modulo 256. *)
Lemma sum_ok m addr len :
  0 <= len < 2 ^ 16 -> sum m addr len = zsum ((fun k => ld m (u32 (addr + k))) <$> seqZ 0 len) mod 256.
Proof. intros. unfold sum. rewrite sum_loop_ok by lia. rewrite Z2Nat.id by lia. done. Qed.

Section mp_facts.
Context {H : Type} `{!Machine H}.
Implicit Types s : mach H.

(** A structure at [p] with its signature and checksum. *)
Definition mp_at (m : mem) (p : Z) : Prop :=
  signed m p "_MP_" = true /\ zsum ((fun k => ld m (u32 (p + k))) <$> seqZ 0 SIZE_MP) mod 256 = 0.

Lemma mpsearch1_loop_ok p e fuel s :
  0 <= p -> e + SIZE_MP <= 2 ^ 32 -> (1 <= fuel)%nat -> e - p <= SIZE_MP * (Z.of_nat fuel - 1) ->
  exists r, mpsearch1_loop p e fuel s = Ok r s /\ (r = 0 \/ mp_at (m_mem s) r).
Proof.
  unfold SIZE_MP. revert p. induction fuel as [|fl IH]; intros p Hp He H1 Hf; [lia|]. cbn [mpsearch1_loop].
  destruct (Z.ltb_spec p e); cbn [negb]; [|exists 0; auto].
  unfold bind at 1, gets at 1. destruct (signed (m_mem s) p "_MP_") eqn:E1; cbn [andb].
  - destruct (Z.eqb_spec (sum (m_mem s) p SIZE_MP) 0) as [E2|]; [|rewrite u32_small by (unfold SIZE_MP; lia); apply IH; unfold SIZE_MP; lia].
    exists p. split; [done|]. right. split; [done|]. rewrite <- sum_ok by (unfold SIZE_MP; lia). done.
  - rewrite u32_small by (unfold SIZE_MP; lia). apply IH; unfold SIZE_MP; lia.
Qed.

Lemma mpsearch1_ok a len s :
  0 <= len -> P2V a + len + SIZE_MP <= 2 ^ 32 ->
  exists r, mpsearch1 a len s = Ok r s /\ (r = 0 \/ mp_at (m_mem s) r).
Proof.
  intros Hl Ha. unfold mpsearch1. pose proof (Z.mod_pos_bound (a + KERNBASE) (2 ^ 32) ltac:(lia)) as B.
  fold (u32 (a + KERNBASE)) in B. fold (P2V a) in B. unfold SIZE_MP in *. rewrite u32_small by lia.
  apply mpsearch1_loop_ok; unfold SIZE_MP; lia.
Qed.

Lemma lor_bytes h l : 0 <= h < 256 -> 0 <= l < 256 -> 0 <= Z.lor (Z.shiftl h 8) l < 2 ^ 16.
Proof.
  intros Hh Hl. rewrite Z.shiftl_mul_pow2 by lia. rewrite (lor_add 8) by (try apply Z.mod_mul; lia). lia.
Qed.

Lemma mpsearch_ok s : exists r, mpsearch s = Ok r s /\ (r = 0 \/ mp_at (m_mem s) r).
Proof.
  unfold mpsearch, bind at 1, gets at 1. cbv zeta.
  pose proof (fun a => Z.mod_pos_bound (default 0 (m_mem s !! a)) (2 ^ 8) ltac:(lia)) as B.
  change (forall a, 0 <= ld (m_mem s) a < 256) in B.
  pose proof (lor_bytes _ _ (B (P2V 0x400 + 0x0F)) (B (P2V 0x400 + 0x0E))) as L1.
  pose proof (lor_bytes _ _ (B (P2V 0x400 + 0x14)) (B (P2V 0x400 + 0x13))) as L2.
  revert L1 L2. generalize (Z.lor (Z.shiftl (ld (m_mem s) (P2V 0x400 + 0x0F)) 8) (ld (m_mem s) (P2V 0x400 + 0x0E))) as p.
  generalize (Z.lor (Z.shiftl (ld (m_mem s) (P2V 0x400 + 0x14)) 8) (ld (m_mem s) (P2V 0x400 + 0x13))) as q. intros q p L1 L2.
  assert (exists r, (if negb (Z.shiftl p 4 =? 0) then mpsearch1 (Z.shiftl p 4) 1024 else mpsearch1 (u32 (q * 1024 - 1024)) 1024) s = Ok r s /\
      (r = 0 \/ mp_at (m_mem s) r)) as (r & E & Hr).
  { destruct (negb _); apply mpsearch1_ok; try lia; unfold P2V, KERNBASE, SIZE_MP.
    - rewrite Z.shiftl_mul_pow2 by lia. rewrite u32_small by lia. lia.
    - assert (q = 0 \/ 1 <= q) as [->|Hq] by lia; [by vm_compute|]. rewrite (u32_small (q * 1024 - 1024)) by lia.
      rewrite u32_small by lia. lia. }
  rewrite (bind_ok _ _ _ _ _ E). destruct (Z.eqb_spec r 0) as [->|]; cbn [negb]; [|exists r; auto].
  apply mpsearch1_ok; by vm_compute.
Qed.

(** [mpconfig] returns, and what it returns has passed its tests. *)
Definition conf_at (m : mem) (mp conf : Z) : Prop :=
  mp_at m mp /\ conf = P2V (mp_physaddr m mp) /\ signed m conf "PCMP" = true /\
  (conf_version m conf = 1 \/ conf_version m conf = 4) /\
  zsum ((fun k => ld m (u32 (conf + k))) <$> seqZ 0 (conf_length m conf)) mod 256 = 0.

Lemma conf_length_bound m p : 0 <= conf_length m p < 2 ^ 16.
Proof.
  unfold conf_length, ld16. pose proof (fun a => Z.mod_pos_bound (default 0 (m !! a)) (2 ^ 8) ltac:(lia)) as B.
  change (forall a, 0 <= ld m a < 256) in B. pose proof (B (p + 4)). pose proof (B (p + 4 + 1)). lia.
Qed.

Lemma mpconfig_ok s :
  exists c, mpconfig s = Ok c s /\ forall mp conf, c = Some (mp, conf) -> conf_at (m_mem s) mp conf.
Proof.
  unfold mpconfig. destruct (mpsearch_ok s) as (p & E & Hp). rewrite (bind_ok _ _ _ _ _ E).
  unfold bind, gets. destruct (Z.eqb_spec p 0) as [->|Hp0]; cbn [orb]; [by exists None|].
  destruct Hp as [|Hp]; [done|]. destruct (_ =? 0); [by exists None|].
  set (conf := P2V _). destruct (signed (m_mem s) conf "PCMP") eqn:Es; cbn [negb]; [|by exists None].
  destruct (negb (conf_version _ _ =? 1) && _) eqn:Ev; [by exists None|].
  destruct (Z.eqb_spec (sum (m_mem s) conf (conf_length (m_mem s) conf)) 0) as [E0|]; cbn [negb]; [|by exists None].
  exists (Some (p, conf)). split; [done|]. intros ? ? [= <- <-]. split_and!; try done.
  - apply andb_false_iff in Ev as [Ev|Ev]; apply negb_false_iff, Z.eqb_eq in Ev; auto.
  - rewrite <- sum_ok by apply conf_length_bound. done.
Qed.

(** ** The loop over the entries *)

(** What an entry does to the variables. *)
Definition absorb (en : entry) (s : mach H) : mach H :=
  match en with
  | EProc id =>
      if m_ncpu s <? NCPU
      then set_ncpu (m_ncpu s + 1) (set_apicid (<[Z.to_nat (m_ncpu s) := id]> (m_apicid s)) s)
      else s
  | EIoapic id => set_ioapicid id s
  | EOther => s
  end.

Fixpoint absorbs (es : list entry) (s : mach H) : mach H :=
  match es with
  | [] => s
  | en :: es => absorbs es (absorb en s)
  end.

Lemma absorb_mem en s : m_mem (absorb en s) = m_mem s.
Proof. destruct en; simpl; try done. by destruct (_ <? _). Qed.

Lemma absorbs_mem es s : m_mem (absorbs es s) = m_mem s.
Proof. revert s. induction es as [|en es IH]; intros s; [done|]. cbn [absorbs]. by rewrite IH, absorb_mem. Qed.

(** The loop reads the entries of a table up to [q], and goes on from there. *)
Lemma mpinit_loop_table p q e es s fuel :
  table (m_mem s) p q es -> 0 <= p -> q <= e < 2 ^ 32 ->
  mpinit_loop p e (length es + fuel) s = mpinit_loop q e fuel (absorbs es s).
Proof.
  intros Ht. remember (m_mem s) as m eqn:Em. revert s Em fuel.
  induction Ht as [q|p q id es E1 E2 Hq _ IH|p q id es E1 E2 Hq _ IH|p q es E1 Hq _ IH]; intros s Em fuel Hp He; [done|..];
    cbn [length Nat.add mpinit_loop absorbs]; unfold SIZE_MPPROC, SIZE_MPIOAPIC in *.
  all: destruct (Z.ltb_spec p e); [|lia]; cbn [negb]; unfold bind at 1, gets at 1; cbv zeta; rewrite <- Em.
  - transitivity (mpinit_loop (p + 20) e (length es + fuel) (absorb (EProc id) s)); [|apply IH; [by rewrite absorb_mem|lia..]].
    rewrite E1. unfold bind, gets, when, modify, absorb, proc_apicid. cbn. rewrite u32_small, E2 by lia. by destruct (_ <? _).
  - transitivity (mpinit_loop (p + 8) e (length es + fuel) (absorb (EIoapic id) s)); [|apply IH; [by rewrite absorb_mem|lia..]].
    rewrite E1. unfold bind, modify, absorb, ioapic_apicno. cbn. by rewrite u32_small, E2 by lia.
  - rewrite (u32_small (p + 8)) by lia. rewrite <- (IH s) by (try done; lia). destruct E1 as [-> | [-> | ->]]; done.
Qed.

(** At an unknown entry the loop goes on for ever. *)
Lemma mpinit_loop_unknown p e fuel s :
  p < e -> MPLINTR < ld (m_mem s) p -> mpinit_loop p e fuel s = Diverge.
Proof.
  intros Hp Hu. revert s Hu. induction fuel as [|fl IH]; intros s Hu; [done|]. cbn [mpinit_loop].
  destruct (Z.ltb_spec p e); [|lia]. cbn [negb]. unfold bind at 1, gets at 1. cbv zeta.
  unfold MPPROC, MPBUS, MPIOAPIC, MPIOINTR, MPLINTR in *.
  assert (forall k, k <= 4 -> (ld (m_mem s) p =? k) = false) as N by (intros; apply Z.eqb_neq; lia).
  rewrite !N by lia. cbn [orb]. unfold bind, modify. by apply IH.
Qed.

Lemma table_le m p q es : table m p q es -> p <= q.
Proof. induction 1; unfold SIZE_MPPROC, SIZE_MPIOAPIC in *; lia. Qed.

(** With less fuel than there are entries the loop has not ended either. *)
Lemma mpinit_loop_more p e k fuel s : mpinit_loop p e (fuel + k) s = Diverge -> mpinit_loop p e fuel s = Diverge.
Proof.
  revert p s. induction fuel as [|fl IH]; intros p s; [done|]. cbn [Nat.add mpinit_loop].
  destruct (negb _); [done|]. unfold bind, gets, modify, when. cbv zeta.
  destruct (_ =? _); [|destruct (_ =? _); [|destruct (_ || _)]]; try apply IH.
  destruct (_ <? _); apply IH.
Qed.

(** ** What the entries give *)

Lemma take_app_take {A} n (l k : list A) : take n (take n l ++ k) = take n (l ++ k).
Proof. rewrite !take_app, take_take, Nat.min_id, length_take. do 2 f_equal. lia. Qed.

Definition cpus_ok (l : list Z) (s : mach H) : Prop :=
  m_ncpu s = Z.of_nat (length l) /\ (length l <= 8)%nat /\ length (m_apicid s) = 8%nat /\ take (length l) (m_apicid s) = l.

Lemma absorb_cpus l id s :
  cpus_ok l s -> cpus_ok (take 8 (l ++ [id])) (absorb (EProc id) s).
Proof.
  intros (En & Hl & H8 & Et). cbn [absorb]. rewrite En. unfold NCPU. destruct (Z.ltb_spec (Z.of_nat (length l)) 8).
  - rewrite take_ge by (rewrite length_app; simpl; lia). unfold cpus_ok. cbn [m_ncpu m_apicid set_ncpu set_apicid].
    rewrite Nat2Z.id, length_app, length_insert. simpl. split_and!; try lia.
    rewrite Nat.add_1_r, (take_S_r _ _ id) by (apply list_lookup_insert_eq; lia).
    rewrite take_insert_ge by lia. by rewrite Et.
  - rewrite take_app_le, take_ge by lia. done.
Qed.

Lemma absorbs_cpus es l s :
  cpus_ok l s ->
  cpus_ok (take 8 (l ++ cpu_ids es)) (absorbs es s) /\ m_ioapicid (absorbs es s) = last_ioapic (m_ioapicid s) es /\
  m_ismp (absorbs es s) = m_ismp s /\ m_lapic (absorbs es s) = m_lapic s /\ m_mem (absorbs es s) = m_mem s.
Proof.
  revert l s. induction es as [|en es IH]; intros l s Hc; cbn [absorbs cpu_ids last_ioapic].
  - rewrite app_nil_r, take_ge by apply Hc. done.
  - destruct en as [id|id|]; [|apply (IH l (absorb (EIoapic id) s)); exact Hc|apply IH; exact Hc].
    destruct (IH _ _ (absorb_cpus l id s Hc)) as (C & I & S & L & Mm).
    rewrite take_app_take, <- app_assoc in C. simpl in C. split_and!; [exact C|..]; [rewrite I|rewrite S|rewrite L|rewrite Mm];
      cbn [absorb]; by destruct (_ <? _).
Qed.

(** C39. What [mpinit] makes of the BIOS tables.  The search always ends, and what it
    finds has the signatures, a known version and the two checksums.  Without
    tables nothing changes.  For a table whose entries are all of known types,
    [mpinit] returns and the kernel has the processors of the table in their order,
    at most [NCPU] of them, and the last I/O APIC.  But if there is an entry of an
    unknown type [mpinit] never returns: the fallback to one processor that follows
    the loop is not reached, because the [break] does not leave the loop. *)
Theorem mpinit_cases (s : mach H) :
  exists c, mpconfig s = Ok c s /\
  match c with
  | None => forall fuel, mpinit fuel s = Ok tt s
  | Some (mp, conf) =>
      let m := m_mem s in let e := conf + conf_length m conf in
      conf_at m mp conf /\
      (e < 2 ^ 32 -> cpus_ok [] s -> forall es fuel, table m (conf + SIZE_MPCONF) e es -> (length es < fuel)%nat ->
         exists s', mpinit fuel s = Ok tt s' /\ m_ismp s' = true /\ m_lapic s' = conf_lapicaddr m conf /\
           m_ioapicid s' = last_ioapic (m_ioapicid s) es /\ cpus_ok (take 8 (cpu_ids es)) s') /\
      (e < 2 ^ 32 -> forall es q, table m (conf + SIZE_MPCONF) q es -> q < e -> MPLINTR < ld m q ->
         forall fuel, mpinit fuel s = Diverge)
  end.
Proof.
  destruct (mpconfig_ok s) as (c & E & Hc). exists c. split; [done|].
  destruct c as [[mp conf]|]; [|intros fuel; unfold mpinit; by rewrite (bind_ok _ _ _ _ _ E)]. intros m e.
  pose proof (Hc _ _ eq_refl) as Hconf. split; [done|].
  assert (0 <= conf) as H0 by (destruct Hconf as (_ & -> & _); apply Z.mod_pos_bound; lia).
  set (s1 := set_lapic (conf_lapicaddr m conf) (set_ismp true s)).
  assert (e < 2 ^ 32 -> forall es q fuel, table m (conf + SIZE_MPCONF) q es -> q <= e ->
    mpinit_loop (u32 (conf + SIZE_MPCONF)) (u32 e) (length es + fuel) s1 = mpinit_loop q e fuel (absorbs es s1)) as Hl.
  { intros He es q fuel Ht Hq. pose proof (table_le _ _ _ _ Ht). unfold SIZE_MPCONF in *. rewrite !u32_small by lia.
    apply mpinit_loop_table; [done|lia|lia]. }
  split.
  - intros He Hk es fuel Ht Hf. specialize (Hl He es e (fuel - length es)%nat Ht ltac:(lia)).
    replace (length es + (fuel - length es))%nat with fuel in Hl by lia. destruct (fuel - length es)%nat as [|fl] eqn:Ef; [lia|].
    cbn [mpinit_loop] in Hl. rewrite Z.ltb_irrefl in Hl. cbn [negb] in Hl.
    destruct (absorbs_cpus es [] s1 Hk) as (C & I & S & L & _). simpl app in C.
    unfold mpinit. rewrite (bind_ok _ _ _ _ _ E). unfold bind at 1 2 3, modify at 1 2, gets at 1.
    rewrite (bind_ok _ _ _ _ _ Hl). unfold bind at 1, gets at 1. rewrite S. cbn [negb m_ismp s1 set_lapic set_ismp].
    unfold bind at 1, gets at 1. destruct (negb _); [|by exists (absorbs es s1)].
    unfold bind, pout, pin, modify. eexists. split; [done|]. done.
  - intros He es q Ht Hq Hu fuel. unfold mpinit. rewrite (bind_ok _ _ _ _ _ E).
    assert (mpinit_loop (u32 (conf + SIZE_MPCONF)) (u32 e) fuel s1 = Diverge) as D.
    { apply (mpinit_loop_more _ _ (length es)). rewrite Nat.add_comm, (Hl He es q fuel Ht) by lia.
      apply mpinit_loop_unknown; [done|by rewrite absorbs_mem]. }
    unfold bind at 1 2 3, modify at 1 2, gets at 1. unfold bind at 1.
    change (mpinit_loop _ _ fuel _) with (mpinit_loop (u32 (conf + SIZE_MPCONF)) (u32 e) fuel s1). by rewrite D.
Qed.
End mp_facts.

(** ** Two machines *)

(** A machine without devices. *)
#[export] Instance no_devices : Machine unit := {
  inb := fun _ h => (0xFF, h); outb := fun _ _ h => h; insl := fun _ _ h => ([], h);
  outsl := fun _ _ h => h; vload := fun _ h => (0, h); vstore := fun _ _ h => h
}.

(** The floating pointer at 0xF0000 and the table at 0xF1000, with their checksums. *)
Definition demo_table (entries : list Z) : list Z :=
  let head c := bs "PCMP" ++ enc 2 (44 + Z.of_nat (length entries)) ++ [4; c] ++ replicate 28 0 ++ enc 4 0xFEE00000 ++ replicate 4 0 in
  head (u8 (- zsum (head 0 ++ entries))) ++ entries.
Definition demo_bios (entries : list Z) : mem :=
  let head c := bs "_MP_" ++ enc 4 0xF1000 ++ [1; 4; c; 0; 0; 0; 0; 0] in
  store (store ∅ (P2V 0xF0000) (head (u8 (- zsum (head 0))))) (P2V 0xF1000) (demo_table entries).
Definition demo_mach (entries : list Z) : mach unit :=
  Mach irqmask0 0 0 false 0 (replicate 8 0) 0 0 (demo_bios entries) demo_console tt.

(** Two processors and an I/O APIC, and the same followed by an entry of type 5. *)
Definition demo_entries : list Z :=
  (0 :: 3 :: replicate 18 0) ++ (0 :: 7 :: replicate 18 0) ++ (2 :: 9 :: replicate 6 0).

Lemma mpinit_cases_witness :
  (exists s', mpinit 10 (demo_mach demo_entries) = Ok tt s' /\ m_ncpu s' = 2 /\ take 2 (m_apicid s') = [3; 7] /\ m_ioapicid s' = 9) /\
  (forall fuel, mpinit fuel (demo_mach (demo_entries ++ [5])) = Diverge).
Proof.
  split.
  - destruct (mpinit_cases (demo_mach demo_entries)) as (c & E & Hc).
    vm_compute in E. injection E as <-. destruct Hc as (_ & Hc & _).
    destruct (Hc ltac:(vm_compute; reflexivity) ltac:(unfold cpus_ok; vm_compute; split_and!; [reflexivity|lia|reflexivity|reflexivity]) [EProc 3; EProc 7; EIoapic 9] 10%nat)
      as (s' & E & _ & _ & Ei & En & _ & _ & Et).
    + apply table_proc; [by vm_compute..|]. apply table_proc; [by vm_compute..|]. apply table_ioapic; [by vm_compute..|].
      apply table_end.
    + simpl. lia.
    + exists s'. split; [exact E|]. split; [exact En|]. split; [exact Et|exact Ei].
  - destruct (mpinit_cases (demo_mach (demo_entries ++ [5]))) as (c & E & Hc).
    vm_compute in E. injection E as <-. destruct Hc as (_ & _ & Hc).
    apply (Hc ltac:(vm_compute; reflexivity) [EProc 3; EProc 7; EIoapic 9] (P2V 0xF1000 + 92)); [|by vm_compute..].
    apply table_proc; [by vm_compute..|]. apply table_proc; [by vm_compute..|]. apply table_ioapic; [by vm_compute..|].
    apply table_end.
Defined.
