(* ===== verification/Ide.v ===== *)
(** The IDE disk driver (ide.c): the queue of requests, the programming of the
    controller, and the interrupt handler.  With a controller that behaves as the
    ATA standard says, the driver serves the requests in their order, each with the
    result that [Disk] promises to the buffer cache. *)
From stdpp Require Import base numbers list gmap strings.
From Stdlib Require Import ZArith Lia.
From S2P Require Import Console Syscall Prelude Bytes Sleeplock Disk Machine.

Open Scope kernel_scope.

Definition SECTOR_SIZE : Z := 512.
Definition IDE_BSY : Z := 0x80.
Definition IDE_DRDY : Z := 0x40.
Definition IDE_DF : Z := 0x20.
Definition IDE_ERR : Z := 0x01.
Definition IDE_CMD_READ : Z := 0x20.
Definition IDE_CMD_WRITE : Z := 0x30.
Definition IDE_CMD_RDMUL : Z := 0xc4.
Definition IDE_CMD_WRMUL : Z := 0xc5.

(** A buffer with its link in the disk queue. *)
Record ibuf := IBuf { ib_buf : buf; ib_qnext : option nat }.

(** The state: [idelock], [idequeue] and [havedisk1], the buffers of the cache, on
    which pointers are indices, the machine, and the channels that [wakeup] has
    been called on, each the index of a buffer. *)
Record ide (H : Type) := Ide {
  ide_lock : bool;
  idequeue : option nat;
  havedisk1 : bool;
  ide_bufs : list ibuf;
  ide_mach : mach H;
  ide_woken : list nat
}.
Arguments Ide {H} _ _ _ _ _ _.
Arguments ide_lock {H} _.
Arguments idequeue {H} _.
Arguments havedisk1 {H} _.
Arguments ide_bufs {H} _.
Arguments ide_mach {H} _.
Arguments ide_woken {H} _.

Section ide.
Context {H : Type} `{!Machine H}.

Definition set_ide_lock (b : bool) (s : ide H) : ide H :=
  Ide b (idequeue s) (havedisk1 s) (ide_bufs s) (ide_mach s) (ide_woken s).
Definition set_idequeue (q : option nat) (s : ide H) : ide H :=
  Ide (ide_lock s) q (havedisk1 s) (ide_bufs s) (ide_mach s) (ide_woken s).
Definition set_havedisk1 (b : bool) (s : ide H) : ide H :=
  Ide (ide_lock s) (idequeue s) b (ide_bufs s) (ide_mach s) (ide_woken s).
Definition set_ide_bufs (l : list ibuf) (s : ide H) : ide H :=
  Ide (ide_lock s) (idequeue s) (havedisk1 s) l (ide_mach s) (ide_woken s).
Definition set_ide_mach (m : mach H) (s : ide H) : ide H :=
  Ide (ide_lock s) (idequeue s) (havedisk1 s) (ide_bufs s) m (ide_woken s).
Definition set_ide_woken (l : list nat) (s : ide H) : ide H :=
  Ide (ide_lock s) (idequeue s) (havedisk1 s) (ide_bufs s) (ide_mach s) l.

Definition acquire_ide : M (ide H) unit := acquire ide_lock set_ide_lock.
Definition release_ide : M (ide H) unit := release ide_lock set_ide_lock.
Definition on_mach {A} (m : M (mach H) A) : M (ide H) A := zoom ide_mach set_ide_mach m.

Definition buf0 : buf := Buf 0 0 0 (Sleeplock false false "" 0) 0 0 0 [].
Definition ibuf_at (k : nat) (s : ide H) : ibuf := nth k (ide_bufs s) (IBuf buf0 None).
Definition bfield {A} (k : nat) (f : buf -> A) : M (ide H) A := gets (fun s => f (ib_buf (ibuf_at k s))).
Definition bupd (k : nat) (f : buf -> buf) : M (ide H) unit :=
  modify (fun s => set_ide_bufs (alter (fun b => IBuf (f (ib_buf b)) (ib_qnext b)) k (ide_bufs s)) s).
Definition set_qnext (k : nat) (q : option nat) : M (ide H) unit :=
  modify (fun s => set_ide_bufs (alter (fun b => IBuf (ib_buf b) q) k (ide_bufs s)) s).
Definition wakeup_ide (k : nat) : M (ide H) unit := modify (fun s => set_ide_woken (ide_woken s ++ [k]) s).

(** [idewait]: the status is polled until the disk is ready. *)
Fixpoint idewait (checkerr : bool) (fuel : nat) : M (mach H) Z :=
  match fuel with
  | O => diverge
  | S fl =>
      r <- pin 0x1f7 ;;
      if negb (Z.land r (Z.lor IDE_BSY IDE_DRDY) =? IDE_DRDY) then idewait checkerr fl else
      ret (if checkerr && negb (Z.land r (Z.lor IDE_DF IDE_ERR) =? 0) then -1 else 0)
  end.

Definition ideinit (fuel : nat) : M (ide H) unit :=
  modify (set_ide_lock false) ;;
  on_mach (picenable IRQ_IDE) ;;
  n <- gets (fun s => m_ncpu (ide_mach s)) ;;
  on_mach (ioapicenable IRQ_IDE (n - 1)) ;;
  on_mach (idewait false fuel) ;;
  on_mach (pout 0x1f6 (Z.lor 0xe0 (Z.shiftl 1 4))) ;;
  r <- mfind 1000 0 (fun _ =>
    v <- on_mach (pin 0x1f7) ;;
    ret (if negb (v =? 0) then Some tt else None)) ;;
  match r with
  | Some _ => modify (set_havedisk1 true)
  | None => ret tt
  end ;;
  on_mach (pout 0x1f6 (Z.lor 0xe0 (Z.shiftl 0 4))).

(** The ports that [idestart] writes for the buffer [b]. *)
Definition ide_command (b : buf) (fuel : nat) : M (mach H) unit :=
  let sector_per_block := BSIZE / SECTOR_SIZE in
  let sector := i32 (u32 (b_blockno b * sector_per_block)) in
  let read_cmd := if sector_per_block =? 1 then IDE_CMD_READ else IDE_CMD_RDMUL in
  let write_cmd := if sector_per_block =? 1 then IDE_CMD_WRITE else IDE_CMD_WRMUL in
  if 7 <? sector_per_block then panic "idestart" else
  idewait false fuel ;;
  pout 0x3f6 0 ;;
  pout 0x1f2 sector_per_block ;;
  pout 0x1f3 (Z.land sector 0xff) ;;
  pout 0x1f4 (Z.land (Z.shiftr sector 8) 0xff) ;;
  pout 0x1f5 (Z.land (Z.shiftr sector 16) 0xff) ;;
  pout 0x1f6 (Z.lor (Z.lor 0xe0 (Z.shiftl (Z.land (b_dev b) 1) 4)) (Z.land (Z.shiftr sector 24) 0x0f)) ;;
  if has (b_flags b) B_DIRTY then
    pout 0x1f7 write_cmd ;;
    pouts 0x1f0 (b_data b)
  else pout 0x1f7 read_cmd.

Definition idestart (k : option nat) (fuel : nat) : M (ide H) unit :=
  match k with
  | None => panic "idestart"
  | Some k =>
      b <- bfield k id ;;
      if FSSIZE <=? b_blockno b then panic "incorrect blockno" else
      on_mach (ide_command b fuel)
  end.

(** The end of the request of buffer [k], in [ideintr]. *)
Definition ide_finish (k : nat) (fuel : nat) : M (ide H) unit :=
  f <- bfield k b_flags ;;
  (if negb (has f B_DIRTY) then
     r <- on_mach (idewait true fuel) ;;
     if 0 <=? r then
       d <- on_mach (pins 0x1f0 (BSIZE / 4)) ;;
       bupd k (set_data d)
     else ret tt
   else ret tt) ;;
  bupd k (fun b => set_flags (Z.lor (b_flags b) B_VALID) b) ;;
  bupd k (fun b => set_flags (Z.land (b_flags b) (Z.lnot B_DIRTY)) b) ;;
  wakeup_ide k.

Definition ideintr (fuel : nat) : M (ide H) unit :=
  acquire_ide ;;
  q <- gets idequeue ;;
  match q with
  | None => release_ide
  | Some k =>
      n <- gets (fun s => ib_qnext (ibuf_at k s)) ;;
      modify (set_idequeue n) ;;
      ide_finish k fuel ;;
      q <- gets idequeue ;;
      match q with
      | Some _ => idestart q fuel
      | None => ret tt
      end ;;
      release_ide
  end.

(** [pp] of [iderw]: the head of the queue, or the link of a buffer. *)
Inductive link : Type := QHead | QNext (k : nat).

Definition lget (l : link) : M (ide H) (option nat) :=
  match l with
  | QHead => gets idequeue
  | QNext k => gets (fun s => ib_qnext (ibuf_at k s))
  end.
Definition lput (l : link) (v : option nat) : M (ide H) unit :=
  match l with
  | QHead => modify (set_idequeue v)
  | QNext k => set_qnext k v
  end.

(** The loop of [iderw] that moves [pp] to the null pointer at the end. *)
Fixpoint queue_end (pp : link) (fuel : nat) : M (ide H) link :=
  match fuel with
  | O => diverge
  | S fl =>
      v <- lget pp ;;
      match v with
      | None => ret pp
      | Some k => queue_end (QNext k) fl
      end
  end.

(** Where a stretch of [iderw] ends: its return, or [sleep(b, &idelock)]. *)
Inductive outcome : Type := Finished | Waits.

(** The loop at the end of [iderw], with [idelock] held; [sleep] gives it back. *)
Definition iderw_wait (k : nat) : M (ide H) outcome :=
  f <- bfield k b_flags ;;
  release_ide ;;
  ret (if Z.land f (Z.lor B_VALID B_DIRTY) =? B_VALID then Finished else Waits).

Definition iderw (k : nat) (fuel : nat) : M (ide H) outcome :=
  h <- (fun s => match holdingsleep (b_lock (ib_buf (ibuf_at k s))) with
                 | Ok h l => bind (bupd k (set_lock l)) (fun _ => ret h) s
                 | Panic e => Panic e
                 | Sleep c _ => Sleep c s
                 | Diverge => Diverge
                 end) ;;
  b <- bfield k id ;;
  if negb h then panic "iderw: buf not locked" else
  if Z.land (b_flags b) (Z.lor B_VALID B_DIRTY) =? B_VALID then panic "iderw: nothing to do" else
  hd1 <- gets havedisk1 ;;
  if negb (b_dev b =? 0) && negb hd1 then panic "iderw: ide disk 1 not present" else
  acquire_ide ;;
  set_qnext k None ;;
  n <- gets (fun s => length (ide_bufs s)) ;;
  pp <- queue_end QHead (S n) ;;
  lput pp (Some k) ;;
  q <- gets idequeue ;;
  when (bool_decide (q = Some k)) (idestart (Some k) fuel) ;;
  iderw_wait k.

(** After a [sleep], which takes [idelock] again. *)
Definition iderw_resume (k : nat) : M (ide H) outcome :=
  acquire_ide ;;
  iderw_wait k.
End ide.

(** * The controller *)

(** A command that the controller works on; the drive is 0 or 1. *)
Inductive acmd : Type := AIdle | AReading (drive lba : nat) | AWriting (drive lba : nat).

(** The registers of an ATA controller for programmed input and output, what its
    drives hold, and the command that waits for its data to be transferred. *)
Record ata := Ata {
  a_count : Z;
  a_lba0 : Z;
  a_lba1 : Z;
  a_lba2 : Z;
  a_sel : Z;
  a_disks : list (list block);
  a_cmd : acmd
}.

Definition set_a_cmd (c : acmd) (a : ata) : ata :=
  Ata (a_count a) (a_lba0 a) (a_lba1 a) (a_lba2 a) (a_sel a) (a_disks a) c.
Definition set_a_disks (l : list (list block)) (a : ata) : ata :=
  Ata (a_count a) (a_lba0 a) (a_lba1 a) (a_lba2 a) (a_sel a) l (a_cmd a).

(** The drive and the sector that the registers select. *)
Definition a_drive (a : ata) : nat := if Z.testbit (a_sel a) 4 then 1 else 0.
Definition a_lba (a : ata) : nat :=
  Z.to_nat (a_lba0 a + 2 ^ 8 * a_lba1 a + 2 ^ 16 * a_lba2 a + 2 ^ 24 * (a_sel a mod 16)).

Definition ata_reg (port v : Z) (a : ata) : ata :=
  if port =? 0x1f2 then Ata v (a_lba0 a) (a_lba1 a) (a_lba2 a) (a_sel a) (a_disks a) (a_cmd a)
  else if port =? 0x1f3 then Ata (a_count a) v (a_lba1 a) (a_lba2 a) (a_sel a) (a_disks a) (a_cmd a)
  else if port =? 0x1f4 then Ata (a_count a) (a_lba0 a) v (a_lba2 a) (a_sel a) (a_disks a) (a_cmd a)
  else if port =? 0x1f5 then Ata (a_count a) (a_lba0 a) (a_lba1 a) v (a_sel a) (a_disks a) (a_cmd a)
  else if port =? 0x1f6 then Ata (a_count a) (a_lba0 a) (a_lba1 a) (a_lba2 a) v (a_disks a) (a_cmd a)
  else a.

(** The status register says that the drive is ready, or that there was an error. *)
Definition st_ready (r : Z) : bool := Z.land r (Z.lor IDE_BSY IDE_DRDY) =? IDE_DRDY.
Definition st_error (r : Z) : bool := negb (Z.land r (Z.lor IDE_DF IDE_ERR) =? 0).

(** The status is read [n] times before it is [r], ready. *)
Fixpoint poll {H} `{!Machine H} (n : nat) (h : H) (r : Z) (h' : H) : Prop :=
  match n with
  | O => inb 0x1f7 h = (r, h') /\ st_ready r = true
  | S n => exists r1 h1, inb 0x1f7 h = (r1, h1) /\ st_ready r1 = false /\ poll n h1 r h'
  end.

(** What the driver relies on: a machine with an ATA controller at the ports 0x1f0
    to 0x1f7 and 0x3f6, which gets ready within [ata_polls] reads of its status,
    and transfers one sector for each command. *)
Class AtaDisk (H : Type) `{!Machine H} := {
  ata_of : H -> ata;
  ata_polls : nat;
  ata_status : forall h, exists n r h', (n < ata_polls)%nat /\ poll n h r h' /\ ata_of h' = ata_of h /\
    forall d l disk, a_cmd (ata_of h) = AReading d l -> a_disks (ata_of h) !! d = Some disk -> (l < length disk)%nat ->
      st_error r = false;
  ata_outb : forall port v h, port = 0x3f6 \/ 0x1f2 <= port <= 0x1f6 -> ata_of (outb port v h) = ata_reg port v (ata_of h);
  ata_read : forall h, a_cmd (ata_of h) = AIdle -> a_count (ata_of h) = 1 ->
    ata_of (outb 0x1f7 IDE_CMD_READ h) = set_a_cmd (AReading (a_drive (ata_of h)) (a_lba (ata_of h))) (ata_of h);
  ata_write : forall h, a_cmd (ata_of h) = AIdle -> a_count (ata_of h) = 1 ->
    ata_of (outb 0x1f7 IDE_CMD_WRITE h) = set_a_cmd (AWriting (a_drive (ata_of h)) (a_lba (ata_of h))) (ata_of h);
  ata_data_in : forall h d l disk blk,
    a_cmd (ata_of h) = AReading d l -> a_disks (ata_of h) !! d = Some disk -> disk !! l = Some blk ->
    exists h', insl 0x1f0 (BSIZE / 4) h = (blk, h') /\ ata_of h' = set_a_cmd AIdle (ata_of h);
  ata_data_out : forall h d l disk blk,
    a_cmd (ata_of h) = AWriting d l -> a_disks (ata_of h) !! d = Some disk -> (l < length disk)%nat -> is_block blk ->
    ata_of (outsl 0x1f0 blk h) = set_a_cmd AIdle (set_a_disks (<[d := <[l := blk]> disk]> (a_disks (ata_of h))) (ata_of h))
}.

(** ** Programming the controller *)

Section command.
Context {H : Type} `{!Machine H, !AtaDisk H}.
Implicit Types m : mach H.

Lemma idewait_ok chk fuel m :
  (ata_polls <= fuel)%nat ->
  exists r m', idewait chk fuel m = Ok (if chk && st_error r then -1 else 0) m' /\ ata_of (m_hw m') = ata_of (m_hw m) /\
    forall d l disk, a_cmd (ata_of (m_hw m)) = AReading d l -> a_disks (ata_of (m_hw m)) !! d = Some disk ->
      (l < length disk)%nat -> st_error r = false.
Proof.
  intros Hf. destruct (ata_status (m_hw m)) as (n & r & h' & Hn & Hp & Ha & He).
  exists r, (set_hw h' m). split; [|by split]. clear Ha He. assert (n < fuel)%nat as Hn' by lia. clear Hn Hf.
  revert m fuel Hn' Hp. induction n as [|n IH]; intros m [|fl] Hn Hp; try lia; cbn [idewait]; unfold bind at 1, pin at 1; cbn [poll] in Hp.
  - destruct Hp as [-> Hr]. unfold st_ready in Hr. simpl. by rewrite Hr.
  - destruct Hp as (r1 & h1 & -> & Hr & Hp). unfold st_ready in Hr. simpl. rewrite Hr. cbn [negb].
    rewrite (IH (set_hw h1 m) fl ltac:(lia) Hp). done.
Qed.

(** The request of a buffer for the drive 1. *)
Definition request (b : buf) (n : nat) : Prop :=
  sl_rest (b_lock b) /\ sl_locked (b_lock b) = true /\
  (b_flags b = 0 \/ b_flags b = B_DIRTY \/ b_flags b = Z.lor B_VALID B_DIRTY) /\
  b_dev b = ROOTDEV /\ 0 <= b_blockno b < FSSIZE /\ b_blockno b < Z.of_nat n /\ is_block (b_data b).

Lemma sector_bytes n :
  0 <= n < FSSIZE -> u8 (Z.land n 0xff) + 2 ^ 8 * u8 (Z.land (Z.shiftr n 8) 0xff) +
    2 ^ 16 * u8 (Z.land (Z.shiftr n 16) 0xff) + 2 ^ 24 * (Z.land (Z.shiftr n 24) 0x0f) = n.
Proof.
  unfold FSSIZE, u8. intros Hn. change 0xff with (Z.ones 8). change 0x0f with (Z.ones 4).
  rewrite !Z.land_ones, !Z.shiftr_div_pow2 by lia.
  rewrite !Z.mod_mod by lia. pose proof (Z.div_mod n (2 ^ 8) ltac:(lia)). pose proof (Z.mod_pos_bound n (2 ^ 8) ltac:(lia)).
  assert (0 <= n / 2 ^ 8 < 4) by (split; [apply Z.div_pos; lia|apply Z.div_lt_upper_bound; lia]).
  rewrite (Z.mod_small (n / 2 ^ 8)), (Z.div_small n (2 ^ 16)), (Z.div_small n (2 ^ 24)) by lia.
  rewrite !Z.mod_0_l by lia. lia.
Qed.

(** After [idestart] the controller has the request of the buffer. *)
Definition started (b : buf) (disk : list block) (a a' : ata) : Prop :=
  if has (b_flags b) B_DIRTY
  then a_cmd a' = AIdle /\ a_disks a' = <[1%nat := <[Z.to_nat (b_blockno b) := b_data b]> disk]> (a_disks a)
  else a_cmd a' = AReading 1 (Z.to_nat (b_blockno b)) /\ a_disks a' = a_disks a.

Lemma ide_command_ok b fuel m disk :
  request b (length disk) -> (ata_polls <= fuel)%nat ->
  a_cmd (ata_of (m_hw m)) = AIdle -> a_disks (ata_of (m_hw m)) !! 1%nat = Some disk ->
  exists m', ide_command b fuel m = Ok tt m' /\ started b disk (ata_of (m_hw m)) (ata_of (m_hw m')).
Proof.
  intros (_ & _ & _ & Hd & Hb & Hn & Hk) Hf Hc Hdisk. unfold ide_command. change (BSIZE / SECTOR_SIZE) with 1.
  cbv zeta. change (7 <? 1) with false. change (1 =? 1) with true. cbv iota. rewrite Z.mul_1_r, Hd.
  assert (i32 (u32 (b_blockno b)) = b_blockno b) as ->
    by (unfold i32, u32, FSSIZE in *; rewrite (Z.mod_small (b_blockno b)), Z.mod_small; lia).
  destruct (idewait_ok false fuel m Hf) as (r & m1 & E & Ha & _). rewrite (bind_ok _ _ _ _ _ E). clear E.
  set (n := b_blockno b) in *. set (sel := Z.lor (Z.lor 0xe0 (Z.shiftl (Z.land ROOTDEV 1) 4)) (Z.land (Z.shiftr n 24) 0x0f)).
  assert (sel = 0xf0) as Esel.
  { unfold sel, FSSIZE in *. rewrite Z.shiftr_div_pow2, Z.div_small by lia. done. }
  set (m2 := set_hw (outb 0x1f6 (u8 sel) (outb 0x1f5 (u8 (Z.land (Z.shiftr n 16) 0xff)) (outb 0x1f4 (u8 (Z.land (Z.shiftr n 8) 0xff))
    (outb 0x1f3 (u8 (Z.land n 0xff)) (outb 0x1f2 (u8 1) (outb 0x3f6 (u8 0) (m_hw m1))))))) m1).
  assert (ata_of (m_hw m2) = Ata 1 (u8 (Z.land n 0xff)) (u8 (Z.land (Z.shiftr n 8) 0xff)) (u8 (Z.land (Z.shiftr n 16) 0xff)) 0xf0
    (a_disks (ata_of (m_hw m))) AIdle) as E2.
  { unfold m2. cbn [m_hw set_hw]. rewrite !ata_outb by lia. rewrite Ha, Esel. clear - Hc.
    destruct (ata_of (m_hw m)) as [? ? ? ? ? ds cm]. simpl in Hc. subst cm. reflexivity. }
  assert (a_drive (ata_of (m_hw m2)) = 1%nat) as Edr by (by rewrite E2).
  assert (a_lba (ata_of (m_hw m2)) = Z.to_nat n) as Elba.
  { rewrite E2. unfold a_lba. cbn [a_lba0 a_lba1 a_lba2 a_sel]. rewrite <- (sector_bytes n Hb) at 4.
    unfold FSSIZE in *. rewrite (Z.shiftr_div_pow2 n 24), (Z.div_small n) by lia. done. }
  unfold started. fold n. destruct (has (b_flags b) B_DIRTY).
  - eexists. split; [unfold bind, pout, pouts, modify; reflexivity|]. cbn [m_hw set_hw].
    change (outb 0x1f6 _ _) with (m_hw m2).
    assert (ata_of (outb 0x1f7 (u8 IDE_CMD_WRITE) (m_hw m2)) = set_a_cmd (AWriting 1 (Z.to_nat n)) (ata_of (m_hw m2))) as E3.
    { rewrite <- Edr at 1. rewrite <- Elba. change (u8 IDE_CMD_WRITE) with IDE_CMD_WRITE. apply ata_write; by rewrite E2. }
    rewrite (ata_data_out _ 1 (Z.to_nat n) disk); rewrite ?E3, ?E2; [done|done|done|lia|done].
  - eexists. split; [unfold bind, pout, pouts, modify; reflexivity|]. cbn [m_hw set_hw].
    change (outb 0x1f6 _ _) with (m_hw m2). change (u8 IDE_CMD_READ) with IDE_CMD_READ.
    rewrite ata_read by (by rewrite E2). by rewrite Edr, Elba, E2.
Qed.
End command.

(** * The driver as a queue *)

(** Events: a process that holds buffer [k] calls [iderw]; the controller interrupts;
    a process that is not inside of [iderw] changes its buffer; a process asleep in
    [iderw] has been woken and runs on. *)
Inductive ievent : Type :=
| IReq (k : nat)
| IIntr
| IUse (k : nat) (b : buf)
| IResume (k : nat).

Section driver.
Context {H : Type} `{!Machine H}.

Definition istep (fuel : nat) (ev : ievent) : M (ide H) (option outcome) :=
  match ev with
  | IReq k => o <- iderw k fuel ;; ret (Some o)
  | IIntr => ideintr fuel ;; ret None
  | IUse k b => bupd k (fun _ => b) ;; ret None
  | IResume k => o <- iderw_resume k ;; ret (Some o)
  end.

Fixpoint irun (fuel : nat) (evs : list ievent) : M (ide H) (list (option outcome)) :=
  match evs with
  | [] => ret []
  | ev :: evs => o <- istep fuel ev ;; l <- irun fuel evs ;; ret (o :: l)
  end.
End driver.

(** The specification: a queue of buffers in front of a disk that serves one request
    at once.  [ai_wait] are the buffers whose processes are inside of [iderw]. *)
Record aide (D : Type) := Aide {
  ai_queue : list nat;
  ai_wait : list nat;
  ai_bufs : list buf;
  ai_disk : D;
  ai_woken : list nat
}.
Arguments Aide {D} _ _ _ _ _.
Arguments ai_queue {D} _.
Arguments ai_wait {D} _.
Arguments ai_bufs {D} _.
Arguments ai_disk {D} _.
Arguments ai_woken {D} _.

Section spec.
Context {D : Type} `{Disk D}.
Implicit Types a : aide D.

Definition serve (b : buf) (d : D) : buf * D :=
  match Disk.iderw b d with Ok b' d' => (b', d') | _ => (b, d) end.

Definition astep (ev : ievent) a : option outcome * aide D :=
  match ev with
  | IReq k => (Some Waits, Aide (ai_queue a ++ [k]) (k :: ai_wait a) (ai_bufs a) (ai_disk a) (ai_woken a))
  | IIntr =>
      match ai_queue a with
      | [] => (None, a)
      | k :: q =>
          let r := serve (nth k (ai_bufs a) buf0) (ai_disk a) in
          (None, Aide q (ai_wait a) (<[k := r.1]> (ai_bufs a)) r.2 (ai_woken a ++ [k]))
      end
  | IUse k b => (None, Aide (ai_queue a) (ai_wait a) (<[k := b]> (ai_bufs a)) (ai_disk a) (ai_woken a))
  | IResume k =>
      if decide (k ∈ ai_queue a) then (Some Waits, a)
      else (Some Finished,
            Aide (ai_queue a) (filter (fun j => j <> k) (ai_wait a)) (ai_bufs a) (ai_disk a) (ai_woken a))
  end.

(** What the users of the driver keep to: one request at a time for a buffer, with
    the lock of the buffer held, for a block of the disk. *)
Definition legal (ev : ievent) a : Prop :=
  match ev with
  | IReq k => k ∉ ai_wait a /\ exists b, ai_bufs a !! k = Some b /\ request b (length (dblocks (ai_disk a)))
  | IIntr => True
  | IUse k _ => k ∉ ai_wait a
  | IResume k => k ∈ ai_wait a
  end.

Fixpoint arun (evs : list ievent) a : list (option outcome) * aide D :=
  match evs with
  | [] => ([], a)
  | ev :: evs => let r := astep ev a in let r' := arun evs r.2 in (r.1 :: r'.1, r'.2)
  end.

Fixpoint legals (evs : list ievent) a : Prop :=
  match evs with
  | [] => True
  | ev :: evs => legal ev a /\ legals evs (astep ev a).2
  end.

(** What [serve] does, by the promise of the disk. *)
Lemma serve_write b d :
  dwf d -> request b (length (dblocks d)) -> has (b_flags b) B_DIRTY = true ->
  (serve b d).1 = set_flags B_VALID b /\ dwf (serve b d).2 /\
  dblocks (serve b d).2 = <[Z.to_nat (b_blockno b) := b_data b]> (dblocks d).
Proof.
  intros Hd (Hr & Hl & Hf & Hdv & Hb & Hn & Hk) Hdirty.
  destruct (iderw_write b d) as (d' & E & Hd' & Eb & _); try done; [|lia|].
  { destruct Hf as [Hf|Hf]; [by rewrite Hf in Hdirty|done]. }
  unfold serve. by rewrite E.
Qed.

Lemma serve_read b d :
  dwf d -> request b (length (dblocks d)) -> has (b_flags b) B_DIRTY = false ->
  exists blk, dblocks d !! Z.to_nat (b_blockno b) = Some blk /\
  (serve b d).1 = set_flags B_VALID (set_data blk b) /\ dwf (serve b d).2 /\ dblocks (serve b d).2 = dblocks d.
Proof.
  intros Hd (Hr & Hl & Hf & Hdv & Hb & Hn & Hk) Hclean.
  assert (b_flags b = 0) as Hf0 by (destruct Hf as [?|[Hf|Hf]]; [done|by rewrite Hf in Hclean..]).
  destruct (lookup_lt_is_Some_2 (dblocks d) (Z.to_nat (b_blockno b))) as [blk Eb]; [lia|]. exists blk. split; [done|].
  destruct (iderw_read b d blk) as (d' & E & Hd' & Ed & _); try done; [lia|]. unfold serve. by rewrite E.
Qed.
End spec.

(** ** The linked queue *)

Fixpoint qchain (bs : list ibuf) (h : option nat) (q : list nat) : Prop :=
  match q with
  | [] => h = None
  | k :: q => h = Some k /\ exists x, bs !! k = Some x /\ qchain bs (ib_qnext x) q
  end.

Lemma alter_insert {A} (f : A -> A) (k : nat) (l : list A) x : l !! k = Some x -> alter f k l = <[k := f x]> l.
Proof.
  intros E. apply list_eq. intros i. destruct (decide (i = k)) as [->|Hne].
  - rewrite list_lookup_alter_eq, E. simpl. by rewrite list_lookup_insert_eq by (by eapply lookup_lt_Some).
  - by rewrite list_lookup_alter_ne, list_lookup_insert_ne by done.
Qed.

Lemma qchain_other bs h q k x : k ∉ q -> qchain bs h q -> qchain (<[k := x]> bs) h q.
Proof.
  revert h. induction q as [|j q IH]; intros h Hk; [done|]. apply not_elem_of_cons in Hk as [Hne Hk].
  intros (-> & y & Ey & Hq). split; [done|]. exists y. rewrite list_lookup_insert_ne by done. auto.
Qed.

Lemma qchain_same bs h q k x y :
  bs !! k = Some x -> ib_qnext y = ib_qnext x -> qchain bs h q -> qchain (<[k := y]> bs) h q.
Proof.
  intros Ex En. revert h. induction q as [|j q IH]; intros h; [done|]. intros (-> & z & Ez & Hq). split; [done|].
  destruct (decide (j = k)) as [->|Hne].
  - exists y. rewrite list_lookup_insert_eq by (by eapply lookup_lt_Some). split; [done|]. rewrite En.
    assert (z = x) as -> by congruence. auto.
  - exists z. rewrite list_lookup_insert_ne by done. auto.
Qed.

(** The last buffer of a queue gets a successor. *)
Lemma qchain_snoc bs h q k j x y :
  NoDup (q ++ [j]) -> k ∉ q ++ [j] -> bs !! k = Some y -> ib_qnext y = None -> bs !! j = Some x ->
  qchain bs h (q ++ [j]) -> qchain (<[j := IBuf (ib_buf x) (Some k)]> bs) h (q ++ [j; k]).
Proof.
  intros Hnd Hk Ey En Ex. revert h Hnd Hk. induction q as [|i q IH]; intros h; simpl app.
  - intros _ Hk. apply not_elem_of_cons in Hk as [Hkj _]. intros (-> & _). split; [done|].
    exists (IBuf (ib_buf x) (Some k)). rewrite list_lookup_insert_eq by (by eapply lookup_lt_Some). split; [done|].
    split; [done|]. exists y. by rewrite list_lookup_insert_ne by done.
  - intros [Hi Hnd]%NoDup_cons Hk (-> & z & Ez & Hq). apply not_elem_of_cons in Hk as [Hki Hk]. split; [done|].
    exists z. rewrite list_lookup_insert_ne; [auto|]. intros ->. apply Hi, elem_of_app. right. by left.
Qed.

Lemma qchain_bound bs h q k : qchain bs h q -> k ∈ q -> is_Some (bs !! k).
Proof.
  revert h. induction q as [|j q IH]; intros h; [by intros _ ?%elem_of_nil|]. intros (-> & x & Ex & Hq) [->|Hk]%elem_of_cons; eauto.
Qed.

Lemma qchain_length bs h q : NoDup q -> qchain bs h q -> (length q <= length bs)%nat.
Proof.
  intros Hnd Hq. rewrite <- (length_seq (length bs) 0). apply submseteq_length, NoDup_submseteq; [done|].
  intros k Hk. destruct (qchain_bound _ _ _ _ Hq Hk) as [x Hx]. apply elem_of_seq. apply lookup_lt_Some in Hx. lia.
Qed.

(** ** Steps of the driver *)

Section facts.
Context {H : Type} `{!Machine H}.
Implicit Types s : ide H.

Lemma bupd_ok k f s x :
  ide_bufs s !! k = Some x ->
  bupd k f s = Ok tt (set_ide_bufs (<[k := IBuf (f (ib_buf x)) (ib_qnext x)]> (ide_bufs s)) s).
Proof. intros E. unfold bupd, modify. by rewrite (alter_insert _ _ _ _ E). Qed.

Lemma set_qnext_ok k v s x :
  ide_bufs s !! k = Some x ->
  set_qnext k v s = Ok tt (set_ide_bufs (<[k := IBuf (ib_buf x) v]> (ide_bufs s)) s).
Proof. intros E. unfold set_qnext, modify. by rewrite (alter_insert _ _ _ _ E). Qed.

Lemma ibuf_at_ok k s x : ide_bufs s !! k = Some x -> ibuf_at k s = x.
Proof. intros E. unfold ibuf_at. by apply nth_lookup_Some. Qed.

Fixpoint last_link (pp : link) (q : list nat) : link :=
  match q with [] => pp | k :: q => last_link (QNext k) q end.

Lemma queue_end_ok pp h q fuel s :
  lget pp s = Ok h s -> qchain (ide_bufs s) h q -> (length q < fuel)%nat -> queue_end pp fuel s = Ok (last_link pp q) s.
Proof.
  revert pp h fuel. induction q as [|k q IH]; intros pp h [|fl] Hp Hq Hf; try (simpl in *; lia); cbn [queue_end];
    rewrite (bind_ok _ _ _ _ _ Hp); cbn [qchain] in Hq.
  - by rewrite Hq.
  - destruct Hq as (-> & x & Ex & Hq). cbn [last_link]. apply (IH _ (ib_qnext x)); [|done|simpl in *; lia].
    cbn [lget]. unfold gets. by rewrite (ibuf_at_ok _ _ _ Ex).
Qed.

Lemma last_link_snoc pp q j : last_link pp (q ++ [j]) = QNext j.
Proof. revert pp. induction q; intros; simpl; auto. Qed.

(** Buffer [k] is appended to the queue. *)
Lemma append_ok s q k x :
  NoDup q -> k ∉ q -> ide_bufs s !! k = Some x -> ib_qnext x = None -> qchain (ide_bufs s) (idequeue s) q ->
  exists h bs, lput (last_link QHead q) (Some k) s = Ok tt (set_idequeue h (set_ide_bufs bs s)) /\
    qchain bs h (q ++ [k]) /\ ib_buf <$> bs = ib_buf <$> ide_bufs s.
Proof.
  intros Hnd Hk Ex En Hq. destruct q as [|j q] using rev_ind; [|clear IHq].
  - exists (Some k), (ide_bufs s). split; [by destruct s|]. split; [|done]. split; [done|]. by exists x.
  - rewrite last_link_snoc.
    destruct (qchain_bound _ _ _ j Hq ltac:(set_solver)) as [y Ey].
    exists (idequeue s), (<[j := IBuf (ib_buf y) (Some k)]> (ide_bufs s)). cbn [lput]. rewrite (set_qnext_ok _ _ _ _ Ey).
    split; [by destruct s|]. split; [rewrite <- app_assoc; by eapply qchain_snoc|].
    rewrite list_fmap_insert. apply list_insert_id. by rewrite list_lookup_fmap, Ey.
Qed.
End facts.

(** ** The refinement *)

Ltac ide_norm :=
  unfold set_ide_lock, set_ide_woken, set_ide_bufs, set_ide_mach, set_idequeue;
  cbn [ide_lock idequeue havedisk1 ide_bufs ide_mach ide_woken].

Section refinement.
Context {H D : Type} `{!Machine H, !AtaDisk H, Disk D}.
Implicit Types (s : ide H) (a : aide D).

(** What the controller does for a queue [q] of requests: it works on the first one,
    whose data, if it is a write, it already has. *)
Definition at_work (a : aide D) (x : ata) : Prop :=
  match ai_queue a with
  | [] => a_cmd x = AIdle /\ a_disks x !! 1%nat = Some (dblocks (ai_disk a))
  | k :: _ =>
      forall b, ai_bufs a !! k = Some b ->
      if has (b_flags b) B_DIRTY
      then a_cmd x = AIdle /\ a_disks x !! 1%nat = Some (<[Z.to_nat (b_blockno b) := b_data b]> (dblocks (ai_disk a)))
      else a_cmd x = AReading 1 (Z.to_nat (b_blockno b)) /\ a_disks x !! 1%nat = Some (dblocks (ai_disk a))
  end.

Record ide_rel (a : aide D) (s : ide H) : Prop := {
  ir_lock : ide_lock s = false;
  ir_disk1 : havedisk1 s = true;
  ir_bufs : ib_buf <$> ide_bufs s = ai_bufs a;
  ir_woken : ide_woken s = ai_woken a;
  ir_queue : qchain (ide_bufs s) (idequeue s) (ai_queue a);
  ir_nodup : NoDup (ai_queue a);
  ir_wait : forall k, k ∈ ai_queue a -> k ∈ ai_wait a;
  ir_req : forall k, k ∈ ai_queue a -> exists b, ai_bufs a !! k = Some b /\ request b (length (dblocks (ai_disk a)));
  ir_done : forall k, k ∈ ai_wait a -> k ∉ ai_queue a -> exists b, ai_bufs a !! k = Some b /\ b_flags b = B_VALID;
  ir_dwf : dwf (ai_disk a);
  ir_work : at_work a (ata_of (m_hw (ide_mach s)))
}.

Lemma rel_buf a s k b :
  ide_rel a s -> ai_bufs a !! k = Some b -> exists x, ide_bufs s !! k = Some x /\ ib_buf x = b.
Proof.
  intros R Eb. rewrite <- (ir_bufs _ _ R), list_lookup_fmap in Eb.
  destruct (ide_bufs s !! k) as [x|]; [|done]. injection Eb as <-. eauto.
Qed.

Lemma request_flags b n : request b n -> Z.land (b_flags b) (Z.lor B_VALID B_DIRTY) =? B_VALID = false.
Proof. by intros (_ & _ & [-> | [-> | ->]] & _). Qed.

(** [idestart] of a request. *)
Lemma idestart_ok k b s fuel disk :
  ide_bufs s !! k = Some b -> request (ib_buf b) (length disk) -> (ata_polls <= fuel)%nat ->
  a_cmd (ata_of (m_hw (ide_mach s))) = AIdle -> a_disks (ata_of (m_hw (ide_mach s))) !! 1%nat = Some disk ->
  exists m', idestart (Some k) fuel s = Ok tt (set_ide_mach m' s) /\
    started (ib_buf b) disk (ata_of (m_hw (ide_mach s))) (ata_of (m_hw m')).
Proof.
  intros Eb Hr Hf Hc Hd. destruct (ide_command_ok (ib_buf b) fuel (ide_mach s) disk Hr Hf Hc Hd) as (m' & E & Hs).
  exists m'. split; [|done]. cbn [idestart]. unfold bind at 1, bfield at 1, gets at 1. rewrite (ibuf_at_ok _ _ _ Eb). cbn [id].
  destruct Hr as (_ & _ & _ & _ & Hb & _). destruct (Z.leb_spec FSSIZE (b_blockno (ib_buf b))); [lia|].
  unfold on_mach, zoom. by rewrite E.
Qed.

(** What the controller works on after [started]. *)
Lemma started_disk b disk (x y : ata) :
  started b disk x y -> a_disks x !! 1%nat = Some disk ->
  if has (b_flags b) B_DIRTY
  then a_cmd y = AIdle /\ a_disks y !! 1%nat = Some (<[Z.to_nat (b_blockno b) := b_data b]> disk)
  else a_cmd y = AReading 1 (Z.to_nat (b_blockno b)) /\ a_disks y !! 1%nat = Some disk.
Proof.
  unfold started. intros Hs Hd. destruct (has _ _); destruct Hs as [-> ->]; [|done]. split; [done|].
  apply list_lookup_insert_eq. by eapply lookup_lt_Some.
Qed.

Lemma finish_flags k x s :
  ide_bufs s !! k = Some x -> b_flags (ib_buf x) = 0 \/ b_flags (ib_buf x) = B_DIRTY \/ b_flags (ib_buf x) = Z.lor B_VALID B_DIRTY ->
  (bupd k (fun b => set_flags (Z.lor (b_flags b) B_VALID) b) ;;
   bupd k (fun b => set_flags (Z.land (b_flags b) (Z.lnot B_DIRTY)) b) ;;
   wakeup_ide k) s =
  Ok tt (set_ide_woken (ide_woken s ++ [k]) (set_ide_bufs (<[k := IBuf (set_flags B_VALID (ib_buf x)) (ib_qnext x)]> (ide_bufs s)) s)).
Proof.
  intros Ex Hf. pose proof (lookup_lt_Some _ _ _ Ex) as Hlt.
  rewrite (bind_ok _ _ _ _ _ (bupd_ok _ _ _ _ Ex)).
  set (y := IBuf _ _). pose proof (list_lookup_insert_eq (ide_bufs s) k y Hlt) as Ey.
  rewrite (bind_ok _ _ _ _ _ (bupd_ok k _ (set_ide_bufs (<[k := y]> (ide_bufs s)) s) y Ey)). unfold y.
  cbn [ide_bufs set_ide_bufs ib_buf ib_qnext]. rewrite list_insert_insert_eq.
  unfold wakeup_ide, modify. destruct s, x as [b n], b. cbn in *. by destruct Hf as [-> | [-> | ->]].
Qed.

(** The first request ends, as the disk promises. *)
Lemma ide_finish_ok k x s fuel d :
  ide_bufs s !! k = Some x -> request (ib_buf x) (length (dblocks d)) -> dwf d -> (ata_polls <= fuel)%nat ->
  (if has (b_flags (ib_buf x)) B_DIRTY
   then a_cmd (ata_of (m_hw (ide_mach s))) = AIdle /\
     a_disks (ata_of (m_hw (ide_mach s))) !! 1%nat = Some (<[Z.to_nat (b_blockno (ib_buf x)) := b_data (ib_buf x)]> (dblocks d))
   else a_cmd (ata_of (m_hw (ide_mach s))) = AReading 1 (Z.to_nat (b_blockno (ib_buf x))) /\
     a_disks (ata_of (m_hw (ide_mach s))) !! 1%nat = Some (dblocks d)) ->
  exists m', ide_finish k fuel s =
      Ok tt (set_ide_woken (ide_woken s ++ [k])
        (set_ide_bufs (<[k := IBuf (serve (ib_buf x) d).1 (ib_qnext x)]> (ide_bufs s)) (set_ide_mach m' s))) /\
    a_cmd (ata_of (m_hw m')) = AIdle /\ a_disks (ata_of (m_hw m')) !! 1%nat = Some (dblocks (serve (ib_buf x) d).2).
Proof.
  intros Ex Hr Hd Hf Hw. pose proof Hr as (_ & _ & Hfl & _). unfold ide_finish, bind at 1, bfield at 1, gets at 1.
  rewrite (ibuf_at_ok _ _ _ Ex). destruct (has (b_flags (ib_buf x)) B_DIRTY) eqn:Eh; cbn [negb]; destruct Hw as [Hc Hdisk].
  - destruct (serve_write _ _ Hd Hr Eh) as (-> & _ & ->). exists (ide_mach s).
    unfold bind at 1, ret at 1. rewrite (finish_flags k x) by done. by destruct s.
  - destruct (serve_read _ _ Hd Hr Eh) as (blk & Eb & -> & _ & ->).
    destruct (idewait_ok true fuel (ide_mach s) Hf) as (r & m1 & E1 & Ea & He).
    rewrite (He _ _ _ Hc Hdisk ltac:(by eapply lookup_lt_Some)) in E1. cbn [andb] in E1.
    destruct (ata_data_in (m_hw m1) 1 (Z.to_nat (b_blockno (ib_buf x))) (dblocks d) blk) as (h2 & E2 & Ea2); [by rewrite Ea..|done|].
    exists (set_hw h2 m1). set (s2 := set_ide_bufs (<[k := IBuf (set_data blk (ib_buf x)) (ib_qnext x)]> (ide_bufs s)) (set_ide_mach (set_hw h2 m1) s)).
    assert ((r <- on_mach (idewait true fuel) ;;
             if 0 <=? r then d <- on_mach (pins 0x1f0 (BSIZE / 4)) ;; bupd k (set_data d) else ret tt) s = Ok tt s2) as E.
    { unfold bind at 1, on_mach at 1, zoom at 1. rewrite E1. cbn [Z.leb Z.compare]. unfold bind, on_mach, zoom, pins. cbn [ide_mach set_ide_mach].
      rewrite E2. by rewrite (bupd_ok k _ _ x). }
    rewrite (bind_ok _ _ _ _ _ E).
    rewrite (finish_flags k (IBuf (set_data blk (ib_buf x)) (ib_qnext x))); [|apply list_lookup_insert_eq; by eapply lookup_lt_Some|done].
    cbn [ide_woken ide_bufs s2 set_ide_bufs set_ide_mach ib_buf ib_qnext]. rewrite list_insert_insert_eq.
    split; [by destruct s|]. cbn [m_hw set_hw]. by rewrite Ea2, Ea.
Qed.

Lemma serve_keeps b d :
  dwf d -> request b (length (dblocks d)) ->
  b_flags (serve b d).1 = B_VALID /\ dwf (serve b d).2 /\ length (dblocks (serve b d).2) = length (dblocks d).
Proof.
  intros Hd Hr. destruct (has (b_flags b) B_DIRTY) eqn:Eh.
  - destruct (serve_write _ _ Hd Hr Eh) as (-> & Hw & ->). by rewrite length_insert.
  - destruct (serve_read _ _ Hd Hr Eh) as (blk & _ & -> & Hw & ->). done.
Qed.

(** The state in which [ideintr] takes the first buffer [k] off the queue [k :: q]. *)
Lemma rel_served a s k q b x m' h :
  ide_rel a s -> ai_queue a = k :: q -> ai_bufs a !! k = Some b -> ide_bufs s !! k = Some x -> ib_buf x = b ->
  h = ib_qnext x -> at_work (astep IIntr a).2 (ata_of (m_hw m')) ->
  ide_rel (astep IIntr a).2
    (Ide false h true (<[k := IBuf (serve b (ai_disk a)).1 h]> (ide_bufs s)) m' (ide_woken s ++ [k])).
Proof.
  intros R Eq Eb Ex <- -> Hw. pose proof (ir_queue _ _ R) as Hq. pose proof (ir_nodup _ _ R) as Hnd.
  pose proof (ir_wait _ _ R) as Hwt. pose proof (ir_req _ _ R) as Hrq. pose proof (ir_done _ _ R) as Hdn.
  destruct (Hrq k) as (b' & Eb' & Hb); [rewrite Eq; left|]. assert (b' = ib_buf x) as -> by congruence.
  destruct (serve_keeps _ _ (ir_dwf _ _ R) Hb) as (Sf & Sd & Sl). pose proof (lookup_lt_Some _ _ _ Eb) as Hlt.
  cbn [astep] in *. rewrite Eq in *. apply NoDup_cons in Hnd as [Hk Hnd]. destruct Hq as (_ & y & Ey & Hq).
  assert (y = x) as -> by congruence. rewrite (nth_lookup_Some _ _ _ _ Eb) in *.
  split; cbn [ai_queue ai_wait ai_bufs ai_disk ai_woken ide_lock havedisk1 ide_bufs ide_woken idequeue ide_mach snd] in *; try done.
  - by rewrite list_fmap_insert, (ir_bufs _ _ R).
  - by rewrite (ir_woken _ _ R).
  - by apply qchain_other.
  - intros j Hj. apply Hwt. by right.
  - intros j Hj. rewrite list_lookup_insert_ne, Sl by (by intros ->). apply Hrq. by right.
  - intros j Hj Hnj. destruct (decide (j = k)) as [->|Hne].
    + rewrite list_lookup_insert_eq by done. eauto.
    + rewrite list_lookup_insert_ne by done. apply Hdn; [done|]. by apply not_elem_of_cons.
Qed.

Lemma intr_ok a s fuel :
  ide_rel a s -> (ata_polls <= fuel)%nat -> exists s', ideintr fuel s = Ok tt s' /\ ide_rel (astep IIntr a).2 s'.
Proof.
  intros R Hf. unfold ideintr, acquire_ide, acquire, bind at 1. rewrite (ir_lock _ _ R). unfold bind at 1, gets at 1.
  pose proof (ir_queue _ _ R) as Hq. pose proof (ir_work _ _ R) as Hw. unfold at_work in Hw. cbn [idequeue set_ide_lock].
  destruct (ai_queue a) as [|k q] eqn:Eq; cbn [qchain] in Hq.
  { rewrite Hq. exists s. cbn [astep]. rewrite Eq. split; [|done]. pose proof (ir_lock _ _ R) as El.
    unfold release_ide, release. destruct s. cbn in *. by subst. }
  destruct Hq as (-> & x & Ex & Hq). destruct (ir_req _ _ R k) as (b & Eb & Hb); [rewrite Eq; left|].
  destruct (rel_buf _ _ _ _ R Eb) as (y & Ey & Eyb). assert (y = x) as -> by congruence. subst b. specialize (Hw _ Eb).
  destruct (serve_keeps _ _ (ir_dwf _ _ R) Hb) as (_ & _ & Sl).
  unfold bind at 1, gets at 1. rewrite (ibuf_at_ok k _ x) by done. unfold bind at 1, modify at 1.
  set (s1 := set_idequeue _ _).
  destruct (ide_finish_ok k x s1 fuel (ai_disk a) Ex Hb (ir_dwf _ _ R) Hf Hw) as (m1 & E1 & Hc1 & Hd1).
  rewrite (bind_ok _ _ _ _ _ E1). unfold bind at 1, gets at 1. clear E1. unfold s1. cbn [idequeue set_ide_woken set_ide_bufs set_ide_mach set_idequeue].
  destruct q as [|j q]; cbn [qchain] in Hq.
  - rewrite Hq. unfold bind, ret, release_ide, release. eexists. split; [reflexivity|]. ide_norm.
    rewrite (ir_disk1 _ _ R). apply (rel_served _ _ k [] (ib_buf x) x); try done.
    unfold at_work. cbn [astep]. rewrite Eq, (nth_lookup_Some _ _ _ _ Eb). done.
  - destruct Hq as (Eh & z & Ez & _). rewrite Eh.
    pose proof (ir_nodup _ _ R) as Hnd. rewrite Eq in Hnd. apply NoDup_cons in Hnd as [Hk _].
    assert (k <> j) as Hkj by (intros ->; apply Hk; left).
    destruct (ir_req _ _ R j) as (bj & Ebj & Hbj); [rewrite Eq; right; left|].
    destruct (rel_buf _ _ _ _ R Ebj) as (z' & Ez' & Ezb). assert (z' = z) as -> by congruence. subst bj.
    set (s2 := set_ide_woken _ _).
    destruct (idestart_ok j z s2 fuel (dblocks (serve (ib_buf x) (ai_disk a)).2)) as (m2 & E2 & Hs2); try done.
    { unfold s2. ide_norm. by rewrite list_lookup_insert_ne. }
    { by rewrite Sl. }
    rewrite (bind_ok _ _ _ _ _ E2). unfold release_ide, release. eexists. split; [reflexivity|]. unfold s2. ide_norm.
    rewrite (ir_disk1 _ _ R). apply (rel_served _ _ k (j :: q) (ib_buf x) x); try done.
    unfold at_work. cbn [astep]. rewrite Eq, (nth_lookup_Some _ _ _ _ Eb). cbn [ai_queue ai_bufs ai_disk snd].
    intros b'. rewrite list_lookup_insert_ne, Ebj by done. intros [= <-]. by apply (started_disk _ _ _ _ Hs2).
Qed.

Lemma iderw_wait_ok k x s :
  ide_lock s = true -> ide_bufs s !! k = Some x ->
  iderw_wait k s =
    Ok (if Z.land (b_flags (ib_buf x)) (Z.lor B_VALID B_DIRTY) =? B_VALID then Finished else Waits) (set_ide_lock false s).
Proof.
  intros El Ex. unfold iderw_wait, bind, bfield, gets, release_ide, release. rewrite (ibuf_at_ok _ _ _ Ex), El. done.
Qed.

(** The checks at the start of [iderw]. *)
Lemma iderw_enter k x s fuel n :
  ide_bufs s !! k = Some x -> request (ib_buf x) n -> havedisk1 s = true -> ide_lock s = false ->
  iderw k fuel s =
  (pp <- queue_end QHead (S (length (ide_bufs s))) ;;
   lput pp (Some k) ;;
   q <- gets idequeue ;;
   when (bool_decide (q = Some k)) (idestart (Some k) fuel) ;;
   iderw_wait k) (set_ide_bufs (<[k := IBuf (ib_buf x) None]> (ide_bufs s)) (set_ide_lock true s)).
Proof.
  intros Ex Hr Hd El. pose proof Hr as (Hl1 & Hl2 & _). unfold iderw. unfold bind at 1. rewrite (ibuf_at_ok _ _ _ Ex), holdingsleep_ok by done.
  rewrite (bind_ok _ _ _ _ _ (bupd_ok _ _ _ _ Ex)). rewrite set_lock_id. destruct x as [b nx]. cbn [ib_buf ib_qnext] in *.
  rewrite list_insert_id by done. unfold ret at 1. replace (set_ide_bufs (ide_bufs s) s) with s by (by destruct s).
  unfold bind at 1, bfield at 1, gets at 1. rewrite (ibuf_at_ok _ _ _ Ex), Hl2. cbn [ib_buf id negb].
  rewrite (request_flags _ _ Hr). unfold bind at 1, gets at 1. rewrite Hd, andb_false_r.
  unfold bind at 1, acquire_ide, acquire. rewrite El.
  rewrite (bind_ok _ _ _ _ _ (set_qnext_ok k None (set_ide_lock true s) _ Ex)).
  unfold bind at 1, gets at 1. cbn [ide_bufs set_ide_bufs set_ide_lock ib_buf]. by rewrite length_insert.
Qed.

Lemma req_ok a s k fuel :
  ide_rel a s -> (ata_polls <= fuel)%nat -> legal (IReq k) a ->
  exists s', iderw k fuel s = Ok Waits s' /\ ide_rel (astep (IReq k) a).2 s'.
Proof.
  intros R Hf (Hk & b & Eb & Hb). destruct (rel_buf _ _ _ _ R Eb) as (x & Ex & <-).
  assert (k ∉ ai_queue a) as Hkq by (intros Hq; by apply Hk, (ir_wait _ _ R)).
  rewrite (iderw_enter k x s fuel _ Ex Hb (ir_disk1 _ _ R) (ir_lock _ _ R)). set (s1 := set_ide_bufs _ _).
  pose proof (lookup_lt_Some _ _ _ Ex) as Hlt. pose proof (ir_nodup _ _ R) as Hnd.
  assert (qchain (ide_bufs s1) (idequeue s1) (ai_queue a)) as Hq by (apply qchain_other; [done|apply R]).
  rewrite (bind_ok _ _ _ _ _ (queue_end_ok QHead (idequeue s1) (ai_queue a) (S (length (ide_bufs s))) s1 eq_refl Hq
    ltac:(pose proof (qchain_length _ _ _ Hnd (ir_queue _ _ R)); lia))).
  destruct (append_ok s1 (ai_queue a) k (IBuf (ib_buf x) None) Hnd Hkq ltac:(by apply list_lookup_insert_eq) eq_refl Hq)
    as (h & bs & E2 & Hq2 & Ebs).
  rewrite (bind_ok _ _ _ _ _ E2). unfold bind at 1, gets at 1. cbn [idequeue set_idequeue].
  assert (ib_buf <$> bs = ai_bufs a) as Ebs2.
  { rewrite Ebs. unfold s1. ide_norm. rewrite list_fmap_insert, (ir_bufs _ _ R). apply list_insert_id. done. }
  assert (exists y, bs !! k = Some y /\ ib_buf y = ib_buf x) as (y & Ey & Eyb).
  { pose proof Eb as E. rewrite <- Ebs2, list_lookup_fmap in E. destruct (bs !! k) as [y|]; [|done]. injection E as E. eauto. }
  set (s2 := set_idequeue h (set_ide_bufs bs s1)).
  assert (exists m', when (bool_decide (h = Some k)) (idestart (Some k) fuel) s2 = Ok tt (set_ide_mach m' s2) /\
    at_work (astep (IReq k) a).2 (ata_of (m_hw m'))) as (m' & E3 & Hw).
  { pose proof (ir_work _ _ R) as Hw. unfold at_work in *. cbn [astep snd ai_queue ai_bufs ai_disk].
    destruct (ai_queue a) as [|j q]; simpl app in *; destruct Hq2 as [-> _].
    - rewrite bool_decide_true by done. destruct Hw as [Hc Hd].
      destruct (idestart_ok k y s2 fuel (dblocks (ai_disk a))) as (m' & E3 & Hs); try done; [by rewrite Eyb|].
      exists m'. split; [done|]. intros b' Hb'. assert (b' = ib_buf y) as -> by congruence. by apply (started_disk _ _ _ _ Hs).
    - apply not_elem_of_cons in Hkq as [Hkj _]. rewrite bool_decide_false by congruence.
      exists (ide_mach s). split; [|done]. unfold when, ret. by destruct s. }
  rewrite (bind_ok _ _ _ _ _ E3), (iderw_wait_ok k y) by done. rewrite Eyb, (request_flags _ _ Hb).
  eexists. split; [done|]. unfold s2, s1. ide_norm.
  split; cbn [astep snd ai_queue ai_wait ai_bufs ai_disk ai_woken ide_lock havedisk1 ide_bufs ide_woken idequeue ide_mach]; try done; try apply R.
  - apply NoDup_app. split_and!; [done| |apply NoDup_singleton]. intros j Hj ->%list_elem_of_singleton. done.
  - intros j [Hj| ->%list_elem_of_singleton]%elem_of_app; [right; by apply (ir_wait _ _ R)|left].
  - intros j [Hj| ->%list_elem_of_singleton]%elem_of_app; [by apply (ir_req _ _ R)|eauto].
  - intros j [->|Hj]%elem_of_cons Hnj; [|apply (ir_done _ _ R); [done|]]; set_solver.
Qed.

Lemma use_ok a s k b :
  ide_rel a s -> k ∉ ai_wait a ->
  exists s', bupd k (fun _ => b) s = Ok tt s' /\ ide_rel (astep (IUse k b) a).2 s'.
Proof.
  intros R Hk. assert (forall j, j ∈ ai_wait a -> k <> j) as Hne by (by intros j Hj ->).
  assert (forall l, l = <[k := b]> (ai_bufs a) -> forall j, j ∈ ai_wait a -> l !! j = ai_bufs a !! j) as Hl.
  { intros l -> j Hj. apply list_lookup_insert_ne. auto. }
  eexists. split; [done|]. destruct R as [R1 R2 R3 R4 R5 R6 R7 R8 R9 R10 R11].
  split; cbn [astep snd ai_queue ai_wait ai_bufs ai_disk ai_woken] in *; ide_norm; try done.
  - apply list_eq. intros j. rewrite list_lookup_fmap. destruct (decide (j = k)) as [->|Hj].
    + rewrite list_lookup_alter_eq. rewrite <- R3. destruct (ide_bufs s !! k) as [x|] eqn:Ex; simpl.
      * rewrite list_lookup_insert_eq; [done|]. rewrite length_fmap. by eapply lookup_lt_Some.
      * symmetry. apply lookup_ge_None_2. rewrite length_insert, length_fmap. by apply lookup_ge_None_1.
    + rewrite list_lookup_alter_ne, list_lookup_insert_ne by done. by rewrite <- R3, list_lookup_fmap.
  - destruct (ide_bufs s !! k) as [x|] eqn:Ex.
    + rewrite (alter_insert _ _ _ _ Ex). apply qchain_other; [|done]. intros Hq. by apply (Hne k); [apply R7|].
    + enough (alter (fun y : ibuf => IBuf b (ib_qnext y)) k (ide_bufs s) = ide_bufs s) as -> by done.
      apply list_eq. intros j. destruct (decide (j = k)) as [->|Hj]; [by rewrite list_lookup_alter_eq, Ex|by rewrite list_lookup_alter_ne].
  - intros j Hj. rewrite (Hl _ eq_refl) by auto. auto.
  - intros j Hj Hnj. rewrite (Hl _ eq_refl) by auto. auto.
  - unfold at_work in *. cbn [ai_queue ai_bufs ai_disk]. destruct (ai_queue a) as [|j q]; [done|].
    rewrite (Hl _ eq_refl) by (apply R7; left). done.
Qed.

Lemma resume_ok a s k :
  ide_rel a s -> k ∈ ai_wait a ->
  exists o s', iderw_resume k s = Ok o s' /\ Some o = (astep (IResume k) a).1 /\ ide_rel (astep (IResume k) a).2 s'.
Proof.
  intros R Hk. unfold iderw_resume, bind, acquire_ide, acquire. rewrite (ir_lock _ _ R). cbn [astep].
  assert (set_ide_lock false (set_ide_lock true s) = s) as Es by (pose proof (ir_lock _ _ R); destruct s; simpl in *; by subst).
  destruct (decide (k ∈ ai_queue a)) as [Hq|Hq].
  - destruct (ir_req _ _ R k Hq) as (b & Eb & Hb). destruct (rel_buf _ _ _ _ R Eb) as (x & Ex & <-).
    rewrite (iderw_wait_ok k x) by done. rewrite (request_flags _ _ Hb), Es. by exists Waits, s.
  - destruct (ir_done _ _ R k Hk Hq) as (b & Eb & Hb). destruct (rel_buf _ _ _ _ R Eb) as (x & Ex & <-).
    rewrite (iderw_wait_ok k x), Hb, Es by done. exists Finished, s. split_and!; [done..|].
    destruct R as [R1 R2 R3 R4 R5 R6 R7 R8 R9 R10 R11].
    split; cbn [snd ai_queue ai_wait ai_bufs ai_disk ai_woken] in *; try done.
    + intros j Hj. apply list_elem_of_filter. split; [by intros ->|auto].
    + intros j Hj. apply list_elem_of_filter in Hj as [_ Hj]. auto.
Qed.

Lemma istep_ok a s ev fuel :
  ide_rel a s -> (ata_polls <= fuel)%nat -> legal ev a ->
  exists s', istep fuel ev s = Ok (astep ev a).1 s' /\ ide_rel (astep ev a).2 s'.
Proof.
  intros R Hf Hl. destruct ev as [k| |k b|k]; cbn [istep].
  - destruct (req_ok a s k fuel R Hf Hl) as (s' & E & R'). exists s'. by rewrite (bind_ok _ _ _ _ _ E).
  - destruct (intr_ok a s fuel R Hf) as (s' & E & R'). exists s'. rewrite (bind_ok _ _ _ _ _ E). split; [|done].
    cbn [astep]. by destruct (ai_queue a).
  - destruct (use_ok a s k b R Hl) as (s' & E & R'). exists s'. by rewrite (bind_ok _ _ _ _ _ E).
  - destruct (resume_ok a s k R Hl) as (o & s' & E & Eo & R'). exists s'. rewrite (bind_ok _ _ _ _ _ E), <- Eo. done.
Qed.

Lemma irun_ok evs a s fuel :
  ide_rel a s -> (ata_polls <= fuel)%nat -> legals evs a ->
  exists s', irun fuel evs s = Ok (arun evs a).1 s' /\ ide_rel (arun evs a).2 s'.
Proof.
  revert a s. induction evs as [|ev evs IH]; intros a s R Hf Hl; [by exists s|]. destruct Hl as [Hl Hls].
  destruct (istep_ok a s ev fuel R Hf Hl) as (s1 & E1 & R1). destruct (IH _ _ R1 Hf Hls) as (s2 & E2 & R2).
  exists s2. cbn [irun]. rewrite (bind_ok _ _ _ _ _ E1), (bind_ok _ _ _ _ _ E2). done.
Qed.

(** The driver at rest, in front of a drive 1 with the content of [d]. *)
Definition ide_rest (d : D) (s : ide H) : Prop :=
  ide_lock s = false /\ havedisk1 s = true /\ idequeue s = None /\ dwf d /\
  a_cmd (ata_of (m_hw (ide_mach s))) = AIdle /\ a_disks (ata_of (m_hw (ide_mach s))) !! 1%nat = Some (dblocks d).

(** C5. The IDE driver serves requests in their order.  From a driver at rest, along
    every sequence of calls of [iderw], interrupts of the controller, also spurious
    ones, wakeups and changes that processes make to their buffers, nothing panics
    or hangs, and the outcomes of the calls, the buffers and the wakeups are those
    of a queue in front of a disk that keeps the promise [Disk] to the buffer
    cache and serves the first request at each interrupt.  A process is sent back
    to sleep exactly as long as its request is in the queue, and when the queue is
    empty the drive holds the content of that disk. *)
Theorem ide_serves_in_order (fuel : nat) (d : D) (s : ide H) (evs : list ievent) :
  (ata_polls <= fuel)%nat -> ide_rest d s ->
  let a0 := Aide [] [] (ib_buf <$> ide_bufs s) d (ide_woken s) in
  let a := (arun evs a0).2 in
  legals evs a0 ->
  exists s', irun fuel evs s = Ok (arun evs a0).1 s' /\
    ib_buf <$> ide_bufs s' = ai_bufs a /\ ide_woken s' = ai_woken a /\
    (ai_queue a = [] -> a_disks (ata_of (m_hw (ide_mach s'))) !! 1%nat = Some (dblocks (ai_disk a))).
Proof.
  intros Hf (Hlk & Hd1 & Hq0 & Hwf & Hc0 & Hdk) a0 a Hl.
  destruct (irun_ok evs a0 s fuel) as (s' & E & R); [|done..|].
  - split; try done; cbn; try (by intros ? ?%elem_of_nil). constructor.
  - exists s'. split_and!; [done|apply R..|]. intros Eq. pose proof (ir_work _ _ R) as Hw. unfold at_work in Hw.
    unfold a in Eq. rewrite Eq in Hw. apply Hw.
Qed.
End refinement.

(** ** A controller *)

(** The controller of the specification itself, which is ready at once. *)
#[export] Instance ata_machine : Machine ata := {
  inb := fun port a => (if port =? 0x1f7 then IDE_DRDY else 0, a);
  outb := fun port v a =>
    if port =? 0x1f7 then
      if v =? IDE_CMD_READ then set_a_cmd (AReading (a_drive a) (a_lba a)) a
      else if v =? IDE_CMD_WRITE then set_a_cmd (AWriting (a_drive a) (a_lba a)) a else a
    else ata_reg port v a;
  insl := fun _ _ a =>
    match a_cmd a with
    | AReading d l => (nth l (nth d (a_disks a) []) [], set_a_cmd AIdle a)
    | _ => ([], a)
    end;
  outsl := fun _ blk a =>
    match a_cmd a with
    | AWriting d l => set_a_cmd AIdle (set_a_disks (<[d := <[l := blk]> (nth d (a_disks a) [])]> (a_disks a)) a)
    | _ => a
    end;
  vload := fun _ a => (0, a);
  vstore := fun _ _ a => a
}.

#[export, program] Instance ata_disk : AtaDisk ata := { ata_of := fun a => a; ata_polls := 1 }.
Next Obligation.
  intros a. exists 0%nat, IDE_DRDY, a. split; [lia|]. by split.
Qed.
Next Obligation.
  intros port v a [-> |Hp]; [done|]. cbn. by destruct (Z.eqb_spec port 503); [lia|].
Qed.
Next Obligation. done. Qed.
Next Obligation. done. Qed.
Next Obligation.
  intros a d l disk blk Hc Hd Hb. cbn. rewrite Hc. exists (set_a_cmd AIdle a).
  by rewrite (nth_lookup_Some _ _ _ _ Hd), (nth_lookup_Some _ _ _ _ Hb).
Qed.
Next Obligation.
  intros a d l disk blk Hc Hd Hl Hb. cbn. rewrite Hc. by rewrite (nth_lookup_Some _ _ _ _ Hd).
Qed.

(** A disk of four blocks, the buffer 0 with data for block 2, and the buffer 1 for
    what block 2 holds. *)
Definition demo_image : list Z := replicate 2048 7.
Definition demo_lock : sleeplock := Sleeplock true false "buffer" 1.
Definition demo_bufs : list ibuf :=
  [IBuf (Buf B_DIRTY 1 2 demo_lock 1 0 0 (replicate 512 9)) None; IBuf (Buf 0 1 2 demo_lock 1 0 0 (replicate 512 0)) None].
Definition demo_ide : ide ata :=
  Ide false None true demo_bufs
    (Mach irqmask0 0 0 false 0 [] 0 0 ∅ Console.demo_console
       (Ata 0 0 0 0 0 [[]; dblocks (MemIde.ideinit demo_image)] AIdle)) [].
Definition demo_events : list ievent := [IReq 0; IReq 1; IIntr; IResume 1; IResume 0; IIntr; IResume 1].

Lemma ide_serves_in_order_witness :
  exists s', irun 1 demo_events demo_ide =
      Ok [Some Waits; Some Waits; None; Some Waits; Some Finished; None; Some Finished] s' /\
    (b_data <$> (ib_buf <$> ide_bufs s')) = [replicate 512 9; replicate 512 9] /\ ide_woken s' = [0%nat; 1%nat].
Proof.
  assert (Forall is_u8 (replicate 512 9) /\ Forall is_u8 (replicate 512 0) /\ Forall is_u8 demo_image) as (U9 & U0 & UI)
    by (split_and!; apply Forall_replicate; unfold is_u8; lia).
  destruct (ide_serves_in_order 1 (MemIde.ideinit demo_image) demo_ide demo_events) as (s' & E & Eb & Ew & _).
  - vm_compute. reflexivity.
  - split_and!; [reflexivity|reflexivity|reflexivity| |reflexivity|reflexivity].
    split_and!; [vm_compute; discriminate|vm_compute; discriminate|exact UI].
  - split; [split; [unfold legal; apply (bool_decide_unpack _); vm_compute; exact I|]|].
    { eexists. split; [reflexivity|]. split_and!; [reflexivity|reflexivity|right; left; reflexivity|reflexivity| | | |];
        [vm_compute; discriminate|reflexivity|reflexivity|split; [reflexivity|exact U9]]. }
    split; [split; [unfold legal; apply (bool_decide_unpack _); vm_compute; exact I|]|].
    { eexists. split; [reflexivity|]. split_and!; [reflexivity|reflexivity|left; reflexivity|reflexivity| | | |];
        [vm_compute; discriminate|reflexivity|reflexivity|split; [reflexivity|exact U0]]. }
    split; [exact I|]. split; [unfold legal; apply (bool_decide_unpack _); vm_compute; exact I|].
    split; [unfold legal; apply (bool_decide_unpack _); vm_compute; exact I|]. split; [exact I|].
    split; [unfold legal; apply (bool_decide_unpack _); vm_compute; exact I|exact I].
  - exists s'. split_and!; [rewrite E|rewrite Eb|rewrite Ew]; vm_compute; reflexivity.
Defined.

(** If the drive reports an error for a read, [ideintr] marks the buffer as valid all
    the same, with the data that it had before, and wakes the process. *)
Lemma read_error_ignored {H} `{!Machine H} (s : ide H) (k : nat) (x : ibuf) (fuel : nat) (h' : H) :
  ide_lock s = false -> idequeue s = Some k -> ide_bufs s !! k = Some x -> ib_qnext x = None -> b_flags (ib_buf x) = 0 ->
  inb 0x1f7 (m_hw (ide_mach s)) = (Z.lor IDE_DRDY IDE_ERR, h') ->
  ideintr (S fuel) s =
    Ok tt (Ide false None (havedisk1 s) (<[k := IBuf (set_flags B_VALID (ib_buf x)) None]> (ide_bufs s))
      (set_hw h' (ide_mach s)) (ide_woken s ++ [k])).
Proof.
  intros El Eq Ex En Ef Ei. unfold ideintr, bind at 1, acquire_ide, acquire. rewrite El. unfold bind at 1, gets at 1. ide_norm. rewrite Eq.
  unfold bind at 1, gets at 1. rewrite (ibuf_at_ok k _ x), En by done. unfold bind at 1, modify at 1. ide_norm.
  set (s1 := Ide _ _ _ _ _ _). set (s2 := set_ide_mach (set_hw h' (ide_mach s)) s1).
  assert (ide_finish k (S fuel) s1 = Ok tt (set_ide_woken (ide_woken s2 ++ [k])
    (set_ide_bufs (<[k := IBuf (set_flags B_VALID (ib_buf x)) (ib_qnext x)]> (ide_bufs s2)) s2))) as E.
  { rewrite <- (finish_flags k x s2) by auto. unfold ide_finish, bind at 1, bfield at 1, gets at 1.
    rewrite (ibuf_at_ok k s1 x), Ef by done. change (negb (has 0 B_DIRTY)) with true. cbv iota.
    assert ((r <- on_mach (idewait true (S fuel)) ;;
             if 0 <=? r then d <- on_mach (pins 0x1f0 (BSIZE / 4)) ;; bupd k (set_data d) else ret tt) s1 = Ok tt s2) as E0.
    { unfold bind, on_mach, zoom. cbn [idewait]. unfold bind, pin. cbn [ide_mach s1]. by rewrite Ei. }
    by rewrite (bind_ok _ _ _ _ _ E0). }
  rewrite (bind_ok _ _ _ _ _ E), En. done.
Qed.
