(* ===== verification/Exec.v ===== *)
(** Programs and address spaces: the segments of a CPU and the switch to the page
    table of a process (vm.c, mmu.h), the loading of an ELF file (exec.c, elf.h,
    [loaduvm] of vm.c), and [sys_exec] (sysfile.c). *)
From stdpp Require Import base numbers list gmap strings.
From Stdlib Require Import ZArith Lia.
From S2P Require Import Spinlock Prelude Bytes Mem Disk Super Log Kalloc Vm Fs Syscall.

Open Scope kernel_scope.

(** * Segments (mmu.h) *)

(** [struct segdesc]. *)
Record segdesc := Segdesc {
  lim_15_0 : Z; base_15_0 : Z; base_23_16 : Z; sd_type : Z; sd_s : Z; sd_dpl : Z; sd_p : Z;
  lim_19_16 : Z; sd_avl : Z; sd_rsv1 : Z; sd_db : Z; sd_g : Z; base_31_24 : Z
}.

Definition SEG (type base lim dpl : Z) : segdesc :=
  Segdesc (Z.land (Z.shiftr lim 12) 0xffff) (Z.land (u32 base) 0xffff) (Z.land (Z.shiftr (u32 base) 16) 0xff)
    type 1 dpl 1 (Z.shiftr (u32 lim) 28) 0 0 1 1 (Z.shiftr (u32 base) 24).
Definition SEG16 (type base lim dpl : Z) : segdesc :=
  Segdesc (Z.land lim 0xffff) (Z.land (u32 base) 0xffff) (Z.land (Z.shiftr (u32 base) 16) 0xff)
    type 1 dpl 1 (Z.shiftr (u32 lim) 16) 0 0 1 0 (Z.shiftr (u32 base) 24).

Definition set_sd_s (s : Z) (d : segdesc) : segdesc :=
  Segdesc (lim_15_0 d) (base_15_0 d) (base_23_16 d) (sd_type d) s (sd_dpl d) (sd_p d)
    (lim_19_16 d) (sd_avl d) (sd_rsv1 d) (sd_db d) (sd_g d) (base_31_24 d).

Definition SEG_KCODE : nat := 1.
Definition SEG_KDATA : nat := 2.
Definition SEG_KCPU : nat := 3.
Definition SEG_UCODE : nat := 4.
Definition SEG_UDATA : nat := 5.
Definition SEG_TSS : nat := 6.
Definition DPL_USER : Z := 3.
Definition STA_X : Z := 8.
Definition STA_W : Z := 2.
Definition STA_R : Z := 2.
Definition STS_T32A : Z := 9.

(** * One CPU *)

(** What address translation and traps use of a CPU: its descriptor table, the
    fields of its task state that are set, the registers, and [kpgdir].
    [hw_cpu_addr] and [hw_ts_addr] are the addresses of [c->cpu] and [cpu->ts]. *)
Record hw := Hw {
  hw_gdt : list segdesc;
  hw_gs : Z;
  hw_tr : Z;
  hw_cr3 : Z;
  hw_ss0 : Z;
  hw_esp0 : Z;
  hw_iomb : Z;
  hw_cpu : cpu;
  hw_kpgdir : Z;
  hw_cpu_addr : Z;
  hw_ts_addr : Z
}.

Definition set_gdt (i : nat) (d : segdesc) (s : hw) : hw :=
  Hw (<[i := d]> (hw_gdt s)) (hw_gs s) (hw_tr s) (hw_cr3 s) (hw_ss0 s) (hw_esp0 s) (hw_iomb s) (hw_cpu s)
    (hw_kpgdir s) (hw_cpu_addr s) (hw_ts_addr s).
Definition set_gs (v : Z) (s : hw) : hw :=
  Hw (hw_gdt s) v (hw_tr s) (hw_cr3 s) (hw_ss0 s) (hw_esp0 s) (hw_iomb s) (hw_cpu s) (hw_kpgdir s) (hw_cpu_addr s) (hw_ts_addr s).
Definition set_tr (v : Z) (s : hw) : hw :=
  Hw (hw_gdt s) (hw_gs s) v (hw_cr3 s) (hw_ss0 s) (hw_esp0 s) (hw_iomb s) (hw_cpu s) (hw_kpgdir s) (hw_cpu_addr s) (hw_ts_addr s).
Definition set_cr3 (v : Z) (s : hw) : hw :=
  Hw (hw_gdt s) (hw_gs s) (hw_tr s) v (hw_ss0 s) (hw_esp0 s) (hw_iomb s) (hw_cpu s) (hw_kpgdir s) (hw_cpu_addr s) (hw_ts_addr s).
Definition set_ts (ss0 esp0 iomb : Z) (s : hw) : hw :=
  Hw (hw_gdt s) (hw_gs s) (hw_tr s) (hw_cr3 s) ss0 esp0 iomb (hw_cpu s) (hw_kpgdir s) (hw_cpu_addr s) (hw_ts_addr s).
Definition set_hw_cpu (c : cpu) (s : hw) : hw :=
  Hw (hw_gdt s) (hw_gs s) (hw_tr s) (hw_cr3 s) (hw_ss0 s) (hw_esp0 s) (hw_iomb s) c (hw_kpgdir s) (hw_cpu_addr s) (hw_ts_addr s).
Definition set_kpgdir (v : Z) (s : hw) : hw :=
  Hw (hw_gdt s) (hw_gs s) (hw_tr s) (hw_cr3 s) (hw_ss0 s) (hw_esp0 s) (hw_iomb s) (hw_cpu s) v (hw_cpu_addr s) (hw_ts_addr s).

(** [cpu = c] is the load of [gs]; [proc = 0]. *)
Definition seginit : M hw unit :=
  s <- mget ;;
  modify (set_gdt SEG_KCODE (SEG (Z.lor STA_X STA_R) 0 0xffffffff 0)) ;;
  modify (set_gdt SEG_KDATA (SEG STA_W 0 0xffffffff 0)) ;;
  modify (set_gdt SEG_UCODE (SEG (Z.lor STA_X STA_R) 0 0xffffffff DPL_USER)) ;;
  modify (set_gdt SEG_UDATA (SEG STA_W 0 0xffffffff DPL_USER)) ;;
  modify (set_gdt SEG_KCPU (SEG STA_W (hw_cpu_addr s) 8 0)) ;;
  modify (set_gs (Z.shiftl (Z.of_nat SEG_KCPU) 3)) ;;
  modify (fun s => set_hw_cpu (Cpu (c_ncli (hw_cpu s)) (c_intena (hw_cpu s)) (c_if (hw_cpu s)) None) s).

Definition switchkvm : M hw unit := modify (fun s => set_cr3 (V2P (hw_kpgdir s)) s).

Definition KSTACKSIZE : Z := 4096.
(** [sizeof(struct taskstate)]. *)
Definition TASKSTATE : Z := 104.

(** [switchuvm] for the kernel stack and the page directory of a process, which is
    never null here. *)
Definition switchuvm (kstack pgdir : Z) : M hw unit :=
  if kstack =? 0 then panic "switchuvm: no kstack" else
  if pgdir =? 0 then panic "switchuvm: no pgdir" else
  zoom hw_cpu set_hw_cpu pushcli ;;
  modify (fun s => set_gdt SEG_TSS (SEG16 STS_T32A (hw_ts_addr s) (TASKSTATE - 1) 0) s) ;;
  modify (fun s => set_gdt SEG_TSS (set_sd_s 0 (SEG16 STS_T32A (hw_ts_addr s) (TASKSTATE - 1) 0)) s) ;;
  modify (set_ts (Z.shiftl (Z.of_nat SEG_KDATA) 3) (u32 (kstack + KSTACKSIZE)) (u16 0xFFFF)) ;;
  modify (set_tr (Z.shiftl (Z.of_nat SEG_TSS) 3)) ;;
  modify (set_cr3 (V2P pgdir)) ;;
  zoom hw_cpu set_hw_cpu popcli.

(** * ELF (elf.h) *)

Definition ELF_MAGIC : Z := 0x464C457F.
Definition ELF_PROG_LOAD : Z := 1.

(** The fields that [exec] uses of [struct elfhdr] and [struct proghdr]. *)
Definition ELFHDR : Z := 52.
Definition elf_magic (d : list Z) : Z := get32 d 0.
Definition elf_entry (d : list Z) : Z := get32 d 24.
Definition elf_phoff (d : list Z) : Z := get32 d 28.
Definition elf_phnum (d : list Z) : Z := get16 d 44.

Definition PROGHDR : Z := 32.
Definition ph_type (d : list Z) : Z := get32 d 0.
Definition ph_off (d : list Z) : Z := get32 d 4.
Definition ph_vaddr (d : list Z) : Z := get32 d 8.
Definition ph_filesz (d : list Z) : Z := get32 d 16.
Definition ph_memsz (d : list Z) : Z := get32 d 20.

(** * exec.c *)

(** Of the process: its name, page directory, size, kernel stack, and the [eip]
    and [esp] of its trap frame. *)
Record image := Image {
  im_name : list Z;
  im_pgdir : Z;
  im_sz : Z;
  im_kstack : Z;
  im_eip : Z;
  im_esp : Z
}.

Record xstate := XState { x_fs : fstate; x_km : kmem; x_hw : hw; x_im : image }.

Definition on_xfs {A} (m : M fstate A) : M xstate A := zoom x_fs (fun f s => XState f (x_km s) (x_hw s) (x_im s)) m.
Definition on_km {A} (m : M kmem A) : M xstate A := zoom x_km (fun k s => XState (x_fs s) k (x_hw s) (x_im s)) m.
Definition on_hw {A} (m : M hw A) : M xstate A := zoom x_hw (fun h s => XState (x_fs s) (x_km s) h (x_im s)) m.
Definition set_im (i : image) (s : xstate) : xstate := XState (x_fs s) (x_km s) (x_hw s) i.

Definition MAXARG : nat := 32.

Section exec.
(** [end] and [data] of the linker script, and the word at address 0. *)
Context `{!Devsw} (kend kdata : Z) (null : mem -> Z).

Definition kvmalloc : M xstate unit :=
  p <- on_km (setupkvm kdata) ;;
  on_hw (modify (set_kpgdir p)) ;;
  on_hw switchkvm.

(** The loop of [loaduvm] at the offset [i]. *)
Fixpoint loaduvm_loop (pgdir addr : Z) (ip : nat) (offset sz i : Z) (fuel : nat) : M xstate Z :=
  match fuel with
  | O => diverge
  | S f =>
      if negb (i <? sz) then ret 0 else
      pte <- on_km (walkpgdir pgdir (u32 (addr + i)) false) ;;
      if pte =? 0 then panic "loaduvm: address should exist" else
      e <- on_km (peek32 pte) ;;
      let n := if sz - i <? PGSIZE then sz - i else PGSIZE in
      r <- on_xfs (readi ip (u32 (offset + i)) n) ;;
      on_km (modify (fun k => set_km_mem (store (km_mem k) (P2V (PTE_ADDR e)) r.2) k)) ;;
      if negb (r.1 =? n) then ret (-1) else
      loaduvm_loop pgdir addr ip offset sz (u32 (i + PGSIZE)) f
  end.

Definition loaduvm (pgdir addr : Z) (ip : nat) (offset sz : Z) : M xstate Z :=
  if negb (addr mod PGSIZE =? 0) then panic "loaduvm: addr must be page aligned" else
  loaduvm_loop pgdir addr ip offset sz 0 (S (Z.to_nat (sz / PGSIZE + 1))).

(** The loop over the [n] program headers left, at [off]; [None] is the jump to
    [bad]. *)
Fixpoint load_segments (ip : nat) (pgdir off sz : Z) (n : nat) : M xstate (option Z) :=
  match n with
  | O => ret (Some sz)
  | S n' =>
      r <- on_xfs (readi ip off PROGHDR) ;;
      if negb (r.1 =? PROGHDR) then ret None else
      let ph := r.2 in
      if negb (ph_type ph =? ELF_PROG_LOAD) then load_segments ip pgdir (u32 (off + PROGHDR)) sz n' else
      if ph_memsz ph <? ph_filesz ph then ret None else
      if u32 (ph_vaddr ph + ph_memsz ph) <? ph_vaddr ph then ret None else
      sz <- on_km (allocuvm kend pgdir sz (u32 (ph_vaddr ph + ph_memsz ph))) ;;
      if sz =? 0 then ret None else
      if negb (ph_vaddr ph mod PGSIZE =? 0) then ret None else
      l <- loaduvm pgdir (ph_vaddr ph) ip (ph_off ph) (ph_filesz ph) ;;
      if l <? 0 then ret None else
      load_segments ip pgdir (u32 (off + PROGHDR)) sz n'
  end.

(** The loop that pushes the strings [argv], [argc] of them being done, whose
    addresses are [ustack]. *)
Fixpoint push_strings (pgdir : Z) (argv : list (list Z)) (argc : nat) (sp : Z) (ustack : list Z) :
    M kmem (option (Z * list Z)) :=
  match argv with
  | [] => ret (Some (sp, ustack))
  | s :: rest =>
      if (MAXARG <=? argc)%nat then ret None else
      let sp := Z.land (u32 (sp - (Z.of_nat (length s) + 1))) (u32 (Z.lnot 3)) in
      r <- copyout null pgdir sp (s ++ [0]) (S (length (s ++ [0]))) ;;
      if r <? 0 then ret None else
      push_strings pgdir rest (S argc) sp (ustack ++ [sp])
  end.

(** The words of [ustack]. *)
Definition words (l : list Z) : list Z := concat (enc 4 <$> l).

(** The whole stack of the new program, below [sz]; the result is its [esp]. *)
Definition push_args (pgdir sz : Z) (argv : list (list Z)) : M kmem (option Z) :=
  r <- push_strings pgdir argv 0 sz [] ;;
  match r with
  | None => ret None
  | Some (sp, ustack) =>
      let argc := Z.of_nat (length argv) in
      let frame := words ([0xffffffff; argc; u32 (sp - (argc + 1) * 4)] ++ ustack ++ [0]) in
      let sp := u32 (sp - (3 + argc + 1) * 4) in
      r <- copyout null pgdir sp frame (S (length frame)) ;;
      if r <? 0 then ret None else ret (Some sp)
  end.

(** The part of [path] after its last slash. *)
Fixpoint last_elem (path last : list Z) : list Z :=
  match path with
  | [] => last
  | c :: p => if c =? SLASH then last_elem p p else last_elem p last
  end.

(** [bad], with what has been done so far: [pgdir], 0 if there is none, and the
    inode, if it is still locked. *)
Definition exec_bad (pgdir : Z) (ip : option nat) : M xstate Z :=
  (if negb (pgdir =? 0) then on_km (freevm kend pgdir) else ret tt) ;;
  match ip with
  | Some i => on_xfs (iunlockput i) ;; on_xfs (lift end_op)
  | None => ret tt
  end ;;
  ret (-1).

Definition exec (path : list Z) (argv : list (list Z)) : M xstate Z :=
  on_xfs (lift begin_op) ;;
  r <- on_xfs (namei path) ;;
  match r with
  | None => on_xfs (lift end_op) ;; ret (-1)
  | Some ip =>
      on_xfs (ilock ip) ;;
      h <- on_xfs (readi ip 0 ELFHDR) ;;
      if negb (h.1 =? ELFHDR) then exec_bad 0 (Some ip) else
      let elf := h.2 in
      if negb (elf_magic elf =? ELF_MAGIC) then exec_bad 0 (Some ip) else
      pgdir <- on_km (setupkvm kdata) ;;
      if pgdir =? 0 then exec_bad 0 (Some ip) else
      sz <- load_segments ip pgdir (elf_phoff elf) 0 (Z.to_nat (elf_phnum elf)) ;;
      match sz with
      | None => exec_bad pgdir (Some ip)
      | Some sz =>
          on_xfs (iunlockput ip) ;;
          on_xfs (lift end_op) ;;
          let sz := PGROUNDUP sz in
          sz <- on_km (allocuvm kend pgdir sz (u32 (sz + 2 * PGSIZE))) ;;
          if sz =? 0 then exec_bad pgdir None else
          on_km (clearpteu pgdir (u32 (sz - 2 * PGSIZE))) ;;
          sp <- on_km (push_args pgdir sz argv) ;;
          match sp with
          | None => exec_bad pgdir None
          | Some sp =>
              im <- gets x_im ;;
              modify (set_im (Image (splice (im_name im) 0 (safestrcpy (cview (last_elem path path)) 16))
                pgdir sz (im_kstack im) (elf_entry elf) sp)) ;;
              on_hw (switchuvm (im_kstack im) pgdir) ;;
              on_km (freevm kend (im_pgdir im)) ;;
              ret 0
          end
      end
  end.

(** The loop of [sys_exec] over the user's array at [uargv]; [n] entries of
    [argv] are left. *)
Fixpoint fetch_argv (e : uenv) (uargv : Z) (n : nat) : option (list (list Z)) :=
  match n with
  | O => None
  | S n' =>
      match fetchint e uargv with
      | None => None
      | Some uarg =>
          if uarg =? 0 then Some [] else
          match fetchstr e (u32 uarg) with
          | None => None
          | Some len => cons (load (u_mem e) (u32 uarg) len) <$> fetch_argv e (u32 (uargv + 4)) n'
          end
      end
  end.

Definition sys_exec (e : uenv) : M xstate Z :=
  match argstr e 0, argint e 1 with
  | Some (p, len), Some uargv =>
      match fetch_argv e (u32 uargv) MAXARG with
      | None => ret (-1)
      | Some argv => exec (load (u_mem e) p len) argv
      end
  | _, _ => ret (-1)
  end.
End exec.
