(* ===== verification/Boot.v ===== *)
(** The boot loader (bootmain.c), which reads the kernel from the disk: for an ELF
    file whose segments are in increasing order, every segment ends up at its
    address, with zeroes behind it. *)
From stdpp Require Import base numbers list gmap strings.
From Stdlib Require Import ZArith Lia Sorting.Sorted.
From S2P Require Import Mem Console Syscall Exec Prelude Bytes Disk Machine Ide.

Open Scope kernel_scope.

Definition SECTSIZE : Z := 512.

Section boot.
Context {H : Type} `{!Machine H}.

Fixpoint waitdisk (fuel : nat) : M (mach H) unit :=
  match fuel with
  | O => diverge
  | S fl =>
      r <- pin 0x1F7 ;;
      if negb (Z.land r 0xC0 =? 0x40) then waitdisk fl else ret tt
  end.

(** The stores of [rep insl]. *)
Fixpoint store_u32 (m : mem) (a : Z) (l : list Z) : mem :=
  match l with
  | [] => m
  | c :: l' => store_u32 (st m a c) (u32 (a + 1)) l'
  end.

Definition readsect (dst offset : Z) (fuel : nat) : M (mach H) unit :=
  waitdisk fuel ;;
  pout 0x1F2 1 ;;
  pout 0x1F3 offset ;;
  pout 0x1F4 (Z.shiftr offset 8) ;;
  pout 0x1F5 (Z.shiftr offset 16) ;;
  pout 0x1F6 (Z.lor (Z.shiftr offset 24) 0xE0) ;;
  pout 0x1F7 0x20 ;;
  waitdisk fuel ;;
  d <- pins 0x1F0 (SECTSIZE / 4) ;;
  modify (fun s => set_m_mem (store_u32 (m_mem s) dst d) s).

(** The loop of [readseg]; [fuel] bounds its turns and the polls of a turn. *)
Fixpoint readseg_loop (pa epa offset : Z) (polls fuel : nat) : M (mach H) unit :=
  match fuel with
  | O => diverge
  | S fl =>
      if negb (pa <? epa) then ret tt else
      readsect pa offset polls ;;
      readseg_loop (u32 (pa + SECTSIZE)) epa (u32 (offset + 1)) polls fl
  end.

Definition readseg (pa count offset : Z) (fuel : nat) : M (mach H) unit :=
  let epa := u32 (pa + count) in
  let pa := u32 (pa - offset mod SECTSIZE) in
  let offset := u32 (offset / SECTSIZE + 1) in
  readseg_loop pa epa offset fuel fuel.

Definition ph_paddr (d : list Z) : Z := get32 d 12.

(** The header at [a]. *)
Definition header (a n : Z) : M (mach H) (list Z) := gets (fun s => load (m_mem s) a n).

Fixpoint load_loop (ph eph : Z) (polls fuel : nat) : M (mach H) unit :=
  match fuel with
  | O => diverge
  | S fl =>
      if negb (ph <? eph) then ret tt else
      p <- header ph PROGHDR ;;
      let pa := ph_paddr p in
      readseg pa (ph_filesz p) (ph_off p) polls ;;
      p <- header ph PROGHDR ;;
      when (ph_filesz p <? ph_memsz p)
        (modify (fun s => set_m_mem (stosb (m_mem s) (u32 (pa + ph_filesz p)) 0 (Z.to_nat (ph_memsz p - ph_filesz p))) s)) ;;
      load_loop (u32 (ph + PROGHDR)) eph polls fl
  end.

(** The address that [bootmain] jumps to, if it does not return. *)
Definition bootmain (fuel : nat) : M (mach H) (option Z) :=
  let elf := 0x10000 in
  readseg elf 4096 0 fuel ;;
  h <- header elf ELFHDR ;;
  if negb (elf_magic h =? ELF_MAGIC) then ret None else
  let ph := u32 (elf + elf_phoff h) in
  let eph := u32 (ph + PROGHDR * elf_phnum h) in
  load_loop ph eph fuel fuel ;;
  h <- header elf ELFHDR ;;
  ret (Some (elf_entry h)).
End boot.

(** * Reading sectors *)

Lemma store_u32_small m a l : 0 <= a -> a + Z.of_nat (length l) <= 2 ^ 32 -> store_u32 m a l = store m a l.
Proof.
  revert m a. induction l as [|c l IH]; intros m a Ha Hl; [done|]. cbn [store_u32 store length] in *.
  destruct l as [|c' l]; [done|]. rewrite u32_small by (cbn [length] in Hl; lia). apply IH; lia.
Qed.

Section reading.
Context {H : Type} `{!Machine H, !AtaDisk H}.
Implicit Types m : mach H.

Lemma waitdisk_idewait fuel m : waitdisk fuel m = (idewait false fuel ;; ret tt) m.
Proof.
  revert m. induction fuel as [|fl IH]; intros m; [done|]. cbn [waitdisk idewait]. rewrite bind_assoc. unfold bind at 1 2.
  destruct (pin 0x1F7 m) as [r s| | |] eqn:E; try done. change (Z.lor IDE_BSY IDE_DRDY) with 0xC0. change IDE_DRDY with 0x40.
  destruct (negb _); [apply IH|done].
Qed.

Lemma waitdisk_mem fuel m m' : waitdisk fuel m = Ok tt m' -> m_mem m' = m_mem m.
Proof.
  revert m. induction fuel as [|fl IH]; intros m E; [done|]. cbn [waitdisk] in E. unfold bind, pin in E.
  destruct (negb _) in E; [by apply IH in E|by injection E as <-].
Qed.

Lemma waitdisk_ok fuel m :
  (ata_polls <= fuel)%nat -> exists m', waitdisk fuel m = Ok tt m' /\ ata_of (m_hw m') = ata_of (m_hw m) /\ m_mem m' = m_mem m.
Proof.
  intros Hf. destruct (idewait_ok false fuel m Hf) as (r & m' & E & Ha & _).
  assert (waitdisk fuel m = Ok tt m') as E' by by rewrite waitdisk_idewait, (bind_ok _ _ _ _ _ E).
  exists m'. split; [done|]. split; [done|]. by eapply waitdisk_mem.
Qed.

(** The controller is idle, and drive 0 holds the sectors [disk]. *)
Definition at_rest (disk : list block) (m : mach H) : Prop :=
  a_cmd (ata_of (m_hw m)) = AIdle /\ a_disks (ata_of (m_hw m)) !! 0%nat = Some disk.

Lemma high_bits x : 0 <= x < 16 -> Z.testbit (u8 (Z.lor x 0xE0)) 4 = false /\ u8 (Z.lor x 0xE0) mod 16 = x.
Proof.
  intros Hx. assert (forallb (fun x => negb (Z.testbit (u8 (Z.lor x 0xE0)) 4) && (u8 (Z.lor x 0xE0) mod 16 =? x)) (seqZ 0 16) = true) as E by done.
  rewrite forallb_forall in E. specialize (E x ltac:(apply list_elem_of_In, elem_of_seqZ; lia)).
  apply andb_true_iff in E as [E1%negb_true_iff E2%Z.eqb_eq]. done.
Qed.

(** The four parts of a sector number. *)
Lemma lba_bytes n : 0 <= n < 2 ^ 28 ->
  u8 n + 2 ^ 8 * u8 (Z.shiftr n 8) + 2 ^ 16 * u8 (Z.shiftr n 16) + 2 ^ 24 * Z.shiftr n 24 = n.
Proof.
  intros Hn. unfold u8. rewrite !Z.shiftr_div_pow2 by lia. change (2 ^ 24) with (2 ^ 16 * 2 ^ 8). change (2 ^ 16) with (2 ^ 8 * 2 ^ 8).
  rewrite <- !Z.div_div by lia. pose proof (Z.div_mod n (2 ^ 8) ltac:(lia)). pose proof (Z.div_mod (n / 2 ^ 8) (2 ^ 8) ltac:(lia)).
  pose proof (Z.div_mod (n / 2 ^ 8 / 2 ^ 8) (2 ^ 8) ltac:(lia)). lia.
Qed.

Lemma readsect_ok disk m dst n blk fuel :
  at_rest disk m -> (ata_polls <= fuel)%nat -> disk !! Z.to_nat n = Some blk -> 0 <= n < 2 ^ 28 ->
  exists m', readsect dst n fuel m = Ok tt m' /\ at_rest disk m' /\ m_mem m' = store_u32 (m_mem m) dst blk.
Proof.
  intros [Hc Hd] Hf Hb Hn. unfold readsect. destruct (waitdisk_ok fuel m Hf) as (m1 & E1 & A1 & M1).
  rewrite (bind_ok _ _ _ _ _ E1). assert (0 <= Z.shiftr n 24 < 16) as Hx.
  { rewrite Z.shiftr_div_pow2 by lia. split; [apply Z.div_pos; lia|apply Z.div_lt_upper_bound; lia]. }
  destruct (high_bits _ Hx) as [Hbit Hmod].
  set (h := outb 0x1F6 (u8 (Z.lor (Z.shiftr n 24) 0xE0)) (outb 0x1F5 (u8 (Z.shiftr n 16)) (outb 0x1F4 (u8 (Z.shiftr n 8))
    (outb 0x1F3 (u8 n) (outb 0x1F2 (u8 1) (m_hw m1)))))).
  set (m2 := set_hw (outb 0x1F7 (u8 0x20) h) m1).
  assert (ata_of h = Ata 1 (u8 n) (u8 (Z.shiftr n 8)) (u8 (Z.shiftr n 16)) (u8 (Z.lor (Z.shiftr n 24) 0xE0))
    (a_disks (ata_of (m_hw m))) AIdle) as E2.
  { unfold h. rewrite !ata_outb by lia. rewrite A1. clear - Hc. destruct (ata_of (m_hw m)) as [? ? ? ? ? ds cm]. simpl in Hc. by subst cm. }
  assert (ata_of (m_hw m2) = set_a_cmd (AReading 0 (Z.to_nat n)) (ata_of h)) as E3.
  { unfold m2. cbn [m_hw set_hw]. change (u8 0x20) with IDE_CMD_READ. rewrite ata_read by by rewrite E2. f_equal.
    rewrite E2. unfold a_drive, a_lba. cbn [a_sel a_lba0 a_lba1 a_lba2]. rewrite Hbit, Hmod. f_equal. by rewrite lba_bytes. }
  destruct (waitdisk_ok fuel m2 Hf) as (m3 & E4 & A3 & M3).
  destruct (ata_data_in (m_hw m3) 0 (Z.to_nat n) disk blk) as (h' & E5 & A5);
    [by rewrite A3, E3|by rewrite A3, E3, E2|done|].
  exists (set_m_mem (store_u32 (m_mem m3) dst blk) (set_hw h' m3)). split; [|split].
  - unfold bind at 1 2 3 4 5 6, pout, modify. cbn [m_hw set_hw].
    change (set_hw _ (set_hw _ _)) with m2. rewrite (bind_ok _ _ _ _ _ E4). unfold bind, pins, modify.
    change (SECTSIZE / 4) with (BSIZE / 4). by rewrite E5.
  - unfold at_rest. cbn [m_hw set_m_mem set_hw]. rewrite A5, A3, E3, E2. done.
  - cbn [m_mem set_m_mem]. rewrite M3. unfold m2. cbn [m_mem set_hw]. by rewrite M1.
Qed.

(** Byte [k] of the kernel file, which starts at sector 1. *)
Definition kbyte (disk : list block) (k : Z) : Z := nth (Z.to_nat (k mod 512)) (nth (Z.to_nat (k / 512 + 1)) disk []) 0.

Lemma kbyte_sector disk n blk j :
  disk !! Z.to_nat n = Some blk -> 1 <= n -> 0 <= j < 512 -> kbyte disk (512 * (n - 1) + j) = nth (Z.to_nat j) blk 0.
Proof.
  intros Hb Hn Hj. unfold kbyte.
  assert ((512 * (n - 1) + j) / 512 = n - 1) as -> by (symmetry; apply (Z.div_unique _ _ _ j); lia).
  assert ((512 * (n - 1) + j) mod 512 = j) as -> by (symmetry; apply (Z.mod_unique _ _ (n - 1)); lia).
  replace (n - 1 + 1) with n by lia. by rewrite (nth_lookup_Some _ _ _ _ Hb).
Qed.

Lemma readseg_loop_ok disk polls turns : forall m pa epa n fuel,
  at_rest disk m -> Forall is_block disk -> (ata_polls <= polls)%nat -> (turns < fuel)%nat ->
  0 <= pa -> pa + 512 * Z.of_nat turns < 2 ^ 32 -> 1 <= n -> n + Z.of_nat turns <= Z.of_nat (length disk) ->
  n + Z.of_nat turns < 2 ^ 28 -> epa <= pa + 512 * Z.of_nat turns < epa + 512 ->
  exists m', readseg_loop pa epa n polls fuel m = Ok tt m' /\ at_rest disk m' /\
    forall b, ld (m_mem m') b =
      if decide (pa <= b < pa + 512 * Z.of_nat turns) then kbyte disk (512 * (n - 1) + (b - pa)) else ld (m_mem m) b.
Proof.
  induction turns as [|t IH]; intros m pa epa n [|fl] HA HB Hp Hf H0 H1 H2 H3 H4 H5; try lia; cbn [readseg_loop].
  - destruct (Z.ltb_spec pa epa); [lia|]. exists m. split; [done|]. split; [done|]. intros b. by rewrite decide_False by lia.
  - destruct (Z.ltb_spec pa epa); [|lia]. cbn [negb].
    destruct (lookup_lt_is_Some_2 disk (Z.to_nat n) ltac:(lia)) as [blk Hblk].
    destruct (readsect_ok disk m pa n blk polls HA Hp Hblk ltac:(lia)) as (m1 & E1 & HA1 & M1). rewrite (bind_ok _ _ _ _ _ E1).
    assert (is_block blk) as [Hl Hu] by (rewrite Forall_lookup in HB; by eapply HB). change (Z.to_nat BSIZE) with 512%nat in Hl.
    unfold SECTSIZE. rewrite !u32_small by lia.
    destruct (IH m1 (pa + 512) epa (n + 1) fl HA1 HB Hp ltac:(lia) ltac:(lia) ltac:(lia) ltac:(lia) ltac:(lia) ltac:(lia) ltac:(lia))
      as (m2 & E2 & HA2 & M2).
    exists m2. split; [done|]. split; [done|]. intros b. rewrite M2, M1, store_u32_small by (rewrite ?Hl; lia). rewrite ld_store, Hl.
    destruct (decide (pa + 512 <= b < pa + 512 + 512 * Z.of_nat t)).
    + rewrite decide_True by lia. f_equal. lia.
    + destruct (decide (pa <= b < pa + Z.of_nat 512)); [|by rewrite decide_False by lia]. rewrite decide_True by lia.
      rewrite (kbyte_sector disk n blk (b - pa) Hblk) by lia. apply u8_small.
      rewrite Forall_lookup in Hu. destruct (lookup_lt_is_Some_2 blk (Z.to_nat (b - pa)) ltac:(lia)) as [c Hc].
      rewrite (nth_lookup_Some _ _ _ _ Hc). by apply Hu in Hc.
Qed.

(** The sectors of [count] bytes at [off], and where they go. *)
Definition sectors (count off : Z) : Z := (count + off mod 512 + 511) / 512.

Lemma readseg_ok disk m pa count off fuel :
  at_rest disk m -> Forall is_block disk -> (ata_polls <= fuel)%nat -> (Z.to_nat (sectors count off) < fuel)%nat ->
  0 <= count -> 0 <= off < 2 ^ 32 -> off mod 512 <= pa -> pa - off mod 512 + 512 * sectors count off < 2 ^ 32 ->
  off / 512 + 1 + sectors count off <= Z.of_nat (length disk) ->
  exists m', readseg pa count off fuel m = Ok tt m' /\ at_rest disk m' /\
    forall b, ld (m_mem m') b =
      if decide (pa - off mod 512 <= b < pa - off mod 512 + 512 * sectors count off) then kbyte disk (off + (b - pa)) else ld (m_mem m) b.
Proof.
  intros HA HB Hp Hf Hc Ho Hpa Hend Hlen. unfold readseg, SECTSIZE.
  pose proof (Z.div_mod off 512 ltac:(lia)). pose proof (Z.mod_pos_bound off 512 ltac:(lia)).
  assert (0 <= off / 512 < 2 ^ 23) by (split; [apply Z.div_pos; lia|apply Z.div_lt_upper_bound; lia]).
  assert (count + off mod 512 <= 512 * sectors count off < count + off mod 512 + 512) as Hs.
  { unfold sectors. pose proof (Z.div_mod (count + off mod 512 + 511) 512 ltac:(lia)).
    pose proof (Z.mod_pos_bound (count + off mod 512 + 511) 512 ltac:(lia)). lia. }
  rewrite !u32_small by lia.
  destruct (readseg_loop_ok disk fuel (Z.to_nat (sectors count off)) m (pa - off mod 512) (pa + count) (off / 512 + 1) fuel)
    as (m' & E & HA' & HM); try done; try lia.
  exists m'. split; [done|]. split; [done|]. intros b. rewrite HM, Z2Nat.id by lia. destruct (decide _); [|done]. f_equal. lia.
Qed.

(** * The segments *)

Definition seg_start (p : list Z) : Z := ph_paddr p - ph_off p mod 512.
Definition seg_read (p : list Z) : Z := 512 * sectors (ph_filesz p) (ph_off p).

(** A segment that the loader can read: it is on the disk, it fits in memory, and
    the sectors it comes with do not reach down to the headers. *)
Record seg_ok (disk : list block) (fuel : nat) (p : list Z) : Prop := SegOk {
  so_start : 0x11000 <= seg_start p;
  so_size : ph_filesz p <= ph_memsz p;
  so_disk : ph_off p / 512 + 1 + sectors (ph_filesz p) (ph_off p) <= Z.of_nat (length disk);
  so_read : seg_start p + seg_read p < 2 ^ 32;
  so_end : ph_paddr p + ph_memsz p <= 2 ^ 32;
  so_fuel : (Z.to_nat (sectors (ph_filesz p) (ph_off p)) < fuel)%nat
}.

(** The segment is in memory. *)
Definition loaded (disk : list block) (m : mem) (p : list Z) : Prop :=
  (forall k, 0 <= k < ph_filesz p -> ld m (ph_paddr p + k) = kbyte disk (ph_off p + k)) /\
  (forall k, ph_filesz p <= k < ph_memsz p -> ld m (ph_paddr p + k) = 0).

(** [q] starts where [p] has ended. *)
Definition before (p q : list Z) : Prop := ph_paddr p + ph_memsz p <= seg_start q.

(** The kernel file from byte [off] on. *)
Definition kbytes (disk : list block) (off n : Z) : list Z := (fun k => kbyte disk (off + k)) <$> seqZ 0 n.

(** The first page of the file is at 0x10000. *)
Definition headers (disk : list block) (m : mem) : Prop := forall k, 0 <= k < 4096 -> ld m (0x10000 + k) = kbyte disk k.

Lemma headers_load disk (mm : mem) off n : headers disk mm -> 0 <= off -> off + n <= 4096 -> load mm (0x10000 + off) n = kbytes disk off n.
Proof.
  intros HH Ho Hn. apply list_eq_same_length with (n := Z.to_nat n); unfold kbytes, load; rewrite ?length_fmap, ?length_seqZ; try done.
  intros j x y Hj. rewrite !list_lookup_fmap, !lookup_seqZ_lt by lia. intros [= <-] [= <-]. rewrite <- HH by lia. f_equal. lia.
Qed.

Lemma load_u8 (mm : mem) a n : Forall is_u8 (load mm a n).
Proof. unfold load. apply Forall_fmap, Forall_true. intros k. apply ld_u8. Qed.

(** One segment is read, and the rest of it cleared. *)
Lemma segment_ok disk m p fuel :
  at_rest disk m -> Forall is_block disk -> (ata_polls <= fuel)%nat -> Forall is_u8 p -> seg_ok disk fuel p ->
  exists m', readseg (ph_paddr p) (ph_filesz p) (ph_off p) fuel m = Ok tt m' /\ at_rest disk m' /\
    (forall b, b < seg_start p -> ld (m_mem m') b = ld (m_mem m) b) /\
    let mm := if ph_filesz p <? ph_memsz p
      then stosb (m_mem m') (u32 (ph_paddr p + ph_filesz p)) 0 (Z.to_nat (ph_memsz p - ph_filesz p)) else m_mem m' in
    loaded disk mm p /\ forall b, b < seg_start p -> ld mm b = ld (m_mem m) b.
Proof.
  intros HA HB Hp Hu [S1 S2 S3 S4 S5 S6]. unfold seg_start, seg_read in *.
  assert (is_u32 (ph_filesz p) /\ is_u32 (ph_off p) /\ is_u32 (ph_memsz p)) as (U1 & U2 & U3) by (split_and!; by apply get32_range).
  unfold is_u32 in *. pose proof (Z.mod_pos_bound (ph_off p) 512 ltac:(lia)).
  destruct (readseg_ok disk m (ph_paddr p) (ph_filesz p) (ph_off p) fuel) as (m' & E & HA' & HM); try done; try lia.
  exists m'. split; [done|]. split; [done|].
  assert (ph_filesz p + ph_off p mod 512 <= 512 * sectors (ph_filesz p) (ph_off p)) as Hs.
  { unfold sectors. pose proof (Z.div_mod (ph_filesz p + ph_off p mod 512 + 511) 512 ltac:(lia)).
    pose proof (Z.mod_pos_bound (ph_filesz p + ph_off p mod 512 + 511) 512 ltac:(lia)). lia. }
  assert (forall b, b < ph_paddr p - ph_off p mod 512 -> ld (m_mem m') b = ld (m_mem m) b) as Hlow.
  { intros b Hb. by rewrite HM, decide_False by lia. }
  assert (forall k, 0 <= k < ph_filesz p -> ld (m_mem m') (ph_paddr p + k) = kbyte disk (ph_off p + k)) as Hin.
  { intros k Hk. rewrite HM, decide_True by lia. f_equal. lia. }
  split; [done|]. cbv zeta. destruct (Z.ltb_spec (ph_filesz p) (ph_memsz p)) as [Hlt|Hge].
  - rewrite u32_small by lia. split; [split|]; intros k Hk; rewrite ld_stosb by lia.
    + rewrite decide_False by lia. by apply Hin.
    + by rewrite decide_True by lia.
    + rewrite decide_False by lia. by apply Hlow.
  - split; [split; [done|intros; lia]|done].
Qed.

(** The program headers at [o] of the file. *)
Fixpoint phdrs (disk : list block) (o : Z) (n : nat) : list (list Z) :=
  match n with
  | O => []
  | S k => kbytes disk o PROGHDR :: phdrs disk (o + PROGHDR) k
  end.

Lemma length_phdrs disk o n : length (phdrs disk o n) = n.
Proof. revert o. induction n as [|n IH]; intros o; simpl; [done|]. by rewrite IH. Qed.

Lemma load_loop_ok disk polls n : forall m o fuel,
  at_rest disk m -> Forall is_block disk -> (ata_polls <= polls)%nat -> (n < fuel)%nat ->
  headers disk (m_mem m) -> 0 <= o -> o + PROGHDR * Z.of_nat n <= 4096 ->
  Forall (seg_ok disk polls) (phdrs disk o n) -> StronglySorted before (phdrs disk o n) ->
  exists m', load_loop (0x10000 + o) (0x10000 + o + PROGHDR * Z.of_nat n) polls fuel m = Ok tt m' /\ at_rest disk m' /\
    headers disk (m_mem m') /\ Forall (loaded disk (m_mem m')) (phdrs disk o n) /\
    forall b, (forall p, p ∈ phdrs disk o n -> b < seg_start p) -> ld (m_mem m') b = ld (m_mem m) b.
Proof.
  induction n as [|n IH]; intros m o [|fl] HA HB Hp Hf HH Ho Hn HS HO; try lia; cbn [load_loop phdrs] in *; unfold PROGHDR in *.
  - destruct (Z.ltb_spec (0x10000 + o) (0x10000 + o + 32 * Z.of_nat 0)); [lia|]. exists m. done.
  - destruct (Z.ltb_spec (0x10000 + o) (0x10000 + o + 32 * Z.of_nat (S n))); [|lia]. cbn [negb]. unfold bind at 1, header at 1, gets at 1.
    rewrite (headers_load disk) by (done || lia). set (p := kbytes disk o 32) in *.
    apply Forall_cons in HS as [HS1 HS2]. apply StronglySorted_inv in HO as [HO1 HO2].
    assert (Forall is_u8 p) as Hu by (unfold p; rewrite <- (headers_load disk (m_mem m)) by (done || lia); apply load_u8).
    destruct (segment_ok disk m p polls HA HB Hp Hu HS1) as (m1 & E1 & HA1 & Hlow & HL & Hkeep). rewrite (bind_ok _ _ _ _ _ E1).
    assert (headers disk (m_mem m1)) as HH1.
    { intros k Hk. rewrite Hlow; [by apply HH|]. pose proof (so_start _ _ _ HS1). lia. }
    unfold bind at 1, header at 1, gets at 1. rewrite (headers_load disk) by (done || lia). fold p.
    set (mm := if ph_filesz p <? ph_memsz p then _ else m_mem m1) in *.
    rewrite (bind_ok _ _ _ tt (set_m_mem mm m1)) by (unfold when, mm; destruct (_ <? _); [done|by destruct m1]).
    rewrite u32_small by lia.
    destruct (IH (set_m_mem mm m1) (o + 32) fl) as (m2 & E2 & HA2 & HH2 & HL2 & HK2); try done; try lia.
    { intros k Hk. cbn [m_mem set_m_mem]. rewrite Hkeep; [by apply HH|]. pose proof (so_start _ _ _ HS1). lia. }
    exists m2. replace (0x10000 + o + 32) with (0x10000 + (o + 32)) by lia.
    replace (0x10000 + o + 32 * Z.of_nat (S n)) with (0x10000 + (o + 32) + 32 * Z.of_nat n) by lia.
    split; [done|]. split; [done|]. split; [done|]. split.
    + constructor; [|done]. pose proof (so_size _ _ _ HS1).
      assert (forall k, k < ph_memsz p -> ld (m_mem m2) (ph_paddr p + k) = ld mm (ph_paddr p + k)) as Hsame.
      { intros k Hk. rewrite HK2; [done|]. intros q Hq. rewrite Forall_forall in HO2. specialize (HO2 q Hq). unfold before in HO2. lia. }
      destruct HL as [L1 L2]. split; intros k Hk; rewrite Hsame by lia; auto.
    + intros b Hb. rewrite HK2; [apply Hkeep, Hb; set_solver|]. intros q Hq. apply Hb. set_solver.
Qed.

(** The first page. *)
Lemma first_page disk m fuel :
  at_rest disk m -> Forall is_block disk -> (9 <= length disk)%nat -> (ata_polls <= fuel)%nat -> (8 < fuel)%nat ->
  exists m', readseg 0x10000 4096 0 fuel m = Ok tt m' /\ at_rest disk m' /\ headers disk (m_mem m').
Proof.
  intros HA HB Hl Hp Hf. destruct (readseg_ok disk m 0x10000 4096 0 fuel) as (m' & E & HA' & HM); try done; try lia.
  - change (sectors 4096 0) with 8. change (0 / 512) with 0. lia.
  - exists m'. split; [done|]. split; [done|]. intros k Hk. change (sectors 4096 0) with 8 in HM. change (0 mod 512) with 0 in HM.
    rewrite HM, decide_True by lia. f_equal. lia.
Qed.

Lemma kbytes_u8 disk (mm : mem) o n : headers disk mm -> 0 <= o -> o + n <= 4096 -> Forall is_u8 (kbytes disk o n).
Proof. intros HH Ho Hn. rewrite <- (headers_load disk mm) by done. apply load_u8. Qed.

(** What is not an ELF file is not started. *)
Lemma bootmain_no_elf disk m fuel :
  at_rest disk m -> Forall is_block disk -> (9 <= length disk)%nat -> (ata_polls <= fuel)%nat -> (8 < fuel)%nat ->
  elf_magic (kbytes disk 0 ELFHDR) <> ELF_MAGIC -> exists m', bootmain fuel m = Ok None m'.
Proof.
  intros HA HB Hl Hp Hf Hm. destruct (first_page disk m fuel HA HB Hl Hp Hf) as (m1 & E1 & HA1 & HH1).
  exists m1. unfold bootmain. rewrite (bind_ok _ _ _ _ _ E1). unfold bind, header, gets, ELFHDR in *.
  rewrite (headers_load disk _ 0) by (done || lia). by rewrite (proj2 (Z.eqb_neq _ _)) by done.
Qed.

(** C38. The boot loader loads the kernel.  The disk holds an ELF file from sector 1 on,
    with its program headers in the first page; its segments are in increasing order,
    above the page that the headers are read to, and they fit on the disk and in
    memory.  Then [bootmain] ends with a jump to the entry point of the file, and in
    memory every segment is at its address, the bytes of the file followed by zeroes,
    although the loader copies whole sectors. *)
Theorem bootmain_loads disk m fuel :
  let h := kbytes disk 0 ELFHDR in
  let phs := phdrs disk (elf_phoff h) (Z.to_nat (elf_phnum h)) in
  at_rest disk m -> Forall is_block disk -> (9 <= length disk)%nat ->
  elf_magic h = ELF_MAGIC -> elf_phoff h + PROGHDR * elf_phnum h <= 4096 ->
  Forall (seg_ok disk fuel) phs -> StronglySorted before phs ->
  (ata_polls <= fuel)%nat -> (8 < fuel)%nat -> (length phs < fuel)%nat ->
  exists m', bootmain fuel m = Ok (Some (elf_entry h)) m' /\ Forall (loaded disk (m_mem m')) phs.
Proof.
  intros h phs HA HB Hl Hmag Hfit HS HO Hp Hf Hfp.
  destruct (first_page disk m fuel HA HB Hl Hp Hf) as (m1 & E1 & HA1 & HH1).
  assert (Forall is_u8 h) as Hu by (by apply (kbytes_u8 disk (m_mem m1))).
  assert (0 <= elf_phoff h) as Hpo by (apply get32_range; done).
  assert (0 <= elf_phnum h) as Hpn by (unfold elf_phnum, get16; apply dec_bound, slice_u8; done).
  unfold phs in Hfp. rewrite length_phdrs in Hfp.
  unfold bootmain. rewrite (bind_ok _ _ _ _ _ E1). unfold bind at 1, header at 1, gets at 1. unfold ELFHDR in *.
  rewrite (headers_load disk _ 0) by (done || lia). fold h. rewrite Hmag, Z.eqb_refl. cbn [negb]. unfold PROGHDR in *.
  rewrite !u32_small by lia.
  destruct (load_loop_ok disk fuel (Z.to_nat (elf_phnum h)) m1 (elf_phoff h) fuel) as (m2 & E2 & HA2 & HH2 & HL & _);
    try done; try lia; [unfold PROGHDR; lia|].
  unfold PROGHDR in E2. rewrite Z2Nat.id in E2 by done. rewrite (bind_ok _ _ _ _ _ E2). exists m2.
  unfold bind, header, gets. rewrite (headers_load disk _ 0) by (done || lia). done.
Qed.
End reading.

(** A kernel of two segments: 600 bytes at 0x100000 with 400 bytes of zeroes behind,
    and 10 bytes at 0x101000 that start inside of a sector. *)
Definition demo_kernel : list Z :=
  enc 4 ELF_MAGIC ++ replicate 20 0 ++ enc 4 0x10000c ++ enc 4 52 ++ replicate 12 0 ++ enc 2 2 ++ replicate 6 0 ++
  (enc 4 1 ++ enc 4 4096 ++ enc 4 0 ++ enc 4 0x100000 ++ enc 4 600 ++ enc 4 1000 ++ enc 4 0 ++ enc 4 0) ++
  (enc 4 1 ++ enc 4 4796 ++ enc 4 0 ++ enc 4 0x101000 ++ enc 4 10 ++ enc 4 10 ++ enc 4 0 ++ enc 4 0) ++
  replicate 3980 0 ++ replicate 600 65 ++ replicate 100 66 ++ replicate 10 67 ++ replicate 314 0.
Definition demo_boot_disk : list block := replicate 512 0 :: ((fun i => slice demo_kernel (512 * i) 512) <$> seqZ 0 10).
Definition demo_boot : mach ata :=
  Mach irqmask0 0 0 false 0 [] 0 0 ∅ Console.demo_console (Ata 0 0 0 0 0 [demo_boot_disk] AIdle).

Lemma bootmain_loads_witness :
  exists m', bootmain 9 demo_boot = Ok (Some 0x10000c) m' /\ Forall (loaded demo_boot_disk (m_mem m')) (phdrs demo_boot_disk 52 2).
Proof.
  apply (bootmain_loads demo_boot_disk demo_boot 9); try (vm_compute; done); try (vm_compute; lia).
  - apply Forall_forall. intros d Hd.
    assert (forallb (fun d => (length d =? 512)%nat && forallb (fun c => (0 <=? c) && (c <? 256)) d) demo_boot_disk = true) as E by by vm_compute.
    rewrite forallb_forall in E. apply list_elem_of_In, E, andb_true_iff in Hd as [Hl%Nat.eqb_eq Hc]. split; [done|].
    rewrite forallb_forall in Hc. apply Forall_forall. intros c Hin%list_elem_of_In%Hc.
    apply andb_true_iff in Hin as [Ha%Z.leb_le Hb%Z.ltb_lt]. done.
  - vm_compute phdrs. repeat constructor; vm_compute; try discriminate; lia.
  - vm_compute phdrs. repeat constructor; vm_compute; discriminate.
Defined.
