(* ===== verification/ExecProps.v ===== *)
(** [exec]: the stack that a new program starts with. *)
From stdpp Require Import base numbers list gmap strings.
From Stdlib Require Import ZArith Lia.
From S2P Require Import Spinlock Prelude Bytes Mem Kalloc Vm VmProps Disk Super Log Fs Syscall Exec.

Open Scope kernel_scope.

(** * The arguments on the stack *)

(** Bytes that the strings take at most, with their ends and the alignment. *)
Definition room (argv : list (list Z)) : Z := foldr (fun s r => Z.of_nat (length s) + 4 + r) 0 argv.

Lemma room_nonneg argv : 0 <= room argv.
Proof. induction argv as [|s l IH]; simpl; lia. Qed.

Lemma land_align x : 0 <= x < 2 ^ 32 -> Z.land x (u32 (Z.lnot 3)) = x - x mod 4.
Proof.
  intros Hx. change (u32 (Z.lnot 3)) with (Z.ldiff (Z.ones 32) (Z.ones 2)).
  rewrite Z.ldiff_land, Z.land_assoc, Z.land_ones, Z.mod_small by lia.
  rewrite <- Z.ldiff_land, Z.ldiff_ones_r, Z.shiftl_mul_pow2, Z.shiftr_div_pow2 by lia.
  change (2 ^ 2) with 4. pose proof (Z.div_mod x 4). lia.
Qed.

(** The address of the next string. *)
Lemma next_sp sp n :
  0 <= n -> n + 4 <= sp < 2 ^ 32 ->
  let sp' := Z.land (u32 (sp - (n + 1))) (u32 (Z.lnot 3)) in
  sp' mod 4 = 0 /\ sp - (n + 4) <= sp' /\ sp' + (n + 1) <= sp.
Proof.
  intros Hn Hsp sp'. unfold sp'. rewrite (u32_small (sp - (n + 1))) by lia. rewrite land_align by lia.
  pose proof (Z.div_mod (sp - (n + 1)) 4 ltac:(lia)) as E. pose proof (Z.mod_pos_bound (sp - (n + 1)) 4 ltac:(lia)).
  split; [|lia]. replace (sp - (n + 1) - (sp - (n + 1)) mod 4) with ((sp - (n + 1)) / 4 * 4) by lia. by apply Z.mod_mul.
Qed.

(** The user reads the bytes [l] at [va]. *)
Definition ureads (m : mem) (pgdir va : Z) (l : list Z) : Prop :=
  forall j : nat, (j < length l)%nat -> uread m pgdir (va + Z.of_nat j) = l !! j.

(** The user reads the same outside of [lo] to [hi]. *)
Definition same_out (m m' : mem) (pgdir lo hi : Z) : Prop :=
  forall x, 0 <= x < 2 ^ 32 -> x < lo \/ hi <= x -> uread m' pgdir x = uread m pgdir x.

Lemma ureads_out m m' pgdir lo hi va l :
  same_out m m' pgdir lo hi -> 0 <= va -> va + Z.of_nat (length l) <= 2 ^ 32 -> va + Z.of_nat (length l) <= lo \/ hi <= va ->
  ureads m pgdir va l -> ureads m' pgdir va l.
Proof. intros Hs H0 H1 Ho Hr j Hj. rewrite Hs by lia. by apply Hr. Qed.

Section stack.
Context (kend : Z) (null : mem -> Z) (Hend : KERNBASE <= kend) (Hnull : forall m, has (null m) PTE_P = false) (pgdir : Z) (l : list Z).

(** A page table and the memory it is in. *)
Definition good (k : kmem) : Prop :=
  kfree_list kend k l /\ pgtree kend (km_mem k) l pgdir /\ uspace kend (km_mem k) l pgdir.

Lemma copyout_good k va buf :
  good k -> 0 <= va -> va + Z.of_nat (length buf) <= 2 ^ 32 -> Forall is_u8 buf ->
  exists r k', copyout null pgdir va buf (S (length buf)) k = Ok r k' /\ good k' /\
    (forall x, 0 <= x < 2 ^ 32 -> upage (km_mem k') pgdir x = upage (km_mem k) pgdir x) /\
    same_out (km_mem k) (km_mem k') pgdir va (va + Z.of_nat (length buf)) /\
    (r = 0 /\ ureads (km_mem k') pgdir va buf \/
     r = -1 /\ exists x, va <= x < va + Z.of_nat (length buf) /\ upage (km_mem k) pgdir x = None).
Proof using Hend Hnull.
  intros (Hk & Hp & Hu) Hva Hmax Hb.
  destruct (copyout_loop_ok kend Hend null pgdir l (S (length buf)) k va buf Hk Hp Hu ltac:(intros; by right) Hva Hmax Hb) as
    (r & k' & E & Hk' & Hp' & Hu' & [C1 C2 C3 C4 _]); [lia|].
  exists r, k'. split; [done|]. split; [done|]. split; [done|]. split; [done|].
  destruct (decide (r = 0)) as [->|Hr]; [left; split; [done|]; exact (C2 eq_refl)|right].
  destruct (C3 Hr) as (-> & i & Hi & Hn). split; [done|]. exists (va + Z.of_nat i). split; [lia|done].
Qed.

(** The string [s] lies at [p], between [lo] and [hi]. *)
Definition string_at (m : mem) (lo hi : Z) (s : list Z) (p : Z) : Prop :=
  lo <= p /\ p + Z.of_nat (length s) + 1 <= hi /\ ureads m pgdir p (s ++ [0]).

Lemma string_at_out m m' lo lo' hi hi' a b s p :
  same_out m m' pgdir a b -> b <= lo -> lo' <= lo -> hi <= hi' -> hi' < 2 ^ 32 -> 0 <= lo ->
  string_at m lo hi s p -> string_at m' lo' hi' s p.
Proof.
  intros Hs Hb Hlo Hhi Hmax H0 (H1 & H2 & H3). split; [lia|]. split; [lia|].
  assert (Z.of_nat (length (s ++ [0])) = Z.of_nat (length s) + 1) as El by (rewrite length_app; simpl; lia).
  eapply (ureads_out m); [exact Hs|lia|lia| |exact H3]. right. lia.
Qed.

Lemma push_strings_ok argv : forall argc sp ustack k,
  good k -> room argv <= sp < 2 ^ 32 -> sp mod 4 = 0 -> (argc + length argv <= MAXARG)%nat -> Forall (Forall is_u8) argv ->
  exists r k', push_strings null pgdir argv argc sp ustack k = Ok r k' /\ good k' /\
    (forall x, 0 <= x < 2 ^ 32 -> upage (km_mem k') pgdir x = upage (km_mem k) pgdir x) /\
    match r with
    | None => exists x, sp - room argv <= x < sp /\ upage (km_mem k) pgdir x = None
    | Some (sp', us) => exists ps, us = ustack ++ ps /\ sp' mod 4 = 0 /\ sp - room argv <= sp' <= sp /\
        Forall2 (string_at (km_mem k') sp' sp) argv ps /\ same_out (km_mem k) (km_mem k') pgdir sp' sp
    end.
Proof using Hend Hnull.
  induction argv as [|s argv IH]; intros argc sp ustack k Hg Hroom Hal Hc Hb; cbn [push_strings].
  { exists (Some (sp, ustack)), k. split; [done|]. split; [done|]. split; [done|]. exists [].
    split; [by rewrite app_nil_r|]. split; [done|]. split; [simpl; lia|]. by split. }
  apply Forall_cons in Hb as [Hs Hb]. cbn [room foldr] in Hroom. fold (room argv) in Hroom. pose proof (room_nonneg argv).
  simpl length in Hc. destruct (Nat.leb_spec MAXARG argc); [lia|].
  destruct (next_sp sp (Z.of_nat (length s))) as (N1 & N2 & N3); [lia|lia|]. cbv zeta.
  set (sp1 := Z.land _ _) in *.
  assert (Z.of_nat (length (s ++ [0])) = Z.of_nat (length s) + 1) as El by (rewrite length_app; simpl; lia).
  destruct (copyout_good k sp1 (s ++ [0])) as (r & k1 & E1 & Hg1 & Hu1 & Ho1 & Hr); [done|lia|lia|
    apply Forall_app; split; [done|repeat constructor; unfold is_u8; lia]|].
  rewrite (bind_ok _ _ _ _ _ E1). cbn [room foldr]. fold (room argv).
  destruct Hr as [[-> Hr]|(-> & x & Hx & Hnx)].
  2:{ exists None, k1. split; [done|]. split; [done|]. split; [done|]. exists x. split; [lia|done]. }
  change (0 <? 0) with false. cbv iota.
  destruct (IH (S argc) sp1 (ustack ++ [sp1]) k1 Hg1) as (r2 & k2 & E2 & Hg2 & Hu2 & H2); [lia|done|lia|done|].
  exists r2, k2. split; [done|]. split; [done|]. split; [intros y Hy; rewrite Hu2 by done; by apply Hu1|].
  destruct r2 as [[sp' us]|].
  - destruct H2 as (ps & -> & A & B & F & O). exists (sp1 :: ps). split; [by rewrite <- app_assoc|]. split; [done|]. split; [lia|]. split.
    + constructor.
      * split; [lia|]. split; [lia|]. eapply ureads_out; [exact O|lia|lia|right; lia|exact Hr].
      * eapply Forall2_impl; [exact F|]. intros t p (P1 & P2 & P3). split; [done|]. split; [lia|done].
    + intros y Hy Hout. rewrite O by lia. apply Ho1; [done|lia].
  - destruct H2 as (y & Hy & Hny). exists y. split; [lia|]. rewrite <- Hu1 by lia. done.
Qed.
End stack.

Lemma length_words w : length (words w) = (4 * length w)%nat.
Proof.
  unfold words. induction w as [|a w IH]; [done|]. rewrite fmap_cons. cbn [concat]. rewrite length_app, length_enc, IH. simpl. lia.
Qed.

Lemma words_u8 w : Forall is_u8 (words w).
Proof. unfold words. induction w as [|a w IH]; [done|]. rewrite fmap_cons. cbn [concat]. apply Forall_app. split; [apply enc_u8|done]. Qed.

(** C34. The stack of a new program.  [push_args], the part of [exec] that builds
    the stack below [sz], returns: if it fails, an address just below [sz] is not
    mapped for the user.  If it gives the stack pointer [sp], the user reads there
    what a C program expects of its caller: a return address, [argc], the address
    of the array [argv] that follows, and in the array, which ends in a null
    pointer, the addresses of the strings; each of the strings lies above it, ends
    in a NUL, and is the argument that was given.  [sp] is aligned, and nothing
    outside of the stack changes for the user.  The word at address 0, which
    [uva2ka] reads for an address without a page table, is no present entry. *)
Theorem exec_stack (kend : Z) (null : mem -> Z) (pgdir sz : Z) (l : list Z) (argv : list (list Z)) (k : kmem) :
  KERNBASE <= kend -> (forall m, has (null m) PTE_P = false) ->
  kfree_list kend k l -> pgtree kend (km_mem k) l pgdir -> uspace kend (km_mem k) l pgdir ->
  sz mod 4 = 0 -> sz < 2 ^ 32 -> (length argv <= MAXARG)%nat -> Forall (Forall is_u8) argv ->
  let argc := Z.of_nat (length argv) in
  room argv + 4 * (argc + 4) <= sz ->
  exists r k', push_args null pgdir sz argv k = Ok r k' /\
    match r with
    | None => exists x, sz - (room argv + 4 * (argc + 4)) <= x < sz /\ upage (km_mem k) pgdir x = None
    | Some sp => exists ps,
        sp mod 4 = 0 /\ sz - (room argv + 4 * (argc + 4)) <= sp /\
        ureads (km_mem k') pgdir sp (words ([0xffffffff; argc; sp + 12] ++ ps ++ [0])) /\
        Forall2 (fun s p => sp + 4 * (argc + 4) <= p /\ p + Z.of_nat (length s) + 1 <= sz /\
                            ureads (km_mem k') pgdir p (s ++ [0])) argv ps /\
        same_out (km_mem k) (km_mem k') pgdir sp sz
    end.
Proof.
  intros Hend Hnull Hk Hp Hu Hal Hsz Hargc Hb argc Hroom. pose proof (room_nonneg argv).
  destruct (push_strings_ok kend null Hend Hnull pgdir l argv 0 sz [] k) as (r & k1 & E1 & Hg1 & Hu1 & H1);
    [done|lia|done|lia|done|]. unfold push_args. rewrite (bind_ok _ _ _ _ _ E1).
  destruct r as [[sp1 us]|].
  2:{ exists None, k1. split; [done|]. destruct H1 as (x & Hx & Hn). exists x. split; [lia|done]. }
  destruct H1 as (ps & -> & A & B & F & O). cbn [app]. fold argc. cbv zeta.
  rewrite (u32_small (sp1 - (argc + 1) * 4)), (u32_small (sp1 - (3 + argc + 1) * 4)) by lia.
  replace (sp1 - (argc + 1) * 4) with (sp1 - (3 + argc + 1) * 4 + 12) by lia. set (sp := sp1 - (3 + argc + 1) * 4).
  set (frame := words _).
  assert (Z.of_nat (length frame) = 4 * (argc + 4)) as Ef.
  { unfold frame. rewrite length_words. simpl length. rewrite length_app. simpl length. apply Forall2_length in F. lia. }
  destruct (copyout_good kend null Hend Hnull pgdir l k1 sp frame) as (r & k2 & E2 & _ & _ & O2 & Hr); [done|lia|lia|apply words_u8|].
  rewrite (bind_ok _ _ _ _ _ E2). destruct Hr as [[-> Hr]|(-> & x & Hx & Hn)].
  - exists (Some sp), k2. split; [done|]. exists ps. split; [|split; [lia|split; [exact Hr|split]]].
    + unfold sp. rewrite Zminus_mod, A, Z.mod_mul by lia. done.
    + eapply Forall2_impl; [exact F|]. intros s p Hs.
      destruct (string_at_out pgdir (km_mem k1) (km_mem k2) sp1 (sp + 4 * (argc + 4)) sz sz sp (sp + Z.of_nat (length frame)) s p) as (S1 & S2 & S3);
        try done; lia.
    + intros x Hx Ho. rewrite O2 by lia. apply O; [done|lia].
  - exists None, k2. split; [done|]. exists x. split; [lia|]. rewrite <- Hu1 by lia. done.
Qed.

(** The argument "hi" in the page of the user at 4 MB. *)
Lemma exec_stack_witness :
  exists k, exists r k', push_args (fun _ => 0) demo_dir (demo_va + 4096) [[104; 105]] k = Ok r k' /\
    match r with
    | None => exists x, demo_va + 4096 - 26 <= x < demo_va + 4096 /\ upage (km_mem k) demo_dir x = None
    | Some sp => sp mod 4 = 0 /\ exists p, ureads (km_mem k') demo_dir sp (words [0xffffffff; 1; sp + 12; p; 0]) /\
        ureads (km_mem k') demo_dir p [104; 105; 0]
    end.
Proof.
  destruct demo_mapped as (k & l & Hk & Hp & Hu & _). exists k.
  destruct (exec_stack KERNBASE (fun _ => 0) demo_dir (demo_va + 4096) l [[104; 105]] k) as (r & k' & E & H).
  - reflexivity.
  - reflexivity.
  - exact Hk.
  - exact Hp.
  - exact Hu.
  - reflexivity.
  - reflexivity.
  - vm_compute. lia.
  - repeat constructor; unfold is_u8; lia.
  - vm_compute. discriminate.
  - exists r, k'. split; [exact E|]. destruct r as [sp|]; [|exact H]. destruct H as (ps & A & _ & R & F & _).
    split; [exact A|]. apply Forall2_cons_inv_l in F as (p & ps' & (_ & _ & Hs) & F & ->). apply Forall2_nil_inv_l in F as ->.
    exists p. split; [exact R|exact Hs].
Defined.
