(* ===== verification/Sysfile.v ===== *)
(** The system calls on files (sysfile.c): descriptors, reading and writing, links,
    creating, opening, directories and pipes.  ([sys_exec] is in Exec.v.) *)
From stdpp Require Import base numbers list gmap strings.
From Stdlib Require Import ZArith Lia.
From S2P Require Import Ulib Mem Prelude Bytes Disk Super Log Pipe Fs File Syscall.

Open Scope kernel_scope.

(** The state of a call: the files, and the user memory of the process with what
    the argument checks need. *)
Record sfs := SFS { sf_files : kfiles; sf_env : uenv }.

Definition set_sf_files (k : kfiles) (s : sfs) : sfs := SFS k (sf_env s).
Definition set_umem (m : mem) (s : sfs) : sfs :=
  SFS (sf_files s) (UEnv m (u_sz (sf_env s)) (u_esp (sf_env s))).

Definition files {A} (m : M kfiles A) : M sfs A := zoom sf_files set_sf_files m.
Definition fsys {A} (m : M fstate A) : M sfs A := files (on_fs m).

(** The bytes of an argument string. *)
Definition arg_path (e : uenv) (n : Z) : option (list Z) :=
  (fun pl => load (u_mem e) pl.1 pl.2) <$> argstr e n.

(** * Descriptors *)

Definition NOFILE : nat := 16.

(** [argfd]: the descriptor and the file. *)
Definition argfd (n : Z) : M sfs (option (Z * nat)) :=
  s <- mget ;;
  match argint (sf_env s) n with
  | None => ret None
  | Some fd =>
      if (fd <? 0) || (Z.of_nat NOFILE <=? fd) then ret None else
      match kf_ofile (sf_files s) !! Z.to_nat fd with
      | Some (Some f) => ret (Some (fd, f))
      | _ => ret None
      end
  end.

Definition set_fd (fd : nat) (f : option nat) : M kfiles unit :=
  modify (fun s => set_kf_ofile (<[fd := f]> (kf_ofile s)) s).

Definition fdalloc (f : nat) : M kfiles Z :=
  r <- mfind NOFILE 0 (fun fd =>
    o <- gets (fun s => kf_ofile s !! Z.to_nat fd) ;;
    match o with
    | Some None => set_fd (Z.to_nat fd) (Some f) ;; ret (Some fd)
    | _ => ret None
    end) ;;
  ret (default (-1) r).

Definition sys_dup : M sfs Z :=
  a <- argfd 0 ;;
  match a with
  | None => ret (-1)
  | Some (_, f) =>
      fd <- files (fdalloc f) ;;
      if fd <? 0 then ret (-1) else
      files (filedup f) ;;
      ret fd
  end.

Definition sys_close : M sfs Z :=
  a <- argfd 0 ;;
  match a with
  | None => ret (-1)
  | Some (fd, f) =>
      files (set_fd (Z.to_nat fd) None) ;;
      files (fileclose f) ;;
      ret 0
  end.

(** The layout of [struct stat] in user memory. *)
Definition store_stat (m : mem) (a : Z) (st : stat) : mem :=
  store (store (store (store (store m a (enc 2 (st_type st)))
    (a + 4) (enc 4 (st_dev st))) (a + 8) (enc 4 (st_ino st))) (a + 12) (enc 2 (st_nlink st)))
    (a + 16) (enc 4 (st_size st)).
Definition STAT_SIZE : Z := 20.

Definition sys_fstat : M sfs Z :=
  a <- argfd 0 ;;
  s <- mget ;;
  match a, argptr (sf_env s) 1 STAT_SIZE with
  | Some (_, f), Some p =>
      r <- files (filestat f) ;;
      match r with
      | None => ret (-1)
      | Some st => modify (fun s => set_umem (store_stat (u_mem (sf_env s)) p st) s) ;; ret 0
      end
  | _, _ => ret (-1)
  end.

Section calls.
Context `{!Devsw}.

Definition sys_read : M sfs Z :=
  a <- argfd 0 ;;
  s <- mget ;;
  match a, argint (sf_env s) 2 with
  | Some (_, f), Some n =>
      match argptr (sf_env s) 1 n with
      | None => ret (-1)
      | Some p =>
          r <- files (fileread f n) ;;
          modify (fun s => set_umem (store (u_mem (sf_env s)) p r.2) s) ;;
          ret r.1
      end
  | _, _ => ret (-1)
  end.

Definition sys_write : M sfs Z :=
  a <- argfd 0 ;;
  s <- mget ;;
  match a, argint (sf_env s) 2 with
  | Some (_, f), Some n =>
      match argptr (sf_env s) 1 n with
      | None => ret (-1)
      | Some p => files (filewrite f (load (u_mem (sf_env s)) p n) n)
      end
  | _, _ => ret (-1)
  end.

(** * Links *)

(** The content of the uninitialised array [name[DIRSIZ]] does not matter. *)
Definition name0 : list Z := replicate DIRSIZ 0.

Definition add_nlink (i : nat) (d : Z) : M sfs unit :=
  fsys (iupd i (fun ip => set_i_nlink (i16 (i_nlink ip + d)) ip) ;; iupdate i).

Definition sys_link_bad (ip : nat) : M sfs Z :=
  fsys (ilock ip) ;;
  add_nlink ip (-1) ;;
  fsys (iunlockput ip) ;;
  files fend_op ;;
  ret (-1).

Definition sys_link : M sfs Z :=
  s <- mget ;;
  match arg_path (sf_env s) 0, arg_path (sf_env s) 1 with
  | Some old, Some new =>
      files fbegin_op ;;
      r <- fsys (namei old) ;;
      match r with
      | None => files fend_op ;; ret (-1)
      | Some ip =>
          fsys (ilock ip) ;;
          t <- fsys (ifield ip i_type) ;;
          if t =? T_DIR then
            fsys (iunlockput ip) ;;
            files fend_op ;;
            ret (-1)
          else
            add_nlink ip 1 ;;
            fsys (iunlock ip) ;;
            r <- fsys (nameiparent new name0) ;;
            match r with
            | (None, _) => sys_link_bad ip
            | (Some dp, name) =>
                fsys (ilock dp) ;;
                dd <- fsys (ifield dp i_dev) ;;
                di <- fsys (ifield ip i_dev) ;;
                inum <- fsys (ifield ip i_inum) ;;
                l <- (if negb (dd =? di) then ret (-1) else fsys (dirlink dp name inum)) ;;
                if l <? 0 then
                  fsys (iunlockput dp) ;;
                  sys_link_bad ip
                else
                  fsys (iunlockput dp) ;;
                  fsys (iput ip) ;;
                  files fend_op ;;
                  ret 0
            end
      end
  | _, _ => ret (-1)
  end.

(** The loop of [isdirempty], from the entry after "." and "..". *)
Fixpoint isdirempty_loop (dp : nat) (off : Z) (fuel : nat) : M fstate bool :=
  match fuel with
  | O => diverge
  | S f =>
      size <- ifield dp i_size ;;
      if negb (off <? size) then ret true else
      r <- readi dp off DIRENT ;;
      if negb (r.1 =? DIRENT) then panic "isdirempty: readi" else
      if negb (de_inum r.2 =? 0) then ret false else isdirempty_loop dp (off + DIRENT) f
  end.

Definition isdirempty (dp : nat) : M fstate bool :=
  size <- ifield dp i_size ;;
  isdirempty_loop dp (2 * DIRENT) (S (Z.to_nat size)).

Definition sys_unlink_bad (dp : nat) : M sfs Z :=
  fsys (iunlockput dp) ;;
  files fend_op ;;
  ret (-1).

Definition sys_unlink : M sfs Z :=
  s <- mget ;;
  match arg_path (sf_env s) 0 with
  | None => ret (-1)
  | Some path =>
      files fbegin_op ;;
      r <- fsys (nameiparent path name0) ;;
      match r with
      | (None, _) => files fend_op ;; ret (-1)
      | (Some dp, name) =>
          fsys (ilock dp) ;;
          if (namecmp name [46] =? 0) || (namecmp name [46; 46] =? 0) then sys_unlink_bad dp else
          r <- fsys (dirlookup dp name) ;;
          match r with
          | None => sys_unlink_bad dp
          | Some (ip, off) =>
              fsys (ilock ip) ;;
              d <- fsys (ifield ip id) ;;
              if i_nlink d <? 1 then panic "unlink: nlink < 1" else
              empty <- (if i_type d =? T_DIR then fsys (isdirempty ip) else ret true) ;;
              if negb empty then
                fsys (iunlockput ip) ;;
                sys_unlink_bad dp
              else
                w <- fsys (writei dp (replicate (Z.to_nat DIRENT) 0) off DIRENT) ;;
                if negb (w =? DIRENT) then panic "unlink: writei" else
                t <- fsys (ifield ip i_type) ;;
                (if t =? T_DIR then add_nlink dp (-1) else ret tt) ;;
                fsys (iunlockput dp) ;;
                add_nlink ip (-1) ;;
                fsys (iunlockput ip) ;;
                files fend_op ;;
                ret 0
          end
      end
  end.

(** * Creating and opening *)

(** [create]: the new or existing inode, locked.  [ialloc] returns what [iget]
    gives it, which is never null. *)
Definition create (path : list Z) (type major minor : Z) : M fstate (option nat) :=
  r <- nameiparent path name0 ;;
  match r with
  | (None, _) => ret None
  | (Some dp, name) =>
      ilock dp ;;
      r <- dirlookup dp name ;;
      match r with
      | Some (ip, _) =>
          iunlockput dp ;;
          ilock ip ;;
          t <- ifield ip i_type ;;
          if (type =? T_FILE) && (t =? T_FILE) then ret (Some ip) else
          iunlockput ip ;;
          ret None
      | None =>
          dev <- ifield dp i_dev ;;
          ip <- ialloc dev type ;;
          ilock ip ;;
          iupd ip (fun x => set_i_nlink 1 (set_i_devno (i16 major) (i16 minor) x)) ;;
          iupdate ip ;;
          inum <- ifield ip i_inum ;;
          pinum <- ifield dp i_inum ;;
          (if type =? T_DIR then
             iupd dp (fun x => set_i_nlink (i16 (i_nlink x + 1)) x) ;;
             iupdate dp ;;
             a <- dirlink ip [46] inum ;;
             if a <? 0 then panic "create dots" else
             b <- dirlink ip [46; 46] pinum ;;
             if b <? 0 then panic "create dots" else ret tt
           else ret tt) ;;
          l <- dirlink dp name inum ;;
          if l <? 0 then panic "create: dirlink" else
          iunlockput dp ;;
          ret (Some ip)
      end
  end.

(** The inode that [sys_open] opens, locked. *)
Definition open_inode (path : list Z) (omode : Z) : M fstate (option nat) :=
  if negb (Z.land omode O_CREATE =? 0) then create path T_FILE 0 0
  else
    r <- namei path ;;
    match r with
    | None => ret None
    | Some ip =>
        ilock ip ;;
        t <- ifield ip i_type ;;
        if (t =? T_DIR) && negb (omode =? O_RDONLY) then iunlockput ip ;; ret None else ret (Some ip)
    end.

Definition set_open (ip : nat) (omode : Z) (f : file) : file :=
  let wr := negb (Z.land omode O_WRONLY =? 0) in
  File FD_INODE (f_ref f) (negb wr) (wr || negb (Z.land omode O_RDWR =? 0)) (f_pipe f) ip 0.

Definition open_fails (ip : nat) : M sfs Z :=
  fsys (iunlockput ip) ;;
  files fend_op ;;
  ret (-1).

Definition sys_open : M sfs Z :=
  s <- mget ;;
  match arg_path (sf_env s) 0, argint (sf_env s) 1 with
  | Some path, Some omode =>
      files fbegin_op ;;
      r <- fsys (open_inode path omode) ;;
      match r with
      | None => files fend_op ;; ret (-1)
      | Some ip =>
          f <- files filealloc ;;
          match f with
          | None => open_fails ip
          | Some f =>
              fd <- files (fdalloc f) ;;
              if fd <? 0 then
                files (fileclose f) ;;
                open_fails ip
              else
                fsys (iunlock ip) ;;
                files fend_op ;;
                files (fupd f (set_open ip omode)) ;;
                ret fd
          end
      end
  | _, _ => ret (-1)
  end.

(** [sys_mkdir] and [sys_mknod] after their arguments. *)
Definition make (path : option (list Z)) (type major minor : Z) : M sfs Z :=
  files fbegin_op ;;
  r <- match path with None => ret None | Some p => fsys (create p type major minor) end ;;
  match r with
  | None => files fend_op ;; ret (-1)
  | Some ip =>
      fsys (iunlockput ip) ;;
      files fend_op ;;
      ret 0
  end.

Definition sys_mkdir : M sfs Z :=
  s <- mget ;;
  make (arg_path (sf_env s) 0) T_DIR 0 0.

Definition sys_mknod : M sfs Z :=
  s <- mget ;;
  match argint (sf_env s) 1, argint (sf_env s) 2 with
  | Some major, Some minor => make (arg_path (sf_env s) 0) T_DEV (i16 major) (i16 minor)
  | _, _ => make None T_DEV 0 0
  end.

Definition sys_chdir : M sfs Z :=
  s <- mget ;;
  files fbegin_op ;;
  r <- match arg_path (sf_env s) 0 with None => ret None | Some p => fsys (namei p) end ;;
  match r with
  | None => files fend_op ;; ret (-1)
  | Some ip =>
      fsys (ilock ip) ;;
      t <- fsys (ifield ip i_type) ;;
      if negb (t =? T_DIR) then
        fsys (iunlockput ip) ;;
        files fend_op ;;
        ret (-1)
      else
        fsys (iunlock ip) ;;
        d <- fsys (gets f_cwd) ;;
        fsys (iput d) ;;
        files fend_op ;;
        fsys (modify (fun x => FState (fl x) (fsb x) (ic_lock x) (icache x) (f_pid x) ip)) ;;
        ret 0
  end.

(** [sys_pipe]: the two descriptors go to user memory. *)
Definition sys_pipe : M sfs Z :=
  s <- mget ;;
  match argptr (sf_env s) 0 8 with
  | None => ret (-1)
  | Some p =>
      r <- files pipealloc ;;
      match r with
      | None => ret (-1)
      | Some (rf, wf) =>
          fd0 <- files (fdalloc rf) ;;
          fd1 <- (if fd0 <? 0 then ret (-1) else files (fdalloc wf)) ;;
          if (fd0 <? 0) || (fd1 <? 0) then
            (if 0 <=? fd0 then files (set_fd (Z.to_nat fd0) None) else ret tt) ;;
            files (fileclose rf) ;;
            files (fileclose wf) ;;
            ret (-1)
          else
            modify (fun s => set_umem (st32 (st32 (u_mem (sf_env s)) p fd0) (p + 4) fd1) s) ;;
            ret 0
      end
  end.
End calls.
