(* ===== verification/FdProps.v ===== *)
(** Open files and descriptors: the reference counts of the file table, the pages of
    the pipes, and the calls of sysfile.c that use them. *)
From stdpp Require Import base numbers list gmap strings.
From Stdlib Require Import ZArith Lia.
From S2P Require Import Ulib Mem Prelude Bytes Disk BlockLayer Super Log Ring Pipe Fs FsEnds File Syscall Sysfile.

Open Scope kernel_scope.

(** * The invariant *)

Definition cnt (f : nat) (l : list nat) : Z := Z.of_nat (count_occ Nat.eq_dec l f).

(** The files that the descriptors of the process stand for. *)
Definition open_files (s : kfiles) : list nat := omap id (kf_ofile s).

Definition pipe_at (p : nat) (s : kfiles) : pipe := nth p (kf_pipes s) pipe0.
Definition pipe_end (f : file) (p : pipe) : bool := if f_writable f then pp_writeopen p else pp_readopen p.

(** [held] are the references that are not descriptors of the running process: those
    of the other processes, and those that the running call has in its hands.
    The count of a file is the number of its references; a file without
    references is of no type; a file that is an end of a pipe has a page that is
    not free, on which that end is open, and is the only file for it. *)
Record finv (held : list nat) (s : kfiles) : Prop := Finv {
  fi_len : length (kf_table s) = NFILE;
  fi_fds : length (kf_ofile s) = NOFILE;
  fi_lock : kf_lock s = false;
  fi_in : forall f, f ∈ held ++ open_files s -> (f < NFILE)%nat;
  fi_ref : forall f, (f < NFILE)%nat -> f_ref (file_at f s) = cnt f (held ++ open_files s);
  fi_none : forall f, f_ref (file_at f s) = 0 -> f_type (file_at f s) = FD_NONE;
  fi_free : NoDup (kf_free s) /\ Forall (fun p => (p < length (kf_pipes s))%nat) (kf_free s);
  fi_plock : forall p, pp_lock (pipe_at p s) = false;
  fi_pipe : forall f, f_type (file_at f s) = FD_PIPE ->
    (f_pipe (file_at f s) < length (kf_pipes s))%nat /\ f_pipe (file_at f s) ∉ kf_free s /\
    pipe_end (file_at f s) (pipe_at (f_pipe (file_at f s)) s) = true;
  fi_ends : forall f g, f_type (file_at f s) = FD_PIPE -> f_type (file_at g s) = FD_PIPE ->
    f_pipe (file_at f s) = f_pipe (file_at g s) -> f_writable (file_at f s) = f_writable (file_at g s) -> f = g
}.

(** Every descriptor is of a pipe or of an inode. *)
Definition typed (s : kfiles) : Prop :=
  forall f, f ∈ open_files s -> f_type (file_at f s) <> FD_NONE.

(** * Counting *)

Lemma cnt_app f l k : cnt f (l ++ k) = cnt f l + cnt f k.
Proof. unfold cnt. rewrite count_occ_app. lia. Qed.

Lemma cnt_cons f g l : cnt f (g :: l) = (if decide (f = g) then 1 else 0) + cnt f l.
Proof. unfold cnt. simpl. destruct (Nat.eq_dec g f), (decide (f = g)); subst; try done; lia. Qed.

Lemma cnt_nil f : cnt f [] = 0.
Proof. done. Qed.

Lemma cnt_nonneg f l : 0 <= cnt f l.
Proof. unfold cnt. lia. Qed.

Lemma cnt_pos f l : f ∈ l <-> 0 < cnt f l.
Proof. unfold cnt. rewrite list_elem_of_In, (count_occ_In Nat.eq_dec). lia. Qed.

Lemma open_split s fd o :
  kf_ofile s !! fd = Some o ->
  exists l1 l2, open_files s = l1 ++ omap id [o] ++ l2 /\
    forall o', open_files (set_kf_ofile (<[fd := o']> (kf_ofile s)) s) = l1 ++ omap id [o'] ++ l2.
Proof.
  intros H. exists (omap id (take fd (kf_ofile s))), (omap id (drop (S fd) (kf_ofile s))). unfold open_files. split.
  - rewrite <- (take_drop_middle _ _ _ H) at 1. rewrite omap_app. by destruct o.
  - intros o'. cbn [kf_ofile set_kf_ofile]. rewrite insert_take_drop by (by apply lookup_lt_Some in H).
    rewrite omap_app. by destruct o'.
Qed.

Lemma cnt_fd s fd o o' f :
  kf_ofile s !! fd = Some o ->
  cnt f (open_files (set_kf_ofile (<[fd := o']> (kf_ofile s)) s)) =
  cnt f (open_files s) - cnt f (omap id [o]) + cnt f (omap id [o']).
Proof. intros (l1 & l2 & -> & ->)%open_split. rewrite !cnt_app. lia. Qed.

(** * Updates of the table *)

Definition with_file (f : nat) (g : file -> file) (s : kfiles) : kfiles := set_kf_table (alter g f (kf_table s)) s.

Lemma file_at_with f g s f' :
  (f < length (kf_table s))%nat ->
  file_at f' (with_file f g s) = if decide (f' = f) then g (file_at f s) else file_at f' s.
Proof.
  intros Hf. unfold file_at, with_file. cbn [kf_table set_kf_table]. rewrite !nth_lookup. case_decide as E.
  - subst. rewrite list_lookup_alter_eq. by destruct (lookup_lt_is_Some_2 _ _ Hf) as [x ->].
  - by rewrite list_lookup_alter_ne by done.
Qed.

(** The new entry [g (file_at f s)] when the references become [held']. *)
Lemma finv_with held held' f g s :
  finv held s -> (f < NFILE)%nat ->
  (forall f', cnt f' held' = cnt f' held + if decide (f' = f) then f_ref (g (file_at f s)) - f_ref (file_at f s) else 0) ->
  (f_ref (g (file_at f s)) = 0 -> f_type (g (file_at f s)) = FD_NONE) ->
  (f_type (g (file_at f s)) = FD_PIPE ->
     f_pipe (g (file_at f s)) < length (kf_pipes s) /\ f_pipe (g (file_at f s)) ∉ kf_free s /\
     pipe_end (g (file_at f s)) (pipe_at (f_pipe (g (file_at f s))) s) = true /\
     forall f', f' <> f -> f_type (file_at f' s) = FD_PIPE -> f_pipe (file_at f' s) = f_pipe (g (file_at f s)) ->
       f_writable (file_at f' s) <> f_writable (g (file_at f s)))%nat ->
  finv held' (with_file f g s).
Proof.
  intros [L F K I R N P PL PI PE] Hf Hc Hn Hp.
  assert (Hat : forall f', file_at f' (with_file f g s) = if decide (f' = f) then g (file_at f s) else file_at f' s)
    by (intros f'; apply file_at_with; lia).
  split; try done.
  - unfold with_file. cbn [kf_table set_kf_table]. by rewrite length_alter.
  - intros f' H. destruct (decide (f' = f)) as [->|Hne]; [done|]. apply I, cnt_pos. apply cnt_pos in H.
    rewrite cnt_app in *. specialize (Hc f'). rewrite decide_False in Hc by done. change (open_files (with_file f g s)) with (open_files s) in H. lia.
  - intros f' H. rewrite Hat. change (open_files (with_file f g s)) with (open_files s).
    specialize (R f' H). rewrite cnt_app in *. specialize (Hc f'). case_decide; subst; lia.
  - intros f'. rewrite Hat. case_decide; auto.
  - intros f'. rewrite Hat. case_decide; [|apply PI]. intros Ht. destruct (Hp Ht) as (? & ? & ? & _). auto.
  - intros f1 f2. rewrite !Hat. repeat case_decide; subst; try done; try (by apply PE).
    + intros E1 E2 E3 E4. destruct (Hp E1) as (_ & _ & _ & E5). by destruct (E5 f2).
    + intros E1 E2 E3 E4. destruct (Hp E2) as (_ & _ & _ & E5). by destruct (E5 f1).
Qed.

(** * The operations on the table and on the descriptors *)

Lemma relock s : kf_lock s = false -> set_kf_lock false (set_kf_lock true s) = s.
Proof. destruct s; simpl; by intros ->. Qed.

(** The index that [filealloc] finds. *)
Definition free_file (s : kfiles) : option nat := fst <$> list_find (fun x => f_ref x = 0) (kf_table s).

Lemma file_at_lookup f x s : kf_table s !! f = Some x -> file_at f s = x.
Proof. intros H. unfold file_at. by rewrite nth_lookup, H. Qed.

Lemma filealloc_eq s :
  kf_lock s = false -> length (kf_table s) = NFILE ->
  filealloc s = match free_file s with
                | Some f => Ok (Some f) (with_file f (set_f_ref 1) s)
                | None => Ok None s
                end.
Proof.
  intros HK HL. unfold filealloc. unfold bind at 1, acquire_ft, acquire. rewrite HK. unfold free_file.
  set (s1 := set_kf_lock true s). destruct (list_find _ _) as [[f x]|] eqn:E; cbn [fmap option_fmap option_map fst].
  - apply list_find_Some in E as (Hx & Hr & Hj). pose proof (lookup_lt_Some _ _ _ Hx).
    rewrite (bind_ok _ _ _ (Some f) (with_file f (set_f_ref 1) s)); [done|].
    eapply (mfind_some _ _ (Z.of_nat f)); [lia| | |done].
    + intros j Hjf. unfold bind, ffield, gets.
      destruct (lookup_lt_is_Some_2 (kf_table s) (Z.to_nat j)) as [y Hy]; [lia|].
      rewrite (file_at_lookup _ y) by done. destruct (Z.eqb_spec (f_ref y) 0); [|done]. by destruct (Hj _ _ Hy); [lia|].
    + unfold bind, ffield, gets. rewrite (file_at_lookup _ x) by (by rewrite Nat2Z.id). rewrite Hr, Nat2Z.id. cbn [Z.eqb].
      unfold fupd, modify, release_ft, release. cbn. destruct s; simpl in *; by subst.
  - apply list_find_None in E. rewrite (bind_ok _ _ _ None s1); [by destruct s; simpl in *; subst|].
    apply mfind_none. intros j Hj. unfold bind, ffield, gets.
    destruct (lookup_lt_is_Some_2 (kf_table s) (Z.to_nat j)) as [y Hy]; [lia|].
    rewrite (file_at_lookup _ y) by done. rewrite Forall_lookup in E. apply E in Hy.
    by destruct (Z.eqb_spec (f_ref y) 0).
Qed.

Lemma free_file_spec s f : free_file s = Some f -> f_ref (file_at f s) = 0 /\ (f < length (kf_table s))%nat.
Proof.
  unfold free_file. intros ([f' x] & E & [= <-])%fmap_Some. apply list_find_Some in E as (Hx & Hr & _).
  rewrite (file_at_lookup _ x) by done. split; [done|]. by apply lookup_lt_Some in Hx.
Qed.

(** The lowest free descriptor. *)
Definition free_fd (s : kfiles) : option nat := fst <$> list_find (fun o => o = None) (kf_ofile s).

Definition with_fd (fd : nat) (o : option nat) (s : kfiles) : kfiles := set_kf_ofile (<[fd := o]> (kf_ofile s)) s.

Lemma fdalloc_eq f s :
  length (kf_ofile s) = NOFILE ->
  fdalloc f s = match free_fd s with
                | Some fd => Ok (Z.of_nat fd) (with_fd fd (Some f) s)
                | None => Ok (-1) s
                end.
Proof.
  intros HL. unfold fdalloc, free_fd.
  destruct (list_find _ _) as [[fd x]|] eqn:E; cbn [fmap option_fmap option_map fst].
  - apply list_find_Some in E as (Hx & -> & Hj). pose proof (lookup_lt_Some _ _ _ Hx).
    rewrite (bind_ok _ _ _ (Some (Z.of_nat fd)) (with_fd fd (Some f) s)); [done|].
    eapply (mfind_some _ _ (Z.of_nat fd)); [lia| | |done].
    + intros j Hjf. unfold bind, gets. destruct (lookup_lt_is_Some_2 (kf_ofile s) (Z.to_nat j)) as [[y|] Hy]; [lia|..];
        rewrite Hy; [done|]. by destruct (Hj _ _ Hy); [lia|].
    + unfold bind, gets. by rewrite Nat2Z.id, Hx.
  - apply list_find_None in E. rewrite (bind_ok _ _ _ None s); [done|].
    apply mfind_none. intros j Hj. unfold bind, gets.
    destruct (lookup_lt_is_Some_2 (kf_ofile s) (Z.to_nat j)) as [y Hy]; [lia|].
    rewrite Hy. rewrite Forall_lookup in E. apply E in Hy. by destruct y.
Qed.

Lemma free_fd_spec s fd : free_fd s = Some fd -> kf_ofile s !! fd = Some None.
Proof. unfold free_fd. intros ([f' x] & E & [= <-])%fmap_Some. by apply list_find_Some in E as (? & -> & _). Qed.

Lemma filedup_eq f s :
  kf_lock s = false -> 1 <= f_ref (file_at f s) ->
  filedup f s = Ok f (with_file f (set_f_ref (f_ref (file_at f s) + 1)) s).
Proof.
  intros HK Hr. unfold filedup, bind, acquire_ft, acquire, ffield, gets. rewrite HK.
  change (file_at f (set_kf_lock true s)) with (file_at f s). destruct (Z.ltb_spec (f_ref (file_at f s)) 1); [lia|].
  destruct s; simpl in *; by subst.
Qed.

(** * The invariant under each operation *)

Lemma finv_fs held x s : finv held s -> finv held (set_kf_fs x s).
Proof. by intros [????????? ?]; split. Qed.

Lemma finv_held held held' s : finv held s -> (forall f, cnt f held' = cnt f held) -> finv held' s.
Proof.
  intros [L F K I R N P PL PI PE] Hc. split; try done.
  - intros f Hf. apply I. apply cnt_pos. apply cnt_pos in Hf. rewrite cnt_app in *. by rewrite <- Hc.
  - intros f Hf. rewrite R by done. by rewrite !cnt_app, Hc.
Qed.

Lemma finv_held_cons held f s : finv (f :: held) s -> (f < NFILE)%nat /\ 1 <= f_ref (file_at f s).
Proof.
  intros H. assert (f < NFILE)%nat as Hf by (apply (fi_in _ _ H); set_solver). split; [done|].
  rewrite (fi_ref _ _ H) by done. rewrite cnt_app, cnt_cons, decide_True by done.
  pose proof (cnt_nonneg f held). pose proof (cnt_nonneg f (open_files s)). lia.
Qed.

Lemma finv_open held f s : finv held s -> f ∈ open_files s -> (f < NFILE)%nat /\ 1 <= f_ref (file_at f s).
Proof.
  intros H Ho. assert (f < NFILE)%nat as Hf by (apply (fi_in _ _ H); set_solver). split; [done|].
  rewrite (fi_ref _ _ H) by done. rewrite cnt_app. pose proof (cnt_nonneg f held). apply cnt_pos in Ho. lia.
Qed.

Lemma finv_alloc held f s :
  finv held s -> free_file s = Some f ->
  finv (f :: held) (with_file f (set_f_ref 1) s) /\ f ∉ held ++ open_files s /\ f_type (file_at f s) = FD_NONE.
Proof.
  intros H [Hr Hl]%free_file_spec. rewrite (fi_len _ _ H) in Hl. pose proof (fi_none _ _ H f Hr) as Hn.
  split; [|split; [|done]].
  - apply (finv_with held); [done..| | |].
    + intros f'. rewrite cnt_cons. cbn [f_ref set_f_ref]. rewrite Hr. case_decide; lia.
    + done.
    + cbn [f_type set_f_ref]. by rewrite Hn.
  - rewrite cnt_pos, <- (fi_ref _ _ H) by done. lia.
Qed.

(** A descriptor changes, and the references elsewhere with it. *)
Lemma finv_fd held held' fd o o' s :
  finv held s -> kf_ofile s !! fd = Some o ->
  (forall f, cnt f held' + cnt f (omap id [o']) = cnt f held + cnt f (omap id [o])) ->
  finv held' (with_fd fd o' s).
Proof.
  intros [L F K I R N P PL PI PE] Ho Hc.
  assert (Hcnt : forall f, cnt f (held' ++ open_files (with_fd fd o' s)) = cnt f (held ++ open_files s)).
  { intros f. rewrite !cnt_app. unfold with_fd. rewrite (cnt_fd _ _ o) by done. specialize (Hc f). lia. }
  split; try done.
  - unfold with_fd. cbn. by rewrite length_insert.
  - intros f Hf. apply I, cnt_pos. rewrite <- Hcnt. by apply cnt_pos.
  - intros f Hf. rewrite Hcnt. by apply R.
Qed.

Lemma finv_dup held f s :
  finv held s -> (f < NFILE)%nat -> 1 <= f_ref (file_at f s) ->
  finv (f :: held) (with_file f (set_f_ref (f_ref (file_at f s) + 1)) s).
Proof.
  intros H Hf Hr. apply (finv_with held); [done..| | |]; cbn [f_ref f_type set_f_ref].
  - intros f'. rewrite cnt_cons. case_decide; lia.
  - lia.
  - intros Ht. destruct (fi_pipe _ _ H f Ht) as (? & ? & ?). repeat split; [done..|].
    intros f' Hne Ht' Hp Hw. by destruct Hne; apply (fi_ends _ _ H).
Qed.

Lemma finv_drop held f s :
  finv (f :: held) s -> 1 < f_ref (file_at f s) ->
  finv held (with_file f (set_f_ref (f_ref (file_at f s) - 1)) s).
Proof.
  intros H Hr. destruct (finv_held_cons _ _ _ H) as [Hf _].
  apply (finv_with (f :: held)); [done..| | |]; cbn [f_ref f_type set_f_ref].
  - intros f'. rewrite cnt_cons. case_decide; lia.
  - lia.
  - intros Ht. destruct (fi_pipe _ _ H f Ht) as (? & ? & ?). repeat split; [done..|].
    intros f' Hne Ht' Hp Hw. by destruct Hne; apply (fi_ends _ _ H).
Qed.

Definition closed (x : file) : file := set_f_type FD_NONE (set_f_ref 0 x).

Lemma finv_last held f s :
  finv (f :: held) s -> f_ref (file_at f s) = 1 -> finv held (with_file f closed s).
Proof.
  intros H Hr. destruct (finv_held_cons _ _ _ H) as [Hf _].
  apply (finv_with (f :: held)); [done..| | |]; cbn [f_ref f_type set_f_ref set_f_type closed]; try done.
  intros f'. rewrite cnt_cons, Hr. case_decide; lia.
Qed.

(** A pipe changes; its ends that are files stay open. *)
Lemma finv_pipe held k p s :
  finv held s -> pp_lock p = false ->
  (forall f, f_type (file_at f s) = FD_PIPE -> f_pipe (file_at f s) = k -> pipe_end (file_at f s) p = true) ->
  finv held (set_kf_pipes (<[k := p]> (kf_pipes s)) s).
Proof.
  intros [L F K I R N P PL PI PE] Hl He.
  assert (Hat : forall j, pipe_at j (set_kf_pipes (<[k := p]> (kf_pipes s)) s) = p /\ j = k \/
                          pipe_at j (set_kf_pipes (<[k := p]> (kf_pipes s)) s) = pipe_at j s).
  { intros j. unfold pipe_at. cbn [kf_pipes set_kf_pipes]. rewrite !nth_lookup. destruct (decide (k = j)) as [->|Hne].
    - destruct (decide (j < length (kf_pipes s)))%nat; [left; by rewrite list_lookup_insert_eq|right].
      by rewrite list_insert_ge by lia.
    - right. by rewrite list_lookup_insert_ne. }
  split; try done.
  - cbn. rewrite length_insert. done.
  - intros j. by destruct (Hat j) as [[-> _]| ->].
  - intros f Ht. change (file_at f (set_kf_pipes _ _)) with (file_at f s) in *. destruct (PI f Ht) as (? & ? & ?).
    split; [cbn [kf_pipes set_kf_pipes]; by rewrite length_insert|]. split; [done|].
    destruct (Hat (f_pipe (file_at f s))) as [[-> E]| ->]; auto.
Qed.

Lemma finv_pkfree held k s :
  finv held s -> k ∉ kf_free s -> (k < length (kf_pipes s))%nat ->
  (forall f, f_type (file_at f s) = FD_PIPE -> f_pipe (file_at f s) <> k) ->
  finv held (set_kf_free (k :: kf_free s) s).
Proof.
  intros [L F K I R N P PL PI PE] Hk Hl Hf. split; try done.
  - cbn. destruct P. split; [by constructor|]. by constructor.
  - intros f Ht. destruct (PI f Ht) as (? & ? & ?). repeat split; [done| |done]. cbn.
    rewrite not_elem_of_cons. split; [by apply Hf|done].
Qed.

(** ** Closing *)

Lemma fileclose_shared f s :
  kf_lock s = false -> 1 < f_ref (file_at f s) ->
  fileclose f s = Ok tt (with_file f (set_f_ref (f_ref (file_at f s) - 1)) s).
Proof.
  intros HK Hr. unfold fileclose, bind, acquire_ft, acquire, ffield, gets. rewrite HK.
  change (file_at f (set_kf_lock true s)) with (file_at f s). destruct (Z.ltb_spec (f_ref (file_at f s)) 1); [lia|].
  cbn [fupd modify]. destruct (Z.ltb_spec 0 (f_ref (file_at f s) - 1)); [|lia]. destruct s; simpl in *; by subst.
Qed.

(** What [fileclose] does with the file [ff] that it has taken out of the table. *)
Definition drop_file (ff : file) : M kfiles unit :=
  if decide (f_type ff = FD_PIPE) then
    gone <- on_pipe (f_pipe ff) (pipeclose (f_writable ff)) ;;
    when gone (pkfree (f_pipe ff))
  else if decide (f_type ff = FD_INODE) then
    fbegin_op ;;
    on_fs (iput (f_ip ff)) ;;
    fend_op
  else ret tt.

Lemma fileclose_last f s :
  kf_lock s = false -> f_ref (file_at f s) = 1 -> (f < length (kf_table s))%nat ->
  fileclose f s = drop_file (file_at f s) (with_file f closed s).
Proof.
  intros HK Hr Hl. unfold fileclose. unfold bind at 1, acquire_ft, acquire. rewrite HK.
  unfold bind at 1, ffield at 1, gets. change (file_at f (set_kf_lock true s)) with (file_at f s). rewrite Hr.
  change (1 <? 1) with false. change (1 - 1) with 0. change (0 <? 0) with false. cbn beta iota.
  change (fupd f (set_f_ref 0)) with (modify (with_file f (set_f_ref 0))).
  change (fupd f (set_f_type FD_NONE)) with (modify (with_file f (set_f_type FD_NONE))).
  unfold bind at 1, modify at 1, bind at 1, ffield, gets.
  assert (file_at f (with_file f (set_f_ref 0) (set_kf_lock true s)) = set_f_ref 0 (file_at f s)) as ->
    by (rewrite file_at_with by done; by rewrite decide_True).
  unfold bind at 1, modify at 1, bind at 1, modify at 1, bind at 1, release_ft, release.
  cbn [kf_lock set_kf_table set_kf_lock with_file].
  match goal with |- _ ?x = _ => assert (x = with_file f closed s) as -> end; [|done].
  unfold with_file. destruct s; simpl in *; subst. f_equal. rewrite !list_alter_alter_eq. done.
Qed.

Lemma pipeclose_eq w p :
  pp_lock p = false ->
  exists p', pipeclose w p = Ok (negb (pp_readopen p') && negb (pp_writeopen p')) p' /\ pp_lock p' = false /\
    pp_readopen p' = (if w then pp_readopen p else false) /\ pp_writeopen p' = if w then false else pp_writeopen p.
Proof.
  destruct p as [lk d r n ro wo wk]. simpl. intros ->. unfold pipeclose, bind, acquire_pipe, acquire, release_pipe, release.
  exists (Pipe false d r n (if w then ro else false) (if w then false else wo) (wk ++ [if w then CPipeRead else CPipeWrite])).
  by destruct w, ro, wo.
Qed.

Lemma drop_pipe_inv held f s :
  finv (f :: held) s -> f_ref (file_at f s) = 1 -> f_type (file_at f s) = FD_PIPE ->
  wp (drop_file (file_at f s)) (fun _ s' => finv held s' /\ kf_ofile s' = kf_ofile s /\ kf_table s' = kf_table (with_file f closed s))
    (with_file f closed s).
Proof.
  intros H Hr Ht. pose proof (finv_last _ _ _ H Hr) as H1. destruct (fi_pipe _ _ H f Ht) as (Hk & Hfree & Hend).
  destruct (finv_held_cons _ _ _ H) as [Hf _]. rewrite <- (fi_len _ _ H) in Hf.
  pose proof (fun f' => file_at_with f closed s f' Hf) as Hat.
  unfold drop_file. rewrite decide_True by done. set (k := f_pipe (file_at f s)) in *.
  destruct (pipeclose_eq (f_writable (file_at f s)) (pipe_at k s)) as (p' & E & El & Er & Ew); [apply (fi_plock _ _ H)|].
  apply wp_bind. exists (negb (pp_readopen p') && negb (pp_writeopen p')), (set_kf_pipes (<[k := p']> (kf_pipes (with_file f closed s))) (with_file f closed s)).
  split; [unfold on_pipe, zoom; change (nth k (kf_pipes (with_file f closed s)) pipe0) with (pipe_at k s); by rewrite E|].
  assert (Hother : forall f', f_type (file_at f' (with_file f closed s)) = FD_PIPE -> f_pipe (file_at f' (with_file f closed s)) = k ->
    f_writable (file_at f' (with_file f closed s)) = negb (f_writable (file_at f s)) /\
    pipe_end (file_at f' (with_file f closed s)) p' = true).
  { intros f'. rewrite Hat. case_decide as Hff; [done|]. intros Ht' Hk'.
    assert (f_writable (file_at f' s) <> f_writable (file_at f s)) as Hw.
    { intros Hw. apply Hff. by apply (fi_ends _ _ H). }
    destruct (fi_pipe _ _ H f' Ht') as (_ & _ & He'). rewrite Hk' in He'. unfold pipe_end in *.
    destruct (f_writable (file_at f' s)) in *, (f_writable (file_at f s)) in *; simpl in *; try done; (split; [done|congruence]). }
  assert (H2 : finv held (set_kf_pipes (<[k := p']> (kf_pipes (with_file f closed s))) (with_file f closed s))).
  { apply finv_pipe; [done|done|]. intros f' Ht' Hk'. by apply Hother. }
  apply wp_when; [|done]. intros Hg. apply wp_modify. split; [|done]. apply finv_pkfree; [done|done| |].
  - cbn [kf_pipes set_kf_pipes]. by rewrite length_insert.
  - intros f' Ht' Hk'. destruct (Hother f' Ht' Hk') as [Hw He]. unfold pipe_end in He.
    destruct (f_writable _) in He; rewrite He in Hg; simpl in Hg; [by rewrite andb_false_r in Hg|done].
Qed.

(** The descriptors and the types of their files are the same. *)
Definition same_fds (s s' : kfiles) : Prop :=
  kf_ofile s' = kf_ofile s /\ forall g, g ∈ open_files s -> f_type (file_at g s') = f_type (file_at g s).

#[export] Instance same_fds_preorder : PreOrder same_fds.
Proof.
  split; [by split|]. intros s1 s2 s3 [E1 H1] [E2 H2]. split; [congruence|]. intros g Hg.
  rewrite H2; [by apply H1|]. unfold open_files. by rewrite E1.
Qed.

Lemma same_fds_typed s s' : same_fds s s' -> typed s -> typed s'.
Proof. intros [E H] Ht g Hg. unfold open_files in Hg. rewrite E in Hg. rewrite H by done. by apply Ht. Qed.

Lemma same_fds_with f g s :
  (f < length (kf_table s))%nat -> f ∉ open_files s \/ f_type (g (file_at f s)) = f_type (file_at f s) ->
  same_fds s (with_file f g s).
Proof.
  intros Hf H. split; [done|]. intros f' Hf'. rewrite file_at_with by done. case_decide; [subst|done]. by destruct H.
Qed.

Lemma last_not_open held f s : finv (f :: held) s -> f_ref (file_at f s) = 1 -> f ∉ open_files s.
Proof.
  intros H Hr. destruct (finv_held_cons _ _ _ H) as [Hf _]. rewrite (fi_ref _ _ H) in Hr by done.
  rewrite cnt_app, cnt_cons, decide_True in Hr by done. rewrite cnt_pos. pose proof (cnt_nonneg f held). lia.
Qed.

(** A close that does not reach the file system returns. *)
Lemma wp_fileclose held f s :
  finv (f :: held) s -> 1 < f_ref (file_at f s) \/ f_type (file_at f s) <> FD_INODE ->
  wp (fileclose f) (fun _ s' => finv held s' /\ same_fds s s' /\ forall g, g <> f -> file_at g s' = file_at g s) s.
Proof.
  intros H Hc. destruct (finv_held_cons _ _ _ H) as [Hf Hr]. pose proof (fi_len _ _ H) as HL.
  destruct (decide (f_ref (file_at f s) = 1)) as [E|E].
  - unfold wp. rewrite fileclose_last by (try apply (fi_lock _ _ H); lia).
    pose proof (last_not_open _ _ _ H E) as Hno.
    assert (same_fds s (with_file f closed s)) as Hs by (apply same_fds_with; [lia|by left]).
    assert (forall g, g <> f -> file_at g (with_file f closed s) = file_at g s) as Hg'.
    { intros g Hg. rewrite file_at_with by lia. by rewrite decide_False. }
    destruct (decide (f_type (file_at f s) = FD_PIPE)) as [Ht|Ht].
    + destruct (drop_pipe_inv _ _ _ H E Ht) as (a & s' & E1 & H1 & Eo & Et). exists a, s'. split; [done|]. split; [done|].
      assert (forall g, file_at g s' = file_at g (with_file f closed s)) as Hat by (intros g; unfold file_at; by rewrite Et).
      destruct Hs as [_ Hs]. split; [split; [done|]|]; intros g Hg; rewrite Hat; auto.
    + unfold drop_file. rewrite !decide_False by (try done; lia || (destruct Hc; [lia|done])).
      exists tt, (with_file f closed s). split; [done|]. split; [by apply finv_last|]. by split.
  - exists tt, (with_file f (set_f_ref (f_ref (file_at f s) - 1)) s).
    split; [apply fileclose_shared; [apply (fi_lock _ _ H)|lia]|].
    split; [apply finv_drop; [done|lia]|]. split; [apply same_fds_with; [lia|by right]|].
    intros g Hg. rewrite file_at_with by lia. by rewrite decide_False.
Qed.

Lemma on_fs_stops {A} (Q : A -> kfiles -> Prop) W (m : M fstate A) s :
  leaves anyhow m -> (forall a x, Q a (set_kf_fs x s)) -> (forall x, W (set_kf_fs x s)) -> stops Q W (on_fs m) s.
Proof. intros Hm HQ HW. apply stops_zoom. eapply stops_mono; [apply Hm|..]; simpl; auto. Qed.

(** Code of the file system leaves the rest of the state alone. *)
Definition only_fs (s s' : kfiles) : Prop := exists x, s' = set_kf_fs x s.

#[export] Instance only_fs_preorder : PreOrder only_fs.
Proof.
  split; [intros []; by eexists|]. intros s1 s2 s3 [x ->] [y ->]. by exists y.
Qed.

Lemma on_fs_only {A} (m : M fstate A) : leaves anyhow m -> leaves only_fs (on_fs m).
Proof. intros H s. apply on_fs_stops; [done|..]; intros; by eexists. Qed.
Lemma lift_ends {A} (m : M lstate A) : leaves anyhow m -> leaves anyhow (lift m).
Proof. intros H. by apply anyhow_kind, lift_kind. Qed.
Lemma fbegin_op_only : leaves only_fs fbegin_op.
Proof. apply on_fs_only, lift_ends, begin_op_ends. Qed.
Lemma fend_op_only : leaves only_fs fend_op.
Proof. apply on_fs_only, lift_ends, end_op_ends. Qed.
#[export] Hint Resolve on_fs_only fbegin_op_only fend_op_only : leaves.

Lemma only_fs_finv held s s' : only_fs s s' -> finv held s -> finv held s'.
Proof. intros [x ->]. apply finv_fs. Qed.
Lemma only_fs_fds s s' : only_fs s s' -> same_fds s s'.
Proof. by intros [x ->]. Qed.

Lemma fileclose_stops held f s :
  finv (f :: held) s -> stops (fun _ s' => finv held s' /\ same_fds s s') (finv held) (fileclose f) s.
Proof.
  intros H. destruct (finv_held_cons _ _ _ H) as [Hf Hr]. pose proof (fi_len _ _ H) as HL.
  destruct (decide (1 < f_ref (file_at f s) \/ f_type (file_at f s) <> FD_INODE)) as [Hc|Hc];
    [eapply wp_stops, wp_mono; [by apply wp_fileclose|]; naive_solver|].
  assert (f_ref (file_at f s) = 1) as E by lia.
  assert (f_type (file_at f s) = FD_INODE) as Ht by (apply dec_stable; intros ?; apply Hc; by right).
  unfold stops. rewrite fileclose_last by (try apply (fi_lock _ _ H); lia).
  unfold drop_file. rewrite decide_False by (rewrite Ht; done). rewrite decide_True by done.
  fold (stops (fun (_ : unit) s' => finv held s' /\ same_fds s s') (finv held)
    (fbegin_op ;; on_fs (iput (f_ip (file_at f s))) ;; fend_op) (with_file f closed s)).
  assert (leaves only_fs (fbegin_op ;; on_fs (iput (f_ip (file_at f s))) ;; fend_op)) as Hl by leaves_tac.
  pose proof (finv_last _ _ _ H E) as H1. eapply stops_mono; [apply Hl| |].
  - intros a s' Hs'. cbn beta in Hs'. split; [by eapply only_fs_finv|]. etransitivity; [|by apply only_fs_fds].
    apply same_fds_with; [lia|]. left. by eapply last_not_open.
  - intros s' Hs'. by eapply only_fs_finv.
Qed.

(** ** Making a pipe *)

Lemma finv_pkalloc held k l s :
  finv held s -> kf_free s = k :: l ->
  finv held (set_kf_free l s) /\ k ∉ l /\ (k < length (kf_pipes s))%nat /\
  forall f, f_type (file_at f s) = FD_PIPE -> f_pipe (file_at f s) <> k.
Proof.
  intros [L F K I R N P PL PI PE] E. rewrite E in P. destruct P as [[Hk Hl]%NoDup_cons [Hk' Hl']%Forall_cons].
  split; [|split; [done|split; [done|]]].
  - split; try done. intros f Ht. destruct (PI f Ht) as (? & Hn & ?). rewrite E in Hn. split; [done|]. split; [|done].
    cbn [kf_free set_kf_free]. set_solver.
  - intros f Ht <-. destruct (PI f Ht) as (_ & Hn & _). rewrite E in Hn. set_solver.
Qed.

(** Taking a file from the table. *)
Lemma wp_filealloc held s :
  finv held s ->
  wp filealloc (fun r s' => match r with
    | None => s' = s /\ free_file s = None
    | Some f => free_file s = Some f /\ s' = with_file f (set_f_ref 1) s /\ finv (f :: held) s' /\ same_fds s s' /\
        f ∉ held ++ open_files s /\ f_type (file_at f s') = FD_NONE
    end) s.
Proof.
  intros H. unfold wp. rewrite filealloc_eq by apply H. destruct (free_file s) as [f|] eqn:E; [|by exists None, s].
  exists (Some f), (with_file f (set_f_ref 1) s). split; [done|]. destruct (finv_alloc _ _ _ H E) as (H1 & Hn & Ht).
  destruct (finv_held_cons _ _ _ H1) as [Hf _]. rewrite <- (fi_len _ _ H) in Hf.
  split_and!; try done.
  - apply (same_fds_with f (set_f_ref 1) s Hf). by right.
  - rewrite file_at_with by done. by rewrite decide_True.
Qed.

(** The entry becomes an end of the new pipe [k]. *)
Lemma finv_pipe_end held f k rd s :
  finv held s -> f ∈ held -> (k < length (kf_pipes s))%nat -> k ∉ kf_free s ->
  pp_readopen (pipe_at k s) = true -> pp_writeopen (pipe_at k s) = true ->
  (forall g, g <> f -> f_type (file_at g s) = FD_PIPE -> f_pipe (file_at g s) = k -> f_writable (file_at g s) = rd) ->
  finv held (with_file f (set_pipe_end rd (negb rd) k) s).
Proof.
  intros H Hf Hk Hn Hr Hw Hg. assert (f < NFILE)%nat by (apply (fi_in _ _ H); set_solver).
  apply (finv_with held); [done..| | |]; cbn [f_ref f_type f_pipe f_writable set_pipe_end].
  - intros f'. case_decide; lia.
  - intros E. rewrite (fi_ref _ _ H) in E by done. assert (f ∈ held ++ open_files s) as Hin by set_solver.
    apply cnt_pos in Hin. lia.
  - intros _. split; [done|]. split; [done|]. split; [unfold pipe_end; cbn; by destruct rd|].
    intros g Hne Ht Hp. rewrite (Hg g) by done. by destruct rd.
Qed.

Definition an_end (rd : bool) (k : nat) (x : file) : Prop :=
  f_type x = FD_PIPE /\ f_readable x = rd /\ f_writable x = negb rd /\ f_pipe x = k.

(** Two free entries of the table. *)
Definition two_free (s : kfiles) : Prop :=
  exists f g, f <> g /\ (f < NFILE)%nat /\ (g < NFILE)%nat /\ f_ref (file_at f s) = 0 /\ f_ref (file_at g s) = 0.

Definition pipealloc_post (held : list nat) (why : Prop) (s : kfiles) (r : option (nat * nat)) (s' : kfiles) : Prop :=
  same_fds s s' /\
  match r with
  | None => finv held s' /\ why
  | Some (a, b) => exists k, finv (a :: b :: held) s' /\ an_end true k (file_at a s') /\ an_end false k (file_at b s') /\
      pipe_at k s' = pipeinit (pipe_at k s) /\ (k < length (kf_pipes s))%nat /\ a <> b
  end.

Lemma wp_pipe_bad1 held (why : Prop) a s :
  finv (a :: held) s -> f_type (file_at a s) = FD_NONE -> why ->
  wp (pipe_bad (Some a) None) (pipealloc_post held why s) s.
Proof.
  intros H Ht Hy. unfold pipe_bad. apply wp_bind. eapply wp_mono; [apply (wp_fileclose held); [done|right; by rewrite Ht]|].
  intros _ s1 (H1 & E1 & _). apply wp_bind, wp_ret, wp_ret. by split.
Qed.

Lemma wp_pipe_bad2 held (why : Prop) a b s :
  finv (a :: b :: held) s -> a <> b -> f_type (file_at a s) = FD_NONE -> f_type (file_at b s) = FD_NONE -> why ->
  wp (pipe_bad (Some a) (Some b)) (pipealloc_post held why s) s.
Proof.
  intros H Hab Ha Hb Hy. unfold pipe_bad. apply wp_bind.
  eapply wp_mono; [apply (wp_fileclose (b :: held)); [done|right; by rewrite Ha]|].
  intros _ s1 (H1 & E1 & G1). apply wp_bind.
  eapply wp_mono; [apply (wp_fileclose held); [done|right; rewrite G1 by done; by rewrite Hb]|].
  intros _ s2 (H2 & E2 & G2). apply wp_ret. split; [by etransitivity|done].
Qed.

Lemma pipealloc_post_trans held why s s1 r s' :
  same_fds s s1 -> kf_pipes s1 = kf_pipes s -> pipealloc_post held why s1 r s' -> pipealloc_post held why s r s'.
Proof.
  intros Hs Hp [H1 H2]. split; [by etransitivity|]. destruct r as [[a b]|]; [|done].
  destruct H2 as (k & ? & ? & ? & ? & ? & ?). exists k. unfold pipe_at in *. by rewrite <- Hp.
Qed.

(** The two ends are set up on the page [k]. *)
Lemma wp_pipe_setup held why a b k l s :
  finv (a :: b :: held) s -> a <> b -> a ∉ open_files s -> b ∉ open_files s -> kf_free s = k :: l ->
  f_type (file_at a s) = FD_NONE -> f_type (file_at b s) = FD_NONE ->
  wp (on_pipe k (modify pipeinit) ;; fupd a (set_pipe_end true false k) ;; fupd b (set_pipe_end false true k) ;;
      ret (Some (a, b))) (pipealloc_post held why s) (set_kf_free l s).
Proof.
  intros H Hab Hoa Hob Hfree Ha Hb. destruct (finv_pkalloc _ _ _ _ H Hfree) as (H1 & Hk & Hkl & Hfk).
  destruct (finv_held_cons _ _ _ H1) as [HfA _].
  assert (b < NFILE)%nat as HfB by (apply (fi_in _ _ H1); set_solver). pose proof (fi_len _ _ H1) as HL.
  apply wp_bind. unfold on_pipe. apply wp_zoom, wp_modify. cbn beta.
  set (s2 := set_kf_pipes _ _).
  assert (Hp2 : pipe_at k s2 = pipeinit (pipe_at k s)).
  { unfold pipe_at, s2. cbn [kf_pipes set_kf_pipes set_kf_free]. rewrite nth_lookup. by rewrite list_lookup_insert_eq. }
  assert (H2 : finv (a :: b :: held) s2).
  { apply finv_pipe; [done|done|]. intros f Ht E. by destruct (Hfk f Ht). }
  assert (Hkl2 : (k < length (kf_pipes s2))%nat) by (unfold s2; cbn; by rewrite length_insert).
  set (s3 := with_file a (set_pipe_end true false k) s2).
  assert (H3 : finv (a :: b :: held) s3).
  { apply (finv_pipe_end _ _ _ true); try done; [set_solver|by rewrite Hp2..|]. intros g _ Ht E. by destruct (Hfk g Ht). }
  set (s4 := with_file b (set_pipe_end false true k) s3).
  assert (E3 : forall g, file_at g s3 = if decide (g = a) then set_pipe_end true false k (file_at a s) else file_at g s)
    by (intros g; unfold s3; rewrite file_at_with by (rewrite (fi_len _ _ H2); done); done).
  assert (HL3 : length (kf_table s3) = NFILE) by apply H3.
  assert (E4 : forall g, file_at g s4 = if decide (g = b) then set_pipe_end false true k (file_at b s3) else file_at g s3)
    by (intros g; unfold s4; rewrite file_at_with by lia; done).
  assert (H4 : finv (a :: b :: held) s4).
  { apply (finv_pipe_end _ _ _ false); try done; [set_solver|by change (pipe_at k s3) with (pipe_at k s2); rewrite Hp2..|].
    intros g Hg. rewrite E3. case_decide; [done|]. intros Ht E. by destruct (Hfk g Ht). }
  apply wp_bind, wp_modify. fold s3. apply wp_bind, wp_modify. fold s4. apply wp_ret. split.
  - split; [done|]. intros g Hg. assert (g <> a /\ g <> b) as [? ?] by (split; by intros ->).
    rewrite E4, decide_False by done. by rewrite E3, decide_False.
  - exists k. split; [done|]. rewrite !E4, !E3.
    rewrite (decide_False (P := a = b)), (decide_True (P := a = a)), (decide_True (P := b = b)) by done.
    rewrite (decide_False (P := b = a)) by done. split_and!; try done.
Qed.

Lemma free_file_none s f : free_file s = None -> (f < length (kf_table s))%nat -> f_ref (file_at f s) <> 0.
Proof.
  unfold free_file. intros E%fmap_None Hf. apply list_find_None in E. rewrite Forall_lookup in E.
  destruct (lookup_lt_is_Some_2 _ _ Hf) as [x Hx]. rewrite (file_at_lookup _ _ _ Hx). by apply (E f).
Qed.

(** With one entry taken and no other free, there were not two. *)
Lemma not_two_free held a s :
  finv held s -> free_file (with_file a (set_f_ref 1) s) = None -> (a < NFILE)%nat -> ~ two_free s.
Proof.
  intros H E Ha (f & g & Hne & Hf & Hg & Rf & Rg). pose proof (fi_len _ _ H) as HL.
  assert (forall h, (h < NFILE)%nat -> f_ref (file_at h s) = 0 -> h = a) as Hh.
  { intros h Hh Rh. destruct (decide (h = a)) as [|Hha]; [done|]. exfalso.
    apply (free_file_none _ h E); [unfold with_file; cbn; rewrite length_alter; lia|].
    rewrite file_at_with by lia. by rewrite decide_False. }
  apply Hne. by rewrite (Hh f), (Hh g).
Qed.

Lemma wp_pipealloc held s :
  finv held s -> wp pipealloc (pipealloc_post held (~ (kf_free s <> [] /\ two_free s)) s) s.
Proof.
  intros H. set (why := ~ _). unfold pipealloc. apply wp_bind. eapply wp_mono; [by apply wp_filealloc|].
  intros [a|] s1.
  2:{ intros [-> E]. unfold pipe_bad. apply wp_bind, wp_ret, wp_bind, wp_ret, wp_ret. split; [done|]. split; [done|].
      intros [_ (f & _ & _ & Hf & _ & Rf & _)]. rewrite <- (fi_len _ _ H) in Hf. by apply (free_file_none _ f E). }
  intros (_ & E1 & H1 & F1 & Na & Ta). assert (kf_pipes s1 = kf_pipes s) as P1 by (by subst).
  assert (kf_free s1 = kf_free s) as K1 by (by subst).
  eapply wp_mono; [|intros r s' Hr; by apply (pipealloc_post_trans _ _ _ s1)].
  apply wp_bind. eapply wp_mono; [by apply wp_filealloc|].
  intros [b|] s2.
  2:{ intros [-> E]. apply wp_pipe_bad1; [done..|]. intros [_ H2]. subst s1. destruct (finv_held_cons _ _ _ H1) as [Ha _].
      by apply (not_two_free _ _ _ H E Ha). }
  clear E1. intros (_ & E2 & H2 & F2 & Nb & Tb). assert (kf_pipes s2 = kf_pipes s1) as P2 by (by subst).
  assert (kf_free s2 = kf_free s1) as K2 by (by subst).
  assert (a <> b) as Hab by (intros ->; apply Nb, elem_of_app; left; apply elem_of_cons; by left).
  assert (f_type (file_at a s2) = FD_NONE) as Ta2.
  { rewrite E2, file_at_with; [by rewrite decide_False|].
    destruct (finv_held_cons _ _ _ H2) as [Hb _]. rewrite (fi_len _ _ H1). lia. }
  assert (finv (a :: b :: held) s2) as H2'.
  { eapply finv_held; [done|]. intros f. rewrite !cnt_cons. lia. }
  eapply wp_mono; [|intros r s' Hr; by apply (pipealloc_post_trans _ _ _ s2)].
  apply wp_bind. unfold pkalloc. apply wp_bind, wp_gets. destruct (kf_free s2) as [|k l] eqn:Hfree.
  - apply wp_ret. apply wp_pipe_bad2; [done..|]. intros [Hk _]. congruence.
  - apply wp_bind, wp_modify, wp_ret.
    assert (open_files s2 = open_files s1) as O2 by (unfold open_files; by rewrite (proj1 F2)).
    assert (open_files s1 = open_files s) as O1 by (unfold open_files; by rewrite (proj1 F1)).
    apply wp_pipe_setup; try done; rewrite O2; intros Hin; [apply Na|apply Nb]; apply elem_of_app; right; [by rewrite <- O1|done].
Qed.

(** ** Reading and writing *)

Definition same_ends (p p' : pipe) : Prop :=
  pp_readopen p' = pp_readopen p /\ pp_writeopen p' = pp_writeopen p.

Lemma wp_release_pipe {A} (a : A) p0 p :
  pp_lock p = true -> same_ends p0 p ->
  wp (release_pipe ;; ret a) (fun _ p' => pp_lock p' = false /\ same_ends p0 p') p.
Proof. intros E H. unfold wp, bind, release_pipe, release. rewrite E. eexists _, _. split; [done|]. by split. Qed.

Lemma wp_acquire_pipe {A} (k : M pipe A) Q p :
  pp_lock p = false -> wp k Q (set_pp_lock true p) -> wp (acquire_pipe ;; k) Q p.
Proof. intros E H. unfold wp, bind, acquire_pipe, acquire. by rewrite E. Qed.

Lemma pipewrite_ends kl addr n p :
  pp_lock p = false -> wp (pipewrite kl addr n) (fun _ p' => pp_lock p' = false /\ same_ends p p') p.
Proof.
  intros E. unfold pipewrite, pipewrite_from. apply wp_acquire_pipe; [done|].
  assert (pp_lock (set_pp_lock true p) = true /\ same_ends p (set_pp_lock true p)) as [Hl He] by done.
  generalize (set_pp_lock true p) Hl He. intros q. clear Hl He. generalize 0 at 1. generalize (Z.to_nat (n - 0)).
  intros k. revert q. induction k as [|k IH]; intros q i Hl He; cbn [pipewrite_loop].
  - apply wp_bind, wp_modify. by apply wp_release_pipe.
  - apply wp_bind. unfold mget. eexists _, _. split; [done|]. destruct (_ =? _).
    + destruct (_ || _); [by apply wp_release_pipe|]. apply wp_bind, wp_modify. by apply wp_release_pipe.
    + apply wp_bind, wp_modify. by apply IH.
Qed.

Lemma piperead_copy_ends k p :
  wp (piperead_copy k) (fun _ p' => pp_lock p' = pp_lock p /\ same_ends p p') p.
Proof.
  revert p. induction k as [|k IH]; intros p; cbn [piperead_copy]; [by apply wp_ret|].
  apply wp_bind. unfold mget. eexists _, _. split; [done|]. destruct (_ =? _); [by apply wp_ret|].
  apply wp_bind. unfold take1. eexists _, _. split; [done|]. apply wp_bind. eapply wp_mono; [apply IH|].
  intros r p' H. by apply wp_ret.
Qed.

Lemma piperead_ends kl n p :
  pp_lock p = false -> wp (piperead kl n) (fun _ p' => pp_lock p' = false /\ same_ends p p') p.
Proof.
  intros E. unfold piperead. apply wp_acquire_pipe; [done|].
  apply wp_bind. unfold mget. eexists _, _. split; [done|]. destruct (_ && _).
  - destruct kl; by apply wp_release_pipe.
  - apply wp_bind. eapply wp_mono; [apply piperead_copy_ends|]. intros r p' [Hl He].
    apply wp_bind, wp_modify. by apply wp_release_pipe.
Qed.

Lemma on_pipe_inv {A} held k (m : M pipe A) s :
  finv held s -> wp m (fun _ p' => pp_lock p' = false /\ same_ends (pipe_at k s) p') (pipe_at k s) ->
  wp (on_pipe k m) (fun _ s' => finv held s' /\ same_fds s s') s.
Proof.
  intros H Hm. unfold on_pipe. apply wp_zoom. eapply wp_mono; [apply Hm|]. intros a p' [Hl [Hr Hw]]. split; [|done].
  apply finv_pipe; [done..|]. intros f Ht <-. destruct (fi_pipe _ _ H f Ht) as (_ & _ & He). unfold pipe_end in *.
  by destruct (f_writable _); rewrite ?Hr, ?Hw.
Qed.

Lemma ended_stops {A} (r : stretch A) Q W s : (forall a, Q a s) -> W s -> stops Q W (ended r) s.
Proof. intros HQ HW. by destruct r; [apply HQ|]. Qed.

Lemma finv_off held f o s : finv held s -> (f < NFILE)%nat -> finv held (with_file f (set_f_off o) s).
Proof.
  intros H Hf. apply (finv_with held); [done..| | |]; cbn [f_ref f_type set_f_off f_pipe f_writable].
  - intros f'. case_decide; lia.
  - apply (fi_none _ _ H).
  - intros Ht. destruct (fi_pipe _ _ H f Ht) as (? & ? & ?). split_and!; [done..|].
    intros f' Hne Ht' Hp Hw. by destruct Hne; apply (fi_ends _ _ H).
Qed.

(** The effect of a call that works on the open file [f]. *)
Definition uses_file {A} (held : list nat) (m : M kfiles A) (s : kfiles) : Prop :=
  stops (fun _ s' => finv held s' /\ same_fds s s') (finv held) m s.

Lemma uses_bind {A B} held (m : M kfiles A) (k : A -> M kfiles B) s :
  uses_file held m s -> (forall a s', finv held s' -> same_fds s s' -> uses_file held (k a) s') ->
  uses_file held (bind m k) s.
Proof.
  intros Hm Hk. apply stops_bind. eapply stops_mono; [apply Hm| |done]. intros a s' [H E].
  eapply stops_mono; [by apply Hk| |done]. intros b s2 [H2 E2]. split; [done|]. by etransitivity.
Qed.

Lemma uses_only {A} held (m : M kfiles A) s : finv held s -> leaves only_fs m -> uses_file held m s.
Proof.
  intros H Hm. eapply stops_mono; [apply Hm|..]; simpl.
  - intros _ s' Hs. split; [by eapply only_fs_finv|by apply only_fs_fds].
  - intros s' Hs. by eapply only_fs_finv.
Qed.

Lemma uses_ret {A} held (a : A) s : finv held s -> uses_file held (ret a) s.
Proof. intros H. by split. Qed.

Lemma uses_panic {A} held e s : e ∉ file_panics -> uses_file held (@panic _ A e) s.
Proof. done. Qed.

Lemma uses_off held f b r s :
  finv held s -> (f < NFILE)%nat -> uses_file held (when b (fupd f (fun ff => set_f_off (u32 (f_off ff + r)) ff))) s.
Proof.
  intros H Hf. destruct b; [|by apply uses_ret]. assert (with_file f (fun ff => set_f_off (u32 (f_off ff + r)) ff) s =
    with_file f (set_f_off (u32 (f_off (file_at f s) + r))) s) as E.
  { unfold with_file. f_equal. apply list_eq. intros j. destruct (decide (j = f)) as [->|Hj].
    - rewrite !list_lookup_alter_eq. destruct (kf_table s !! f) as [x|] eqn:Ex; [|done]. cbn. by rewrite (file_at_lookup _ _ _ Ex).
    - by rewrite !list_lookup_alter_ne. }
  unfold uses_file, stops. cbn [when fupd modify]. fold (with_file f (fun ff => set_f_off (u32 (f_off ff + r)) ff) s).
  rewrite E. split; [by apply finv_off|]. apply same_fds_with; [by rewrite (fi_len _ _ H)|by right].
Qed.

(** Reading a field of a file, before the rest. *)
Lemma uses_field {A B} held f (g : file -> A) (k : A -> M kfiles B) s :
  uses_file held (k (g (file_at f s))) s -> uses_file held (bind (ffield f g) k) s.
Proof. done. Qed.
Lemma uses_gets {A B} held (g : kfiles -> A) (k : A -> M kfiles B) s :
  uses_file held (k (g s)) s -> uses_file held (bind (gets g) k) s.
Proof. done. Qed.

Lemma filestat_uses held f s : finv held s -> uses_file held (filestat f) s.
Proof.
  intros H. unfold filestat. apply uses_field. apply uses_only; [done|]. case_decide; leaves_tac.
Qed.

Lemma pipe_uses {A} held k (m : M pipe (stretch A)) s :
  finv held s -> wp m (fun _ p' => pp_lock p' = false /\ same_ends (pipe_at k s) p') (pipe_at k s) ->
  uses_file held (r <- on_pipe k m ;; ended r) s.
Proof.
  intros H Hm. apply uses_bind; [by apply wp_stops, on_pipe_inv|]. intros r s' H' _. by apply ended_stops.
Qed.

Section calls.
Context `{DV : !Devsw} `{DE : !DevswEnds}.

Lemma fileread_uses held f n s :
  finv held s -> f_type (file_at f s) <> FD_NONE -> (f < NFILE)%nat -> uses_file held (fileread f n) s.
Proof using DE.
  intros H Ht Hf. unfold fileread. apply uses_field. change (id ?x) with x. destruct (negb _); [by apply uses_ret|].
  case_decide as E1.
  - apply uses_gets, pipe_uses; [done|]. apply piperead_ends, (fi_plock _ _ H).
  - case_decide as E2; [|by destruct (f_type (file_at f s))]. apply uses_bind; [apply uses_only; [done|leaves_tac]|].
    intros _ s1 H1 _. apply uses_bind; [apply uses_only; [done|leaves_tac]|]. intros r s2 H2 _.
    apply uses_bind; [by apply uses_off|]. intros _ s3 H3 _. apply uses_only; [done|leaves_tac].
Qed.

(** A turn of [filewrite] writes at least one byte. *)
Lemma filewrite_loop_uses held f src i n fuel s :
  finv held s -> (f < NFILE)%nat -> (Z.to_nat (n - i) < fuel)%nat -> uses_file held (filewrite_loop f src i n fuel) s.
Proof using DE.
  revert src i s. induction fuel as [|fl IH]; intros src i s H Hf Hn; [lia|]. cbn [filewrite_loop].
  destruct (Z.ltb_spec i n) as [Hi|]; [cbn [negb]|by apply uses_ret]. set (n1 := if WRITE_MAX <? n - i then WRITE_MAX else n - i).
  assert (0 < n1) by (unfold n1; destruct (WRITE_MAX <? n - i); [done|lia]).
  apply uses_field. change (id ?x) with x. apply uses_bind; [apply uses_only; [done|leaves_tac]|]. intros _ s1 H1 _.
  apply uses_bind; [apply uses_only; [done|leaves_tac]|]. intros _ s2 H2 _.
  apply uses_bind; [apply uses_only; [done|leaves_tac]|]. intros r s3 H3 _.
  apply uses_bind; [by apply uses_off|]. intros _ s4 H4 _.
  apply uses_bind; [apply uses_only; [done|leaves_tac]|]. intros _ s5 H5 _.
  apply uses_bind; [apply uses_only; [done|leaves_tac]|]. intros _ s6 H6 _.
  destruct (r <? 0); [by apply uses_ret|]. destruct (Z.eqb_spec r n1) as [->|]; cbn [negb].
  - apply IH; [done..|lia].
  - apply uses_panic. vm_compute. set_solver.
Qed.

Lemma filewrite_uses held f src n s :
  finv held s -> f_type (file_at f s) <> FD_NONE -> (f < NFILE)%nat -> uses_file held (filewrite f src n) s.
Proof using DE.
  intros H Ht Hf. unfold filewrite. apply uses_field. change (id ?x) with x. destruct (negb _); [by apply uses_ret|].
  case_decide as E1.
  - apply uses_gets, pipe_uses; [done|]. apply pipewrite_ends, (fi_plock _ _ H).
  - case_decide as E2; [|by destruct (f_type (file_at f s))].
    apply uses_bind; [apply filewrite_loop_uses; [done..|lia]|]. intros i s1 H1 _. by apply uses_ret.
Qed.

(** * The calls *)

Definition fd_inv (held : list nat) (s : sfs) : Prop := finv held (sf_files s) /\ typed (sf_files s).

(** While the process sleeps in a call, that call may have more references. *)
Definition fd_asleep (held : list nat) (s : sfs) : Prop := exists more, finv (more ++ held) (sf_files s).

Definition fd_safe {A} (held : list nat) (m : M sfs A) (s : sfs) : Prop :=
  stops (fun _ => fd_inv held) (fd_asleep held) m s.

Lemma asleep_now held s : finv held (sf_files s) -> fd_asleep held s.
Proof. intros H. by exists []. Qed.
Lemma asleep_one held f s : finv (f :: held) (sf_files s) -> fd_asleep held s.
Proof. intros H. by exists [f]. Qed.

(** Calls that only go to the file system. *)
Definition only_fs_part (s s' : sfs) : Prop := only_fs (sf_files s) (sf_files s').
#[local] Instance only_fs_part_preorder : PreOrder only_fs_part.
Proof. split; [intros s; unfold only_fs_part; reflexivity|]. intros s1 s2 s3. unfold only_fs_part. apply transitivity. Qed.

Lemma files_only {A} (m : M kfiles A) : leaves only_fs m -> leaves only_fs_part (files m).
Proof. intros H. unfold files. by eapply (leaves_zoom only_fs_part only_fs). Qed.
Lemma fsys_only {A} (m : M fstate A) : leaves anyhow m -> leaves only_fs_part (fsys m).
Proof. intros H. unfold fsys. by apply files_only, on_fs_only. Qed.
Hint Resolve files_only fsys_only : leaves.

Lemma only_safe {A} held (m : M sfs A) s : fd_inv held s -> leaves only_fs_part m -> fd_safe held m s.
Proof.
  intros [H Ht] Hm. eapply stops_mono; [apply Hm|..]; simpl.
  - intros _ s' Hs. split; [by eapply only_fs_finv|]. eapply same_fds_typed; [by apply only_fs_fds|done].
  - intros s' Hs. apply asleep_now. by eapply only_fs_finv.
Qed.

Lemma safe_bind {A B} held (m : M sfs A) (k : A -> M sfs B) s :
  fd_safe held m s -> (forall a s', fd_inv held s' -> fd_safe held (k a) s') -> fd_safe held (bind m k) s.
Proof. intros Hm Hk. apply stops_bind. eapply stops_mono; [apply Hm|auto|done]. Qed.

Lemma safe_ret {A} held (a : A) s : fd_inv held s -> fd_safe held (ret a) s.
Proof. done. Qed.

Lemma safe_umem held (g : sfs -> mem) s : fd_inv held s -> fd_safe held (modify (fun s => set_umem (g s) s)) s.
Proof. done. Qed.

Lemma uses_safe {A} held (m : M kfiles A) s :
  fd_inv held s -> uses_file held m (sf_files s) -> fd_safe held (files m) s.
Proof.
  intros [H Ht] Hm. apply stops_zoom. eapply stops_mono; [apply Hm|..]; simpl.
  - intros _ k [Hk Hs]. split; [done|]. by eapply same_fds_typed.
  - intros k Hk. by apply asleep_now.
Qed.

Lemma ofile_open s fd f : kf_ofile s !! fd = Some (Some f) -> f ∈ open_files s.
Proof. intros H. apply list_elem_of_omap. exists (Some f). split; [by eapply list_elem_of_lookup_2|done]. Qed.

(** [argfd] changes nothing and finds an open file. *)
Lemma argfd_none_or n s :
  argfd n s = Ok None s \/
  exists fd f, argfd n s = Ok (Some (fd, f)) s /\ 0 <= fd /\ kf_ofile (sf_files s) !! Z.to_nat fd = Some (Some f).
Proof.
  unfold argfd, bind, mget. destruct (argint _ n) as [fd|]; [|by left]. destruct (Z.ltb_spec fd 0); [by left|]. cbn [orb].
  destruct (_ <=? fd); [by left|]. destruct (_ !! _) as [[f|]|] eqn:E; [|by left..]. right. by exists fd, f.
Qed.

Lemma argfd_bind {B} n (k : option (Z * nat) -> M sfs B) (Q : B -> sfs -> Prop) W s :
  stops Q W (k None) s ->
  (forall fd f, 0 <= fd -> kf_ofile (sf_files s) !! Z.to_nat fd = Some (Some f) -> stops Q W (k (Some (fd, f))) s) ->
  stops Q W (bind (argfd n) k) s.
Proof.
  intros HN HS. unfold stops. destruct (argfd_none_or n s) as [E|(fd & f & E & H1 & H2)]; rewrite (bind_ok _ _ _ _ _ E);
    [done|by apply HS].
Qed.

Lemma mget_bind {B} (k : sfs -> M sfs B) Q W s : stops Q W (k s) s -> stops Q W (bind mget k) s.
Proof. done. Qed.

Lemma fd_open held s fd f :
  fd_inv held s -> kf_ofile (sf_files s) !! fd = Some (Some f) ->
  f_type (file_at f (sf_files s)) <> FD_NONE /\ (f < NFILE)%nat /\ 1 <= f_ref (file_at f (sf_files s)).
Proof. intros [H Ht] E%ofile_open. destruct (finv_open _ _ _ H E). split; [by apply Ht|done]. Qed.

Lemma sys_read_safe held s : fd_inv held s -> fd_safe held sys_read s.
Proof using DE.
  intros H. unfold sys_read. apply argfd_bind; [by apply mget_bind|]. intros fd f Hfd E. apply mget_bind.
  destruct (argint _ 2) as [n|]; [|done]. destruct (argptr _ 1 n) as [p|]; [|done].
  destruct (fd_open _ _ _ _ H E) as (Ht & Hf & _).
  apply safe_bind; [apply uses_safe; [done|]; apply fileread_uses; [apply H|done..]|]. intros r s1 H1.
  apply safe_bind; [by apply safe_umem|done].
Qed.

Lemma sys_write_safe held s : fd_inv held s -> fd_safe held sys_write s.
Proof using DE.
  intros H. unfold sys_write. apply argfd_bind; [by apply mget_bind|]. intros fd f Hfd E. apply mget_bind.
  destruct (argint _ 2) as [n|]; [|done]. destruct (argptr _ 1 n) as [p|]; [|done].
  destruct (fd_open _ _ _ _ H E) as (Ht & Hf & _).
  apply uses_safe; [done|]; apply filewrite_uses; [apply H|done..].
Qed.

Lemma sys_fstat_safe held s : fd_inv held s -> fd_safe held sys_fstat s.
Proof.
  intros H. unfold sys_fstat. apply argfd_bind; [by apply mget_bind|]. intros fd f Hfd E. apply mget_bind.
  destruct (argptr _ 1 _) as [p|]; [|done].
  apply safe_bind; [apply uses_safe; [done|]; apply filestat_uses, H|]. intros [st|] s1 H1; [|done].
  apply safe_bind; [by apply safe_umem|done].
Qed.

(** A descriptor that is filled or emptied. *)
Lemma typed_fd fd o s :
  typed s -> (forall f, o = Some f -> f_type (file_at f s) <> FD_NONE) -> typed (with_fd fd o s).
Proof.
  intros Ht Ho g Hg. change (file_at g (with_fd fd o s)) with (file_at g s).
  apply list_elem_of_omap in Hg as (x & Hx & E). unfold id in E. subst x.
  apply list_elem_of_lookup in Hx as [j Hj]. unfold with_fd in Hj. cbn [kf_ofile set_kf_ofile] in Hj.
  apply list_lookup_insert_Some in Hj as [(_ & -> & _)|[_ Hj]]; [by apply Ho|]. apply Ht. by eapply ofile_open.
Qed.

Lemma sys_close_safe held s : fd_inv held s -> fd_safe held sys_close s.
Proof.
  intros [H Ht]. unfold sys_close. apply argfd_bind; [done|]. intros fd f Hfd E.
  apply stops_bind, stops_zoom. unfold stops at 1, set_fd, modify.
  fold (with_fd (Z.to_nat fd) None (sf_files s)).
  assert (finv (f :: held) (with_fd (Z.to_nat fd) None (sf_files s))) as H1.
  { eapply finv_fd; [done..|]. intros g. cbn [omap list_omap id]. rewrite !cnt_cons, cnt_nil. lia. }
  apply stops_bind, stops_zoom. eapply stops_mono; [by apply (fileclose_stops held)|..]; simpl.
  - intros _ k [Hk Hs]. split; [done|]. eapply same_fds_typed; [done|]. by apply typed_fd.
  - intros k Hk. by apply asleep_now.
Qed.

(** A new reference to the open file [f] in the free descriptor [fd]. *)
Definition duped (fd f : nat) (s : kfiles) : kfiles :=
  with_fd fd (Some f) (with_file f (set_f_ref (f_ref (file_at f s) + 1)) s).

Lemma duped_inv held fd f s :
  finv held s -> typed s -> f ∈ open_files s -> kf_ofile s !! fd = Some None -> finv held (duped fd f s) /\ typed (duped fd f s).
Proof.
  intros H Ht Ho E. destruct (finv_open _ _ _ H Ho) as [Hf Hr]. split.
  - eapply (finv_fd (f :: held) held fd None); [by apply finv_dup|done|]. intros g. cbn [omap list_omap id].
    rewrite !cnt_cons, cnt_nil. lia.
  - assert (same_fds s (with_file f (set_f_ref (f_ref (file_at f s) + 1)) s)) as Hs.
    { apply same_fds_with; [by rewrite (fi_len _ _ H)|by right]. }
    apply typed_fd; [by eapply same_fds_typed|]. intros g [= <-]. rewrite (proj2 Hs) by done. by apply Ht.
Qed.

Lemma sys_dup_eq held s fd f :
  fd_inv held s -> argfd 0 s = Ok (Some (fd, f)) s -> f ∈ open_files (sf_files s) ->
  sys_dup s = match free_fd (sf_files s) with
              | Some d => Ok (Z.of_nat d) (set_sf_files (duped d f (sf_files s)) s)
              | None => Ok (-1) s
              end.
Proof.
  intros [H Ht] E Ho. unfold sys_dup. rewrite (bind_ok _ _ _ _ _ E). unfold bind, files at 1, zoom.
  rewrite fdalloc_eq by apply H. destruct (finv_open _ _ _ H Ho) as [Hf Hr].
  destruct (free_fd (sf_files s)) as [d|]; [|by destruct s].
  destruct (Z.ltb_spec (Z.of_nat d) 0); [lia|]. unfold files, zoom. cbn [sf_files set_sf_files].
  rewrite filedup_eq; [done|apply H|done].
Qed.

Lemma sys_dup_safe held s : fd_inv held s -> fd_safe held sys_dup s.
Proof.
  intros H. unfold fd_safe, stops. destruct (argfd_none_or 0 s) as [E|(fd & f & E & _ & Ef)].
  - unfold sys_dup. by rewrite (bind_ok _ _ _ _ _ E).
  - apply ofile_open in Ef. rewrite (sys_dup_eq _ _ _ _ H E Ef). destruct (free_fd _) as [d|] eqn:Ed; [|done].
    apply free_fd_spec in Ed. destruct H. by apply duped_inv.
Qed.

(** The calls on names. *)
Lemma isdirempty_loop_stops dp off fuel s :
  dir_left dp off fuel s -> (0 < fuel)%nat -> stops (fun _ _ => True) (fun _ => True) (isdirempty_loop dp off fuel) s.
Proof using DE.
  revert off s. induction fuel as [|f IH]; intros off s Hs Hf; [lia|]. cbn [isdirempty_loop].
  apply stops_bind. unfold stops at 1, ifield, gets.
  destruct (Z.ltb_spec off (i_size (inode_at dp s))) as [Hlt|]; [|done]. cbn [negb].
  apply (dir_turn _ _ _ f); [done|]. intros r s' Hs'.
  assert (0 < f)%nat by (destruct Hs as (? & ? & ?); lia).
  destruct (negb _); [apply stops_panic; vm_compute; set_solver|].
  destruct (negb _); [done|by apply IH].
Qed.

Lemma isdirempty_stops dp s :
  i_type (inode_at dp s) = T_DIR -> stops (fun _ _ => True) (fun _ => True) (isdirempty dp) s.
Proof using DE.
  intros Ht. unfold isdirempty. apply stops_bind. unfold stops at 1, ifield, gets.
  apply isdirempty_loop_stops; [|lia]. split; [done|]. unfold DIRENT. lia.
Qed.

Lemma fsys_field_bind {A B} ip (g : inode -> A) (k : A -> M sfs B) Q W s :
  stops Q W (k (g (inode_at ip (kf_fs (sf_files s))))) s -> stops Q W (bind (fsys (ifield ip g)) k) s.
Proof. by destruct s as [[] ?]. Qed.

(** The check of [sys_unlink] that a directory is empty. *)
Lemma unlink_check ip (k : inode -> bool -> M sfs Z) :
  (forall d e, leaves only_fs_part (k d e)) ->
  leaves only_fs_part
    (d <- fsys (ifield ip id) ;;
     if i_nlink d <? 1 then panic "unlink: nlink < 1" else
     empty <- (if i_type d =? T_DIR then fsys (isdirempty ip) else ret true) ;;
     k d empty).
Proof using DE.
  intros Hk s. apply fsys_field_bind. change (id ?x) with x. destruct (_ <? 1); [apply stops_panic; vm_compute; set_solver|].
  apply stops_bind. eapply (stops_mono (fun _ => only_fs_part s) _ (only_fs_part s)); [| |done].
  - destruct (Z.eqb_spec (i_type (inode_at ip (kf_fs (sf_files s)))) T_DIR) as [Ht|]; [|apply leaves_ret, _].
    apply stops_zoom, stops_zoom. eapply stops_mono; [by apply isdirempty_stops|..]; simpl; intros; by eexists.
  - intros e s2 H2. eapply stops_mono; [apply Hk|..]; simpl; intros; by transitivity s2.
Qed.

Lemma add_nlink_only i d : leaves only_fs_part (add_nlink i d).
Proof. unfold add_nlink. apply fsys_only. leaves_tac. Qed.
Hint Resolve add_nlink_only : leaves.

Lemma sys_unlink_only : leaves only_fs_part sys_unlink.
Proof using DE.
  unfold sys_unlink, sys_unlink_bad.
  repeat first [solve [eauto 5 with leaves] | apply unlink_check; intros ? ? | leaves_step].
Qed.

Lemma sys_link_only : leaves only_fs_part sys_link.
Proof using DE. unfold sys_link, sys_link_bad. leaves_tac. Qed.

Lemma create_ends path type major minor : leaves anyhow (create path type major minor).
Proof using DE. unfold create. leaves_tac. Qed.
Hint Resolve create_ends : leaves.

Lemma open_inode_ends path omode : leaves anyhow (open_inode path omode).
Proof using DE. unfold open_inode. leaves_tac. Qed.
Hint Resolve open_inode_ends : leaves.

Lemma sys_mkdir_only : leaves only_fs_part sys_mkdir.
Proof using DE. unfold sys_mkdir, make. leaves_tac. Qed.
Lemma sys_mknod_only : leaves only_fs_part sys_mknod.
Proof using DE. unfold sys_mknod, make. leaves_tac. Qed.
Lemma sys_chdir_only : leaves only_fs_part sys_chdir.
Proof using DE. unfold sys_chdir. leaves_tac; apply fsys_only; leaves_tac. Qed.

Lemma open_fails_safe held ip s : fd_inv held s -> fd_safe held (open_fails ip) s.
Proof. intros H. apply only_safe; [done|]. unfold open_fails. leaves_tac. Qed.

(** The descriptors but those of [f] have a type. *)
Definition typed_but (f : nat) (s : kfiles) : Prop :=
  forall g, g ∈ open_files s -> g <> f -> f_type (file_at g s) <> FD_NONE.

Lemma only_fs_typed_but f s s' : only_fs s s' -> typed_but f s -> typed_but f s'.
Proof. by intros [x ->]. Qed.

(** The file [f] in its descriptor becomes an open inode. *)
Lemma set_open_inv held f ip omode s :
  finv held s -> typed_but f s -> f ∈ open_files s ->
  finv held (with_file f (set_open ip omode) s) /\ typed (with_file f (set_open ip omode) s).
Proof.
  intros H Ht Ho. destruct (finv_open _ _ _ H Ho) as [Hf Hr]. split.
  - apply (finv_with held); [done..| | |]; cbn [f_ref f_type set_open].
    + intros f'. case_decide; lia.
    + lia.
    + done.
  - intros g Hg. rewrite file_at_with by (by rewrite (fi_len _ _ H)). case_decide; [done|]. by apply Ht.
Qed.

Lemma with_fd_open fd f s : kf_ofile s !! fd = Some None -> f ∈ open_files (with_fd fd (Some f) s).
Proof.
  intros E. apply (ofile_open _ fd). unfold with_fd. cbn [kf_ofile set_kf_ofile].
  apply list_lookup_insert_eq. by apply lookup_lt_Some in E.
Qed.

(** [sys_open] once [fdalloc] has given it a descriptor. *)
Lemma open_done held ip omode f (fd : Z) s :
  finv held (sf_files s) -> typed_but f (sf_files s) -> f ∈ open_files (sf_files s) ->
  fd_safe held (fsys (iunlock ip) ;; files fend_op ;; files (fupd f (set_open ip omode)) ;; ret fd) s.
Proof.
  intros H Ht Ho. apply stops_bind. eapply stops_mono; [apply fsys_only, iunlock_ends| |].
  - intros ? s1 H1. cbn beta in H1. apply stops_bind. eapply stops_mono; [apply files_only, fend_op_only| |].
    + intros ? s2 H2. cbn beta in H2. assert (only_fs (sf_files s) (sf_files s2)) as [x E] by (by etransitivity).
      apply stops_bind, stops_zoom. unfold stops, fupd, modify. fold (with_file f (set_open ip omode) (sf_files s2)).
      rewrite E. apply set_open_inv; [by apply finv_fs|done|done].
    + intros s2 H2. apply asleep_now. apply (only_fs_finv _ (sf_files s)); [by transitivity (sf_files s1)|done].
  - intros s1 H1. apply asleep_now. by eapply only_fs_finv.
Qed.

Lemma sys_open_safe held s : fd_inv held s -> fd_safe held sys_open s.
Proof using DE.
  intros H. unfold sys_open. apply mget_bind. destruct (arg_path _ 0) as [path|]; [|done].
  destruct (argint _ 1) as [omode|]; [|done].
  apply safe_bind; [apply only_safe; [done|leaves_tac]|]. intros _ s1 H1.
  apply safe_bind; [apply only_safe; [done|leaves_tac]|]. clear s H H1 s1. intros [ip|] s H;
    [|apply only_safe; [done|leaves_tac]].
  apply stops_bind, stops_zoom. destruct H as [H Ht]. eapply wp_stops, wp_mono; [by apply wp_filealloc|].
  intros [f|] k; [|intros [-> _]; destruct s; by apply open_fails_safe].
  intros (_ & _ & H1 & F1 & Nf & Tf). apply stops_bind, stops_zoom. cbn [sf_files set_sf_files].
  unfold stops at 1. rewrite fdalloc_eq by apply H1. destruct (free_fd k) as [fd|] eqn:Efd.
  - destruct (Z.ltb_spec (Z.of_nat fd) 0); [lia|]. apply free_fd_spec in Efd. apply open_done.
    + eapply finv_fd; [done..|]. intros g. cbn [omap list_omap id]. rewrite !cnt_cons, cnt_nil. lia.
    + intros g Hg Hne. cbn [sf_files set_sf_files] in *. change (file_at g (with_fd fd (Some f) k)) with (file_at g k).
      apply cnt_pos in Hg. unfold with_fd in Hg. rewrite (cnt_fd _ _ None) in Hg by done. cbn [omap list_omap id] in Hg.
      rewrite cnt_cons, decide_False, !cnt_nil in Hg by done.
      apply (same_fds_typed s.(sf_files)); [done..|]. apply cnt_pos. lia.
    + by apply with_fd_open.
  - cbn [Z.ltb Z.compare]. apply stops_bind, stops_zoom. cbn [sf_files set_sf_files].
    eapply wp_stops, wp_mono; [apply (wp_fileclose held); [done|right; by rewrite Tf]|].
    intros _ k2 (H2 & F2 & _). apply open_fails_safe. split; [done|].
    eapply same_fds_typed; [|done]. by etransitivity.
Qed.

(** ** Pipes *)

(** What [sys_pipe] needs: two descriptors, two files and a page. *)
Definition two_fds (s : kfiles) : Prop :=
  exists d0 d1, free_fd s = Some d0 /\ forall f, free_fd (with_fd d0 (Some f) s) = Some d1.
Definition pipe_room (s : kfiles) : Prop := two_fds s /\ kf_free s <> [] /\ two_free s.

(** The state after a successful [sys_pipe]: the two lowest free descriptors are the
    ends of a fresh pipe, and their numbers are at [p] in user memory. *)
Definition piped (p : Z) (d0 d1 k : nat) (s s' : sfs) : Prop :=
  exists a b,
    free_fd (sf_files s) = Some d0 /\ free_fd (with_fd d0 (Some a) (sf_files s)) = Some d1 /\
    kf_ofile (sf_files s') = <[d1 := Some b]> (<[d0 := Some a]> (kf_ofile (sf_files s))) /\
    an_end true k (file_at a (sf_files s')) /\ an_end false k (file_at b (sf_files s')) /\
    pipe_at k (sf_files s') = pipeinit (pipe_at k (sf_files s)) /\ (k < length (kf_pipes (sf_files s)))%nat /\
    u_mem (sf_env s') = st32 (st32 (u_mem (sf_env s)) p (Z.of_nat d0)) (p + 4) (Z.of_nat d1).

Definition sys_pipe_post (held : list nat) (p : Z) (s : sfs) (r : Z) (s' : sfs) : Prop :=
  fd_inv held s' /\
  (r = 0 /\ (exists d0 d1 k, piped p d0 d1 k s s') \/
   r = -1 /\ ~ pipe_room (sf_files s) /\ kf_ofile (sf_files s') = kf_ofile (sf_files s) /\ sf_env s' = sf_env s).

(** The way out when the descriptors do not suffice. *)
Lemma wp_pipe_close held a b k0 kp (s : sfs) k :
  finv (a :: b :: held) k -> an_end true kp (file_at a k) -> an_end false kp (file_at b k) -> a <> b ->
  same_fds k0 k -> typed k0 -> sf_files s = k ->
  wp (files (fileclose a) ;; files (fileclose b) ;; ret (-1))
    (fun r s' => fd_inv held s' /\ r = -1 /\ kf_ofile (sf_files s') = kf_ofile k0 /\ sf_env s' = sf_env s) s.
Proof.
  intros H Ha Hb Hab Hs Ht <-. apply wp_bind, wp_zoom.
  eapply wp_mono; [apply (wp_fileclose (b :: held)); [done|right; by rewrite (proj1 Ha)]|].
  intros _ k1 (H1 & F1 & G1). apply wp_bind, wp_zoom. cbn [sf_files set_sf_files].
  eapply wp_mono; [apply (wp_fileclose held); [done|right; rewrite G1 by done; by rewrite (proj1 Hb)]|].
  intros _ k2 (H2 & F2 & _). apply wp_ret. assert (same_fds k0 k2) as F by (do 2 (etransitivity; [done|]); done).
  split; [split; [done|by eapply same_fds_typed]|]. split; [done|]. split; [apply F|done].
Qed.

(** Both descriptors are there. *)
Lemma pipe_fds_inv held a b d0 d1 k :
  finv (a :: b :: held) k -> typed k -> f_type (file_at a k) = FD_PIPE -> f_type (file_at b k) = FD_PIPE ->
  kf_ofile k !! d0 = Some None -> kf_ofile (with_fd d0 (Some a) k) !! d1 = Some None ->
  finv held (with_fd d1 (Some b) (with_fd d0 (Some a) k)) /\ typed (with_fd d1 (Some b) (with_fd d0 (Some a) k)).
Proof.
  intros H Ht Ha Hb E0 E1. split.
  - eapply (finv_fd (b :: held)); [eapply (finv_fd (a :: b :: held)); [done..|]|done|]; intros g; cbn [omap list_omap id];
      rewrite !cnt_cons, cnt_nil; lia.
  - apply typed_fd; [apply typed_fd|]; [done|..]; intros g [= <-].
    + by rewrite Ha.
    + change (file_at b (with_fd d0 (Some a) k)) with (file_at b k). by rewrite Hb.
Qed.

Lemma free_fd_ofile s s' : kf_ofile s' = kf_ofile s -> free_fd s' = free_fd s.
Proof. unfold free_fd. by intros ->. Qed.

Lemma wp_sys_pipe held p s :
  fd_inv held s -> argptr (sf_env s) 0 8 = Some p -> wp sys_pipe (sys_pipe_post held p s) s.
Proof.
  intros [H Ht] Hp. unfold sys_pipe. apply wp_bind. exists s, s. split; [done|]. rewrite Hp.
  apply wp_bind, wp_zoom. eapply wp_mono; [by apply wp_pipealloc|].
  intros [[a b]|] k [Hs Hk].
  2:{ apply wp_ret. split; [split; [apply Hk|by eapply same_fds_typed]|]. right. split; [done|].
      split; [unfold pipe_room; tauto|]. split; [apply Hs|done]. }
  destruct Hk as (kp & Hk & Ha & Hb & Epp & Hkp & Hab). pose proof (same_fds_typed _ _ Hs Ht) as Htk.
  pose proof (proj1 Hs) as Eo. apply wp_bind, wp_zoom. cbn [sf_files set_sf_files]. unfold wp at 1.
  rewrite fdalloc_eq by apply Hk. rewrite (free_fd_ofile (sf_files s) k Eo).
  destruct (free_fd (sf_files s)) as [d0|] eqn:Ed0; eexists _, _; (split; [reflexivity|]).
  2:{ cbn [Z.ltb Z.compare]. apply wp_bind, wp_ret. cbn [orb Z.ltb Z.compare Z.leb]. apply wp_bind, wp_ret.
      eapply wp_mono; [by eapply (wp_pipe_close held a b (sf_files s) kp _ k)|]. intros r s' (Hi & -> & Eo' & Ee). split; [done|]. right.
      split; [done|]. split; [|done]. intros [(d & d' & Hd & _) _]. congruence. }
  pose proof (free_fd_spec _ _ Ed0) as Ek0. rewrite <- Eo in Ek0.
  destruct (Z.ltb_spec (Z.of_nat d0) 0); [lia|].
  apply wp_bind, wp_zoom. cbn [sf_files set_sf_files]. unfold wp at 1.
  rewrite fdalloc_eq by (unfold with_fd; cbn [kf_ofile set_kf_ofile]; rewrite length_insert; apply Hk).
  assert (free_fd (with_fd d0 (Some a) k) = free_fd (with_fd d0 (Some a) (sf_files s))) as Efd
    by (apply free_fd_ofile; unfold with_fd; cbn [kf_ofile set_kf_ofile]; by rewrite Eo).
  destruct (free_fd (with_fd d0 (Some a) k)) as [d1|] eqn:Ed1; eexists _, _; (split; [reflexivity|]).
  - destruct (Z.ltb_spec (Z.of_nat d1) 0); [lia|]. cbn [orb]. apply wp_bind, wp_modify, wp_ret.
    apply free_fd_spec in Ed1. split; [apply pipe_fds_inv; try done; [apply Ha|apply Hb]|]. left. split; [done|].
    exists d0, d1, kp, a, b. split_and!; try done. unfold with_fd. cbn. by rewrite Eo.
  - cbn [Z.ltb Z.compare orb]. destruct (Z.leb_spec 0 (Z.of_nat d0)); [|lia].
    apply wp_bind, wp_zoom, wp_modify. cbn [sf_files set_sf_files]. rewrite Nat2Z.id.
    eapply wp_mono; [eapply (wp_pipe_close held a b (sf_files s) kp _ k); try done|].
    + cbn. unfold with_fd, set_kf_ofile. cbn. rewrite list_insert_insert_eq, list_insert_id by done. by destruct k.
    + intros r s' (Hi & -> & Eo' & Ee). split; [done|]. right. split; [done|]. split; [|done].
      intros [(d & d' & Hd & Hd') _]. rewrite Ed0 in Hd. injection Hd as <-. specialize (Hd' a). congruence.
Qed.

Lemma sys_pipe_safe held s : fd_inv held s -> fd_safe held sys_pipe s.
Proof.
  intros H. destruct (argptr (sf_env s) 0 8) as [p|] eqn:E.
  - eapply wp_stops, wp_mono; [by apply (wp_sys_pipe held p)|]. by intros r s' [? _].
  - unfold sys_pipe. apply mget_bind. by rewrite E.
Qed.
End calls.

(** * A pipe used through its descriptors *)

Lemma argfd_ok n s d f :
  length (kf_ofile (sf_files s)) = NOFILE -> argint (sf_env s) n = Some (Z.of_nat d) ->
  kf_ofile (sf_files s) !! d = Some (Some f) -> argfd n s = Ok (Some (Z.of_nat d, f)) s.
Proof.
  intros HL Ha Hf. pose proof (lookup_lt_Some _ _ _ Hf). unfold argfd, bind, mget. rewrite Ha.
  destruct (Z.ltb_spec (Z.of_nat d) 0); [lia|]. destruct (Z.leb_spec (Z.of_nat NOFILE) (Z.of_nat d)); [lia|].
  cbn [orb]. by rewrite Nat2Z.id, Hf.
Qed.

Lemma holds_new p : length (pp_data p) = Z.to_nat PIPESIZE -> holds (pipeinit p) [].
Proof.
  intros H. by split.
Qed.

(** A write that fits into the pipe. *)
Lemma pipewrite_fits kl addr n p l :
  holds p l -> pp_lock p = false -> 0 <= n -> length addr = Z.to_nat n -> Z.of_nat (length l) + n <= PIPESIZE ->
  exists p', pipewrite kl addr n p = Ok (Return n) p' /\ holds p' (l ++ addr) /\ pp_lock p' = false /\ same_ends p p'.
Proof.
  intros Hp Hl Hn Ha Hfit. unfold pipewrite, pipewrite_from, bind, acquire_pipe, acquire. rewrite Hl.
  destruct (pipewrite_loop_ok kl addr n 0 (Z.to_nat (n - 0)) (set_pp_lock true p) l) as
    (m & r & p' & ws & E & Hh & Hm & Hsame & _ & Hend); [by apply holds_lock|done|lia|lia|].
  rewrite Z.sub_0_r in *. change (Z.to_nat 0) with 0%nat in *. rewrite drop_0 in *.
  destruct Hend as [(-> & -> & _)|(Hlt & Hfull & _)].
  - exists p'. rewrite firstn_all2 in Hh by lia. destruct Hsame as (? & ? & ? & _). by split_and!.
  - rewrite length_app, length_take in Hfull. lia.
Qed.

Lemma on_pipe_ok {A} k (m : M pipe A) a p' s :
  m (pipe_at k s) = Ok a p' -> on_pipe k m s = Ok a (set_kf_pipes (<[k := p']> (kf_pipes s)) s).
Proof. intros E. unfold on_pipe, zoom. change (nth k (kf_pipes s) pipe0) with (pipe_at k s). by rewrite E. Qed.

Lemma pipe_at_set k p s : (k < length (kf_pipes s))%nat -> pipe_at k (set_kf_pipes (<[k := p]> (kf_pipes s)) s) = p.
Proof. intros H. unfold pipe_at. cbn. rewrite nth_lookup. by rewrite list_lookup_insert_eq. Qed.

Section pipe_calls.
Context `{DV : !Devsw}.

Lemma filewrite_pipe f k src n p' s :
  an_end false k (file_at f s) -> pipewrite (kf_killed s) src n (pipe_at k s) = Ok (Return n) p' ->
  filewrite f src n s = Ok n (set_kf_pipes (<[k := p']> (kf_pipes s)) s).
Proof.
  intros (Ht & _ & Hw & Hk) E. unfold filewrite, bind at 1, ffield, gets. change (id ?x) with x. rewrite Hw, Ht, Hk. cbn [negb].
  rewrite decide_True by done. unfold bind at 1, gets. by rewrite (bind_ok _ _ _ _ _ (on_pipe_ok k _ _ _ _ E)).
Qed.

Lemma fileread_pipe f k n r p' s :
  an_end true k (file_at f s) -> piperead (kf_killed s) n (pipe_at k s) = Ok (Return r) p' ->
  fileread f n s = Ok r (set_kf_pipes (<[k := p']> (kf_pipes s)) s).
Proof.
  intros (Ht & Hr & _ & Hk) E. unfold fileread, bind at 1, ffield, gets. change (id ?x) with x. rewrite Hr, Ht, Hk. cbn [negb].
  rewrite decide_True by done. unfold bind at 1, gets. by rewrite (bind_ok _ _ _ _ _ (on_pipe_ok k _ _ _ _ E)).
Qed.

(** [sys_write] on the write end [d] of a pipe that holds [l], with room for it. *)
Lemma sys_write_pipe k d f n buf l s :
  length (kf_ofile (sf_files s)) = NOFILE -> kf_ofile (sf_files s) !! d = Some (Some f) ->
  an_end false k (file_at f (sf_files s)) -> (k < length (kf_pipes (sf_files s)))%nat ->
  holds (pipe_at k (sf_files s)) l -> pp_lock (pipe_at k (sf_files s)) = false ->
  argint (sf_env s) 0 = Some (Z.of_nat d) -> argint (sf_env s) 2 = Some n -> argptr (sf_env s) 1 n = Some buf ->
  0 <= n -> Z.of_nat (length l) + n <= PIPESIZE ->
  exists p', sys_write s = Ok n (set_sf_files (set_kf_pipes (<[k := p']> (kf_pipes (sf_files s))) (sf_files s)) s) /\
    holds p' (l ++ load (u_mem (sf_env s)) buf n) /\ pp_lock p' = false /\ same_ends (pipe_at k (sf_files s)) p'.
Proof.
  intros HL Hd He Hk Hh Hl A0 A2 A1 Hn Hfit.
  destruct (pipewrite_fits (kf_killed (sf_files s)) (load (u_mem (sf_env s)) buf n) n _ l Hh Hl Hn) as (p' & E & Hh' & Hl' & Hs');
    [by rewrite length_load|done|].
  exists p'. split; [|done]. unfold sys_write. rewrite (bind_ok _ _ _ _ _ (argfd_ok 0 s d f HL A0 Hd)).
  unfold bind at 1, mget. rewrite A2, A1. unfold files, zoom. by rewrite (filewrite_pipe _ _ _ _ _ _ He E).
Qed.

(** [sys_read] on the read end [d] of a pipe that holds [l], which is not empty. *)
Lemma sys_read_pipe k d f n dst l s :
  length (kf_ofile (sf_files s)) = NOFILE -> kf_ofile (sf_files s) !! d = Some (Some f) ->
  an_end true k (file_at f (sf_files s)) ->
  holds (pipe_at k (sf_files s)) l -> pp_lock (pipe_at k (sf_files s)) = false -> l <> [] ->
  argint (sf_env s) 0 = Some (Z.of_nat d) -> argint (sf_env s) 2 = Some n -> argptr (sf_env s) 1 n = Some dst ->
  exists s', sys_read s = Ok (Z.of_nat (length (take (Z.to_nat n) l))) s' /\
    u_mem (sf_env s') = store (u_mem (sf_env s)) dst (take (Z.to_nat n) l).
Proof.
  intros HL Hd He Hh Hl Hne A0 A2 A1.
  destruct (piperead_ok (kf_killed (sf_files s)) n _ l Hh Hl) as (r & p' & ws & E & _ & [[-> _]|(_ & _ & _ & ->)]); [done|].
  eexists. split.
  - unfold sys_read. rewrite (bind_ok _ _ _ _ _ (argfd_ok 0 s d f HL A0 Hd)).
    unfold bind at 1, mget. rewrite A2, A1. unfold bind at 1, files, zoom. by rewrite (fileread_pipe _ _ _ _ _ _ He E).
  - done.
Qed.
End pipe_calls.

(** * The theorems *)

(** The calls of sysfile.c but [sys_exec]. *)
Definition file_calls `{!Devsw} : list (M sfs Z) :=
  [sys_dup; sys_read; sys_write; sys_close; sys_fstat; sys_link; sys_unlink; sys_open; sys_mkdir; sys_mknod;
   sys_chdir; sys_pipe].

(** C24. File descriptors are safe.  From a state in which the reference count of
    every open file is the number of its references, every descriptor is of a pipe
    or an inode, and every end of a pipe has a page of its own that is not free,
    each call of sysfile.c but [sys_exec], which does not touch the descriptors,
    with any arguments, returns in such a state again; or it goes to sleep in a
    state where the counts and the pages are right and the references it holds are
    counted as well (the file that [sys_open] is making has its descriptor before
    it has its type, so the types are not claimed there); or the file system
    panics.  It never runs for ever, and never reaches the panics of [filedup],
    [fileclose], [fileread] and [filewrite]: no file is used after its last
    close and no page of a pipe after it was freed. *)
Theorem descriptors_safe `{DV : !Devsw} `{DE : !DevswEnds} (held : list nat) (s : sfs) (m : M sfs Z) :
  m ∈ file_calls -> finv held (sf_files s) -> typed (sf_files s) ->
  match m s with
  | Ok _ s' => finv held (sf_files s') /\ typed (sf_files s')
  | Sleep _ s' => exists more, finv (more ++ held) (sf_files s')
  | Panic e => e ∉ ["filedup"; "fileclose"; "fileread"; "filewrite"]%string
  | Diverge => False
  end.
Proof.
  intros Hm H Ht. assert (fd_inv held s) as Hi by done. change (fd_safe held m s). unfold file_calls in Hm.
  repeat (apply elem_of_cons in Hm as [->|Hm]); [..|by apply not_elem_of_nil in Hm].
  - by apply sys_dup_safe.
  - by apply sys_read_safe.
  - by apply sys_write_safe.
  - by apply sys_close_safe.
  - by apply sys_fstat_safe.
  - apply only_safe, sys_link_only. done.
  - apply only_safe, sys_unlink_only. done.
  - by apply sys_open_safe.
  - apply only_safe, sys_mkdir_only. done.
  - apply only_safe, sys_mknod_only. done.
  - apply only_safe, sys_chdir_only. done.
  - by apply sys_pipe_safe.
Qed.

(** C25. A pipe from end to end.  With two free descriptors, two free files and a free
    page, [sys_pipe] returns 0, and puts the two lowest free descriptors in user
    memory; a [sys_write] of at most 512 bytes to the second one then returns
    their number, and a [sys_read] from the first one gets the first of these
    bytes, as many as it asks for, into the memory of the reader. *)
Theorem pipe_calls `{DV : !Devsw} (held : list nat) (s : sfs) (p : Z) :
  finv held (sf_files s) -> typed (sf_files s) -> pipe_room (sf_files s) ->
  Forall (fun q => length (pp_data q) = 512%nat) (kf_pipes (sf_files s)) ->
  argptr (sf_env s) 0 8 = Some p ->
  exists d0 d1 s1, sys_pipe s = Ok 0 s1 /\
    kf_ofile (sf_files s) !! d0 = Some None /\ kf_ofile (sf_files s) !! d1 = Some None /\ (d0 < d1)%nat /\
    (forall d, (d < d1)%nat -> d <> d0 -> kf_ofile (sf_files s) !! d <> Some None) /\
    u_mem (sf_env s1) = st32 (st32 (u_mem (sf_env s)) p (Z.of_nat d0)) (p + 4) (Z.of_nat d1) /\
    forall e2 n buf,
      argint e2 0 = Some (Z.of_nat d1) -> argint e2 2 = Some n -> argptr e2 1 n = Some buf -> 0 < n <= 512 ->
      exists s2, sys_write (SFS (sf_files s1) e2) = Ok n s2 /\
        forall e3 m dst,
          argint e3 0 = Some (Z.of_nat d0) -> argint e3 2 = Some m -> argptr e3 1 m = Some dst -> 0 <= m ->
          exists s3, sys_read (SFS (sf_files s2) e3) = Ok (Z.min m n) s3 /\
            u_mem (sf_env s3) = store (u_mem e3) dst (take (Z.to_nat m) (load (u_mem e2) buf n)).
Proof.
  intros H Ht Hroom Hdata Hp.
  destruct (wp_sys_pipe held p s (conj H Ht) Hp) as (r & s1 & E1 & [H1 Ht1] & [[-> (d0 & d1 & k & a & b & Hpiped)]|(_ & Hno & _)]);
    [|done].
  destruct Hpiped as (F0 & F1 & Eo & Ha & Hb & Ek & Hk & Em).
  pose proof (fi_fds _ _ H1) as HL. pose proof (fi_plock _ _ H1 k) as Hl.
  unfold free_fd in F0, F1. apply fmap_Some in F0 as ([d0' o0] & F0 & [= <-]). apply fmap_Some in F1 as ([d1' o1] & F1 & [= <-]).
  apply list_find_Some in F0 as (F0 & -> & G0). apply list_find_Some in F1 as (F1 & -> & G1).
  unfold with_fd in F1, G1. cbn [kf_ofile set_kf_ofile] in F1, G1.
  assert (d0 <> d1) as Hd by (intros ->; rewrite list_lookup_insert_eq in F1; [done|by apply lookup_lt_Some in F0]).
  rewrite list_lookup_insert_ne in F1 by done.
  assert (d0 < d1)%nat as Hlt by (destruct (decide (d1 < d0)%nat); [by destruct (G0 _ _ F1)|lia]).
  exists d0, d1, s1. split_and!; try done.
  { intros d Hdd Hne Hdn. apply (G1 d None); [by rewrite list_lookup_insert_ne|done|done]. }
  assert (holds (pipe_at k (sf_files s1)) []) as Hh.
  { rewrite Ek. apply holds_new. unfold pipe_at. rewrite nth_lookup. rewrite Forall_lookup in Hdata.
    destruct (lookup_lt_is_Some_2 _ _ Hk) as [q Hq]. rewrite Hq. by apply (Hdata k). }
  destruct (fi_pipe _ _ H1 a (proj1 Ha)) as (Hk1 & _). rewrite (proj2 (proj2 (proj2 Ha))) in Hk1.
  assert (kf_ofile (sf_files s1) !! d1 = Some (Some b)) as L1.
  { rewrite Eo. apply list_lookup_insert_eq. rewrite length_insert. by apply lookup_lt_Some in F1. }
  assert (kf_ofile (sf_files s1) !! d0 = Some (Some a)) as L0.
  { rewrite Eo, list_lookup_insert_ne by done. apply list_lookup_insert_eq. by apply lookup_lt_Some in F0. }
  intros e2 n buf A0 A2 A1 Hn.
  destruct (sys_write_pipe k d1 b n buf [] (SFS (sf_files s1) e2)) as (p' & E2 & Hh2 & Hl2 & _); try done; [lia|cbn; unfold PIPESIZE; lia|].
  eexists. split; [exact E2|]. intros e3 m dst B0 B2 B1 Hm. cbn [app] in Hh2.
  destruct (sys_read_pipe k d0 a m dst (load (u_mem e2) buf n) (SFS (set_kf_pipes (<[k := p']> (kf_pipes (sf_files s1))) (sf_files s1)) e3))
    as (s3 & E3 & M3); try done.
  - cbn [sf_files]. by rewrite pipe_at_set.
  - cbn [sf_files]. by rewrite pipe_at_set.
  - intros Hnil. apply (f_equal length) in Hnil. rewrite length_load in Hnil. simpl in Hnil. lia.
  - exists s3. split; [|done]. cbn [sf_files] in E3. cbn [sf_files set_sf_files]. rewrite E3. f_equal.
    rewrite length_take, length_load. lia.
Qed.

(** * A process with one open file *)

Definition null_devices : Devsw := {| dev_read _ := None; dev_write _ := None |}.
Lemma null_devices_end : @DevswEnds null_devices.
Proof. by split. Qed.

(** Two references to a file, one of them a descriptor, and two free pages. *)
Definition demo_files : kfiles :=
  KFiles false (File FD_INODE 2 true false 0 3 0 :: replicate 99 file0)
    (FState (LState log0 (BState [] ∅ ∅ ∅ [])) (Superblock 0 0 0 0 0 0 0) false (replicate NINODE inode0) 1 0)
    (replicate 2 (Pipe false (replicate 512 0) 0 0 false false [])) [0%nat; 1%nat]
    (Some 0%nat :: replicate 15 None) false.

(** Three arguments on the user stack at 100. *)
Definition demo_env (a0 a1 a2 : Z) : uenv := UEnv (st32 (st32 (st32 ∅ 104 a0) 108 a1) 112 a2) 4096 100.

Lemma demo_file_at f : f <> 0%nat -> file_at f demo_files = file0.
Proof.
  intros Hf. destruct f as [|f]; [done|]. unfold file_at, demo_files. cbn [kf_table nth].
  rewrite nth_lookup. destruct (replicate 99 file0 !! f) eqn:E; [|done]. by apply lookup_replicate in E as [-> _].
Qed.

Lemma demo_finv : finv [0%nat] demo_files /\ typed demo_files.
Proof.
  assert (open_files demo_files = [0%nat]) as Ho by reflexivity. split.
  - split; try done.
    + rewrite Ho. intros f Hf. unfold NFILE. set_solver by lia.
    + intros f _. rewrite Ho. destruct (decide (f = 0%nat)) as [->|Hf]; [done|]. rewrite demo_file_at by done.
      rewrite cnt_app, cnt_cons, decide_False, cnt_nil by done. done.
    + intros f. destruct (decide (f = 0%nat)) as [->|Hf]; [done|]. by rewrite demo_file_at.
    + cbn. split; [|repeat constructor]. apply NoDup_cons. split; [set_solver|]. apply NoDup_singleton.
    + intros [|[|[|p]]]; done.
    + intros f. destruct (decide (f = 0%nat)) as [->|Hf]; [done|]. by rewrite demo_file_at.
    + intros f g. destruct (decide (f = 0%nat)) as [->|Hf]; [done|]. by rewrite demo_file_at.
  - intros f Hf. rewrite Ho in Hf. apply list_elem_of_singleton in Hf as ->. done.
Qed.

Lemma demo_room : pipe_room demo_files.
Proof. split; [by exists 1%nat, 2%nat|]. split; [done|]. exists 1%nat, 2%nat. unfold NFILE. split_and!; [lia..|done|done]. Qed.

Definition demo_sfs : sfs := SFS demo_files (demo_env 200 0 0).

Lemma descriptors_safe_witness :
  exists s', @sys_pipe demo_sfs = Ok 0 s' /\ finv [0%nat] (sf_files s') /\ typed (sf_files s').
Proof.
  pose proof (@descriptors_safe null_devices null_devices_end [0%nat] demo_sfs sys_pipe
    ltac:(unfold file_calls; set_solver) (proj1 demo_finv) (proj2 demo_finv)) as H.
  destruct (sys_pipe demo_sfs) as [r s'| | |] eqn:E; [|exfalso; revert E; vm_compute; discriminate..].
  exists s'. split; [|exact H]. f_equal. revert E. vm_compute. by intros [= <- _].
Defined.

Lemma pipe_calls_witness :
  exists d0 d1 s1, @sys_pipe demo_sfs = Ok 0 s1 /\ (d0 < d1)%nat /\
    u_mem (sf_env s1) = st32 (st32 (u_mem (sf_env demo_sfs)) 200 (Z.of_nat d0)) 204 (Z.of_nat d1).
Proof.
  destruct (@pipe_calls null_devices [0%nat] demo_sfs 200 (proj1 demo_finv) (proj2 demo_finv) demo_room)
    as (d0 & d1 & s1 & E & _ & _ & Hlt & _ & Hm & _).
  - repeat constructor.
  - reflexivity.
  - exists d0, d1, s1. split; [exact E|]. split; [exact Hlt|exact Hm].
Defined.
